(* ===== verification/_CoqProject ===== *)
-Q . S2P
Prelude.v
Bytes.v
Kernel.v
Sync.v
Spinlock.v
Kalloc.v
Bio.v
Ide.v
Boot.v
Mp.v
Cache.v
Log.v
Txn.v
Str.v
Inode.v
Console.v
Blocks.v
Fs.v
Mkfs.v
Kbd.v
Vm.v
Frame.v
Paging.v
Uvm.v
Pipe.v
File.v
Proc.v
Life.v
Syscall.v
Exec.v
Sysfile.v
Fds.v
Sysproc.v
Umalloc.v
Trap.v
Gates.v
Apic.v
Uart.v
Simplesh.v
Shparse.v
Shround.v
Shrun.v
Shmain.v
Shint.v
Shsrc.v
Xsh.v
Xshrun.v
Oldsh.v
Oldcmd.v
Shhd.v
Grep.v
Users.v
Web.v
Arch.v
