(* ===== verification/Prelude.v ===== *)
(** * Verification of the xv6 kernel, its tools and programs, of the simplesh shells and of a web server

    The repository holds course work on operating systems.  Its programs are an xv6
    kernel with changes of the students (src/ASO/ASO2018-2019/xv6: memory that [sbrk]
    gives lazily in the page fault handler, a double-indirect block in every inode,
    [dup2], [date]), mkfs, which makes its disk, its user programs, among them the shell
    sh.c, the memory allocator umalloc.c and grep, the shell simplesh
    (src/ASO/ASO2018-2019/simplesh), an earlier version of it (src/ASO/ASOAnterior), and a
    web server (src/SSTT).
    This library models them as functions of Rocq that are read beside the C code, and
    proves what makes them correct.

    ** How the code is modelled

    A C function is a function of the monad [M S] of this file, from a state to an
    [outcome]: it returns, it panics, it does what C leaves undefined ([Fault]), it gives
    the processor up ([Swtch]) or it does not end within its bound ([Spin]).  The state of
    the kernel is the record [kernel] of Kernel.v: its global variables and its memory.  A
    pointer into a table of the kernel is the index of the entry; memory that the code
    reads through casts (pages, page tables, disk blocks) is bytes at 32-bit addresses.
    Integers are in [Z] with the wrap-around of [uint], [ushort], [uchar] and [int] written
    out.  Loops that are not over a fixed range take a bound, and the theorems about them
    say that the bound is enough: a walk along a list of buffers is bounded by their
    number, a loop over a string by its length, the parser of the shell by four calls for
    every character of the line, the reads of a file by its length, the walk of malloc
    along the free list by the number of its blocks, the queue of the disk by the requests.

    ** Files

    - Prelude (this file): machine integers, the monad, total-correctness rules, tactics.
    - Bytes: little-endian words in arrays and in memory.
    - Kernel: constants, structures and the state of the kernel (the header files).
    - Sync: locks as the kernel uses them, [sched], [sleep], [wakeup] (proc.c), sleeplock.c.
    - Spinlock: spinlock.c and [mycpu] on several processors, one memory access at a time.
    - Kalloc: kalloc.c.  Bio: memide.c and bio.c.  Ide: ide.c, on a drive with the laws of
      the class [AtaLaws].  Boot: bootmain.c, on the same drive.  Mp: mp.c.  Cache: the class [BlockCache], what the
      log and the file system rely on of the buffer cache, and its instance.
    - Log, Txn: log.c, and the transactions it implements.
    - Str: string.c and ulib.c.  Console: console.c and printf.c.  Kbd: kbd.c and uart.c.
    - Inode, Fs: fs.c.  Blocks: theorems about the bitmap and the block map.  Mkfs: mkfs.c.
    - Vm: vm.c and the page fault of trap.c.  Paging, Uvm: theorems about them.
    - Frame: what the functions of the file system and the memory leave unchanged.
    - Pipe: pipe.c.  File: file.c.  Proc: proc.c.  Life: theorems about parents and
      children.  Syscall: the arguments of syscall.c.
      Exec: exec.c.  Sysfile: sysfile.c.  Fds: theorems about descriptors.  Sysproc:
      sysproc.c and the clock of lapic.c.  Trap: the table of syscall.c and trap.c.
    - Gates: the interrupt and segment tables (mmu.h, [tvinit], [seginit]).  Apic: ioapic.c,
      picirq.c and the local APIC of lapic.c, on devices with the laws of classes.  Uart: the
      output of uart.c.
    - Simplesh: the parser of simplesh.c and its commands.  Shparse, Shround: theorems about
      the parser.  Shrun: [run_cmd].  Shmain: [main].  Shhd, Shsrc, Shint: the internal
      commands hd; src; cd, cwd and bjobs.
    - Xsh: the parser of sh.c, for any [Dialect] of it.  Xshrun: [runcmd] and [main] of sh.c.
      Oldsh: the earlier simplesh, whose parser is an instance.  Oldcmd: its tee and du.
    - Umalloc: umalloc.c.  Grep: grep.c.  Users: the mains of grep and of the small programs
      (wc, cat, ls, echo, kill, ln, mkdir, rm, date, init).  Web: web_sstt.c.
    - Arch: the exercises on processor architecture (src/AEC).

    ** Interaction of the parts

    System calls (Sysfile, Sysproc, through Trap) call files, pipes and inodes; these call
    the log, which calls the buffer cache through the interface of Cache, which calls the
    disk.  Pipes, page tables and kernel stacks take their pages from Kalloc.  Everything
    takes locks through Sync; Spinlock shows that the locks of several processors refine
    them.  A trap runs the page fault handler, which user memory accesses of the system
    calls also reach.  mkfs writes the disk that the file system reads.  The boot loader
    loads the kernel through the disk's ports; [mpinit] fills the table of processors that
    [mycpu] searches in Spinlock.  In the shells a
    line goes from the parser to [null_terminate] and [run_cmd].

    ** What the theorems show

    - The log: every step is a step of an abstract machine of atomic transactions, a crash
      at any write of a commit recovers the disk before or after it, recovery can itself be
      interrupted, and runs of calls within the reservation stay isolated; with the log
      that mkfs makes the reservation itself is one block too small.
    - The cache and the disk: [bread] returns the block's contents and never two buffers of
      one block, [bget] recycles the least recently used; the IDE driver, its queue and the
      drive together implement a disk that performs the requests one at a time, in order,
      and wakes each waiter once.
    - Start-up: the boot loader leaves every segment of the kernel in memory; [mpinit] registers
      the processors of the BIOS table, which the locks can then tell apart; the descriptor
      tables lead to the vectors and give user programs the gate of system calls only; the
      I/O APIC routes the interrupts that were enabled.
    - mkfs: the image holds exactly the files it was given, as the kernel reads them.
    - Files: [readi] returns the bytes of the file, [bmap] and [balloc] find and take the
      blocks, inodes are read back as written, paths are split at slashes.
    - Memory: what [mappages], [allocuvm], [deallocuvm], [copyuvm] and the page fault do to
      the page tables, the free list and the bytes, with the failures of lazy allocation: [fork] of a process with a hole that was never
      touched panics or loses the pages of the child.
    - Locks: mutual exclusion in every interleaving, and every schedule of the processors is
      one of whole calls of the abstract locks, in an order.
    - Processes: a parent asleep in [wait] never misses the exit of a child, in any
      sequence of the calls that change the process table.
    - Pipes are bounded queues, also while their ends are closed; reference counts of open files are exact.
    - The console edits lines as an abstract editor does; the keyboard stays in its tables.
    - The shell: the parser ends on every line and reads back every command of its
      language; arguments are the words of the line; [run_cmd] gives every program of a
      line its descriptors and leaves the shell as it was; a whole session, from the
      lines typed, internal commands and lines with errors among them, to the programs run;
      the table of jobs; hd, src, cd and bjobs.
    - sh.c and the earlier simplesh: they find the same commands as simplesh where both read
      the line; their sessions run the programs that the lines mean; tee and du.
    - malloc and free: blocks are apart, inside the process and never lost.
    - grep: the matcher decides the language of its pattern, and the lines it prints.  wc counts
      as a reference definition does, however its reads are cut; cat, ls, echo, rm and init.
    - The web server: the answer to every request for a name with an extension, and where the
      memory that malloc gave shows through it, as it does in the lines that src runs.
    - The exercises: which transformations of a loop keep its result, and under which laws.

    ** What is assumed and what is not modelled

    The kernel state is that of one processor between switches; interleaving is explicit
    where it matters, in the locks (Spinlock), in the sequences of calls of the log and of
    the pipes, and in the outcome [Swtch] of a process that sleeps.  What is not under the
    repository is a parameter: in the shells, [getopt], [read], [write], [nftw] and which
    [fork], [open] and [pipe] succeed and when a child ends; in mkfs the files of the host;
    the IDE drive, the interrupt controllers and the memory that the BIOS left; in the web
    server and in src what [malloc] gives, any bytes of the size asked for, and what the calls
    on sockets return.  Not modelled: the order of
    initialisation in main.c and the start of the other processors; the context switch and the entry code in assembly; the programs that only
    test the kernel; and the set-up of signals, the options and the prompt of the shells.
    The kernel theorems
    are about the kernel with the disk in memory of memide.c; Ide is about its driver alone. *)

From Stdlib Require Export ZArith Lia.
From stdpp Require Export base gmap strings option list.

#[export] Set Default Goal Selector "!".
#[global] Open Scope Z_scope.

(** ** Machine integers *)

(** C's [uint], [ushort], [uchar] and [int] as values of [Z] with the wrap
    around written out. *)
Definition u32 (x : Z) : Z := x mod 2 ^ 32.
Definition u16 (x : Z) : Z := x mod 2 ^ 16.
Definition u8 (x : Z) : Z := x mod 2 ^ 8.
Definition i32 (x : Z) : Z := if u32 x <? 2 ^ 31 then u32 x else u32 x - 2 ^ 32.
Definition i16 (x : Z) : Z := if u16 x <? 2 ^ 15 then u16 x else u16 x - 2 ^ 16.

Lemma u32_range x : 0 <= u32 x < 2 ^ 32.
Proof. apply Z.mod_pos_bound; lia. Qed.

Lemma u8_range x : 0 <= u8 x < 256.
Proof. apply (Z.mod_pos_bound x 256); lia. Qed.

Lemma u16_range x : 0 <= u16 x < 65536.
Proof. apply (Z.mod_pos_bound x 65536); lia. Qed.

Lemma u32_small x : 0 <= x < 2 ^ 32 -> u32 x = x.
Proof. apply Z.mod_small. Qed.

Lemma u16_small x : 0 <= x < 65536 -> u16 x = x.
Proof. apply (Z.mod_small x 65536). Qed.

Lemma u8_small x : 0 <= x < 256 -> u8 x = x.
Proof. apply (Z.mod_small x 256). Qed.

Lemma i32_small x : - 2 ^ 31 <= x < 2 ^ 31 -> i32 x = x.
Proof.
  intros H. unfold i32, u32.
  destruct (decide (0 <= x)).
  - rewrite Z.mod_small by lia. destruct (Z.ltb_spec x (2 ^ 31)); lia.
  - replace (x mod 2 ^ 32) with (x + 2 ^ 32).
    + destruct (Z.ltb_spec (x + 2 ^ 32) (2 ^ 31)); lia.
    + rewrite <- (Z_mod_plus_full x 1 (2 ^ 32)), Z.mul_1_l, Z.mod_small; lia.
Qed.

Lemma i32_range x : - 2 ^ 31 <= i32 x < 2 ^ 31.
Proof.
  unfold i32. pose proof (u32_range x).
  destruct (Z.ltb_spec (u32 x) (2 ^ 31)); lia.
Qed.

(** Ranges of machine integers, for [auto with words]. *)
Create HintDb words.
#[export] Hint Resolve u8_range u16_range u32_range i32_range : words.
#[export] Hint Rewrite u8_small u16_small u32_small i32_small using lia : words.

(** ** Characters *)

(** The characters of a string literal. *)
Fixpoint chars (s : string) : list Z :=
  match s with
  | EmptyString => []
  | String a s' => Z.of_N (Ascii.N_of_ascii a) :: chars s'
  end.

(** ** Outcomes and the kernel monad *)

(** What a run of a C function from a state can come to.  [Panic] is the
    kernel's [panic] (the machine stops), [Fault] a C access the language leaves
    undefined (a null pointer, an index outside an array), [Swtch s] that the
    running process gave the processor up inside the call ([sched]), leaving the
    state [s], and [Spin] that a loop did not finish within its bound. *)
Inductive outcome (S A : Type) : Type :=
| Ok (a : A) (s : S)
| Panic (msg : string)
| Fault (what : string)
| Swtch (s : S)
| Spin.
Arguments Ok {S A} a s.
Arguments Panic {S A} msg.
Arguments Fault {S A} what.
Arguments Swtch {S A} s.
Arguments Spin {S A}.

Definition M (S A : Type) : Type := S -> outcome S A.

Definition ret {S A} (a : A) : M S A := fun s => Ok a s.
Definition bind {S A B} (m : M S A) (f : A -> M S B) : M S B := fun s =>
  match m s with
  | Ok a s' => f a s'
  | Panic msg => Panic msg
  | Fault what => Fault what
  | Swtch s' => Swtch s'
  | Spin => Spin
  end.
Definition get {S} : M S S := fun s => Ok s s.
Definition gets {S A} (f : S -> A) : M S A := fun s => Ok (f s) s.
Definition put {S} (s : S) : M S unit := fun _ => Ok tt s.
Definition modify {S} (f : S -> S) : M S unit := fun s => Ok tt (f s).
Definition panic {S A} (msg : string) : M S A := fun _ => Panic msg.
Definition fault {S A} (what : string) : M S A := fun _ => Fault what.
Definition spin {S A} : M S A := fun _ => Spin.

(** Reading an array element or a pointer that must be there. *)
Definition deref {S A} (o : option A) : M S A :=
  match o with Some a => ret a | None => fault "dereference" end.

Definition when {S} (b : bool) (m : M S unit) : M S unit :=
  if b then m else ret tt.

Declare Scope kernel_scope.
Delimit Scope kernel_scope with K.
Notation "'let!' x ':=' m 'in' k" := (bind m (fun x => k))
  (at level 10, x name, m at level 100, k at level 200)
  : kernel_scope.
Notation "'let!' ' p ':=' m 'in' k" := (bind m (fun x => match x with p => k end))
  (at level 10, p strict pattern, m at level 100, k at level 200)
  : kernel_scope.
Notation "m1 ;;; m2" := (bind m1 (fun _ => m2))
  (at level 199, right associativity) : kernel_scope.
#[global] Open Scope kernel_scope.

(** [for(j = i; n more iterations; j++) body]: [Some v] from the body is a
    [return v] or a [break] out of the loop. *)
Fixpoint for_range {S R} (n : nat) (i : Z) (body : Z -> M S (option R)) : M S (option R) :=
  match n with
  | O => ret None
  | S n' =>
      let! r := body i in
      match r with
      | Some v => ret (Some v)
      | None => for_range n' (i + 1) body
      end
  end.

(** ** Weakest preconditions (total correctness) *)

Definition wp {S A} (m : M S A) (Q : A -> S -> Prop) (s : S) : Prop :=
  match m s with Ok a s' => Q a s' | _ => False end.

Section Wp.
Context {S : Type}.

Lemma wp_intro {A} (m : M S A) a s s' (Q : A -> S -> Prop) :
  m s = Ok a s' -> Q a s' -> wp m Q s.
Proof. unfold wp. by intros ->. Qed.

Lemma wp_elim {A} (m : M S A) s (Q : A -> S -> Prop) :
  wp m Q s -> exists a s', m s = Ok a s' /\ Q a s'.
Proof. unfold wp. destruct (m s); naive_solver. Qed.

Lemma wp_ret {A} (a : A) (Q : A -> S -> Prop) s : Q a s -> wp (ret a) Q s.
Proof. done. Qed.

Lemma wp_bind {A B} (m : M S A) (f : A -> M S B) (Q : B -> S -> Prop) s :
  wp m (fun a s' => wp (f a) Q s') s -> wp (bind m f) Q s.
Proof. unfold wp, bind. destruct (m s); done. Qed.

Lemma wp_mono {A} (m : M S A) (P Q : A -> S -> Prop) s :
  wp m P s -> (forall a s', P a s' -> Q a s') -> wp m Q s.
Proof. unfold wp. destruct (m s); naive_solver. Qed.

Lemma wp_for_range {R} (n : nat) i (body : Z -> M S (option R))
    (I : Z -> S -> Prop) (Q : option R -> S -> Prop) s :
  I i s ->
  (forall j s, i <= j < i + Z.of_nat n -> I j s ->
     wp (body j) (fun r s' => match r with None => I (j + 1) s' | Some v => Q (Some v) s' end) s) ->
  (forall s, I (i + Z.of_nat n) s -> Q None s) ->
  wp (for_range n i body) Q s.
Proof.
  revert i s. induction n as [|n IH]; intros i s Hi Hb Hq; cbn [for_range].
  - apply wp_ret, Hq. by replace (i + Z.of_nat 0) with i by lia.
  - apply wp_bind. eapply wp_mono; [apply Hb; [lia|done]|].
    intros [v|] s' HI; [by apply wp_ret|].
    apply IH; [done| |].
    + intros j s0 Hj. apply Hb; lia.
    + intros s0. replace (i + 1 + Z.of_nat n) with (i + Z.of_nat (Datatypes.S n)) by lia. apply Hq.
Qed.

Lemma bind_ok {A B} (m : M S A) (f : A -> M S B) a s s' :
  m s = Ok a s' -> bind m f s = f a s'.
Proof. unfold bind. by intros ->. Qed.

Lemma bind_ok_inv {A B} (m : M S A) (f : A -> M S B) b s s' :
  bind m f s = Ok b s' -> exists a s1, m s = Ok a s1 /\ f a s1 = Ok b s'.
Proof. unfold bind. destruct (m s); naive_solver. Qed.

End Wp.

(** A closed decidable goal. *)
Ltac by_decide := by apply (bool_decide_unpack _).

(** Unfold the monad at the head of a goal or everywhere. *)
Ltac mred := unfold bind, ret, get, gets, put, modify, panic, fault, when, deref in *; cbn beta iota in *.

(** Run the first command of a sequence, given what it returns. *)
Tactic Notation "mstep" uconstr(H) :=
  rewrite (bind_ok _ _ _ _ _ H); cbn beta iota delta [negb].
Ltac mget := cbn beta iota delta [negb]; unfold bind at 1, get at 1; cbn beta iota delta [negb].

(** Split the next boolean test of a goal into its two cases. *)
Ltac case_bool :=
  match goal with
  | |- context [if ?b then _ else _] => destruct b eqn:?
  end.

Ltac zify_bool :=
  repeat match goal with
  | H : (_ && _)%bool = true |- _ => apply andb_true_iff in H as [? ?]
  | H : (_ && _)%bool = false |- _ => apply andb_false_iff in H
  | H : (_ || _)%bool = true |- _ => apply orb_true_iff in H
  | H : (_ || _)%bool = false |- _ => apply orb_false_iff in H as [? ?]
  | H : negb _ = true |- _ => apply negb_true_iff in H
  | H : negb _ = false |- _ => apply negb_false_iff in H
  | H : (_ =? _) = true |- _ => apply Z.eqb_eq in H
  | H : (_ =? _) = false |- _ => apply Z.eqb_neq in H
  | H : (_ <? _) = true |- _ => apply Z.ltb_lt in H
  | H : (_ <? _) = false |- _ => apply Z.ltb_ge in H
  | H : (_ <=? _) = true |- _ => apply Z.leb_le in H
  | H : (_ <=? _) = false |- _ => apply Z.leb_gt in H
  | H : (_ >=? _) = true |- _ => apply Z.geb_le in H
  | H : (_ >=? _) = false |- _ => rewrite Z.geb_leb in H; apply Z.leb_gt in H
  | H : (_ >? _) = true |- _ => apply Z.gtb_lt in H
  | H : (_ >? _) = false |- _ => rewrite Z.gtb_ltb in H; apply Z.ltb_ge in H
  end.
