(* ===== verification/Bytes.v ===== *)
(** * Bytes: little-endian words in byte arrays and in memory

    The kernel reads and writes 16- and 32-bit fields in disk blocks, in user
    memory and in page tables through pointer casts.  This file holds the codec
    those casts perform on a little-endian machine, for arrays ([list Z]) and for
    byte memory ([Z -> Z]), with the read-over-write lemmas the components share. *)

From S2P Require Import Prelude.

(** ** Little-endian words *)

Fixpoint le_bytes (n : nat) (x : Z) : list Z :=
  match n with
  | O => []
  | S n' => u8 x :: le_bytes n' (x / 256)
  end.

Fixpoint le_val (l : list Z) : Z :=
  match l with
  | [] => 0
  | b :: l' => b + 256 * le_val l'
  end.

Lemma length_le_bytes n x : length (le_bytes n x) = n.
Proof. revert x; induction n; intros; simpl; auto. Qed.

Lemma le_val_bytes n x : le_val (le_bytes n x) = x mod 256 ^ Z.of_nat n.
Proof.
  revert x. induction n as [|n IH]; intros x.
  - by rewrite Z.mod_1_r.
  - cbn [le_bytes le_val]. rewrite IH. unfold u8. change (2 ^ 8) with 256.
    rewrite Nat2Z.inj_succ, Z.pow_succ_r by lia.
    rewrite Z.rem_mul_r by lia. lia.
Qed.

Lemma le_val4_bytes x : le_val (le_bytes 4 x) = u32 x.
Proof. apply le_val_bytes. Qed.

Lemma le_val2_bytes x : le_val (le_bytes 2 x) = u16 x.
Proof. apply le_val_bytes. Qed.

Lemma le_bytes_bounded n x : Forall (fun b => 0 <= b < 256) (le_bytes n x).
Proof. revert x; induction n; intros; simpl; constructor; auto using u8_range. Qed.

Lemma le_val_nonneg l : Forall (fun b => 0 <= b < 256) l -> 0 <= le_val l.
Proof. induction 1; simpl; lia. Qed.

Lemma le_val_bounded l :
  Forall (fun b => 0 <= b < 256) l -> le_val l < 256 ^ Z.of_nat (length l).
Proof.
  induction 1 as [|b l Hb Hl IH]; [simpl; lia|].
  cbn [le_val length]. rewrite Nat2Z.inj_succ, Z.pow_succ_r by lia. nia.
Qed.

Lemma le_val_inj l1 l2 :
  Forall (fun b => 0 <= b < 256) l1 -> Forall (fun b => 0 <= b < 256) l2 ->
  length l1 = length l2 -> le_val l1 = le_val l2 -> l1 = l2.
Proof.
  intros H1. revert l2. induction H1 as [|b1 l1 Hb1 H1 IH]; intros [|b2 l2] H2 Hl Hv;
    simplify_eq/=; [done|].
  inversion H2; subst. assert (b1 = b2) as -> by lia. f_equal. apply IH; auto; lia.
Qed.

(** ** Arrays *)

(** Overwrite [length s] elements of [l] from offset [off] ([memmove] between
    distinct arrays, or a field assignment through a cast pointer). *)
Definition splice {A} (l : list A) (off : nat) (s : list A) : list A :=
  take off l ++ s ++ drop (off + length s) l.

(** [*(uint* )(l + off)] and [*(ushort* )(l + off)], read and written. *)
Definition get32 (l : list Z) (off : nat) : Z := le_val (take 4 (drop off l)).
Definition get16 (l : list Z) (off : nat) : Z := le_val (take 2 (drop off l)).
Definition set32 (l : list Z) (off : nat) (v : Z) : list Z := splice l off (le_bytes 4 v).
Definition set16 (l : list Z) (off : nat) (v : Z) : list Z := splice l off (le_bytes 2 v).

(** [l[off .. off+n)]. *)
Definition slice {A} (l : list A) (off n : nat) : list A := take n (drop off l).

Lemma length_splice {A} (l : list A) off s :
  (off + length s <= length l)%nat -> length (splice l off s) = length l.
Proof. unfold splice. intros. rewrite !length_app, length_take, length_drop. lia. Qed.

Lemma length_slice {A} (l : list A) off n :
  (off + n <= length l)%nat -> length (slice l off n) = n.
Proof. unfold slice. intros. rewrite length_take, length_drop. lia. Qed.

Lemma slice_splice_eq {A} (l : list A) off s :
  (off <= length l)%nat -> slice (splice l off s) off (length s) = s.
Proof.
  intros. unfold slice, splice.
  rewrite drop_app_length' by (rewrite length_take; lia).
  apply take_app_length.
Qed.

Lemma lookup_splice {A} (l : list A) off s i :
  (off + length s <= length l)%nat ->
  splice l off s !! i =
    if decide (off <= i < off + length s)%nat then s !! (i - off)%nat else l !! i.
Proof.
  intros H. unfold splice. case_decide as Hi.
  - rewrite lookup_app_r by (rewrite length_take; lia).
    rewrite length_take. replace (i - off `min` length l)%nat with (i - off)%nat by lia.
    apply lookup_app_l. lia.
  - destruct (decide (i < off)%nat).
    + rewrite lookup_app_l by (rewrite length_take; lia). by apply lookup_take_lt.
    + rewrite lookup_app_r by (rewrite length_take; lia).
      rewrite lookup_app_r by (rewrite length_take; lia).
      rewrite lookup_drop, length_take. f_equal. lia.
Qed.

Lemma lookup_slice {A} (l : list A) off n i :
  slice l off n !! i = if decide (i < n)%nat then l !! (off + i)%nat else None.
Proof.
  unfold slice. case_decide.
  - by rewrite lookup_take_lt, lookup_drop.
  - apply lookup_take_ge. lia.
Qed.

Lemma slice_splice_ne {A} (l : list A) off s off' n :
  (off + length s <= length l)%nat ->
  (off' + n <= off \/ off + length s <= off')%nat ->
  slice (splice l off s) off' n = slice l off' n.
Proof.
  intros Hl Hd. apply list_eq. intros i. rewrite !lookup_slice.
  case_decide; [|done]. rewrite lookup_splice by done. case_decide; [lia|done].
Qed.

Lemma splice_id {A} (l : list A) off n :
  (off + n <= length l)%nat -> splice l off (slice l off n) = l.
Proof.
  intros Hl. apply list_eq. intros i.
  rewrite lookup_splice by (rewrite length_slice; lia).
  rewrite length_slice by lia. case_decide; [|done].
  rewrite lookup_slice. case_decide; [|lia]. f_equal. lia.
Qed.

Lemma get32_set32_eq l off v :
  (off <= length l)%nat -> get32 (set32 l off v) off = u32 v.
Proof.
  intros. unfold get32, set32. pose proof (slice_splice_eq l off (le_bytes 4 v)) as E.
  rewrite length_le_bytes in E. unfold slice in E. rewrite E by lia. apply le_val4_bytes.
Qed.

Lemma get16_set16_eq l off v :
  (off <= length l)%nat -> get16 (set16 l off v) off = u16 v.
Proof.
  intros. unfold get16, set16. pose proof (slice_splice_eq l off (le_bytes 2 v)) as E.
  rewrite length_le_bytes in E. unfold slice in E. rewrite E by lia. apply le_val2_bytes.
Qed.

Lemma get32_splice_ne l off s off' :
  (off + length s <= length l)%nat ->
  (off' + 4 <= off \/ off + length s <= off')%nat ->
  get32 (splice l off s) off' = get32 l off'.
Proof. intros. unfold get32. f_equal. by apply (slice_splice_ne l off s off' 4). Qed.

Lemma get16_splice_ne l off s off' :
  (off + length s <= length l)%nat ->
  (off' + 2 <= off \/ off + length s <= off')%nat ->
  get16 (splice l off s) off' = get16 l off'.
Proof. intros. unfold get16. f_equal. by apply (slice_splice_ne l off s off' 2). Qed.

Lemma length_set32 l off v :
  (off + 4 <= length l)%nat -> length (set32 l off v) = length l.
Proof. intros. apply length_splice. by rewrite length_le_bytes. Qed.

Lemma length_set16 l off v :
  (off + 2 <= length l)%nat -> length (set16 l off v) = length l.
Proof. intros. apply length_splice. by rewrite length_le_bytes. Qed.

Lemma get32_set32_ne l off off' v :
  (off + 4 <= length l)%nat -> (off' + 4 <= off \/ off + 4 <= off')%nat ->
  get32 (set32 l off v) off' = get32 l off'.
Proof. intros. apply get32_splice_ne; by rewrite length_le_bytes. Qed.

(** ** Byte memory *)

(** Physical memory as the kernel sees it: one byte per kernel virtual address. *)
Definition mem := Z -> Z.

Definition load32 (m : mem) (a : Z) : Z :=
  le_val [m a; m (a + 1); m (a + 2); m (a + 3)].

Definition store_bytes (m : mem) (a : Z) (bs : list Z) : mem := fun x =>
  if (a <=? x) && (x <? a + Z.of_nat (length bs)) then
    default 0 (bs !! Z.to_nat (x - a))
  else m x.

Definition store32 (m : mem) (a v : Z) : mem := store_bytes m a (le_bytes 4 v).

Definition load_bytes (m : mem) (a : Z) (n : nat) : list Z :=
  (fun i : nat => m (a + Z.of_nat i)) <$> seq 0 n.

Lemma store_bytes_out m a bs x :
  x < a \/ a + Z.of_nat (length bs) <= x -> store_bytes m a bs x = m x.
Proof.
  intros. unfold store_bytes. destruct (Z.leb_spec a x), (Z.ltb_spec x (a + Z.of_nat (length bs)));
    simpl; auto; lia.
Qed.

Lemma store_bytes_in m a bs i b :
  bs !! i = Some b -> store_bytes m a bs (a + Z.of_nat i) = b.
Proof.
  intros Hi. pose proof (lookup_lt_Some _ _ _ Hi). unfold store_bytes.
  rewrite (proj2 (Z.leb_le _ _)), (proj2 (Z.ltb_lt _ _)) by lia. simpl.
  replace (Z.to_nat (a + Z.of_nat i - a)) with i by lia. by rewrite Hi.
Qed.

Lemma store32_out m a v x : x < a \/ a + 4 <= x -> store32 m a v x = m x.
Proof. intros. apply store_bytes_out. rewrite length_le_bytes. lia. Qed.

Lemma load32_store32_eq m a v : load32 (store32 m a v) a = u32 v.
Proof.
  unfold load32.
  assert (forall i b, le_bytes 4 v !! i = Some b -> store32 m a v (a + Z.of_nat i) = b) as H.
  { intros. by apply store_bytes_in. }
  pose proof (H 0%nat _ eq_refl) as H0. pose proof (H 1%nat _ eq_refl) as H1.
  pose proof (H 2%nat _ eq_refl) as H2. pose proof (H 3%nat _ eq_refl) as H3.
  change (Z.of_nat 1) with 1 in H1. change (Z.of_nat 2) with 2 in H2.
  change (Z.of_nat 3) with 3 in H3. rewrite Z.add_0_r in H0.
  rewrite H0, H1, H2, H3. apply (le_val4_bytes v).
Qed.

Lemma load32_agree m m' a :
  (forall x, a <= x < a + 4 -> m x = m' x) -> load32 m a = load32 m' a.
Proof. intros H. unfold load32. by rewrite !H by lia. Qed.

Lemma load32_store32_ne m a v a' :
  a' + 4 <= a \/ a + 4 <= a' -> load32 (store32 m a v) a' = load32 m a'.
Proof. intros. apply load32_agree. intros. apply store32_out. lia. Qed.
