(* ===== verification/Kernel.v ===== *)
(** * Kernel: constants, structures and the global state

    The constants and structures of the kernel headers (param.h, memlayout.h,
    mmu.h, types.h, fs.h, buf.h, stat.h, fcntl.h, file.h, proc.h, sleeplock.h,
    date.h, x86.h) and the record of the kernel's global variables that the C files
    share.  A pointer into one of the kernel's tables is the index of the entry
    ([None] for a null pointer); an address is a 32-bit number.  Every structure
    has one setter per field, [set_<field> v x]. *)

From S2P Require Import Prelude Bytes.

(** ** Constants *)

Definition NPROC : nat := 64.
Definition KSTACKSIZE : Z := 4096.
Definition NCPU : nat := 8.
Definition NOFILE : nat := 16.
Definition NFILE : nat := 100.
Definition NINODE : nat := 50.
Definition NDEV : Z := 10.
Definition ROOTDEV : Z := 1.
Definition MAXARG : nat := 32.
Definition MAXOPBLOCKS : Z := 10.
Definition LOGSIZE : Z := MAXOPBLOCKS * 3.
Definition NBUF : nat := 30.
Definition FSSIZE : Z := 20000.

Definition EXTMEM : Z := 0x100000.
Definition PHYSTOP : Z := 0xE000000.
Definition DEVSPACE : Z := 0xFE000000.
Definition KERNBASE : Z := 0x80000000.
Definition KERNLINK : Z := KERNBASE + EXTMEM.
Definition V2P (a : Z) : Z := u32 (a - KERNBASE).
Definition P2V (a : Z) : Z := u32 (a + KERNBASE).

Definition NPDENTRIES : nat := 1024.
Definition NPTENTRIES : nat := 1024.
Definition PGSIZE : Z := 4096.
Definition PTXSHIFT : Z := 12.
Definition PDXSHIFT : Z := 22.
Definition PDX (va : Z) : Z := Z.land (Z.shiftr (u32 va) PDXSHIFT) 0x3FF.
Definition PTX (va : Z) : Z := Z.land (Z.shiftr (u32 va) PTXSHIFT) 0x3FF.
Definition PGADDR (d t o : Z) : Z :=
  u32 (Z.lor (Z.lor (Z.shiftl d PDXSHIFT) (Z.shiftl t PTXSHIFT)) o).
Definition PGROUNDUP (sz : Z) : Z := Z.land (u32 (sz + PGSIZE - 1)) (Z.lnot (PGSIZE - 1)).
Definition PGROUNDDOWN (a : Z) : Z := Z.land a (Z.lnot (PGSIZE - 1)).
Definition PTE_P : Z := 0x001.
Definition PTE_W : Z := 0x002.
Definition PTE_U : Z := 0x004.
Definition PTE_PS : Z := 0x080.
Definition PTE_ADDR (pte : Z) : Z := Z.land pte (Z.lnot 0xFFF).
Definition PTE_FLAGS (pte : Z) : Z := Z.land pte 0xFFF.
Definition FL_IF : Z := 0x200.
Definition SEG_KCODE : Z := 1.
Definition SEG_KDATA : Z := 2.
Definition SEG_UCODE : Z := 3.
Definition SEG_UDATA : Z := 4.
Definition SEG_TSS : Z := 5.
Definition DPL_USER : Z := 3.

Definition ROOTINO : Z := 1.
Definition BSIZE : Z := 512.
Definition NDIRECT : Z := 11.
Definition NINDIRECT : Z := BSIZE / 4.
Definition MAXFILE : Z := NDIRECT + NINDIRECT + NINDIRECT * NINDIRECT.
Definition DIRSIZ : nat := 14.
(** [sizeof(struct dinode)]: four shorts, the size and [NDIRECT+2] addresses. *)
Definition sizeof_dinode : Z := 64.
Definition sizeof_dirent : Z := 16.
Definition IPB : Z := BSIZE / sizeof_dinode.
Definition BPB : Z := BSIZE * 8.

Definition B_VALID : Z := 0x2.
Definition B_DIRTY : Z := 0x4.

Definition T_DIR : Z := 1.
Definition T_FILE : Z := 2.
Definition T_DEV : Z := 3.

Definition O_RDONLY : Z := 0x000.
Definition O_WRONLY : Z := 0x001.
Definition O_RDWR : Z := 0x002.
Definition O_CREATE : Z := 0x200.

Definition PIPESIZE : Z := 512.
Definition CONSOLE : Z := 1.
Definition INPUT_BUF : Z := 128.

(** [v] has a bit of [mask] set: C's [(v & mask)] as a condition. *)
Definition has (v mask : Z) : bool := negb (Z.land v mask =? 0).

(** ** Locks and sleep channels *)

(** The kernel's spin locks, each named after the variable it is.  [L_buf i] and
    [L_inode i] are the spin locks inside the sleep locks of buffer and inode [i],
    [L_pipe p] the lock of the pipe in the page at [p]. *)
Inductive lockid : Type :=
| L_kmem | L_ptable | L_bcache | L_log | L_icache | L_ftable | L_ide | L_cons | L_ticks
| L_buf (i : nat) | L_inode (i : nat) | L_pipe (p : Z).

#[export] Instance lockid_eq_dec : EqDecision lockid.
Proof. solve_decision. Defined.

(** The addresses processes sleep on.  [C_none] is the null channel. *)
Inductive chan : Type :=
| C_none
| C_buf (i : nat)          (* a buffer, waiting for the disk *)
| C_buflock (i : nat)      (* its sleep lock *)
| C_inodelock (i : nat)    (* an inode's sleep lock *)
| C_log                    (* &log *)
| C_nread (p : Z) | C_nwrite (p : Z)   (* &p->nread, &p->nwrite of a pipe *)
| C_input                  (* &input.r *)
| C_ticks                  (* &ticks *)
| C_proc (i : nat).        (* a struct proc, in wait() *)

#[export] Instance chan_eq_dec : EqDecision chan.
Proof. solve_decision. Defined.

(** ** Structures *)

(** [struct sleeplock]; the spin lock [lk] inside it is [L_buf] or [L_inode]. *)
Record sleeplock : Type := mk_sleeplock {
  sl_locked : bool;
  sl_pid : Z
}.

Definition set_sl_locked (v : bool) (x : sleeplock) : sleeplock :=
  mk_sleeplock v (sl_pid x).
Definition set_sl_pid (v : Z) (x : sleeplock) : sleeplock :=
  mk_sleeplock (sl_locked x) v.

(** [struct buf] ([qnext] belongs to ide.c and is not part of this structure). *)
Record buf : Type := mk_buf {
  b_flags : Z;
  b_dev : Z;
  b_blockno : Z;
  b_lock : sleeplock;
  b_refcnt : Z;
  b_prev : nat;
  b_next : nat;
  b_data : list Z
}.

Definition set_b_flags (v : Z) (x : buf) : buf :=
  mk_buf v (b_dev x) (b_blockno x) (b_lock x) (b_refcnt x) (b_prev x) (b_next x) (b_data x).
Definition set_b_dev (v : Z) (x : buf) : buf :=
  mk_buf (b_flags x) v (b_blockno x) (b_lock x) (b_refcnt x) (b_prev x) (b_next x) (b_data x).
Definition set_b_blockno (v : Z) (x : buf) : buf :=
  mk_buf (b_flags x) (b_dev x) v (b_lock x) (b_refcnt x) (b_prev x) (b_next x) (b_data x).
Definition set_b_lock (v : sleeplock) (x : buf) : buf :=
  mk_buf (b_flags x) (b_dev x) (b_blockno x) v (b_refcnt x) (b_prev x) (b_next x) (b_data x).
Definition set_b_refcnt (v : Z) (x : buf) : buf :=
  mk_buf (b_flags x) (b_dev x) (b_blockno x) (b_lock x) v (b_prev x) (b_next x) (b_data x).
Definition set_b_prev (v : nat) (x : buf) : buf :=
  mk_buf (b_flags x) (b_dev x) (b_blockno x) (b_lock x) (b_refcnt x) v (b_next x) (b_data x).
Definition set_b_next (v : nat) (x : buf) : buf :=
  mk_buf (b_flags x) (b_dev x) (b_blockno x) (b_lock x) (b_refcnt x) (b_prev x) v (b_data x).
Definition set_b_data (v : list Z) (x : buf) : buf :=
  mk_buf (b_flags x) (b_dev x) (b_blockno x) (b_lock x) (b_refcnt x) (b_prev x) (b_next x) v.

(** [struct superblock]. *)
Record superblock : Type := mk_superblock {
  sb_size : Z;
  sb_nblocks : Z;
  sb_ninodes : Z;
  sb_nlog : Z;
  sb_logstart : Z;
  sb_inodestart : Z;
  sb_bmapstart : Z
}.

(** [struct inode], the in-memory copy of an inode. *)
Record inode : Type := mk_inode {
  i_dev : Z;
  i_inum : Z;
  i_ref : Z;
  i_lock : sleeplock;
  i_valid : bool;
  i_type : Z;
  i_major : Z;
  i_minor : Z;
  i_nlink : Z;
  i_size : Z;
  i_addrs : list Z
}.

Definition set_i_dev (v : Z) (x : inode) : inode :=
  mk_inode v (i_inum x) (i_ref x) (i_lock x) (i_valid x) (i_type x) (i_major x) (i_minor x)
   (i_nlink x) (i_size x) (i_addrs x).
Definition set_i_inum (v : Z) (x : inode) : inode :=
  mk_inode (i_dev x) v (i_ref x) (i_lock x) (i_valid x) (i_type x) (i_major x) (i_minor x)
   (i_nlink x) (i_size x) (i_addrs x).
Definition set_i_ref (v : Z) (x : inode) : inode :=
  mk_inode (i_dev x) (i_inum x) v (i_lock x) (i_valid x) (i_type x) (i_major x) (i_minor x)
   (i_nlink x) (i_size x) (i_addrs x).
Definition set_i_lock (v : sleeplock) (x : inode) : inode :=
  mk_inode (i_dev x) (i_inum x) (i_ref x) v (i_valid x) (i_type x) (i_major x) (i_minor x)
   (i_nlink x) (i_size x) (i_addrs x).
Definition set_i_valid (v : bool) (x : inode) : inode :=
  mk_inode (i_dev x) (i_inum x) (i_ref x) (i_lock x) v (i_type x) (i_major x) (i_minor x) (i_nlink
   x) (i_size x) (i_addrs x).
Definition set_i_type (v : Z) (x : inode) : inode :=
  mk_inode (i_dev x) (i_inum x) (i_ref x) (i_lock x) (i_valid x) v (i_major x) (i_minor x)
   (i_nlink x) (i_size x) (i_addrs x).
Definition set_i_major (v : Z) (x : inode) : inode :=
  mk_inode (i_dev x) (i_inum x) (i_ref x) (i_lock x) (i_valid x) (i_type x) v (i_minor x) (i_nlink
   x) (i_size x) (i_addrs x).
Definition set_i_minor (v : Z) (x : inode) : inode :=
  mk_inode (i_dev x) (i_inum x) (i_ref x) (i_lock x) (i_valid x) (i_type x) (i_major x) v (i_nlink
   x) (i_size x) (i_addrs x).
Definition set_i_nlink (v : Z) (x : inode) : inode :=
  mk_inode (i_dev x) (i_inum x) (i_ref x) (i_lock x) (i_valid x) (i_type x) (i_major x) (i_minor
   x) v (i_size x) (i_addrs x).
Definition set_i_size (v : Z) (x : inode) : inode :=
  mk_inode (i_dev x) (i_inum x) (i_ref x) (i_lock x) (i_valid x) (i_type x) (i_major x) (i_minor
   x) (i_nlink x) v (i_addrs x).
Definition set_i_addrs (v : list Z) (x : inode) : inode :=
  mk_inode (i_dev x) (i_inum x) (i_ref x) (i_lock x) (i_valid x) (i_type x) (i_major x) (i_minor
   x) (i_nlink x) (i_size x) v.

Inductive filetype : Type := FD_NONE | FD_PIPE | FD_INODE.

#[export] Instance filetype_eq_dec : EqDecision filetype.
Proof. solve_decision. Defined.

(** [struct file]. *)
Record file : Type := mk_file {
  f_type : filetype;
  f_ref : Z;
  f_readable : bool;
  f_writable : bool;
  f_pipe : Z;
  f_ip : option nat;
  f_off : Z
}.

Definition set_f_type (v : filetype) (x : file) : file :=
  mk_file v (f_ref x) (f_readable x) (f_writable x) (f_pipe x) (f_ip x) (f_off x).
Definition set_f_ref (v : Z) (x : file) : file :=
  mk_file (f_type x) v (f_readable x) (f_writable x) (f_pipe x) (f_ip x) (f_off x).
Definition set_f_readable (v : bool) (x : file) : file :=
  mk_file (f_type x) (f_ref x) v (f_writable x) (f_pipe x) (f_ip x) (f_off x).
Definition set_f_writable (v : bool) (x : file) : file :=
  mk_file (f_type x) (f_ref x) (f_readable x) v (f_pipe x) (f_ip x) (f_off x).
Definition set_f_pipe (v : Z) (x : file) : file :=
  mk_file (f_type x) (f_ref x) (f_readable x) (f_writable x) v (f_ip x) (f_off x).
Definition set_f_ip (v : option nat) (x : file) : file :=
  mk_file (f_type x) (f_ref x) (f_readable x) (f_writable x) (f_pipe x) v (f_off x).
Definition set_f_off (v : Z) (x : file) : file :=
  mk_file (f_type x) (f_ref x) (f_readable x) (f_writable x) (f_pipe x) (f_ip x) v.

(** [struct pipe]. *)
Record pipe : Type := mk_pipe {
  p_data : list Z;
  p_nread : Z;
  p_nwrite : Z;
  p_readopen : bool;
  p_writeopen : bool
}.

Definition set_p_data (v : list Z) (x : pipe) : pipe :=
  mk_pipe v (p_nread x) (p_nwrite x) (p_readopen x) (p_writeopen x).
Definition set_p_nread (v : Z) (x : pipe) : pipe :=
  mk_pipe (p_data x) v (p_nwrite x) (p_readopen x) (p_writeopen x).
Definition set_p_nwrite (v : Z) (x : pipe) : pipe :=
  mk_pipe (p_data x) (p_nread x) v (p_readopen x) (p_writeopen x).
Definition set_p_readopen (v : bool) (x : pipe) : pipe :=
  mk_pipe (p_data x) (p_nread x) (p_nwrite x) v (p_writeopen x).
Definition set_p_writeopen (v : bool) (x : pipe) : pipe :=
  mk_pipe (p_data x) (p_nread x) (p_nwrite x) (p_readopen x) v.

Inductive procstate : Type := UNUSED | EMBRYO | SLEEPING | RUNNABLE | RUNNING | ZOMBIE.

#[export] Instance procstate_eq_dec : EqDecision procstate.
Proof. solve_decision. Defined.

(** [struct trapframe] without its padding. *)
Record trapframe : Type := mk_trapframe {
  tf_edi : Z;
  tf_esi : Z;
  tf_ebp : Z;
  tf_oesp : Z;
  tf_ebx : Z;
  tf_edx : Z;
  tf_ecx : Z;
  tf_eax : Z;
  tf_gs : Z;
  tf_fs : Z;
  tf_es : Z;
  tf_ds : Z;
  tf_trapno : Z;
  tf_err : Z;
  tf_eip : Z;
  tf_cs : Z;
  tf_eflags : Z;
  tf_esp : Z;
  tf_ss : Z
}.

Definition set_tf_edi (v : Z) (x : trapframe) : trapframe :=
  mk_trapframe v (tf_esi x) (tf_ebp x) (tf_oesp x) (tf_ebx x) (tf_edx x) (tf_ecx x) (tf_eax x)
   (tf_gs x) (tf_fs x) (tf_es x) (tf_ds x) (tf_trapno x) (tf_err x) (tf_eip x) (tf_cs x) (tf_eflags
   x) (tf_esp x) (tf_ss x).
Definition set_tf_esi (v : Z) (x : trapframe) : trapframe :=
  mk_trapframe (tf_edi x) v (tf_ebp x) (tf_oesp x) (tf_ebx x) (tf_edx x) (tf_ecx x) (tf_eax x)
   (tf_gs x) (tf_fs x) (tf_es x) (tf_ds x) (tf_trapno x) (tf_err x) (tf_eip x) (tf_cs x) (tf_eflags
   x) (tf_esp x) (tf_ss x).
Definition set_tf_ebp (v : Z) (x : trapframe) : trapframe :=
  mk_trapframe (tf_edi x) (tf_esi x) v (tf_oesp x) (tf_ebx x) (tf_edx x) (tf_ecx x) (tf_eax x)
   (tf_gs x) (tf_fs x) (tf_es x) (tf_ds x) (tf_trapno x) (tf_err x) (tf_eip x) (tf_cs x) (tf_eflags
   x) (tf_esp x) (tf_ss x).
Definition set_tf_oesp (v : Z) (x : trapframe) : trapframe :=
  mk_trapframe (tf_edi x) (tf_esi x) (tf_ebp x) v (tf_ebx x) (tf_edx x) (tf_ecx x) (tf_eax x)
   (tf_gs x) (tf_fs x) (tf_es x) (tf_ds x) (tf_trapno x) (tf_err x) (tf_eip x) (tf_cs x) (tf_eflags
   x) (tf_esp x) (tf_ss x).
Definition set_tf_ebx (v : Z) (x : trapframe) : trapframe :=
  mk_trapframe (tf_edi x) (tf_esi x) (tf_ebp x) (tf_oesp x) v (tf_edx x) (tf_ecx x) (tf_eax x)
   (tf_gs x) (tf_fs x) (tf_es x) (tf_ds x) (tf_trapno x) (tf_err x) (tf_eip x) (tf_cs x) (tf_eflags
   x) (tf_esp x) (tf_ss x).
Definition set_tf_edx (v : Z) (x : trapframe) : trapframe :=
  mk_trapframe (tf_edi x) (tf_esi x) (tf_ebp x) (tf_oesp x) (tf_ebx x) v (tf_ecx x) (tf_eax x)
   (tf_gs x) (tf_fs x) (tf_es x) (tf_ds x) (tf_trapno x) (tf_err x) (tf_eip x) (tf_cs x) (tf_eflags
   x) (tf_esp x) (tf_ss x).
Definition set_tf_ecx (v : Z) (x : trapframe) : trapframe :=
  mk_trapframe (tf_edi x) (tf_esi x) (tf_ebp x) (tf_oesp x) (tf_ebx x) (tf_edx x) v (tf_eax x)
   (tf_gs x) (tf_fs x) (tf_es x) (tf_ds x) (tf_trapno x) (tf_err x) (tf_eip x) (tf_cs x) (tf_eflags
   x) (tf_esp x) (tf_ss x).
Definition set_tf_eax (v : Z) (x : trapframe) : trapframe :=
  mk_trapframe (tf_edi x) (tf_esi x) (tf_ebp x) (tf_oesp x) (tf_ebx x) (tf_edx x) (tf_ecx x) v
   (tf_gs x) (tf_fs x) (tf_es x) (tf_ds x) (tf_trapno x) (tf_err x) (tf_eip x) (tf_cs x) (tf_eflags
   x) (tf_esp x) (tf_ss x).
Definition set_tf_gs (v : Z) (x : trapframe) : trapframe :=
  mk_trapframe (tf_edi x) (tf_esi x) (tf_ebp x) (tf_oesp x) (tf_ebx x) (tf_edx x) (tf_ecx x)
   (tf_eax x) v (tf_fs x) (tf_es x) (tf_ds x) (tf_trapno x) (tf_err x) (tf_eip x) (tf_cs x)
   (tf_eflags x) (tf_esp x) (tf_ss x).
Definition set_tf_fs (v : Z) (x : trapframe) : trapframe :=
  mk_trapframe (tf_edi x) (tf_esi x) (tf_ebp x) (tf_oesp x) (tf_ebx x) (tf_edx x) (tf_ecx x)
   (tf_eax x) (tf_gs x) v (tf_es x) (tf_ds x) (tf_trapno x) (tf_err x) (tf_eip x) (tf_cs x)
   (tf_eflags x) (tf_esp x) (tf_ss x).
Definition set_tf_es (v : Z) (x : trapframe) : trapframe :=
  mk_trapframe (tf_edi x) (tf_esi x) (tf_ebp x) (tf_oesp x) (tf_ebx x) (tf_edx x) (tf_ecx x)
   (tf_eax x) (tf_gs x) (tf_fs x) v (tf_ds x) (tf_trapno x) (tf_err x) (tf_eip x) (tf_cs x)
   (tf_eflags x) (tf_esp x) (tf_ss x).
Definition set_tf_ds (v : Z) (x : trapframe) : trapframe :=
  mk_trapframe (tf_edi x) (tf_esi x) (tf_ebp x) (tf_oesp x) (tf_ebx x) (tf_edx x) (tf_ecx x)
   (tf_eax x) (tf_gs x) (tf_fs x) (tf_es x) v (tf_trapno x) (tf_err x) (tf_eip x) (tf_cs x)
   (tf_eflags x) (tf_esp x) (tf_ss x).
Definition set_tf_trapno (v : Z) (x : trapframe) : trapframe :=
  mk_trapframe (tf_edi x) (tf_esi x) (tf_ebp x) (tf_oesp x) (tf_ebx x) (tf_edx x) (tf_ecx x)
   (tf_eax x) (tf_gs x) (tf_fs x) (tf_es x) (tf_ds x) v (tf_err x) (tf_eip x) (tf_cs x) (tf_eflags x)
   (tf_esp x) (tf_ss x).
Definition set_tf_err (v : Z) (x : trapframe) : trapframe :=
  mk_trapframe (tf_edi x) (tf_esi x) (tf_ebp x) (tf_oesp x) (tf_ebx x) (tf_edx x) (tf_ecx x)
   (tf_eax x) (tf_gs x) (tf_fs x) (tf_es x) (tf_ds x) (tf_trapno x) v (tf_eip x) (tf_cs x) (tf_eflags
   x) (tf_esp x) (tf_ss x).
Definition set_tf_eip (v : Z) (x : trapframe) : trapframe :=
  mk_trapframe (tf_edi x) (tf_esi x) (tf_ebp x) (tf_oesp x) (tf_ebx x) (tf_edx x) (tf_ecx x)
   (tf_eax x) (tf_gs x) (tf_fs x) (tf_es x) (tf_ds x) (tf_trapno x) (tf_err x) v (tf_cs x) (tf_eflags
   x) (tf_esp x) (tf_ss x).
Definition set_tf_cs (v : Z) (x : trapframe) : trapframe :=
  mk_trapframe (tf_edi x) (tf_esi x) (tf_ebp x) (tf_oesp x) (tf_ebx x) (tf_edx x) (tf_ecx x)
   (tf_eax x) (tf_gs x) (tf_fs x) (tf_es x) (tf_ds x) (tf_trapno x) (tf_err x) (tf_eip x) v
   (tf_eflags x) (tf_esp x) (tf_ss x).
Definition set_tf_eflags (v : Z) (x : trapframe) : trapframe :=
  mk_trapframe (tf_edi x) (tf_esi x) (tf_ebp x) (tf_oesp x) (tf_ebx x) (tf_edx x) (tf_ecx x)
   (tf_eax x) (tf_gs x) (tf_fs x) (tf_es x) (tf_ds x) (tf_trapno x) (tf_err x) (tf_eip x) (tf_cs x) v
   (tf_esp x) (tf_ss x).
Definition set_tf_esp (v : Z) (x : trapframe) : trapframe :=
  mk_trapframe (tf_edi x) (tf_esi x) (tf_ebp x) (tf_oesp x) (tf_ebx x) (tf_edx x) (tf_ecx x)
   (tf_eax x) (tf_gs x) (tf_fs x) (tf_es x) (tf_ds x) (tf_trapno x) (tf_err x) (tf_eip x) (tf_cs x)
   (tf_eflags x) v (tf_ss x).
Definition set_tf_ss (v : Z) (x : trapframe) : trapframe :=
  mk_trapframe (tf_edi x) (tf_esi x) (tf_ebp x) (tf_oesp x) (tf_ebx x) (tf_edx x) (tf_ecx x)
   (tf_eax x) (tf_gs x) (tf_fs x) (tf_es x) (tf_ds x) (tf_trapno x) (tf_err x) (tf_eip x) (tf_cs x)
   (tf_eflags x) (tf_esp x) v.

(** [struct context]. *)
Record context : Type := mk_context {
  ctx_edi : Z;
  ctx_esi : Z;
  ctx_ebx : Z;
  ctx_ebp : Z;
  ctx_eip : Z
}.

Definition set_ctx_edi (v : Z) (x : context) : context :=
  mk_context v (ctx_esi x) (ctx_ebx x) (ctx_ebp x) (ctx_eip x).
Definition set_ctx_esi (v : Z) (x : context) : context :=
  mk_context (ctx_edi x) v (ctx_ebx x) (ctx_ebp x) (ctx_eip x).
Definition set_ctx_ebx (v : Z) (x : context) : context :=
  mk_context (ctx_edi x) (ctx_esi x) v (ctx_ebp x) (ctx_eip x).
Definition set_ctx_ebp (v : Z) (x : context) : context :=
  mk_context (ctx_edi x) (ctx_esi x) (ctx_ebx x) v (ctx_eip x).
Definition set_ctx_eip (v : Z) (x : context) : context :=
  mk_context (ctx_edi x) (ctx_esi x) (ctx_ebx x) (ctx_ebp x) v.

(** [struct proc].  The trap frame and the context, which C keeps on the kernel stack and points to, are fields. *)
Record proc : Type := mk_proc {
  p_sz : Z;
  p_pgdir : Z;
  p_kstack : Z;
  p_state : procstate;
  p_pid : Z;
  p_parent : option nat;
  p_tf : trapframe;
  p_context : context;
  p_chan : chan;
  p_killed : bool;
  p_ofile : list (option nat);
  p_cwd : option nat;
  p_name : list Z
}.

Definition set_p_sz (v : Z) (x : proc) : proc :=
  mk_proc v (p_pgdir x) (p_kstack x) (p_state x) (p_pid x) (p_parent x) (p_tf x) (p_context x)
   (p_chan x) (p_killed x) (p_ofile x) (p_cwd x) (p_name x).
Definition set_p_pgdir (v : Z) (x : proc) : proc :=
  mk_proc (p_sz x) v (p_kstack x) (p_state x) (p_pid x) (p_parent x) (p_tf x) (p_context x)
   (p_chan x) (p_killed x) (p_ofile x) (p_cwd x) (p_name x).
Definition set_p_kstack (v : Z) (x : proc) : proc :=
  mk_proc (p_sz x) (p_pgdir x) v (p_state x) (p_pid x) (p_parent x) (p_tf x) (p_context x) (p_chan
   x) (p_killed x) (p_ofile x) (p_cwd x) (p_name x).
Definition set_p_state (v : procstate) (x : proc) : proc :=
  mk_proc (p_sz x) (p_pgdir x) (p_kstack x) v (p_pid x) (p_parent x) (p_tf x) (p_context x)
   (p_chan x) (p_killed x) (p_ofile x) (p_cwd x) (p_name x).
Definition set_p_pid (v : Z) (x : proc) : proc :=
  mk_proc (p_sz x) (p_pgdir x) (p_kstack x) (p_state x) v (p_parent x) (p_tf x) (p_context x)
   (p_chan x) (p_killed x) (p_ofile x) (p_cwd x) (p_name x).
Definition set_p_parent (v : option nat) (x : proc) : proc :=
  mk_proc (p_sz x) (p_pgdir x) (p_kstack x) (p_state x) (p_pid x) v (p_tf x) (p_context x) (p_chan
   x) (p_killed x) (p_ofile x) (p_cwd x) (p_name x).
Definition set_p_tf (v : trapframe) (x : proc) : proc :=
  mk_proc (p_sz x) (p_pgdir x) (p_kstack x) (p_state x) (p_pid x) (p_parent x) v (p_context x)
   (p_chan x) (p_killed x) (p_ofile x) (p_cwd x) (p_name x).
Definition set_p_context (v : context) (x : proc) : proc :=
  mk_proc (p_sz x) (p_pgdir x) (p_kstack x) (p_state x) (p_pid x) (p_parent x) (p_tf x) v (p_chan
   x) (p_killed x) (p_ofile x) (p_cwd x) (p_name x).
Definition set_p_chan (v : chan) (x : proc) : proc :=
  mk_proc (p_sz x) (p_pgdir x) (p_kstack x) (p_state x) (p_pid x) (p_parent x) (p_tf x) (p_context
   x) v (p_killed x) (p_ofile x) (p_cwd x) (p_name x).
Definition set_p_killed (v : bool) (x : proc) : proc :=
  mk_proc (p_sz x) (p_pgdir x) (p_kstack x) (p_state x) (p_pid x) (p_parent x) (p_tf x) (p_context
   x) (p_chan x) v (p_ofile x) (p_cwd x) (p_name x).
Definition set_p_ofile (v : list (option nat)) (x : proc) : proc :=
  mk_proc (p_sz x) (p_pgdir x) (p_kstack x) (p_state x) (p_pid x) (p_parent x) (p_tf x) (p_context
   x) (p_chan x) (p_killed x) v (p_cwd x) (p_name x).
Definition set_p_cwd (v : option nat) (x : proc) : proc :=
  mk_proc (p_sz x) (p_pgdir x) (p_kstack x) (p_state x) (p_pid x) (p_parent x) (p_tf x) (p_context
   x) (p_chan x) (p_killed x) (p_ofile x) v (p_name x).
Definition set_p_name (v : list Z) (x : proc) : proc :=
  mk_proc (p_sz x) (p_pgdir x) (p_kstack x) (p_state x) (p_pid x) (p_parent x) (p_tf x) (p_context
   x) (p_chan x) (p_killed x) (p_ofile x) (p_cwd x) v.

(** [struct log] with its [struct logheader lh] inlined. *)
Record logstate : Type := mk_log {
  l_start : Z;
  l_size : Z;
  l_outstanding : Z;
  l_committing : bool;
  l_dev : Z;
  lh_n : Z;
  lh_block : list Z
}.

Definition set_l_start (v : Z) (x : logstate) : logstate :=
  mk_log v (l_size x) (l_outstanding x) (l_committing x) (l_dev x) (lh_n x) (lh_block x).
Definition set_l_size (v : Z) (x : logstate) : logstate :=
  mk_log (l_start x) v (l_outstanding x) (l_committing x) (l_dev x) (lh_n x) (lh_block x).
Definition set_l_outstanding (v : Z) (x : logstate) : logstate :=
  mk_log (l_start x) (l_size x) v (l_committing x) (l_dev x) (lh_n x) (lh_block x).
Definition set_l_committing (v : bool) (x : logstate) : logstate :=
  mk_log (l_start x) (l_size x) (l_outstanding x) v (l_dev x) (lh_n x) (lh_block x).
Definition set_l_dev (v : Z) (x : logstate) : logstate :=
  mk_log (l_start x) (l_size x) (l_outstanding x) (l_committing x) v (lh_n x) (lh_block x).
Definition set_lh_n (v : Z) (x : logstate) : logstate :=
  mk_log (l_start x) (l_size x) (l_outstanding x) (l_committing x) (l_dev x) v (lh_block x).
Definition set_lh_block (v : list Z) (x : logstate) : logstate :=
  mk_log (l_start x) (l_size x) (l_outstanding x) (l_committing x) (l_dev x) (lh_n x) v.

(** The console's [input] buffer. *)
Record inputstate : Type := mk_input {
  in_buf : list Z;
  in_r : Z;
  in_w : Z;
  in_e : Z
}.

Definition set_in_buf (v : list Z) (x : inputstate) : inputstate :=
  mk_input v (in_r x) (in_w x) (in_e x).
Definition set_in_r (v : Z) (x : inputstate) : inputstate :=
  mk_input (in_buf x) v (in_w x) (in_e x).
Definition set_in_w (v : Z) (x : inputstate) : inputstate :=
  mk_input (in_buf x) (in_r x) v (in_e x).
Definition set_in_e (v : Z) (x : inputstate) : inputstate :=
  mk_input (in_buf x) (in_r x) (in_w x) v.

(** The device functions [consoleinit] installs in [devsw]. *)
Inductive devfn : Type := consoledev.

(** ** The global state

    [k_end] and [k_data] are the linker's symbols [end] and [data]; [k_mem] is
    physical memory; [k_use_lock] and [k_freelist] are [kmem]; [k_held] lists the
    spin locks the running processor holds, the last acquired first, so that
    [length k_held] is its [ncli]; [k_cur] is [mycpu()->proc]; [k_bufs] is
    [bcache.buf] followed by [bcache.head]; [k_disk] is the disk and [k_dtrace] the
    history of its writes, the latest first; [k_cons] is what [consputc] sent to
    the console, the latest first. *)

Record kernel : Type := mk_kernel {
  k_end : Z;
  k_data : Z;
  k_mem : mem;
  k_use_lock : bool;
  k_freelist : Z;
  k_held : list lockid;
  k_ptable : list proc;
  k_initproc : option nat;
  k_nextpid : Z;
  k_cur : option nat;
  k_ticks : Z;
  k_kpgdir : Z;
  k_cr3 : Z;
  k_bufs : list buf;
  k_disk : Z -> list Z;
  k_disksize : Z;
  k_dtrace : list (Z * list Z);
  k_log : logstate;
  k_sb : superblock;
  k_icache : list inode;
  k_ftable : list file;
  k_pipes : gmap Z pipe;
  k_devsw : list (option devfn);
  k_input : inputstate;
  k_cons : list Z;
  k_panicked : bool;
  k_locking : bool
}.

Definition set_k_end (v : Z) (x : kernel) : kernel :=
  mk_kernel v (k_data x) (k_mem x) (k_use_lock x) (k_freelist x) (k_held x) (k_ptable x)
   (k_initproc x) (k_nextpid x) (k_cur x) (k_ticks x) (k_kpgdir x) (k_cr3 x) (k_bufs x) (k_disk x)
   (k_disksize x) (k_dtrace x) (k_log x) (k_sb x) (k_icache x) (k_ftable x) (k_pipes x) (k_devsw x)
   (k_input x) (k_cons x) (k_panicked x) (k_locking x).
Definition set_k_data (v : Z) (x : kernel) : kernel :=
  mk_kernel (k_end x) v (k_mem x) (k_use_lock x) (k_freelist x) (k_held x) (k_ptable x)
   (k_initproc x) (k_nextpid x) (k_cur x) (k_ticks x) (k_kpgdir x) (k_cr3 x) (k_bufs x) (k_disk x)
   (k_disksize x) (k_dtrace x) (k_log x) (k_sb x) (k_icache x) (k_ftable x) (k_pipes x) (k_devsw x)
   (k_input x) (k_cons x) (k_panicked x) (k_locking x).
Definition set_k_mem (v : mem) (x : kernel) : kernel :=
  mk_kernel (k_end x) (k_data x) v (k_use_lock x) (k_freelist x) (k_held x) (k_ptable x)
   (k_initproc x) (k_nextpid x) (k_cur x) (k_ticks x) (k_kpgdir x) (k_cr3 x) (k_bufs x) (k_disk x)
   (k_disksize x) (k_dtrace x) (k_log x) (k_sb x) (k_icache x) (k_ftable x) (k_pipes x) (k_devsw x)
   (k_input x) (k_cons x) (k_panicked x) (k_locking x).
Definition set_k_use_lock (v : bool) (x : kernel) : kernel :=
  mk_kernel (k_end x) (k_data x) (k_mem x) v (k_freelist x) (k_held x) (k_ptable x) (k_initproc x)
   (k_nextpid x) (k_cur x) (k_ticks x) (k_kpgdir x) (k_cr3 x) (k_bufs x) (k_disk x) (k_disksize x)
   (k_dtrace x) (k_log x) (k_sb x) (k_icache x) (k_ftable x) (k_pipes x) (k_devsw x) (k_input x)
   (k_cons x) (k_panicked x) (k_locking x).
Definition set_k_freelist (v : Z) (x : kernel) : kernel :=
  mk_kernel (k_end x) (k_data x) (k_mem x) (k_use_lock x) v (k_held x) (k_ptable x) (k_initproc x)
   (k_nextpid x) (k_cur x) (k_ticks x) (k_kpgdir x) (k_cr3 x) (k_bufs x) (k_disk x) (k_disksize x)
   (k_dtrace x) (k_log x) (k_sb x) (k_icache x) (k_ftable x) (k_pipes x) (k_devsw x) (k_input x)
   (k_cons x) (k_panicked x) (k_locking x).
Definition set_k_held (v : list lockid) (x : kernel) : kernel :=
  mk_kernel (k_end x) (k_data x) (k_mem x) (k_use_lock x) (k_freelist x) v (k_ptable x)
   (k_initproc x) (k_nextpid x) (k_cur x) (k_ticks x) (k_kpgdir x) (k_cr3 x) (k_bufs x) (k_disk x)
   (k_disksize x) (k_dtrace x) (k_log x) (k_sb x) (k_icache x) (k_ftable x) (k_pipes x) (k_devsw x)
   (k_input x) (k_cons x) (k_panicked x) (k_locking x).
Definition set_k_ptable (v : list proc) (x : kernel) : kernel :=
  mk_kernel (k_end x) (k_data x) (k_mem x) (k_use_lock x) (k_freelist x) (k_held x) v (k_initproc
   x) (k_nextpid x) (k_cur x) (k_ticks x) (k_kpgdir x) (k_cr3 x) (k_bufs x) (k_disk x) (k_disksize x)
   (k_dtrace x) (k_log x) (k_sb x) (k_icache x) (k_ftable x) (k_pipes x) (k_devsw x) (k_input x)
   (k_cons x) (k_panicked x) (k_locking x).
Definition set_k_initproc (v : option nat) (x : kernel) : kernel :=
  mk_kernel (k_end x) (k_data x) (k_mem x) (k_use_lock x) (k_freelist x) (k_held x) (k_ptable x) v
   (k_nextpid x) (k_cur x) (k_ticks x) (k_kpgdir x) (k_cr3 x) (k_bufs x) (k_disk x) (k_disksize x)
   (k_dtrace x) (k_log x) (k_sb x) (k_icache x) (k_ftable x) (k_pipes x) (k_devsw x) (k_input x)
   (k_cons x) (k_panicked x) (k_locking x).
Definition set_k_nextpid (v : Z) (x : kernel) : kernel :=
  mk_kernel (k_end x) (k_data x) (k_mem x) (k_use_lock x) (k_freelist x) (k_held x) (k_ptable x)
   (k_initproc x) v (k_cur x) (k_ticks x) (k_kpgdir x) (k_cr3 x) (k_bufs x) (k_disk x) (k_disksize x)
   (k_dtrace x) (k_log x) (k_sb x) (k_icache x) (k_ftable x) (k_pipes x) (k_devsw x) (k_input x)
   (k_cons x) (k_panicked x) (k_locking x).
Definition set_k_cur (v : option nat) (x : kernel) : kernel :=
  mk_kernel (k_end x) (k_data x) (k_mem x) (k_use_lock x) (k_freelist x) (k_held x) (k_ptable x)
   (k_initproc x) (k_nextpid x) v (k_ticks x) (k_kpgdir x) (k_cr3 x) (k_bufs x) (k_disk x)
   (k_disksize x) (k_dtrace x) (k_log x) (k_sb x) (k_icache x) (k_ftable x) (k_pipes x) (k_devsw x)
   (k_input x) (k_cons x) (k_panicked x) (k_locking x).
Definition set_k_ticks (v : Z) (x : kernel) : kernel :=
  mk_kernel (k_end x) (k_data x) (k_mem x) (k_use_lock x) (k_freelist x) (k_held x) (k_ptable x)
   (k_initproc x) (k_nextpid x) (k_cur x) v (k_kpgdir x) (k_cr3 x) (k_bufs x) (k_disk x) (k_disksize
   x) (k_dtrace x) (k_log x) (k_sb x) (k_icache x) (k_ftable x) (k_pipes x) (k_devsw x) (k_input x)
   (k_cons x) (k_panicked x) (k_locking x).
Definition set_k_kpgdir (v : Z) (x : kernel) : kernel :=
  mk_kernel (k_end x) (k_data x) (k_mem x) (k_use_lock x) (k_freelist x) (k_held x) (k_ptable x)
   (k_initproc x) (k_nextpid x) (k_cur x) (k_ticks x) v (k_cr3 x) (k_bufs x) (k_disk x) (k_disksize
   x) (k_dtrace x) (k_log x) (k_sb x) (k_icache x) (k_ftable x) (k_pipes x) (k_devsw x) (k_input x)
   (k_cons x) (k_panicked x) (k_locking x).
Definition set_k_cr3 (v : Z) (x : kernel) : kernel :=
  mk_kernel (k_end x) (k_data x) (k_mem x) (k_use_lock x) (k_freelist x) (k_held x) (k_ptable x)
   (k_initproc x) (k_nextpid x) (k_cur x) (k_ticks x) (k_kpgdir x) v (k_bufs x) (k_disk x)
   (k_disksize x) (k_dtrace x) (k_log x) (k_sb x) (k_icache x) (k_ftable x) (k_pipes x) (k_devsw x)
   (k_input x) (k_cons x) (k_panicked x) (k_locking x).
Definition set_k_bufs (v : list buf) (x : kernel) : kernel :=
  mk_kernel (k_end x) (k_data x) (k_mem x) (k_use_lock x) (k_freelist x) (k_held x) (k_ptable x)
   (k_initproc x) (k_nextpid x) (k_cur x) (k_ticks x) (k_kpgdir x) (k_cr3 x) v (k_disk x) (k_disksize
   x) (k_dtrace x) (k_log x) (k_sb x) (k_icache x) (k_ftable x) (k_pipes x) (k_devsw x) (k_input x)
   (k_cons x) (k_panicked x) (k_locking x).
Definition set_k_disk (v : Z -> list Z) (x : kernel) : kernel :=
  mk_kernel (k_end x) (k_data x) (k_mem x) (k_use_lock x) (k_freelist x) (k_held x) (k_ptable x)
   (k_initproc x) (k_nextpid x) (k_cur x) (k_ticks x) (k_kpgdir x) (k_cr3 x) (k_bufs x) v (k_disksize
   x) (k_dtrace x) (k_log x) (k_sb x) (k_icache x) (k_ftable x) (k_pipes x) (k_devsw x) (k_input x)
   (k_cons x) (k_panicked x) (k_locking x).
Definition set_k_disksize (v : Z) (x : kernel) : kernel :=
  mk_kernel (k_end x) (k_data x) (k_mem x) (k_use_lock x) (k_freelist x) (k_held x) (k_ptable x)
   (k_initproc x) (k_nextpid x) (k_cur x) (k_ticks x) (k_kpgdir x) (k_cr3 x) (k_bufs x) (k_disk x) v
   (k_dtrace x) (k_log x) (k_sb x) (k_icache x) (k_ftable x) (k_pipes x) (k_devsw x) (k_input x)
   (k_cons x) (k_panicked x) (k_locking x).
Definition set_k_dtrace (v : list (Z * list Z)) (x : kernel) : kernel :=
  mk_kernel (k_end x) (k_data x) (k_mem x) (k_use_lock x) (k_freelist x) (k_held x) (k_ptable x)
   (k_initproc x) (k_nextpid x) (k_cur x) (k_ticks x) (k_kpgdir x) (k_cr3 x) (k_bufs x) (k_disk x)
   (k_disksize x) v (k_log x) (k_sb x) (k_icache x) (k_ftable x) (k_pipes x) (k_devsw x) (k_input x)
   (k_cons x) (k_panicked x) (k_locking x).
Definition set_k_log (v : logstate) (x : kernel) : kernel :=
  mk_kernel (k_end x) (k_data x) (k_mem x) (k_use_lock x) (k_freelist x) (k_held x) (k_ptable x)
   (k_initproc x) (k_nextpid x) (k_cur x) (k_ticks x) (k_kpgdir x) (k_cr3 x) (k_bufs x) (k_disk x)
   (k_disksize x) (k_dtrace x) v (k_sb x) (k_icache x) (k_ftable x) (k_pipes x) (k_devsw x) (k_input
   x) (k_cons x) (k_panicked x) (k_locking x).
Definition set_k_sb (v : superblock) (x : kernel) : kernel :=
  mk_kernel (k_end x) (k_data x) (k_mem x) (k_use_lock x) (k_freelist x) (k_held x) (k_ptable x)
   (k_initproc x) (k_nextpid x) (k_cur x) (k_ticks x) (k_kpgdir x) (k_cr3 x) (k_bufs x) (k_disk x)
   (k_disksize x) (k_dtrace x) (k_log x) v (k_icache x) (k_ftable x) (k_pipes x) (k_devsw x) (k_input
   x) (k_cons x) (k_panicked x) (k_locking x).
Definition set_k_icache (v : list inode) (x : kernel) : kernel :=
  mk_kernel (k_end x) (k_data x) (k_mem x) (k_use_lock x) (k_freelist x) (k_held x) (k_ptable x)
   (k_initproc x) (k_nextpid x) (k_cur x) (k_ticks x) (k_kpgdir x) (k_cr3 x) (k_bufs x) (k_disk x)
   (k_disksize x) (k_dtrace x) (k_log x) (k_sb x) v (k_ftable x) (k_pipes x) (k_devsw x) (k_input x)
   (k_cons x) (k_panicked x) (k_locking x).
Definition set_k_ftable (v : list file) (x : kernel) : kernel :=
  mk_kernel (k_end x) (k_data x) (k_mem x) (k_use_lock x) (k_freelist x) (k_held x) (k_ptable x)
   (k_initproc x) (k_nextpid x) (k_cur x) (k_ticks x) (k_kpgdir x) (k_cr3 x) (k_bufs x) (k_disk x)
   (k_disksize x) (k_dtrace x) (k_log x) (k_sb x) (k_icache x) v (k_pipes x) (k_devsw x) (k_input x)
   (k_cons x) (k_panicked x) (k_locking x).
Definition set_k_pipes (v : gmap Z pipe) (x : kernel) : kernel :=
  mk_kernel (k_end x) (k_data x) (k_mem x) (k_use_lock x) (k_freelist x) (k_held x) (k_ptable x)
   (k_initproc x) (k_nextpid x) (k_cur x) (k_ticks x) (k_kpgdir x) (k_cr3 x) (k_bufs x) (k_disk x)
   (k_disksize x) (k_dtrace x) (k_log x) (k_sb x) (k_icache x) (k_ftable x) v (k_devsw x) (k_input x)
   (k_cons x) (k_panicked x) (k_locking x).
Definition set_k_devsw (v : list (option devfn)) (x : kernel) : kernel :=
  mk_kernel (k_end x) (k_data x) (k_mem x) (k_use_lock x) (k_freelist x) (k_held x) (k_ptable x)
   (k_initproc x) (k_nextpid x) (k_cur x) (k_ticks x) (k_kpgdir x) (k_cr3 x) (k_bufs x) (k_disk x)
   (k_disksize x) (k_dtrace x) (k_log x) (k_sb x) (k_icache x) (k_ftable x) (k_pipes x) v (k_input x)
   (k_cons x) (k_panicked x) (k_locking x).
Definition set_k_input (v : inputstate) (x : kernel) : kernel :=
  mk_kernel (k_end x) (k_data x) (k_mem x) (k_use_lock x) (k_freelist x) (k_held x) (k_ptable x)
   (k_initproc x) (k_nextpid x) (k_cur x) (k_ticks x) (k_kpgdir x) (k_cr3 x) (k_bufs x) (k_disk x)
   (k_disksize x) (k_dtrace x) (k_log x) (k_sb x) (k_icache x) (k_ftable x) (k_pipes x) (k_devsw x) v
   (k_cons x) (k_panicked x) (k_locking x).
Definition set_k_cons (v : list Z) (x : kernel) : kernel :=
  mk_kernel (k_end x) (k_data x) (k_mem x) (k_use_lock x) (k_freelist x) (k_held x) (k_ptable x)
   (k_initproc x) (k_nextpid x) (k_cur x) (k_ticks x) (k_kpgdir x) (k_cr3 x) (k_bufs x) (k_disk x)
   (k_disksize x) (k_dtrace x) (k_log x) (k_sb x) (k_icache x) (k_ftable x) (k_pipes x) (k_devsw x)
   (k_input x) v (k_panicked x) (k_locking x).
Definition set_k_panicked (v : bool) (x : kernel) : kernel :=
  mk_kernel (k_end x) (k_data x) (k_mem x) (k_use_lock x) (k_freelist x) (k_held x) (k_ptable x)
   (k_initproc x) (k_nextpid x) (k_cur x) (k_ticks x) (k_kpgdir x) (k_cr3 x) (k_bufs x) (k_disk x)
   (k_disksize x) (k_dtrace x) (k_log x) (k_sb x) (k_icache x) (k_ftable x) (k_pipes x) (k_devsw x)
   (k_input x) (k_cons x) v (k_locking x).
Definition set_k_locking (v : bool) (x : kernel) : kernel :=
  mk_kernel (k_end x) (k_data x) (k_mem x) (k_use_lock x) (k_freelist x) (k_held x) (k_ptable x)
   (k_initproc x) (k_nextpid x) (k_cur x) (k_ticks x) (k_kpgdir x) (k_cr3 x) (k_bufs x) (k_disk x)
   (k_disksize x) (k_dtrace x) (k_log x) (k_sb x) (k_icache x) (k_ftable x) (k_pipes x) (k_devsw x)
   (k_input x) (k_cons x) (k_panicked x) v.

Abbreviation KM A := (M kernel A).

(** ** Static storage

    The kernel's variables before [main] runs: C zero-initialises them. *)
Definition zero_sleeplock : sleeplock := mk_sleeplock false 0.
Definition zero_buf : buf :=
  mk_buf 0 0 0 zero_sleeplock 0 0 0 (replicate (Z.to_nat BSIZE) 0).
Definition zero_inode : inode :=
  mk_inode 0 0 0 zero_sleeplock false 0 0 0 0 0 (replicate (Z.to_nat (NDIRECT + 2)) 0).
Definition zero_file : file := mk_file FD_NONE 0 false false 0 None 0.
Definition zero_trapframe : trapframe := mk_trapframe 0 0 0 0 0 0 0 0 0 0 0 0 0 0 0 0 0 0 0.
Definition zero_context : context := mk_context 0 0 0 0 0.
Definition zero_proc : proc :=
  mk_proc 0 0 0 UNUSED 0 None zero_trapframe zero_context C_none false
    (replicate NOFILE None) None (replicate 16 0).
Definition zero_log : logstate := mk_log 0 0 0 false 0 0 (replicate (Z.to_nat LOGSIZE) 0).
Definition zero_superblock : superblock := mk_superblock 0 0 0 0 0 0 0.
Definition zero_input : inputstate := mk_input (replicate (Z.to_nat INPUT_BUF) 0) 0 0 0.

(** The state at boot, for a kernel image ending at [kend] with its data at
    [kdata], and a disk of [n] blocks with contents [d]. *)
Definition boot_kernel (kend kdata : Z) (d : Z -> list Z) (n : Z) : kernel :=
  mk_kernel kend kdata (fun _ => 0) false 0 [] (replicate NPROC zero_proc) None 1 None
    0 0 0 (replicate (S NBUF) zero_buf) d n [] zero_log zero_superblock
    (replicate NINODE zero_inode) (replicate NFILE zero_file) ∅
    (replicate (Z.to_nat NDEV) None) zero_input [] false false.
