(* ===== verification/Sync.v ===== *)
(** * Sync: locks, sleeping and waking on the kernel state

    The synchronisation the rest of the kernel calls: spin locks as the list of
    locks the running processor holds (Spinlock.v models spinlock.c itself on
    several processors and shows that it refines [acquire] and [release] here), the
    part of proc.c that puts a process to sleep and wakes it, and sleeplock.c. *)

From S2P Require Import Prelude Bytes Kernel.

(** ** Spin locks of the running processor *)

Fixpoint remove_one (l : lockid) (ls : list lockid) : list lockid :=
  match ls with
  | [] => []
  | x :: ls' => if decide (x = l) then ls' else x :: remove_one l ls'
  end.

Definition holding (l : lockid) (k : kernel) : bool := bool_decide (l ∈ k_held k).

Definition acquire (l : lockid) : KM unit := fun k =>
  if holding l k then Panic "acquire" else Ok tt (set_k_held (l :: k_held k) k).

Definition release (l : lockid) : KM unit := fun k =>
  if holding l k then Ok tt (set_k_held (remove_one l (k_held k)) k) else Panic "release".

(** ** Processes that sleep (proc.c) *)

Section Sleeping.

(** [myproc()]: the process this processor runs, or null. *)
Definition myproc (k : kernel) : option nat := k_cur k.

Definition get_proc (i : nat) : KM proc := fun k =>
  match k_ptable k !! i with Some p => Ok p k | None => Fault "ptable" end.

Definition upd_proc (i : nat) (f : proc -> proc) : KM unit :=
  modify (fun k => set_k_ptable (alter f i (k_ptable k)) k).

(** The process a system call or a fault is running for: a null [myproc()] would
    be dereferenced. *)
Definition curproc : KM nat := fun k =>
  match myproc k with Some i => Ok i k | None => Fault "myproc() is null" end.

(** [sched]: [mycpu()->ncli] is the number of locks held, each [acquire] being one
    [pushcli]; the check that interrupts are off holds because a lock is held
    (Spinlock.v), and [intena] is of the processor and not of this state. *)
Definition sched : KM unit :=
  let! k := get in
  if negb (holding L_ptable k) then panic "sched ptable.lock" else
  if negb (Nat.eqb (length (k_held k)) 1) then panic "sched locks" else
  let! i := curproc in
  let! p := get_proc i in
  if bool_decide (p_state p = RUNNING) then panic "sched running" else
  fun k => Swtch k.

(** What [sleep] does when the scheduler has switched back to the process. *)
Definition sleep_return (i : nat) (lk : lockid) : KM unit :=
  upd_proc i (set_p_chan C_none) ;;;
  (if bool_decide (lk = L_ptable) then ret tt
   else release L_ptable ;;; acquire lk).

Definition sleep (c : chan) (lk : lockid) : KM unit :=
  let! k := get in
  match myproc k with
  | None => panic "sleep"
  | Some i =>
      (if bool_decide (lk = L_ptable) then ret tt
       else acquire L_ptable ;;; release lk) ;;;
      upd_proc i (set_p_chan c) ;;;
      upd_proc i (set_p_state SLEEPING) ;;;
      sched ;;;
      sleep_return i lk
  end.

(** [sleep] in the body of a [while] loop.  [sleep] always gives the processor up
    ([sleep_never_returns]), so nothing runs after it in this call; a process that
    is woken runs [sleep_return] and then the loop from its test again, which is
    again a call of the function that models the loop. *)
Definition sleep_again {A} (c : chan) (lk : lockid) : KM A := sleep c lk ;;; spin.

Definition wakeup1_proc (c : chan) (p : proc) : proc :=
  if bool_decide (p_state p = SLEEPING) && bool_decide (p_chan p = c)
  then set_p_state RUNNABLE p else p.

Definition wakeup1 (c : chan) : KM unit :=
  modify (fun k => set_k_ptable (wakeup1_proc c <$> k_ptable k) k).

Definition wakeup (c : chan) : KM unit :=
  acquire L_ptable ;;;
  wakeup1 c ;;;
  release L_ptable.

End Sleeping.

(** ** Sleep locks (sleeplock.c) *)

Section Sleeplocks.

(** The sleep locks of the kernel: one per buffer and one per cached inode. *)
Inductive slid : Type := S_buf (i : nat) | S_inode (i : nat).

Definition sl_spin (s : slid) : lockid :=
  match s with S_buf i => L_buf i | S_inode i => L_inode i end.
Definition sl_chan (s : slid) : chan :=
  match s with S_buf i => C_buflock i | S_inode i => C_inodelock i end.

Definition get_sl (s : slid) : KM sleeplock := fun k =>
  match s with
  | S_buf i => match k_bufs k !! i with Some b => Ok (b_lock b) k | None => Fault "buf" end
  | S_inode i => match k_icache k !! i with Some p => Ok (i_lock p) k | None => Fault "inode" end
  end.

Definition put_sl (s : slid) (v : sleeplock) : KM unit :=
  modify (fun k =>
    match s with
    | S_buf i => set_k_bufs (alter (set_b_lock v) i (k_bufs k)) k
    | S_inode i => set_k_icache (alter (set_i_lock v) i (k_icache k)) k
    end).

Definition initsleeplock : sleeplock := mk_sleeplock false 0.

Definition acquiresleep (s : slid) : KM unit :=
  acquire (sl_spin s) ;;;
  let! lk := get_sl s in
  (if sl_locked lk then sleep_again (sl_chan s) (sl_spin s) else ret tt) ;;;
  let! i := curproc in
  let! p := get_proc i in
  put_sl s (mk_sleeplock true (p_pid p)) ;;;
  release (sl_spin s).

Definition releasesleep (s : slid) : KM unit :=
  acquire (sl_spin s) ;;;
  put_sl s (mk_sleeplock false 0) ;;;
  wakeup (sl_chan s) ;;;
  release (sl_spin s).

Definition holdingsleep (s : slid) : KM bool :=
  acquire (sl_spin s) ;;;
  let! lk := get_sl s in
  let! i := curproc in
  let! p := get_proc i in
  release (sl_spin s) ;;;
  ret (sl_locked lk && (sl_pid lk =? p_pid p)).

End Sleeplocks.

(** ** Lemmas *)

Lemma acquire_ok l k :
  l ∉ k_held k -> acquire l k = Ok tt (set_k_held (l :: k_held k) k).
Proof. intros. unfold acquire, holding. by rewrite bool_decide_eq_false_2. Qed.

Lemma release_ok l ls k :
  k_held k = l :: ls -> release l k = Ok tt (set_k_held ls k).
Proof.
  intros E. unfold release, holding. rewrite E. rewrite bool_decide_eq_true_2 by set_solver.
  simpl. by rewrite decide_True.
Qed.

(** Setting a field back to what it is changes nothing. *)
Lemma set_k_held_id k : set_k_held (k_held k) k = k.
Proof. by destruct k. Qed.

Lemma wakeup_ok c k :
  L_ptable ∉ k_held k ->
  wakeup c k = Ok tt (set_k_ptable (wakeup1_proc c <$> k_ptable k) k).
Proof.
  intros H. unfold wakeup, bind. rewrite acquire_ok by done. unfold wakeup1, modify.
  erewrite release_ok by reflexivity. by destruct k.
Qed.

(** ** Running a process with no spin lock held *)

(** Process [c], whose pid is [pid], runs and its processor holds no spin lock. *)
Definition running (k : kernel) (c : nat) (pid : Z) : Prop :=
  k_held k = [] /\ k_cur k = Some c /\ exists p, k_ptable k !! c = Some p /\ p_pid p = pid.

Lemma wakeup1_proc_pid ch p : p_pid (wakeup1_proc ch p) = p_pid p.
Proof. unfold wakeup1_proc. by case_bool. Qed.

Lemma running_wakeup k c pid ch :
  running k c pid -> running (set_k_ptable (wakeup1_proc ch <$> k_ptable k) k) c pid.
Proof.
  intros (Hh & Hc & p & Hp & Hpid). repeat split; try done. simpl.
  exists (wakeup1_proc ch p). rewrite list_lookup_fmap, Hp.
  by rewrite wakeup1_proc_pid.
Qed.

(** The lock [s] in state [k]. *)
Definition sl_of (s : slid) (k : kernel) : option sleeplock :=
  match s with
  | S_buf i => b_lock <$> k_bufs k !! i
  | S_inode i => i_lock <$> k_icache k !! i
  end.

Definition sl_set (s : slid) (v : sleeplock) (k : kernel) : kernel :=
  match s with
  | S_buf i => set_k_bufs (alter (set_b_lock v) i (k_bufs k)) k
  | S_inode i => set_k_icache (alter (set_i_lock v) i (k_icache k)) k
  end.

Lemma get_sl_ok s k lk : sl_of s k = Some lk -> get_sl s k = Ok lk k.
Proof.
  unfold sl_of, get_sl. destruct s as [i|i].
  - destruct (k_bufs k !! i); simpl; congruence.
  - destruct (k_icache k !! i); simpl; congruence.
Qed.

Lemma sl_of_held s k h : sl_of s (set_k_held h k) = sl_of s k.
Proof. by destruct s. Qed.

Lemma curproc_ok k c : k_cur k = Some c -> curproc k = Ok c k.
Proof. unfold curproc, myproc. by intros ->. Qed.

Lemma get_proc_ok k c p : k_ptable k !! c = Some p -> get_proc c k = Ok p k.
Proof. unfold get_proc. by intros ->. Qed.

(** Taking a sleep lock that is free records the running process as its holder. *)
Lemma acquiresleep_ok s k c pid lk :
  running k c pid -> sl_of s k = Some lk -> sl_locked lk = false ->
  acquiresleep s k = Ok tt (sl_set s (mk_sleeplock true pid) k).
Proof.
  intros (Hh & Hc & p & Hp & <-) Hs Hl. unfold acquiresleep.
  erewrite bind_ok by (apply acquire_ok; rewrite Hh; set_solver).
  erewrite bind_ok by (apply get_sl_ok; rewrite sl_of_held; exact Hs).
  rewrite Hl. erewrite bind_ok by reflexivity.
  erewrite bind_ok by (apply curproc_ok; exact Hc).
  erewrite bind_ok by (apply get_proc_ok; exact Hp).
  unfold put_sl, modify, bind. cbn [k_held set_k_held].
  erewrite release_ok by (by destruct s). rewrite Hh. destruct s, k; simpl in *; by subst.
Qed.

Lemma holdingsleep_ok s k c pid lk :
  running k c pid -> sl_of s k = Some lk ->
  holdingsleep s k = Ok (sl_locked lk && (sl_pid lk =? pid)) k.
Proof.
  intros (Hh & Hc & p & Hp & <-) Hs. unfold holdingsleep.
  erewrite bind_ok by (apply acquire_ok; rewrite Hh; set_solver).
  erewrite bind_ok by (apply get_sl_ok; rewrite sl_of_held; exact Hs).
  erewrite bind_ok by (apply curproc_ok; exact Hc).
  erewrite bind_ok by (apply get_proc_ok; exact Hp).
  erewrite bind_ok by (by apply release_ok).
  unfold ret. f_equal. rewrite Hh. destruct k; simpl in *; by subst.
Qed.

Lemma releasesleep_ok s k c pid :
  running k c pid ->
  releasesleep s k =
  Ok tt (set_k_ptable (wakeup1_proc (sl_chan s) <$> k_ptable k) (sl_set s (mk_sleeplock false 0) k)).
Proof.
  intros (Hh & Hc & p & Hp & <-). unfold releasesleep.
  erewrite bind_ok by (apply acquire_ok; rewrite Hh; set_solver).
  unfold put_sl, modify, bind.
  rewrite wakeup_ok by (destruct s; simpl; rewrite Hh; set_solver).
  erewrite release_ok by (by destruct s). rewrite Hh. destruct s, k; simpl in *; by subst.
Qed.

(** ** Giving the processor up *)

Lemma sched_switches k c p :
  k_held k = [L_ptable] -> k_cur k = Some c -> k_ptable k !! c = Some p -> p_state p <> RUNNING ->
  sched k = Swtch k.
Proof.
  intros Hh Hc Hp Hs. unfold sched, bind, get, holding, curproc, myproc, get_proc.
  rewrite Hh, bool_decide_eq_true_2 by set_solver. simpl. rewrite Hc, Hp.
  by rewrite bool_decide_eq_false_2.
Qed.

Lemma bind_never {A B} (m : KM A) (f : A -> KM B) k :
  (forall a k1, m k = Ok a k1 -> forall b k', f a k1 <> Ok b k') -> forall b k', bind m f k <> Ok b k'.
Proof. unfold bind. destruct (m k); naive_solver. Qed.

Lemma sched_never_returns k : forall b k', sched k <> Ok b k'.
Proof.
  unfold sched. mget. repeat case_bool; try done.
  do 2 (apply bind_never; intros ? ? _). by case_bool.
Qed.

Lemma sleep_never_returns ch lk k : forall b k', sleep ch lk k <> Ok b k'.
Proof.
  unfold sleep. mget. destruct (myproc k); [|done].
  do 3 (apply bind_never; intros ? ? _). apply bind_never. intros ? ? H. by apply sched_never_returns in H.
Qed.

(** The state in which [sleep] leaves the processor: the lock [lk] released, the
    process asleep on [ch] and [ptable.lock] held for the scheduler. *)
Definition asleep (c : nat) (ch : chan) (k : kernel) : kernel :=
  set_k_held [L_ptable]
    (set_k_ptable (alter (fun p => set_p_state SLEEPING (set_p_chan ch p)) c (k_ptable k)) k).

Lemma alter_alter {A} (f g : A -> A) (i : nat) (l : list A) :
  alter f i (alter g i l) = alter (fun x => f (g x)) i l.
Proof.
  apply list_eq. intros j. destruct (decide (i = j)) as [->|].
  - rewrite !list_lookup_alter_eq. by destruct (l !! j).
  - by rewrite !list_lookup_alter_ne.
Qed.

Lemma sleep_switches k c p ch lk :
  k_held k = [lk] -> lk <> L_ptable -> k_cur k = Some c -> k_ptable k !! c = Some p ->
  sleep ch lk k = Swtch (asleep c ch k).
Proof.
  intros Hh Hlk Hc Hp. unfold sleep. mget. unfold myproc. rewrite Hc.
  rewrite bool_decide_eq_false_2 by done.
  erewrite bind_ok.
  2: { erewrite bind_ok by (apply acquire_ok; rewrite Hh; set_solver). unfold release, holding. simpl.
       rewrite Hh, bool_decide_eq_true_2 by set_solver. simpl.
       rewrite decide_False, decide_True by done. reflexivity. }
  erewrite bind_ok by reflexivity. erewrite bind_ok by reflexivity.
  unfold bind. erewrite sched_switches; [|reflexivity|done| |].
  - f_equal. unfold asleep. destruct k. cbn in *. subst. by rewrite alter_alter.
  - simpl. rewrite !list_lookup_alter_eq, Hp. reflexivity.
  - done.
Qed.

Lemma sleep_again_switches {A} k c p ch lk :
  k_held k = [lk] -> lk <> L_ptable -> k_cur k = Some c -> k_ptable k !! c = Some p ->
  sleep_again (A := A) ch lk k = Swtch (asleep c ch k).
Proof. intros. unfold sleep_again, bind. by erewrite sleep_switches. Qed.
