(* ===== verification/Spinlock.v ===== *)
(** * Spinlock: spin locks on several processors (spinlock.c, mycpu of proc.c)

    The machine here is the part of the hardware and of the kernel's memory that
    spinlock.c works on: the [cpus] array, the interrupt flag and the local APIC id of
    every processor, and the locks.  The functions are cut into pieces with one access
    to shared memory each; [acquire], [release] and [holding] are the pieces in the
    order of the code, and the step relation runs the same pieces of different
    processors in any order.  The theorems show that over every interleaving a lock has
    at most one holder, that [acquire] and [release] panic exactly when they are misused,
    that interrupts are off while a lock is held and as they were when none is, and that
    the calls of every interleaving take effect one after the other as the [acquire] and
    [release] of Sync.v. *)

From stdpp Require Import functions.
From S2P Require Import Prelude Bytes Kernel Sync.

(** ** The machine *)

(** [struct spinlock] (spinlock.h) and the fields of [struct cpu] (proc.h) used here. *)
Record spinlock : Type := mk_spinlock {
  locked : Z; lk_name : string; lk_cpu : option nat; lk_pcs : list Z }.
Record cpu : Type := mk_cpu { apicid : Z; ncli : Z; intena : Z; cpu_proc : option nat }.

(** [m_if c] is [FL_IF] of %eflags and [m_lapicid c] the local APIC id of processor [c]. *)
Record machine : Type := mk_machine {
  m_lock : lockid -> spinlock; m_cpus : nat -> cpu; m_ncpu : nat;
  m_if : nat -> bool; m_lapicid : nat -> Z }.

Definition set_lock (l : lockid) (f : spinlock -> spinlock) (m : machine) : machine :=
  mk_machine (<[l := f (m_lock m l)]> (m_lock m)) (m_cpus m) (m_ncpu m) (m_if m) (m_lapicid m).
Definition set_cpu (c : nat) (f : cpu -> cpu) (m : machine) : machine :=
  mk_machine (m_lock m) (<[c := f (m_cpus m c)]> (m_cpus m)) (m_ncpu m) (m_if m) (m_lapicid m).
Definition set_if (c : nat) (b : bool) (m : machine) : machine :=
  mk_machine (m_lock m) (m_cpus m) (m_ncpu m) (<[c := b]> (m_if m)) (m_lapicid m).

Definition set_locked (v : Z) (x : spinlock) := mk_spinlock v (lk_name x) (lk_cpu x) (lk_pcs x).
Definition set_lk_cpu (v : option nat) (x : spinlock) := mk_spinlock (locked x) (lk_name x) v (lk_pcs x).
Definition set_lk_pcs (v : list Z) (x : spinlock) := mk_spinlock (locked x) (lk_name x) (lk_cpu x) v.
Definition set_ncli (v : Z) (x : cpu) := mk_cpu (apicid x) v (intena x) (cpu_proc x).
Definition set_intena (v : Z) (x : cpu) := mk_cpu (apicid x) (ncli x) v (cpu_proc x).

Notation MM := (M machine).

(** ** The code *)

Definition initlock (l : lockid) (name : string) : MM unit :=
  modify (set_lock l (fun x => mk_spinlock 0 name None (lk_pcs x))).

Definition readeflags (c : nat) : MM bool := gets (fun m => m_if m c).
Definition cli (c : nat) : MM unit := modify (set_if c false).
Definition sti (c : nat) : MM unit := modify (set_if c true).

(** The loop of [mycpu]: [n] entries of [cpus] from [i]. *)
Fixpoint find_cpu (n i : nat) (id : Z) (m : machine) : option nat :=
  match n with
  | O => None
  | S n' => if apicid (m_cpus m i) =? id then Some i else find_cpu n' (S i) id m
  end.

Definition mycpu (c : nat) : MM nat :=
  let! interrupts := readeflags c in
  if interrupts then panic "mycpu called with interrupts enabled" else
  let! m := get in
  match find_cpu (m_ncpu m) 0 (m_lapicid m c) m with
  | Some i => ret i
  | None => panic "unknown apicid"
  end.

Definition pushcli (c : nat) : MM unit :=
  let! eflags := readeflags c in
  cli c ;;;
  let! i := mycpu c in
  let! m := get in
  (if ncli (m_cpus m i) =? 0 then modify (set_cpu i (set_intena (if eflags : bool then FL_IF else 0))) else ret tt) ;;;
  modify (set_cpu i (fun x => set_ncli (ncli x + 1) x)).

Definition popcli (c : nat) : MM unit :=
  let! interrupts := readeflags c in
  if interrupts then panic "popcli - interruptible" else
  let! i := mycpu c in
  modify (set_cpu i (fun x => set_ncli (ncli x - 1) x)) ;;;
  let! m := get in
  if ncli (m_cpus m i) <? 0 then panic "popcli" else
  if (ncli (m_cpus m i) =? 0) && negb (intena (m_cpus m i) =? 0) then sti c else ret tt.

(** [myproc]: the process of this processor. *)
Definition myproc (c : nat) : MM (option nat) :=
  pushcli c ;;;
  let! i := mycpu c in
  let! p := gets (fun m => cpu_proc (m_cpus m i)) in
  popcli c ;;;
  ret p.

(** [holding] up to its read of [lock->locked], and from there on. *)
Definition holding_locked (c : nat) (l : lockid) : MM bool :=
  pushcli c ;;; gets (fun m => negb (locked (m_lock m l) =? 0)).
Definition holding_cpu (c : nat) (l : lockid) (b : bool) : MM bool :=
  let! r := (if b then let! i := mycpu c in gets (fun m => bool_decide (lk_cpu (m_lock m l) = Some i)) else ret false) in
  popcli c ;;;
  ret r.
Definition holding (c : nat) (l : lockid) : MM bool :=
  let! b := holding_locked c l in holding_cpu c l b.

(** [xchg(&lk->locked, 1)]. *)
Definition xchg_locked (l : lockid) : MM Z :=
  let! old := gets (fun m => locked (m_lock m l)) in
  modify (set_lock l (set_locked 1)) ;;; ret old.

(** The accesses of [acquire] after the loop. *)
Definition record_cpu (c : nat) (l : lockid) : MM unit :=
  let! i := mycpu c in modify (set_lock l (set_lk_cpu (Some i))).
Definition record_pcs (l : lockid) (pcs : list Z) : MM unit := modify (set_lock l (set_lk_pcs pcs)).

(** [acquire] by a processor that runs alone: while nobody else runs, a lock that is
    taken stays taken and the loop spins.  [pcs] is what [getcallerpcs] finds. *)
Definition acquire (c : nat) (l : lockid) (pcs : list Z) : MM unit :=
  pushcli c ;;;
  let! h := holding c l in
  if h : bool then panic "acquire" else
  let! old := xchg_locked l in
  if negb (old =? 0) then spin else
  record_cpu c l ;;;
  record_pcs l pcs.

Definition forget_pc (l : lockid) : MM unit :=
  modify (set_lock l (fun x => set_lk_pcs (<[0%nat := 0]> (lk_pcs x)) x)).
Definition forget_cpu (l : lockid) : MM unit := modify (set_lock l (set_lk_cpu None)).
Definition clear_locked (l : lockid) : MM unit := modify (set_lock l (set_locked 0)).

Definition release (c : nat) (l : lockid) : MM unit :=
  let! h := holding c l in
  if negb h then panic "release" else
  forget_pc l ;;;
  forget_cpu l ;;;
  clear_locked l ;;;
  popcli c.

(** ** Interleavings *)

(** Where a processor is in [acquire] or [release]: the access it makes next. *)
Inductive pc : Type :=
| Idle
| Acq_locked (l : lockid) (pcs : list Z)
| Acq_holding (l : lockid) (pcs : list Z) (b : bool)
| Acq_xchg (l : lockid) (pcs : list Z)
| Acq_cpu (l : lockid) (pcs : list Z)
| Acq_pcs (l : lockid) (pcs : list Z)
| Rel_locked (l : lockid)
| Rel_holding (l : lockid) (b : bool)
| Rel_pc (l : lockid)
| Rel_cpu (l : lockid)
| Rel_unlock (l : lockid).

(** One access of processor [c]. *)
Definition advance (c : nat) (p : pc) : MM pc :=
  match p with
  | Idle => ret Idle
  | Acq_locked l pcs => let! b := holding_locked c l in ret (Acq_holding l pcs b)
  | Acq_holding l pcs b =>
      let! h := holding_cpu c l b in
      if h : bool then panic "acquire" else ret (Acq_xchg l pcs)
  | Acq_xchg l pcs =>
      let! old := xchg_locked l in
      ret (if negb (old =? 0) then Acq_xchg l pcs else Acq_cpu l pcs)
  | Acq_cpu l pcs => record_cpu c l ;;; ret (Acq_pcs l pcs)
  | Acq_pcs l pcs => record_pcs l pcs ;;; ret Idle
  | Rel_locked l => let! b := holding_locked c l in ret (Rel_holding l b)
  | Rel_holding l b =>
      let! h := holding_cpu c l b in
      if negb h then panic "release" else ret (Rel_pc l)
  | Rel_pc l => forget_pc l ;;; ret (Rel_cpu l)
  | Rel_cpu l => forget_cpu l ;;; ret (Rel_unlock l)
  | Rel_unlock l => clear_locked l ;;; popcli c ;;; ret Idle
  end.

(** What the rest of the kernel asks of an idle processor. *)
Inductive call : Type := Call_acquire (l : lockid) (pcs : list Z) | Call_release (l : lockid).

Definition start (c : nat) (x : call) : MM pc :=
  match x with
  | Call_acquire l pcs => pushcli c ;;; ret (Acq_locked l pcs)
  | Call_release l => ret (Rel_locked l)
  end.

Definition config : Type := machine * (nat -> pc).

(** Processor [c] starts a call, or makes its next access; [None] when it cannot, and
    a panic stops the machine. *)
Definition turn (c : nat) (x : option call) (s : config) : option (outcome config unit) :=
  let '(m, P) := s in
  let after (r : outcome machine pc) : outcome config unit :=
    match r with
    | Ok p m' => Ok tt (m', <[c := p]> P)
    | Panic msg => Panic msg
    | Fault what => Fault what
    | Swtch m' => Swtch (m', P)
    | Spin => Spin
    end in
  if negb (c <? m_ncpu m)%nat then None else
  match x, P c with
  | Some y, Idle => Some (after (start c y m))
  | Some _, _ => None
  | None, Idle => None
  | None, p => Some (after (advance c p m))
  end.

(** ** What is held *)

(** The machine seen from above: the locks each processor holds. *)
Definition holders : Type := nat -> list lockid.

(** A turn as a step of the holders: taking a free lock, giving one back, or nothing. *)
Inductive hstep (H : holders) : holders -> Prop :=
| h_take c l : (forall c', l ∉ H c') -> hstep H (<[c := l :: H c]> H)
| h_give c l : l ∈ H c -> hstep H (<[c := remove_one l (H c)]> H)
| h_stay : hstep H H.

(** The nesting of [pushcli] beyond the locks held, at each place. *)
Definition depth (p : pc) : Z :=
  match p with
  | Acq_locked _ _ | Acq_xchg _ _ | Rel_holding _ _ => 1
  | Acq_holding _ _ _ => 2
  | _ => 0
  end.

(** What the place of a processor says of the locks it holds. *)
Definition place_ok (ls : list lockid) (p : pc) : Prop :=
  match p with
  | Idle | Acq_locked _ _ | Rel_locked _ => True
  | Acq_holding l _ b | Rel_holding l b => l ∈ ls -> b = true
  | Acq_xchg l _ => l ∉ ls
  | Acq_cpu l _ | Acq_pcs l _ | Rel_pc l | Rel_cpu l | Rel_unlock l => l ∈ ls
  end.

(** [lk->cpu] is not set at these places though the lock is held. *)
Definition unrecorded (l : lockid) (p : pc) : bool :=
  match p with Acq_cpu l' _ | Rel_unlock l' => bool_decide (l = l') | _ => false end.

(** The entries of [cpus] are those of the processors there are. *)
Definition cpus_ok (m : machine) : Prop :=
  (forall c, (c < m_ncpu m)%nat -> apicid (m_cpus m c) = m_lapicid m c) /\
  (forall c c', (c < m_ncpu m)%nat -> (c' < m_ncpu m)%nat -> m_lapicid m c = m_lapicid m c' -> c = c').

(** Processor [c] is inside [n] calls of [pushcli], and [on] says whether interrupts were
    on before the first of them. *)
Definition cli_ok (on : bool) (m : machine) (c : nat) (n : Z) : Prop :=
  ncli (m_cpus m c) = n /\ 0 <= n /\
  (if n =? 0 then m_if m c = on else m_if m c = false /\ intena (m_cpus m c) = (if on then FL_IF else 0)).

(** [m] and [P] are a machine in which each processor [c] holds the locks [H c]; [I c]
    says whether it has interrupts on when it holds none. *)
Record spin_ok (I : nat -> bool) (m : machine) (P : nat -> pc) (H : holders) : Prop := {
  so_cpus : cpus_ok m;
  so_out c l : l ∈ H c -> (c < m_ncpu m)%nat;
  so_once c c' l : l ∈ H c -> l ∈ H c' -> c = c';
  so_nodup c : NoDup (H c);
  so_locked l : locked (m_lock m l) = 0 <-> forall c, l ∉ H c;
  so_cpu l c : lk_cpu (m_lock m l) = Some c <-> l ∈ H c /\ unrecorded l (P c) = false;
  so_place c : place_ok (H c) (P c);
  so_cli c : (c < m_ncpu m)%nat -> cli_ok (I c) m c (Z.of_nat (length (H c)) + depth (P c))
}.

(** ** pushcli and popcli *)

(** Only what belongs to processor [c] differs. *)
Record only_cpu (c : nat) (m m' : machine) : Prop := {
  oc_lock : m_lock m' = m_lock m;
  oc_ncpu : m_ncpu m' = m_ncpu m;
  oc_lapicid : m_lapicid m' = m_lapicid m;
  oc_apicid c' : apicid (m_cpus m' c') = apicid (m_cpus m c');
  oc_cpus c' : c' <> c -> m_cpus m' c' = m_cpus m c';
  oc_if c' : c' <> c -> m_if m' c' = m_if m c'
}.

Lemma only_cpu_trans c m1 m2 m3 : only_cpu c m1 m2 -> only_cpu c m2 m3 -> only_cpu c m1 m3.
Proof.
  intros [A1 A2 A3 A4 A5 A6] [B1 B2 B3 B4 B5 B6]. split; intros;
    rewrite ?B1, ?B2, ?B3, ?B4, ?B5, ?B6 by done; auto.
Qed.

Lemma only_cpu_set c f m : (forall x, apicid (f x) = apicid x) -> only_cpu c m (set_cpu c f m).
Proof.
  intros Hf. split; try done; intros c'; cbn.
  - destruct (decide (c = c')) as [->|]; [rewrite fn_lookup_insert; apply Hf|by rewrite fn_lookup_insert_ne].
  - intros Hc. by rewrite fn_lookup_insert_ne.
Qed.

Lemma only_cpu_if c b m : only_cpu c m (set_if c b m).
Proof. split; try done. intros c' Hc. cbn. by rewrite fn_lookup_insert_ne. Qed.

Lemma cpus_ok_only c m m' : only_cpu c m m' -> cpus_ok m -> cpus_ok m'.
Proof. intros [E1 E2 E3 E4 E5 E6] [Ha Hi]. unfold cpus_ok. rewrite E2, E3. split; intros; [rewrite E4|]; eauto. Qed.

Lemma cli_ok_only c c' m m' on n : only_cpu c m m' -> c' <> c -> cli_ok on m c' n -> cli_ok on m' c' n.
Proof. intros [E1 E2 E3 E4 E5 E6] Hc. unfold cli_ok. by rewrite E5, E6. Qed.

Lemma find_cpu_ok n i c m :
  (i <= c < i + n)%nat -> (forall j, (i <= j < i + n)%nat -> apicid (m_cpus m j) = m_lapicid m c -> j = c) ->
  apicid (m_cpus m c) = m_lapicid m c -> find_cpu n i (m_lapicid m c) m = Some c.
Proof.
  revert i. induction n as [|n IH]; intros i Hc Hi Ha; [lia|]. cbn.
  destruct (Z.eqb_spec (apicid (m_cpus m i)) (m_lapicid m c)) as [E|E].
  - f_equal. apply Hi; [lia|done].
  - apply IH; [|intros j Hj; apply Hi; lia|done]. assert (i <> c) by congruence. lia.
Qed.

Lemma mycpu_ok m c : cpus_ok m -> (c < m_ncpu m)%nat -> m_if m c = false -> mycpu c m = Ok c m.
Proof.
  intros [Ha Hi] Hc Hf. unfold mycpu, readeflags, gets, bind. rewrite Hf. unfold get.
  rewrite (find_cpu_ok _ _ c); [done|lia| |by apply Ha].
  intros j Hj E. apply Hi; [lia|lia|]. by rewrite <- Ha by lia.
Qed.

Lemma cli_off on m c n : cli_ok on m c n -> 0 < n -> m_if m c = false.
Proof. intros (_ & _ & H) Hn. rewrite (proj2 (Z.eqb_neq _ _)) in H by lia. apply H. Qed.

Lemma pushcli_ok on m c n :
  cpus_ok m -> (c < m_ncpu m)%nat -> cli_ok on m c n ->
  exists m', pushcli c m = Ok tt m' /\ only_cpu c m m' /\ cli_ok on m' c (n + 1).
Proof.
  intros Hc Hlt (Hn & Hp & Hi). unfold pushcli, readeflags, gets, cli, modify, bind at 1 2.
  pose proof (only_cpu_if c false m) as O1. set (m1 := set_if c false m) in *.
  rewrite (bind_ok _ _ _ _ _ (mycpu_ok m1 c (cpus_ok_only _ _ _ O1 Hc) Hlt (fn_lookup_insert _ _ _))).
  unfold bind, get. change (m_cpus m1) with (m_cpus m). rewrite Hn. destruct (Z.eqb_spec n 0) as [->|Hz].
  - eexists. split; [done|]. split.
    { eapply only_cpu_trans; [exact O1|]. eapply only_cpu_trans; by apply only_cpu_set. }
    unfold cli_ok. cbn. rewrite !fn_lookup_insert. cbn. rewrite Hn. split; [done|]. split; [done|]. by rewrite Hi.
  - eexists. split; [done|]. split; [eapply only_cpu_trans; [exact O1|by apply only_cpu_set]|].
    unfold cli_ok. cbn. rewrite !fn_lookup_insert. cbn. rewrite Hn, (proj2 (Z.eqb_neq (n + 1) 0)) by lia.
    split; [done|]. split; [lia|]. split; [done|apply Hi].
Qed.

Lemma popcli_ok on m c n :
  cpus_ok m -> (c < m_ncpu m)%nat -> cli_ok on m c n -> 0 < n ->
  exists m', popcli c m = Ok tt m' /\ only_cpu c m m' /\ cli_ok on m' c (n - 1).
Proof.
  intros Hc Hlt Hok Hp. pose proof (cli_off _ _ _ _ Hok Hp) as Hf. destruct Hok as (Hn & _ & Hi).
  rewrite (proj2 (Z.eqb_neq n 0)) in Hi by lia. destruct Hi as [_ Hi].
  unfold popcli, readeflags, gets, bind at 1. rewrite Hf. rewrite (bind_ok _ _ _ _ _ (mycpu_ok m c Hc Hlt Hf)).
  unfold modify, bind, get. cbn -[Z.sub]. rewrite fn_lookup_insert. cbn -[Z.sub]. rewrite Hn, Hi.
  rewrite (proj2 (Z.ltb_ge _ _)) by lia.
  assert (O1 : only_cpu c m (set_cpu c (fun x => set_ncli (ncli x - 1) x) m)) by (by apply only_cpu_set).
  destruct (Z.eqb_spec (n - 1) 0) as [E|E], on; cbn; eexists; (split; [done|]).
  1: split; [eapply only_cpu_trans; [exact O1|apply only_cpu_if]|].
  2,3,4: split; [exact O1|].
  all: unfold cli_ok; cbn -[Z.sub]; rewrite !fn_lookup_insert; cbn -[Z.sub]; rewrite Hn; split; [done|]; split; [lia|].
  1,2: by rewrite (proj2 (Z.eqb_eq _ _)).
  all: by rewrite (proj2 (Z.eqb_neq _ _)) by lia.
Qed.

(** ** The invariant, turn by turn *)

(** The part of a machine that is not the locks, when [c] has run. *)
Definition others_same (c : nat) (m m' : machine) : Prop :=
  cpus_ok m' /\ m_ncpu m' = m_ncpu m /\ forall c' on n, c' <> c -> cli_ok on m c' n -> cli_ok on m' c' n.

Lemma others_only c m m' : cpus_ok m -> only_cpu c m m' -> others_same c m m'.
Proof.
  intros Hc Ho. split; [by eapply cpus_ok_only|]. split; [apply Ho|]. intros. by eapply cli_ok_only.
Qed.

Lemma others_lock c l f m : cpus_ok m -> others_same c m (set_lock l f m).
Proof. intros Hc. split; [exact Hc|]. split; [done|]. intros c' on n _ H. exact H. Qed.

(** The invariant after processor [c] has gone to [p], holding [ls]. *)
Lemma spin_update I m P H c m' p ls :
  spin_ok I m P H -> (c < m_ncpu m)%nat -> others_same c m m' ->
  NoDup ls -> (forall l, l ∈ ls -> forall c', c' <> c -> l ∉ H c') ->
  (forall l, locked (m_lock m' l) = 0 <-> l ∉ ls /\ forall c', c' <> c -> l ∉ H c') ->
  (forall l, lk_cpu (m_lock m' l) = Some c <-> l ∈ ls /\ unrecorded l p = false) ->
  (forall l c', c' <> c -> lk_cpu (m_lock m' l) = Some c' <-> lk_cpu (m_lock m l) = Some c') ->
  place_ok ls p -> cli_ok (I c) m' c (Z.of_nat (length ls) + depth p) ->
  spin_ok I m' (<[c := p]> P) (<[c := ls]> H).
Proof.
  intros [Hc Hout Honce Hnd Hl Hcpu Hpl Hcli] Hlt (Hc' & En & Hoth) Hnd' Hex Hl' Hcpu1 Hcpu2 Hpl' Hcli'.
  assert (A : forall c', c' <> c -> <[c := ls]> H c' = H c' /\ <[c := p]> P c' = P c').
  { intros c' Hne. split; apply fn_lookup_insert_ne; congruence. }
  assert (B : <[c := ls]> H c = ls /\ <[c := p]> P c = p) by (split; apply fn_lookup_insert).
  destruct B as [B1 B2]. split; [done|..].
  - intros c' l. rewrite En. destruct (decide (c' = c)) as [->|Hne]; [by intros _|]. rewrite (proj1 (A c' Hne)). apply Hout.
  - intros c1 c2 l. destruct (decide (c1 = c)) as [->|N1], (decide (c2 = c)) as [->|N2]; [by intros _ _|..];
      rewrite ?B1; try rewrite (proj1 (A c1 N1)); try rewrite (proj1 (A c2 N2)).
    + intros H1 H2. by destruct (Hex l H1 c2 N2).
    + intros H1 H2. by destruct (Hex l H2 c1 N1).
    + apply Honce.
  - intros c'. destruct (decide (c' = c)) as [->|Hne]; [by rewrite B1|]. rewrite (proj1 (A c' Hne)). apply Hnd.
  - intros l. rewrite Hl'. split.
    + intros [H1 H2] c'. destruct (decide (c' = c)) as [->|Hne]; [by rewrite B1|]. rewrite (proj1 (A c' Hne)). auto.
    + intros H1. split; [specialize (H1 c); by rewrite B1 in H1|]. intros c' Hne. specialize (H1 c').
      by rewrite (proj1 (A c' Hne)) in H1.
  - intros l c'. destruct (decide (c' = c)) as [->|Hne]; [by rewrite B1, B2|].
    destruct (A c' Hne) as [-> ->]. by rewrite Hcpu2, Hcpu by done.
  - intros c'. destruct (decide (c' = c)) as [->|Hne]; [by rewrite B1, B2|]. destruct (A c' Hne) as [-> ->]. apply Hpl.
  - intros c'. rewrite En. destruct (decide (c' = c)) as [->|Hne]; [by rewrite B1, B2|].
    destruct (A c' Hne) as [-> ->]. intros Hc1. by apply Hoth, Hcli.
Qed.

Lemma spin_ext I m P P' H H' :
  (forall c, P' c = P c) -> (forall c, H' c = H c) -> spin_ok I m P H -> spin_ok I m P' H'.
Proof.
  intros EP EH [? Hout Honce ? Hl Hcpu ? ?]. split; intros *; rewrite ?EP, ?EH; eauto.
  - rewrite Hl. split; intros Hx c0; specialize (Hx c0); by rewrite ?EH in *.
Qed.

(** A step that takes and gives no lock. *)
Lemma spin_move I m P H c m' p :
  spin_ok I m P H -> (c < m_ncpu m)%nat -> others_same c m m' ->
  (forall l, locked (m_lock m' l) = 0 <-> locked (m_lock m l) = 0) ->
  (forall l, lk_cpu (m_lock m' l) = lk_cpu (m_lock m l)) ->
  (forall l, unrecorded l p = unrecorded l (P c)) ->
  place_ok (H c) p -> cli_ok (I c) m' c (Z.of_nat (length (H c)) + depth p) ->
  spin_ok I m' (<[c := p]> P) H.
Proof.
  intros Hok Hlt Ho El Ec Eu Hp Hcli. pose proof Hok as [Hc Hout Honce Hnd Hl Hcpu Hpl _].
  eapply spin_ext; [done| |apply (spin_update I m P H c m' p (H c)); try done].
  - intros c'. destruct (decide (c' = c)) as [->|]; symmetry; [apply fn_lookup_insert|apply fn_lookup_insert_ne; congruence].
  - intros l H1 c' Hne H2. by destruct Hne; apply (Honce _ _ l).
  - intros l. rewrite El, Hl. split; [intros H1; split; auto|]. intros [H1 H2] c'. destruct (decide (c' = c)) as [->|]; auto.
  - intros l. by rewrite Ec, Hcpu, Eu.
  - intros l c' _. by rewrite Ec.
Qed.

Lemma holding_locked_ok on m c l n :
  cpus_ok m -> (c < m_ncpu m)%nat -> cli_ok on m c n ->
  exists m', holding_locked c l m = Ok (negb (locked (m_lock m l) =? 0)) m' /\ only_cpu c m m' /\ cli_ok on m' c (n + 1).
Proof.
  intros Hc Hlt Hn. destruct (pushcli_ok on m c n Hc Hlt Hn) as (m' & E & O & Hn').
  exists m'. unfold holding_locked. rewrite (bind_ok _ _ _ _ _ E). unfold gets. by rewrite (oc_lock _ _ _ O).
Qed.

Lemma holding_cpu_ok on m c l b n :
  cpus_ok m -> (c < m_ncpu m)%nat -> cli_ok on m c n -> 0 < n ->
  exists m', holding_cpu c l b m = Ok (b && bool_decide (lk_cpu (m_lock m l) = Some c)) m' /\
    only_cpu c m m' /\ cli_ok on m' c (n - 1).
Proof.
  intros Hc Hlt Hn Hp. destruct (popcli_ok on m c n Hc Hlt Hn Hp) as (m' & E & O & Hn').
  exists m'. split; [|done]. unfold holding_cpu.
  rewrite (bind_ok _ _ (b && bool_decide (lk_cpu (m_lock m l) = Some c)) m m).
  - by rewrite (bind_ok _ _ _ _ _ E).
  - destruct b; [|reflexivity].
    by rewrite (bind_ok _ _ _ _ _ (mycpu_ok m c Hc Hlt (cli_off _ _ _ _ Hn Hp))).
Qed.

Lemma only_locks c m m' : only_cpu c m m' ->
  (forall l, locked (m_lock m' l) = 0 <-> locked (m_lock m l) = 0) /\ (forall l, lk_cpu (m_lock m' l) = lk_cpu (m_lock m l)).
Proof. intros O. split; intros l; by rewrite (oc_lock _ _ _ O). Qed.

Lemma lookup_set_lock l f m l' : m_lock (set_lock l f m) l' = if decide (l = l') then f (m_lock m l) else m_lock m l'.
Proof. reflexivity. Qed.

(** The locks after processor [c] has gone from [p] to [p']. *)
Definition after_turn (c : nat) (p p' : pc) (H : holders) : holders :=
  match p, p' with
  | Acq_xchg l _, Acq_cpu _ _ => <[c := l :: H c]> H
  | Rel_unlock l, _ => <[c := remove_one l (H c)]> H
  | _, _ => H
  end.

(** What a turn may come to. *)
Definition turn_ok (I : nat -> bool) (P : nat -> pc) (H : holders) (c : nat) (r : outcome machine pc) : Prop :=
  match r with
  | Ok p m' => hstep H (after_turn c (P c) p H) /\ spin_ok I m' (<[c := p]> P) (after_turn c (P c) p H)
  | Panic msg =>
      match P c with
      | Acq_holding l _ _ => msg = "acquire"%string /\ l ∈ H c
      | Rel_holding l _ => msg = "release"%string /\ l ∉ H c
      | _ => False
      end
  | _ => False
  end.

(** [holding], seen from [H]. *)
Lemma holding_iff I m P H c l b :
  spin_ok I m P H -> (l ∈ H c -> b = true) -> unrecorded l (P c) = false ->
  b && bool_decide (lk_cpu (m_lock m l) = Some c) = bool_decide (l ∈ H c).
Proof.
  intros Hok Hb Hu. destruct (decide (l ∈ H c)) as [Hi|Hi].
  - rewrite Hb, !bool_decide_eq_true_2; [done|done| |done]. by apply (so_cpu _ _ _ _ Hok).
  - rewrite (bool_decide_eq_false_2 (l ∈ H c)), (bool_decide_eq_false_2 (lk_cpu _ = _)); [by destruct b| |done].
    intros E. apply (so_cpu _ _ _ _ Hok) in E. tauto.
Qed.

Lemma locked_true I m P H c l : spin_ok I m P H -> l ∈ H c -> negb (locked (m_lock m l) =? 0) = true.
Proof.
  intros Hok Hi. apply negb_true_iff, Z.eqb_neq. intros E. apply (so_locked _ _ _ _ Hok) with (c := c) in E. done.
Qed.

Lemma remove_one_spec l ls :
  NoDup ls -> l ∈ ls -> NoDup (remove_one l ls) /\ (forall x, x ∈ remove_one l ls <-> x ∈ ls /\ x <> l) /\
  Z.of_nat (length (remove_one l ls)) = Z.of_nat (length ls) - 1.
Proof.
  induction ls as [|a ls IH]; intros Hn Hi; [by apply elem_of_nil in Hi|].
  apply NoDup_cons in Hn as [Ha Hn]. cbn [remove_one]. destruct (decide (a = l)) as [->|Hne].
  - split; [done|]. split; [|cbn; lia]. intros x. rewrite elem_of_cons. split; [|tauto].
    intros Hx. split; [by right|]. by intros ->.
  - apply elem_of_cons in Hi as [->|Hi]; [done|]. destruct (IH Hn Hi) as (H1 & H2 & H3). split; [|split].
    + apply NoDup_cons. rewrite H2. tauto.
    + intros x. rewrite !elem_of_cons, H2. split; [|tauto]. intros [->|?]; [split; [by left|done]|tauto].
    + cbn [length]. lia.
Qed.

Section Turns.
Context (I : nat -> bool) (m : machine) (P : nat -> pc) (H : holders) (c : nat).
Context (Hok : spin_ok I m P H) (Hlt : (c < m_ncpu m)%nat).

(** A turn that only runs code of this processor. *)
Lemma turn_local m' p :
  only_cpu c m m' -> after_turn c (P c) p H = H -> (forall l, unrecorded l p = unrecorded l (P c)) ->
  place_ok (H c) p -> cli_ok (I c) m' c (Z.of_nat (length (H c)) + depth p) -> turn_ok I P H c (Ok p m').
Proof.
  intros O E Hu Hp Hc. cbn. rewrite E. split; [constructor|].
  destruct (only_locks _ _ _ O) as [A B].
  apply (spin_move I m); try done. apply others_only; [apply Hok|done].
Qed.

(** A turn that writes a lock. *)
Lemma turn_lock l f p :
  after_turn c (P c) p H = H -> (forall l, unrecorded l p = unrecorded l (P c)) ->
  (locked (f (m_lock m l)) = 0 <-> locked (m_lock m l) = 0) -> lk_cpu (f (m_lock m l)) = lk_cpu (m_lock m l) ->
  place_ok (H c) p -> depth p = depth (P c) -> turn_ok I P H c (Ok p (set_lock l f m)).
Proof.
  intros E Hu Hf1 Hf2 Hp Hd. cbn. rewrite E. split; [constructor|].
  apply (spin_move I m); try done.
  - apply others_lock, Hok.
  - intros l'. rewrite lookup_set_lock. case_decide; [subst; apply Hf1|done].
  - intros l'. rewrite lookup_set_lock. case_decide; [subst; apply Hf2|done].
  - rewrite Hd. by apply (so_cli _ _ _ _ Hok).
Qed.

Lemma start_ok x : P c = Idle -> turn_ok I P H c (start c x m).
Proof.
  intros E. pose proof (so_cli _ _ _ _ Hok c Hlt) as Hc. rewrite E in Hc. cbn [depth] in Hc. destruct x as [l pcs|l]; cbn [start].
  - destruct (pushcli_ok _ m c _ (so_cpus _ _ _ _ Hok) Hlt Hc) as (m' & Em & O & Hc').
    rewrite (bind_ok _ _ _ _ _ Em). apply turn_local; try done; rewrite ?E; try done.
    cbn [depth]. by replace (_ + 1) with (Z.of_nat (length (H c)) + 0 + 1) by lia.
  - apply turn_local; try done; by rewrite ?E.
Qed.

Lemma acq_locked_ok l pcs : P c = Acq_locked l pcs -> turn_ok I P H c (advance c (P c) m).
Proof.
  intros E. pose proof (so_cli _ _ _ _ Hok c Hlt) as Hc. rewrite E in Hc |- *. cbn [depth advance] in *.
  destruct (holding_locked_ok _ m c l _ (so_cpus _ _ _ _ Hok) Hlt Hc) as (m' & Em & O & Hc').
  rewrite (bind_ok _ _ _ _ _ Em). apply turn_local; try done; rewrite ?E; try done.
  - intros Hi. by apply (locked_true I m P H c).
  - cbn [depth]. by replace (_ + 2) with (Z.of_nat (length (H c)) + 1 + 1) by lia.
Qed.

Lemma rel_locked_ok l : P c = Rel_locked l -> turn_ok I P H c (advance c (P c) m).
Proof.
  intros E. pose proof (so_cli _ _ _ _ Hok c Hlt) as Hc. rewrite E in Hc |- *. cbn [depth advance] in *.
  destruct (holding_locked_ok _ m c l _ (so_cpus _ _ _ _ Hok) Hlt Hc) as (m' & Em & O & Hc').
  rewrite (bind_ok _ _ _ _ _ Em). apply turn_local; try done; rewrite ?E; try done.
  - intros Hi. by apply (locked_true I m P H c).
  - cbn [depth]. by replace (_ + 1) with (Z.of_nat (length (H c)) + 0 + 1) by lia.
Qed.

Lemma acq_holding_ok l pcs b : P c = Acq_holding l pcs b -> turn_ok I P H c (advance c (P c) m).
Proof.
  intros E. pose proof (so_cli _ _ _ _ Hok c Hlt) as Hc. pose proof (so_place _ _ _ _ Hok c) as Hp.
  rewrite E in Hc, Hp |- *. cbn [depth advance place_ok] in *.
  destruct (holding_cpu_ok _ m c l b _ (so_cpus _ _ _ _ Hok) Hlt Hc) as (m' & Em & O & Hc'); [lia|].
  rewrite (bind_ok _ _ _ _ _ Em), (holding_iff I m P H) by (try done; by rewrite E).
  destruct (decide (l ∈ H c)) as [Hi|Hi].
  - rewrite bool_decide_eq_true_2 by done. cbn. by rewrite E.
  - rewrite bool_decide_eq_false_2 by done. apply turn_local; try done; rewrite ?E; try done.
    cbn [depth]. by replace (_ + 1) with (Z.of_nat (length (H c)) + 2 - 1) by lia.
Qed.

Lemma rel_holding_ok l b : P c = Rel_holding l b -> turn_ok I P H c (advance c (P c) m).
Proof.
  intros E. pose proof (so_cli _ _ _ _ Hok c Hlt) as Hc. pose proof (so_place _ _ _ _ Hok c) as Hp.
  rewrite E in Hc, Hp |- *. cbn [depth advance place_ok] in *.
  destruct (holding_cpu_ok _ m c l b _ (so_cpus _ _ _ _ Hok) Hlt Hc) as (m' & Em & O & Hc'); [lia|].
  rewrite (bind_ok _ _ _ _ _ Em), (holding_iff I m P H) by (try done; by rewrite E).
  destruct (decide (l ∈ H c)) as [Hi|Hi].
  - rewrite bool_decide_eq_true_2 by done. apply turn_local; try done; rewrite ?E; try done.
    cbn [depth]. by replace (_ + 0) with (Z.of_nat (length (H c)) + 1 - 1) by lia.
  - rewrite bool_decide_eq_false_2 by done. cbn. by rewrite E.
Qed.

Lemma acq_xchg_ok l pcs : P c = Acq_xchg l pcs -> turn_ok I P H c (advance c (P c) m).
Proof.
  intros E. pose proof (so_cli _ _ _ _ Hok c Hlt) as Hc. pose proof (so_place _ _ _ _ Hok c) as Hp.
  rewrite E in Hc, Hp |- *. cbn [depth advance place_ok] in *. unfold xchg_locked, gets, modify, bind, ret.
  destruct (Z.eqb_spec (locked (m_lock m l)) 0) as [E0|E0]; cbn [negb].
  - pose proof (proj1 (so_locked _ _ _ _ Hok l) E0) as Hfree. cbn. rewrite E. cbn. split; [by constructor|].
    apply (spin_update I m P); try done.
    + apply others_lock, Hok.
    + apply NoDup_cons. split; [done|]. apply Hok.
    + intros l' [->|Hl']%elem_of_cons c' Hne Hi; [by apply (Hfree c')|].
      by destruct Hne; apply (so_once _ _ _ _ Hok _ _ l').
    + intros l'. rewrite lookup_set_lock, not_elem_of_cons. case_decide as Hd; cbn.
      * split; [lia|]. intros [[? _] _]. congruence.
      * rewrite (so_locked _ _ _ _ Hok). split; [intros Hx; split; [split; [congruence|done]|auto]|].
        intros [[_ Hx] Hy] c'. destruct (decide (c' = c)) as [->|]; auto.
    + intros l'. rewrite lookup_set_lock. replace (lk_cpu _) with (lk_cpu (m_lock m l')) by (by case_decide; subst).
      rewrite (so_cpu _ _ _ _ Hok), E, elem_of_cons. cbn. rewrite bool_decide_eq_false.
      split; [intros [Hi _]; split; [by right|]; intros ->; done|]. intros [[->|Hi] Hne]; [done|]. by split.
    + intros l' c' _. rewrite lookup_set_lock. by case_decide; subst.
    + by left.
    + cbn [depth length]. replace (_ + 0) with (Z.of_nat (length (H c)) + 1) by lia. exact Hc.
  - apply turn_lock; rewrite ?E; done.
Qed.

(** A turn that writes [lk->cpu] of a lock that is held. *)
Lemma turn_cpu l v p :
  l ∈ H c -> after_turn c (P c) p H = H -> place_ok (H c) p -> depth p = depth (P c) ->
  (v = Some c /\ unrecorded l p = false \/ v = None /\ unrecorded l p = true) ->
  (forall l', l' <> l -> unrecorded l' p = unrecorded l' (P c)) ->
  turn_ok I P H c (Ok p (set_lock l (set_lk_cpu v) m)).
Proof.
  intros Hi E Hp Hd Hv Hu. cbn. rewrite E. split; [constructor|].
  eapply spin_ext; [done| |apply (spin_update I m P H c _ p (H c)); try done].
  - intros c'. destruct (decide (c' = c)) as [->|]; symmetry; [apply fn_lookup_insert|apply fn_lookup_insert_ne; congruence].
  - apply others_lock, Hok.
  - apply Hok.
  - intros l' H1 c' Hne H2. by destruct Hne; apply (so_once _ _ _ _ Hok _ _ l').
  - intros l'. rewrite lookup_set_lock. replace (locked _) with (locked (m_lock m l')) by (by case_decide; subst).
    rewrite (so_locked _ _ _ _ Hok). split; [intros H1; split; auto|].
    intros [H1 H2] c'. destruct (decide (c' = c)) as [->|]; auto.
  - intros l'. rewrite lookup_set_lock. case_decide as Hdl; [subst l'; cbn|rewrite (so_cpu _ _ _ _ Hok), Hu by congruence; done].
    destruct Hv as [[-> Hv]|[-> Hv]]; rewrite Hv; [by split|]. split; [done|]. by intros [_ ?].
  - intros l' c' Hne. rewrite lookup_set_lock. case_decide as Hdl; [subst l'; cbn|done]. split.
    + destruct Hv as [[-> _]|[-> _]]; [|done]. intros [= ->]. done.
    + intros [Hx _]%(so_cpu _ _ _ _ Hok). destruct Hne. by apply (so_once _ _ _ _ Hok _ _ l).
  - rewrite Hd. by apply (so_cli _ _ _ _ Hok).
Qed.

Lemma off_inside : depth (P c) = 0 -> H c <> [] -> m_if m c = false.
Proof.
  intros Hd Hh. pose proof (so_cli _ _ _ _ Hok c Hlt) as Hc. rewrite Hd in Hc. apply (cli_off _ _ _ _ Hc).
  destruct (H c); [done|cbn; lia].
Qed.

Lemma acq_cpu_ok l pcs : P c = Acq_cpu l pcs -> turn_ok I P H c (advance c (P c) m).
Proof.
  intros E. pose proof (so_place _ _ _ _ Hok c) as Hp. rewrite E in Hp |- *. cbn [advance place_ok] in *.
  assert (Hf : m_if m c = false).
  { apply off_inside; [by rewrite E|]. intros Hn. rewrite Hn in Hp. by apply elem_of_nil in Hp. }
  unfold record_cpu. unfold bind at 1. rewrite (bind_ok _ _ _ _ _ (mycpu_ok m c (so_cpus _ _ _ _ Hok) Hlt Hf)).
  apply turn_cpu; rewrite ?E; try done; [by left|]. intros l' Hl. cbn. by rewrite bool_decide_eq_false_2.
Qed.

Lemma acq_pcs_ok l pcs : P c = Acq_pcs l pcs -> turn_ok I P H c (advance c (P c) m).
Proof. intros E. rewrite E. apply turn_lock; rewrite ?E; done. Qed.

Lemma rel_pc_ok l : P c = Rel_pc l -> turn_ok I P H c (advance c (P c) m).
Proof.
  intros E. pose proof (so_place _ _ _ _ Hok c) as Hp. rewrite E in Hp |- *. apply turn_lock; rewrite ?E; done.
Qed.

Lemma rel_cpu_ok l : P c = Rel_cpu l -> turn_ok I P H c (advance c (P c) m).
Proof.
  intros E. pose proof (so_place _ _ _ _ Hok c) as Hp. rewrite E in Hp |- *. apply turn_cpu; rewrite ?E; try done.
  - right. split; [done|]. by apply bool_decide_eq_true_2.
  - intros l' Hl. by apply bool_decide_eq_false_2.
Qed.

Lemma rel_unlock_ok l : P c = Rel_unlock l -> turn_ok I P H c (advance c (P c) m).
Proof.
  intros E. pose proof (so_place _ _ _ _ Hok c) as Hp. pose proof (so_cli _ _ _ _ Hok c Hlt) as Hc.
  rewrite E in Hp, Hc |- *. cbn [place_ok advance depth] in *.
  destruct (remove_one_spec l (H c) (so_nodup _ _ _ _ Hok c) Hp) as (Hn' & Hi' & Hl').
  unfold clear_locked, modify, bind at 1. pose proof (others_lock c l (set_locked 0) m (so_cpus _ _ _ _ Hok)) as (Hc1 & _ & Ho1).
  destruct (popcli_ok (I c) (set_lock l (set_locked 0) m) c (Z.of_nat (length (H c)) + 0) Hc1 Hlt Hc) as (m' & Em & O & Hc').
  { destruct (H c); [by apply elem_of_nil in Hp|cbn; lia]. }
  rewrite (bind_ok _ _ _ _ _ Em). cbn. rewrite E. cbn. split; [by constructor|].
  assert (Elk : forall l', m_lock m' l' = if decide (l = l') then set_locked 0 (m_lock m l) else m_lock m l').
  { intros l'. by rewrite (oc_lock _ _ _ O), lookup_set_lock. }
  apply (spin_update I m P); try done.
  - destruct (others_only _ _ _ Hc1 O) as (A & B & C). split; [done|]. split; [done|]. intros c' on n Hne Hx. by apply C, Ho1.
  - intros l' [H1 _]%Hi' c' Hne H2. by destruct Hne; apply (so_once _ _ _ _ Hok _ _ l').
  - intros l'. rewrite Elk, Hi'. case_decide as Hd; [subst l'; cbn|].
    + split; [intros _|done]. split; [tauto|]. intros c' Hne Hx. destruct Hne. by apply (so_once _ _ _ _ Hok _ _ l).
    + rewrite (so_locked _ _ _ _ Hok). split; [intros Hx; split; [intros [Hy _]; by apply (Hx c)|auto]|].
      intros [Hx Hy] c'. destruct (decide (c' = c)) as [->|]; [|auto]. intros Hz. apply Hx. split; [done|congruence].
  - intros l'. rewrite Elk, Hi'. replace (lk_cpu _) with (lk_cpu (m_lock m l')) by (by case_decide; subst).
    rewrite (so_cpu _ _ _ _ Hok), E. cbn. rewrite bool_decide_eq_false. tauto.
  - intros l' c' _. rewrite Elk. by case_decide; subst.
  - cbn [depth]. by replace (_ + 0) with (Z.of_nat (length (H c)) + 0 - 1) by lia.
Qed.

Lemma advance_ok : P c <> Idle -> turn_ok I P H c (advance c (P c) m).
Proof.
  intros Hne. destruct (P c) eqn:E; [done|..]; rewrite <- E;
    eauto using acq_locked_ok, acq_holding_ok, acq_xchg_ok, acq_cpu_ok, acq_pcs_ok,
      rel_locked_ok, rel_holding_ok, rel_pc_ok, rel_cpu_ok, rel_unlock_ok.
Qed.

End Turns.

(** ** Runs *)

(** The turns of a schedule, up to the first panic. *)
Fixpoint run_turns (ts : list (nat * option call)) (s : config) : option (outcome config unit) :=
  match ts with
  | [] => Some (Ok tt s)
  | (c, x) :: ts' =>
      match turn c x s with
      | Some (Ok _ s') => run_turns ts' s'
      | r => r
      end
  end.

Lemma turn_spin I m P H c x r :
  spin_ok I m P H -> turn c x (m, P) = Some r ->
  match r with
  | Ok _ (m', P') => exists H', hstep H H' /\ spin_ok I m' P' H'
  | Panic msg => exists l, msg = "acquire"%string /\ l ∈ H c \/ msg = "release"%string /\ l ∉ H c
  | _ => False
  end.
Proof.
  intros Hok. unfold turn. destruct (Nat.ltb_spec c (m_ncpu m)) as [Hlt|]; [|done]. cbn [negb].
  assert (A : forall o, turn_ok I P H c o -> Some (match o with
      | Ok p m' => Ok tt (m', <[c := p]> P) | Panic msg => Panic msg | Fault what => Fault what
      | Swtch m' => Swtch (m', P) | Spin => Spin end) = Some r ->
    match r with
    | Ok _ (m', P') => exists H', hstep H H' /\ spin_ok I m' P' H'
    | Panic msg => exists l, msg = "acquire"%string /\ l ∈ H c \/ msg = "release"%string /\ l ∉ H c
    | _ => False
    end).
  { intros o Ho [= <-]. destruct o; try done; cbn in Ho; [by eexists|].
    destruct (P c); try done; eexists; [by left|by right]. }
  destruct x as [y|], (P c) eqn:E; try done; intros Hr.
  1: by apply (A (start c y m)); [apply start_ok|].
  all: rewrite <- E in Hr; (apply (A (advance c (P c) m)); [apply advance_ok; [done|done|by rewrite E]|exact Hr]).
Qed.

Lemma run_spin I ts : forall m P H r,
  spin_ok I m P H -> run_turns ts (m, P) = Some r ->
  match r with
  | Ok _ (m', P') => exists H', rtc hstep H H' /\ spin_ok I m' P' H'
  | Panic msg => exists H' c l, rtc hstep H H' /\
      (msg = "acquire"%string /\ l ∈ H' c \/ msg = "release"%string /\ l ∉ H' c)
  | _ => False
  end.
Proof.
  induction ts as [|[c x] ts IH]; intros m P H r Hok Hr.
  - injection Hr as <-. exists H. by split; [apply rtc_refl|].
  - cbn [run_turns] in Hr. destruct (turn c x (m, P)) as [o|] eqn:Et; [|done].
    pose proof (turn_spin I m P H c x o Hok Et) as Ho. destruct o as [u [m1 P1]|msg|w|s|]; try done.
    + destruct Ho as (H1 & Hs & Hok1). pose proof (IH m1 P1 H1 r Hok1 Hr) as Hrest.
      destruct r as [v [m2 P2]|msg|w|s|]; try done.
      * destruct Hrest as (H2 & Hs2 & ?). exists H2. split; [by eapply rtc_l|done].
      * destruct Hrest as (H2 & c' & l & Hs2 & ?). exists H2, c', l. split; [by eapply rtc_l|done].
    + injection Hr as <-. destruct Ho as [l Hl]. exists H, c, l. split; [apply rtc_refl|done].
Qed.

(** ** Theorems *)

(** C6: Mutual exclusion under every interleaving: from a machine in which the processors
    hold the locks [H], any schedule of calls and memory accesses of the processors takes
    it to one in which they hold locks [H'] reached by taking free locks and giving back
    held ones.  No lock has two holders; a processor that is in no call of [acquire] or
    [release] finds its own locks and no others with [holding]; interrupts are off on a
    processor that holds a lock, and as they were before on one that holds none.  The
    machine panics only when a processor acquires a lock it holds or releases one it does
    not. *)
Theorem spin_locks_exclusive I ts m P H r :
  spin_ok I m P H -> run_turns ts (m, P) = Some r ->
  match r with
  | Ok _ (m', P') => exists H', rtc hstep H H' /\
      (forall l c c', l ∈ H' c -> l ∈ H' c' -> c = c') /\
      (forall c l, P' c = Idle -> (locked (m_lock m' l) <> 0 /\ lk_cpu (m_lock m' l) = Some c) <-> l ∈ H' c) /\
      (forall c, (c < m_ncpu m')%nat -> P' c = Idle -> m_if m' c = if bool_decide (H' c = []) then I c else false)
  | Panic msg => exists H' c l, rtc hstep H H' /\
      (msg = "acquire"%string /\ l ∈ H' c \/ msg = "release"%string /\ l ∉ H' c)
  | _ => False
  end.
Proof.
  intros Hok Hr. pose proof (run_spin I ts m P H r Hok Hr) as Hres. destruct r as [u [m' P']|msg|w|s|]; try done.
  destruct Hres as (H' & Hs & Hok'). exists H'. split; [done|]. split; [|split].
  - intros l c c'. apply (so_once _ _ _ _ Hok').
  - intros c l Hi. rewrite (so_cpu _ _ _ _ Hok'), Hi, (so_locked _ _ _ _ Hok'). cbn. split; [tauto|].
    intros Hl. split; [|by split]. intros Hx. by apply (Hx c).
  - intros c Hlt Hi. destruct (so_cli _ _ _ _ Hok' c Hlt) as (_ & _ & Hc). rewrite Hi in Hc. cbn in Hc.
    destruct (H' c) as [|l ls]; [done|]. rewrite bool_decide_eq_false_2 by done.
    rewrite (proj2 (Z.eqb_neq _ _)) in Hc by (cbn; lia). apply Hc.
Qed.

(** A machine with [n] processors and every lock free. *)
Definition boot_machine (n : nat) (on : nat -> bool) : machine :=
  mk_machine (fun _ => mk_spinlock 0 "" None (replicate 10 0)) (fun c => mk_cpu (Z.of_nat c) 0 0 None) n on Z.of_nat.

Lemma boot_machine_ok n on : spin_ok on (boot_machine n on) (fun _ => Idle) (fun _ => []).
Proof.
  split; try done; cbn.
  - split; [done|]. cbn. lia.
  - intros c l Hl. by apply elem_of_nil in Hl.
  - intros c c' l Hl. by apply elem_of_nil in Hl.
  - intros c. constructor.
  - intros l. split; [|done]. intros _ c. apply not_elem_of_nil.
  - intros l c. split; [done|]. intros [Hl _]. by apply elem_of_nil in Hl.
Qed.

(** Two processors contend for a lock: the first takes it, the second spins until it is
    given back. *)
Definition contention : list (nat * option call) :=
  (0%nat, Some (Call_acquire L_kmem [])) :: (1%nat, Some (Call_acquire L_kmem [])) ::
  (0%nat, None) :: (1%nat, None) :: (0%nat, None) :: (1%nat, None) :: (0%nat, None) :: (1%nat, None) ::
  (0%nat, None) :: (0%nat, None) :: (1%nat, None) :: (0%nat, Some (Call_release L_kmem)) ::
  (0%nat, None) :: (0%nat, None) :: (0%nat, None) :: (0%nat, None) :: (1%nat, None) :: (0%nat, None) ::
  (1%nat, None) :: (1%nat, None) :: (1%nat, None) :: [].

Lemma spin_locks_exclusive_witness :
  exists m' P' (H' : holders), run_turns contention (boot_machine 2 (fun _ => true), fun _ => Idle) = Some (Ok tt (m', P')) /\
    P' 0%nat = Idle /\ P' 1%nat = Idle /\ m_if m' 0%nat = true /\ m_if m' 1%nat = false /\
    L_kmem ∈ H' 1%nat /\ (L_kmem ∉ H' 0%nat).
Proof.
  destruct (run_turns contention (boot_machine 2 (fun _ => true), fun _ => Idle)) as [r|] eqn:E; [|vm_compute in E; done].
  pose proof (spin_locks_exclusive _ _ _ _ _ r (boot_machine_ok 2 (fun _ => true)) E) as Hr.
  vm_compute in E. injection E as <-. destruct Hr as (H' & _ & Hex & Hh & _).
  eexists _, _, H'. split; [reflexivity|]. split; [reflexivity|]. split; [reflexivity|]. split; [reflexivity|]. split; [reflexivity|].
  assert (H1 : L_kmem ∈ H' 1%nat) by (apply Hh; [reflexivity|split; [discriminate|reflexivity]]).
  split; [exact H1|]. intros H0. discriminate (Hex _ _ _ H0 H1).
Defined.

(** ** One processor alone *)

Section Alone.
Context (I : nat -> bool) (P : nat -> pc) (c : nat).

(** A piece of code that takes processor [c] from place [p] to [p'], read off its turn. *)
Lemma turn_alone m H p p' m' :
  spin_ok I m (<[c := p]> P) H -> (c < m_ncpu m)%nat -> p <> Idle -> advance c p m = Ok p' m' ->
  spin_ok I m' (<[c := p']> P) (after_turn c p p' H) /\ (c < m_ncpu m')%nat.
Proof.
  intros Hok Hlt Hp E. pose proof (advance_ok I m _ H c Hok Hlt) as Ht. rewrite fn_lookup_insert in Ht.
  specialize (Ht Hp). rewrite E in Ht. cbn in Ht. rewrite fn_lookup_insert in Ht. destruct Ht as [_ Ht]. split.
  - eapply spin_ext; [|done|exact Ht]. intros c'.
    destruct (decide (c = c')) as [->|]; [by rewrite !fn_lookup_insert|by rewrite !fn_lookup_insert_ne].
  - assert (N : m_ncpu m' = m_ncpu m); [|by rewrite N].
    revert E. clear. unfold advance, holding_locked, holding_cpu, xchg_locked, record_cpu, record_pcs, forget_pc,
      forget_cpu, clear_locked, pushcli, popcli, mycpu, readeflags, cli, sti, modify, gets, get, bind, ret, panic.
    destruct p; repeat (case_match; try done); intros; simplify_eq; try done.
Qed.

(** A processor that has run [acquire] or [release] is back where it was. *)
Lemma spin_back m H : P c = Idle -> spin_ok I m (<[c := Idle]> P) H -> spin_ok I m P H.
Proof.
  intros E. apply spin_ext; [|done]. intros c'.
  destruct (decide (c = c')) as [<-|]; [by rewrite fn_lookup_insert|by rewrite fn_lookup_insert_ne].
Qed.

(** [holding], called at place [Acq_locked] or [Rel_locked]. *)
Lemma holding_alone m H p l :
  spin_ok I m (<[c := p]> P) H -> (c < m_ncpu m)%nat -> unrecorded l p = false ->
  exists m1 m', holding_locked c l m = Ok (negb (locked (m_lock m l) =? 0)) m1 /\
    holding_cpu c l (negb (locked (m_lock m l) =? 0)) m1 = Ok (bool_decide (l ∈ H c)) m' /\ m_lock m' = m_lock m.
Proof.
  intros Hok Hlt Hu. pose proof (so_cli _ _ _ _ Hok c Hlt) as Hc. pose proof (so_cpus _ _ _ _ Hok) as Hcp.
  destruct (holding_locked_ok _ m c l _ Hcp Hlt Hc) as (m1 & E1 & O1 & Hc1).
  assert (Hlt1 : (c < m_ncpu m1)%nat) by (by rewrite (oc_ncpu _ _ _ O1)).
  destruct (holding_cpu_ok (I c) m1 c l (negb (locked (m_lock m l) =? 0)) _ (cpus_ok_only _ _ _ O1 Hcp) Hlt1 Hc1)
    as (m2 & E2 & O2 & _).
  { destruct Hc as (_ & Hc & _). lia. }
  exists m1, m2. split; [done|]. split; [|by rewrite (oc_lock _ _ _ O2), (oc_lock _ _ _ O1)].
  rewrite E2, (oc_lock _ _ _ O1). f_equal. apply (holding_iff I m (<[c := p]> P) H); [done| |by rewrite fn_lookup_insert].
  intros Hi. by apply (locked_true I m (<[c := p]> P) H c).
Qed.

Lemma acquire_alone m H l pcs :
  spin_ok I m P H -> (c < m_ncpu m)%nat -> P c = Idle ->
  if bool_decide (l ∈ H c) then acquire c l pcs m = Panic "acquire"
  else if negb (locked (m_lock m l) =? 0) then acquire c l pcs m = Spin
  else exists m', acquire c l pcs m = Ok tt m' /\ spin_ok I m' P (<[c := l :: H c]> H).
Proof.
  intros Hok Hlt Hi. pose proof (start_ok I m P H c Hok Hlt (Call_acquire l pcs) Hi) as Hs.
  pose proof (so_cli _ _ _ _ Hok c Hlt) as Hc. rewrite Hi in Hc.
  destruct (pushcli_ok _ m c _ (so_cpus _ _ _ _ Hok) Hlt Hc) as (m1 & E1 & O1 & _).
  cbn [start] in Hs. rewrite (bind_ok _ _ _ _ _ E1) in Hs. cbn in Hs. rewrite Hi in Hs. destruct Hs as [_ Hok1].
  assert (Hlt1 : (c < m_ncpu m1)%nat) by (by rewrite (oc_ncpu _ _ _ O1)).
  destruct (holding_alone m1 H _ l Hok1 Hlt1 eq_refl) as (m2 & m3 & E2 & E3 & El).
  assert (EA : acquire c l pcs m = if bool_decide (l ∈ H c) then Panic "acquire" else
    (let! old := xchg_locked l in if negb (old =? 0) then spin else record_cpu c l ;;; record_pcs l pcs) m3).
  { unfold acquire. rewrite (bind_ok _ _ _ _ _ E1). unfold holding, bind at 1. rewrite (bind_ok _ _ _ _ _ E2), E3.
    by case_bool_decide. }
  rewrite EA. clear EA. case_bool_decide as Hin; [done|]. rewrite (oc_lock _ _ _ O1) in El, E2, E3.
  destruct (turn_alone m1 H _ (Acq_holding l pcs (negb (locked (m_lock m l) =? 0))) m2 Hok1 Hlt1) as [Hok2 Hlt2]; [done| |].
  { cbn. by rewrite (bind_ok _ _ _ _ _ E2). }
  destruct (turn_alone m2 H _ (Acq_xchg l pcs) m3 Hok2 Hlt2) as [Hok3 Hlt3]; [done| |].
  { cbn. by rewrite (bind_ok _ _ _ _ _ E3). }
  rewrite (bind_ok (xchg_locked l) _ (locked (m_lock m l)) _ (set_lock l (set_locked 1) m3))
    by (unfold xchg_locked, gets, modify, bind, ret; by rewrite El).
  destruct (Z.eqb_spec (locked (m_lock m l)) 0) as [E0|E0]; [cbn|done].
  destruct (turn_alone m3 H _ (Acq_cpu l pcs) (set_lock l (set_locked 1) m3) Hok3 Hlt3) as [Hok4 Hlt4]; [done| |].
  { cbn. unfold xchg_locked, gets, modify, bind, ret. by rewrite El, E0. }
  set (m4 := set_lock l (set_locked 1) m3) in *. cbn in Hok4.
  destruct (record_cpu c l m4) as [[] m5| | | |] eqn:E5.
  2,3,4,5: exfalso; pose proof (advance_ok I m4 _ _ c Hok4 Hlt4) as Ht; rewrite fn_lookup_insert in Ht; cbn in Ht;
    unfold bind in Ht; rewrite E5 in Ht; specialize (Ht ltac:(done)); cbn in Ht; by rewrite ?fn_lookup_insert in Ht.
  destruct (turn_alone m4 _ _ (Acq_pcs l pcs) m5 Hok4 Hlt4) as [Hok5 Hlt5]; [done| |].
  { cbn. by rewrite (bind_ok _ _ _ _ _ E5). }
  destruct (turn_alone m5 _ _ Idle (set_lock l (set_lk_pcs pcs) m5) Hok5 Hlt5) as [Hok6 _]; [done|done|].
  eexists. split; [by rewrite (bind_ok _ _ _ _ _ E5)|]. apply spin_back; done.
Qed.

Lemma release_alone m H l :
  spin_ok I m P H -> (c < m_ncpu m)%nat -> P c = Idle ->
  if bool_decide (l ∈ H c) then
    exists m', release c l m = Ok tt m' /\ spin_ok I m' P (<[c := remove_one l (H c)]> H)
  else release c l m = Panic "release".
Proof.
  intros Hok Hlt Hi. pose proof (start_ok I m P H c Hok Hlt (Call_release l) Hi) as Hs.
  cbn in Hs. rewrite Hi in Hs. destruct Hs as [_ Hok1].
  destruct (holding_alone m H _ l Hok1 Hlt eq_refl) as (m2 & m3 & E2 & E3 & El).
  assert (EA : release c l m = if bool_decide (l ∈ H c) then
    (forget_pc l ;;; forget_cpu l ;;; clear_locked l ;;; popcli c) m3 else Panic "release").
  { unfold release, holding, bind at 1. rewrite (bind_ok _ _ _ _ _ E2), E3. by case_bool_decide. }
  rewrite EA. clear EA. case_bool_decide as Hin; [|done].
  destruct (turn_alone m H _ (Rel_holding l (negb (locked (m_lock m l) =? 0))) m2 Hok1 Hlt) as [Hok2 Hlt2]; [done| |].
  { cbn. by rewrite (bind_ok _ _ _ _ _ E2). }
  destruct (turn_alone m2 H _ (Rel_pc l) m3 Hok2 Hlt2) as [Hok3 Hlt3]; [done| |].
  { cbn. by rewrite (bind_ok _ _ _ _ _ E3). }
  set (m4 := set_lock l (fun x => set_lk_pcs (<[0%nat := 0]> (lk_pcs x)) x) m3).
  destruct (turn_alone m3 H _ (Rel_cpu l) m4 Hok3 Hlt3) as [Hok4 Hlt4]; [done|reflexivity|].
  destruct (turn_alone m4 H _ (Rel_unlock l) (set_lock l (set_lk_cpu None) m4) Hok4 Hlt4) as [Hok5 Hlt5]; [done|reflexivity|].
  unfold forget_pc, forget_cpu, modify, bind at 1 2. cbn [forget_pc forget_cpu modify] in *.
  match type of Hok5 with spin_ok _ ?m _ _ => set (m5 := m) in * end.
  pose proof (advance_ok I m5 _ _ c Hok5 Hlt5) as Ht. rewrite fn_lookup_insert in Ht. specialize (Ht ltac:(done)).
  cbn [advance] in Ht. unfold bind, clear_locked, modify in Ht |- *.
  destruct (popcli c (set_lock l (set_locked 0) m5)) as [[] m6| | | |] eqn:E6; cbn in Ht; rewrite ?fn_lookup_insert in Ht; try done.
  eexists. split; [exact E6|]. apply spin_back; [done|]. eapply spin_ext; [|done|apply Ht].
  intros c'. destruct (decide (c = c')) as [->|]; [by rewrite !fn_lookup_insert|by rewrite !fn_lookup_insert_ne].
Qed.

End Alone.

(** ** The locks of Sync.v *)

(** A call as the rest of the kernel sees it: an operation on the locks [k_held] of the
    processor that makes it. *)
Definition sync_call (x : call) : KM unit :=
  match x with Call_acquire l _ => Sync.acquire l | Call_release l => Sync.release l end.

(** The kernel's state on each processor, and the locks each holds. *)
Definition kernels : Type := nat -> kernel.
Definition held (K : kernels) : holders := fun c => k_held (K c).

(** [acquire] has its effect only when no other processor holds the lock. *)
Definition enabled (c : nat) (x : call) (K : kernels) : Prop :=
  match x with Call_acquire l _ => forall c', c' <> c -> l ∉ held K c' | Call_release _ => True end.

(** Calls of the processors that have their effects one after the other, each at once. *)
Inductive in_order : list (nat * call) -> kernels -> kernels -> Prop :=
| in_order_nil K : in_order [] K K
| in_order_cons c x es K k' K' :
    enabled c x K -> sync_call x (K c) = Ok tt k' -> in_order es (<[c := k']> K) K' -> in_order ((c, x) :: es) K K'.

(** The calls that processor [c] makes in a schedule, and its effects in an order. *)
Definition calls_of (c : nat) (ts : list (nat * option call)) : list call :=
  omap (fun t => if decide (t.1 = c) then t.2 else None) ts.
Definition effects_of (c : nat) (es : list (nat * call)) : list call :=
  omap (fun e => if decide (e.1 = c) then Some e.2 else None) es.

(** The call a processor is in, while it has not had its effect. *)
Definition unfinished (p : pc) : list call :=
  match p with
  | Idle | Acq_cpu _ _ | Acq_pcs _ _ => []
  | Acq_locked l pcs | Acq_holding l pcs _ | Acq_xchg l pcs => [Call_acquire l pcs]
  | Rel_locked l | Rel_holding l _ | Rel_pc l | Rel_cpu l | Rel_unlock l => [Call_release l]
  end.

(** The effect of going from one place to another. *)
Definition effect (p p' : pc) : list call :=
  match p, p' with
  | Acq_xchg l pcs, Acq_cpu _ _ => [Call_acquire l pcs]
  | Rel_unlock l, _ => [Call_release l]
  | _, _ => []
  end.

Lemma advance_effect c p m p' m' : advance c p m = Ok p' m' -> unfinished p = effect p p' ++ unfinished p'.
Proof.
  destruct p; cbn [advance]; intros E; repeat (apply bind_ok_inv in E as (? & ? & _ & E)); unfold ret, panic in E;
    repeat (case_match; try done); by injection E as <- _.
Qed.

Lemma start_effect c x m p' m' : start c x m = Ok p' m' -> [x] = unfinished p'.
Proof. destruct x; cbn [start]; intros E; repeat (apply bind_ok_inv in E as (? & ? & _ & E)); by injection E as <- _. Qed.

(** A turn: the place it takes the processor to, and the holders. *)
Lemma turn_place I m P H c x r :
  spin_ok I m P H -> turn c x (m, P) = Some r ->
  match r with
  | Ok _ (m', P') => exists p, P' = <[c := p]> P /\ unfinished (P c) ++ option_list x = effect (P c) p ++ unfinished p /\
      spin_ok I m' P' (after_turn c (P c) p H)
  | Panic msg => exists y, unfinished (P c) = [y] /\ x = None /\ forall k, k_held k = H c -> sync_call y k = Panic msg
  | _ => False
  end.
Proof.
  intros Hok. unfold turn. destruct (Nat.ltb_spec c (m_ncpu m)) as [Hlt|]; [|done]. cbn [negb].
  destruct x as [y|].
  - destruct (P c) eqn:E; try done. intros [= <-]. pose proof (start_ok I m P H c Hok Hlt y E) as Ho.
    destruct (start c y m) as [p m'| | | |] eqn:Es; unfold turn_ok in Ho; rewrite ?E in Ho; try done.
    exists p. split; [done|]. split; [by rewrite <- (start_effect _ _ _ _ _ Es)|apply Ho].
  - intros Hr. assert (Hne : P c <> Idle) by (intros E; by rewrite E in Hr).
    pose proof (advance_ok I m P H c Hok Hlt Hne) as Ho.
    assert (Er : r = match advance c (P c) m with
      | Ok p m' => Ok tt (m', <[c := p]> P) | Panic msg => Panic msg | Fault what => Fault what
      | Swtch m' => Swtch (m', P) | Spin => Spin end) by (by destruct (P c); try done; injection Hr).
    clear Hr. subst r. destruct (advance c (P c) m) as [p m'|msg| | |] eqn:Ea; try done; cbn in Ho.
    + exists p. split; [done|]. split; [rewrite app_nil_r; by eapply advance_effect|apply Ho].
    + destruct (P c) as [| |l pcs b| | | | |l b| | |]; try done; destruct Ho as [-> Hl]; eexists; (split; [done|]); (split; [done|]); intros k Ek;
        cbn; unfold Sync.acquire, Sync.release, Sync.holding; rewrite Ek; [by rewrite bool_decide_eq_true_2|by rewrite bool_decide_eq_false_2].
Qed.

(** The effect of a turn is the operation of Sync.v. *)
Lemma effect_sync I m P H c p m' K :
  spin_ok I m P H -> spin_ok I m' (<[c := p]> P) (after_turn c (P c) p H) -> (forall c', H c' = held K c') ->
  exists K', in_order (pair c <$> effect (P c) p) K K' /\ forall c', after_turn c (P c) p H c' = held K' c'.
Proof.
  intros Hok Hok' HK. pose proof (so_place _ _ _ _ Hok c) as Hp.
  assert (S : effect (P c) p = [] -> after_turn c (P c) p H = H ->
    exists K', in_order (pair c <$> effect (P c) p) K K' /\ forall c', after_turn c (P c) p H c' = held K' c').
  { intros -> ->. exists K. split; [constructor|done]. }
  assert (U : forall k' ls, k_held k' = ls -> forall c', <[c := ls]> H c' = held (<[c := k']> K) c').
  { intros k' ls <- c'. unfold held, holders, kernels. destruct (decide (c = c')) as [->|Hne]; [by rewrite !fn_lookup_insert|]. rewrite !fn_lookup_insert_ne by done. apply HK. }
  destruct (P c) as [| | |l pcs| | | | | | |l] eqn:E; try (by apply S).
  - destruct p; try (by apply S). cbn [after_turn effect place_ok] in *. exists (<[c := set_k_held (l :: H c) (K c)]> K). split; [|by apply U].
    apply (in_order_cons c _ [] K (set_k_held (l :: H c) (K c))); [| |constructor].
    + intros c' Hne Hl. rewrite <- HK in Hl. apply Hne. apply (so_once _ _ _ _ Hok' c' c l); unfold holders; [|rewrite fn_lookup_insert; by left].
      by rewrite fn_lookup_insert_ne by congruence.
    + cbn. unfold Sync.acquire, Sync.holding. rewrite bool_decide_eq_false_2; rewrite (HK c) in *; done.
  - cbn [after_turn effect place_ok] in *. exists (<[c := set_k_held (remove_one l (H c)) (K c)]> K). split; [|by apply U].
    apply (in_order_cons c _ [] K (set_k_held (remove_one l (H c)) (K c))); [done| |constructor].
    cbn. unfold Sync.release, Sync.holding. rewrite bool_decide_eq_true_2; rewrite (HK c) in *; done.
Qed.

Lemma in_order_app es es' K K' K'' : in_order es K K' -> in_order es' K' K'' -> in_order (es ++ es') K K''.
Proof. induction 1; [done|]. intros. econstructor; eauto. Qed.

Lemma effects_pair c c' l : effects_of c' (pair c <$> l) = if decide (c = c') then l else [].
Proof. unfold effects_of. induction l as [|x l IH]; cbn; [by case_decide|]. rewrite IH. by case_decide. Qed.

(** What every processor has called is what has had its effect, and the call it is in. *)
Definition accounted (P : nat -> pc) (ts : list (nat * option call)) (es : list (nat * call)) (P' : nat -> pc) : Prop :=
  forall c, unfinished (P c) ++ calls_of c ts = effects_of c es ++ unfinished (P' c).

Lemma accounted_turn P c x ts p es P' :
  unfinished (P c) ++ option_list x = effect (P c) p ++ unfinished p -> accounted (<[c := p]> P) ts es P' ->
  accounted P ((c, x) :: ts) ((pair c <$> effect (P c) p) ++ es) P'.
Proof.
  intros Hx Ha c'. specialize (Ha c'). unfold effects_of in *. rewrite omap_app. fold (effects_of c' (pair c <$> effect (P c) p)). rewrite effects_pair.
  unfold calls_of in *. cbn [omap list_omap fst snd]. destruct (decide (c = c')) as [<-|Hne].
  - rewrite fn_lookup_insert in Ha. rewrite <- app_assoc, <- Ha, app_assoc, <- Hx, <- app_assoc. by destruct x.
  - by rewrite fn_lookup_insert_ne in Ha by done.
Qed.

Lemma run_in_order I ts : forall m P H K r,
  spin_ok I m P H -> (forall c, H c = held K c) -> run_turns ts (m, P) = Some r ->
  match r with
  | Ok _ (m', P') => exists es K', in_order es K K' /\ accounted P ts es P' /\ spin_ok I m' P' (held K')
  | Panic msg => exists ts1 ts2 es K' P' c x, ts = ts1 ++ ts2 /\ in_order es K K' /\ accounted P ts1 es P' /\
      unfinished (P' c) = [x] /\ sync_call x (K' c) = Panic msg
  | _ => False
  end.
Proof.
  induction ts as [|[c x] ts IH]; intros m P H K r Hok HK Hr.
  - injection Hr as <-. exists [], K. split; [constructor|]. split; [intros c; cbn; by rewrite app_nil_r|].
    eapply spin_ext; [done| |exact Hok]. intros c. by rewrite HK.
  - cbn [run_turns] in Hr. destruct (turn c x (m, P)) as [o|] eqn:Et; [|done].
    pose proof (turn_place I m P H c x o Hok Et) as Ho. destruct o as [u [m1 P1]|msg|w|s|]; try done.
    + destruct Ho as (p & -> & Hx & Hok1). destruct (effect_sync I m P H c p m1 K Hok Hok1 HK) as (K1 & I1 & HK1).
      pose proof (IH m1 _ _ K1 r Hok1 HK1 Hr) as Hrest. destruct r as [v [m2 P2]|msg|w|s|]; try done.
      * destruct Hrest as (es & K2 & I2 & A2 & S2). exists ((pair c <$> effect (P c) p) ++ es), K2.
        split; [by eapply in_order_app|]. split; [by apply accounted_turn|done].
      * destruct Hrest as (ts1 & ts2 & es & K2 & P2 & c2 & y & -> & I2 & A2 & R2).
        exists ((c, x) :: ts1), ts2, ((pair c <$> effect (P c) p) ++ es), K2, P2, c2, y.
        split; [done|]. split; [by eapply in_order_app|]. split; [by apply accounted_turn|done].
    + injection Hr as <-. destruct Ho as (y & Hy & -> & Hp). exists [], ((c, None) :: ts), [], K, P, c, y.
      split; [done|]. split; [constructor|]. split; [intros c'; cbn; by rewrite app_nil_r|]. split; [done|]. apply Hp. by rewrite HK.
Qed.

(** [acquire] and [release] run by processor [c] while no other runs: they do to its locks
    what those of Sync.v do, with the same panics; or [acquire] spins, because another
    processor holds the lock. *)
Definition alone_like_sync (I : nat -> bool) (m : machine) (P : nat -> pc) (H : holders) (c : nat) (k : kernel) : Prop :=
  forall l pcs,
  (match Sync.acquire l k with
   | Ok _ k' => (exists m', acquire c l pcs m = Ok tt m' /\ spin_ok I m' P (<[c := k_held k']> H)) \/
       (acquire c l pcs m = Spin /\ exists c', c' <> c /\ l ∈ H c')
   | Panic msg => acquire c l pcs m = Panic msg
   | _ => False
   end) /\
  (match Sync.release l k with
   | Ok _ k' => exists m', release c l m = Ok tt m' /\ spin_ok I m' P (<[c := k_held k']> H)
   | Panic msg => release c l m = Panic msg
   | _ => False
   end).

Lemma alone_sync I m P H c k :
  spin_ok I m P H -> (c < m_ncpu m)%nat -> P c = Idle -> H c = k_held k -> alone_like_sync I m P H c k.
Proof.
  intros Hok Hlt Hi Hh l pcs. pose proof (acquire_alone I P c m H l pcs Hok Hlt Hi) as Ha.
  pose proof (release_alone I P c m H l Hok Hlt Hi) as Hr.
  unfold Sync.acquire, Sync.release, Sync.holding. rewrite <- Hh. case_bool_decide as Hin; (split; [|exact Hr]); [exact Ha|].
  destruct (Z.eqb_spec (locked (m_lock m l)) 0) as [E|E]; cbn in Ha; [by left|]. right. split; [done|].
  destruct (decide (Exists (fun c' => l ∈ H c') (seq 0 (m_ncpu m)))) as [Hx|Hx].
  - apply Exists_exists in Hx as (c' & _ & Hx). exists c'. split; [|done]. by intros ->.
  - exfalso. apply E, (so_locked _ _ _ _ Hok). intros c' Hx'. apply Hx, Exists_exists. exists c'. split; [|done].
    apply elem_of_seq. pose proof (so_out _ _ _ _ Hok c' l Hx'). lia.
Qed.

(** C7: The spin locks the rest of the kernel is verified with are those of spinlock.c, in
    every interleaving.  Let the processors hold the locks [k_held] of the kernels [K], and
    take any schedule of their calls of [acquire] and [release] and of the memory accesses
    in them.  Then the calls can be put in one order in which each has its effect at once
    and is the operation of Sync.v on the kernel of its processor, [acquire] only when no
    other processor holds the lock: every processor's calls have their effects in the order
    it made them, all but the one it is still in, and the locks held in the end are those
    of the kernels in the end.  When the machine panics, the operation of Sync.v panics with
    the same message at that point.  And in the state reached, the whole [acquire] or
    [release] of a processor that is not interrupted does what Sync.v's does. *)
Theorem spin_refines_sync I ts m P K r :
  spin_ok I m P (held K) -> run_turns ts (m, P) = Some r ->
  match r with
  | Ok _ (m', P') => exists es K', in_order es K K' /\ accounted P ts es P' /\ spin_ok I m' P' (held K') /\
      forall c, (c < m_ncpu m')%nat -> P' c = Idle -> alone_like_sync I m' P' (held K') c (K' c)
  | Panic msg => exists ts1 ts2 es K' P' c x, ts = ts1 ++ ts2 /\ in_order es K K' /\ accounted P ts1 es P' /\
      unfinished (P' c) = [x] /\ sync_call x (K' c) = Panic msg
  | _ => False
  end.
Proof.
  intros Hok Hr. pose proof (run_in_order I ts m P (held K) K r Hok ltac:(done) Hr) as Hres.
  destruct r as [u [m' P']|msg|w|s|]; try done. destruct Hres as (es & K' & E & A & Hok').
  exists es, K'. split; [done|]. split; [done|]. split; [done|]. intros c Hlt Hi. by apply alone_sync.
Qed.

(** The schedule of [contention]: both processors acquire, the first releases. *)
Lemma spin_refines_sync_witness :
  exists es K', in_order es (fun _ => boot_kernel 0 0 (fun _ => []) 0) K' /\
    effects_of 0 es = [Call_acquire L_kmem []; Call_release L_kmem] /\ effects_of 1 es = [Call_acquire L_kmem []].
Proof.
  assert (V : match run_turns contention (boot_machine 2 (fun _ => true), fun _ => Idle) with
    | Some (Ok _ (_, P')) => unfinished (P' 0%nat) = [] /\ unfinished (P' 1%nat) = [] | _ => False end) by (vm_compute; split; reflexivity).
  destruct (run_turns contention (boot_machine 2 (fun _ => true), fun _ => Idle)) as [r|] eqn:E; [|done].
  pose proof (spin_refines_sync _ contention _ _ (fun _ => boot_kernel 0 0 (fun _ => []) 0) r (boot_machine_ok 2 (fun _ => true)) E) as Hr.
  destruct r as [u [m' P']| | | |]; try done. destruct V as [V0 V1]. destruct Hr as (es & K' & HE & HA & _). exists es, K'. split; [exact HE|].
  pose proof (HA 0%nat) as A0. pose proof (HA 1%nat) as A1. rewrite V0, app_nil_r in A0. rewrite V1, app_nil_r in A1. by rewrite <- A0, <- A1.
Defined.
