(* ===== verification/Kalloc.v ===== *)
(** * Kalloc: the physical page allocator (kalloc.c)

    The free list is threaded through the free pages themselves: [r->next] is the
    first word of the page.  [freelist_rep] relates the pointers in memory to the
    list of free pages, and the theorems show that [kfree] and [kalloc] push and
    pop it, that no page is handed out twice, and what [freerange] frees. *)

From S2P Require Import Prelude Bytes Kernel Sync.

(** ** memset on kernel memory (string.c, x86.h) *)

(** [rep stosb] and [rep stosl]: [cnt] bytes or words of [data] from [a]. *)
Definition stosb (m : mem) (a data cnt : Z) : mem := fun x =>
  if (a <=? x) && (x <? a + cnt) then u8 data else m x.
Definition stosl (m : mem) (a data cnt : Z) : mem := fun x =>
  if (a <=? x) && (x <? a + 4 * cnt) then u8 (Z.shiftr data (8 * ((x - a) mod 4))) else m x.

Definition memset (m : mem) (dst c n : Z) : mem :=
  if (dst mod 4 =? 0) && (n mod 4 =? 0) then
    let c := Z.land c 0xFF in
    stosl m dst (Z.lor (Z.lor (Z.lor (Z.shiftl c 24) (Z.shiftl c 16)) (Z.shiftl c 8)) c) (n / 4)
  else stosb m dst c n.

(** ** Operations *)

Definition kmem_lock : KM unit :=
  let! k := get in when (k_use_lock k) (acquire L_kmem).
Definition kmem_unlock : KM unit :=
  let! k := get in when (k_use_lock k) (release L_kmem).

Definition kfree (v : Z) : KM unit :=
  let! k := get in
  if negb (v mod PGSIZE =? 0) || (v <? k_end k) || (PHYSTOP <=? V2P v) then panic "kfree" else
  modify (fun k => set_k_mem (memset (k_mem k) v 1 PGSIZE) k) ;;;
  kmem_lock ;;;
  modify (fun k => set_k_mem (store32 (k_mem k) v (k_freelist k)) k) ;;;
  modify (set_k_freelist v) ;;;
  kmem_unlock.

Definition kalloc : KM Z :=
  kmem_lock ;;;
  let! k := get in
  let r := k_freelist k in
  when (negb (r =? 0)) (modify (set_k_freelist (load32 (k_mem k) r))) ;;;
  kmem_unlock ;;;
  ret r.

(** The loop of [freerange]: [n] bounds the number of pages it can free. *)
Fixpoint freerange_loop (n : nat) (p vend : Z) : KM unit :=
  match n with
  | O => ret tt
  | S n' =>
      if p + PGSIZE <=? vend then kfree p ;;; freerange_loop n' (p + PGSIZE) vend
      else ret tt
  end.

Definition freerange (vstart vend : Z) : KM unit :=
  let p := PGROUNDUP vstart in
  freerange_loop (Z.to_nat ((vend - p) / PGSIZE)) p vend.

Definition kinit1 (vstart vend : Z) : KM unit :=
  modify (set_k_use_lock false) ;;;
  freerange vstart vend.

Definition kinit2 (vstart vend : Z) : KM unit :=
  freerange vstart vend ;;;
  modify (set_k_use_lock true).

(** ** memset writes the byte, whichever way it goes *)

Lemma word_of_byte_testbit c i :
  0 <= c < 256 -> (i < 4)%nat ->
  u8 (Z.shiftr (Z.lor (Z.lor (Z.lor (Z.shiftl c 24) (Z.shiftl c 16)) (Z.shiftl c 8)) c)
               (8 * Z.of_nat i)) = c.
Proof.
  intros Hc Hi. rewrite <- !Z.lor_assoc.
  assert (forall a n, 0 <= a < 256 -> 0 <= n -> n <= 24 -> Z.shiftl a n = a * 2 ^ n) as Hs.
  { intros. by rewrite Z.shiftl_mul_pow2 by lia. }
  unfold u8. rewrite <- Z.land_ones by lia.
  apply Z.bits_inj'. intros j Hj.
  rewrite Z.land_spec, Z.shiftr_spec, !Z.lor_spec, !Z.shiftl_spec by lia.
  assert (forall j, 8 <= j -> Z.testbit c j = false) as Hhi.
  { intros j' ?. rewrite <- (Z.mod_small c (2 ^ 8)) by (change (2 ^ 8) with 256; lia).
    by rewrite Z.mod_pow2_bits_high by lia. }
  destruct (decide (j < 8)).
  - rewrite Z.ones_spec_low by lia. rewrite andb_true_r.
    destruct i as [|[|[|[|]]]]; try lia; simpl;
      repeat match goal with
      | |- context [Z.testbit c ?e] =>
          first [ rewrite (Hhi e) by lia
                | rewrite (Z.testbit_neg_r c e) by lia
                | progress (replace e with j by lia) ]
      end; rewrite ?orb_false_r; try reflexivity; auto using orb_diag.
  - rewrite Z.ones_spec_high by lia. rewrite andb_false_r. by rewrite Hhi by lia.
Qed.

Lemma memset_byte m dst c n x :
  0 <= n -> memset m dst c n x = if (dst <=? x) && (x <? dst + n) then u8 c else m x.
Proof.
  intros Hn. unfold memset, stosl, stosb.
  destruct ((dst mod 4 =? 0) && (n mod 4 =? 0)) eqn:E; [|done]. zify_bool.
  replace (4 * (n / 4)) with n by (rewrite (Z.div_mod n 4) at 1; lia).
  destruct ((dst <=? x) && (x <? dst + n)); [|done].
  change 0xFF with (Z.ones 8). rewrite Z.land_ones by lia. fold (u8 c).
  pose proof (u8_range c). pose proof (Z.mod_pos_bound (x - dst) 4 ltac:(lia)).
  rewrite <- (Z2Nat.id ((x - dst) mod 4)) by lia. apply word_of_byte_testbit; lia.
Qed.

(** ** The free list in memory *)

Fixpoint freelist_rep (m : mem) (p : Z) (l : list Z) : Prop :=
  match l with
  | [] => p = 0
  | a :: l' => p = a /\ freelist_rep m (load32 m a) l'
  end.

(** A page [kfree] accepts. *)
Definition good_page (k : kernel) (v : Z) : Prop :=
  v mod PGSIZE = 0 /\ k_end k <= v /\ V2P v < PHYSTOP /\ v < 2 ^ 32.

(** The allocator's invariant: the pages of [free], all different, are on the free
    list in that order, and the kernel image ends in the kernel's half of the
    address space. *)
Record kmem_ok (k : kernel) (free : list Z) : Prop := {
  kmem_rep : freelist_rep (k_mem k) (k_freelist k) free;
  kmem_nodup : NoDup free;
  kmem_good : Forall (good_page k) free;
  kmem_end : KERNBASE <= k_end k
}.

(** The lock discipline [kalloc] and [kfree] rely on. *)
Definition kmem_free_lock (k : kernel) : Prop := L_kmem ∉ k_held k.

Lemma good_page_pos k v : KERNBASE <= k_end k -> good_page k v -> 0 < v < 2 ^ 32.
Proof. intros He (_ & H & _ & ?). unfold KERNBASE in *. lia. Qed.

Lemma good_page_disjoint k v w :
  good_page k v -> good_page k w -> v <> w -> v + PGSIZE <= w \/ w + PGSIZE <= v.
Proof.
  intros (Hv & _) (Hw & _) Hne. unfold PGSIZE in *.
  apply Z.mod_divide in Hv as [a ->], Hw as [b ->]; lia.
Qed.

Lemma freelist_rep_agree m m' p l :
  (forall a, a ∈ l -> load32 m a = load32 m' a) ->
  freelist_rep m p l -> freelist_rep m' p l.
Proof.
  revert p. induction l as [|a l IH]; intros p H; [done|].
  intros [-> Hr]. split; [done|]. rewrite <- H by set_solver.
  apply IH; [|done]. intros. apply H. set_solver.
Qed.

(** A write inside a page that is not free leaves the free list alone. *)
Lemma kmem_ok_mem k free m v :
  kmem_ok k free -> good_page k v -> v ∉ free ->
  (forall x, x < v \/ v + PGSIZE <= x -> m x = k_mem k x) ->
  kmem_ok (set_k_mem m k) free.
Proof.
  intros [Hr Hd Hg He] Hv Hn Hm. split; simpl; try done.
  eapply freelist_rep_agree; [|exact Hr]. intros a Ha. apply load32_agree. intros x Hx.
  symmetry. apply Hm. rewrite Forall_forall in Hg.
  destruct (good_page_disjoint k v a Hv (Hg _ Ha)); [congruence| |]; unfold PGSIZE in *; lia.
Qed.

Definition kfree_mem (k : kernel) (v : Z) : mem :=
  store32 (memset (k_mem k) v 1 PGSIZE) v (k_freelist k).

Lemma kfree_mem_out k v x : x < v \/ v + PGSIZE <= x -> kfree_mem k v x = k_mem k x.
Proof.
  intros H. unfold kfree_mem, PGSIZE in *. rewrite store32_out by lia.
  rewrite memset_byte by lia.
  destruct (Z.leb_spec v x), (Z.ltb_spec x (v + 4096)); simpl; auto; lia.
Qed.

Lemma kfree_eq k v :
  good_page k v -> kmem_free_lock k ->
  kfree v k = Ok tt (set_k_freelist v (set_k_mem (kfree_mem k v) k)).
Proof.
  intros (Hm & He & Hp & _) Hl. unfold kfree, kmem_lock, kmem_unlock. mred.
  rewrite Hm. simpl (negb (0 =? 0)).
  rewrite (proj2 (Z.ltb_ge _ _)), (proj2 (Z.leb_gt _ _)) by lia. simpl.
  destruct (k_use_lock k) eqn:E; [|cbn; by rewrite E].
  rewrite acquire_ok by done. cbn. rewrite E.
  erewrite release_ok by reflexivity. by destruct k.
Qed.

Lemma kfree_panics k v : ~ good_page k v -> v < 2 ^ 32 -> kfree v k = Panic "kfree".
Proof.
  intros Hn Hv. unfold kfree, good_page in *. mred.
  destruct (negb (v mod PGSIZE =? 0)) eqn:E1; [done|].
  destruct (v <? k_end k) eqn:E2; [done|].
  destruct (PHYSTOP <=? V2P v) eqn:E3; [done|]. zify_bool. exfalso. apply Hn.
  repeat split; lia.
Qed.

Lemma kmem_ok_push k free v :
  kmem_ok k free -> good_page k v -> v ∉ free ->
  kmem_ok (set_k_freelist v (set_k_mem (kfree_mem k v) k)) (v :: free).
Proof.
  intros Hok Hv Hn.
  pose proof (kmem_ok_mem k free (kfree_mem k v) v Hok Hv Hn
                (fun x => kfree_mem_out k v x)) as [Hr Hd Hg He].
  split; simpl in *; [|by constructor|by constructor|done].
  split; [done|].
  replace (load32 (kfree_mem k v) v) with (u32 (k_freelist k))
    by (symmetry; apply load32_store32_eq).
  destruct Hok as [Hr0 _ Hg0 _].
  rewrite u32_small; [done|].
  destruct free as [|a free]; [simpl in Hr0; lia|]. destruct Hr0 as [-> _].
  apply Forall_cons in Hg0 as [Ha _]. pose proof (good_page_pos k a He Ha). lia.
Qed.

(** [kfree] puts a page on the free list: on a page it accepts that is not free
    already, it returns (never panics) with the page at the head of the list, every
    other free page still on it, and no byte outside the page written. *)
Theorem kfree_pushes k free v :
  kmem_ok k free -> kmem_free_lock k -> good_page k v -> v ∉ free ->
  exists k', kfree v k = Ok tt k' /\ kmem_ok k' (v :: free) /\ k_held k' = k_held k /\
    forall x, x < v \/ v + PGSIZE <= x -> k_mem k' x = k_mem k x.
Proof.
  intros Hok Hl Hv Hn. eexists. split; [by apply kfree_eq|].
  split; [by apply kmem_ok_push|]. split; [done|]. apply kfree_mem_out.
Qed.

Lemma kalloc_eq k :
  kmem_free_lock k ->
  kalloc k = Ok (k_freelist k)
    (if k_freelist k =? 0 then k else set_k_freelist (load32 (k_mem k) (k_freelist k)) k).
Proof.
  intros Hl. unfold kalloc, kmem_lock, kmem_unlock. mred.
  destruct (k_use_lock k) eqn:E.
  - rewrite acquire_ok by done. cbn.
    destruct (k_freelist k =? 0) eqn:E2; cbn; rewrite E;
      (erewrite release_ok by reflexivity); by destruct k.
  - cbn. destruct (k_freelist k =? 0) eqn:E2; cbn; by rewrite E.
Qed.

Lemma kalloc_pop k free :
  kmem_ok k free -> kmem_free_lock k ->
  match free with
  | [] => kalloc k = Ok 0 k
  | a :: free' => exists k', kalloc k = Ok a k' /\ kmem_ok k' free' /\
      k' = set_k_freelist (load32 (k_mem k) a) k
  end.
Proof.
  intros [Hr Hd Hg He] Hl. destruct free as [|a free]; simpl in Hr.
  - rewrite kalloc_eq by done. rewrite Hr. by destruct k.
  - destruct Hr as [Ha Hr]. rewrite kalloc_eq by done. rewrite Ha.
    apply Forall_cons in Hg as [Hga Hg]. apply NoDup_cons in Hd as [Hd1 Hd2].
    pose proof (good_page_pos k a He Hga).
    rewrite (proj2 (Z.eqb_neq _ _)) by lia. eexists. split; [done|].
    split; [|done]. by split.
Qed.

(** [kalloc] returns 0 exactly when no page is free; otherwise it hands out a page
    of the free list that is no longer on it afterwards (so no page is handed out
    twice), page aligned and inside the range [kfree] accepts, and it leaves memory
    alone. *)
Theorem kalloc_pops k free :
  kmem_ok k free -> kmem_free_lock k ->
  exists r k', kalloc k = Ok r k' /\ k_mem k' = k_mem k /\ k_held k' = k_held k /\
    (r = 0 <-> free = []) /\
    (r <> 0 -> good_page k' r /\ exists free', free = r :: free' /\ (r ∉ free') /\ kmem_ok k' free').
Proof.
  intros Hok Hl. pose proof (kalloc_pop k free Hok Hl) as H.
  destruct free as [|a free].
  - eexists 0, k. repeat split; auto; lia.
  - destruct H as (k' & E & Hok' & ->). destruct Hok as [_ Hd Hg He].
    apply Forall_cons in Hg as [Hga _]. apply NoDup_cons in Hd as [Hd1 Hd2].
    pose proof (good_page_pos k a He Hga).
    exists a, (set_k_freelist (load32 (k_mem k) a) k).
    split; [done|]. split; [done|]. split; [done|].
    split; [split; [lia|done]|]. intros _. split; [done|]. exists free. auto.
Qed.

(** ** freerange *)

(** The pages [freerange] frees, the last one first. *)
Fixpoint range_pages (n : nat) (p : Z) (acc : list Z) : list Z :=
  match n with O => acc | S n' => range_pages n' (p + PGSIZE) (p :: acc) end.

Lemma elem_of_range_pages n p acc x :
  x ∈ range_pages n p acc <->
  x ∈ acc \/ exists i, 0 <= i < Z.of_nat n /\ x = p + PGSIZE * i.
Proof.
  revert p acc. induction n as [|n IH]; intros p acc; cbn [range_pages].
  - split; [auto|]. intros [?|(i & ? & _)]; [done|lia].
  - rewrite IH, elem_of_cons. split.
    + intros [[->|?]|(i & Hi & ->)]; [|by left|].
      * right. exists 0. lia.
      * right. exists (i + 1). lia.
    + intros [?|(i & Hi & ->)]; [auto|].
      destruct (decide (i = 0)) as [->|]; [left; left; lia|].
      right. exists (i - 1). lia.
Qed.

Lemma freerange_loop_ok n : forall p vend k free,
  kmem_ok k free -> kmem_free_lock k ->
  p + PGSIZE * Z.of_nat n <= vend < p + PGSIZE * (Z.of_nat n + 1) ->
  (forall i, 0 <= i < Z.of_nat n -> good_page k (p + PGSIZE * i) /\ (p + PGSIZE * i ∉ free)) ->
  exists k', freerange_loop n p vend k = Ok tt k' /\
    kmem_ok k' (range_pages n p free) /\ k_held k' = k_held k /\ k_end k' = k_end k.
Proof.
  induction n as [|n IH]; intros p vend k free Hok Hl Hn Hg; cbn [freerange_loop range_pages].
  - exists k. auto.
  - unfold PGSIZE in Hn. rewrite (proj2 (Z.leb_le _ _)) by (unfold PGSIZE; lia).
    destruct (Hg 0 ltac:(lia)) as [Hg0 Hn0]. rewrite Z.mul_0_r, Z.add_0_r in Hg0, Hn0.
    erewrite bind_ok by (by apply kfree_eq).
    destruct (IH (p + PGSIZE) vend _ (p :: free) (kmem_ok_push k free p Hok Hg0 Hn0))
      as (k' & E & Hok' & Hh & He); [done|unfold PGSIZE; lia| |].
    + intros i Hi. replace (p + PGSIZE + PGSIZE * i) with (p + PGSIZE * (i + 1)) by lia.
      destruct (Hg (i + 1) ltac:(lia)) as [Hgi Hni]. split; [done|].
      apply not_elem_of_cons. split; [unfold PGSIZE; lia|done].
    + exists k'. auto.
Qed.

(** [freerange] frees every whole page of the range it is given, once: the pages
    from [PGROUNDUP vstart] that end at or before [vend] are pushed on the free
    list, and nothing else. *)
Theorem freerange_frees k free vstart vend n :
  kmem_ok k free -> kmem_free_lock k ->
  PGROUNDUP vstart + PGSIZE * Z.of_nat n <= vend < PGROUNDUP vstart + PGSIZE * (Z.of_nat n + 1) ->
  (forall i, 0 <= i < Z.of_nat n ->
     good_page k (PGROUNDUP vstart + PGSIZE * i) /\ (PGROUNDUP vstart + PGSIZE * i ∉ free)) ->
  exists k' free', freerange vstart vend k = Ok tt k' /\ kmem_ok k' free' /\
    forall x, x ∈ free' <-> x ∈ free \/
      exists i, 0 <= i < Z.of_nat n /\ x = PGROUNDUP vstart + PGSIZE * i.
Proof.
  intros Hok Hl Hn Hg. unfold freerange.
  replace (Z.to_nat ((vend - PGROUNDUP vstart) / PGSIZE)) with n.
  2: { unfold PGSIZE in *. rewrite <- (Nat2Z.id n). f_equal.
       apply Z.div_unique with (vend - PGROUNDUP vstart - 4096 * Z.of_nat n); lia. }
  destruct (freerange_loop_ok n _ vend k free Hok Hl Hn Hg) as (k' & E & Hok' & _).
  exists k', (range_pages n (PGROUNDUP vstart) free). split; [done|]. split; [done|].
  intros x. apply elem_of_range_pages.
Qed.

(** ** The theorems at work *)

(** A kernel image that ends at 0x80115000, before [kinit1]. *)
Definition kmem_boot : kernel := boot_kernel 0x80115000 0x80108000 (fun _ => []) 0.
(** The same with one free page. *)
Definition kmem_one : kernel :=
  set_k_freelist 0x80200000 (set_k_mem (kfree_mem kmem_boot 0x80200000) kmem_boot).

Lemma kmem_boot_ok : kmem_ok kmem_boot [].
Proof. split; try done; constructor. Qed.

Lemma kmem_boot_lock : kmem_free_lock kmem_boot.
Proof. apply not_elem_of_nil. Qed.

Lemma kmem_boot_good v :
  v mod PGSIZE = 0 -> 0x80115000 <= v < P2V PHYSTOP -> good_page kmem_boot v.
Proof.
  intros Hm Hv. change (P2V PHYSTOP) with 0x8E000000 in Hv.
  split; [done|]. simpl. repeat split; try lia.
  unfold V2P, KERNBASE, PHYSTOP. rewrite u32_small; lia.
Qed.

Lemma kmem_one_ok : kmem_ok kmem_one [0x80200000].
Proof.
  apply kmem_ok_push; [apply kmem_boot_ok| |apply not_elem_of_nil].
  by apply kmem_boot_good.
Qed.

Lemma kfree_pushes_witness :
  exists k', kfree 0x80400000 kmem_one = Ok tt k' /\ kmem_ok k' [0x80400000; 0x80200000].
Proof.
  destruct (kfree_pushes kmem_one [0x80200000] 0x80400000 kmem_one_ok kmem_boot_lock)
    as (k' & E & H & _).
  - exact (kmem_boot_good 0x80400000 eq_refl ltac:(by split)).
  - rewrite list_elem_of_singleton. discriminate.
  - exists k'. split; [exact E|exact H].
Defined.

Lemma kalloc_pops_witness :
  exists k', kalloc kmem_one = Ok 0x80200000 k' /\ kmem_ok k' [].
Proof.
  destruct (kalloc_pops kmem_one [0x80200000] kmem_one_ok kmem_boot_lock)
    as (r & k' & E & _ & _ & H0 & H1).
  destruct (Z.eq_dec r 0) as [Hr|Hr].
  - apply H0 in Hr. discriminate.
  - destruct (H1 Hr) as (_ & free' & Ef & _ & Hok). injection Ef as <- <-.
    exists k'. split; [exact E|exact Hok].
Defined.

Lemma freerange_frees_witness :
  exists k' free', freerange 0x80115abc 0x80119abc kmem_boot = Ok tt k' /\ kmem_ok k' free' /\
    (0x80116000 ∈ free') /\ (0x80118000 ∈ free') /\ (0x80119000 ∉ free').
Proof.
  destruct (freerange_frees kmem_boot [] 0x80115abc 0x80119abc 3 kmem_boot_ok kmem_boot_lock)
    as (k' & free' & E & Hok & Hin).
  - by split.
  - intros i Hi. split; [|apply not_elem_of_nil]. change (PGROUNDUP 0x80115abc) with 0x80116000.
    apply kmem_boot_good; [|change (P2V PHYSTOP) with 0x8E000000; unfold PGSIZE; lia].
    unfold PGSIZE. replace (0x80116000 + 4096 * i) with ((0x80116 + i) * 4096) by lia.
    apply Z.mod_mul. lia.
  - exists k', free'. split; [exact E|]. split; [exact Hok|].
    split; [apply Hin; right; exists 0; split; [lia|reflexivity]|].
    split; [apply Hin; right; exists 2; split; [lia|reflexivity]|].
    rewrite Hin. intros [H|(i & Hi & E')]; [by apply not_elem_of_nil in H|].
    change (PGROUNDUP 0x80115abc) with 0x80116000 in E'. unfold PGSIZE in E'. lia.
Defined.
