(* ===== verification/Bio.v ===== *)
(** * Bio: the in-memory disk and the buffer cache (memide.c, bio.c)

    [k_bufs] holds the [NBUF] buffers and, at index [HEAD], the list head of
    [bcache]; the LRU list is the [b_next]/[b_prev] pointers, kept as the code
    keeps them.  [lru_list] is the list those pointers form; the theorems show that
    [bread] returns the block's current contents from the cached buffer or from the
    least recently used free one, that [brelse] moves a buffer to the front of the
    list, and that no block is ever cached twice. *)

From S2P Require Import Prelude Bytes Kernel Sync.

(** ** Buffers *)

Definition HEAD : nat := NBUF.

Definition get_buf (i : nat) : KM buf := fun k =>
  match k_bufs k !! i with Some b => Ok b k | None => Fault "buf" end.

Definition upd_buf (i : nat) (f : buf -> buf) : KM unit :=
  modify (fun k => set_k_bufs (alter f i (k_bufs k)) k).

(** ** The disk (memide.c) *)

Definition disk_upd (d : Z -> list Z) (b : Z) (v : list Z) : Z -> list Z :=
  fun x => if x =? b then v else d x.

(** [memmove(p, b->data, BSIZE)] with [p] the block on the disk. *)
Definition disk_write (b : Z) (v : list Z) : KM unit :=
  modify (fun k => set_k_dtrace ((b, v) :: k_dtrace k) (set_k_disk (disk_upd (k_disk k) b v) k)).

Definition iderw (i : nat) : KM unit :=
  let! h := holdingsleep (S_buf i) in
  if negb h then panic "iderw: buf not locked" else
  let! b := get_buf i in
  if Z.land (b_flags b) (Z.lor B_VALID B_DIRTY) =? B_VALID then panic "iderw: nothing to do" else
  if negb (b_dev b =? 1) then panic "iderw: request not for disk 1" else
  let! k := get in
  if k_disksize k <=? b_blockno b then panic "iderw: block out of range" else
  (if has (b_flags b) B_DIRTY then
     upd_buf i (fun b => set_b_flags (Z.ldiff (b_flags b) B_DIRTY) b) ;;;
     disk_write (b_blockno b) (b_data b)
   else upd_buf i (set_b_data (k_disk k (b_blockno b)))) ;;;
  upd_buf i (fun b => set_b_flags (Z.lor (b_flags b) B_VALID) b).

(** ** The buffer cache (bio.c) *)

Definition binit_step (i : nat) : KM unit :=
  let! h := get_buf HEAD in
  upd_buf i (set_b_next (b_next h)) ;;;
  upd_buf i (set_b_prev HEAD) ;;;
  upd_buf i (set_b_lock initsleeplock) ;;;
  let! h := get_buf HEAD in
  upd_buf (b_next h) (set_b_prev i) ;;;
  upd_buf HEAD (set_b_next i).

Fixpoint binit_loop (l : list nat) : KM unit :=
  match l with
  | [] => ret tt
  | i :: l' => binit_step i ;;; binit_loop l'
  end.

Definition binit : KM unit :=
  upd_buf HEAD (set_b_prev HEAD) ;;;
  upd_buf HEAD (set_b_next HEAD) ;;;
  binit_loop (seq 0 NBUF).

(** The two scans of [bget]; [fuel] bounds the length of the list. *)
Fixpoint bget_cached (fuel : nat) (i : nat) (dev blockno : Z) : KM (option nat) :=
  match fuel with
  | O => spin
  | S fuel' =>
      if Nat.eqb i HEAD then ret None else
      let! b := get_buf i in
      if (b_dev b =? dev) && (b_blockno b =? blockno) then ret (Some i)
      else bget_cached fuel' (b_next b) dev blockno
  end.

Fixpoint bget_unused (fuel : nat) (i : nat) : KM (option nat) :=
  match fuel with
  | O => spin
  | S fuel' =>
      if Nat.eqb i HEAD then ret None else
      let! b := get_buf i in
      if (b_refcnt b =? 0) && negb (has (b_flags b) B_DIRTY) then ret (Some i)
      else bget_unused fuel' (b_prev b)
  end.

Definition bget (dev blockno : Z) : KM nat :=
  acquire L_bcache ;;;
  let! h := get_buf HEAD in
  let! c := bget_cached (S NBUF) (b_next h) dev blockno in
  match c with
  | Some i =>
      upd_buf i (fun b => set_b_refcnt (u32 (b_refcnt b + 1)) b) ;;;
      release L_bcache ;;;
      acquiresleep (S_buf i) ;;;
      ret i
  | None =>
      let! u := bget_unused (S NBUF) (b_prev h) in
      match u with
      | Some i =>
          upd_buf i (set_b_dev dev) ;;;
          upd_buf i (set_b_blockno blockno) ;;;
          upd_buf i (set_b_flags 0) ;;;
          upd_buf i (set_b_refcnt 1) ;;;
          release L_bcache ;;;
          acquiresleep (S_buf i) ;;;
          ret i
      | None => panic "bget: no buffers"
      end
  end.

Definition bread (dev blockno : Z) : KM nat :=
  let! i := bget dev blockno in
  let! b := get_buf i in
  when (negb (has (b_flags b) B_VALID)) (iderw i) ;;;
  ret i.

Definition bwrite (i : nat) : KM unit :=
  let! h := holdingsleep (S_buf i) in
  if negb h then panic "bwrite" else
  upd_buf i (fun b => set_b_flags (Z.lor (b_flags b) B_DIRTY) b) ;;;
  iderw i.

Definition brelse (i : nat) : KM unit :=
  let! h := holdingsleep (S_buf i) in
  if negb h then panic "brelse" else
  releasesleep (S_buf i) ;;;
  acquire L_bcache ;;;
  upd_buf i (fun b => set_b_refcnt (u32 (b_refcnt b - 1)) b) ;;;
  let! b := get_buf i in
  (if b_refcnt b =? 0 then
     upd_buf (b_next b) (set_b_prev (b_prev b)) ;;;
     let! b := get_buf i in
     upd_buf (b_prev b) (set_b_next (b_next b)) ;;;
     let! h := get_buf HEAD in
     upd_buf i (set_b_next (b_next h)) ;;;
     upd_buf i (set_b_prev HEAD) ;;;
     let! h := get_buf HEAD in
     upd_buf (b_next h) (set_b_prev i) ;;;
     upd_buf HEAD (set_b_next i)
   else ret tt) ;;;
  release L_bcache.

(** ** The LRU list the pointers form *)

(** Following [f] from [a] visits [l] and then reaches [b]. *)
Fixpoint path (f : nat -> nat) (a : nat) (l : list nat) (b : nat) : Prop :=
  match l with
  | [] => f a = b
  | x :: l' => f a = x /\ path f x l' b
  end.

Definition upd (f : nat -> nat) (x v : nat) : nat -> nat :=
  fun y => if decide (y = x) then v else f y.

Lemma path_app f a l1 x l2 b :
  path f a (l1 ++ x :: l2) b <-> path f a l1 x /\ path f x l2 b.
Proof. revert a. induction l1 as [|y l1 IH]; intros a; simpl; [done|]. rewrite IH. tauto. Qed.

Lemma path_agree f g a l b :
  (forall y, y ∈ a :: l -> f y = g y) -> path f a l b -> path g a l b.
Proof.
  revert a. induction l as [|y l IH]; intros a H; simpl.
  - rewrite H by set_solver. done.
  - intros [? ?]. rewrite <- H by set_solver. split; [done|]. apply IH; [|done].
    intros. apply H. set_solver.
Qed.

Lemma path_upd_ne f a l b x v : x ∉ a :: l -> path f a l b -> path (upd f x v) a l b.
Proof.
  intros Hx. apply path_agree. intros y Hy. unfold upd. rewrite decide_False; [done|].
  by intros ->.
Qed.

Fixpoint last_node (a : nat) (l : list nat) : nat :=
  match l with [] => a | x :: l' => last_node x l' end.

Lemma elem_of_last_node a l : last_node a l ∈ a :: l.
Proof. revert a. induction l as [|x l IH]; intros a; simpl; set_solver. Qed.

(** Redirecting the last node of a path changes where the path ends. *)
Lemma path_upd_last f a l b c :
  NoDup (a :: l) -> path f a l b -> path (upd f (last_node a l) c) a l c.
Proof.
  revert a. induction l as [|y l IH]; intros a Hd; cbn [path last_node].
  - intros _. unfold upd. by rewrite decide_True.
  - intros [Hy Hp]. apply NoDup_cons in Hd as [Ha Hd]. split.
    + unfold upd. rewrite decide_False; [done|]. intros ->.
      apply Ha, elem_of_last_node.
    + by apply IH.
Qed.

Lemma last_node_snoc a l x : last_node a (l ++ [x]) = x.
Proof. revert a. induction l; intros; simpl; auto. Qed.

Lemma hd_reverse a l : List.hd a (reverse l) = last_node a l.
Proof.
  destruct l as [|x l _] using rev_ind; [done|].
  by rewrite reverse_app, last_node_snoc.
Qed.

(** The node a path goes to first, and, going back, the node before its end. *)
Lemma path_first f a l b : path f a l b -> f a = List.hd b l.
Proof. destruct l; simpl; tauto. Qed.

(** Replacing the first node of a path. *)
Lemma path_start f g a a' l b :
  g a' = f a -> (forall y, y ∈ l -> g y = f y) -> path f a l b -> path g a' l b.
Proof.
  destruct l as [|x l]; simpl; intros Ha Hl.
  - congruence.
  - intros [Hx Hp]. split; [congruence|]. eapply path_agree; [|exact Hp].
    intros. symmetry. apply Hl. done.
Qed.

Definition nxf (bufs : list buf) (i : nat) : nat :=
  match bufs !! i with Some b => b_next b | None => i end.
Definition pvf (bufs : list buf) (i : nat) : nat :=
  match bufs !! i with Some b => b_prev b | None => i end.

(** [l] is the list from the most to the least recently used buffer. *)
Definition lru_list (bufs : list buf) (l : list nat) : Prop :=
  path (nxf bufs) HEAD l HEAD /\ path (pvf bufs) HEAD (reverse l) HEAD.

(** The pointer updates of [brelse], in the order it makes them. *)
Definition move_front (bufs : list buf) (i : nat) : list buf :=
  let bufs := alter (set_b_prev (pvf bufs i)) (nxf bufs i) bufs in
  let bufs := alter (set_b_next (nxf bufs i)) (pvf bufs i) bufs in
  let bufs := alter (set_b_next (nxf bufs HEAD)) i bufs in
  let bufs := alter (set_b_prev HEAD) i bufs in
  let bufs := alter (set_b_prev i) (nxf bufs HEAD) bufs in
  alter (set_b_next i) HEAD bufs.

Lemma nxf_set_next bufs x v y :
  (x < length bufs)%nat -> nxf (alter (set_b_next v) x bufs) y = upd (nxf bufs) x v y.
Proof.
  intros Hx. unfold nxf, upd. case_decide as E.
  - subst. rewrite list_lookup_alter_eq. destruct (lookup_lt_is_Some_2 bufs x Hx) as [b ->]. done.
  - by rewrite list_lookup_alter_ne by done.
Qed.

Lemma pvf_set_prev bufs x v y :
  (x < length bufs)%nat -> pvf (alter (set_b_prev v) x bufs) y = upd (pvf bufs) x v y.
Proof.
  intros Hx. unfold pvf, upd. case_decide as E.
  - subst. rewrite list_lookup_alter_eq. destruct (lookup_lt_is_Some_2 bufs x Hx) as [b ->]. done.
  - by rewrite list_lookup_alter_ne by done.
Qed.

Lemma nxf_alter bufs x g y :
  (forall b, b_next (g b) = b_next b) -> nxf (alter g x bufs) y = nxf bufs y.
Proof.
  intros Hg. unfold nxf. destruct (decide (y = x)) as [->|].
  - rewrite list_lookup_alter_eq. destruct (bufs !! x); simpl; auto.
  - by rewrite list_lookup_alter_ne by done.
Qed.

Lemma pvf_alter bufs x g y :
  (forall b, b_prev (g b) = b_prev b) -> pvf (alter g x bufs) y = pvf bufs y.
Proof.
  intros Hg. unfold pvf. destruct (decide (y = x)) as [->|].
  - rewrite list_lookup_alter_eq. destruct (bufs !! x); simpl; auto.
  - by rewrite list_lookup_alter_ne by done.
Qed.

Lemma lru_list_alter bufs x g l :
  (forall b, b_next (g b) = b_next b /\ b_prev (g b) = b_prev b) ->
  lru_list bufs l -> lru_list (alter g x bufs) l.
Proof.
  intros Hg [H1 H2]. split.
  - eapply path_agree; [|exact H1]. intros. symmetry. apply nxf_alter, Hg.
  - eapply path_agree; [|exact H2]. intros. symmetry. apply pvf_alter, Hg.
Qed.

Lemma NoDup_reverse' (l : list nat) : NoDup l -> NoDup (reverse l).
Proof. by rewrite reverse_Permutation. Qed.

Section Move.
Variables (bufs : list buf) (l1 l2 : list nat) (i : nat).
Hypothesis Hlru : lru_list bufs (l1 ++ i :: l2).
Hypothesis Hnd : NoDup (HEAD :: l1 ++ i :: l2).
Hypothesis Hin : forall j, j ∈ HEAD :: l1 ++ i :: l2 -> (j < length bufs)%nat.

Let n := List.hd HEAD l2.
Let p := last_node HEAD l1.

Lemma move_next : nxf bufs i = n.
Proof. destruct Hlru as [H _]. apply path_app in H as [_ H]. by apply path_first in H. Qed.

Lemma last_node_reverse : List.hd HEAD (reverse l1) = p.
Proof. apply hd_reverse. Qed.

Lemma move_prev : pvf bufs i = p.
Proof.
  destruct Hlru as [_ H]. rewrite reverse_app, reverse_cons, <- app_assoc in H.
  apply path_app in H as [_ H]. apply path_first in H. by rewrite last_node_reverse in H.
Qed.

Lemma p_in : p ∈ HEAD :: l1.
Proof. apply elem_of_last_node. Qed.

Lemma n_in : n ∈ HEAD :: l2.
Proof. unfold n. destruct l2; set_solver. Qed.

Lemma nd_parts :
  NoDup (HEAD :: l1) /\ NoDup (HEAD :: l2) /\ (i ∉ l1) /\ (i ∉ l2) /\ i <> HEAD /\
  (forall x, x ∈ l1 -> x ∈ l2 -> False).
Proof.
  pose proof Hnd as Hnd'. apply NoDup_cons in Hnd' as [Hh Hnd']. apply NoDup_app in Hnd' as (H1 & H2 & H3).
  apply NoDup_cons in H3 as [Hi H3]. repeat split.
  - apply NoDup_cons. set_solver.
  - apply NoDup_cons. set_solver.
  - intros ?. apply (H2 i); set_solver.
  - done.
  - set_solver.
  - intros x Hx ?. apply (H2 x Hx). set_solver.
Qed.

(** The forward and backward pointers after the node is unlinked. *)
Lemma unlink_forward : path (upd (nxf bufs) p n) HEAD (l1 ++ l2) HEAD.
Proof.
  destruct nd_parts as (Hn1 & Hn2 & Hi1 & Hi2 & HiH & Hdis).
  destruct Hlru as [H _]. apply path_app in H as [Ha Hb].
  pose proof (path_upd_last _ _ _ _ n Hn1 Ha) as Hc. fold p in Hc.
  unfold n in *. destruct l2 as [|x l2']; simpl in *.
  - by rewrite app_nil_r.
  - apply path_app. split; [done|]. apply path_upd_ne; [|by destruct Hb].
    pose proof p_in as Hp. apply elem_of_cons in Hp as [->|Hp].
    + apply NoDup_cons in Hn2. set_solver.
    + intros ?. eapply Hdis; [exact Hp|set_solver].
Qed.

Lemma unlink_backward : path (upd (pvf bufs) n p) HEAD (reverse (l1 ++ l2)) HEAD.
Proof.
  destruct nd_parts as (Hn1 & Hn2 & Hi1 & Hi2 & HiH & Hdis).
  destruct Hlru as [_ H]. rewrite reverse_app, reverse_cons, <- app_assoc in H.
  apply path_app in H as [Ha Hb]. rewrite reverse_app.
  assert (NoDup (HEAD :: reverse l2)) as Hn2'.
  { apply NoDup_cons in Hn2. apply NoDup_cons. rewrite elem_of_reverse.
    split; [tauto|]. apply NoDup_reverse'. tauto. }
  pose proof (path_upd_last _ _ _ _ p Hn2' Ha) as Hc.
  assert (last_node HEAD (reverse l2) = n) as En.
  { unfold n. destruct l2; [done|]. by rewrite reverse_cons, last_node_snoc. }
  rewrite En in Hc. pose proof last_node_reverse as Ep.
  destruct (reverse l1) as [|x l1'] eqn:E1; simpl in Ep.
  - rewrite app_nil_r. by rewrite <- Ep in Hc |- *.
  - subst x. apply path_app. split; [done|]. apply path_upd_ne; [|by destruct Hb].
    assert (forall y, y ∈ p :: l1' -> y ∈ l1) as Hsub.
    { intros y. rewrite <- E1. by rewrite elem_of_reverse. }
    intros Hc'. apply Hsub in Hc'. pose proof n_in as Hni.
    apply elem_of_cons in Hni as [Hni|Hni].
    + rewrite Hni in Hc'. apply NoDup_cons in Hn1. tauto.
    + by eapply Hdis.
Qed.

Let h := List.hd HEAD (l1 ++ l2).

Lemma first_in : h ∈ HEAD :: l1 ++ l2.
Proof. unfold h. destruct (l1 ++ l2); set_solver. Qed.

Lemma move_in_range :
  (HEAD < length bufs /\ i < length bufs /\ p < length bufs /\ n < length bufs /\
   h < length bufs)%nat.
Proof.
  pose proof p_in as Hp. pose proof n_in as Hn. pose proof first_in as Hh.
  repeat split; apply Hin; clear -Hp Hn Hh; set_solver.
Qed.

Lemma pn_ne : p <> i /\ n <> i /\ h <> i.
Proof.
  destruct nd_parts as (_ & _ & Hi1 & Hi2 & HiH & _).
  pose proof p_in. pose proof n_in. pose proof first_in. set_solver.
Qed.

(** The buffers after the node is unlinked, before it is put at the front. *)
Let unlinked := alter (set_b_next n) p (alter (set_b_prev p) n bufs).

Lemma move_front_unlinked :
  move_front bufs i =
  alter (set_b_next i) HEAD (alter (set_b_prev i) h
    (alter (set_b_prev HEAD) i (alter (set_b_next h) i unlinked))).
Proof.
  destruct move_in_range as (HlH & Hli & Hlp & Hln & Hlh). destruct pn_ne as (Hpi & Hni & Hhi).
  destruct nd_parts as (_ & _ & _ & _ & HiH & _).
  unfold move_front. rewrite move_next, move_prev.
  assert (nxf (alter (set_b_prev p) n bufs) i = n) as ->
    by (rewrite nxf_alter by done; apply move_next).
  assert (pvf (alter (set_b_prev p) n bufs) i = p) as ->.
  { rewrite pvf_set_prev by done. unfold upd. rewrite decide_False by done. apply move_prev. }
  fold unlinked. assert (nxf unlinked HEAD = h) as E.
  { transitivity (upd (nxf bufs) p n HEAD); [|exact (path_first _ _ _ _ unlink_forward)].
    unfold unlinked. rewrite nxf_set_next by (by rewrite length_alter).
    unfold upd. case_decide; [done|]. by rewrite nxf_alter. }
  rewrite E. f_equal. f_equal. rewrite nxf_alter by done.
  rewrite nxf_set_next by (unfold unlinked; by rewrite !length_alter).
  unfold upd. by rewrite decide_False.
Qed.

Lemma move_front_nxf y :
  nxf (move_front bufs i) y = upd (upd (upd (nxf bufs) p n) i h) HEAD i y.
Proof.
  destruct move_in_range as (HlH & Hli & Hlp & Hln & Hlh).
  rewrite move_front_unlinked. unfold unlinked.
  rewrite nxf_set_next by (by rewrite !length_alter). unfold upd at 1 2. case_decide; [done|].
  rewrite (nxf_alter _ _ (set_b_prev i)), (nxf_alter _ _ (set_b_prev HEAD)) by done.
  rewrite nxf_set_next by (by rewrite !length_alter). unfold upd at 1 2. case_decide; [done|].
  rewrite nxf_set_next by (by rewrite !length_alter). unfold upd. case_decide; [done|].
  by rewrite nxf_alter.
Qed.

Lemma move_front_pvf y :
  pvf (move_front bufs i) y = upd (upd (upd (pvf bufs) n p) i HEAD) h i y.
Proof.
  destruct move_in_range as (HlH & Hli & Hlp & Hln & Hlh).
  rewrite move_front_unlinked. unfold unlinked.
  rewrite (pvf_alter _ _ (set_b_next i)) by done.
  rewrite pvf_set_prev by (by rewrite !length_alter). unfold upd at 1 2. case_decide; [done|].
  rewrite pvf_set_prev by (by rewrite !length_alter). unfold upd at 1 2. case_decide; [done|].
  rewrite (pvf_alter _ _ (set_b_next h)), (pvf_alter _ _ (set_b_next n)) by done.
  by apply pvf_set_prev.
Qed.

Lemma move_front_lru : lru_list (move_front bufs i) (i :: l1 ++ l2).
Proof.
  destruct nd_parts as (Hn1 & Hn2 & Hi1 & Hi2 & HiH & Hdis).
  destruct pn_ne as (Hpi & Hni & Hhi).
  apply NoDup_cons in Hn1 as [HH1 Hn1], Hn2 as [HH2 Hn2].
  split.
  - eapply path_agree; [intros; symmetry; apply move_front_nxf|]. split.
    { unfold upd at 1. by rewrite decide_True. }
    eapply path_start; [| |exact unlink_forward].
    + rewrite (path_first _ _ _ _ unlink_forward). fold h.
      unfold upd at 1. rewrite decide_False by done. unfold upd. by rewrite decide_True.
    + intros y Hy. unfold upd at 1. rewrite decide_False by (clear -Hy HH1 HH2; set_solver).
      unfold upd at 1. rewrite decide_False; [done|]. clear -Hy Hi1 Hi2; set_solver.
  - eapply path_agree; [intros; symmetry; apply move_front_pvf|]. rewrite reverse_cons.
    assert (NoDup (HEAD :: reverse (l1 ++ l2))) as Hnr.
    { apply NoDup_cons. rewrite elem_of_reverse. split; [clear -HH1 HH2; set_solver|].
      apply NoDup_reverse', NoDup_app. naive_solver. }
    assert (last_node HEAD (reverse (l1 ++ l2)) = h) as El.
    { unfold h. destruct (l1 ++ l2); [done|]. by rewrite reverse_cons, last_node_snoc. }
    apply path_app. split.
    + rewrite <- El. apply path_upd_last with HEAD; [done|].
      apply path_upd_ne; [|apply unlink_backward].
      rewrite elem_of_cons, elem_of_reverse. clear -Hi1 Hi2 HiH; set_solver.
    + simpl. unfold upd at 1. rewrite decide_False by done. unfold upd. by rewrite decide_True.
Qed.

End Move.

(** ** The scans of the list *)

Definition is_block (bufs : list buf) (dev blockno : Z) (i : nat) : bool :=
  match bufs !! i with
  | Some b => (b_dev b =? dev) && (b_blockno b =? blockno)
  | None => false
  end.

Definition is_unused (bufs : list buf) (i : nat) : bool :=
  match bufs !! i with
  | Some b => (b_refcnt b =? 0) && negb (has (b_flags b) B_DIRTY)
  | None => false
  end.

Lemma get_buf_ok k i b : k_bufs k !! i = Some b -> get_buf i k = Ok b k.
Proof. unfold get_buf. by intros ->. Qed.

Lemma bget_cached_ok l : forall fuel a dev blockno k,
  path (nxf (k_bufs k)) a l HEAD -> (length l < fuel)%nat ->
  (forall x, x ∈ l -> x < HEAD)%nat -> length (k_bufs k) = S NBUF ->
  bget_cached fuel (nxf (k_bufs k) a) dev blockno k =
  Ok (List.find (is_block (k_bufs k) dev blockno) l) k.
Proof.
  induction l as [|x l IH]; intros fuel a dev blockno k Hp Hf Hr Hlen;
    destruct fuel as [|fuel]; simpl in Hf; try lia; cbn [bget_cached path] in *.
  - by rewrite Hp.
  - destruct Hp as [-> Hp]. assert (x < HEAD)%nat by (apply Hr; set_solver).
    rewrite (proj2 (Nat.eqb_neq _ _)) by lia.
    destruct (lookup_lt_is_Some_2 (k_bufs k) x) as [b Hb]; [unfold HEAD in *; lia|].
    erewrite bind_ok by (by apply get_buf_ok). cbn [List.find]. unfold is_block at 1. rewrite Hb.
    destruct ((b_dev b =? dev) && (b_blockno b =? blockno)); [done|].
    replace (b_next b) with (nxf (k_bufs k) x) by (unfold nxf; by rewrite Hb).
    apply IH; auto with lia. intros; apply Hr; set_solver.
Qed.

Lemma bget_unused_ok l : forall fuel a k,
  path (pvf (k_bufs k)) a l HEAD -> (length l < fuel)%nat ->
  (forall x, x ∈ l -> x < HEAD)%nat -> length (k_bufs k) = S NBUF ->
  bget_unused fuel (pvf (k_bufs k) a) k = Ok (List.find (is_unused (k_bufs k)) l) k.
Proof.
  induction l as [|x l IH]; intros fuel a k Hp Hf Hr Hlen;
    destruct fuel as [|fuel]; simpl in Hf; try lia; cbn [bget_unused path] in *.
  - by rewrite Hp.
  - destruct Hp as [-> Hp]. assert (x < HEAD)%nat by (apply Hr; set_solver).
    rewrite (proj2 (Nat.eqb_neq _ _)) by lia.
    destruct (lookup_lt_is_Some_2 (k_bufs k) x) as [b Hb]; [unfold HEAD in *; lia|].
    erewrite bind_ok by (by apply get_buf_ok). cbn [List.find]. unfold is_unused at 1. rewrite Hb.
    destruct ((b_refcnt b =? 0) && negb (has (b_flags b) B_DIRTY)); [done|].
    replace (b_prev b) with (pvf (k_bufs k) x) by (unfold pvf; by rewrite Hb).
    apply IH; auto with lia. intros; apply Hr; set_solver.
Qed.

(** ** The invariant *)

(** The flags a buffer has between the cache's operations: new, clean, or logged. *)
Definition flags_ok (f : Z) : Prop := f = 0 \/ f = B_VALID \/ f = Z.lor B_VALID B_DIRTY.

Record buf_ok (k : kernel) (b : buf) : Prop := {
  bo_flags : flags_ok (b_flags b);
  bo_data : length (b_data b) = Z.to_nat BSIZE;
  bo_ref : 0 <= b_refcnt b < 2 ^ 32 - 1;
  bo_locked : sl_locked (b_lock b) = true -> 0 < b_refcnt b;
  bo_clean : b_dev b = ROOTDEV -> b_flags b = B_VALID -> sl_locked (b_lock b) = false ->
             b_data b = k_disk k (b_blockno b);
  bo_dirty : b_flags b = Z.lor B_VALID B_DIRTY -> b_dev b = ROOTDEV;
  bo_range : b_dev b = ROOTDEV -> 0 <= b_blockno b < k_disksize k
}.

(** [bcache]: the list holds every buffer once, every buffer is sound, and no block
    of the disk is in two buffers. *)
Record bcache_ok (k : kernel) (lru : list nat) : Prop := {
  bc_len : length (k_bufs k) = S NBUF;
  bc_lru : lru_list (k_bufs k) lru;
  bc_nodup : NoDup lru;
  bc_all : forall i, i ∈ lru <-> (i < NBUF)%nat;
  bc_buf : forall i b, (i < NBUF)%nat -> k_bufs k !! i = Some b -> buf_ok k b;
  bc_uniq : forall i j bi bj, (i < NBUF)%nat -> (j < NBUF)%nat ->
    k_bufs k !! i = Some bi -> k_bufs k !! j = Some bj ->
    b_dev bi = ROOTDEV -> b_dev bj = ROOTDEV -> b_blockno bi = b_blockno bj -> i = j;
  bc_disk : forall b, length (k_disk k b) = Z.to_nat BSIZE
}.

(** Buffer [i] holds block [b] of the disk. *)
Definition holds_block (k : kernel) (i : nat) (x : buf) (b : Z) : Prop :=
  (i < NBUF)%nat /\ k_bufs k !! i = Some x /\ b_dev x = ROOTDEV /\ b_blockno x = b.

(** The current contents of block [b]: what the cache holds if it holds the block,
    and otherwise what is on the disk. *)
Definition block_val (k : kernel) (b : Z) : list Z :=
  match list_find (fun x => b_dev x = ROOTDEV /\ b_blockno x = b /\ has (b_flags x) B_VALID = true)
          (take NBUF (k_bufs k)) with
  | Some (_, x) => b_data x
  | None => k_disk k b
  end.

Lemma block_val_cached k lru i x b :
  bcache_ok k lru -> holds_block k i x b -> has (b_flags x) B_VALID = true ->
  block_val k b = b_data x.
Proof.
  intros Hok (Hi & Hx & Hd & Hb) Hv. unfold block_val.
  destruct (list_find _ _) as [[j y]|] eqn:E.
  - apply list_find_Some in E as (Hy & (Hyd & Hyb & Hyv) & _).
    apply lookup_take_Some in Hy as [Hy Hj].
    assert (j = i) as -> by (eapply (bc_uniq _ _ Hok j i y x); eauto; congruence). congruence.
  - exfalso. apply list_find_None in E. rewrite Forall_forall in E. apply (E x); [|done].
    apply list_elem_of_lookup. exists i. by rewrite lookup_take_lt.
Qed.

Lemma block_val_uncached k b :
  (forall i x, holds_block k i x b -> has (b_flags x) B_VALID = false) ->
  block_val k b = k_disk k b.
Proof.
  intros H. unfold block_val. destruct (list_find _ _) as [[j y]|] eqn:E; [|done].
  apply list_find_Some in E as (Hy & (Hyd & Hyb & Hyv) & _).
  apply lookup_take_Some in Hy as [Hy Hj].
  by rewrite (H j y) in Hyv.
Qed.

Lemma is_block_spec k lru b :
  bcache_ok k lru ->
  match List.find (is_block (k_bufs k) ROOTDEV b) lru with
  | Some i => exists x, holds_block k i x b
  | None => forall i x, ~ holds_block k i x b
  end.
Proof.
  intros Hok. destruct (List.find _ _) as [i|] eqn:E.
  - apply List.find_some in E as [Hi Hb]. apply list_elem_of_In in Hi.
    apply (bc_all _ _ Hok) in Hi. unfold is_block in Hb.
    destruct (k_bufs k !! i) as [x|] eqn:Ex; [|done]. zify_bool. by exists x.
  - intros i x (Hi & Hx & Hd & Hb). apply (bc_all _ _ Hok), list_elem_of_In in Hi.
    pose proof (List.find_none _ _ E i Hi) as Hn. unfold is_block in Hn.
    rewrite Hx, Hd, Hb, !Z.eqb_refl in Hn. done.
Qed.

(** What buffer [x] says about block [b]. *)
Definition caches (x : buf) (b : Z) : bool :=
  (b_dev x =? ROOTDEV) && (b_blockno x =? b) && has (b_flags x) B_VALID.

Lemma caches_holds k i x b :
  (i < NBUF)%nat -> k_bufs k !! i = Some x -> caches x b = true ->
  holds_block k i x b /\ has (b_flags x) B_VALID = true.
Proof. unfold caches. intros. zify_bool. by repeat split. Qed.

Lemma holds_caches k i x b :
  holds_block k i x b -> has (b_flags x) B_VALID = true -> caches x b = true.
Proof. intros (_ & _ & Hd & Hb) Hv. unfold caches. by rewrite Hd, Hb, Hv, !Z.eqb_refl. Qed.

Lemma cached_dec k b :
  (exists i x, holds_block k i x b /\ has (b_flags x) B_VALID = true) \/
  (forall i x, holds_block k i x b -> has (b_flags x) B_VALID = false).
Proof.
  destruct (list_find (fun x => caches x b = true) (take NBUF (k_bufs k))) as [[j y]|] eqn:E.
  - left. apply list_find_Some in E as (Hy & Hc & _). apply lookup_take_Some in Hy as [Hy Hj].
    exists j, y. by apply caches_holds.
  - right. intros i x H. destruct (has _ _) eqn:Ev; [|done]. exfalso.
    apply list_find_None in E. rewrite Forall_forall in E. apply (E x); [|by eapply holds_caches].
    destruct H as (Hi & Hx & _). apply list_elem_of_lookup. exists i. by rewrite lookup_take_lt.
Qed.

(** Replacing buffer [i] only changes the blocks the old and the new buffer cache. *)
Lemma block_val_insert k lru i x0 x b :
  bcache_ok k lru -> bcache_ok (set_k_bufs (<[i:=x]> (k_bufs k)) k) lru ->
  (i < NBUF)%nat -> k_bufs k !! i = Some x0 ->
  block_val (set_k_bufs (<[i:=x]> (k_bufs k)) k) b =
  if caches x b then b_data x else if caches x0 b then k_disk k b else block_val k b.
Proof.
  intros Hok Hok' Hi H0. set (k' := set_k_bufs (<[i:=x]> (k_bufs k)) k) in *.
  assert (Hx : k_bufs k' !! i = Some x).
  { simpl. apply list_lookup_insert_eq. rewrite (bc_len _ _ Hok). unfold NBUF in *; lia. }
  assert (Hne : forall j y b, j <> i -> holds_block k' j y b <-> holds_block k j y b).
  { intros j y b' Hj. unfold holds_block. simpl. by rewrite list_lookup_insert_ne. }
  destruct (caches x b) eqn:Ex.
  { destruct (caches_holds k' i x b Hi Hx Ex). by apply (block_val_cached k' lru i x b Hok'). }
  destruct (caches x0 b) eqn:E0.
  - apply caches_holds with (k := k) (i := i) in E0 as [E0 _]; [|done..].
    apply (block_val_uncached k'). intros j y Hy. destruct (decide (j = i)) as [->|Hj].
    + destruct (has _ _) eqn:Ev; [|done]. pose proof (holds_caches _ _ _ _ Hy Ev).
      destruct Hy as (_ & Hy & _). congruence.
    + exfalso. apply Hj. apply Hne in Hy; [|done]. destruct Hy as (? & ? & ? & ?), E0 as (? & ? & ? & ?).
      eapply (bc_uniq _ _ Hok j i); eauto. congruence.
  - destruct (cached_dec k b) as [(j & y & Hy & Hv)|Hn].
    + rewrite (block_val_cached k lru j y b) by done.
      apply (block_val_cached k' lru j y b Hok'); [|done]. apply Hne; [|done].
      intros ->. pose proof (holds_caches _ _ _ _ Hy Hv). destruct Hy as (_ & Hy & _). congruence.
    + rewrite (block_val_uncached k) by done. apply (block_val_uncached k').
      intros j y Hy. destruct (decide (j = i)) as [->|Hj].
      * destruct (has _ _) eqn:Ev; [|done]. pose proof (holds_caches _ _ _ _ Hy Ev).
        destruct Hy as (_ & Hy & _). congruence.
      * eapply Hn. by apply Hne.
Qed.

(** Replacing a buffer keeps the invariant when the new one is sound, keeps its
    place in the list, and holds a block no other buffer holds. *)
Lemma bcache_ok_insert k lru i x0 x :
  bcache_ok k lru -> (i < NBUF)%nat -> k_bufs k !! i = Some x0 ->
  b_next x = b_next x0 -> b_prev x = b_prev x0 -> buf_ok k x ->
  (b_dev x = ROOTDEV -> forall j y, j <> i -> ~ holds_block k j y (b_blockno x)) ->
  bcache_ok (set_k_bufs (<[i:=x]> (k_bufs k)) k) lru.
Proof.
  intros Hok Hi H0 Hn Hp Hx Hu. destruct Hok as [Hlen [Hl1 Hl2] Hnd Hall Hbuf Huniq Hdisk].
  assert (Hlk : forall j, <[i:=x]> (k_bufs k) !! j = if decide (j = i) then Some x else k_bufs k !! j).
  { intros j. case_decide as E; [subst; apply list_lookup_insert_eq; unfold NBUF in *; lia|].
    by apply list_lookup_insert_ne. }
  split; simpl; try done.
  - by rewrite length_insert.
  - split; (eapply path_agree; [|done]); intros y _; unfold nxf, pvf; rewrite Hlk;
      case_decide; subst; rewrite ?H0; congruence.
  - intros j b Hj Hb. rewrite Hlk in Hb. case_decide; simplify_eq; [by destruct Hx|].
    destruct (Hbuf j b Hj Hb). by split.
  - intros j j' bj bj' Hj Hj' Hb Hb' Hd Hd' Hbn. rewrite Hlk in Hb, Hb'.
    repeat case_decide; simplify_eq; auto.
    + exfalso. apply (Hu Hd' j bj); [done|]. by repeat split.
    + exfalso. apply (Hu Hd j' bj'); [done|]. by repeat split.
    + by eapply Huniq.
Qed.

(** ** What the operations compute *)

Lemma alter_as_insert {A} (f : A -> A) (i : nat) (l : list A) x :
  l !! i = Some x -> alter f i l = <[i := f x]> l.
Proof.
  intros Hx. apply list_eq. intros j. destruct (decide (i = j)) as [->|].
  - rewrite list_lookup_alter_eq, Hx. rewrite list_lookup_insert_eq; [done|].
    by eapply lookup_lt_Some.
  - by rewrite list_lookup_alter_ne, list_lookup_insert_ne.
Qed.

Definition put_buf (i : nat) (x : buf) (k : kernel) : kernel :=
  set_k_bufs (<[i := x]> (k_bufs k)) k.

Lemma put_buf_put i x y k : put_buf i x (put_buf i y k) = put_buf i x k.
Proof. unfold put_buf. simpl. by rewrite list_insert_insert_eq. Qed.

Lemma put_buf_held i x h k : set_k_held h (put_buf i x k) = put_buf i x (set_k_held h k).
Proof. done. Qed.

Lemma lookup_put_buf i x k : (i < length (k_bufs k))%nat -> k_bufs (put_buf i x k) !! i = Some x.
Proof. apply list_lookup_insert_eq. Qed.

Lemma lookup_put_buf_ne i j x k : j <> i -> k_bufs (put_buf i x k) !! j = k_bufs k !! j.
Proof. intros. by apply list_lookup_insert_ne. Qed.

Lemma upd_buf_ok k i x f :
  k_bufs k !! i = Some x -> upd_buf i f k = Ok tt (put_buf i (f x) k).
Proof. intros H. unfold upd_buf, modify, put_buf. by rewrite (alter_as_insert f i _ x). Qed.

Lemma running_put_buf k c pid i x : running k c pid -> running (put_buf i x k) c pid.
Proof. done. Qed.

Lemma sl_set_buf k i x v :
  k_bufs k !! i = Some x -> sl_set (S_buf i) v k = put_buf i (set_b_lock v x) k.
Proof. intros H. unfold sl_set, put_buf. by rewrite (alter_as_insert _ i _ x). Qed.

Section Ops.
Variables (k : kernel) (c : nat) (pid : Z) (i : nat) (x : buf).
Hypothesis Hrun : running k c pid.
Hypothesis Hx : k_bufs k !! i = Some x.

Lemma buf_in_range : (i < length (k_bufs k))%nat.
Proof. by eapply lookup_lt_Some. Qed.

Lemma acquiresleep_buf :
  sl_locked (b_lock x) = false ->
  acquiresleep (S_buf i) k = Ok tt (put_buf i (set_b_lock (mk_sleeplock true pid) x) k).
Proof.
  intros Hl. erewrite acquiresleep_ok; [|done|simpl; by rewrite Hx|done].
  by rewrite (sl_set_buf _ _ x).
Qed.

Lemma holdingsleep_buf :
  b_lock x = mk_sleeplock true pid -> holdingsleep (S_buf i) k = Ok true k.
Proof.
  intros Hl. erewrite holdingsleep_ok; [|done|simpl; by rewrite Hx].
  rewrite Hl. simpl. by rewrite Z.eqb_refl.
Qed.

(** A buffer that is locked and neither valid nor dirty is read from the disk. *)
Lemma iderw_reads :
  b_lock x = mk_sleeplock true pid -> b_flags x = 0 -> b_dev x = ROOTDEV ->
  b_blockno x < k_disksize k ->
  iderw i k = Ok tt (put_buf i (set_b_flags B_VALID (set_b_data (k_disk k (b_blockno x)) x)) k).
Proof.
  intros Hl Hf Hd Hb. pose proof buf_in_range. unfold iderw.
  mstep (holdingsleep_buf Hl). mstep (get_buf_ok _ _ _ Hx).
  rewrite Hf, Hd. simpl (Z.land _ _ =? _). simpl (_ =? 1). cbn iota. mget.
  rewrite (proj2 (Z.leb_gt _ _)) by lia. change (has 0 B_DIRTY) with false. cbn beta iota.
  mstep (upd_buf_ok _ _ _ _ Hx).
  erewrite upd_buf_ok by (by apply lookup_put_buf). rewrite put_buf_put. simpl.
  by rewrite Hf.
Qed.

Definition disk_put (b : Z) (v : list Z) (k : kernel) : kernel :=
  set_k_dtrace ((b, v) :: k_dtrace k) (set_k_disk (disk_upd (k_disk k) b v) k).

(** A locked dirty buffer is written to the disk and becomes clean. *)
Lemma iderw_writes :
  b_lock x = mk_sleeplock true pid -> b_flags x = Z.lor B_VALID B_DIRTY -> b_dev x = ROOTDEV ->
  b_blockno x < k_disksize k ->
  iderw i k = Ok tt (put_buf i (set_b_flags B_VALID x) (disk_put (b_blockno x) (b_data x) k)).
Proof.
  intros Hl Hf Hd Hb. pose proof buf_in_range. unfold iderw.
  mstep (holdingsleep_buf Hl). mstep (get_buf_ok _ _ _ Hx).
  rewrite Hf, Hd. simpl (Z.land _ _ =? _). simpl (_ =? 1). cbn iota. mget.
  rewrite (proj2 (Z.leb_gt _ _)) by lia. change (has (Z.lor B_VALID B_DIRTY) B_DIRTY) with true. cbn beta iota.
  erewrite bind_ok.
  2: { mstep (upd_buf_ok _ _ _ _ Hx). unfold disk_write, modify. reflexivity. }
  erewrite upd_buf_ok by (by apply lookup_put_buf).
  f_equal. unfold put_buf. simpl. rewrite list_insert_insert_eq. simpl. by rewrite Hf.
Qed.

End Ops.

Lemma flags_valid f : flags_ok f -> has f B_VALID = true -> Z.lor f B_DIRTY = Z.lor B_VALID B_DIRTY.
Proof. intros [->|[->| ->]]; done. Qed.

(** [bwrite] puts a valid locked buffer on the disk and leaves it clean. *)
Lemma bwrite_ok k c pid i x :
  running k c pid -> k_bufs k !! i = Some x ->
  b_lock x = mk_sleeplock true pid -> flags_ok (b_flags x) -> has (b_flags x) B_VALID = true ->
  b_dev x = ROOTDEV -> b_blockno x < k_disksize k ->
  bwrite i k = Ok tt (put_buf i (set_b_flags B_VALID x) (disk_put (b_blockno x) (b_data x) k)).
Proof.
  intros Hr Hx Hl Hf Hv Hd Hb. unfold bwrite.
  pose proof (buf_in_range _ _ _ Hx).
  mstep (holdingsleep_buf _ _ _ _ _ Hr Hx Hl). mstep (upd_buf_ok _ _ _ _ Hx).
  rewrite (flags_valid _ Hf Hv).
  erewrite iderw_writes; [|by apply running_put_buf|by apply lookup_put_buf|done..].
  f_equal. unfold put_buf, disk_put. simpl. by rewrite list_insert_insert_eq.
Qed.

(** ** bget and bread *)

Definition lock_buf (pid : Z) (x : buf) : buf := set_b_lock (mk_sleeplock true pid) x.

(** The buffer [bget] turns a free buffer into for block [b]. *)
Definition fresh_buf (pid b : Z) (x : buf) : buf :=
  lock_buf pid (set_b_refcnt 1 (set_b_flags 0 (set_b_blockno b (set_b_dev ROOTDEV x)))).

Section Bget.
Variables (k : kernel) (lru : list nat) (c : nat) (pid b : Z).
Hypothesis Hok : bcache_ok k lru.
Hypothesis Hrun : running k c pid.

Let held := set_k_held [L_bcache] k.

Lemma bcache_len_lru : length lru = NBUF.
Proof.
  destruct Hok as [_ _ Hnd Hall _ _ _].
  assert (lru ≡ₚ seq 0 NBUF) as ->; [|apply length_seq].
  apply NoDup_Permutation; [done|apply NoDup_seq|].
  intros i. rewrite Hall, elem_of_seq. lia.
Qed.

Lemma acquire_bcache : acquire L_bcache k = Ok tt held.
Proof. destruct Hrun as (Hh & _). rewrite acquire_ok; rewrite Hh; [done|set_solver]. Qed.

Lemma release_bcache i x : release L_bcache (put_buf i x held) = Ok tt (put_buf i x k).
Proof.
  destruct Hrun as (Hh & _). erewrite release_ok by reflexivity.
  unfold put_buf, held. destruct k; simpl in *; by subst.
Qed.

Lemma head_exists : exists h, k_bufs k !! HEAD = Some h /\
  b_next h = nxf (k_bufs k) HEAD /\ b_prev h = pvf (k_bufs k) HEAD.
Proof.
  destruct (lookup_lt_is_Some_2 (k_bufs k) HEAD) as [h Hh].
  { rewrite (bc_len _ _ Hok). unfold HEAD; lia. }
  exists h. unfold nxf, pvf. by rewrite Hh.
Qed.

Lemma bget_scan_cached :
  bget_cached (S NBUF) (nxf (k_bufs k) HEAD) ROOTDEV b held =
  Ok (List.find (is_block (k_bufs k) ROOTDEV b) lru) held.
Proof.
  destruct Hok as [Hlen [Hp _] _ Hall _ _ _].
  apply (bget_cached_ok lru (S NBUF) HEAD ROOTDEV b held); auto.
  - rewrite bcache_len_lru. lia.
  - intros x Hx. by apply Hall in Hx.
Qed.

Lemma bget_scan_unused :
  bget_unused (S NBUF) (pvf (k_bufs k) HEAD) held =
  Ok (List.find (is_unused (k_bufs k)) (reverse lru)) held.
Proof.
  destruct Hok as [Hlen [_ Hp] _ Hall _ _ _].
  apply (bget_unused_ok (reverse lru) (S NBUF) HEAD held); auto.
  - rewrite length_reverse, bcache_len_lru. lia.
  - intros x Hx. rewrite elem_of_reverse in Hx. by apply Hall in Hx.
Qed.

(** The block is cached: its buffer is returned with one more reference. *)
Lemma bget_hit i x :
  List.find (is_block (k_bufs k) ROOTDEV b) lru = Some i -> k_bufs k !! i = Some x ->
  sl_locked (b_lock x) = false ->
  bget ROOTDEV b k = Ok i (put_buf i (lock_buf pid (set_b_refcnt (u32 (b_refcnt x + 1)) x)) k).
Proof.
  intros Hf Hx Hl. unfold bget. mstep acquire_bcache.
  destruct head_exists as (h & Hh & Hn & _). mstep (get_buf_ok held _ _ Hh).
  rewrite Hn. mstep bget_scan_cached. rewrite Hf.
  mstep (upd_buf_ok held _ _ _ Hx). mstep (release_bcache _ _).
  erewrite bind_ok; [reflexivity|].
  erewrite acquiresleep_buf; [|by apply running_put_buf|apply lookup_put_buf;
    by eapply buf_in_range|done].
  by rewrite put_buf_put.
Qed.

(** It is not: the free buffer used least recently is taken over. *)
Lemma bget_miss i x :
  List.find (is_block (k_bufs k) ROOTDEV b) lru = None ->
  List.find (is_unused (k_bufs k)) (reverse lru) = Some i -> k_bufs k !! i = Some x ->
  sl_locked (b_lock x) = false ->
  bget ROOTDEV b k = Ok i (put_buf i (fresh_buf pid b x) k).
Proof.
  intros Hf Hu Hx Hl. unfold bget. mstep acquire_bcache.
  destruct head_exists as (h & Hh & Hn & Hp). mstep (get_buf_ok held _ _ Hh).
  rewrite Hn, Hp. mstep bget_scan_cached. rewrite Hf. mstep bget_scan_unused. rewrite Hu.
  pose proof (buf_in_range k i x Hx) as Hr.
  mstep (upd_buf_ok held _ _ _ Hx).
  do 3 (erewrite bind_ok by (apply upd_buf_ok, lookup_put_buf; unfold put_buf; simpl;
          by rewrite ?length_insert)).
  rewrite !put_buf_put. mstep (release_bcache _ _).
  erewrite bind_ok; [reflexivity|].
  erewrite acquiresleep_buf; [|by apply running_put_buf|by apply lookup_put_buf|done].
  by rewrite put_buf_put.
Qed.

(** Neither: no buffer can be had, and the kernel stops. *)
Lemma bget_none :
  List.find (is_block (k_bufs k) ROOTDEV b) lru = None ->
  List.find (is_unused (k_bufs k)) (reverse lru) = None ->
  bget ROOTDEV b k = Panic "bget: no buffers".
Proof.
  intros Hf Hu. unfold bget. mstep acquire_bcache.
  destruct head_exists as (h & Hh & Hn & Hp). mstep (get_buf_ok held _ _ Hh).
  rewrite Hn, Hp. mstep bget_scan_cached. rewrite Hf. mstep bget_scan_unused. by rewrite Hu.
Qed.

End Bget.

(** Block [b] was locked by [pid] into buffer [i], now [x]: [k'] differs from [k] in
    that buffer only, and the buffer was not locked before. *)
Record got_block (k k' : kernel) (i : nat) (x : buf) (pid b : Z) : Prop := {
  gb_state : k' = put_buf i x k;
  gb_holds : holds_block k' i x b;
  gb_lock : b_lock x = mk_sleeplock true pid;
  gb_data : b_data x = block_val k b;
  gb_valid : has (b_flags x) B_VALID = true;
  gb_old : exists x0, k_bufs k !! i = Some x0 /\ sl_locked (b_lock x0) = false /\
    b_refcnt x = b_refcnt x0 + 1 /\ has (b_flags x) B_DIRTY = has (b_flags x0) B_DIRTY /\
    (has (b_flags x0) B_DIRTY = true -> holds_block k i x0 b)
}.

(** A buffer can be had for block [b]: it is cached, or some buffer is unused. *)
Definition can_get (k : kernel) (b : Z) : Prop :=
  (exists i x, holds_block k i x b) \/
  (exists i, (i < NBUF)%nat /\ is_unused (k_bufs k) i = true).

Definition unlocked (k : kernel) (b : Z) : Prop :=
  forall i x, holds_block k i x b -> sl_locked (b_lock x) = false.

Lemma find_unused k lru :
  bcache_ok k lru -> (exists i, (i < NBUF)%nat /\ is_unused (k_bufs k) i = true) ->
  exists i x, List.find (is_unused (k_bufs k)) (reverse lru) = Some i /\ (i < NBUF)%nat /\
    k_bufs k !! i = Some x /\ b_refcnt x = 0 /\ has (b_flags x) B_DIRTY = false.
Proof.
  intros Hok (j & Hj & Hu). destruct (List.find _ _) as [i|] eqn:E.
  - apply List.find_some in E as [Hi Hb].
    apply list_elem_of_In, elem_of_reverse, (bc_all _ _ Hok) in Hi.
    unfold is_unused in Hb. destruct (k_bufs k !! i) as [x|] eqn:Ex; [|done].
    zify_bool. by exists i, x.
  - exfalso. apply (bc_all _ _ Hok), elem_of_reverse, list_elem_of_In in Hj.
    by rewrite (List.find_none _ _ E j Hj) in Hu.
Qed.

Lemma flags_not_valid f : flags_ok f -> has f B_VALID = false -> f = 0.
Proof. intros [->|[->| ->]]; done. Qed.

Lemma flags_clean f : flags_ok f -> has f B_VALID = true -> has f B_DIRTY = false -> f = B_VALID.
Proof. intros [->|[->| ->]]; done. Qed.

Section BreadOk.
Variables (k : kernel) (lru : list nat) (c : nat) (pid b : Z).
Hypothesis Hok : bcache_ok k lru.
Hypothesis Hrun : running k c pid.
Hypothesis Hb : 0 <= b < k_disksize k.

(** Locking a buffer that holds the block and is valid, or reading it in. *)
Lemma bread_finish i x0 x k1 :
  (i < NBUF)%nat -> k_bufs k !! i = Some x0 -> sl_locked (b_lock x0) = false ->
  k1 = put_buf i x k -> bget ROOTDEV b k = Ok i k1 ->
  b_dev x = ROOTDEV -> b_blockno x = b -> b_lock x = mk_sleeplock true pid ->
  b_refcnt x = b_refcnt x0 + 1 -> flags_ok (b_flags x) ->
  has (b_flags x) B_DIRTY = has (b_flags x0) B_DIRTY ->
  b_next x = b_next x0 -> b_prev x = b_prev x0 -> length (b_data x) = Z.to_nat BSIZE ->
  (forall j y, j <> i -> ~ holds_block k j y b) ->
  (has (b_flags x) B_VALID = true -> b_data x = block_val k b) ->
  (has (b_flags x) B_VALID = false -> block_val k b = k_disk k b) ->
  (forall b', b' <> b -> caches x0 b' = true -> block_val k b' = k_disk k b') ->
  b_refcnt x0 + 1 < 2 ^ 32 - 1 ->
  (has (b_flags x0) B_DIRTY = true -> holds_block k i x0 b) ->
  exists x' k', bread ROOTDEV b k = Ok i k' /\ got_block k k' i x' pid b /\
    bcache_ok k' lru /\ forall b', block_val k' b' = block_val k b'.
Proof.
  intros Hi H0 Hl0 -> Hg Hd Hbn Hl Hrc Hf Hdirty Hnx Hpv Hlen Hother Hv Hnv Hold Hmax Hdh.
  pose proof (buf_in_range _ _ _ H0) as Hr.
  set (x' := if has (b_flags x) B_VALID then x
             else set_b_flags B_VALID (set_b_data (k_disk k b) x)).
  assert (Hx' : b_lock x' = mk_sleeplock true pid /\ b_dev x' = ROOTDEV /\ b_blockno x' = b /\
    has (b_flags x') B_VALID = true /\ b_data x' = block_val k b /\ b_refcnt x' = b_refcnt x0 + 1 /\
    has (b_flags x') B_DIRTY = has (b_flags x0) B_DIRTY /\ b_next x' = b_next x0 /\
    b_prev x' = b_prev x0 /\ flags_ok (b_flags x') /\ length (b_data x') = Z.to_nat BSIZE).
  { unfold x'. destruct (has (b_flags x) B_VALID) eqn:Ev; [by auto 15|]. simpl.
    apply flags_not_valid in Ev; [|done]. rewrite Ev in Hdirty.
    repeat split; auto; [by symmetry; apply Hnv|unfold flags_ok; auto|apply (bc_disk _ _ Hok)]. }
  destruct Hx' as (Hl' & Hd' & Hbn' & Hv' & Hdat' & Hrc' & Hdir' & Hnx' & Hpv' & Hf' & Hlen').
  assert (Hok' : bcache_ok (put_buf i x' k) lru).
  { apply (bcache_ok_insert k lru i x0); auto.
    - pose proof (bo_ref _ _ (bc_buf _ _ Hok i x0 Hi H0)).
      split; auto; rewrite ?Hl', ?Hrc', ?Hbn'; try done; lia.
    - intros _ j y Hj. rewrite Hbn'. by apply Hother. }
  exists x', (put_buf i x' k). split; [|split; [|split; [done|]]].
  - unfold bread. mstep Hg. mstep (get_buf_ok _ _ _ (lookup_put_buf i x k Hr)).
    unfold x'. destruct (has (b_flags x) B_VALID) eqn:Ev; [done|].
    cbn [when negb]. erewrite bind_ok; [reflexivity|].
    erewrite iderw_reads; [|by apply running_put_buf|by apply lookup_put_buf|done| |done|].
    + rewrite put_buf_put, Hbn. done.
    + by apply flags_not_valid.
    + rewrite Hbn. simpl. lia.
  - split; auto; [|by exists x0]. repeat split; auto. by apply lookup_put_buf.
  - intros b'. unfold put_buf. erewrite block_val_insert by eauto.
    unfold caches at 1. rewrite Hd', Hbn', Hv'. simpl.
    destruct (Z.eqb_spec b b') as [->|Hne]; [done|]. simpl.
    destruct (caches x0 b') eqn:Ec; [symmetry; by apply Hold|done].
Qed.

Lemma bread_ok :
  unlocked k b -> can_get k b -> (forall i x, holds_block k i x b -> b_refcnt x + 1 < 2 ^ 32 - 1) ->
  exists i x k', bread ROOTDEV b k = Ok i k' /\ got_block k k' i x pid b /\
    bcache_ok k' lru /\ forall b', block_val k' b' = block_val k b'.
Proof.
  intros Hul Hcan Hmax. pose proof (is_block_spec k lru b Hok) as Hfind.
  destruct (List.find _ _) as [i|] eqn:E.
  - destruct Hfind as (x0 & Hh). pose proof Hh as (Hi & H0 & Hd & Hbn).
    pose proof (bc_buf _ _ Hok i x0 Hi H0) as [Hfl Hdl Hrf Hlk Hcl Hdr Hrg].
    destruct (bread_finish i x0 (lock_buf pid (set_b_refcnt (u32 (b_refcnt x0 + 1)) x0)) _ Hi H0
                (Hul _ _ Hh) eq_refl (bget_hit k lru c pid b Hok Hrun i x0 E H0 (Hul _ _ Hh)))
      as (x' & k' & HH); simpl; auto; eauto.
    + specialize (Hmax _ _ Hh). apply u32_small. lia.
    + intros j y Hj (Hj' & Hy & Hyd & Hyb). apply Hj.
      eapply (bc_uniq _ _ Hok j i y x0); eauto. congruence.
    + intros Hv. symmetry. by apply (block_val_cached k lru i x0 b).
    + intros Hv. apply block_val_uncached. intros j y (Hj & Hy & Hyd & Hyb).
      assert (j = i) as -> by (eapply (bc_uniq _ _ Hok j i y x0); eauto; congruence). congruence.
    + intros b' Hne Hc. unfold caches in Hc. zify_bool. congruence.
  - destruct Hcan as [(i & x & Hh)|Hcan]; [by destruct (Hfind i x)|].
    destruct (find_unused k lru Hok Hcan) as (i & x0 & Hu & Hi & H0 & Hrc & Hnd).
    pose proof (bc_buf _ _ Hok i x0 Hi H0) as [Hfl Hdl Hrf Hlk Hcl Hdr Hrg].
    assert (Hl : sl_locked (b_lock x0) = false).
    { destruct (sl_locked (b_lock x0)); [|done]. specialize (Hlk eq_refl). lia. }
    destruct (bread_finish i x0 (fresh_buf pid b x0) _ Hi H0 Hl eq_refl
                (bget_miss k lru c pid b Hok Hrun i x0 E Hu H0 Hl)) as (x' & k' & HH);
      simpl; auto; eauto; try lia; try (rewrite Hnd; reflexivity); try (intros Hv; discriminate Hv); try congruence.
    + by left.
    + intros _. apply block_val_uncached. intros j y Hj. by destruct (Hfind j y).
    + intros b' Hne Hc. destruct (caches_holds k i x0 b' Hi H0 Hc) as [Hh Hv].
      rewrite (block_val_cached k lru i x0 b') by done.
      destruct Hh as (_ & _ & Hd & <-). apply Hcl; auto. by apply flags_clean.
Qed.

End BreadOk.

(** ** brelse *)

(** A buffer without its place in the list. *)
Definition unlinked_buf (x : buf) : buf := set_b_next 0%nat (set_b_prev 0%nat x).
Definition same_bufs (bufs bufs' : list buf) : Prop :=
  unlinked_buf <$> bufs' = unlinked_buf <$> bufs.

Lemma same_bufs_alter bufs bufs' j f :
  (forall x, unlinked_buf (f x) = unlinked_buf x) -> same_bufs bufs bufs' ->
  same_bufs bufs (alter f j bufs').
Proof.
  intros Hf H. unfold same_bufs in *. rewrite <- H. apply list_eq. intros m. rewrite !list_lookup_fmap.
  destruct (decide (m = j)) as [->|].
  - rewrite list_lookup_alter_eq. destruct (bufs' !! j); simpl; [by rewrite Hf|done].
  - by rewrite list_lookup_alter_ne.
Qed.

Lemma same_bufs_move bufs i : same_bufs bufs (move_front bufs i).
Proof. unfold move_front. by repeat (apply same_bufs_alter; [done|]). Qed.

Lemma same_bufs_lookup bufs bufs' j y :
  same_bufs bufs bufs' -> bufs' !! j = Some y ->
  exists x, bufs !! j = Some x /\ unlinked_buf y = unlinked_buf x.
Proof.
  intros H Hy. apply (f_equal (.!! j)) in H. rewrite !list_lookup_fmap, Hy in H. simpl in H.
  destruct (bufs !! j) as [x|]; [|done]. exists x. split; [done|]. cbn in H. congruence.
Qed.

Lemma unlinked_fields x y :
  unlinked_buf y = unlinked_buf x ->
  b_flags y = b_flags x /\ b_dev y = b_dev x /\ b_blockno y = b_blockno x /\
  b_lock y = b_lock x /\ b_refcnt y = b_refcnt x /\ b_data y = b_data x.
Proof. destruct x, y. unfold unlinked_buf. simpl. intros. simplify_eq. done. Qed.

Lemma bcache_ok_links k lru bufs' lru' :
  bcache_ok k lru -> same_bufs (k_bufs k) bufs' -> lru_list bufs' lru' ->
  NoDup lru' -> (forall i, i ∈ lru' <-> (i < NBUF)%nat) ->
  bcache_ok (set_k_bufs bufs' k) lru'.
Proof.
  intros [Hlen _ _ _ Hbuf Huniq Hd] Hs Hl Hn Ha. split; simpl; auto.
  - apply (f_equal length) in Hs. by rewrite !length_fmap, Hlen in Hs.
  - intros i y Hi Hy. destruct (same_bufs_lookup _ _ _ _ Hs Hy) as (x & Hx & E).
    destruct (unlinked_fields _ _ E) as (E1 & E2 & E3 & E4 & E5 & E6).
    destruct (Hbuf i x Hi Hx). split; simpl; rewrite ?E1, ?E2, ?E3, ?E4, ?E5, ?E6; auto.
  - intros i j bi bj Hi Hj Hbi Hbj Hdi Hdj Hb.
    destruct (same_bufs_lookup _ _ _ _ Hs Hbi) as (x & Hx & E).
    destruct (same_bufs_lookup _ _ _ _ Hs Hbj) as (y & Hy & E').
    destruct (unlinked_fields _ _ E) as (_ & E2 & E3 & _).
    destruct (unlinked_fields _ _ E') as (_ & E2' & E3' & _).
    eapply (Huniq i j x y); congruence.
Qed.

Lemma block_val_links k lru bufs' lru' b :
  bcache_ok k lru -> bcache_ok (set_k_bufs bufs' k) lru' -> same_bufs (k_bufs k) bufs' ->
  block_val (set_k_bufs bufs' k) b = block_val k b.
Proof.
  intros Hok Hok' Hs. set (k' := set_k_bufs bufs' k) in *.
  assert (Hh : forall i y b, holds_block k' i y b ->
    exists x, holds_block k i x b /\ b_flags y = b_flags x /\ b_data y = b_data x).
  { intros i y b' (Hi & Hy & Hd & Hb). destruct (same_bufs_lookup _ _ _ _ Hs Hy) as (x & Hx & E).
    destruct (unlinked_fields _ _ E) as (E1 & E2 & E3 & E4 & E5 & E6).
    exists x. unfold holds_block. by rewrite <- E2, <- E3, <- E1, <- E6. }
  destruct (cached_dec k' b) as [(i & y & Hy & Hv)|Hn].
  - rewrite (block_val_cached k' lru' i y b) by done. destruct (Hh _ _ _ Hy) as (x & Hx & Ef & ->).
    rewrite Ef in Hv. symmetry. by apply (block_val_cached k lru i x b).
  - rewrite (block_val_uncached k') by done. symmetry. apply (block_val_uncached k).
    intros i x (Hi & Hx & Hd & Hb).
    assert (same_bufs bufs' (k_bufs k)) as Hs' by (unfold same_bufs in *; congruence).
    destruct (same_bufs_lookup _ _ _ _ Hs' Hx) as (y & Hy & E).
    destruct (unlinked_fields _ _ E) as (-> & E2 & E3 & _).
    apply (Hn i). unfold holds_block. by rewrite <- E2, <- E3.
Qed.

Definition released_buf (x : buf) : buf :=
  set_b_refcnt (u32 (b_refcnt x - 1)) (set_b_lock (mk_sleeplock false 0) x).

Definition brelse_state (i : nat) (x : buf) (k : kernel) : kernel :=
  let bufs := <[i := released_buf x]> (k_bufs k) in
  set_k_bufs (if u32 (b_refcnt x - 1) =? 0 then move_front bufs i else bufs)
    (set_k_ptable (wakeup1_proc (C_buflock i) <$> k_ptable k) k).

Lemma get_nxf k i : (i < length (k_bufs k))%nat ->
  exists b, get_buf i k = Ok b k /\ b_next b = nxf (k_bufs k) i /\ b_prev b = pvf (k_bufs k) i.
Proof.
  intros Hi. destruct (lookup_lt_is_Some_2 _ _ Hi) as [b Hb]. exists b.
  unfold get_buf, nxf, pvf. by rewrite Hb.
Qed.

(** The pointer surgery of [brelse] is [move_front]. *)
Lemma brelse_links i k :
  (i < length (k_bufs k))%nat -> length (k_bufs k) = S NBUF ->
  (let! b := get_buf i in
   upd_buf (b_next b) (set_b_prev (b_prev b)) ;;;
   let! b := get_buf i in
   upd_buf (b_prev b) (set_b_next (b_next b)) ;;;
   let! h := get_buf HEAD in
   upd_buf i (set_b_next (b_next h)) ;;;
   upd_buf i (set_b_prev HEAD) ;;;
   let! h := get_buf HEAD in
   upd_buf (b_next h) (set_b_prev i) ;;;
   upd_buf HEAD (set_b_next i)) k = Ok tt (set_k_bufs (move_front (k_bufs k) i) k).
Proof.
  intros Hi Hlen. assert (forall k, length (k_bufs k) = S NBUF -> (HEAD < length (k_bufs k))%nat) as HH
    by (intros ? ->; unfold HEAD; lia).
  destruct (get_nxf k i Hi) as (b & E & En & Ep). mstep E. rewrite En, Ep.
  unfold upd_buf at 1, modify at 1. erewrite bind_ok by reflexivity.
  match goal with |- bind _ _ ?k1 = _ => destruct (get_nxf k1 i) as (b1 & E1 & En1 & Ep1) end.
  { simpl. by rewrite length_alter. }
  mstep E1. rewrite En1, Ep1. unfold upd_buf at 1, modify at 1. erewrite bind_ok by reflexivity.
  match goal with |- bind _ _ ?k1 = _ => destruct (get_nxf k1 HEAD) as (b2 & E2 & En2 & _) end.
  { simpl. rewrite !length_alter. by apply HH. }
  mstep E2. rewrite En2. unfold upd_buf at 1, modify at 1. erewrite bind_ok by reflexivity.
  unfold upd_buf at 1, modify at 1. erewrite bind_ok by reflexivity.
  match goal with |- bind _ _ ?k1 = _ => destruct (get_nxf k1 HEAD) as (b3 & E3 & En3 & _) end.
  { simpl. rewrite !length_alter. by apply HH. }
  mstep E3. rewrite En3. reflexivity.
Qed.

Lemma brelse_eq k c pid i x :
  running k c pid -> k_bufs k !! i = Some x -> b_lock x = mk_sleeplock true pid ->
  length (k_bufs k) = S NBUF ->
  brelse i k = Ok tt (brelse_state i x k).
Proof.
  intros Hr Hx Hl Hlen. pose proof (buf_in_range k i x Hx) as Hir. unfold brelse.
  mstep (holdingsleep_buf _ _ _ _ _ Hr Hx Hl). mstep (releasesleep_ok _ _ _ _ Hr).
  rewrite (sl_set_buf _ _ x) by done. pose proof Hr as (Hh & _).
  erewrite bind_ok by (apply acquire_ok; simpl; rewrite Hh; set_solver).
  cbn [k_held set_k_ptable put_buf set_k_bufs]. rewrite Hh.
  erewrite bind_ok by (apply upd_buf_ok; simpl; by apply list_lookup_insert_eq).
  set (k1 := put_buf i _ _).
  assert (Hk1 : k_bufs k1 = <[i := released_buf x]> (k_bufs k)).
  { unfold k1, put_buf. simpl. by rewrite list_insert_insert_eq. }
  assert (Hg : get_buf i k1 = Ok (released_buf x) k1).
  { apply get_buf_ok. rewrite Hk1. by apply list_lookup_insert_eq. }
  mstep Hg. unfold brelse_state. cbn [b_refcnt released_buf set_b_refcnt].
  destruct (u32 (b_refcnt x - 1) =? 0).
  - pose proof (brelse_links i k1) as Hlk. rewrite Hk1, length_insert in Hlk.
    specialize (Hlk Hir Hlen). rewrite (bind_ok _ _ _ _ _ Hg) in Hlk. cbn beta in Hlk.
    mstep Hlk. erewrite release_ok by reflexivity.
    f_equal. unfold k1, put_buf. destruct k; simpl in *; by subst.
  - mstep eq_refl. erewrite release_ok by reflexivity.
    f_equal. unfold k1, put_buf. simpl. rewrite list_insert_insert_eq.
    destruct k; simpl in *; by subst.
Qed.

Lemma bcache_ok_ptable k lru pt : bcache_ok k lru -> bcache_ok (set_k_ptable pt k) lru.
Proof. intros []. split; auto. intros i b Hi Hb. destruct (bc_buf0 i b Hi Hb). by split. Qed.

Lemma block_val_ptable k pt b : block_val (set_k_ptable pt k) b = block_val k b.
Proof. done. Qed.

(** The list after buffer [i] is released by its last user. *)
Definition lru_front (i : nat) (lru : list nat) : list nat :=
  i :: filter (fun j => j <> i) lru.

Lemma lru_front_split i l1 l2 :
  NoDup (l1 ++ i :: l2) -> lru_front i (l1 ++ i :: l2) = i :: l1 ++ l2.
Proof.
  intros Hn. unfold lru_front. f_equal. apply NoDup_app in Hn as (H1 & H2 & H3).
  apply NoDup_cons in H3 as [H3 H4].
  rewrite filter_app, filter_cons_False by tauto.
  assert (forall l : list nat, i ∉ l -> filter (fun j => j <> i) l = l) as Hf.
  { induction l as [|x l IH]; intros Hi; [done|].
    rewrite filter_cons_True, IH; [done|set_solver|set_solver]. }
  rewrite !Hf; [done|done|]. intros Hi. apply (H2 i Hi). set_solver.
Qed.

(** Releasing a buffer keeps the invariant and every block's contents, provided a
    buffer that is not marked dirty agrees with the disk. *)
Lemma brelse_state_ok k lru i x :
  bcache_ok k lru -> (i < NBUF)%nat -> k_bufs k !! i = Some x -> 0 < b_refcnt x ->
  (b_dev x = ROOTDEV -> b_flags x = B_VALID -> b_data x = k_disk k (b_blockno x)) ->
  bcache_ok (brelse_state i x k) (if b_refcnt x =? 1 then lru_front i lru else lru) /\
  forall b, block_val (brelse_state i x k) b = block_val k b.
Proof.
  intros Hok Hi Hx Hrc Hcl. pose proof (bc_buf _ _ Hok i x Hi Hx) as [Hf Hd Hr Hl _ Hdr Hrg].
  set (k1 := put_buf i (released_buf x) k).
  assert (Hu : u32 (b_refcnt x - 1) = b_refcnt x - 1) by (apply u32_small; lia).
  assert (Hok1 : bcache_ok k1 lru).
  { apply (bcache_ok_insert k lru i x); auto.
    - split; simpl; auto; [lia|done].
    - intros Hdev j y Hj (Hj' & Hy & Hyd & Hyb). apply Hj. simpl in *.
      eapply (bc_uniq _ _ Hok j i y x); eauto. }
  assert (Hv1 : forall b, block_val k1 b = block_val k b).
  { intros b. unfold k1, put_buf. erewrite block_val_insert by eauto.
    replace (caches (released_buf x) b) with (caches x b) by done.
    destruct (caches x b) eqn:Ec; [|done].
    destruct (caches_holds k i x b Hi Hx Ec). symmetry. by apply (block_val_cached k lru i x b). }
  unfold brelse_state. rewrite Hu.
  replace (b_refcnt x - 1 =? 0) with (b_refcnt x =? 1)
    by (destruct (Z.eqb_spec (b_refcnt x) 1), (Z.eqb_spec (b_refcnt x - 1) 0); lia || done).
  set (pt := wakeup1_proc _ <$> _).
  destruct (b_refcnt x =? 1).
  - assert (Hin : i ∈ lru) by (by apply (bc_all _ _ Hok)).
    apply list_elem_of_split in Hin as (l1 & l2 & E).
    pose proof (bc_nodup _ _ Hok1) as Hnd. pose proof (bc_all _ _ Hok1) as Hall. rewrite E in Hnd, Hall.
    assert (Hm : lru_list (move_front (k_bufs k1) i) (i :: l1 ++ l2)).
    { apply move_front_lru.
      - rewrite <- E. apply (bc_lru _ _ Hok1).
      - apply NoDup_cons. split; [|done]. rewrite Hall. unfold HEAD. lia.
      - intros j Hj. rewrite (bc_len _ _ Hok1). apply elem_of_cons in Hj as [->|Hj]; [unfold HEAD; lia|].
        apply Hall in Hj. lia. }
    rewrite E, lru_front_split by done.
    assert (Hok2 : bcache_ok (set_k_bufs (move_front (k_bufs k1) i) k1) (i :: l1 ++ l2)).
    { eapply bcache_ok_links; [exact Hok1|apply same_bufs_move|done| |].
      - by rewrite (Permutation_middle l1 l2 i).
      - intros j. rewrite <- Hall. set_solver. }
    split; [exact (bcache_ok_ptable _ _ pt Hok2)|]. intros b. rewrite <- Hv1.
    exact (block_val_links k1 lru _ _ b Hok1 Hok2 (same_bufs_move _ _)).
  - split; [exact (bcache_ok_ptable _ _ pt Hok1)|]. exact Hv1.
Qed.

(** ** The theorems about the cache *)

(** The buffers [binit] leaves: the last one first in the list. *)
Definition binit_bufs : list buf :=
  Eval vm_compute in
    match binit (boot_kernel 0 0 (fun _ => []) 0) with Ok _ k => k_bufs k | _ => [] end.

Lemma binit_eq k :
  k_bufs k = replicate (S NBUF) zero_buf -> binit k = Ok tt (set_k_bufs binit_bufs k).
Proof. intros H. destruct k; simpl in H; subst. vm_compute. reflexivity. Qed.

Lemma binit_state_ok k :
  (forall b, length (k_disk k b) = Z.to_nat BSIZE) ->
  bcache_ok (set_k_bufs binit_bufs k) (reverse (seq 0 NBUF)) /\
  forall b, block_val (set_k_bufs binit_bufs k) b = k_disk k b.
Proof.
  intros Hd.
  assert (Hall : forall i b, binit_bufs !! i = Some b ->
    b_dev b = 0 /\ b_flags b = 0 /\ b_refcnt b = 0 /\ b_lock b = zero_sleeplock /\
    length (b_data b) = Z.to_nat BSIZE).
  { intros i b Hb. apply list_elem_of_lookup_2 in Hb.
    assert (Forall (fun b => b_dev b = 0 /\ b_flags b = 0 /\ b_refcnt b = 0 /\
      b_lock b = zero_sleeplock /\ length (b_data b) = Z.to_nat BSIZE) binit_bufs) as HF
      by (repeat constructor).
    rewrite Forall_forall in HF. by apply HF. }
  assert (Hno : forall i x b, ~ holds_block (set_k_bufs binit_bufs k) i x b).
  { intros i x b (_ & Hx & Hdev & _). apply Hall in Hx as (E & _). rewrite E in Hdev. discriminate. }
  split.
  - split; cbn [k_bufs set_k_bufs]; [reflexivity| | | | | |exact Hd].
    + split; vm_compute; by repeat split.
    + by apply NoDup_reverse', NoDup_seq.
    + intros i. rewrite elem_of_reverse, elem_of_seq. lia.
    + intros i b _ Hb. apply Hall in Hb as (E1 & E2 & E3 & E4 & E5).
      split; rewrite ?E1, ?E2, ?E3, ?E4; try done. by left.
    + intros i j bi bj _ _ Hbi _ Hdi _ _. apply Hall in Hbi as (E & _). rewrite E in Hdi. discriminate.
  - intros b. rewrite (block_val_uncached (set_k_bufs binit_bufs k) b); [done|].
    intros i x Hh. by destruct (Hno i x b).
Qed.

(** [binit] links the [NBUF] buffers, zeroed as C leaves static storage, into a
    list that holds each of them once, and establishes the cache's invariant with
    every block's contents those of the disk. *)
Theorem binit_establishes k :
  k_bufs k = replicate (S NBUF) zero_buf ->
  (forall b, length (k_disk k b) = Z.to_nat BSIZE) ->
  exists k', binit k = Ok tt k' /\ bcache_ok k' (reverse (seq 0 NBUF)) /\
    forall b, block_val k' b = k_disk k b.
Proof.
  intros Hz Hd. exists (set_k_bufs binit_bufs k). split; [by apply binit_eq|].
  by apply binit_state_ok.
Qed.

(** A machine that has run [binit], with process 0 (pid 7) running. *)
Definition blank_disk : Z -> list Z := fun b => replicate (Z.to_nat BSIZE) (b mod 256).
Definition boot1 : kernel :=
  set_k_cur (Some 0%nat)
    (set_k_ptable (<[0%nat := set_p_pid 7 (set_p_state RUNNING zero_proc)]> (replicate NPROC zero_proc))
      (boot_kernel 0x80115000 0x80108000 blank_disk 1000)).
Definition ready : kernel := set_k_bufs binit_bufs boot1.

Lemma ready_ok :
  bcache_ok ready (reverse (seq 0 NBUF)) /\ forall b, block_val ready b = blank_disk b.
Proof. apply binit_state_ok. done. Qed.

Lemma ready_running : running ready 0 7.
Proof. repeat split. by eexists. Qed.

Lemma ready_no_block i x b : ~ holds_block ready i x b.
Proof.
  intros (_ & Hx & Hdev & _). revert Hdev.
  assert (Forall (fun b => b_dev b = 0) binit_bufs) as HF by (repeat constructor).
  rewrite Forall_forall in HF. rewrite (HF x); [done|]. by eapply list_elem_of_lookup_2.
Qed.

(** C10: [bread] of a block that is not locked, when the block is cached or a buffer
    is unused, returns a buffer locked by the caller that holds the block's current
    contents (the cached copy if there is one, and otherwise the disk's); no other
    buffer and no block's contents change, and no block comes to be cached twice. *)
Theorem bread_returns_block k lru c pid b :
  bcache_ok k lru -> running k c pid -> 0 <= b < k_disksize k ->
  unlocked k b -> can_get k b -> (forall i x, holds_block k i x b -> b_refcnt x + 1 < 2 ^ 32 - 1) ->
  exists i x k', bread ROOTDEV b k = Ok i k' /\ got_block k k' i x pid b /\
    bcache_ok k' lru /\ forall b', block_val k' b' = block_val k b'.
Proof. intros Hok Hr Hb Hu Hc Hm. by apply (bread_ok k lru c pid b). Qed.

(** [bget] recycles buffers in least-recently-used order and never one that is in
    use or holds logged data: when the block is not cached it takes the last buffer
    of the list with no references and no [B_DIRTY], and panics when there is none. *)
Theorem bget_recycles_lru k lru c pid b :
  bcache_ok k lru -> running k c pid -> (forall i x, ~ holds_block k i x b) ->
  match List.find (is_unused (k_bufs k)) (reverse lru) with
  | Some i => exists x, k_bufs k !! i = Some x /\ b_refcnt x = 0 /\ has (b_flags x) B_DIRTY = false /\
      bget ROOTDEV b k = Ok i (put_buf i (fresh_buf pid b x) k)
  | None => bget ROOTDEV b k = Panic "bget: no buffers"
  end.
Proof.
  intros Hok Hr Hno. pose proof (is_block_spec k lru b Hok) as Hf.
  destruct (List.find (is_block _ _ _) _) as [j|] eqn:E; [destruct Hf as [x Hx]; by destruct (Hno j x)|].
  destruct (List.find (is_unused _) _) as [i|] eqn:Eu; [|by eapply bget_none].
  destruct (List.find_some _ _ Eu) as [Hi Hu].
  apply list_elem_of_In, elem_of_reverse, (bc_all _ _ Hok) in Hi.
  destruct (find_unused k lru Hok (ex_intro _ i (conj Hi Hu))) as (i' & x & E' & _ & Hx & Hrc & Hd).
  rewrite Eu in E'. injection E' as <-. exists x. repeat split; auto.
  eapply bget_miss; eauto. pose proof (bc_buf _ _ Hok i x Hi Hx) as Hbo.
  destruct (sl_locked (b_lock x)) eqn:El; [|done]. pose proof (bo_locked _ _ Hbo El). lia.
Qed.

(** [brelse] of a buffer the caller holds returns with the buffer unlocked, moves
    it to the front of the list when its last reference goes, and keeps the cache's
    invariant and every block's contents. *)
Theorem brelse_moves_front k lru c pid i x :
  bcache_ok k lru -> running k c pid -> (i < NBUF)%nat -> k_bufs k !! i = Some x ->
  b_lock x = mk_sleeplock true pid ->
  (b_dev x = ROOTDEV -> b_flags x = B_VALID -> b_data x = k_disk k (b_blockno x)) ->
  exists k', brelse i k = Ok tt k' /\ running k' c pid /\
    bcache_ok k' (if b_refcnt x =? 1 then lru_front i lru else lru) /\
    (exists x', k_bufs k' !! i = Some x' /\ sl_locked (b_lock x') = false) /\
    forall b, block_val k' b = block_val k b.
Proof.
  intros Hok Hr Hi Hx Hl Hc. exists (brelse_state i x k).
  split; [by eapply brelse_eq; eauto; apply (bc_len _ _ Hok)|].
  assert (Hrc : 0 < b_refcnt x) by (apply (bo_locked _ _ (bc_buf _ _ Hok i x Hi Hx)); by rewrite Hl).
  destruct (brelse_state_ok k lru i x Hok Hi Hx Hrc Hc) as [Hok' Hv].
  split; [exact (running_wakeup k c pid (C_buflock i) Hr)|]. split; [done|]. split; [|done].
  set (bufs := <[i := released_buf x]> (k_bufs k)).
  assert (Hlk : same_bufs bufs (k_bufs (brelse_state i x k))).
  { unfold brelse_state. simpl. case_bool; [apply same_bufs_move|done]. }
  destruct (lookup_lt_is_Some_2 (k_bufs (brelse_state i x k)) i) as [x' Hx'].
  { rewrite (bc_len _ _ Hok'). lia. }
  destruct (same_bufs_lookup _ _ _ _ Hlk Hx') as (y & Hy & E).
  unfold bufs in Hy. rewrite list_lookup_insert_eq in Hy by (by eapply lookup_lt_Some).
  injection Hy as <-. destruct (unlinked_fields _ _ E) as (_ & _ & _ & El & _).
  exists x'. by rewrite El.
Qed.

(** ** The theorems at work *)

Lemma binit_establishes_witness :
  exists k', binit boot1 = Ok tt k' /\ block_val k' 3 = replicate (Z.to_nat BSIZE) 3.
Proof.
  destruct (binit_establishes boot1 eq_refl (fun _ => eq_refl)) as (k' & E & _ & Hv).
  exists k'. split; [exact E|]. rewrite Hv. reflexivity.
Defined.

Lemma ready_can_get b : can_get ready b.
Proof. right. exists 0%nat. split; [unfold NBUF; lia|reflexivity]. Qed.

Lemma ready_unlocked b : unlocked ready b.
Proof. intros i x H. by destruct (ready_no_block i x b). Qed.

Lemma bread_returns_block_witness :
  exists i x k', bread ROOTDEV 5 ready = Ok i k' /\ k_bufs k' !! i = Some x /\
    b_data x = replicate (Z.to_nat BSIZE) 5.
Proof.
  destruct (bread_returns_block ready _ 0%nat 7 5 (proj1 ready_ok) ready_running)
    as (i & x & k' & E & [_ (_ & Hx & _) _ Hd _ _] & _).
  - by split.
  - apply ready_unlocked.
  - apply ready_can_get.
  - intros i x H. destruct (ready_no_block i x 5 H).
  - exists i, x, k'. split; [exact E|]. split; [exact Hx|]. rewrite Hd, (proj2 ready_ok). reflexivity.
Defined.

Lemma bget_recycles_lru_witness :
  exists x, k_bufs ready !! 0%nat = Some x /\ bget ROOTDEV 5 ready = Ok 0%nat (put_buf 0 (fresh_buf 7 5 x) ready).
Proof.
  destruct (bget_recycles_lru ready _ 0%nat 7 5 (proj1 ready_ok) ready_running
              (fun i x => ready_no_block i x 5)) as (x & Hx & _ & _ & E).
  exists x. split; [exact Hx|exact E].
Defined.

Lemma brelse_moves_front_witness :
  exists i k1 k2, bread ROOTDEV 5 ready = Ok i k1 /\ brelse i k1 = Ok tt k2 /\
    block_val k2 5 = replicate (Z.to_nat BSIZE) 5.
Proof.
  destruct (bread_ok ready _ 0%nat 7 5 (proj1 ready_ok) ready_running)
    as (i & x & k1 & E & [Hk (Hi & Hx & Hdev & Hbn) Hl Hd _ _] & Hok & Hv).
  - by split.
  - apply ready_unlocked.
  - apply ready_can_get.
  - intros i x H. destruct (ready_no_block i x 5 H).
  - destruct (brelse_moves_front k1 _ 0%nat 7 i x Hok) as (k2 & E2 & _ & _ & _ & Hv2); try done.
    + rewrite Hk. by apply running_put_buf, ready_running.
    + intros _ _. rewrite Hd, (proj2 ready_ok), Hk, Hbn. reflexivity.
    + exists i, k1, k2. split; [exact E|]. split; [exact E2|].
      rewrite Hv2, Hv, (proj2 ready_ok). reflexivity.
Defined.
