(* ===== verification/Ide.v ===== *)
(** * Ide: the queue of requests of the IDE disk (ide.c)

    The disk controller is a parameter: a type [D] with what reading and writing its
    ports does.  [AtaLaws] is what the driver relies on: the task file keeps what is
    written to it, a read command makes the sector of the task file ready for [insl], a
    write command followed by [outsl] stores it, and the status becomes ready.
    [idequeue] is the list that the [qnext] pointers form; each critical section of
    [idelock] is one step.  The theorem says that calls of [iderw] and interrupts, in
    any order, do what an abstract disk does, which performs the requests one at a time,
    first come first served, with the first request of the queue on the drive. *)

From S2P Require Import Prelude Kernel.

(** ** The controller *)

Class Ata (D : Type) : Type := {
  inb_status : D -> Z * D;
  outb_port : Z -> Z -> D -> D;
  outsl_data : list Z -> D -> D;
  insl_data : D -> list Z * D }.

Definition IDE_BSY : Z := 0x80.
Definition IDE_DRDY : Z := 0x40.
Definition IDE_DF : Z := 0x20.
Definition IDE_ERR : Z := 0x01.
Definition SECTOR_SIZE : Z := 512.
Definition IDE_CMD_READ : Z := 0x20.
Definition IDE_CMD_WRITE : Z := 0x30.
Definition IDE_CMD_RDMUL : Z := 0xc4.
Definition IDE_CMD_WRMUL : Z := 0xc5.

Definition is_ready (r : Z) : bool := Z.land r (Z.lor IDE_BSY IDE_DRDY) =? IDE_DRDY.

(** ** The driver *)

Record ibuf : Type := mk_ibuf {
  i_flags : Z; i_dev : Z; i_blockno : Z; i_locked : bool; i_qnext : option nat; i_data : list Z }.

Definition set_i_flags (v : Z) (b : ibuf) := mk_ibuf v (i_dev b) (i_blockno b) (i_locked b) (i_qnext b) (i_data b).
Definition set_i_qnext (v : option nat) (b : ibuf) := mk_ibuf (i_flags b) (i_dev b) (i_blockno b) (i_locked b) v (i_data b).
Definition set_i_data (v : list Z) (b : ibuf) := mk_ibuf (i_flags b) (i_dev b) (i_blockno b) (i_locked b) (i_qnext b) v.

Section Driver.
Context {D : Type} `{Ata D}.

(** [d_woken]: the buffers that [wakeup] was called for. *)
Record ide : Type := mk_ide {
  d_bufs : nat -> ibuf; idequeue : option nat; havedisk1 : bool; d_disk : D; d_woken : list nat }.

Definition set_bufs (v : nat -> ibuf) (s : ide) := mk_ide v (idequeue s) (havedisk1 s) (d_disk s) (d_woken s).
Definition set_queue (v : option nat) (s : ide) := mk_ide (d_bufs s) v (havedisk1 s) (d_disk s) (d_woken s).
Definition set_have1 (v : bool) (s : ide) := mk_ide (d_bufs s) (idequeue s) v (d_disk s) (d_woken s).
Definition set_disk (v : D) (s : ide) := mk_ide (d_bufs s) (idequeue s) (havedisk1 s) v (d_woken s).
Definition set_woken (v : list nat) (s : ide) := mk_ide (d_bufs s) (idequeue s) (havedisk1 s) (d_disk s) v.

Definition upd (i : nat) (f : ibuf -> ibuf) (bs : nat -> ibuf) : nat -> ibuf := fun j => if Nat.eqb j i then f (bs j) else bs j.

Notation I := (M ide).

Definition upd_ibuf (i : nat) (f : ibuf -> ibuf) : I unit := modify (fun s => set_bufs (upd i f (d_bufs s)) s).

Definition inb : I Z := fun s => let '(r, d) := inb_status (d_disk s) in Ok r (set_disk d s).
Definition outb (port v : Z) : I unit := modify (fun s => set_disk (outb_port port v (d_disk s)) s).
Definition outsl (v : list Z) : I unit := modify (fun s => set_disk (outsl_data v (d_disk s)) s).
Definition insl : I (list Z) := fun s => let '(v, d) := insl_data (d_disk s) in Ok v (set_disk d s).
Definition wakeup (i : nat) : I unit := modify (fun s => set_woken (d_woken s ++ [i]) s).

Fixpoint idewait (polls : nat) (checkerr : bool) : I Z :=
  match polls with
  | O => spin
  | S polls' =>
      let! r := inb in
      if negb (is_ready r) then idewait polls' checkerr
      else if checkerr && negb (Z.land r (Z.lor IDE_DF IDE_ERR) =? 0) then ret (-1) else ret 0
  end.

Context (polls : nat).

(** The [for] of [ideinit]. *)
Fixpoint probe (n : nat) : I unit :=
  match n with
  | O => ret tt
  | S n' =>
      let! r := inb in
      if negb (r =? 0) then modify (set_have1 true) else probe n'
  end.

(** [ideinit] after the lock and the interrupt are set up. *)
Definition ideinit : I unit :=
  idewait polls false ;;;
  outb 0x1f6 (Z.lor 0xe0 (Z.shiftl 1 4)) ;;;
  probe 1000 ;;;
  outb 0x1f6 (Z.lor 0xe0 (Z.shiftl 0 4)).

Definition idestart (b : option nat) : I unit :=
  match b with
  | None => panic "idestart"
  | Some i =>
      let! s := get in
      let b := d_bufs s i in
      if FSSIZE <=? i_blockno b then panic "incorrect blockno" else
      let sector_per_block := BSIZE / SECTOR_SIZE in
      let sector := i32 (i_blockno b * sector_per_block) in
      let read_cmd := if sector_per_block =? 1 then IDE_CMD_READ else IDE_CMD_RDMUL in
      let write_cmd := if sector_per_block =? 1 then IDE_CMD_WRITE else IDE_CMD_WRMUL in
      if 7 <? sector_per_block then panic "idestart" else
      idewait polls false ;;;
      outb 0x3f6 0 ;;;
      outb 0x1f2 sector_per_block ;;;
      outb 0x1f3 (Z.land sector 0xff) ;;;
      outb 0x1f4 (Z.land (Z.shiftr sector 8) 0xff) ;;;
      outb 0x1f5 (Z.land (Z.shiftr sector 16) 0xff) ;;;
      outb 0x1f6 (Z.lor (Z.lor 0xe0 (Z.shiftl (Z.land (i_dev b) 1) 4)) (Z.land (Z.shiftr sector 24) 0x0f)) ;;;
      if negb (Z.land (i_flags b) B_DIRTY =? 0) then outb 0x1f7 write_cmd ;;; outsl (i_data b)
      else outb 0x1f7 read_cmd
  end.

Definition ideintr : I unit :=
  let! s := get in
  match idequeue s with
  | None => ret tt
  | Some i =>
      let b := d_bufs s i in
      modify (set_queue (i_qnext b)) ;;;
      (if Z.land (i_flags b) B_DIRTY =? 0 then
         let! r := idewait polls true in
         if 0 <=? r then let! v := insl in upd_ibuf i (set_i_data v) else ret tt
       else ret tt) ;;;
      upd_ibuf i (fun b => set_i_flags (Z.lor (i_flags b) B_VALID) b) ;;;
      upd_ibuf i (fun b => set_i_flags (Z.ldiff (i_flags b) B_DIRTY) b) ;;;
      wakeup i ;;;
      let! s := get in
      match idequeue s with
      | None => ret tt
      | Some _ => idestart (idequeue s)
      end
  end.

(** [for(pp = &idequeue; *pp; pp = &( *pp)->qnext)] and [*pp = b]. *)
Fixpoint insert_after (fuel : nat) (i : nat) (b : nat) : I unit :=
  match fuel with
  | O => spin
  | S fuel' =>
      let! s := get in
      match i_qnext (d_bufs s i) with
      | None => upd_ibuf i (set_i_qnext (Some b))
      | Some j => insert_after fuel' j b
      end
  end.
Definition insert_queue (fuel : nat) (b : nat) : I unit :=
  let! s := get in
  match idequeue s with
  | None => modify (set_queue (Some b))
  | Some i => insert_after fuel i b
  end.

(** [iderw] up to its wait: the request is on the queue. *)
Definition iderw_request (fuel : nat) (i : nat) : I unit :=
  let! s := get in
  let b := d_bufs s i in
  if negb (i_locked b) then panic "iderw: buf not locked" else
  if Z.land (i_flags b) (Z.lor B_VALID B_DIRTY) =? B_VALID then panic "iderw: nothing to do" else
  if negb (i_dev b =? 0) && negb (havedisk1 s) then panic "iderw: ide disk 1 not present" else
  upd_ibuf i (set_i_qnext None) ;;;
  insert_queue fuel i ;;;
  let! s := get in
  if bool_decide (idequeue s = Some i) then idestart (Some i) else ret tt.

(** The [while]: [sleep] gives the processor up with the request on the queue. *)
Definition iderw_wait (i : nat) : I unit :=
  let! s := get in
  if Z.land (i_flags (d_bufs s i)) (Z.lor B_VALID B_DIRTY) =? B_VALID then ret tt else fun s => Swtch s.

Definition iderw (fuel : nat) (i : nat) : I unit := iderw_request fuel i ;;; iderw_wait i.

End Driver.
Arguments ide D : clear implicits.

(** ** What the driver relies on *)

Definition drive_of (r : Z -> Z) : Z := Z.land (Z.shiftr (r 0x1f6) 4) 1.
Definition lba_of (r : Z -> Z) : Z := r 0x1f3 + 2 ^ 8 * r 0x1f4 + 2 ^ 16 * r 0x1f5 + 2 ^ 24 * Z.land (r 0x1f6) 0xf.

(** [regs] is the task file, [stored] the sectors of each drive, [loaded] what [insl] would
    read, [busy] how many polls are left before the drive is ready, [failed] whether it
    reports an error then. *)
Class AtaLaws (D : Type) `{Ata D} (polls : nat) : Type := {
  regs : D -> Z -> Z;
  stored : D -> Z -> Z -> list Z;
  loaded : D -> list Z;
  busy : D -> nat;
  failed : D -> bool;
  ata_busy d : (busy d < polls)%nat;
  ata_poll d : let d' := (inb_status d).2 in
    regs d' = regs d /\ stored d' = stored d /\ loaded d' = loaded d /\ failed d' = failed d /\
    (is_ready (inb_status d).1 = true <-> busy d = 0%nat) /\ busy d' = pred (busy d);
  ata_error d : is_ready (inb_status d).1 = true -> (Z.land (inb_status d).1 (Z.lor IDE_DF IDE_ERR) =? 0) = negb (failed d);
  ata_control d : let d' := outb_port 0x3f6 0 d in regs d' = regs d /\ stored d' = stored d;
  ata_register p v d q : 0x1f2 <= p <= 0x1f6 -> let d' := outb_port p v d in
    regs d' q = (if q =? p then v else regs d q) /\ stored d' = stored d;
  ata_read d : regs d 0x1f2 = 1 -> let d' := outb_port 0x1f7 IDE_CMD_READ d in
    loaded d' = stored d (drive_of (regs d)) (lba_of (regs d)) /\ stored d' = stored d;
  ata_write d v dr l : regs d 0x1f2 = 1 -> let d' := outsl_data v (outb_port 0x1f7 IDE_CMD_WRITE d) in
    stored d' dr l = if (dr =? drive_of (regs d)) && (l =? lba_of (regs d)) then v else stored d dr l;
  ata_insl d : (insl_data d).1 = loaded d /\ stored (insl_data d).2 = stored d }.

Section Laws.
Context {D : Type} `{HA : Ata D} (polls : nat) `{HL : !AtaLaws D polls}.

(** ** Ports *)

Lemma idewait_ok check n : forall s, (busy (d_disk s) < n)%nat ->
  exists d', idewait n check s = Ok (if check && failed (d_disk s) then -1 else 0) (set_disk d' s) /\
    regs d' = regs (d_disk s) /\ stored d' = stored (d_disk s) /\ loaded d' = loaded (d_disk s).
Proof.
  induction n as [|n IH]; intros s Hn; [lia|]. cbn [idewait]. unfold bind at 1, inb.
  destruct (ata_poll (d_disk s)) as (P1 & P2 & P3 & P4 & P5 & P6). pose proof (ata_error (d_disk s)) as P7. destruct (inb_status (d_disk s)) as [r d1]. cbn [fst snd] in *.
  destruct (is_ready r) eqn:ER; cbn [negb].
  - rewrite (P7 eq_refl), negb_involutive. exists d1. destruct (check && failed (d_disk s)); done.
  - assert (busy (d_disk s) <> 0%nat) by (intros HB; apply P5 in HB; congruence).
    destruct (IH (set_disk d1 s)) as (d' & E & Q1 & Q2 & Q3); [cbn; lia|]. cbn [d_disk set_disk] in *.
    exists d'. rewrite E, P4. split; [done|]. by rewrite Q1, Q2, Q3, P1, P2, P3.
Qed.

(** The sector number comes back from the four registers. *)
Lemma lba_split n : 0 <= n < FSSIZE ->
  Z.land n 0xff + 2 ^ 8 * Z.land (Z.shiftr n 8) 0xff + 2 ^ 16 * Z.land (Z.shiftr n 16) 0xff = n /\ Z.shiftr n 24 = 0.
Proof.
  intros Hn. change 0xff with (Z.ones 8). rewrite !Z.land_ones, !Z.shiftr_div_pow2 by lia. unfold FSSIZE in Hn.
  split; [|apply Z.div_small; lia].
  assert (E : n / 2 ^ 16 = n / 2 ^ 8 / 2 ^ 8) by (rewrite Z.div_div by lia; done). rewrite E.
  pose proof (Z.div_mod n (2 ^ 8)). pose proof (Z.div_mod (n / 2 ^ 8) (2 ^ 8)). pose proof (Z.mod_pos_bound n (2 ^ 8)).
  assert (n / 2 ^ 8 / 2 ^ 8 < 2 ^ 8) by (rewrite Z.div_div by lia; apply Z.div_lt_upper_bound; lia).
  assert (0 <= n / 2 ^ 8 / 2 ^ 8) by (apply Z.div_pos; [apply Z.div_pos; lia|lia]). rewrite (Z.mod_small (n / 2 ^ 8 / 2 ^ 8)) by lia. lia.
Qed.

Definition dirty (b : ibuf) : bool := negb (Z.land (i_flags b) B_DIRTY =? 0).

(** The sectors after the request of a buffer was given to the drive. *)
Definition after_request (b : ibuf) (st : Z -> Z -> list Z) (dr l : Z) : list Z :=
  if dirty b && ((dr =? i_dev b) && (l =? i_blockno b)) then i_data b else st dr l.

Definition request_ok (b : ibuf) : Prop := 0 <= i_blockno b < FSSIZE /\ (i_dev b = 0 \/ i_dev b = 1).

Definition program (b : ibuf) (d : D) : D :=
  outb_port 0x1f6 (Z.lor (Z.lor 0xe0 (Z.shiftl (Z.land (i_dev b) 1) 4)) (Z.land (Z.shiftr (i_blockno b) 24) 0x0f))
   (outb_port 0x1f5 (Z.land (Z.shiftr (i_blockno b) 16) 0xff)
    (outb_port 0x1f4 (Z.land (Z.shiftr (i_blockno b) 8) 0xff)
     (outb_port 0x1f3 (Z.land (i_blockno b) 0xff) (outb_port 0x1f2 1 (outb_port 0x3f6 0 d))))).

Lemma program_ok b d : request_ok b ->
  regs (program b d) 0x1f2 = 1 /\ drive_of (regs (program b d)) = i_dev b /\ lba_of (regs (program b d)) = i_blockno b /\ stored (program b d) = stored d.
Proof.
  intros [Hn Hd]. destruct (lba_split _ Hn) as [EL E0].
  assert (R : forall p v d' q, 0x1f2 <= p <= 0x1f6 -> regs (outb_port p v d') q = if q =? p then v else regs d' q) by (intros; by apply ata_register).
  assert (R2 : regs (program b d) 0x1f2 = 1) by (unfold program; by do 5 (rewrite R by lia; cbn [Z.eqb Pos.eqb])).
  assert (R3 : regs (program b d) 0x1f3 = Z.land (i_blockno b) 0xff) by (unfold program; by do 4 (rewrite R by lia; cbn [Z.eqb Pos.eqb])).
  assert (R4 : regs (program b d) 0x1f4 = Z.land (Z.shiftr (i_blockno b) 8) 0xff) by (unfold program; by do 3 (rewrite R by lia; cbn [Z.eqb Pos.eqb])).
  assert (R5 : regs (program b d) 0x1f5 = Z.land (Z.shiftr (i_blockno b) 16) 0xff) by (unfold program; by do 2 (rewrite R by lia; cbn [Z.eqb Pos.eqb])).
  assert (R6 : regs (program b d) 0x1f6 = Z.lor 0xe0 (Z.shiftl (i_dev b) 4)) by (unfold program; rewrite R, E0 by lia; by destruct Hd as [-> | ->]).
  split; [done|]. unfold drive_of, lba_of. rewrite R3, R4, R5, R6. split; [by destruct Hd as [-> | ->]|].
  split; [assert (E6 : Z.land (Z.lor 0xe0 (Z.shiftl (i_dev b) 4)) 0xf = 0) by (by destruct Hd as [-> | ->]); rewrite E6; lia|].
  assert (S5 : forall p v d', 0x1f2 <= p <= 0x1f6 -> stored (outb_port p v d') = stored d') by (intros p v d' Hp; apply (ata_register p v d' 0 Hp)).
  unfold program. rewrite !S5 by lia. apply ata_control.
Qed.

Lemma idestart_ok s i : request_ok (d_bufs s i) ->
  exists d', idestart polls (Some i) s = Ok tt (set_disk d' s) /\
    (forall dr l, stored d' dr l = after_request (d_bufs s i) (stored (d_disk s)) dr l) /\
    (dirty (d_bufs s i) = false -> loaded d' = stored (d_disk s) (i_dev (d_bufs s i)) (i_blockno (d_bufs s i))).
Proof.
  intros HR. pose proof HR as [Hn Hd]. set (b := d_bufs s i) in *. unfold idestart. mget. fold b.
  destruct (Z.leb_spec FSSIZE (i_blockno b)); [lia|]. change (BSIZE / SECTOR_SIZE) with 1. cbn [Z.eqb Pos.eqb Z.ltb Z.compare Pos.compare Pos.compare_cont].
  rewrite Z.mul_1_r, i32_small by (unfold FSSIZE in Hn; lia).
  destruct (idewait_ok false polls s (ata_busy _)) as (d1 & E1 & _ & S1 & _). mstep E1.
  destruct (program_ok b d1 HR) as (P1 & P2 & P3 & P4).
  unfold bind, outb, modify. cbn [set_disk d_disk]. fold (program b d1). unfold after_request, dirty. destruct (Z.land (i_flags b) B_DIRTY =? 0); cbn [negb andb].
  - exists (outb_port 0x1f7 IDE_CMD_READ (program b d1)). split; [done|]. destruct (ata_read (program b d1) P1) as [R1 R2]. rewrite R2, R1, P2, P3, P4, S1. done.
  - exists (outsl_data (i_data b) (outb_port 0x1f7 IDE_CMD_WRITE (program b d1))). split; [done|]. split; [|done]. intros dr l.
    rewrite (ata_write (program b d1) (i_data b) dr l P1), P2, P3, P4, S1. done.
Qed.


(** ** The queue *)

Fixpoint links (bs : nat -> ibuf) (q : option nat) (l : list nat) : Prop :=
  match l with
  | [] => q = None
  | i :: l' => q = Some i /\ links bs (i_qnext (bs i)) l'
  end.

(** A request that is not finished. *)
Definition pending (b : ibuf) : Prop := (Z.land (i_flags b) (Z.lor B_VALID B_DIRTY) =? B_VALID) = false.

(** The drive works on the request of [i]. *)
Definition active (s : ide D) (i : nat) : Prop :=
  let b := d_bufs s i in
  (dirty b = true -> stored (d_disk s) (i_dev b) (i_blockno b) = i_data b) /\
  (dirty b = false -> loaded (d_disk s) = stored (d_disk s) (i_dev b) (i_blockno b)).

Record queue_ok (s : ide D) (l : list nat) : Prop := {
  q_links : links (d_bufs s) (idequeue s) l;
  q_nodup : NoDup l;
  q_requests : Forall (fun i => request_ok (d_bufs s i) /\ pending (d_bufs s i)) l;
  q_active : match l with i :: _ => active s i | [] => True end }.

(** The same buffer but for its place in the queue. *)
Definition same_buf (b b' : ibuf) : Prop := set_i_qnext None b' = set_i_qnext None b.

Lemma upd_eq i f bs : upd i f bs i = f (bs i).
Proof. unfold upd. by rewrite Nat.eqb_refl. Qed.
Lemma upd_ne i f bs j : j <> i -> upd i f bs j = bs j.
Proof. unfold upd. intros Hj. by rewrite (proj2 (Nat.eqb_neq _ _) Hj). Qed.

Lemma same_request b b' : same_buf b b' -> request_ok b -> request_ok b'.
Proof. destruct b, b'. intros [= -> -> -> -> ->]. done. Qed.

Lemma same_pending b b' : same_buf b b' -> pending b -> pending b'.
Proof. destruct b, b'. intros [= -> -> -> -> ->]. done. Qed.

Lemma links_frame bs bs' q l : (forall j, j ∈ l -> i_qnext (bs' j) = i_qnext (bs j)) -> links bs q l -> links bs' q l.
Proof.
  revert q. induction l as [|i l IH]; intros q H1; [done|]. intros [-> H2]. split; [done|]. rewrite H1 by (by left).
  apply IH; [|done]. intros j Hj. apply H1. by right.
Qed.

Lemma insert_after_ok b l : forall i fuel (s : ide D),
  links (d_bufs s) (Some i) (i :: l) -> NoDup (i :: l) -> b ∉ i :: l -> i_qnext (d_bufs s b) = None -> (length l < fuel)%nat ->
  exists bs', insert_after fuel i b s = Ok tt (set_bufs bs' s) /\ links bs' (Some i) (i :: l ++ [b]) /\
    (forall j, same_buf (d_bufs s j) (bs' j)) /\ (forall j, j ∉ i :: l -> bs' j = d_bufs s j).
Proof.
  induction l as [|j l IH]; intros i [|fuel] s HK ND Hb Hq HF; try (cbn in HF; lia); cbn [insert_after]; mget; cbn [links] in HK; destruct HK as [_ HK].
  - rewrite HK. eexists. split; [done|]. assert (b <> i) by (intros ->; apply Hb; by left). cbn [links app]. rewrite upd_eq, upd_ne by done. split; [by rewrite Hq|]. split.
    + intros j. unfold same_buf, upd. by destruct (Nat.eqb j i).
    + intros j Hj. apply upd_ne. intros ->. apply Hj. by left.
  - destruct HK as [HK1 HK2]. rewrite HK1. apply NoDup_cons in ND as [Hi ND]. apply not_elem_of_cons in Hb as [Hbi Hb].
    destruct (IH j fuel s) as (bs' & E & K1 & K2 & K3); [by split|done|done|done|cbn in HF; lia|].
    exists bs'. split; [done|]. split; [|split; [done|]].
    + split; [done|]. rewrite (K3 i) by done. rewrite HK1. exact K1.
    + intros k [Hk1 Hk2]%not_elem_of_cons. by apply K3.
Qed.

Lemma insert_queue_ok b l fuel (s : ide D) :
  links (d_bufs s) (idequeue s) l -> NoDup l -> b ∉ l -> i_qnext (d_bufs s b) = None -> (length l <= fuel)%nat ->
  exists s', insert_queue fuel b s = Ok tt s' /\ links (d_bufs s') (idequeue s') (l ++ [b]) /\
    (forall j, same_buf (d_bufs s j) (d_bufs s' j)) /\ idequeue s' = Some (hd b l) /\ d_disk s' = d_disk s /\ d_woken s' = d_woken s /\ havedisk1 s' = havedisk1 s.
Proof.
  intros HK ND Hb Hq HF. unfold insert_queue. mget. destruct l as [|i l].
  - cbn in HK. rewrite HK. exists (set_queue (Some b) s). split; [done|]. split; [by cbn|]. split; [by intros j|]. done.
  - pose proof (proj1 HK) as EQ. rewrite EQ in *. destruct (insert_after_ok b l i fuel s HK ND Hb Hq) as (bs' & E & K1 & K2 & _); [cbn in HF; lia|].
    exists (set_bufs bs' s). rewrite E. split; [done|]. cbn [d_bufs idequeue set_bufs]. by rewrite EQ.
Qed.

(** A buffer joins the queue. *)
Lemma request_joins (s : ide D) l i fuel : queue_ok s l -> i ∉ l -> i_locked (d_bufs s i) = true -> pending (d_bufs s i) -> request_ok (d_bufs s i) ->
  i_dev (d_bufs s i) = 0 \/ havedisk1 s = true -> (length l <= fuel)%nat ->
  exists s', iderw_request polls fuel i s = Ok tt s' /\ queue_ok s' (l ++ [i]) /\ (forall j, same_buf (d_bufs s j) (d_bufs s' j)) /\
    (forall dr b, stored (d_disk s') dr b = match l with [] => after_request (d_bufs s i) (stored (d_disk s)) dr b | _ :: _ => stored (d_disk s) dr b end) /\ d_woken s' = d_woken s /\ havedisk1 s' = havedisk1 s.
Proof.
  intros [K ND R A] Hi Hl Hp Hr Hd HF. unfold iderw_request. mget. rewrite Hl. cbn [negb]. unfold pending in Hp. rewrite Hp.
  assert (ED : negb (i_dev (d_bufs s i) =? 0) && negb (havedisk1 s) = false).
  { destruct Hd as [-> | ->]; [done|]. apply andb_false_r. }
  rewrite ED. unfold upd_ibuf at 1, modify. unfold bind at 1. set (s1 := set_bufs _ s).
  assert (U : forall j, same_buf (d_bufs s j) (d_bufs s1 j)) by (intros j; unfold same_buf; cbn; unfold upd; by destruct (Nat.eqb j i)).
  destruct (insert_queue_ok i l fuel s1) as (s2 & E2 & K2 & U2 & Q2 & D2 & W2 & H2); [| done|done|cbn; by rewrite upd_eq|done|].
  { eapply links_frame; [|exact K]. intros j Hj. cbn. rewrite upd_ne; [done|]. by intros ->. }
  mstep E2. mget. assert (U3 : forall j, same_buf (d_bufs s j) (d_bufs s2 j)) by (intros j; unfold same_buf in *; by rewrite U2, U).
  assert (R2 : Forall (fun j => request_ok (d_bufs s2 j) /\ pending (d_bufs s2 j)) (l ++ [i])).
  { apply Forall_app. split; [|apply Forall_singleton; exact (conj (same_request _ _ (U3 i) Hr) (same_pending _ _ (U3 i) Hp))].
    eapply Forall_impl; [exact R|]. intros j [J1 J2]. exact (conj (same_request _ _ (U3 j) J1) (same_pending _ _ (U3 j) J2)). }
  assert (ND2 : NoDup (l ++ [i])) by (apply NoDup_app; split; [done|]; split; [set_solver|apply NoDup_singleton]).
  rewrite Q2. destruct l as [|k l]; cbn [hd].
  - rewrite bool_decide_eq_true_2 by done. apply Forall_app in R2 as [_ R2]. pose proof R2 as R2'. apply Forall_singleton in R2' as [R3 R4].
    destruct (idestart_ok s2 i R3) as (d' & E' & S' & L'). exists (set_disk d' s2). split; [done|].
    assert (EB : dirty (d_bufs s2 i) = dirty (d_bufs s i) /\ i_dev (d_bufs s2 i) = i_dev (d_bufs s i) /\ i_blockno (d_bufs s2 i) = i_blockno (d_bufs s i) /\ i_data (d_bufs s2 i) = i_data (d_bufs s i)).
    { specialize (U3 i). unfold dirty. destruct (d_bufs s2 i), (d_bufs s i). unfold same_buf in U3. cbn in *. by simplify_eq. }
    destruct EB as (B1 & B2 & B3 & B4). split; [split; [done|done|done|]|].
    + cbn [app]. split; cbn [d_bufs d_disk set_disk]; intros Hdi; [rewrite S'; unfold after_request; rewrite Hdi, !Z.eqb_refl; done|].
      rewrite (L' Hdi), S'. unfold after_request. by rewrite Hdi.
    + split; [done|]. split; [|done]. cbn [d_disk set_disk]. intros dr b. rewrite S'. unfold after_request. by rewrite B1, B2, B3, B4, D2.
  - rewrite bool_decide_eq_false_2 by (intros [= ->]; apply Hi; by left). exists s2. split; [done|]. split; [split; [done|done|done|]|].
    + cbn [app]. unfold active in *. rewrite D2. cbn [d_disk s1 set_bufs]. specialize (U3 k). unfold dirty in *.
      destruct (d_bufs s2 k), (d_bufs s k). unfold same_buf in U3. cbn in *. by simplify_eq.
    + split; [done|]. split; [|done]. intros dr b. by rewrite D2.
Qed.

Lemma finished_flags f : Z.land (Z.ldiff (Z.lor f B_VALID) B_DIRTY) (Z.lor B_VALID B_DIRTY) = B_VALID.
Proof.
  apply Z.bits_inj'. intros n Hn. rewrite Z.land_spec, Z.ldiff_spec, Z.lor_spec. unfold B_VALID, B_DIRTY. cbn [Z.lor Pos.lor].
  destruct (decide (n < 3)) as [H3|H3].
  - assert (n = 0 \/ n = 1 \/ n = 2) as [-> | [-> | ->]] by lia; cbn; rewrite ?orb_true_r, ?andb_false_r; done.
  - rewrite !(Z.bits_above_log2 6), !(Z.bits_above_log2 2) by (cbn; lia). by rewrite andb_false_r.
Qed.

(** What the first request of the queue comes to. *)
Definition finished (s : ide D) (b : ibuf) : ibuf :=
  mk_ibuf (Z.ldiff (Z.lor (i_flags b) B_VALID) B_DIRTY) (i_dev b) (i_blockno b) (i_locked b) (i_qnext b)
    (if dirty b || failed (d_disk s) then i_data b else stored (d_disk s) (i_dev b) (i_blockno b)).

Definition start_next (s : ide D) (l : list nat) (dr b : Z) : list Z :=
  match l with j :: _ => after_request (d_bufs s j) (stored (d_disk s)) dr b | [] => stored (d_disk s) dr b end.

Definition transferred (s : ide D) (b : ibuf) : list Z :=
  if dirty b || failed (d_disk s) then i_data b else loaded (d_disk s).

(** The data of the buffer after the transfer. *)
Lemma transfer_ok (s : ide D) i :
  exists bs' d', (if Z.land (i_flags (d_bufs s i)) B_DIRTY =? 0 then
       let! r := idewait polls true in
       if 0 <=? r then let! v := insl in upd_ibuf i (set_i_data v) else ret tt
     else ret tt) s = Ok tt (set_disk d' (set_bufs bs' s)) /\ stored d' = stored (d_disk s) /\
    bs' i = set_i_data (transferred s (d_bufs s i)) (d_bufs s i) /\ forall j, j <> i -> bs' j = d_bufs s j.
Proof.
  unfold transferred, dirty. destruct (Z.land (i_flags (d_bufs s i)) B_DIRTY =? 0); cbn [negb orb].
  - destruct (idewait_ok true polls s (ata_busy _)) as (d1 & E1 & _ & S1 & L1). mstep E1. cbn [andb]. destruct (failed (d_disk s)); cbn [Z.leb Z.compare].
    + exists (d_bufs s), d1. split; [by destruct s|]. split; [done|]. split; [by destruct (d_bufs s i)|done].
    + unfold bind, insl. cbn [d_disk set_disk]. destruct (ata_insl d1) as [I1 I2]. destruct (insl_data d1) as [v d2]. cbn [fst snd] in *.
      exists (upd i (set_i_data v) (d_bufs s)), d2. split; [reflexivity|]. split; [by rewrite I2|]. split; [by rewrite upd_eq, I1, L1|]. intros j Hj. by apply upd_ne.
  - exists (d_bufs s), (d_disk s). split; [by destruct s|]. split; [done|]. split; [by destruct (d_bufs s i)|done].
Qed.

(** An interrupt serves the first request and starts the next. *)
Lemma interrupt_ok (s : ide D) i l : queue_ok s (i :: l) ->
  exists s', ideintr polls s = Ok tt s' /\ queue_ok s' l /\ d_bufs s' i = finished s (d_bufs s i) /\ (forall j, j <> i -> d_bufs s' j = d_bufs s j) /\
    (forall dr b, stored (d_disk s') dr b = start_next s l dr b) /\ d_woken s' = d_woken s ++ [i] /\ havedisk1 s' = havedisk1 s.
Proof.
  intros [[EQ K] ND R A]. apply NoDup_cons in ND as [Hi ND]. apply Forall_cons in R as [_ R]. unfold ideintr. mget. rewrite EQ.
  set (b := d_bufs s i) in *. unfold modify at 1. unfold bind at 1.
  destruct (transfer_ok (set_queue (i_qnext b) s) i) as (bs & d & E & S1 & B1 & B2). cbn [d_bufs set_queue] in E, B1, B2. fold b in E. mstep E.
  unfold upd_ibuf, wakeup, modify, get. unfold bind at 1 2 3 4. set (s3 := set_woken _ _).
  assert (Q3 : idequeue s3 = i_qnext b) by done. assert (D3 : d_disk s3 = d) by done. assert (W3 : d_woken s3 = d_woken s ++ [i] /\ havedisk1 s3 = havedisk1 s) by done.
  assert (B3 : d_bufs s3 i = finished s b).
  { unfold s3. cbn [d_bufs set_woken set_bufs set_disk]. rewrite !upd_eq, B1. unfold finished, transferred. cbn [d_disk set_queue]. fold b.
    destruct A as [_ A]. fold b in A. destruct (dirty b) eqn:ED; [done|]. cbn [orb]. destruct (failed (d_disk s)); [done|]. by rewrite A. }
  assert (B4 : forall j, j <> i -> d_bufs s3 j = d_bufs s j).
  { intros j Hj. unfold s3. cbn [d_bufs set_woken set_bufs set_disk]. rewrite !upd_ne by done. by apply B2. }
  clearbody s3. clear E. assert (K3 : links (d_bufs s3) (idequeue s3) l).
  { rewrite Q3. eapply links_frame; [|exact K]. intros j Hj. rewrite B4; [done|]. by intros ->. }
  assert (R3 : Forall (fun j => request_ok (d_bufs s3 j) /\ pending (d_bufs s3 j)) l).
  { rewrite Forall_forall in *. intros j Hj. rewrite B4 by (by intros ->). by apply R. }
  destruct l as [|j l].
  - cbn in K3. rewrite K3. exists s3. split; [done|]. split; [done|]. split; [done|]. split; [done|]. split; [|done]. intros dr x. by rewrite D3, S1.
  - pose proof (proj1 K3) as E3. rewrite E3. pose proof R3 as R3'. apply Forall_cons in R3' as [[Rj _] _].
    assert (Bj : d_bufs s3 j = d_bufs s j) by (apply B4; intros ->; apply Hi; by left).
    destruct (idestart_ok s3 j Rj) as (d' & E' & S' & L'). exists (set_disk d' s3). split; [done|]. split; [|split; [done|split; [done|split; [|done]]]].
    + split; [done|done|done|]. split; cbn [d_bufs d_disk set_disk]; intros Hdi; [rewrite S'; unfold after_request; by rewrite Hdi, !Z.eqb_refl|].
      rewrite (L' Hdi), S'. unfold after_request. by rewrite Hdi.
    + cbn [d_disk set_disk start_next]. intros dr x. rewrite S', Bj. unfold after_request. by rewrite D3, S1.
Qed.

Lemma interrupt_idle (s : ide D) : queue_ok s [] -> ideintr polls s = Ok tt s.
Proof. intros [K _ _ _]. unfold ideintr. mget. cbn in K. by rewrite K. Qed.


(** ** The abstract disk

    A disk that takes requests one by one and performs each at once: the contents
    [v_store] of the drives, the buffers, the requests made and not performed, and the
    requests performed, in order. *)

Record vdisk : Type := mk_vdisk {
  v_store : Z -> Z -> list Z; v_bufs : nat -> ibuf; v_queue : list nat; v_served : list nat }.

(** A request names the buffer and what the caller put in it. *)
Inductive op : Type := Request (i : nat) (b : ibuf) | Interrupt.

(** The request performed: a dirty buffer goes to its block, any other one is filled
    from it unless the drive failed; the buffer ends valid and clean. *)
Definition perform (err : bool) (v : vdisk) (i : nat) : vdisk :=
  let b := v_bufs v i in
  let data := if dirty b || err then i_data b else v_store v (i_dev b) (i_blockno b) in
  mk_vdisk (after_request b (v_store v))
    (upd i (fun b => set_i_flags (Z.ldiff (Z.lor (i_flags b) B_VALID) B_DIRTY) (set_i_data data b)) (v_bufs v))
    (tail (v_queue v)) (v_served v ++ [i]).

Definition disk_step (err : bool) (o : op) (v : vdisk) : vdisk :=
  match o with
  | Request i b => mk_vdisk (v_store v) (upd i (fun _ => b) (v_bufs v)) (v_queue v ++ [i]) (v_served v)
  | Interrupt => match v_queue v with [] => v | i :: _ => perform err v i end
  end.

(** ** The driver implements it *)

(** The owner of a buffer writes its fields, all but the link of the queue. *)
Definition fill (i : nat) (b : ibuf) : M (ide D) unit := upd_ibuf i (fun old => set_i_qnext (i_qnext old) b).

Definition ide_step (fuel : nat) (o : op) : M (ide D) unit :=
  match o with
  | Request i b => fill i b ;;; iderw_request polls fuel i
  | Interrupt => ideintr polls
  end.

(** The driver and the abstract disk side by side; the drive decides which reads fail. *)
Inductive runs (fuel : nat) : list op -> ide D -> vdisk -> ide D -> vdisk -> Prop :=
| runs_nil s v : runs fuel [] s v s v
| runs_cons o ops s v s1 s' v' :
    ide_step fuel o s = Ok tt s1 -> runs fuel ops s1 (disk_step (failed (d_disk s)) o v) s' v' ->
    runs fuel (o :: ops) s v s' v'.

(** What the drives hold: the first request of the queue has been given to the drive. *)
Definition ahead (v : vdisk) : Z -> Z -> list Z :=
  match v_queue v with i :: _ => after_request (v_bufs v i) (v_store v) | [] => v_store v end.

Record refines (s : ide D) (v : vdisk) : Prop := {
  r_queue : queue_ok s (v_queue v);
  r_bufs i : same_buf (v_bufs v i) (d_bufs s i);
  r_store dr l : stored (d_disk s) dr l = ahead v dr l;
  r_woken : d_woken s = v_served v }.

(** The requests that callers may make: of a buffer that is locked and not already
    queued, with something to do, for a block of a drive that is there. *)
Definition allowed (have1 : bool) (q : list nat) (o : op) : Prop :=
  match o with
  | Request i b => i ∉ q /\ i_locked b = true /\ pending b /\ request_ok b /\ (i_dev b = 0 \/ have1 = true)
  | Interrupt => True
  end.

Definition next_queue (o : op) (q : list nat) : list nat :=
  match o with Request i _ => q ++ [i] | Interrupt => tail q end.

Fixpoint all_allowed (have1 : bool) (q : list nat) (ops : list op) : Prop :=
  match ops with
  | [] => True
  | o :: ops' => allowed have1 q o /\ all_allowed have1 (next_queue o q) ops'
  end.

Definition requests (ops : list op) : list nat := omap (fun o => match o with Request i _ => Some i | Interrupt => None end) ops.

Definition served (b : ibuf) : Prop := Z.land (i_flags b) (Z.lor B_VALID B_DIRTY) = B_VALID.

Lemma same_after b b' st dr l : same_buf b b' -> after_request b' st dr l = after_request b st dr l.
Proof. destruct b, b'. intros [= -> -> -> -> ->]. done. Qed.

Lemma same_served b b' : same_buf b b' -> served b -> served b'.
Proof. destruct b, b'. intros [= -> -> -> -> ->]. done. Qed.

Lemma disk_step_queue err o v : v_queue (disk_step err o v) = next_queue o (v_queue v).
Proof. destruct o; [done|]. unfold disk_step, perform. by destruct (v_queue v) eqn:E; cbn [v_queue]; rewrite ?E. Qed.

(** The owner of a buffer that is not queued may write it. *)
Lemma fill_ok s q i b : queue_ok s q -> i ∉ q ->
  exists s', fill i b s = Ok tt s' /\ queue_ok s' q /\ same_buf b (d_bufs s' i) /\ (forall j, j <> i -> d_bufs s' j = d_bufs s j) /\
    d_disk s' = d_disk s /\ d_woken s' = d_woken s /\ havedisk1 s' = havedisk1 s.
Proof.
  intros [K ND R A] Hi. unfold fill, upd_ibuf, modify. set (s1 := set_bufs _ s).
  assert (N : forall j, j <> i -> d_bufs s1 j = d_bufs s j) by (intros j Hj; by apply upd_ne).
  assert (Nq : forall j, j ∈ q -> d_bufs s1 j = d_bufs s j) by (intros j Hj; apply N; by intros ->).
  exists s1. split; [done|]. split; [|split; [unfold s1; cbn; by rewrite upd_eq|done]]. split; [|done| |].
  - eapply links_frame; [|exact K]. intros j Hj. by rewrite Nq.
  - rewrite Forall_forall in *. intros j Hj. rewrite Nq by done. by apply R.
  - destruct q as [|k q]; [done|]. unfold active. rewrite Nq by (by left). exact A.
Qed.

Lemma request_refines s v i b fuel : refines s v -> allowed (havedisk1 s) (v_queue v) (Request i b) -> (length (v_queue v) <= fuel)%nat ->
  exists s', ide_step fuel (Request i b) s = Ok tt s' /\ refines s' (disk_step (failed (d_disk s)) (Request i b) v) /\ havedisk1 s' = havedisk1 s.
Proof.
  intros [Q B S W] (Hi & Hl & Hp & Hr & Hd) HF. destruct (fill_ok s (v_queue v) i b Q Hi) as (s1 & E1 & Q1 & B1 & N1 & D1 & W1 & H1). cbn [ide_step]. mstep E1.
  assert (Hb : i_locked (d_bufs s1 i) = true /\ i_dev (d_bufs s1 i) = i_dev b) by (clear -B1 Hl; destruct (d_bufs s1 i), b; unfold same_buf in B1; cbn in *; by simplify_eq).
  destruct (request_joins s1 (v_queue v) i fuel Q1 Hi) as (s2 & E2 & Q2 & B2 & S2 & W2 & H2); [by apply Hb|by eapply same_pending|by eapply same_request|by rewrite H1, (proj2 Hb)|done|].
  assert (BA : forall j, same_buf (upd i (fun _ => b) (v_bufs v) j) (d_bufs s2 j)).
  { intros j. specialize (B2 j). unfold same_buf in *. rewrite B2. destruct (decide (j = i)) as [->|Hj]; [by rewrite upd_eq|]. rewrite upd_ne, N1 by done. apply B. }
  exists s2. split; [done|]. split; [|by rewrite H2]. split; cbn [disk_step v_queue v_bufs v_served]; [done|done| |by rewrite W2, W1].
  intros dr l. rewrite S2, D1. unfold ahead in *. cbn [v_queue v_store v_bufs]. destruct (v_queue v) as [|k q]; cbn [app].
  - rewrite upd_eq, (same_after b) by done. unfold after_request. by rewrite S.
  - rewrite upd_ne by (intros ->; apply Hi; by left). apply S.
Qed.

Lemma finished_same s v i : (forall dr l, stored (d_disk s) dr l = after_request (v_bufs v i) (v_store v) dr l) -> same_buf (v_bufs v i) (d_bufs s i) ->
  same_buf (v_bufs (perform (failed (d_disk s)) v i) i) (finished s (d_bufs s i)).
Proof.
  intros S B. unfold perform, finished. cbn [v_bufs]. rewrite upd_eq. unfold same_buf, set_i_flags, set_i_data, set_i_qnext. cbn [i_flags i_dev i_blockno i_locked i_qnext i_data].
  rewrite S. destruct (v_bufs v i) as [f d n k qn x], (d_bufs s i) as [f' d' n' k' qn' x']. injection B as -> -> -> -> ->. cbn [i_flags i_dev i_blockno i_locked i_qnext i_data].
  f_equal. unfold after_request, dirty. cbn [i_flags]. by destruct (Z.land f B_DIRTY =? 0).
Qed.

Lemma interrupt_refines s v fuel : refines s v ->
  exists s', ide_step fuel Interrupt s = Ok tt s' /\ refines s' (disk_step (failed (d_disk s)) Interrupt v) /\ havedisk1 s' = havedisk1 s.
Proof.
  intros HR. pose proof HR as [Q B S W]. unfold ahead in S. cbn [ide_step disk_step]. destruct (v_queue v) as [|i q] eqn:EQ.
  { exists s. split; [by apply interrupt_idle|done]. }
  destruct (interrupt_ok s i q Q) as (s' & E & Q' & F & B' & S' & W' & H'). exists s'. split; [done|]. split; [|done].
  assert (Hq : i ∉ q) by (destruct Q as [_ ND _ _]; by apply NoDup_cons in ND as [? _]).
  split; [unfold perform; cbn [v_queue]; by rewrite EQ| | |rewrite W', W; done].
  - intros j. destruct (decide (j = i)) as [->|Hj]; [rewrite F; by apply finished_same|]. rewrite B' by done. unfold perform. cbn [v_bufs]. rewrite upd_ne by done. apply B.
  - intros dr l. rewrite S'. unfold ahead, perform, start_next. cbn [v_queue v_store v_bufs]. rewrite EQ. cbn [tail]. destruct q as [|k q]; [apply S|].
    rewrite upd_ne by (intros ->; apply Hq; by left). rewrite (same_after _ _ _ _ _ (B k)). unfold after_request at 1 3. by rewrite S.
Qed.

(** Requests already made are on the queue or served. *)
Definition settled (v : vdisk) (made : list nat) : Prop := forall i, i ∈ made -> i ∈ v_queue v \/ served (v_bufs v i).

Lemma disk_step_settled err o v made : settled v made -> settled (disk_step err o v) (made ++ requests [o]).
Proof.
  intros H i Hi. destruct o as [k b|]; cbn [requests omap list_omap] in Hi.
  - cbn [disk_step v_queue v_bufs]. destruct (decide (i = k)) as [->|Hk]; [left; set_solver|]. rewrite upd_ne by done.
    destruct (H i) as [?|?]; [set_solver|left; set_solver|by right].
  - rewrite app_nil_r in Hi. cbn [disk_step]. destruct (v_queue v) as [|k q] eqn:EQ; [by apply H|]. unfold perform. cbn [v_queue v_bufs]. rewrite EQ. cbn [tail].
    destruct (decide (i = k)) as [->|Hk]; [right; rewrite upd_eq; apply finished_flags|]. rewrite upd_ne by done. destruct (H i Hi) as [Hq|?]; [|by right]. left. rewrite EQ in Hq. set_solver.
Qed.

Lemma disk_step_fifo err o v : v_served (disk_step err o v) ++ v_queue (disk_step err o v) = (v_served v ++ v_queue v) ++ requests [o].
Proof.
  destruct o as [k b|]; cbn [disk_step requests omap list_omap v_served v_queue]; [by rewrite app_assoc|]. rewrite app_nil_r.
  destruct (v_queue v) as [|k q] eqn:EQ; [by rewrite EQ|]. unfold perform. cbn [v_served v_queue]. rewrite EQ. cbn [tail]. by rewrite <- app_assoc.
Qed.

Lemma step_refines s v o fuel : refines s v -> allowed (havedisk1 s) (v_queue v) o -> (length (v_queue v) <= fuel)%nat ->
  exists s', ide_step fuel o s = Ok tt s' /\ refines s' (disk_step (failed (d_disk s)) o v) /\ havedisk1 s' = havedisk1 s.
Proof. destruct o; [apply request_refines|]. intros HR _ _. by apply interrupt_refines. Qed.

Lemma runs_ok fuel ops : forall s v made, refines s v -> settled v made -> all_allowed (havedisk1 s) (v_queue v) ops -> (length (v_queue v) + length ops <= fuel)%nat ->
  exists s' v', runs fuel ops s v s' v' /\ refines s' v' /\ settled v' (made ++ requests ops) /\ v_served v' ++ v_queue v' = (v_served v ++ v_queue v) ++ requests ops.
Proof.
  induction ops as [|o ops IH]; intros s v made HR HS HW HF; cbn [all_allowed length] in *.
  - exists s, v. rewrite !app_nil_r. split; [constructor|done].
  - destruct HW as [HO HW]. destruct (step_refines s v o fuel HR HO ltac:(lia)) as (s1 & E1 & R1 & H1).
    destruct (IH s1 (disk_step (failed (d_disk s)) o v) (made ++ requests [o])) as (s' & v' & E' & R' & S' & F'); [done|by apply disk_step_settled|by rewrite disk_step_queue, H1| |].
    { rewrite disk_step_queue. destruct o; cbn [next_queue]; rewrite ?length_app; cbn [length]; [lia|]. destruct (v_queue v); cbn in *; lia. }
    assert (EO : requests (o :: ops) = requests [o] ++ requests ops) by (by destruct o).
    exists s', v'. rewrite EO, !app_assoc. split; [by econstructor|]. split; [done|]. split; [done|]. by rewrite F', disk_step_fifo.
Qed.

(** C13: the IDE driver implements a disk that performs requests one at a time, first come,
    first served.  From an idle driver, for any sequence of calls of [iderw] (a
    buffer may be used again once it is off the queue) and disk interrupts: every
    step returns, and goes with a step of the abstract disk in which a write puts the
    buffer's data in its block and a read fills the buffer from it (or leaves it,
    when the drive reports an error).  At the end the buffers are those of the
    abstract disk; the drives hold its blocks, with the first request of the queue
    already given to its drive; the processes woken are those served, which followed
    by those queued are the requests in the order they were made; and a caller
    leaves the wait of [iderw] exactly when its request is off the queue. *)
Theorem ide_refines_disk fuel ops s : queue_ok s [] -> all_allowed (havedisk1 s) [] ops -> (length ops <= fuel)%nat ->
  exists s' v', runs fuel ops s (mk_vdisk (stored (d_disk s)) (d_bufs s) [] (d_woken s)) s' v' /\
    (forall i, same_buf (v_bufs v' i) (d_bufs s' i)) /\
    (forall dr l, stored (d_disk s') dr l = ahead v' dr l) /\
    match v_queue v' with i :: _ => active s' i | [] => True end /\
    d_woken s' = v_served v' /\ v_served v' ++ v_queue v' = d_woken s ++ requests ops /\
    (forall i, i ∈ requests ops -> iderw_wait i s' = if bool_decide (i ∈ v_queue v') then Swtch s' else Ok tt s').
Proof.
  intros HQ HW HF. destruct (runs_ok fuel ops s (mk_vdisk (stored (d_disk s)) (d_bufs s) [] (d_woken s)) []) as (s' & v' & E & [Q B S W] & HS & HO); cbn [v_queue v_served length]; [by split|by intros i ?%elem_of_nil|done|lia|].
  cbn [v_served v_queue] in HO. rewrite app_nil_r in HO. exists s', v'. do 6 (split; [done || apply Q|]).
  intros i Hi. unfold iderw_wait. mget. case_bool_decide as Hq.
  - destruct Q as [_ _ R _]. rewrite Forall_forall in R. destruct (R i Hq) as [_ HP]. unfold pending in HP. by rewrite HP.
  - destruct (HS i Hi) as [?|HV]; [done|]. by rewrite (same_served _ _ (B i) HV).
Qed.

End Laws.

(** ** Witnesses *)

(** A drive that is always ready. *)
Record drive : Type := mk_drive { dr_regs : Z -> Z; dr_sectors : Z -> Z -> list Z; dr_loaded : list Z }.

#[export] Instance drive_ata : Ata drive := {
  inb_status d := (IDE_DRDY, d);
  outb_port p v d :=
    if (0x1f2 <=? p) && (p <=? 0x1f6) then mk_drive (fun q => if q =? p then v else dr_regs d q) (dr_sectors d) (dr_loaded d)
    else if (p =? 0x1f7) && (v =? IDE_CMD_READ) then mk_drive (dr_regs d) (dr_sectors d) (dr_sectors d (drive_of (dr_regs d)) (lba_of (dr_regs d)))
    else d;
  outsl_data v d :=
    mk_drive (dr_regs d) (fun dr l => if (dr =? drive_of (dr_regs d)) && (l =? lba_of (dr_regs d)) then v else dr_sectors d dr l) (dr_loaded d);
  insl_data d := (dr_loaded d, d) }.

#[export, refine] Instance drive_laws : AtaLaws drive 1 := {
  regs := dr_regs; stored := dr_sectors; loaded := dr_loaded; busy := fun _ => 0%nat; failed := fun _ => false; ata_busy := _; ata_poll := _; ata_error := _; ata_control := _; ata_register := _; ata_read := _; ata_write := _; ata_insl := _ }.
Proof.
  - intros d. lia.
  - by intros d.
  - by intros d.
  - by intros d.
  - intros p v d q Hp. cbn. rewrite (proj2 (Z.leb_le _ _)), (proj2 (Z.leb_le p _)) by lia. done.
  - intros d Hd. done.
  - intros d v dr l Hd. done.
  - by intros d.
Defined.

(** An idle driver with one drive. *)
Definition ide0 : ide drive :=
  mk_ide (fun i => mk_ibuf 0 0 0 false None []) None false (mk_drive (fun _ => 0) (fun _ _ => []) []) [].

Lemma ide0_idle : queue_ok 1 ide0 [].
Proof. split; [done|constructor|constructor|done]. Qed.

(** A block is written from one buffer and read into another, and the first buffer is
    used again to read another block, which is still on the queue. *)
Definition ide_ops0 : list op :=
  [Request 0 (mk_ibuf 6 0 5 true None [1; 2]); Request 1 (mk_ibuf 0 0 5 true None [0; 0]); Interrupt;
   Request 0 (mk_ibuf 0 0 9 true None [1; 2]); Interrupt].

Lemma ide_refines_disk_witness :
  exists s' : ide drive, d_woken s' = [0; 1]%nat /\ i_data (d_bufs s' 1%nat) = [1; 2] /\ stored (d_disk s') 0 5 = [1; 2] /\
    iderw_wait 1 s' = Ok tt s' /\ iderw_wait 0 s' = Swtch s'.
Proof.
  destruct (ide_refines_disk 1 5 ide_ops0 ide0 ide0_idle) as (s' & v' & E & B & S & _ & W & F & I); [|done|].
  - cbn. unfold request_ok, FSSIZE. cbn. repeat split; try lia; set_solver.
  - assert (V : v_served v' = [0; 1]%nat /\ v_queue v' = [0]%nat /\ i_data (v_bufs v' 1%nat) = [1; 2] /\ ahead v' 0 5 = [1; 2]).
    { unfold ide_ops0 in E. repeat match goal with H : runs _ _ (_ :: _) _ _ _ _ |- _ => inversion H; clear H; simplify_eq end.
      match goal with H : runs _ _ [] _ _ _ _ |- _ => inversion H; subst end. vm_compute. done. }
    destruct V as (V1 & V2 & V3 & V4). exists s'. split; [by rewrite W|]. split.
    { specialize (B 1%nat). rewrite <- V3. destruct (d_bufs s' 1%nat), (v_bufs v' 1%nat). by injection B. }
    split; [by rewrite S|]. rewrite V2 in I. split; apply I; vm_compute; repeat constructor.
Defined.
