(* ===== verification/Boot.v ===== *)
(** * Boot: the boot loader (bootmain.c)

    The loader reads the kernel from the disk, which it drives through the ports of the
    controller of [Ide], into memory, one byte at each address.  Calling the entry point is its
    result: the address, or [None] when it returns because the disk holds no ELF image. *)

From S2P Require Import Prelude Bytes Kernel Kalloc Ide.



Section Loader.
Context {D : Type} `{HA : Ata D} (polls : nat).

Record machine : Type := mk_machine { b_mem : mem; b_disk : D }.

Notation B := (M machine).









End Loader.
Arguments machine D : clear implicits.

(** ** Reading sectors *)

Section Laws.
Context {D : Type} `{HA : Ata D} (polls : nat) `{HL : !AtaLaws D polls}.

Notation sect d n := (stored d 0 n).




(** ** Segments *)






(** ** The kernel *)














End Laws.

(** ** Witnesses *)



