(* ===== verification/Mp.v ===== *)
(** * Mp: finding the processors (mp.c)

    The BIOS leaves a floating pointer structure in memory that leads to a table of entries,
    one for each processor and I/O interrupt controller.  The model reads them byte by byte, at
    their kernel addresses. *)

From S2P Require Import Prelude Bytes Kernel Spinlock.

Definition MPPROC : Z := 0x00.
Definition MPBUS : Z := 0x01.
Definition MPIOAPIC : Z := 0x02.
Definition MPIOINTR : Z := 0x03.
Definition MPLINTR : Z := 0x04.

(** [sizeof] of [struct mp], [struct mpconf], [struct mpproc] and [struct mpioapic]. *)
Definition sizeof_mp : Z := 16.
Definition sizeof_mpconf : Z := 44.
Definition sizeof_mpproc : Z := 20.
Definition sizeof_mpioapic : Z := 8.

Definition load16 (m : mem) (a : Z) : Z := le_val [m a; m (a + 1)].
Definition mp_physaddr (m : mem) (mp : Z) : Z := load32 m (mp + 4).
Definition mp_imcrp (m : mem) (mp : Z) : Z := m (mp + 12).
Definition conf_length (m : mem) (conf : Z) : Z := load16 m (conf + 4).
Definition conf_version (m : mem) (conf : Z) : Z := m (conf + 6).
Definition conf_lapicaddr (m : mem) (conf : Z) : Z := load32 m (conf + 36).

(** [memcmp(a, s, 4) == 0] for a string constant. *)
Definition has_signature (m : mem) (a : Z) (s : list Z) : bool := bool_decide (load_bytes m a 4 = s).
Definition MP_SIG : list Z := [95; 77; 80; 95].
Definition PCMP_SIG : list Z := [80; 67; 77; 80].

(** The accumulator is an [int] and the result a [uchar]. *)
Fixpoint sum_loop (m : mem) (n : nat) (addr acc : Z) : Z :=
  match n with
  | O => acc
  | S n' => sum_loop m n' (addr + 1) (i32 (acc + m addr))
  end.
Definition sum (m : mem) (addr len : Z) : Z := u8 (sum_loop m (Z.to_nat len) addr 0).

Fixpoint search_loop (m : mem) (n : nat) (p : Z) : option Z :=
  match n with
  | O => None
  | S n' =>
      if has_signature m p MP_SIG && (sum m p sizeof_mp =? 0) then Some p
      else search_loop m n' (p + sizeof_mp)
  end.

(** The [p] of the loop that are under [e] are [len / 16], rounded up. *)
Definition mpsearch1 (m : mem) (a len : Z) : option Z :=
  let addr := P2V a in
  search_loop m (Z.to_nat ((len + sizeof_mp - 1) / sizeof_mp)) addr.

Definition mpsearch (m : mem) : option Z :=
  let bda := P2V 0x400 in
  let p := Z.shiftl (Z.lor (Z.shiftl (m (bda + 0x0F)) 8) (m (bda + 0x0E))) 4 in
  let last := mpsearch1 m 0xF0000 0x10000 in
  if negb (p =? 0) then
    match mpsearch1 m p 1024 with Some mp => Some mp | None => last end
  else
    let p := Z.lor (Z.shiftl (m (bda + 0x14)) 8) (m (bda + 0x13)) * 1024 in
    match mpsearch1 m (u32 (p - 1024)) 1024 with Some mp => Some mp | None => last end.

(** The table, and the structure that leads to it. *)
Definition mpconfig (m : mem) : option (Z * Z) :=
  match mpsearch m with
  | None => None
  | Some mp =>
      if mp_physaddr m mp =? 0 then None else
      let conf := P2V (mp_physaddr m mp) in
      if negb (has_signature m conf PCMP_SIG) then None else
      if negb (conf_version m conf =? 1) && negb (conf_version m conf =? 4) then None else
      if negb (sum m conf (conf_length m conf) =? 0) then None else
      Some (conf, mp)
  end.

(** [apicid i] is [cpus[i].apicid]; [mp_out] the writes to ports. *)
Record mpstate : Type := mk_mpstate {
  lapic : Z; ncpu : nat; apicid : nat -> Z; ioapicid : Z; mp_out : list (Z * Z) }.

Notation P := (M mpstate).

Definition set_lapic (v : Z) (s : mpstate) := mk_mpstate v (ncpu s) (apicid s) (ioapicid s) (mp_out s).
Definition set_ioapicid (v : Z) (s : mpstate) := mk_mpstate (lapic s) (ncpu s) (apicid s) v (mp_out s).
Definition add_cpu (v : Z) (s : mpstate) :=
  mk_mpstate (lapic s) (S (ncpu s)) (fun i => if Nat.eqb i (ncpu s) then v else apicid s i) (ioapicid s) (mp_out s).
Definition outb (port v : Z) : P unit :=
  modify (fun s => mk_mpstate (lapic s) (ncpu s) (apicid s) (ioapicid s) (mp_out s ++ [(port, v)])).

(** The loop over the entries, whose result is [ismp].  The [break] of the default case leaves
    the [switch] and not the loop, so that the next iteration reads the same entry. *)
Fixpoint scan (m : mem) (fuel : nat) (p e : Z) (ismp : bool) : P bool :=
  if p <? e then
    match fuel with
    | O => spin
    | S fuel' =>
        if m p =? MPPROC then
          let! s := get in
          when (Nat.ltb (ncpu s) NCPU) (modify (add_cpu (m (p + 1)))) ;;;
          scan m fuel' (p + sizeof_mpproc) e ismp
        else if m p =? MPIOAPIC then
          modify (set_ioapicid (m (p + 1))) ;;;
          scan m fuel' (p + sizeof_mpioapic) e ismp
        else if (m p =? MPBUS) || (m p =? MPIOINTR) || (m p =? MPLINTR) then
          scan m fuel' (p + 8) e ismp
        else scan m fuel' p e false
    end
  else ret ismp.

(** [imcr] is what [inb(0x23)] reads. *)
Definition mpinit (m : mem) (imcr : Z) : P unit :=
  match mpconfig m with
  | None => panic "Expect to run on an SMP"
  | Some (conf, mp) =>
      modify (set_lapic (conf_lapicaddr m conf)) ;;;
      let e := conf + conf_length m conf in
      let! ismp := scan m (Z.to_nat (conf_length m conf)) (conf + sizeof_mpconf) e true in
      if negb ismp then panic "Didn't find a suitable machine" else
      if negb (mp_imcrp m mp =? 0) then
        outb 0x22 0x70 ;;;
        outb 0x23 (Z.lor imcr 1)
      else ret tt
  end.

(** ** The search *)

Definition valid_mp (m : mem) (p : Z) : Prop := load_bytes m p 4 = MP_SIG /\ sum m p sizeof_mp = 0.

(** The first structure in the slots of 16 bytes. *)
Lemma search_loop_spec m n : forall a,
  match search_loop m n a with
  | Some p => exists k, (k < n)%nat /\ p = a + sizeof_mp * Z.of_nat k /\ valid_mp m p /\ forall j, (j < k)%nat -> ~ valid_mp m (a + sizeof_mp * Z.of_nat j)
  | None => forall j, (j < n)%nat -> ~ valid_mp m (a + sizeof_mp * Z.of_nat j)
  end.
Proof.
  induction n as [|n IH]; intros a; cbn [search_loop]; [lia|]. unfold has_signature.
  assert (HV : bool_decide (load_bytes m a 4 = MP_SIG) && (sum m a sizeof_mp =? 0) = true <-> valid_mp m a) by (rewrite andb_true_iff, bool_decide_eq_true, Z.eqb_eq; done).
  assert (HS : forall j, a + sizeof_mp + sizeof_mp * Z.of_nat j = a + sizeof_mp * Z.of_nat (S j)) by (intros; unfold sizeof_mp; lia).
  destruct (bool_decide _ && _).
  - exists 0%nat. split; [lia|]. split; [lia|]. split; [by apply HV|lia].
  - assert (H0 : ~ valid_mp m (a + sizeof_mp * Z.of_nat 0)) by (rewrite Z.mul_0_r, Z.add_0_r; intros Hv; by apply HV in Hv).
    specialize (IH (a + sizeof_mp)). destruct (search_loop m n (a + sizeof_mp)) as [p|].
    + destruct IH as (k & Hk & -> & Hv & Hb). exists (S k). rewrite HS in *. split; [lia|]. split; [done|]. split; [done|].
      intros [|j] Hj; [done|]. rewrite <- HS. apply Hb. lia.
    + intros [|j] Hj; [done|]. rewrite <- HS. apply IH. lia.
Qed.

(** The structure in the first kilobyte of the extended BIOS data area is found when there is one. *)
Lemma mpsearch_ebda m k : let p := Z.shiftl (Z.lor (Z.shiftl (m (P2V 0x400 + 0x0F)) 8) (m (P2V 0x400 + 0x0E))) 4 in
  p <> 0 -> (k < 64)%nat -> valid_mp m (P2V p + sizeof_mp * Z.of_nat k) ->
  (forall j, (j < k)%nat -> ~ valid_mp m (P2V p + sizeof_mp * Z.of_nat j)) ->
  mpsearch m = Some (P2V p + sizeof_mp * Z.of_nat k).
Proof.
  intros p Hp Hk Hv Hb. unfold mpsearch. generalize (mpsearch1 m 0xF0000 0x10000). intros o. fold p. destruct (Z.eqb_spec p 0); [done|]. cbn [negb]. unfold mpsearch1. change (Z.to_nat ((1024 + sizeof_mp - 1) / sizeof_mp)) with 64%nat.
  generalize dependent (P2V p). intros a Hv Hb. clearbody p. pose proof (search_loop_spec m 64 a) as HS. destruct (search_loop m 64 a) as [q|].
  - destruct HS as (j & Hj & -> & Hvj & Hbj). destruct (Nat.lt_trichotomy j k) as [Hlt|[->|Hgt]]; [elim (Hb j Hlt Hvj)|reflexivity|elim (Hbj k Hgt Hv)].
  - elim (HS k Hk Hv).
Qed.

(** What the code checks before it trusts a table. *)
Lemma mpconfig_checked m conf mp : mpconfig m = Some (conf, mp) ->
  mpsearch m = Some mp /\ mp_physaddr m mp <> 0 /\ conf = P2V (mp_physaddr m mp) /\ load_bytes m conf 4 = PCMP_SIG /\
  (conf_version m conf = 1 \/ conf_version m conf = 4) /\ sum m conf (conf_length m conf) = 0.
Proof.
  unfold mpconfig, has_signature. intros H. destruct (mpsearch m) as [q|]; [|done]. repeat case_match; zify_bool; simplify_eq; try done.
  destruct (bool_decide_reflect (load_bytes m (P2V (mp_physaddr m mp)) 4 = PCMP_SIG)); [|done]. split_and!; try done. lia.
Qed.

(** ** The table *)

(** An entry, with the bytes that are not read. *)
Inductive mpentry : Type :=
| Eproc (id : Z) (rest : list Z)
| Eioapic (id : Z) (rest : list Z)
| Eother (ty : Z) (rest : list Z).

Definition entry_bytes (e : mpentry) : list Z :=
  match e with
  | Eproc id rest => MPPROC :: id :: rest
  | Eioapic id rest => MPIOAPIC :: id :: rest
  | Eother ty rest => ty :: rest
  end.

Definition entry_ok (e : mpentry) : Prop :=
  match e with
  | Eproc _ rest => length rest = 18%nat
  | Eioapic _ rest => length rest = 6%nat
  | Eother ty rest => (ty = MPBUS \/ ty = MPIOINTR \/ ty = MPLINTR) /\ length rest = 7%nat
  end.

Definition table_bytes (es : list mpentry) : list Z := concat (entry_bytes <$> es).

Definition procs (es : list mpentry) : list Z := omap (fun e => match e with Eproc id _ => Some id | _ => None end) es.
Definition ioapics (es : list mpentry) : list Z := omap (fun e => match e with Eioapic id _ => Some id | _ => None end) es.

(** The bytes [bs] are in memory from [p] on. *)
Definition holds (m : mem) (p : Z) (bs : list Z) : Prop := forall i b, bs !! i = Some b -> m (p + Z.of_nat i) = b.

Lemma holds_app m p l1 l2 : holds m p (l1 ++ l2) -> holds m p l1 /\ holds m (p + Z.of_nat (length l1)) l2.
Proof.
  intros H. split; intros i b Hi.
  - apply H. by apply lookup_app_l_Some.
  - rewrite <- Z.add_assoc, <- Nat2Z.inj_add. apply H. rewrite lookup_app_r by lia. by replace (length l1 + i - length l1)%nat with i by lia.
Qed.

(** The state after the entries [es]. *)
Definition read_entry (s : mpstate) (e : mpentry) : mpstate :=
  match e with
  | Eproc id _ => if Nat.ltb (ncpu s) NCPU then add_cpu id s else s
  | Eioapic id _ => set_ioapicid id s
  | Eother _ _ => s
  end.

Lemma scan_entry m e p end_ f b s : entry_ok e -> holds m p (entry_bytes e) -> p < end_ ->
  scan m (S f) p end_ b s = scan m f (p + Z.of_nat (length (entry_bytes e))) end_ b (read_entry s e).
Proof.
  intros He Hh Hp. pose proof (fun b => Hh 0%nat b) as H0. pose proof (fun b => Hh 1%nat b) as H1. change (Z.of_nat 0) with 0 in H0. change (Z.of_nat 1) with 1 in H1. rewrite Z.add_0_r in H0.
  cbn [scan]. rewrite (proj2 (Z.ltb_lt _ _) Hp). destruct e as [id rest|id rest|ty rest]; cbn [entry_ok entry_bytes] in *; rewrite (H0 _ eq_refl), ?(H1 _ eq_refl).
  - cbn [Z.eqb MPPROC length read_entry]. mget. rewrite He. unfold when, bind, modify, ret. by destruct (Nat.ltb _ _).
  - cbn [length read_entry]. rewrite He. done.
  - cbn [length read_entry]. destruct He as [Ht Hl]. rewrite Hl. by destruct Ht as [->|[->| ->]].
Qed.

Lemma scan_table m es : forall p end_ f b s, Forall entry_ok es -> holds m p (table_bytes es) -> p + Z.of_nat (length (table_bytes es)) <= end_ ->
  scan m (length es + f) p end_ b s = scan m f (p + Z.of_nat (length (table_bytes es))) end_ b (foldl read_entry s es).
Proof.
  induction es as [|e es IH]; intros p end_ f b s Hes Hh He; cbn [length foldl plus].
  - by rewrite Z.add_0_r.
  - inversion_clear Hes as [|? ? H1 H2]. change (table_bytes (e :: es)) with (entry_bytes e ++ table_bytes es) in *. rewrite length_app, Nat2Z.inj_add in *. apply holds_app in Hh as [Hh1 Hh2].
    assert (length (entry_bytes e) <> 0%nat) by (by destruct e). rewrite (scan_entry m e) by (done || lia). rewrite IH by (done || lia). by rewrite Z.add_assoc.
Qed.

(** An entry of a type the switch does not know is read again and again. *)
Lemma scan_unknown m f : forall p end_ b s, m p < MPPROC \/ MPLINTR < m p -> p < end_ -> scan m f p end_ b s = Spin.
Proof.
  induction f as [|f IH]; intros p end_ b s Ht Hp; cbn [scan]; rewrite (proj2 (Z.ltb_lt _ _) Hp); [done|].
  unfold MPPROC, MPIOAPIC, MPBUS, MPIOINTR, MPLINTR in *. rewrite !(proj2 (Z.eqb_neq _ _)) by lia. cbn [orb]. by apply IH.
Qed.

(** The processors that were found, up to the size of [cpus]. *)
Lemma read_entries es : forall s, (ncpu s <= NCPU)%nat -> let s' := foldl read_entry s es in
  ncpu s' = Nat.min NCPU (ncpu s + length (procs es)) /\
  (forall i, (i < ncpu s)%nat -> apicid s' i = apicid s i) /\
  (forall i, (ncpu s + i < ncpu s')%nat -> procs es !! i = Some (apicid s' (ncpu s + i))) /\
  ioapicid s' = default (ioapicid s) (last (ioapics es)) /\ lapic s' = lapic s /\ mp_out s' = mp_out s.
Proof.
  induction es as [|e es IH]; intros s Hn; cbn [foldl].
  - cbn [procs ioapics omap list_omap length last default]. unfold id. split; [lia|]. split; [done|]. split; [intros i; lia|done].
  - destruct e as [id rest|id rest|ty rest]; cbn [read_entry].
    + change (procs (Eproc id rest :: es)) with (id :: procs es). change (ioapics (Eproc id rest :: es)) with (ioapics es). destruct (Nat.ltb_spec (ncpu s) NCPU) as [Hlt|Hge].
      * destruct (IH (add_cpu id s)) as (E1 & E2 & E3 & E4 & E5 & E6); [cbn; lia|]. cbn [add_cpu ncpu apicid ioapicid lapic mp_out] in *. cbn [length].
        split; [rewrite E1; lia|]. split; [|split].
        -- intros i Hi. rewrite E2 by lia. by rewrite (proj2 (Nat.eqb_neq _ _)) by lia.
        -- intros [|i] Hi; [|replace (ncpu s + S i)%nat with (S (ncpu s) + i)%nat in * by lia; by apply E3].
           rewrite Nat.add_0_r in *. rewrite E2 by lia. by rewrite Nat.eqb_refl.
        -- done.
      * destruct (IH s Hn) as (E1 & E2 & E3 & E4 & E5 & E6). assert (ncpu s = NCPU) by lia. split; [cbn [length]; lia|]. split; [done|]. split; [|done]. intros i Hi. lia.
    + change (procs (Eioapic id rest :: es)) with (procs es). change (ioapics (Eioapic id rest :: es)) with (id :: ioapics es).
      destruct (IH (set_ioapicid id s) Hn) as (E1 & E2 & E3 & E4 & E5 & E6). do 3 (split; [done|]). split; [|done]. rewrite E4, last_cons. by destruct (last (ioapics es)).
    + apply (IH s Hn).
Qed.

(** The table of processors is as the spin locks need it: when the processors have the local APIC
    ids of the table, all different, [mycpu] can tell them apart. *)
Lemma mp_cpus_ok es s m : ncpu s = 0%nat -> NoDup (procs es) -> m_ncpu m = ncpu (foldl read_entry s es) ->
  (forall c, (c < m_ncpu m)%nat -> Spinlock.apicid (m_cpus m c) = apicid (foldl read_entry s es) c /\ procs es !! c = Some (m_lapicid m c)) -> cpus_ok m.
Proof.
  intros Hs HN Hn Hc. destruct (read_entries es s) as (_ & _ & E3 & _); [unfold NCPU; lia|]. rewrite Hs in E3. split.
  - intros c H. destruct (Hc c H) as [-> HP]. rewrite (E3 c) in HP by (cbn; lia). by injection HP.
  - intros c c' H H' E. destruct (Hc c H) as [_ HP], (Hc c' H') as [_ HP']. rewrite E in HP. by apply (NoDup_lookup (procs es) c c' (m_lapicid m c') HN).
Qed.

(** C16: what [mpinit] finds.  For any memory where the code finds a configuration table it trusts,
    with entries [es] of the known types followed by the bytes [tail], and any state with no
    processors: with no tail, [mpinit] sets the address of the local APIC, registers the
    processors in the order of the table, at most [NCPU] of them, each with its APIC id, keeps the
    id of the last I/O APIC, and masks external interrupts when the structure asks for it.  When
    an entry of an unknown type follows it does not return: it never reaches its panic. *)
Theorem mpinit_finds m imcr conf mp es tail s : mpconfig m = Some (conf, mp) -> ncpu s = 0%nat -> Forall entry_ok es ->
  holds m (conf + sizeof_mpconf) (table_bytes es ++ tail) -> conf_length m conf = sizeof_mpconf + Z.of_nat (length (table_bytes es ++ tail)) ->
  (tail = [] -> exists s', mpinit m imcr s = Ok tt s' /\ lapic s' = conf_lapicaddr m conf /\
    ncpu s' = Nat.min NCPU (length (procs es)) /\ (forall i, (i < ncpu s')%nat -> procs es !! i = Some (apicid s' i)) /\
    ioapicid s' = default (ioapicid s) (last (ioapics es)) /\
    mp_out s' = mp_out s ++ (if mp_imcrp m mp =? 0 then [] else [(0x22, 0x70); (0x23, Z.lor imcr 1)])) /\
  (forall t r, tail = t :: r -> MPLINTR < t -> mpinit m imcr s = Spin).
Proof.
  intros HC Hn Hes Hh HL. unfold mpinit. rewrite HC, HL. apply holds_app in Hh as [Hh1 Hh2]. set (s1 := set_lapic (conf_lapicaddr m conf) s).
  assert (HF : exists f, Z.to_nat (sizeof_mpconf + Z.of_nat (length (table_bytes es ++ tail))) = (length es + f)%nat).
  { exists (Z.to_nat (sizeof_mpconf + Z.of_nat (length (table_bytes es ++ tail))) - length es)%nat. rewrite length_app. unfold sizeof_mpconf.
    assert (length es <= length (table_bytes es))%nat; [|lia]. clear. induction es as [|e es IH]; [cbn; lia|]. change (table_bytes (e :: es)) with (entry_bytes e ++ table_bytes es).
    rewrite length_app. cbn [length]. destruct e; cbn [entry_bytes length]; lia. }
  destruct HF as [f ->].
  assert (HT : forall b, scan m (length es + f) (conf + sizeof_mpconf) (conf + (sizeof_mpconf + Z.of_nat (length (table_bytes es ++ tail)))) b s1 =
    scan m f (conf + sizeof_mpconf + Z.of_nat (length (table_bytes es))) (conf + (sizeof_mpconf + Z.of_nat (length (table_bytes es ++ tail)))) b (foldl read_entry s1 es))
    by (intros b; apply scan_table; [done|done|rewrite length_app; lia]).
  split.
  - intros ->. unfold bind at 1, modify. fold s1. unfold bind at 1. rewrite HT, app_nil_r. clear HT. destruct (read_entries es s1) as (E1 & _ & E3 & E4 & E5 & E6); [cbn; unfold NCPU; lia|]. set (s2 := foldl read_entry s1 es) in *.
    cbn [s1 set_lapic ncpu apicid ioapicid lapic mp_out] in E1, E3, E4, E5, E6. rewrite Hn in E1, E3.
    replace (scan m f _ _ true s2) with (Ok (S := mpstate) true s2) by (destruct f; cbn [scan]; rewrite (proj2 (Z.ltb_ge _ _)) by lia; done). cbn [negb].
    unfold ret, outb, bind, modify. destruct (Z.eqb_spec (mp_imcrp m mp) 0); cbn [negb]; eexists; (split; [reflexivity|]); cbn [lapic ncpu apicid ioapicid mp_out]; rewrite ?E6, ?app_nil_r, <- ?app_assoc; done.
  - intros t r -> Ht. unfold bind at 1, modify. fold s1. unfold bind at 1. rewrite HT. clear HT. rewrite scan_unknown; [done| |rewrite length_app; cbn [length]; lia]. right. pose proof (Hh2 0%nat t eq_refl) as H0. rewrite Z.add_0_r in H0. by rewrite H0.
Qed.

(** ** Witnesses *)

(** A machine with two processors and an I/O APIC: the structure in the BIOS data area. *)
Definition bios_table : list mpentry := [Eproc 0 (repeat 0 18); Eproc 5 (repeat 0 18); Eother 1 (repeat 0 7); Eioapic 2 (repeat 0 6)].
Definition bios_conf : list Z :=
  PCMP_SIG ++ le_bytes 2 100 ++ [4; 128] ++ repeat 0 28 ++ le_bytes 4 0xFEE00000 ++ repeat 0 4 ++ table_bytes bios_table.
Definition bios_mp : list Z := MP_SIG ++ le_bytes 4 0x9fc40 ++ [1; 4; 91; 0; 0; 0; 0; 0].
Definition bios_mem : mem :=
  store_bytes (store_bytes (store_bytes (fun _ => 0) (P2V 0x40E) [192; 159]) (P2V 0x9fc10) bios_mp) (P2V 0x9fc40) bios_conf.

Lemma mpinit_finds_witness : exists s', mpinit bios_mem 0 (mk_mpstate 0 0 (fun _ => 0) 0 []) = Ok tt s' /\ ncpu s' = 2%nat /\ apicid s' 1%nat = 5 /\ ioapicid s' = 2.
Proof.
  destruct (mpinit_finds bios_mem 0 (P2V 0x9fc40) (P2V 0x9fc10) bios_table [] (mk_mpstate 0 0 (fun _ => 0) 0 [])) as [H _].
  - vm_compute. reflexivity.
  - done.
  - repeat constructor.
  - rewrite app_nil_r. intros i b Hi. unfold bios_mem. replace (P2V 0x9fc40 + sizeof_mpconf + Z.of_nat i) with (P2V 0x9fc40 + Z.of_nat (44 + i)) by (unfold sizeof_mpconf; lia).
    apply store_bytes_in. exact Hi.
  - vm_compute. reflexivity.
  - destruct (H eq_refl) as (s' & E & _ & N & A & I & _). exists s'. split; [done|]. split; [exact N|]. split; [|exact I]. rewrite N in A. injection (A 1%nat ltac:(cbn; lia)) as ->. done.
Defined.
