(* ===== verification/Cache.v ===== *)
(** * Cache: the interface of the buffer cache

    What the log and the file system rely on when they call [bread], [bwrite] and
    [brelse]: the class [BlockCache] states it for a view of the kernel state that
    hides the buffers (the blocks the caller has locked, the blocks pinned in the
    cache by the log, and the contents of every block), and the instance at the end
    of the file proves that bio.c provides it. *)

From S2P Require Import Prelude Bytes Kernel Sync Bio.

(** The state without what the cache and the sleep locks change. *)
Definition erase (k : kernel) : kernel :=
  set_k_bufs [] (set_k_disk (fun _ => []) (set_k_dtrace [] (set_k_ptable [] k))).

(** [f] with block [b] changed. *)
Definition vupd (V : Z -> list Z) (b : Z) (d : list Z) : Z -> list Z := disk_upd V b d.

Lemma vupd_eq V b d : vupd V b d b = d.
Proof. unfold vupd, disk_upd. by rewrite Z.eqb_refl. Qed.

Lemma vupd_ne V b d b' : b' <> b -> vupd V b d b' = V b'.
Proof. intros. unfold vupd, disk_upd. by rewrite (proj2 (Z.eqb_neq _ _)). Qed.

Definition without (b : Z) (L : list Z) : list Z := filter (fun x => x <> b) L.

Lemma elem_of_without b L x : x ∈ without b L <-> x ∈ L /\ x <> b.
Proof. unfold without. rewrite list_elem_of_filter. tauto. Qed.

(** ** The interface

    [view k c pid H L V]: process [c] (pid [pid]) runs with no spin lock held and
    holds the buffers of [H] (a buffer and its block each) and no others are in
    use; the blocks of [L] are pinned in the cache; block [b] contains [V b]. *)
Class BlockCache
    (view : kernel -> nat -> Z -> list (nat * Z) -> list Z -> (Z -> list Z) -> Prop) : Prop := {
  bc_running k c pid H L V : view k c pid H L V -> running k c pid;
  bc_length k c pid H L V b : view k c pid H L V -> length (V b) = Z.to_nat BSIZE;
  bc_clean k c pid H L V b :
    view k c pid H L V -> b ∉ L -> b ∉ H.*2 -> V b = k_disk k b;
  bc_pinned k c pid H L L' V :
    view k c pid H L V -> (forall b, b ∈ L' <-> b ∈ L) -> view k c pid H L' V;
  bc_perm k c pid H H' L V : view k c pid H L V -> H' ≡ₚ H -> view k c pid H' L V;
  bc_ext k c pid H L V V' :
    view k c pid H L V -> (forall b, V' b = V b) -> view k c pid H L V';
  bc_frame k c pid H L V f :
    view k c pid H L V -> (forall k, k_bufs (f k) = k_bufs k /\ k_disk (f k) = k_disk k /\
      k_ptable (f k) = k_ptable k /\ k_held (f k) = k_held k /\ k_cur (f k) = k_cur k /\
      k_disksize (f k) = k_disksize k) -> view (f k) c pid H L V;
  bc_bread k c pid H L V b :
    view k c pid H L V -> 0 <= b < k_disksize k -> b ∉ H.*2 ->
    (length H + length L < NBUF)%nat \/ b ∈ L ->
    exists i k', bread ROOTDEV b k = Ok i k' /\ view k' c pid ((i, b) :: H) L V /\
      erase k' = erase k /\ k_disk k' = k_disk k /\ k_dtrace k' = k_dtrace k;
  bc_get_buf k c pid H L V i b :
    view k c pid H L V -> (i, b) ∈ H ->
    exists x, get_buf i k = Ok x k /\ b_data x = V b /\ b_blockno x = b;
  bc_set_data k c pid H L V i b d :
    view k c pid H L V -> (i, b) ∈ H -> length d = Z.to_nat BSIZE ->
    exists k', upd_buf i (set_b_data d) k = Ok tt k' /\ view k' c pid H L (vupd V b d) /\
      erase k' = erase k /\ k_disk k' = k_disk k /\ k_dtrace k' = k_dtrace k;
  bc_mark k c pid H L V i b :
    view k c pid H L V -> (i, b) ∈ H ->
    exists k', upd_buf i (fun x => set_b_flags (Z.lor (b_flags x) B_DIRTY) x) k = Ok tt k' /\
      view k' c pid H (b :: L) V /\
      erase k' = erase k /\ k_disk k' = k_disk k /\ k_dtrace k' = k_dtrace k;
  bc_bwrite k c pid H L V i b :
    view k c pid H L V -> (i, b) ∈ H ->
    exists k', bwrite i k = Ok tt k' /\ view k' c pid H (without b L) V /\
      erase k' = erase k /\ k_disk k' = vupd (k_disk k) b (V b) /\
      k_dtrace k' = (b, V b) :: k_dtrace k;
  bc_brelse k c pid H L V i b :
    view k c pid ((i, b) :: H) L V -> b ∈ L \/ V b = k_disk k b ->
    exists k', brelse i k = Ok tt k' /\ view k' c pid H L V /\
      erase k' = erase k /\ k_disk k' = k_disk k /\ k_dtrace k' = k_dtrace k
}.

(** ** The view of bio.c's buffers *)

Definition held_buf (k : kernel) (pid : Z) (i : nat) (b : Z) : Prop :=
  exists x, holds_block k i x b /\ b_lock x = mk_sleeplock true pid /\ b_refcnt x = 1 /\
    has (b_flags x) B_VALID = true.

Definition is_dirty (k : kernel) (b : Z) : Prop :=
  exists i x, holds_block k i x b /\ has (b_flags x) B_DIRTY = true.

Record bview (k : kernel) (c : nat) (pid : Z) (H : list (nat * Z)) (L : list Z)
    (V : Z -> list Z) : Prop := {
  bv_ok : exists lru, bcache_ok k lru;
  bv_run : running k c pid;
  bv_held : forall i b, (i, b) ∈ H -> held_buf k pid i b;
  bv_free : forall i x, (i < NBUF)%nat -> k_bufs k !! i = Some x -> i ∉ H.*1 -> b_refcnt x = 0;
  bv_nodup : NoDup (H.*1);
  bv_pin : forall b, b ∈ L <-> is_dirty k b;
  bv_val : forall b, block_val k b = V b
}.

Lemma flags_dirty f : flags_ok f -> has f B_DIRTY = true -> f = Z.lor B_VALID B_DIRTY.
Proof. intros [->|[->| ->]]; done. Qed.

Lemma flags_dirty_valid f : flags_ok f -> has f B_DIRTY = true -> has f B_VALID = true.
Proof. intros [->|[->| ->]]; done. Qed.

(** An injective map of [n] numbers into a list shorter than [n] does not exist. *)
Lemma pigeonhole {A} (n : nat) (f : nat -> A) (l : list A) :
  (forall i, (i < n)%nat -> f i ∈ l) ->
  (forall i j, (i < n)%nat -> (j < n)%nat -> f i = f j -> i = j) -> (n <= length l)%nat.
Proof.
  intros Hin Hinj. replace n with (length (f <$> seq 0 n)) by (by rewrite length_fmap, length_seq).
  apply submseteq_length, NoDup_submseteq.
  - apply NoDup_fmap_2_strong; [|apply NoDup_seq]. intros x y Hx Hy.
    apply elem_of_seq in Hx, Hy. intros. apply Hinj; auto; lia.
  - intros x Hx. apply list_elem_of_fmap in Hx as (i & -> & Hi). apply elem_of_seq in Hi.
    apply Hin. lia.
Qed.

Section View.
Context (k : kernel) (c : nat) (pid : Z) (H : list (nat * Z)) (L : list Z) (V : Z -> list Z).
Hypothesis HV : bview k c pid H L V.

Lemma bview_length b : length (V b) = Z.to_nat BSIZE.
Proof.
  destruct (bv_ok _ _ _ _ _ _ HV) as [lru Hok]. rewrite <- (bv_val _ _ _ _ _ _ HV).
  destruct (cached_dec k b) as [(i & x & Hh & Hv)|Hn].
  - rewrite (block_val_cached k lru i x b) by done. destruct Hh as (Hi & Hx & _).
    apply (bo_data _ _ (bc_buf _ _ Hok i x Hi Hx)).
  - rewrite (block_val_uncached k b) by done. apply (bc_disk _ _ Hok).
Qed.

Lemma bview_held_in i b x :
  holds_block k i x b -> b_refcnt x <> 0 -> (i, b) ∈ H.
Proof.
  intros (Hi & Hx & Hd & Hb) Hr. destruct (decide (i ∈ H.*1)) as [Hin|Hn].
  - apply list_elem_of_fmap in Hin as ([i' b'] & -> & Hin). simpl in *.
    destruct (bv_held _ _ _ _ _ _ HV i' b' Hin) as (y & (_ & Hy & _ & Hyb) & _). congruence.
  - by destruct Hr; eapply (bv_free _ _ _ _ _ _ HV).
Qed.

Lemma bview_unlocked b : b ∉ H.*2 -> unlocked k b.
Proof.
  intros Hn i x Hh. pose proof Hh as (Hi & Hx & _).
  destruct (bv_ok _ _ _ _ _ _ HV) as [lru Hok]. pose proof (bc_buf _ _ Hok i x Hi Hx) as Hbo.
  destruct (sl_locked (b_lock x)) eqn:El; [|done]. exfalso. apply Hn.
  pose proof (bo_locked _ _ Hbo El). apply list_elem_of_fmap. exists (i, b).
  split; [done|]. eapply bview_held_in; [done|lia].
Qed.

Lemma bview_clean b : b ∉ L -> b ∉ H.*2 -> V b = k_disk k b.
Proof.
  intros HL HH. destruct (bv_ok _ _ _ _ _ _ HV) as [lru Hok].
  rewrite <- (bv_val _ _ _ _ _ _ HV). destruct (cached_dec k b) as [(i & x & Hh & Hv)|Hn].
  - rewrite (block_val_cached k lru i x b) by done.
    pose proof (bview_unlocked b HH i x Hh) as Hl. pose proof Hh as (Hi & Hx & Hd & <-).
    pose proof (bc_buf _ _ Hok i x Hi Hx) as Hbo. apply (bo_clean _ _ Hbo); auto.
    apply flags_clean; [apply Hbo|done|]. destruct (has (b_flags x) B_DIRTY) eqn:E; [|done].
    exfalso. apply HL, (bv_pin _ _ _ _ _ _ HV). by exists i, x.
  - by apply block_val_uncached.
Qed.

Lemma bview_can_get b : (length H + length L < NBUF)%nat \/ b ∈ L -> can_get k b.
Proof.
  destruct (bv_ok _ _ _ _ _ _ HV) as [lru Hok]. intros [Hlen|Hb].
  - destruct (existsb (is_unused (k_bufs k)) (seq 0 NBUF)) eqn:Eu.
    { apply existsb_exists in Eu as (i & Hi & Hu). apply List.in_seq in Hi. right. exists i.
      split; [lia|done]. }
    assert (Hno : forall i, (i < NBUF)%nat -> is_unused (k_bufs k) i = true -> False).
    { intros i Hi Hu. apply Bool.not_true_iff_false in Eu. apply Eu, existsb_exists.
      exists i. split; [apply List.in_seq; lia|done]. }
    exfalso.
    assert (Hx : forall i, (i < NBUF)%nat -> exists x, k_bufs k !! i = Some x /\ b_dev x = ROOTDEV /\
      (b_blockno x ∈ H.*2 ++ L)).
    { intros i Hi. destruct (lookup_lt_is_Some_2 (k_bufs k) i) as [x Hx].
      { rewrite (bc_len _ _ Hok). lia. }
      exists x. split; [done|]. pose proof (bc_buf _ _ Hok i x Hi Hx) as Hbo.
      destruct (has (b_flags x) B_DIRTY) eqn:Ed.
      - assert (b_dev x = ROOTDEV) as Hd by (apply (bo_dirty _ _ Hbo), flags_dirty; [apply Hbo|done]).
        split; [done|]. apply elem_of_app. right. apply (bv_pin _ _ _ _ _ _ HV). by exists i, x.
      - destruct (decide (i ∈ H.*1)) as [Hin|Hn].
        + apply list_elem_of_fmap in Hin as ([i' b'] & -> & Hin). simpl in *.
          destruct (bv_held _ _ _ _ _ _ HV i' b' Hin) as (y & (_ & Hy & Hyd & Hyb) & _).
          rewrite Hx in Hy. injection Hy as <-. split; [done|]. apply elem_of_app. left.
          apply list_elem_of_fmap. by exists (i', b').
        + exfalso. apply (Hno i Hi). unfold is_unused.
          rewrite Hx, Ed, (bv_free _ _ _ _ _ _ HV i x Hi Hx Hn). done. }
    pose proof (pigeonhole NBUF
      (fun i => match k_bufs k !! i with Some x => b_blockno x | None => 0 end) (H.*2 ++ L)) as Hp.
    rewrite length_app, length_fmap in Hp. apply (Nat.lt_irrefl NBUF).
    eapply Nat.le_lt_trans; [apply Hp|exact Hlen].
    + intros i Hi. by destruct (Hx i Hi) as (x & -> & _ & ?).
    + intros i j Hi Hj. destruct (Hx i Hi) as (x & Ex & Hd & _), (Hx j Hj) as (y & Ey & Hd' & _).
      rewrite Ex, Ey. intros. by eapply (bc_uniq _ _ Hok i j x y).
  - apply (bv_pin _ _ _ _ _ _ HV) in Hb as (i & x & Hh & _). left. by exists i, x.
Qed.

End View.

(** ** The operations keep the view *)

Section Ops.
Context (k : kernel) (c : nat) (pid : Z) (H : list (nat * Z)) (L : list Z) (V : Z -> list Z).
Hypothesis HV : bview k c pid H L V.

Lemma bview_bread b :
  0 <= b < k_disksize k -> b ∉ H.*2 -> (length H + length L < NBUF)%nat \/ b ∈ L ->
  exists i k', bread ROOTDEV b k = Ok i k' /\ bview k' c pid ((i, b) :: H) L V /\
    erase k' = erase k /\ k_disk k' = k_disk k /\ k_dtrace k' = k_dtrace k.
Proof.
  intros Hb Hn Hroom. destruct (bv_ok _ _ _ _ _ _ HV) as [lru Hok].
  pose proof (bview_unlocked _ _ _ _ _ _ HV b Hn) as Hu.
  assert (Hfree : forall i x, holds_block k i x b -> b_refcnt x = 0).
  { intros i x Hh. destruct (decide (b_refcnt x = 0)) as [|Hr]; [done|]. exfalso. apply Hn.
    apply list_elem_of_fmap. exists (i, b). split; [done|]. by eapply bview_held_in. }
  destruct (bread_ok k lru c pid b Hok (bv_run _ _ _ _ _ _ HV) Hb Hu
              (bview_can_get _ _ _ _ _ _ HV b Hroom)) as (i & x & k' & E & Hg & Hok' & Hv).
  { intros i x Hh. rewrite (Hfree i x Hh). lia. }
  destruct Hg as [-> Hh Hl _ Hval (x0 & Hx0 & Hl0 & Hrc & Hdir & Hdh)].
  pose proof Hh as (Hi & Hx & Hd & Hbn).
  assert (Hlk : forall j, k_bufs (put_buf i x k) !! j = if decide (j = i) then Some x else k_bufs k !! j).
  { intros j. case_decide; [by subst|]. by apply lookup_put_buf_ne. }
  assert (HiH : i ∉ H.*1).
  { intros Hin. apply list_elem_of_fmap in Hin as ([i' b'] & -> & Hin). simpl in *.
    destruct (bv_held _ _ _ _ _ _ HV _ _ Hin) as (y & (_ & Hy & _) & Hyl & _).
    rewrite Hx0 in Hy. injection Hy as <-. by rewrite Hyl in Hl0. }
  exists i, (put_buf i x k). split; [done|]. split; [|done]. split.
  - by exists lru.
  - apply running_put_buf, (bv_run _ _ _ _ _ _ HV).
  - intros j b' Hj. apply elem_of_cons in Hj as [Hj|Hj].
    + injection Hj as -> ->. exists x. repeat split; auto.
      rewrite Hrc. by rewrite (bv_free _ _ _ _ _ _ HV i x0).
    + destruct (bv_held _ _ _ _ _ _ HV j b' Hj) as (y & (Hj1 & Hy & Hyd & Hyb) & Hrest).
      exists y. split; [|done]. repeat split; auto. rewrite Hlk, decide_False; [done|].
      intros ->. apply HiH, list_elem_of_fmap. by exists (i, b').
  - intros j y Hj Hy Hnj. rewrite fmap_cons in Hnj. apply not_elem_of_cons in Hnj as [Hji Hnj].
    rewrite Hlk, decide_False in Hy by done. by eapply (bv_free _ _ _ _ _ _ HV).
  - rewrite fmap_cons. apply NoDup_cons. split; [done|]. apply (bv_nodup _ _ _ _ _ _ HV).
  - intros b'. rewrite (bv_pin _ _ _ _ _ _ HV). split.
    + intros (j & y & (Hj & Hy & Hyd & Hyb) & Hyf). destruct (decide (j = i)) as [->|Hne].
      * rewrite Hx0 in Hy. injection Hy as <-. exists i, x. destruct (Hdh Hyf) as (_ & _ & _ & Hb0).
        split; [|by rewrite Hdir]. repeat split; auto; congruence.
      * exists j, y. split; [|done]. repeat split; auto. by rewrite Hlk, decide_False.
    + intros (j & y & (Hj & Hy & Hyd & Hyb) & Hyf). rewrite Hlk in Hy. case_decide as Hji.
      * injection Hy as <-. subst. exists i, x0. rewrite Hdir in Hyf. auto.
      * by exists j, y.
  - intros b'. rewrite Hv. apply (bv_val _ _ _ _ _ _ HV).
Qed.

Lemma bview_buf i b : (i, b) ∈ H ->
  exists x, holds_block k i x b /\ b_lock x = mk_sleeplock true pid /\ b_refcnt x = 1 /\
    has (b_flags x) B_VALID = true /\ b_data x = V b /\ buf_ok k x.
Proof.
  intros Hin. destruct (bv_ok _ _ _ _ _ _ HV) as [lru Hok].
  destruct (bv_held _ _ _ _ _ _ HV i b Hin) as (x & Hh & Hl & Hr & Hf). exists x.
  do 4 (split; [done|]). split.
  - rewrite <- (bv_val _ _ _ _ _ _ HV). symmetry. by apply (block_val_cached k lru i x b).
  - destruct Hh as (Hi & Hx & _). by apply (bc_buf _ _ Hok i x).
Qed.

(** Changing the data and flags of a held buffer changes its block only. *)
Lemma bview_put i b x y L' :
  (i, b) ∈ H -> k_bufs k !! i = Some x ->
  b_dev y = b_dev x -> b_blockno y = b_blockno x -> b_lock y = b_lock x ->
  b_refcnt y = b_refcnt x -> b_next y = b_next x -> b_prev y = b_prev x ->
  flags_ok (b_flags y) -> has (b_flags y) B_VALID = true -> length (b_data y) = Z.to_nat BSIZE ->
  (forall b', b' ∈ L' <-> if decide (b' = b) then has (b_flags y) B_DIRTY = true else b' ∈ L) ->
  bview (put_buf i y k) c pid H L' (vupd V b (b_data y)).
Proof.
  intros Hin Hx Hd Hb Hl Hr Hn Hp Hf Hv Hlen HL.
  destruct (bv_ok _ _ _ _ _ _ HV) as [lru Hok].
  destruct (bview_buf i b Hin) as (x' & (Hi & Hx' & Hxd & Hxb) & Hxl & Hxr & Hxv & Hxdat & Hbo).
  rewrite Hx in Hx'. injection Hx' as <-.
  assert (Hlk : forall j, k_bufs (put_buf i y k) !! j = if decide (j = i) then Some y else k_bufs k !! j).
  { intros j. case_decide; [subst; apply lookup_put_buf; by eapply lookup_lt_Some|].
    by apply lookup_put_buf_ne. }
  assert (Hok' : bcache_ok (put_buf i y k) lru).
  { apply (bcache_ok_insert k lru i x); auto.
    - destruct Hbo. split; rewrite ?Hd, ?Hb, ?Hl, ?Hr; auto. rewrite Hxl. done.
    - intros _ j z Hj (Hj' & Hz & Hzd & Hzb). apply Hj.
      eapply (bc_uniq _ _ Hok j i z x); eauto. congruence. }
  split.
  - by exists lru.
  - apply running_put_buf, (bv_run _ _ _ _ _ _ HV).
  - intros j b' Hj. destruct (bv_held _ _ _ _ _ _ HV j b' Hj) as (z & (Hj1 & Hz & Hzd & Hzb) & Hrest).
    destruct (decide (j = i)) as [->|Hne].
    + rewrite Hx in Hz. injection Hz as <-. exists y. destruct Hrest as (? & ? & ?).
      repeat split; try congruence; auto. by rewrite Hlk, decide_True.
    + exists z. split; [|done]. repeat split; auto. by rewrite Hlk, decide_False.
  - intros j z Hj Hz Hnj. rewrite Hlk in Hz. case_decide as Hji.
    + subst j. exfalso. apply Hnj, list_elem_of_fmap. by exists (i, b).
    + by eapply (bv_free _ _ _ _ _ _ HV).
  - apply (bv_nodup _ _ _ _ _ _ HV).
  - intros b'. rewrite HL. split.
    + case_decide as Eb.
      * intros Hyd. subst b'. exists i, y. repeat split; auto; try congruence. by rewrite Hlk, decide_True.
      * rewrite (bv_pin _ _ _ _ _ _ HV). intros (j & z & (Hj & Hz & Hzd & Hzb) & Hzf).
        exists j, z. split; [|done]. repeat split; auto. rewrite Hlk, decide_False; [done|].
        intros ->. congruence.
    + intros (j & z & (Hj & Hz & Hzd & Hzb) & Hzf). rewrite Hlk in Hz.
      destruct (decide (j = i)) as [Ej|Ej], (decide (b' = b)) as [Eb|Eb].
      * congruence.
      * congruence.
      * exfalso. apply Ej. eapply (bc_uniq _ _ Hok j i z x); eauto. congruence.
      * apply (bv_pin _ _ _ _ _ _ HV). by exists j, z.
  - intros b'. unfold put_buf. erewrite block_val_insert by eauto. unfold caches.
    rewrite Hd, Hb, Hxd, Hxb, Hv, Hxv. destruct (Z.eqb_spec b b') as [->|Hne].
    + simpl. by rewrite vupd_eq.
    + rewrite andb_false_r, andb_false_l. rewrite vupd_ne by congruence. apply (bv_val _ _ _ _ _ _ HV).
Qed.

(** Writing to the disk the block a held buffer holds. *)
Lemma bview_disk_put i b d :
  (i, b) ∈ H -> length d = Z.to_nat BSIZE -> bview (disk_put b d k) c pid H L V.
Proof.
  intros Hin Hlen. destruct (bv_ok _ _ _ _ _ _ HV) as [lru Hok].
  destruct (bview_buf i b Hin) as (x & Hh & Hl & _ & Hv & _). destruct HV as [_ ? ? ? ? ? ?].
  pose proof Hh as (Hi & Hx & Hd & Hb).
  split; auto.
  - exists lru. destruct Hok as [? ? ? ? Hbuf Huniq Hdisk]. split; auto.
    + intros j y Hj Hy. destruct (Hbuf j y Hj Hy) as [? ? ? ? Hcl ? ?]. split; auto.
      intros Hyd Hyf Hyl. rewrite Hcl by auto. simpl. symmetry. apply vupd_ne. intros Eb.
      assert (j = i) as -> by (eapply (Huniq j i y x); eauto; congruence).
      change (k_bufs k !! i = Some y) in Hy. rewrite Hx in Hy. injection Hy as <-. by rewrite Hl in Hyl.
    + intros b'. simpl. unfold disk_upd. by case_bool.
  - intros b'. rewrite <- bv_val0. unfold block_val. simpl.
    destruct (list_find _ _) as [[j y]|] eqn:E; [done|]. unfold disk_upd.
    destruct (Z.eqb_spec b' b) as [->|]; [|done]. exfalso.
    apply list_find_None in E. rewrite Forall_forall in E. apply (E x); [|done].
    apply list_elem_of_lookup. exists i. by rewrite lookup_take_lt.
Qed.

End Ops.

Section Instance.
Context (k : kernel) (c : nat) (pid : Z) (H : list (nat * Z)) (L : list Z) (V : Z -> list Z).

(** Only the blocks matter, not the function that gives them. *)
Lemma bview_ext V' :
  (forall b, V' b = V b) -> bview k c pid H L V -> bview k c pid H L V'.
Proof. intros E []. split; auto. intros b. by rewrite E. Qed.

Lemma bview_pinned L' :
  bview k c pid H L V -> (forall b, b ∈ L' <-> b ∈ L) -> bview k c pid H L' V.
Proof. intros [] E. split; auto. intros b. by rewrite E. Qed.

Lemma bview_perm H' : bview k c pid H L V -> H' ≡ₚ H -> bview k c pid H' L V.
Proof.
  intros [] E. split; auto.
  - intros i b. rewrite E. auto.
  - intros i x Hi Hx Hn. eapply bv_free0; eauto. by rewrite E in Hn.
  - by rewrite E.
Qed.

Lemma vupd_id b b' : vupd V b (V b) b' = V b'.
Proof. unfold vupd, disk_upd. by destruct (Z.eqb_spec b' b) as [->|]. Qed.

Lemma bview_frame f :
  bview k c pid H L V -> (forall k, k_bufs (f k) = k_bufs k /\ k_disk (f k) = k_disk k /\
      k_ptable (f k) = k_ptable k /\ k_held (f k) = k_held k /\ k_cur (f k) = k_cur k /\
      k_disksize (f k) = k_disksize k) -> bview (f k) c pid H L V.
Proof.
  intros [[lru Hok] Hrun Hheld Hfree Hnd Hpin Hval] Hf.
  destruct (Hf k) as (E1 & E2 & E3 & E4 & E5 & E6).
  assert (Hh : forall i x b, holds_block (f k) i x b <-> holds_block k i x b).
  { intros. unfold holds_block. by rewrite E1. }
  split.
  - exists lru. destruct Hok as [? ? ? ? Hbuf ? ?]. split; rewrite ?E1, ?E2; auto.
    intros i b Hi Hb. destruct (Hbuf i b Hi Hb). split; rewrite ?E2, ?E6; auto.
  - unfold running. by rewrite E3, E4, E5.
  - intros i b Hib. destruct (Hheld i b Hib) as (x & Hx & ?). exists x. by rewrite Hh.
  - by rewrite E1.
  - done.
  - intros b. rewrite Hpin. unfold is_dirty. by setoid_rewrite Hh.
  - intros b. rewrite <- Hval. unfold block_val. by rewrite E1, E2.
Qed.

Hypothesis HV : bview k c pid H L V.

Lemma bview_set_data i b d :
  (i, b) ∈ H -> length d = Z.to_nat BSIZE ->
  exists k', upd_buf i (set_b_data d) k = Ok tt k' /\ bview k' c pid H L (vupd V b d) /\
    erase k' = erase k /\ k_disk k' = k_disk k /\ k_dtrace k' = k_dtrace k.
Proof.
  intros Hin Hd. destruct (bview_buf _ _ _ _ _ _ HV i b Hin)
    as (x & (Hi & Hx & Hxd & Hxb) & _ & _ & Hv & _ & Hbo).
  exists (put_buf i (set_b_data d x) k). split; [by apply upd_buf_ok|]. split; [|done].
  apply (bview_put _ _ _ _ _ _ HV i b x (set_b_data d x) L); auto; [apply Hbo|].
  intros b'. case_decide as Eb; [|done]. subst b'. rewrite (bv_pin _ _ _ _ _ _ HV).
  destruct (bv_ok _ _ _ _ _ _ HV) as [lru Hok]. split.
  - intros (j & y & (Hj & Hy & Hyd & Hyb) & Hyf).
    assert (j = i) as -> by (eapply (bc_uniq _ _ Hok j i y x); eauto; congruence). simpl. congruence.
  - intros Hf. by exists i, x.
Qed.

Lemma bview_mark i b :
  (i, b) ∈ H ->
  exists k', upd_buf i (fun x => set_b_flags (Z.lor (b_flags x) B_DIRTY) x) k = Ok tt k' /\
    bview k' c pid H (b :: L) V /\
    erase k' = erase k /\ k_disk k' = k_disk k /\ k_dtrace k' = k_dtrace k.
Proof.
  intros Hin. destruct (bview_buf _ _ _ _ _ _ HV i b Hin)
    as (x & (Hi & Hx & Hxd & Hxb) & _ & _ & Hv & Hdat & Hbo).
  pose proof (flags_valid _ (bo_flags _ _ Hbo) Hv) as Ef.
  exists (put_buf i (set_b_flags (Z.lor (b_flags x) B_DIRTY) x) k).
  split; [by apply (upd_buf_ok k i x (fun x => set_b_flags (Z.lor (b_flags x) B_DIRTY) x))|]. split; [|done].
  pose proof (bview_put _ _ _ _ _ _ HV i b x (set_b_flags (Z.lor (b_flags x) B_DIRTY) x) (b :: L)) as HP.
  simpl in HP. rewrite Ef, Hdat in HP.
  assert (Hw : bview (put_buf i (set_b_flags (Z.lor B_VALID B_DIRTY) x) k) c pid H (b :: L) (vupd V b (V b))).
  { apply HP; auto; [by right; right|apply (bview_length _ _ _ _ _ _ HV)|]. intros b'.
    rewrite elem_of_cons. case_decide; [tauto|]. tauto. }
  rewrite Ef. destruct Hw. split; auto. intros b'. by rewrite bv_val0, vupd_id.
Qed.

Lemma bview_bwrite i b :
  (i, b) ∈ H ->
  exists k', bwrite i k = Ok tt k' /\ bview k' c pid H (without b L) V /\
    erase k' = erase k /\ k_disk k' = vupd (k_disk k) b (V b) /\
    k_dtrace k' = (b, V b) :: k_dtrace k.
Proof.
  intros Hin. destruct (bview_buf _ _ _ _ _ _ HV i b Hin)
    as (x & (Hi & Hx & Hxd & Hxb) & Hl & _ & Hv & Hdat & Hbo).
  exists (put_buf i (set_b_flags B_VALID x) (disk_put b (V b) k)).
  split.
  { rewrite <- Hdat, <- Hxb. apply (bwrite_ok k c pid i x); auto.
    - apply (bv_run _ _ _ _ _ _ HV).
    - apply Hbo.
    - apply (bo_range _ _ Hbo). done. }
  split; [|done].
  pose proof (bview_disk_put _ _ _ _ _ _ HV i b (V b) Hin (bview_length _ _ _ _ _ _ HV b)) as HV'.
  pose proof (bview_put _ _ _ _ _ _ HV' i b x (set_b_flags B_VALID x) (without b L)) as HP.
  simpl in HP. rewrite Hdat in HP.
  assert (Hw : bview (put_buf i (set_b_flags B_VALID x) (disk_put b (V b) k)) c pid H (without b L)
                 (vupd V b (V b))).
  { apply HP; auto; [by right; left|apply (bview_length _ _ _ _ _ _ HV)|]. intros b'.
    rewrite elem_of_without. case_decide; [naive_solver|tauto]. }
  destruct Hw. split; auto. intros b'. by rewrite bv_val0, vupd_id.
Qed.

End Instance.

(** [brelse] of the buffer taken last. *)
Lemma bview_brelse k c pid H L V i b :
  bview k c pid ((i, b) :: H) L V -> b ∈ L \/ V b = k_disk k b ->
  exists k', brelse i k = Ok tt k' /\ bview k' c pid H L V /\
    erase k' = erase k /\ k_disk k' = k_disk k /\ k_dtrace k' = k_dtrace k.
Proof.
  intros HV Hcl. destruct (bv_ok _ _ _ _ _ _ HV) as [lru Hok].
  destruct (bview_buf _ _ _ _ _ _ HV i b) as (x & (Hi & Hx & Hxd & Hxb) & Hl & Hr & Hv & Hdat & Hbo);
    [set_solver|].
  assert (Hclean : b_dev x = ROOTDEV -> b_flags x = B_VALID -> b_data x = k_disk k (b_blockno x)).
  { intros _ Hf. rewrite Hdat, Hxb. destruct Hcl as [HL|]; [|done].
    apply (bv_pin _ _ _ _ _ _ HV) in HL as (j & y & (Hj & Hy & Hyd & Hyb) & Hyf).
    assert (j = i) as -> by (eapply (bc_uniq _ _ Hok j i y x); eauto; congruence).
    rewrite Hx in Hy. injection Hy as <-. by rewrite Hf in Hyf. }
  exists (brelse_state i x k).
  destruct (brelse_state_ok k lru i x Hok Hi Hx ltac:(lia) Hclean) as [Hok' Hval].
  split. { eapply brelse_eq; eauto; [apply (bv_run _ _ _ _ _ _ HV)|apply (bc_len _ _ Hok)]. }
  assert (Hs : same_bufs (<[i := released_buf x]> (k_bufs k)) (k_bufs (brelse_state i x k))).
  { unfold brelse_state. simpl. case_bool; [apply same_bufs_move|done]. }
  assert (Hlk : forall j y, k_bufs (brelse_state i x k) !! j = Some y ->
    exists z, (if decide (j = i) then Some (released_buf x) else k_bufs k !! j) = Some z /\
      unlinked_buf y = unlinked_buf z).
  { intros j y Hy. destruct (same_bufs_lookup _ _ _ _ Hs Hy) as (z & Hz & E). exists z. split; [|done].
    case_decide; [subst; rewrite list_lookup_insert_eq in Hz by (by eapply lookup_lt_Some); done|].
    by rewrite list_lookup_insert_ne in Hz. }
  assert (Hlk' : forall j z, k_bufs k !! j = Some z -> j <> i ->
    exists y, k_bufs (brelse_state i x k) !! j = Some y /\ unlinked_buf z = unlinked_buf y).
  { intros j z Hz Hne. assert (same_bufs (k_bufs (brelse_state i x k)) (<[i := released_buf x]> (k_bufs k)))
      as Hs' by (unfold same_bufs in *; congruence).
    destruct (same_bufs_lookup _ _ j z Hs') as (y & Hy & E); [by rewrite list_lookup_insert_ne|].
    by exists y. }
  pose proof (bv_nodup _ _ _ _ _ _ HV) as Hnd. rewrite fmap_cons in Hnd.
  apply NoDup_cons in Hnd as [HiH Hnd].
  split; [|done]. split.
  - by eexists.
  - exact (running_wakeup k c pid (C_buflock i) (bv_run _ _ _ _ _ _ HV)).
  - intros j b' Hj. destruct (bv_held _ _ _ _ _ _ HV j b') as (z & (Hj1 & Hz & Hzd & Hzb) & Hzl & Hzr & Hzv);
      [set_solver|].
    assert (Hne : j <> i) by (intros ->; apply HiH, list_elem_of_fmap; by exists (i, b')).
    destruct (Hlk' j z Hz Hne) as (y & Hy & E). destruct (unlinked_fields _ _ E) as (E1 & E2 & E3 & E4 & E5 & E6).
    exists y. unfold holds_block. by rewrite <- E1, <- E2, <- E3, <- E4, <- E5.
  - intros j y Hj Hy Hnj. destruct (Hlk j y Hy) as (z & Hz & E).
    destruct (unlinked_fields _ _ E) as (_ & _ & _ & _ & -> & _). case_decide as Hji.
    + injection Hz as <-. simpl. by rewrite Hr.
    + eapply (bv_free _ _ _ _ _ _ HV); eauto. rewrite fmap_cons. by apply not_elem_of_cons.
  - done.
  - intros b'. rewrite (bv_pin _ _ _ _ _ _ HV). split.
    + intros (j & z & (Hj & Hz & Hzd & Hzb) & Hzf). destruct (decide (j = i)) as [->|Hne].
      * rewrite Hx in Hz. injection Hz as <-.
        destruct (lookup_lt_is_Some_2 (k_bufs (brelse_state i x k)) i) as [y Hy].
        { rewrite (bc_len _ _ Hok'). lia. }
        destruct (Hlk i y Hy) as (z & Hz & E). rewrite decide_True in Hz by done. injection Hz as <-.
        destruct (unlinked_fields _ _ E) as (E1 & E2 & E3 & _). exists i, y.
        unfold holds_block. by rewrite E1, E2, E3.
      * destruct (Hlk' j z Hz Hne) as (y & Hy & E). destruct (unlinked_fields _ _ E) as (E1 & E2 & E3 & _).
        exists j, y. unfold holds_block. by rewrite <- E1, <- E2, <- E3.
    + intros (j & y & (Hj & Hy & Hyd & Hyb) & Hyf). destruct (Hlk j y Hy) as (z & Hz & E).
      destruct (unlinked_fields _ _ E) as (E1 & E2 & E3 & _). case_decide as Hji.
      * injection Hz as <-. subst j. exists i, x. unfold holds_block. simpl in *.
        by rewrite <- E1, <- E2, <- E3.
      * exists j, z. unfold holds_block. by rewrite <- E1, <- E2, <- E3.
  - intros b'. rewrite Hval. apply (bv_val _ _ _ _ _ _ HV).
Qed.

#[export] Instance bio_BlockCache : BlockCache bview.
Proof.
  split.
  - intros ??????. apply bv_run.
  - intros ??????? HV. by eapply bview_length.
  - intros ??????? HV. by eapply bview_clean.
  - intros. by eapply bview_pinned.
  - intros. by eapply bview_perm.
  - intros. by eapply bview_ext.
  - intros. by apply bview_frame.
  - intros. by apply bview_bread.
  - intros k c pid H L V i b HV Hin. destruct (bview_buf _ _ _ _ _ _ HV i b Hin)
      as (x & (_ & Hx & _ & Hb) & _ & _ & _ & Hd & _). exists x. by rewrite (get_buf_ok _ _ _ Hx).
  - intros. by eapply bview_set_data.
  - intros. by eapply bview_mark.
  - intros. by eapply bview_bwrite.
  - intros. by eapply bview_brelse.
Qed.

(** ** After boot *)

(** A machine with disk [d] that has run [binit]; process 0 (pid 7) runs. *)
Definition ready_on (d : Z -> list Z) : kernel := set_k_bufs binit_bufs (set_k_disk d boot1).

Lemma ready_view d :
  (forall b, length (d b) = Z.to_nat BSIZE) -> bview (ready_on d) 0 7 [] [] d.
Proof.
  intros Hd. destruct (binit_state_ok (set_k_disk d boot1) Hd) as [Hok Hv].
  assert (HF : Forall (fun b => b_refcnt b = 0 /\ b_flags b = 0) binit_bufs) by (repeat constructor).
  rewrite Forall_forall in HF.
  split.
  - by eexists.
  - repeat split. by eexists.
  - intros i b Hi. by apply elem_of_nil in Hi.
  - intros i x _ Hx _. apply HF. by eapply list_elem_of_lookup_2.
  - constructor.
  - intros b. split; [by intros ?%elem_of_nil|]. intros (i & x & (_ & Hx & _) & Hf).
    destruct (HF x) as [_ E]; [by eapply list_elem_of_lookup_2|]. by rewrite E in Hf.
  - exact Hv.
Qed.
