(* ===== verification/Log.v ===== *)
(** * Log: the write-ahead log (log.c)

    Every block a file system call changes is recorded in the in-memory log header
    and kept dirty in the cache; when the last call in progress ends, [commit]
    copies the blocks to the log, writes the header, copies them home and erases
    the header.  The theorems show that a crash at any disk write leaves a disk
    from which recovery restores either all or none of the transaction, what
    [log_write] records, and that the reservations of [begin_op] never let a
    transaction outgrow the log. *)

From S2P Require Import Prelude Bytes Kernel Sync Bio Cache.

(** ** Operations *)

Definition upd_log (f : logstate -> logstate) : KM unit :=
  modify (fun k => set_k_log (f (k_log k)) k).

Definition set_data (i : nat) (d : list Z) : KM unit := upd_buf i (set_b_data d).

(** [memmove(sb, bp->data, sizeof( *sb))] (fs.c). *)
Definition decode_sb (d : list Z) : superblock :=
  mk_superblock (get32 d 0) (get32 d 4) (get32 d 8) (get32 d 12) (get32 d 16) (get32 d 20)
    (get32 d 24).

Definition readsb (dev : Z) : KM superblock :=
  let! i := bread dev 1 in
  let! b := get_buf i in
  brelse i ;;;
  ret (decode_sb (b_data b)).

(** [log.lh.block[i]] in memory and [lh->block[i]] in the header block. *)
Definition lh_get (i : nat) : KM Z := fun k =>
  match lh_block (k_log k) !! i with Some b => Ok b k | None => Fault "lh.block" end.

Definition lh_put (i : nat) (v : Z) : KM unit := fun k =>
  if decide (i < length (lh_block (k_log k)))%nat
  then Ok tt (set_k_log (set_lh_block (<[i := v]> (lh_block (k_log k))) (k_log k)) k)
  else Fault "lh.block".

Definition hb_off (i : nat) : nat := (4 + 4 * i)%nat.

(** Runs [body] for [tail = i, ..., i + n - 1]. *)
Fixpoint for_tail (n i : nat) (body : nat -> KM unit) : KM unit :=
  match n with
  | O => ret tt
  | S n' => body i ;;; for_tail n' (S i) body
  end.

Definition install_one (tail : nat) : KM unit :=
  let! k := get in
  let lg := k_log k in
  let! lbuf := bread (l_dev lg) (u32 (l_start lg + Z.of_nat tail + 1)) in
  let! dst := lh_get tail in
  let! dbuf := bread (l_dev lg) (u32 dst) in
  let! lb := get_buf lbuf in
  set_data dbuf (b_data lb) ;;;
  bwrite dbuf ;;;
  brelse lbuf ;;;
  brelse dbuf.

Definition install_trans : KM unit :=
  let! k := get in
  for_tail (Z.to_nat (lh_n (k_log k))) 0 install_one.

Definition read_head : KM unit :=
  let! k := get in
  let! i := bread (l_dev (k_log k)) (u32 (l_start (k_log k))) in
  let! b := get_buf i in
  let n := i32 (get32 (b_data b) 0) in
  upd_log (set_lh_n n) ;;;
  for_tail (Z.to_nat n) 0 (fun j => lh_put j (i32 (get32 (b_data b) (hb_off j)))) ;;;
  brelse i.

Definition write_head : KM unit :=
  let! k := get in
  let! i := bread (l_dev (k_log k)) (u32 (l_start (k_log k))) in
  let! b := get_buf i in
  set_data i (set32 (b_data b) 0 (lh_n (k_log k))) ;;;
  for_tail (Z.to_nat (lh_n (k_log k))) 0 (fun j =>
    let! v := lh_get j in
    let! b := get_buf i in
    set_data i (set32 (b_data b) (hb_off j) v)) ;;;
  bwrite i ;;;
  brelse i.

Definition recover_from_log : KM unit :=
  read_head ;;;
  install_trans ;;;
  upd_log (set_lh_n 0) ;;;
  write_head.

(** [sizeof(struct logheader)] is [4 + 4 * LOGSIZE]. *)
Definition initlog (dev : Z) : KM unit :=
  if BSIZE <=? 4 + 4 * LOGSIZE then panic "initlog: too big logheader" else
  let! sb := readsb dev in
  upd_log (set_l_start (i32 (sb_logstart sb))) ;;;
  upd_log (set_l_size (i32 (sb_nlog sb))) ;;;
  upd_log (set_l_dev dev) ;;;
  recover_from_log.

(** A call that has to wait gives up the processor in [sleep] and takes up the loop
    again when it is woken: one run of [begin_op] is one turn of the loop. *)
Definition begin_op : KM unit :=
  acquire L_log ;;;
  let! k := get in
  let lg := k_log k in
  if l_committing lg then sleep_again C_log L_log else
  if LOGSIZE <? lh_n lg + (l_outstanding lg + 1) * MAXOPBLOCKS then sleep_again C_log L_log else
  upd_log (set_l_outstanding (l_outstanding lg + 1)) ;;;
  release L_log.

Definition write_one (tail : nat) : KM unit :=
  let! k := get in
  let lg := k_log k in
  let! to := bread (l_dev lg) (u32 (l_start lg + Z.of_nat tail + 1)) in
  let! src := lh_get tail in
  let! from := bread (l_dev lg) (u32 src) in
  let! fb := get_buf from in
  set_data to (b_data fb) ;;;
  bwrite to ;;;
  brelse from ;;;
  brelse to.

Definition write_log : KM unit :=
  let! k := get in
  for_tail (Z.to_nat (lh_n (k_log k))) 0 write_one.

Definition commit : KM unit :=
  let! k := get in
  if 0 <? lh_n (k_log k) then
    write_log ;;;
    write_head ;;;
    install_trans ;;;
    upd_log (set_lh_n 0) ;;;
    write_head
  else ret tt.

Definition end_op : KM unit :=
  acquire L_log ;;;
  upd_log (fun lg => set_l_outstanding (l_outstanding lg - 1) lg) ;;;
  let! k := get in
  if l_committing (k_log k) then panic "log.committing" else
  let do_commit := l_outstanding (k_log k) =? 0 in
  (if do_commit then upd_log (set_l_committing true) else wakeup C_log) ;;;
  release L_log ;;;
  if do_commit then
    commit ;;;
    acquire L_log ;;;
    upd_log (set_l_committing false) ;;;
    wakeup C_log ;;;
    release L_log
  else ret tt.

(** The search of [log_write]: the first [i < n] with [block[i] == blockno], or [n]. *)
Fixpoint log_find (blocks : list Z) (blockno : Z) (n i : nat) : nat :=
  match n with
  | O => i
  | S n' =>
      match blocks !! i with
      | Some b => if u32 b =? blockno then i else log_find blocks blockno n' (S i)
      | None => i
      end
  end.

Definition log_write (bi : nat) : KM unit :=
  let! k := get in
  let lg := k_log k in
  if (LOGSIZE <=? lh_n lg) || (l_size lg - 1 <=? lh_n lg) then panic "too big a transaction" else
  if l_outstanding lg <? 1 then panic "log_write outside of trans" else
  acquire L_log ;;;
  let! b := get_buf bi in
  let i := log_find (lh_block lg) (b_blockno b) (Z.to_nat (lh_n lg)) 0 in
  lh_put i (i32 (b_blockno b)) ;;;
  when (Z.of_nat i =? lh_n lg) (upd_log (set_lh_n (lh_n lg + 1))) ;;;
  upd_buf bi (fun b => set_b_flags (Z.lor (b_flags b) B_DIRTY) b) ;;;
  release L_log.

(** ** Disk writes in order *)

Definition apply_writes (d : Z -> list Z) (W : list (Z * list Z)) : Z -> list Z :=
  foldl (fun d w => vupd d w.1 w.2) d W.

Lemma apply_writes_app d W1 W2 : apply_writes d (W1 ++ W2) = apply_writes (apply_writes d W1) W2.
Proof. apply foldl_app. Qed.

Lemma apply_writes_out d W b : b ∉ W.*1 -> apply_writes d W b = d b.
Proof.
  revert d. induction W as [|[b' v] W IH]; intros d Hn; [done|].
  rewrite fmap_cons in Hn. apply not_elem_of_cons in Hn as [Hn1 Hn2].
  change (apply_writes (vupd d b' v) W b = d b). rewrite IH by done. by apply vupd_ne.
Qed.

Lemma apply_writes_in d W j b v :
  NoDup (W.*1) -> W !! j = Some (b, v) -> apply_writes d W b = v.
Proof.
  revert d j. induction W as [|[b' v'] W IH]; intros d j Hnd Hj; [done|].
  rewrite fmap_cons in Hnd. apply NoDup_cons in Hnd as [Hn Hnd].
  change (apply_writes (vupd d b' v') W b = v). destruct j as [|j]; simpl in Hj.
  - injection Hj as -> ->. rewrite apply_writes_out by done. apply vupd_eq.
  - by apply (IH _ j).
Qed.

(** [k'] is [k] after the disk writes [W] and changes to the buffers only. *)
Definition wrote (k k' : kernel) (W : list (Z * list Z)) : Prop :=
  k_disk k' = apply_writes (k_disk k) W /\ k_dtrace k' = rev W ++ k_dtrace k /\
  erase k' = erase k.

Lemma wrote_refl k k' :
  erase k' = erase k -> k_disk k' = k_disk k -> k_dtrace k' = k_dtrace k -> wrote k k' [].
Proof. done. Qed.

Lemma wrote_trans k1 k2 k3 W1 W2 : wrote k1 k2 W1 -> wrote k2 k3 W2 -> wrote k1 k3 (W1 ++ W2).
Proof.
  intros (E1 & E2 & E3) (F1 & F2 & F3). repeat split; try congruence.
  - by rewrite F1, E1, apply_writes_app.
  - by rewrite F2, E2, rev_app_distr, app_assoc.
Qed.

Lemma erase_log k k' : erase k' = erase k -> k_log k' = k_log k /\ k_disksize k' = k_disksize k.
Proof.
  intros E. split; [exact (f_equal k_log E)|exact (f_equal k_disksize E)].
Qed.

(** ** The transaction in memory *)

Section Geometry.
(** The log occupies the [sz] blocks from [st]: the header and [sz - 1] copies. *)
Context (st sz : Z).

(** The in-memory header records the blocks [bs]. *)
Record log_ok (k : kernel) (bs : list Z) : Prop := {
  lo_dev : l_dev (k_log k) = ROOTDEV;
  lo_start : l_start (k_log k) = st;
  lo_size : l_size (k_log k) = sz;
  lo_n : lh_n (k_log k) = Z.of_nat (length bs);
  lo_blocks : take (length bs) (lh_block (k_log k)) = bs;
  lo_len : length (lh_block (k_log k)) = Z.to_nat LOGSIZE;
  lo_geom : 0 <= st /\ 1 <= sz /\ st + sz <= k_disksize k /\ k_disksize k < 2 ^ 31
}.

(** Blocks that can be logged: blocks of the disk outside the log, all different, and
    no more of them than the log and the cache have room for. *)
Record loggable (k : kernel) (bs : list Z) : Prop := {
  lg_in : forall b, b ∈ bs -> 0 <= b < k_disksize k /\ ~ (st <= b < st + sz);
  lg_nodup : NoDup bs;
  lg_room : Z.of_nat (length bs) <= sz - 1 /\ (length bs < NBUF)%nat
}.

Lemma log_ok_lookup k bs j b : log_ok k bs -> bs !! j = Some b -> lh_block (k_log k) !! j = Some b.
Proof.
  intros Hlo Hj. pose proof (lookup_lt_Some _ _ _ Hj). rewrite <- (lo_blocks _ _ Hlo) in Hj.
  by rewrite lookup_take_lt in Hj.
Qed.

Lemma log_ok_erase k k' bs : erase k' = erase k -> log_ok k bs -> log_ok k' bs.
Proof. intros E []. apply erase_log in E as [E1 E2]. split; rewrite ?E1, ?E2; auto. Qed.

Lemma loggable_erase k k' bs : erase k' = erase k -> loggable k bs -> loggable k' bs.
Proof. intros E []. apply erase_log in E as [E1 E2]. split; rewrite ?E2; auto. Qed.

(** ** What the writes of a commit are *)

(** The copies of the blocks [bs] to the log slots from slot [i]. *)
Fixpoint log_copies (V : Z -> list Z) (i : nat) (bs : list Z) : list (Z * list Z) :=
  match bs with
  | [] => []
  | b :: bs' => (st + Z.of_nat i + 1, V b) :: log_copies V (S i) bs'
  end.

(** The copies of the log slots from slot [i] to the blocks [bs]. *)
Fixpoint home_copies (V : Z -> list Z) (i : nat) (bs : list Z) : list (Z * list Z) :=
  match bs with
  | [] => []
  | b :: bs' => (b, V (st + Z.of_nat i + 1)) :: home_copies V (S i) bs'
  end.

(** The header block that records [bs], over the contents [h]. *)
Fixpoint put_blocks (h : list Z) (i : nat) (bs : list Z) : list Z :=
  match bs with
  | [] => h
  | b :: bs' => put_blocks (set32 h (hb_off i) b) (S i) bs'
  end.
Definition head_block (h : list Z) (bs : list Z) : list Z :=
  put_blocks (set32 h 0 (Z.of_nat (length bs))) 0 bs.

Definition commit_writes (V : Z -> list Z) (bs : list Z) : list (Z * list Z) :=
  let h := head_block (V st) bs in
  log_copies V 0 bs ++ [(st, h)] ++ ((fun b => (b, V b)) <$> bs) ++ [(st, set32 h 0 0)].

Lemma log_copies_dom V i bs x :
  x ∈ (log_copies V i bs).*1 -> st + Z.of_nat i + 1 <= x < st + Z.of_nat i + 1 + Z.of_nat (length bs).
Proof.
  revert i. induction bs as [|b bs IH]; intros i; cbn [log_copies]; [by intros ?%elem_of_nil|].
  rewrite fmap_cons, elem_of_cons. cbn [length fst]. intros [->|Hx]; [lia|].
  apply IH in Hx. lia.
Qed.

Lemma log_copies_nodup V i bs : NoDup ((log_copies V i bs).*1).
Proof.
  revert i. induction bs as [|b bs IH]; intros i; cbn [log_copies]; [constructor|].
  rewrite fmap_cons. apply NoDup_cons. split; [|apply IH].
  intros Hx%log_copies_dom. simpl in Hx. lia.
Qed.

Lemma log_copies_lookup V i bs j b :
  bs !! j = Some b -> log_copies V i bs !! j = Some (st + Z.of_nat (i + j) + 1, V b).
Proof.
  revert i j. induction bs as [|b' bs IH]; intros i j Hj; [done|]. destruct j as [|j]; simpl in *.
  - injection Hj as ->. by rewrite Nat.add_0_r.
  - rewrite (IH (S i) j) by done. by replace (S i + j)%nat with (i + S j)%nat by lia.
Qed.

Lemma home_copies_dom V i bs : (home_copies V i bs).*1 = bs.
Proof. revert i. induction bs; intros; simpl; [done|]. by f_equal. Qed.

Lemma home_copies_lookup V i bs j b :
  bs !! j = Some b -> home_copies V i bs !! j = Some (b, V (st + Z.of_nat (i + j) + 1)).
Proof.
  revert i j. induction bs as [|b' bs IH]; intros i j Hj; [done|]. destruct j as [|j]; simpl in *.
  - injection Hj as ->. by rewrite Nat.add_0_r.
  - rewrite (IH (S i) j) by done. by replace (S i + j)%nat with (i + S j)%nat by lia.
Qed.

Lemma log_copies_agree V V' i bs :
  (forall b, b ∈ bs -> V b = V' b) -> log_copies V i bs = log_copies V' i bs.
Proof.
  revert i. induction bs as [|b bs IH]; intros i E; simpl; [done|].
  rewrite (E b) by set_solver. f_equal. apply IH. intros. apply E. set_solver.
Qed.

Lemma home_copies_agree V V' i bs :
  (forall j, (j < length bs)%nat -> V (st + Z.of_nat (i + j) + 1) = V' (st + Z.of_nat (i + j) + 1)) ->
  home_copies V i bs = home_copies V' i bs.
Proof.
  revert i. induction bs as [|b bs IH]; intros i E; simpl; [done|]. f_equal.
  - f_equal. specialize (E 0%nat). rewrite Nat.add_0_r in E. apply E. simpl. lia.
  - apply IH. intros j Hj. replace (S i + j)%nat with (i + S j)%nat by lia. apply E. simpl. lia.
Qed.

(** ** The operations, on the interface of the cache *)

Context {view : kernel -> nat -> Z -> list (nat * Z) -> list Z -> (Z -> list Z) -> Prop}.
Context `{!BlockCache view}.
Context (c : nat) (pid : Z).

Lemma lh_get_ok k bs j b : log_ok k bs -> bs !! j = Some b -> lh_get j k = Ok b k.
Proof. intros Hlo Hj. unfold lh_get. by rewrite (log_ok_lookup k bs j b). Qed.

Lemma slot_number k bs i :
  log_ok k bs -> (i < length bs)%nat -> Z.of_nat (length bs) <= sz - 1 ->
  l_start (k_log k) + Z.of_nat i + 1 = st + Z.of_nat i + 1 /\
  u32 (st + Z.of_nat i + 1) = st + Z.of_nat i + 1 /\ 0 <= st + Z.of_nat i + 1 < k_disksize k.
Proof.
  intros Hlo Hi Hr. destruct (lo_geom _ _ Hlo) as (? & ? & ? & ?). rewrite (lo_start _ _ Hlo).
  split; [done|]. rewrite u32_small; lia.
Qed.

Lemma write_one_ok k V bs L j b :
  view k c pid [] L V -> log_ok k bs -> loggable k bs -> bs !! j = Some b ->
  b ∈ L -> (forall x, x ∈ L -> x ∈ bs) -> (length L < NBUF)%nat ->
  exists k', write_one j k = Ok tt k' /\
    view k' c pid [] L (vupd V (st + Z.of_nat j + 1) (V b)) /\
    wrote k k' [(st + Z.of_nat j + 1, V b)].
Proof.
  intros HV Hlo Hlg Hj HbL HL Hlen. pose proof (lookup_lt_Some _ _ _ Hj) as Hjl.
  set (s := st + Z.of_nat j + 1).
  destruct (slot_number k bs j Hlo Hjl (proj1 (lg_room _ _ Hlg))) as (E1 & E2 & E3). fold s in E1, E2, E3.
  assert (Hbb : b ∈ bs) by (by eapply list_elem_of_lookup_2).
  destruct (lg_in _ _ Hlg b Hbb) as [Hb Hbl]. destruct (lo_geom _ _ Hlo) as (Hg1 & Hg0 & Hg2 & Hg3).
  assert (Hs : s ∉ L).
  { intros Hs%HL%(lg_in _ _ Hlg). destruct (lg_room _ _ Hlg). lia. }
  unfold write_one. mget. rewrite (lo_dev _ _ Hlo), E1, E2.
  destruct (bc_bread k c pid [] L V s HV E3) as (i & k1 & F1 & V1 & R1 & D1 & T1);
    [set_solver|by left|].
  mstep F1. mstep (lh_get_ok _ _ _ _ (log_ok_erase _ _ _ R1 Hlo) Hj). rewrite (u32_small b) by lia.
  destruct (erase_log _ _ R1) as [_ Hds1].
  destruct (bc_bread k1 c pid [(i, s)] L V b V1) as (i2 & k2 & F2 & V2 & R2 & D2 & T2).
  { lia. }
  { intros Hin%list_elem_of_singleton. subst. done. }
  { by right. }
  mstep F2. destruct (bc_get_buf k2 c pid _ L V i2 b V2) as (x & Fx & Hxd & _); [set_solver|].
  mstep Fx. unfold set_data.
  destruct (bc_set_data k2 c pid _ L V i s (b_data x) V2) as (k3 & F3 & V3 & R3 & D3 & T3);
    [set_solver|rewrite Hxd; by eapply bc_length|].
  mstep F3. destruct (bc_bwrite k3 c pid _ L _ i s V3) as (k4 & F4 & V4 & R4 & D4 & T4); [set_solver|].
  mstep F4. rewrite vupd_eq, Hxd in *.
  assert (V5 : view k4 c pid [(i2, b); (i, s)] L (vupd V s (V b))).
  { eapply bc_pinned; [exact V4|]. intros y. rewrite elem_of_without. set_solver. }
  destruct (bc_brelse k4 c pid [(i, s)] L _ i2 b V5) as (k5 & F5 & V6 & R5 & D5 & T5); [by left|].
  mstep F5.
  destruct (bc_brelse k5 c pid [] L _ i s V6) as (k6 & F6 & V7 & R6 & D6 & T6).
  { right. rewrite D5, D4. by rewrite !vupd_eq. }
  exists k6. split; [exact F6|]. split; [done|].
  repeat split; [|simpl; congruence|congruence].
  rewrite D6, D5, D4, D3, D2, D1. done.
Qed.

Lemma write_loop_ok bs L : forall bs' i k V,
  view k c pid [] L V -> log_ok k bs -> loggable k bs ->
  (forall j b, bs' !! j = Some b -> bs !! (i + j)%nat = Some b) ->
  (forall b, b ∈ bs' -> b ∈ L) -> (forall x, x ∈ L -> x ∈ bs) -> (length L < NBUF)%nat ->
  exists k', for_tail (length bs') i write_one k = Ok tt k' /\
    view k' c pid [] L (apply_writes V (log_copies V i bs')) /\
    wrote k k' (log_copies V i bs').
Proof.
  induction bs' as [|b bs' IH]; intros i k V HV Hlo Hlg Hsub HbL HL Hlen; cbn [length for_tail log_copies].
  { exists k. split; [done|]. split; [done|]. by apply wrote_refl. }
  assert (Hj : bs !! i = Some b) by (rewrite <- (Nat.add_0_r i); by apply (Hsub 0%nat)).
  destruct (write_one_ok k V bs L i b HV Hlo Hlg Hj) as (k1 & F1 & V1 & W1); [set_solver|done|done|].
  pose proof W1 as (_ & _ & R1). mstep F1.
  destruct (IH (S i) k1 _ V1 (log_ok_erase _ _ _ R1 Hlo) (loggable_erase _ _ _ R1 Hlg))
    as (k2 & F2 & V2 & W2); [|set_solver|done|done|].
  { intros j b' Hb'. replace (S i + j)%nat with (i + S j)%nat by lia. by apply Hsub. }
  assert (E : log_copies (vupd V (st + Z.of_nat i + 1) (V b)) (S i) bs' = log_copies V (S i) bs').
  { apply log_copies_agree. intros x Hx. apply vupd_ne. intros Ex.
    pose proof (lookup_lt_Some _ _ _ Hj). destruct (lg_room _ _ Hlg).
    assert (Hxb : x ∈ bs) by (apply HL, HbL; set_solver). apply (lg_in _ _ Hlg) in Hxb. lia. }
  rewrite E in V2, W2. exists k2. split; [done|]. split; [exact V2|]. exact (wrote_trans _ _ _ _ _ W1 W2).
Qed.

(** The loop of [write_head] fills the header block. *)
Lemma head_loop_ok bs H L i0 : forall bs' i k V h,
  view k c pid H L V -> log_ok k bs -> (i0, st) ∈ H -> V st = h -> length h = Z.to_nat BSIZE ->
  (forall j b, bs' !! j = Some b -> bs !! (i + j)%nat = Some b) ->
  (hb_off (i + length bs') <= Z.to_nat BSIZE)%nat ->
  exists k', for_tail (length bs') i (fun j =>
      let! v := lh_get j in let! b := get_buf i0 in set_data i0 (set32 (b_data b) (hb_off j) v)) k
      = Ok tt k' /\
    view k' c pid H L (vupd V st (put_blocks h i bs')) /\ wrote k k' [] /\
    length (put_blocks h i bs') = Z.to_nat BSIZE.
Proof.
  induction bs' as [|b bs' IH]; intros i k V h HV Hlo Hin Hh Hlen Hsub Hoff; cbn [length for_tail put_blocks].
  { exists k. split; [done|]. split; [|split; [by apply wrote_refl|done]].
    eapply bc_ext; [exact HV|]. intros b. rewrite <- Hh. apply vupd_id. }
  assert (Hj : bs !! i = Some b) by (rewrite <- (Nat.add_0_r i); by apply (Hsub 0%nat)).
  cbn [length] in Hoff. unfold hb_off in Hoff.
  destruct (bc_set_data k c pid H L V i0 st (set32 h (hb_off i) b) HV Hin) as (k1 & F1 & V1 & R1 & D1 & T1).
  { rewrite length_set32; [done|]. unfold hb_off. lia. }
  assert (Fb : (let! v := lh_get i in let! b := get_buf i0 in
                set_data i0 (set32 (b_data b) (hb_off i) v)) k = Ok tt k1).
  { mstep (lh_get_ok _ _ _ _ Hlo Hj).
    destruct (bc_get_buf k c pid H L V i0 st HV Hin) as (x & Fx & Hxd & _). mstep Fx.
    rewrite Hxd, Hh. exact F1. }
  mstep Fb.
  destruct (IH (S i) k1 _ (set32 h (hb_off i) b) V1 (log_ok_erase _ _ _ R1 Hlo) Hin)
    as (k2 & F2 & V2 & W2 & Hl2).
  - apply vupd_eq.
  - rewrite length_set32; [done|]. unfold hb_off. lia.
  - intros j b' Hb'. replace (S i + j)%nat with (i + S j)%nat by lia. by apply Hsub.
  - unfold hb_off. lia.
  - exists k2. split; [exact F2|]. split; [|split; [|done]].
    + eapply bc_ext; [exact V2|]. intros b'. unfold vupd, disk_upd. by case_bool.
    + exact (wrote_trans k k1 k2 [] [] (wrote_refl _ _ R1 D1 T1) W2).
Qed.

Lemma log_ok_length k bs : log_ok k bs -> (length bs <= 30)%nat.
Proof.
  intros Hlo. pose proof (f_equal length (lo_blocks _ _ Hlo)) as E. rewrite length_take, (lo_len _ _ Hlo) in E.
  change (Z.to_nat LOGSIZE) with 30%nat in E. lia.
Qed.

Lemma write_head_ok k V L bs :
  view k c pid [] L V -> log_ok k bs -> st ∉ L -> (length L < NBUF)%nat ->
  exists k', write_head k = Ok tt k' /\
    view k' c pid [] L (vupd V st (head_block (V st) bs)) /\
    wrote k k' [(st, head_block (V st) bs)].
Proof.
  intros HV Hlo Hst Hlen. destruct (lo_geom _ _ Hlo) as (Hg1 & Hg0 & Hg2 & Hg3).
  pose proof (log_ok_length _ _ Hlo) as Hb30.
  unfold write_head. mget. rewrite (lo_dev _ _ Hlo), (lo_start _ _ Hlo), (lo_n _ _ Hlo), Nat2Z.id.
  rewrite u32_small by lia.
  destruct (bc_bread k c pid [] L V st HV) as (i & k1 & F1 & V1 & R1 & D1 & T1);
    [lia|set_solver|by left|].
  mstep F1. destruct (bc_get_buf k1 c pid _ L V i st V1) as (x & Fx & Hxd & _); [set_solver|].
  mstep Fx. unfold set_data at 1. rewrite Hxd.
  assert (Hls : forall n, length (set32 (V st) 0 n) = Z.to_nat BSIZE).
  { intros. rewrite length_set32; [by eapply bc_length|].
    erewrite bc_length by exact V1. unfold BSIZE. lia. }
  destruct (bc_set_data k1 c pid _ L V i st (set32 (V st) 0 (Z.of_nat (length bs))) V1)
    as (k2 & F2 & V2 & R2 & D2 & T2); [set_solver|done|].
  mstep F2. assert (R12 : erase k2 = erase k) by congruence.
  destruct (head_loop_ok bs _ L i bs 0 k2 _ (set32 (V st) 0 (Z.of_nat (length bs))) V2
              (log_ok_erase _ _ _ R12 Hlo)) as (k3 & F3 & V3 & W3 & Hl3);
    [set_solver|apply vupd_eq|done|done|unfold hb_off, BSIZE; lia|].
  mstep F3. fold (head_block (V st) bs) in V3, Hl3.
  destruct (bc_bwrite k3 c pid _ L _ i st V3) as (k4 & F4 & V4 & R4 & D4 & T4); [set_solver|].
  mstep F4. rewrite vupd_eq in D4, T4.
  assert (V5 : view k4 c pid [(i, st)] L (vupd V st (head_block (V st) bs))).
  { eapply bc_ext; [eapply bc_pinned; [exact V4|]|].
    - intros y. rewrite elem_of_without. split; [|tauto]. intros Hy. split; [done|by intros ->].
    - intros b. unfold vupd, disk_upd. by case_bool. }
  destruct (bc_brelse k4 c pid [] L _ i st V5) as (k5 & F5 & V6 & R5 & D5 & T5).
  { right. rewrite D4. by rewrite !vupd_eq. }
  exists k5. split; [exact F5|]. split; [done|]. destruct W3 as (E1 & E2 & E3). cbn in E1, E2.
  repeat split; [|simpl; congruence|congruence]. rewrite D5, D4, E1, D2, D1. done.
Qed.

Lemma install_one_ok k V bs L j b :
  view k c pid [] L V -> log_ok k bs -> loggable k bs -> bs !! j = Some b ->
  b ∈ L \/ (S (length L) < NBUF)%nat -> (forall x, x ∈ L -> x ∈ bs) -> (length L < NBUF)%nat ->
  exists k', install_one j k = Ok tt k' /\
    view k' c pid [] (without b L) (vupd V b (V (st + Z.of_nat j + 1))) /\
    wrote k k' [(b, V (st + Z.of_nat j + 1))].
Proof.
  intros HV Hlo Hlg Hj Hroom HL Hlen. pose proof (lookup_lt_Some _ _ _ Hj) as Hjl.
  set (s := st + Z.of_nat j + 1).
  destruct (slot_number k bs j Hlo Hjl (proj1 (lg_room _ _ Hlg))) as (E1 & E2 & E3). fold s in E1, E2, E3.
  assert (Hbb : b ∈ bs) by (by eapply list_elem_of_lookup_2).
  destruct (lg_in _ _ Hlg b Hbb) as [Hb Hbl]. destruct (lo_geom _ _ Hlo) as (Hg1 & Hg0 & Hg2 & Hg3).
  destruct (lg_room _ _ Hlg) as [Hrm _]. assert (Hsb : s <> b) by lia.
  assert (Hs : s ∉ L) by (intros Hs%HL%(lg_in _ _ Hlg); lia).
  pose proof (bc_clean k c pid [] L V s HV Hs ltac:(set_solver)) as Hcl.
  unfold install_one. mget. rewrite (lo_dev _ _ Hlo), E1, E2.
  destruct (bc_bread k c pid [] L V s HV E3) as (i & k1 & F1 & V1 & R1 & D1 & T1);
    [set_solver|by left|].
  mstep F1. mstep (lh_get_ok _ _ _ _ (log_ok_erase _ _ _ R1 Hlo) Hj). rewrite (u32_small b) by lia.
  destruct (erase_log _ _ R1) as [_ Hds1].
  destruct (bc_bread k1 c pid [(i, s)] L V b V1) as (i2 & k2 & F2 & V2 & R2 & D2 & T2).
  { lia. }
  { intros Hin%list_elem_of_singleton. by subst. }
  { destruct Hroom; [by right|left; simpl; lia]. }
  mstep F2. destruct (bc_get_buf k2 c pid _ L V i s V2) as (x & Fx & Hxd & _); [set_solver|].
  mstep Fx. unfold set_data.
  destruct (bc_set_data k2 c pid _ L V i2 b (b_data x) V2) as (k3 & F3 & V3 & R3 & D3 & T3);
    [set_solver|rewrite Hxd; by eapply bc_length|].
  mstep F3. destruct (bc_bwrite k3 c pid _ L _ i2 b V3) as (k4 & F4 & V4 & R4 & D4 & T4); [set_solver|].
  mstep F4. rewrite vupd_eq, Hxd in *.
  assert (D4' : k_disk k4 = vupd (k_disk k) b (V s)) by (rewrite D4; congruence).
  assert (V5 : view k4 c pid [(i, s); (i2, b)] (without b L) (vupd V b (V s))).
  { eapply bc_perm; [exact V4|]. apply Permutation_swap. }
  destruct (bc_brelse k4 c pid [(i2, b)] _ _ i s V5) as (k5 & F5 & V6 & R5 & D5 & T5).
  { right. rewrite D4', !vupd_ne by done. done. }
  mstep F5.
  destruct (bc_brelse k5 c pid [] _ _ i2 b V6) as (k6 & F6 & V7 & R6 & D6 & T6).
  { right. rewrite D5, D4', !vupd_eq. done. }
  exists k6. split; [exact F6|]. split; [done|].
  repeat split; [|simpl; congruence|congruence]. rewrite D6, D5, D4'. done.
Qed.

Lemma install_loop_ok bs : forall bs' i k V L,
  view k c pid [] L V -> log_ok k bs -> loggable k bs -> NoDup bs' ->
  (forall j b, bs' !! j = Some b -> bs !! (i + j)%nat = Some b) ->
  (forall b, b ∈ bs' -> b ∈ L) \/ (S (length L) < NBUF)%nat ->
  (forall x, x ∈ L -> x ∈ bs) -> (length L < NBUF)%nat ->
  exists k' L', for_tail (length bs') i install_one k = Ok tt k' /\
    view k' c pid [] L' (apply_writes V (home_copies V i bs')) /\
    (forall x, x ∈ L' <-> x ∈ L /\ x ∉ bs') /\ (length L' <= length L)%nat /\
    wrote k k' (home_copies V i bs').
Proof.
  induction bs' as [|b bs' IH]; intros i k V L HV Hlo Hlg Hnd Hsub Hroom HL Hlen;
    cbn [length for_tail home_copies].
  { exists k, L. split; [done|]. split; [done|]. split; [set_solver|]. split; [done|]. by apply wrote_refl. }
  assert (Hj : bs !! i = Some b) by (rewrite <- (Nat.add_0_r i); by apply (Hsub 0%nat)).
  pose proof (lookup_lt_Some _ _ _ Hj) as Hjl. apply NoDup_cons in Hnd as [Hnb Hnd].
  destruct (install_one_ok k V bs L i b HV Hlo Hlg Hj) as (k1 & F1 & V1 & W1);
    [destruct Hroom as [Hr|]; [left; apply Hr; set_solver|by right]|done|done|].
  pose proof W1 as (_ & _ & R1). mstep F1.
  assert (Hw : (length (without b L) <= length L)%nat) by apply length_filter.
  destruct (IH (S i) k1 _ (without b L) V1 (log_ok_erase _ _ _ R1 Hlo) (loggable_erase _ _ _ R1 Hlg) Hnd)
    as (k2 & L2 & F2 & V2 & HL2 & Hlen2 & W2).
  - intros j b' Hb'. replace (S i + j)%nat with (i + S j)%nat by lia. by apply Hsub.
  - destruct Hroom as [Hr|]; [left|right; lia]. intros x Hx. apply elem_of_without.
    split; [apply Hr; set_solver|]. by intros ->.
  - intros x [Hx _]%elem_of_without. auto.
  - lia.
  - assert (E : home_copies (vupd V b (V (st + Z.of_nat i + 1))) (S i) bs' = home_copies V (S i) bs').
    { apply home_copies_agree. intros j Hj'. apply vupd_ne. intros Ex.
      destruct (lg_room _ _ Hlg). destruct (lookup_lt_is_Some_2 bs' j Hj') as [b' Hb'].
      apply (Hsub (S j)), lookup_lt_Some in Hb'. apply list_elem_of_lookup_2, (lg_in _ _ Hlg) in Hj. lia. }
    rewrite E in V2, W2. exists k2, L2. split; [done|]. split; [exact V2|]. split; [|split; [lia|]].
    + intros x. rewrite HL2, elem_of_without, not_elem_of_cons. tauto.
    + exact (wrote_trans _ _ _ _ _ W1 W2).
Qed.

(** ** commit *)

Lemma log_ok_lh_n k bs :
  log_ok k bs -> log_ok (set_k_log (set_lh_n 0 (k_log k)) k) [].
Proof. intros []. by split. Qed.

Lemma view_log k L V f :
  view k c pid [] L V -> view (set_k_log (f (k_log k)) k) c pid [] L V.
Proof.
  intros HV. apply (bc_frame k c pid [] L V (fun k => set_k_log (f (k_log k)) k) HV).
  intros. by repeat split.
Qed.

(** The log slots hold the copies once [write_log] is done. *)
Lemma slot_copies bs V j b :
  bs !! j = Some b -> apply_writes V (log_copies V 0 bs) (st + Z.of_nat j + 1) = V b.
Proof.
  intros Hj. eapply (apply_writes_in _ _ j); [apply log_copies_nodup|].
  by rewrite (log_copies_lookup _ _ _ j b).
Qed.

Lemma home_copies_back bs V h :
  home_copies (vupd (apply_writes V (log_copies V 0 bs)) st h) 0 bs = (fun b => (b, V b)) <$> bs.
Proof.
  apply list_eq. intros j. rewrite list_lookup_fmap. destruct (bs !! j) as [b|] eqn:E; simpl.
  - rewrite (home_copies_lookup _ _ _ j b) by done. rewrite vupd_ne by lia.
    simpl. by rewrite (slot_copies bs V j b).
  - apply lookup_ge_None in E. apply lookup_ge_None.
    rewrite <- (length_fmap fst), home_copies_dom. done.
Qed.

Lemma write_log_eq k bs : log_ok k bs -> write_log k = for_tail (length bs) 0 write_one k.
Proof. intros Hlo. unfold write_log, get, bind. by rewrite (lo_n _ _ Hlo), Nat2Z.id. Qed.

Lemma install_trans_eq k bs : log_ok k bs -> install_trans k = for_tail (length bs) 0 install_one k.
Proof. intros Hlo. unfold install_trans, get, bind. by rewrite (lo_n _ _ Hlo), Nat2Z.id. Qed.

(** Erasing the in-memory header and then the one on the disk. *)
Lemma erase_head_ok k V L bs :
  view k c pid [] L V -> log_ok k bs -> st ∉ L -> (length L < NBUF)%nat ->
  exists k', (upd_log (set_lh_n 0) ;;; write_head) k = Ok tt k' /\
    view k' c pid [] L (vupd V st (set32 (V st) 0 0)) /\ log_ok k' [] /\
    k_disk k' = apply_writes (k_disk k) [(st, set32 (V st) 0 0)] /\
    k_dtrace k' = (st, set32 (V st) 0 0) :: k_dtrace k /\
    k_log k' = set_lh_n 0 (k_log k) /\ k_disksize k' = k_disksize k.
Proof.
  intros HV Hlo Hst Hlen.
  destruct (write_head_ok _ V L [] (view_log k L V (set_lh_n 0) HV) (log_ok_lh_n k bs Hlo) Hst Hlen)
    as (k' & F & V' & D & T & R).
  exists k'. split; [exact F|]. split; [exact V'|]. split; [|split; [exact D|split; [exact T|]]].
  - exact (log_ok_erase _ _ _ R (log_ok_lh_n k bs Hlo)).
  - exact (erase_log _ _ R).
Qed.

Lemma commit_ok k V bs :
  view k c pid [] bs V -> log_ok k bs -> loggable k bs -> bs <> [] ->
  exists k', commit k = Ok tt k' /\
    k_disk k' = apply_writes (k_disk k) (commit_writes V bs) /\
    k_dtrace k' = rev (commit_writes V bs) ++ k_dtrace k /\
    log_ok k' [] /\ view k' c pid [] [] (apply_writes V (commit_writes V bs)) /\
    k_log k' = set_lh_n 0 (k_log k) /\ k_disksize k' = k_disksize k.
Proof.
  intros HV Hlo Hlg Hne. pose proof (lo_n _ _ Hlo) as Hn. destruct (lg_room _ _ Hlg) as [Hrm Hnb].
  destruct (lo_geom _ _ Hlo) as (Hg1 & Hg0 & Hg2 & Hg3).
  assert (Hst : st ∉ bs) by (intros ?%(lg_in _ _ Hlg); lia).
  unfold commit. mget. rewrite (proj2 (Z.ltb_lt _ _)) by (destruct bs; [done|simpl in *; lia]).
  destruct (write_loop_ok bs bs bs 0 k V) as (k1 & F1 & V1 & W1); try done.
  pose proof W1 as (_ & _ & R1). rewrite <- (write_log_eq k bs) in F1 by done. mstep F1.
  destruct (write_head_ok k1 _ bs bs V1 (log_ok_erase _ _ _ R1 Hlo) Hst Hnb) as (k2 & F2 & V2 & W2).
  assert (Eh : apply_writes V (log_copies V 0 bs) st = V st).
  { apply apply_writes_out. intros ?%log_copies_dom. lia. }
  rewrite Eh in V2, W2. mstep F2. set (h := head_block (V st) bs) in *.
  pose proof (wrote_trans _ _ _ _ _ W1 W2) as W12. pose proof W12 as (_ & _ & R2).
  destruct (install_loop_ok bs bs 0 k2 _ bs V2 (log_ok_erase _ _ _ R2 Hlo) (loggable_erase _ _ _ R2 Hlg))
    as (k3 & L3 & F3 & V3 & HL3 & Hlen3 & W3); try done; [apply Hlg|by left|].
  rewrite home_copies_back in V3, W3. rewrite <- (install_trans_eq k2 bs) in F3 by (by apply (log_ok_erase k)).
  mstep F3. pose proof (wrote_trans _ _ _ _ _ W12 W3) as W. pose proof W as (D3 & T3 & R3).
  assert (V3' : view k3 c pid [] [] (apply_writes V ((log_copies V 0 bs ++ [(st, h)]) ++ ((fun b => (b, V b)) <$> bs)))).
  { rewrite !apply_writes_app. eapply bc_pinned; [exact V3|]. intros x. rewrite HL3. set_solver. }
  assert (Eh' : apply_writes V ((log_copies V 0 bs ++ [(st, h)]) ++ ((fun b => (b, V b)) <$> bs)) st = h).
  { rewrite !apply_writes_app. rewrite apply_writes_out; [apply vupd_eq|].
    by rewrite <- list_fmap_compose, list_fmap_id. }
  destruct (erase_head_ok k3 _ [] bs V3' (log_ok_erase _ _ _ R3 Hlo)) as (k4 & F4 & V4 & Hlo4 & D4 & T4 & Elog & Eds);
    [set_solver|unfold NBUF; simpl; lia|]. rewrite Eh' in *.
  exists k4. split; [exact F4|]. unfold commit_writes. fold h. rewrite !app_assoc.
  destruct (erase_log _ _ R3) as [Elog3 Eds3]. rewrite Elog, Eds, Elog3, Eds3.
  split; [|split; [|split; [done|split; [|done]]]].
  - rewrite D4, D3. by rewrite <- apply_writes_app.
  - rewrite T4, T3, app_comm_cons. f_equal. by rewrite (rev_app_distr _ [(st, set32 h 0 0)]).
  - rewrite apply_writes_app. exact V4.
Qed.

(** ** Recovery *)

(** The blocks a header block records. *)
Definition head_list (h : list Z) : list Z :=
  (fun j => i32 (get32 h (hb_off j))) <$> seq 0 (Z.to_nat (i32 (get32 h 0))).

Definition recover_writes (d : Z -> list Z) : list (Z * list Z) :=
  home_copies d 0 (head_list (d st)) ++ [(st, set32 (d st) 0 0)].

(** What recovery makes of a disk. *)
Definition recover_disk (d : Z -> list Z) : Z -> list Z := apply_writes d (recover_writes d).

(** The log's place is known; the in-memory header holds anything. *)
Record log_at (k : kernel) : Prop := {
  la_dev : l_dev (k_log k) = ROOTDEV;
  la_start : l_start (k_log k) = st;
  la_size : l_size (k_log k) = sz;
  la_len : length (lh_block (k_log k)) = Z.to_nat LOGSIZE;
  la_geom : 0 <= st /\ 1 <= sz /\ st + sz <= k_disksize k /\ k_disksize k < 2 ^ 31
}.

(** A header block recovery can follow. *)
Definition head_ok (h : list Z) : Prop :=
  0 <= i32 (get32 h 0) /\ (length (head_list h) <= Z.to_nat LOGSIZE)%nat.

Lemma splice_cons {A} (l : list A) i v s :
  (i + S (length s) <= length l)%nat -> splice (<[i := v]> l) (S i) s = splice l i (v :: s).
Proof.
  intros Hi. apply list_eq. intros j.
  rewrite !lookup_splice by (rewrite ?length_insert; simpl; lia). cbn [length].
  destruct (decide (j = i)) as [->|Hj].
  - rewrite decide_False, decide_True by lia. rewrite Nat.sub_diag.
    apply list_lookup_insert_eq. lia.
  - rewrite list_lookup_insert_ne by done. do 2 case_decide; try lia; [|done].
    by replace (j - i)%nat with (S (j - S i)) by lia.
Qed.

Lemma lh_loop_ok f : forall n i k,
  (i + n <= length (lh_block (k_log k)))%nat ->
  for_tail n i (fun j => lh_put j (f j)) k =
  Ok tt (set_k_log (set_lh_block (splice (lh_block (k_log k)) i (f <$> seq i n)) (k_log k)) k).
Proof.
  induction n as [|n IH]; intros i k Hlen; cbn [for_tail seq].
  - unfold ret. f_equal. unfold splice. simpl. rewrite Nat.add_0_r, take_drop. by destruct k as [], k_log.
  - erewrite bind_ok by (unfold lh_put; rewrite decide_True by lia; reflexivity).
    rewrite IH by (simpl; rewrite length_insert; lia). f_equal. simpl.
    rewrite splice_cons by (rewrite length_fmap, length_seq; lia). done.
Qed.

Lemma read_head_ok k V :
  view k c pid [] [] V -> log_at k -> head_ok (V st) ->
  exists k', read_head k = Ok tt k' /\ view k' c pid [] [] V /\
    log_ok k' (head_list (V st)) /\ k_disk k' = k_disk k /\ k_dtrace k' = k_dtrace k /\
    k_disksize k' = k_disksize k /\ l_outstanding (k_log k') = l_outstanding (k_log k) /\
    l_committing (k_log k') = l_committing (k_log k).
Proof.
  intros HV Hla [Hn Hl]. destruct (la_geom _ Hla) as (Hg1 & Hg0 & Hg2 & Hg3).
  unfold head_list in Hl. rewrite length_fmap, length_seq in Hl.
  unfold read_head. mget. rewrite (la_dev _ Hla), (la_start _ Hla). rewrite u32_small by lia.
  destruct (bc_bread k c pid [] [] V st HV) as (i & k1 & F1 & V1 & R1 & D1 & T1);
    [lia|set_solver|left; unfold NBUF; simpl; lia|].
  destruct (erase_log _ _ R1) as [Hlog Hds].
  mstep F1. destruct (bc_get_buf k1 c pid _ [] V i st V1) as (x & Fx & Hxd & _); [set_solver|].
  mstep Fx. rewrite Hxd. set (n := Z.to_nat (i32 (get32 (V st) 0))) in *.
  erewrite bind_ok by reflexivity.
  erewrite bind_ok by (apply lh_loop_ok; simpl; rewrite Hlog, (la_len _ Hla); lia).
  set (k2 := set_k_log _ _).
  assert (Hlog2 : k_log k2 = set_lh_block (splice (lh_block (k_log k)) 0 (head_list (V st)))
                               (set_lh_n (i32 (get32 (V st) 0)) (k_log k))).
  { unfold k2. simpl. by rewrite Hlog. }
  assert (V2 : view k2 c pid [(i, st)] [] V).
  { apply (bc_frame k1 c pid _ [] V (fun k => set_k_log (k_log k2) k) V1). intros. by repeat split. }
  destruct (bc_brelse k2 c pid [] [] V i st V2) as (k3 & F3 & V3 & R3 & D3 & T3).
  { right. change (k_disk k2) with (k_disk k1). rewrite D1.
    eapply bc_clean; [exact HV|set_solver|set_solver]. }
  exists k3. destruct (erase_log _ _ R3) as [Hlog3 Hds3].
  split; [exact F3|]. split; [done|]. split; [|split; [|split; [|split]]].
  - assert (El : length (head_list (V st)) = n) by (unfold head_list; by rewrite length_fmap, length_seq).
    split; rewrite ?Hlog3, ?Hlog2, ?Hds3; cbn [lh_n lh_block set_lh_block set_lh_n]; try apply Hla.
    + rewrite El. unfold n. simpl. lia.
    + unfold splice. rewrite take_0. cbn [app]. by apply take_app_length'.
    + simpl. rewrite length_splice; [apply Hla|]. rewrite El, (la_len _ Hla). done.
    + change (k_disksize k2) with (k_disksize k1). rewrite Hds. apply Hla.
  - rewrite D3. exact D1.
  - rewrite T3. exact T1.
  - rewrite Hds3. exact Hds.
  - rewrite Hlog3, Hlog2. done.
Qed.

Lemma recover_ok k V :
  view k c pid [] [] V -> log_at k -> head_ok (V st) -> loggable k (head_list (V st)) ->
  exists k', recover_from_log k = Ok tt k' /\
    k_disk k' = apply_writes (k_disk k) (recover_writes V) /\
    k_dtrace k' = rev (recover_writes V) ++ k_dtrace k /\
    log_ok k' [] /\ view k' c pid [] [] (apply_writes V (recover_writes V)) /\
    k_disksize k' = k_disksize k /\ l_outstanding (k_log k') = l_outstanding (k_log k) /\
    l_committing (k_log k') = l_committing (k_log k).
Proof.
  intros HV Hla Hh Hlg. destruct (read_head_ok k V HV Hla Hh) as (k1 & F1 & V1 & Hlo & D1 & T1 & Hds & Ho1 & Hc1).
  unfold recover_from_log. mstep F1. set (bs := head_list (V st)) in *.
  assert (Hlg1 : loggable k1 bs) by (destruct Hlg; split; rewrite ?Hds; auto).
  destruct (lo_geom _ _ Hlo) as (Hg1 & Hg0 & Hg2 & Hg3).
  destruct (install_loop_ok bs bs 0 k1 V [] V1 Hlo Hlg1) as (k2 & L2 & F2 & V2 & HL2 & Hlen2 & W2); try done.
  { apply Hlg. } { right. unfold NBUF. simpl. lia. } { set_solver. } { unfold NBUF. simpl. lia. }
  rewrite <- (install_trans_eq k1 bs) in F2 by done. mstep F2. destruct W2 as (D2 & T2 & R2).
  assert (V2' : view k2 c pid [] [] (apply_writes V (home_copies V 0 bs))).
  { eapply bc_pinned; [exact V2|]. intros x. rewrite HL2. set_solver. }
  destruct (erase_head_ok k2 _ [] bs V2' (log_ok_erase _ _ _ R2 Hlo)) as (k3 & F3 & V3 & Hlo3 & D3 & T3 & El3 & Ed3);
    [set_solver|unfold NBUF; simpl; lia|].
  assert (Eh : apply_writes V (home_copies V 0 bs) st = V st).
  { apply apply_writes_out. rewrite home_copies_dom. intros ?%(lg_in _ _ Hlg). lia. }
  rewrite Eh in *. exists k3. split; [exact F3|]. unfold recover_writes. fold bs.
  destruct (erase_log _ _ R2) as [El2 Ed2]. rewrite El3, El2, Ed3, Ed2, Hds.
  split; [|split; [|split; [done|split; [|by auto]]]].
  - rewrite D3, D2, D1. by rewrite <- apply_writes_app.
  - rewrite T3, T2, T1, app_comm_cons. f_equal. by rewrite (rev_app_distr _ [(st, set32 (V st) 0 0)]).
  - rewrite apply_writes_app. exact V3.
Qed.

(** ** Crashes *)

Lemma length_put_blocks bs : forall h i,
  (hb_off (i + length bs) <= length h)%nat -> length (put_blocks h i bs) = length h.
Proof.
  induction bs as [|b bs IH]; intros h i Hl; cbn [put_blocks length] in *; [done|].
  unfold hb_off in *. rewrite IH; rewrite length_set32; lia.
Qed.

Lemma get32_put_blocks bs : forall h i o,
  (hb_off (i + length bs) <= length h)%nat -> (o + 4 <= hb_off i)%nat ->
  get32 (put_blocks h i bs) o = get32 h o.
Proof.
  induction bs as [|b bs IH]; intros h i o Hl Ho; cbn [put_blocks length] in *; [done|].
  unfold hb_off in *. rewrite IH; rewrite ?length_set32; try lia. apply get32_set32_ne; lia.
Qed.

Lemma get32_put_blocks_in bs : forall h i j b,
  (hb_off (i + length bs) <= length h)%nat -> bs !! j = Some b ->
  get32 (put_blocks h i bs) (hb_off (i + j)) = u32 b.
Proof.
  induction bs as [|b' bs IH]; intros h i j b Hl Hj; [done|]. cbn [put_blocks length] in *.
  destruct j as [|j]; simpl in Hj.
  - injection Hj as ->. rewrite Nat.add_0_r.
    rewrite get32_put_blocks; unfold hb_off in *; rewrite ?length_set32; try lia.
    apply get32_set32_eq. lia.
  - replace (i + S j)%nat with (S i + j)%nat by lia. apply IH; [|done].
    unfold hb_off in *. rewrite length_set32; lia.
Qed.

(** The header records what was put in it. *)
Lemma head_list_block h bs :
  length h = Z.to_nat BSIZE -> (length bs <= 30)%nat -> (forall b, b ∈ bs -> 0 <= b < 2 ^ 31) ->
  head_list (head_block h bs) = bs.
Proof.
  intros Hh Hl Hb. unfold head_list, head_block. set (h0 := set32 h 0 _).
  assert (Hh0 : length h0 = Z.to_nat BSIZE) by (unfold h0; rewrite length_set32; unfold BSIZE in *; lia).
  assert (Hoff : (hb_off (0 + length bs) <= length h0)%nat) by (rewrite Hh0; unfold hb_off, BSIZE; lia).
  rewrite (get32_put_blocks bs h0 0 0) by (done || (unfold hb_off; lia)).
  unfold h0 at 2. rewrite get32_set32_eq by lia. rewrite u32_small, i32_small, Nat2Z.id by lia.
  apply list_eq. intros j. rewrite list_lookup_fmap. destruct (decide (j < length bs)%nat) as [Hj|Hj].
  - rewrite lookup_seq_lt by done. simpl. destruct (lookup_lt_is_Some_2 _ _ Hj) as [b Eb]. rewrite Eb.
    f_equal. pose proof (get32_put_blocks_in bs h0 0 j b Hoff Eb) as E. simpl in E. rewrite E.
    specialize (Hb b (list_elem_of_lookup_2 _ _ _ Eb)). rewrite u32_small, i32_small; lia.
  - rewrite (proj2 (lookup_ge_None bs j)) by lia. rewrite (proj2 (lookup_ge_None (seq _ _) j)); [done|].
    rewrite length_seq. lia.
Qed.

Lemma head_list_erased h : (0 < length h)%nat -> head_list (set32 h 0 0) = [].
Proof. intros. unfold head_list. by rewrite get32_set32_eq by lia. Qed.

(** Recovery outside the log: a recorded block gets the copy of its slot. *)
Lemma recover_disk_in d bs j b :
  head_list (d st) = bs -> NoDup bs -> st ∉ bs -> bs !! j = Some b ->
  recover_disk d b = d (st + Z.of_nat j + 1).
Proof.
  intros E Hnd Hst Hj. unfold recover_disk, recover_writes. rewrite E, apply_writes_app.
  rewrite apply_writes_out.
  - apply (apply_writes_in _ _ j); [by rewrite home_copies_dom|]. by rewrite (home_copies_lookup _ _ _ j b).
  - rewrite fmap_cons. intros [->|Hn]%elem_of_cons; [|by apply elem_of_nil in Hn].
    apply Hst. by eapply list_elem_of_lookup_2.
Qed.

Lemma recover_disk_out d b :
  b ∉ head_list (d st) -> b <> st -> recover_disk d b = d b.
Proof.
  intros Hn Hst. unfold recover_disk, recover_writes. apply apply_writes_out.
  rewrite fmap_app, home_copies_dom. intros [Hb|Hb%list_elem_of_singleton]%elem_of_app; done.
Qed.

Section Crash.
Context (D V : Z -> list Z) (bs : list Z) (nd : Z).
Hypothesis Hlen : forall b, length (V b) = Z.to_nat BSIZE.
Hypothesis Hempty : head_list (D st) = [].
Hypothesis Hbs : forall b, b ∈ bs -> 0 <= b < 2 ^ 31 /\ ~ (st <= b < st + sz).
Hypothesis Hnd : NoDup bs.
Hypothesis Hfit : Z.of_nat (length bs) <= sz - 1 /\ (length bs <= 30)%nat.
Hypothesis Hsame : forall b, b ∉ bs -> V b = D b.

Lemma crash_st_not_logged : st ∉ bs.
Proof. intros Hst%Hbs. lia. Qed.

(** Before the header is written. *)
Lemma crash_before m b :
  (m <= length bs)%nat -> ~ (st <= b < st + sz) ->
  recover_disk (apply_writes D (take m (commit_writes V bs))) b = D b.
Proof.
  intros Hm Hb. unfold commit_writes. set (W := take m _).
  assert (HW : forall x, x ∈ W.*1 -> st < x < st + sz).
  { intros x Hx. unfold W in Hx. rewrite take_app_le in Hx.
    - assert (x ∈ (log_copies V 0 bs).*1) as Hx'.
      { apply list_elem_of_fmap in Hx as (w & -> & Hw). apply list_elem_of_fmap. exists w.
        split; [done|]. by apply elem_of_take in Hw as (? & ? & _); eapply list_elem_of_lookup_2. }
      apply log_copies_dom in Hx'. lia.
    - rewrite <- (length_fmap fst). clear - Hm. revert m Hm. generalize 0%nat.
      induction bs as [|x l IH]; intros i m Hm; simpl in *; [lia|]. destruct m; [lia|].
      apply le_n_S, IH. lia. }
  assert (Est : apply_writes D W st = D st) by (apply apply_writes_out; intros ?%HW; lia).
  rewrite recover_disk_out.
  - apply apply_writes_out. intros ?%HW. lia.
  - rewrite Est, Hempty. set_solver.
  - lia.
Qed.

Lemma length_log_copies W i l : length (log_copies W i l) = length l.
Proof. revert i. induction l; intros; simpl; auto. Qed.

(** Once the header is written. *)
Lemma crash_after m b :
  (length bs < m)%nat -> ~ (st <= b < st + sz) ->
  recover_disk (apply_writes D (take m (commit_writes V bs))) b = V b.
Proof.
  intros Hm Hb. unfold commit_writes. set (h := head_block (V st) bs).
  set (home := (fun b => (b, V b)) <$> bs).
  assert (Hhome : home.*1 = bs) by (unfold home; by rewrite <- list_fmap_compose, list_fmap_id).
  rewrite take_app_ge by (rewrite length_log_copies; lia). rewrite length_log_copies.
  destruct (m - length bs)%nat as [|m'] eqn:Em; [lia|]. cbn [app take].
  rewrite apply_writes_app. set (d1 := apply_writes D (log_copies V 0 bs)).
  change (recover_disk (apply_writes (vupd d1 st h) (take m' (home ++ [(st, set32 h 0 0)]))) b = V b).
  assert (Hhb : head_list h = bs).
  { apply head_list_block; [done|lia|]. intros x Hx. by apply Hbs. }
  pose proof crash_st_not_logged as Hst.
  assert (Hout : forall x, x ∉ bs -> ~ (st <= x < st + sz) -> d1 x = V x).
  { intros x Hx Hxl. rewrite Hsame by done. apply apply_writes_out. intros ?%log_copies_dom. lia. }
  assert (Hslot : forall j x, bs !! j = Some x -> d1 (st + Z.of_nat j + 1) = V x).
  { intros j x Hj. eapply (apply_writes_in _ _ j); [apply log_copies_nodup|].
    by rewrite (log_copies_lookup _ _ _ j x). }
  destruct (decide (m' <= length bs)%nat) as [Hm'|Hm'].
  - rewrite take_app_le by (unfold home; by rewrite length_fmap). set (W := take m' home).
    assert (HW : forall x, x ∈ W.*1 -> x ∈ bs).
    { intros x. unfold W. rewrite fmap_take, Hhome. apply subseteq_take. }
    assert (Est : apply_writes (vupd d1 st h) W st = h).
    { rewrite apply_writes_out; [apply vupd_eq|]. intros ?%HW. done. }
    destruct (decide (b ∈ bs)) as [Hin|Hn].
    + apply list_elem_of_lookup in Hin as [j Hj].
      rewrite (recover_disk_in _ bs j b) by (done || by rewrite Est).
      rewrite apply_writes_out; [rewrite vupd_ne by lia; by apply Hslot|].
      intros Hs%HW%Hbs. apply lookup_lt_Some in Hj. lia.
    + rewrite recover_disk_out; [|by rewrite Est, Hhb|lia].
      rewrite apply_writes_out by (intros ?%HW; done). rewrite vupd_ne by lia. by apply Hout.
  - rewrite take_ge by (unfold home; rewrite length_app, length_fmap; simpl; lia).
    rewrite apply_writes_app. set (d2 := apply_writes (vupd d1 st h) home).
    change (recover_disk (vupd d2 st (set32 h 0 0)) b = V b).
    assert (Hlh : length h = Z.to_nat BSIZE).
    { unfold h, head_block. rewrite length_put_blocks; rewrite length_set32, Hlen;
        rewrite ?Hlen; unfold hb_off, BSIZE; lia. }
    rewrite recover_disk_out; [| |lia].
    + rewrite vupd_ne by lia. destruct (decide (b ∈ bs)) as [Hin|Hn].
      * apply list_elem_of_lookup in Hin as [j Hj]. apply (apply_writes_in _ _ j); [by rewrite Hhome|].
        unfold home. by rewrite list_lookup_fmap, Hj.
      * unfold d2. rewrite apply_writes_out by (by rewrite Hhome). rewrite vupd_ne by lia. by apply Hout.
    + rewrite vupd_eq, head_list_erased; [set_solver|]. rewrite Hlh. unfold BSIZE. lia.
Qed.

(** The header on the disk at every point of the commit. *)
Lemma crash_head m :
  let d := apply_writes D (take m (commit_writes V bs)) in
  d st = D st \/ (d st = head_block (V st) bs) \/ d st = set32 (head_block (V st) bs) 0 0.
Proof.
  cbv zeta. unfold commit_writes. set (h := head_block (V st) bs). set (home := _ <$> bs).
  assert (Hlog : forall W, W `prefix_of` log_copies V 0 bs -> st ∉ W.*1).
  { intros W [W' E] Hin. assert (st ∈ (log_copies V 0 bs).*1) as ?%log_copies_dom; [|lia].
    rewrite E, fmap_app. set_solver. }
  assert (Hhome : forall W, W `prefix_of` home -> st ∉ W.*1).
  { intros W [W' E] Hin. apply crash_st_not_logged.
    assert (Eh : home.*1 = bs) by (unfold home; by rewrite <- list_fmap_compose, list_fmap_id).
    assert (st ∈ home.*1) as Hs by (rewrite E, fmap_app; set_solver). by rewrite Eh in Hs. }
  destruct (decide (m <= length bs)%nat) as [Hm|Hm].
  - left. rewrite take_app_le by (by rewrite length_log_copies).
    apply apply_writes_out, Hlog, prefix_take.
  - right. rewrite take_app_ge by (rewrite length_log_copies; lia). rewrite length_log_copies.
    destruct (m - length bs)%nat as [|m'] eqn:Em; [lia|]. cbn [app take]. rewrite apply_writes_app.
    change (apply_writes (vupd (apply_writes D (log_copies V 0 bs)) st h)
              (take m' (home ++ [(st, set32 h 0 0)])) st = h \/
            apply_writes (vupd (apply_writes D (log_copies V 0 bs)) st h)
              (take m' (home ++ [(st, set32 h 0 0)])) st = set32 h 0 0).
    destruct (decide (m' <= length home)%nat) as [Hm'|Hm'].
    + left. rewrite take_app_le by done. rewrite apply_writes_out; [apply vupd_eq|].
      apply Hhome, prefix_take.
    + right. rewrite take_ge by (rewrite length_app; simpl; lia). rewrite apply_writes_app. apply vupd_eq.
Qed.

Lemma head_block_length : length (head_block (V st) bs) = Z.to_nat BSIZE.
Proof.
  unfold head_block. rewrite length_put_blocks; rewrite length_set32, Hlen;
    rewrite ?Hlen; unfold hb_off, BSIZE; lia.
Qed.

(** What recovery finds in the header at every point of the commit. *)
Lemma crash_head_list m :
  get32 (D st) 0 = 0 ->
  let h := apply_writes D (take m (commit_writes V bs)) st in
  head_ok h /\ (head_list h = [] \/ head_list h = bs).
Proof.
  intros Hz. pose proof head_block_length as Hl. unfold BSIZE in Hl.
  assert (Hhb : head_list (head_block (V st) bs) = bs).
  { apply head_list_block; [done|lia|]. intros x Hx. by apply Hbs. }
  assert (Hempty' : forall h, get32 h 0 = 0 -> head_ok h /\ head_list h = []).
  { intros h E. unfold head_ok, head_list. rewrite E. split; [split; [done|]|done].
    unfold LOGSIZE, MAXOPBLOCKS. simpl. lia. }
  cbv zeta. destruct (crash_head m) as [E|[E|E]]; rewrite E.
  - destruct (Hempty' (D st) Hz). auto.
  - split; [|by right]. split; [|rewrite Hhb; unfold LOGSIZE, MAXOPBLOCKS; lia].
    unfold head_block. rewrite (get32_put_blocks bs _ 0 0);
      [|rewrite length_set32, Hlen; rewrite ?Hlen; unfold hb_off, BSIZE; lia|unfold hb_off; lia].
    rewrite get32_set32_eq by lia. rewrite u32_small, i32_small; lia.
  - destruct (Hempty' (set32 (head_block (V st) bs) 0 0)); [|auto]. rewrite get32_set32_eq by lia. done.
Qed.

End Crash.

(** A crash while recovery runs: recovering again comes to the same. *)
Lemma recover_again d m b :
  NoDup (head_list (d st)) -> (forall x, x ∈ head_list (d st) -> ~ (st <= x < st + sz)) ->
  Z.of_nat (length (head_list (d st))) <= sz - 1 -> (0 < length (d st))%nat ->
  ~ (st <= b < st + sz) ->
  recover_disk (apply_writes d (take m (recover_writes d))) b = recover_disk d b.
Proof.
  intros Hnd Hout Hfit Hlen Hb. set (bs := head_list (d st)) in *.
  assert (Hst : st ∉ bs) by (intros ?%Hout; lia).
  assert (Hlc : length (home_copies d 0 bs) = length bs).
  { rewrite <- (length_fmap fst). by rewrite home_copies_dom. }
  destruct (decide (m <= length bs)%nat) as [Hm|Hm].
  - unfold recover_writes at 1. fold bs. rewrite take_app_le by lia. set (W := take m _).
    assert (HW : forall x, x ∈ W.*1 -> x ∈ bs).
    { intros x. unfold W. rewrite fmap_take, home_copies_dom. apply subseteq_take. }
    assert (Est : apply_writes d W st = d st) by (apply apply_writes_out; intros ?%HW; done).
    destruct (decide (b ∈ bs)) as [Hin|Hn].
    + apply list_elem_of_lookup in Hin as [j Hj]. pose proof (lookup_lt_Some _ _ _ Hj).
      rewrite !(recover_disk_in _ bs j b) by (done || by rewrite Est). apply apply_writes_out.
      intros Hs%HW%Hout. lia.
    + rewrite !recover_disk_out by (try lia; rewrite ?Est; done). apply apply_writes_out. by intros ?%HW.
  - rewrite take_ge by (unfold recover_writes; rewrite length_app; fold bs; simpl; lia).
    change (recover_disk (recover_disk d) b = recover_disk d b).
    rewrite recover_disk_out; [done| |lia]. unfold recover_disk, recover_writes.
    rewrite apply_writes_app. cbn [apply_writes foldl fst snd]. rewrite vupd_eq, head_list_erased by done.
    set_solver.
Qed.

(** ** Booting *)

Lemma readsb_ok k V :
  view k c pid [] [] V -> 1 < k_disksize k ->
  exists k', readsb ROOTDEV k = Ok (decode_sb (V 1)) k' /\ view k' c pid [] [] V /\
    erase k' = erase k /\ k_disk k' = k_disk k /\ k_dtrace k' = k_dtrace k.
Proof.
  intros HV Hd. unfold readsb.
  destruct (bc_bread k c pid [] [] V 1 HV) as (i & k1 & F1 & V1 & R1 & D1 & T1);
    [lia|set_solver|left; unfold NBUF; simpl; lia|].
  mstep F1. destruct (bc_get_buf k1 c pid _ [] V i 1 V1) as (x & Fx & Hxd & _); [set_solver|].
  mstep Fx. rewrite Hxd.
  destruct (bc_brelse k1 c pid [] [] V i 1 V1) as (k2 & F2 & V2 & R2 & D2 & T2).
  { right. rewrite D1. eapply bc_clean; [exact HV|set_solver|set_solver]. }
  mstep F2. exists k2. split; [done|]. split; [done|]. repeat split; congruence.
Qed.

Lemma initlog_ok k V :
  view k c pid [] [] V -> i32 (sb_logstart (decode_sb (V 1))) = st -> i32 (sb_nlog (decode_sb (V 1))) = sz ->
  length (lh_block (k_log k)) = Z.to_nat LOGSIZE ->
  1 < st /\ 1 <= sz /\ st + sz <= k_disksize k /\ k_disksize k < 2 ^ 31 ->
  head_ok (V st) -> loggable k (head_list (V st)) ->
  exists k', initlog ROOTDEV k = Ok tt k' /\
    k_disk k' = apply_writes (k_disk k) (recover_writes V) /\
    k_dtrace k' = rev (recover_writes V) ++ k_dtrace k /\
    log_ok k' [] /\ view k' c pid [] [] (apply_writes V (recover_writes V)) /\
    k_disksize k' = k_disksize k /\ l_outstanding (k_log k') = l_outstanding (k_log k) /\
    l_committing (k_log k') = l_committing (k_log k).
Proof.
  intros HV E1 E2 Hll (Hg1 & Hg0 & Hg2 & Hg3) Hh Hlg. unfold initlog.
  change (BSIZE <=? 4 + 4 * LOGSIZE) with false. cbn iota.
  destruct (readsb_ok k V HV ltac:(lia)) as (k1 & F1 & V1 & R1 & D1 & T1). mstep F1.
  destruct (erase_log _ _ R1) as [Hlog Hds].
  erewrite bind_ok by reflexivity. erewrite bind_ok by reflexivity. erewrite bind_ok by reflexivity.
  rewrite E1, E2.
  set (k2 := set_k_log _ _).
  assert (V2 : view k2 c pid [] [] V) by exact (view_log _ _ _ _ (view_log _ _ _ _ (view_log _ _ _ _ V1))).
  assert (Hla : log_at k2).
  { split; simpl; try done; rewrite ?Hlog, ?Hds; try done. lia. }
  assert (Hlg2 : loggable k2 (head_list (V st))).
  { destruct Hlg. split; auto. change (k_disksize k2) with (k_disksize k1). by rewrite Hds. }
  destruct (recover_ok k2 V V2 Hla Hh Hlg2) as (k3 & F3 & D3 & T3 & Hlo3 & V3 & Ed3 & Eo3 & Ec3).
  exists k3. split; [exact F3|]. rewrite D3, T3, Ed3, Eo3, Ec3. change (k_disk k2) with (k_disk k1).
  change (k_dtrace k2) with (k_dtrace k1). simpl. by rewrite D1, T1, Hds, Hlog.
Qed.

End Geometry.

(** ** log_write *)

Lemma log_find_spec blocks b n : forall i,
  (i + n <= length blocks)%nat ->
  (forall j x, (j < i + n)%nat -> blocks !! j = Some x -> 0 <= x < 2 ^ 32) ->
  let r := log_find blocks b n i in
  (i <= r <= i + n)%nat /\
  ((r < i + n)%nat -> blocks !! r = Some b) /\
  (r = (i + n)%nat -> forall j, (i <= j < i + n)%nat -> blocks !! j <> Some b).
Proof.
  induction n as [|n IH]; intros i Hl Hx; cbv zeta; cbn [log_find]; [split; [lia|split; lia]|].
  destruct (lookup_lt_is_Some_2 blocks i) as [x Ex]; [lia|]. rewrite Ex.
  rewrite u32_small by (by apply (Hx i); [lia|]).
  destruct (Z.eqb_spec x b) as [->|Hne].
  - split; [lia|]. split; [done|lia].
  - destruct (IH (S i)) as (H1 & H2 & H3); [lia|intros; eapply Hx; [|done]; lia|]. split; [lia|]. split.
    + intros Hr. apply H2. lia.
    + intros Hr j Hj. destruct (decide (j = i)) as [->|]; [congruence|]. apply H3; lia.
Qed.

(** The blocks recorded after [b] is logged. *)
Definition logged (b : Z) (bs : list Z) : list Z := if decide (b ∈ bs) then bs else bs ++ [b].

(** The state without the log's variables either. *)
Definition erase_log_too (k : kernel) : kernel := set_k_log zero_log (erase k).

Section LogWrite.
Context (st sz : Z).

Lemma log_ok_insert k bs b (i : nat) :
  log_ok st sz k bs -> (i <= length bs)%nat -> (length bs < Z.to_nat LOGSIZE)%nat ->
  ((i < length bs)%nat -> bs !! i = Some b) ->
  lh_put i b k = Ok tt (set_k_log (set_lh_block (<[i := b]> (lh_block (k_log k))) (k_log k)) k) /\
  take (length bs) (<[i := b]> (lh_block (k_log k))) = bs /\
  (i = length bs -> take (S (length bs)) (<[i := b]> (lh_block (k_log k))) = bs ++ [b]).
Proof.
  intros Hlo Hi Hlen Hin. pose proof (lo_len _ _ _ _ Hlo) as Hl. pose proof (lo_blocks _ _ _ _ Hlo) as Hb.
  split; [unfold lh_put; by rewrite decide_True by lia|].
  assert (Ht : take (length bs) (<[i := b]> (lh_block (k_log k))) = bs).
  { destruct (decide (i < length bs)%nat) as [Hlt|].
    - rewrite list_insert_id; [done|]. by apply (log_ok_lookup st sz k bs), Hin.
    - rewrite take_insert_ge by lia. done. }
  split; [done|]. intros ->. erewrite take_S_r by (apply list_lookup_insert_eq; lia). by rewrite Ht.
Qed.

Lemma log_write_ok k c pid H L V i b bs :
  bview k c pid H L V -> log_ok st sz k bs -> (i, b) ∈ H -> 0 <= b < 2 ^ 31 ->
  (forall x, x ∈ bs -> 0 <= x < 2 ^ 32) ->
  Z.of_nat (length bs) < LOGSIZE -> Z.of_nat (length bs) < sz - 1 -> 1 <= l_outstanding (k_log k) ->
  exists k', log_write i k = Ok tt k' /\ bview k' c pid H (b :: L) V /\ log_ok st sz k' (logged b bs) /\
    k_disk k' = k_disk k /\ k_dtrace k' = k_dtrace k /\ k_disksize k' = k_disksize k /\
    l_outstanding (k_log k') = l_outstanding (k_log k) /\
    l_committing (k_log k') = l_committing (k_log k) /\ erase_log_too k' = erase_log_too k.
Proof.
  intros HV Hlo Hin Hb Hrng Hn1 Hn2 Hout. pose proof (bc_running _ _ _ _ _ _ HV) as (Hh & _).
  unfold log_write. mget. rewrite (lo_n _ _ _ _ Hlo), (lo_size _ _ _ _ Hlo).
  rewrite (proj2 (Z.leb_gt LOGSIZE _)), (proj2 (Z.leb_gt (sz - 1) _)), (proj2 (Z.ltb_ge _ 1)) by lia.
  cbn [orb]. erewrite bind_ok by (apply acquire_ok; rewrite Hh; set_solver).
  destruct (bc_get_buf k c pid H L V i b HV Hin) as (x & Fx & _ & Hxb).
  set (k1 := set_k_held _ k).
  assert (Fx1 : get_buf i k1 = Ok x k1).
  { unfold get_buf in *. change (k_bufs k1) with (k_bufs k). by destruct (k_bufs k !! i); simplify_eq. }
  mstep Fx1. rewrite Hxb, Nat2Z.id. rewrite (i32_small b) by lia.
  pose proof (lo_len _ _ _ _ Hlo) as Hl.
  assert (Hlk : forall j, (j < length bs)%nat -> bs !! j = lh_block (k_log k) !! j).
  { intros j Hj. rewrite <- (lo_blocks _ _ _ _ Hlo) at 1. by apply lookup_take_lt. }
  destruct (log_find_spec (lh_block (k_log k)) b (length bs) 0) as (Hr1 & Hr2 & Hr3); [lia| |].
  { intros j y Hj Hy. apply Hrng. apply list_elem_of_lookup. exists j. by rewrite Hlk by lia. }
  simpl in Hr1, Hr2, Hr3. set (r := log_find _ _ _ _) in *.
  destruct (log_ok_insert k bs b r Hlo) as (E1 & E2 & E3); [lia|lia|intros; rewrite Hlk by lia; auto|].
  assert (E1' : lh_put r b k1 = Ok tt (set_k_log (set_lh_block (<[r := b]> (lh_block (k_log k))) (k_log k)) k1)).
  { unfold lh_put. change (k_log k1) with (k_log k). by rewrite decide_True by lia. }
  mstep E1'. set (k2 := set_k_log _ k1).
  set (nn := if decide (r < length bs)%nat then Z.of_nat (length bs) else Z.of_nat (length bs) + 1).
  set (k3 := set_k_log (set_lh_n nn (k_log k2)) k2).
  assert (E4 : when (Z.of_nat r =? Z.of_nat (length bs)) (upd_log (set_lh_n (Z.of_nat (length bs) + 1))) k2 = Ok tt k3).
  { unfold k3, nn. destruct (Z.eqb_spec (Z.of_nat r) (Z.of_nat (length bs))).
    - rewrite decide_False by lia. done.
    - rewrite decide_True by lia. unfold when, ret. f_equal. unfold k2. destruct k as [], k_log; simpl.
      pose proof (lo_n _ _ _ _ Hlo) as En. simpl in En. by rewrite En. }
  mstep E4.
  assert (HV3 : bview (set_k_log (k_log k3) k) c pid H L V).
  { apply (bc_frame k c pid H L V (fun k => set_k_log (k_log k3) k) HV). intros. by repeat split. }
  destruct (bc_mark _ c pid H L V i b HV3 Hin) as (k4 & F4 & V4 & R4 & D4 & T4).
  assert (F4' : upd_buf i (fun x => set_b_flags (Z.lor (b_flags x) B_DIRTY) x) k3 =
                Ok tt (set_k_held [L_log] k4)).
  { unfold upd_buf, modify in F4 |- *. injection F4 as <-. unfold k3, k2, k1. simpl. by rewrite Hh. }
  mstep F4'. erewrite release_ok by reflexivity.
  destruct (erase_log _ _ R4) as [Hlog4 Hds4]. simpl in Hlog4, Hds4.
  exists (set_k_held [] (set_k_held [L_log] k4)).
  assert (Ek : set_k_held [] (set_k_held [L_log] k4) = k4).
  { pose proof (bc_running _ _ _ _ _ _ V4) as (Hh4 & _). destruct k4; simpl in *; by subst. }
  rewrite Ek. split; [done|]. split; [done|].
  assert (Hlog4' : k_log k4 = set_lh_n nn (set_lh_block (<[r := b]> (lh_block (k_log k))) (k_log k))) by done.
  split; [|rewrite D4, T4, Hds4, Hlog4'; repeat split; exact (f_equal (set_k_log zero_log) R4)].
  destruct Hlo. split; rewrite ?Hlog4', ?Hds4; simpl; auto.
    + unfold logged, nn. destruct (decide (r < length bs)%nat) as [Hlt|Hge].
      * rewrite decide_True; [done|]. apply list_elem_of_lookup. exists r. rewrite Hlk by lia. auto.
      * rewrite decide_False; [rewrite length_app; simpl; lia|].
        intros [j Hj]%list_elem_of_lookup. pose proof (lookup_lt_Some _ _ _ Hj).
        apply (Hr3 ltac:(lia) j ltac:(lia)). by rewrite <- Hlk.
    + unfold logged. case_decide as Hd; [done|]. rewrite length_app, Nat.add_1_r. apply E3.
      destruct (decide (r < length bs)%nat) as [Hlt|]; [|lia]. exfalso. apply Hd, list_elem_of_lookup.
      exists r. rewrite Hlk by lia. auto.
    + by rewrite length_insert.
Qed.

End LogWrite.
