(* ===== verification/Txn.v ===== *)
(** * Txn: what the log promises to the file system

    The abstract specification of log.c: the committed contents of the disk, the
    current contents, and the calls in progress with the blocks each may still
    write.  A call begins with [begin_op], changes blocks the way every caller in
    fs.c does ([update]: read the block, change it, [log_write] it and release it),
    and ends with [end_op]; the changes become the committed contents when the last
    call ends.  The theorems show that the concrete log is a refinement of this
    machine, that a crash during [end_op] leaves the old or the new contents, never
    a mixture, and that recovery itself can crash and be repeated. *)

From S2P Require Import Prelude Bytes Kernel Sync Bio Cache Log.

(** ** The abstract machine *)

Record txn : Type := mk_txn {
  t_committed : Z -> list Z;
  t_current : Z -> list Z;
  t_ops : list nat
}.

Definition t_begin (a : txn) : txn :=
  mk_txn (t_committed a) (t_current a) (Z.to_nat MAXOPBLOCKS :: t_ops a).

Definition t_update (j : nat) (b : Z) (d : list Z) (a : txn) : txn :=
  mk_txn (t_committed a) (vupd (t_current a) b d) (alter pred j (t_ops a)).

Definition t_end (j : nat) (a : txn) : txn :=
  let ops := delete j (t_ops a) in
  mk_txn (if decide (ops = []) then t_current a else t_committed a) (t_current a) ops.

(** How a caller changes a block inside a transaction. *)
Definition update (b : Z) (d : list Z) : KM unit :=
  let! i := bread ROOTDEV b in
  set_data i d ;;;
  log_write i ;;;
  brelse i.

Fixpoint quota (ops : list nat) : nat := match ops with [] => 0 | q :: ops' => q + quota ops' end.

Lemma quota_alter ops j q : ops !! j = Some (S q) -> quota ops = S (quota (alter pred j ops)).
Proof.
  revert j. induction ops as [|x ops IH]; intros [|j] Hj; simplify_eq/=; [done|].
  rewrite (IH j Hj). lia.
Qed.

Lemma quota_delete ops j : (quota (delete j ops) <= quota ops)%nat.
Proof. revert j. induction ops as [|x ops IH]; intros [|j]; simpl; [lia..|]. specialize (IH j). lia. Qed.

Lemma quota_bound ops :
  Forall (fun q => q <= 10)%nat ops -> (quota ops <= 10 * length ops)%nat.
Proof. induction 1; simpl; lia. Qed.

Lemma Forall_alter_pred ops j : Forall (fun q => q <= 10)%nat ops -> Forall (fun q => q <= 10)%nat (alter pred j ops).
Proof. intros H. apply Forall_alter; [done|]. intros. lia. Qed.

Section Txn.
Context (st sz : Z).

Definition outside (b : Z) : Prop := ~ (st <= b < st + sz).

(** ** The refinement relation *)

Record refines (k : kernel) (c : nat) (pid : Z) (bs : list Z) (a : txn) : Prop := {
  rf_view : exists V, bview k c pid [] bs V /\ forall b, outside b -> V b = t_current a b;
  rf_disk : forall b, outside b -> k_disk k b = t_committed a b;
  rf_head : get32 (k_disk k st) 0 = 0;
  rf_log : log_ok st sz k bs;
  rf_fit : loggable st sz k bs;
  rf_ops : l_outstanding (k_log k) = Z.of_nat (length (t_ops a));
  rf_idle : l_committing (k_log k) = false;
  rf_quota : (length bs + quota (t_ops a) <= Z.to_nat LOGSIZE)%nat;
  rf_ten : Forall (fun q => q <= 10)%nat (t_ops a);
  rf_none : t_ops a = [] -> bs = []
}.

(** ** begin_op *)

Lemma begin_op_waits k c pid bs a :
  refines k c pid bs a ->
  LOGSIZE < Z.of_nat (length bs) + (Z.of_nat (length (t_ops a)) + 1) * MAXOPBLOCKS ->
  exists k', begin_op k = Swtch k' /\ k_log k' = k_log k /\ k_disk k' = k_disk k.
Proof.
  intros Hr Hfull. destruct (rf_view _ _ _ _ _ Hr) as (V & HV & _).
  pose proof (bc_running _ _ _ _ _ _ HV) as (Hh & Hc & p & Hp & _).
  unfold begin_op. erewrite bind_ok by (apply acquire_ok; rewrite Hh; set_solver). mget.
  change (k_log (set_k_held (L_log :: k_held k) k)) with (k_log k).
  rewrite (rf_idle _ _ _ _ _ Hr), (lo_n _ _ _ _ (rf_log _ _ _ _ _ Hr)), (rf_ops _ _ _ _ _ Hr).
  rewrite (proj2 (Z.ltb_lt _ _)) by done. rewrite Hh.
  erewrite sleep_again_switches; [|reflexivity|done|done|done]. by eexists.
Qed.

Lemma begin_op_ok k c pid bs a :
  refines k c pid bs a ->
  Z.of_nat (length bs) + (Z.of_nat (length (t_ops a)) + 1) * MAXOPBLOCKS <= LOGSIZE ->
  exists k', begin_op k = Ok tt k' /\ refines k' c pid bs (t_begin a) /\
    k_dtrace k' = k_dtrace k /\ k_disk k' = k_disk k /\ k_disksize k' = k_disksize k.
Proof.
  intros Hr Hroom. destruct (rf_view _ _ _ _ _ Hr) as (V & HV & HVa).
  pose proof (bc_running _ _ _ _ _ _ HV) as (Hh & _).
  unfold begin_op. erewrite bind_ok by (apply acquire_ok; rewrite Hh; set_solver). mget.
  change (k_log (set_k_held (L_log :: k_held k) k)) with (k_log k).
  rewrite (rf_idle _ _ _ _ _ Hr), (lo_n _ _ _ _ (rf_log _ _ _ _ _ Hr)), (rf_ops _ _ _ _ _ Hr).
  rewrite (proj2 (Z.ltb_ge _ _)) by done. erewrite bind_ok by reflexivity.
  erewrite release_ok by reflexivity. eexists. split; [reflexivity|]. split; [|done].
  set (f := fun k => set_k_log (set_l_outstanding (Z.of_nat (length (t_ops a)) + 1) (k_log k)) k).
  match goal with |- refines ?k1 _ _ _ _ => assert (Ek : k1 = f k) end.
  { unfold f. destruct k; simpl in *; by subst. }
  rewrite Ek. destruct Hr as [_ Hd Hhd [] Hfit Ho Hi Hq Ht Hno]. split; auto.
  - exists V. split; [|done]. apply (bc_frame k c pid [] bs V f HV). intros. by repeat split.
  - by split.
  - destruct Hfit. by split.
  - simpl. lia.
  - pose proof (quota_bound _ Ht). cbn [t_ops t_begin quota]. change (Z.to_nat MAXOPBLOCKS) with 10%nat.
    unfold MAXOPBLOCKS, LOGSIZE in *. lia.
  - constructor; [done|done].
  - done.
Qed.

(** ** Updating a block *)

Lemma loggable_logged k k' b bs :
  loggable st sz k bs -> k_disksize k' = k_disksize k -> 0 <= b < k_disksize k -> outside b ->
  Z.of_nat (length bs) < sz - 1 -> sz <= Z.of_nat NBUF -> loggable st sz k' (logged b bs).
Proof.
  intros [Hin Hnd Hroom] Hds Hb Ho Hn Hsz. unfold logged. case_decide as Hd.
  - by split; rewrite ?Hds.
  - split; rewrite ?Hds.
    + intros x [Hx| ->%list_elem_of_singleton]%elem_of_app; auto.
    + apply NoDup_app. split; [done|]. split; [|by apply NoDup_singleton].
      intros x Hx ->%list_elem_of_singleton. done.
    + rewrite length_app. simpl. lia.
Qed.

Lemma elem_of_logged b bs x : x ∈ logged b bs <-> x ∈ b :: bs.
Proof. unfold logged. case_decide; set_solver. Qed.

Lemma length_logged b bs : (length (logged b bs) <= S (length bs))%nat.
Proof. unfold logged. case_decide; [lia|]. rewrite length_app. simpl. lia. Qed.

Lemma update_ok k c pid bs a j q b d :
  refines k c pid bs a -> t_ops a !! j = Some (S q) ->
  0 <= b < k_disksize k -> outside b -> length d = Z.to_nat BSIZE ->
  Z.of_nat (length bs) < sz - 1 -> sz <= Z.of_nat NBUF ->
  exists k', update b d k = Ok tt k' /\ refines k' c pid (logged b bs) (t_update j b d a) /\
    k_dtrace k' = k_dtrace k /\ k_disk k' = k_disk k /\ k_disksize k' = k_disksize k /\
    erase_log_too k' = erase_log_too k.
Proof.
  intros Hr Hj Hb Hob Hd Hn Hsz. destruct (rf_view _ _ _ _ _ Hr) as (V & HV & HVa).
  pose proof (rf_log _ _ _ _ _ Hr) as Hlo. destruct (lo_geom _ _ _ _ Hlo) as (Hg1 & Hg0 & Hg2 & Hg3).
  pose proof (rf_fit _ _ _ _ _ Hr) as Hfit. destruct (lg_room _ _ _ _ Hfit) as [Hrm Hnb].
  pose proof (quota_alter _ _ _ Hj) as Hqa. pose proof (rf_quota _ _ _ _ _ Hr) as Hq.
  unfold update.
  destruct (bc_bread k c pid [] bs V b HV Hb) as (i & k1 & F1 & V1 & R1 & D1 & T1); [set_solver|by left|].
  destruct (erase_log _ _ R1) as [Hlog1 Hds1].
  mstep F1. unfold set_data.
  destruct (bc_set_data k1 c pid _ bs V i b d V1) as (k2 & F2 & V2 & R2 & D2 & T2); [set_solver|done|].
  destruct (erase_log _ _ R2) as [Hlog2 Hds2]. mstep F2.
  assert (Hlog : k_log k2 = k_log k) by congruence.
  destruct (log_write_ok st sz k2 c pid _ bs _ i b bs V2)
    as (k3 & F3 & V3 & Hlo3 & D3 & T3 & Hds3 & Ho3 & Hc3 & R3); rewrite ?Hlog; auto.
  { apply (log_ok_erase st sz k); [congruence|done]. }
  { set_solver. } { lia. } { intros x Hx. apply (lg_in _ _ _ _ Hfit) in Hx. lia. }
  { unfold LOGSIZE, MAXOPBLOCKS in *. lia. }
  { rewrite (rf_ops _ _ _ _ _ Hr). apply lookup_lt_Some in Hj. lia. }
  mstep F3.
  destruct (bc_brelse k3 c pid [] _ _ i b V3) as (k4 & F4 & V4 & R4 & D4 & T4); [left; set_solver|].
  destruct (erase_log _ _ R4) as [Hlog4 Hds4].
  assert (Dk : k_disk k4 = k_disk k) by congruence. assert (Dz : k_disksize k4 = k_disksize k) by congruence.
  exists k4. split; [exact F4|]. split; [|repeat split; try congruence].
  2: { unfold erase_log_too in *. congruence. }
  split.
  - exists (vupd V b d). split.
    + eapply bc_pinned; [exact V4|]. apply elem_of_logged.
    + intros x Hx. unfold vupd, disk_upd. simpl. unfold vupd, disk_upd. case_bool; [done|]. by apply HVa.
  - intros x Hx. rewrite Dk. by apply Hr.
  - rewrite Dk. apply Hr.
  - by apply (log_ok_erase st sz k3).
  - by apply (loggable_logged k).
  - rewrite Hlog4, Ho3, Hlog. simpl. rewrite length_alter. apply Hr.
  - rewrite Hlog4, Hc3, Hlog. apply Hr.
  - simpl. pose proof (length_logged b bs). lia.
  - simpl. apply Forall_alter_pred, Hr.
  - simpl. intros E. apply (f_equal length) in E. rewrite length_alter in E. apply lookup_lt_Some in Hj.
    simpl in E. lia.
Qed.

(** ** end_op *)

Lemma bview_wakeup k c pid H L V ch :
  bview k c pid H L V -> bview (set_k_ptable (wakeup1_proc ch <$> k_ptable k) k) c pid H L V.
Proof.
  intros [[lru Hok] Hrun Hheld Hfree Hnd Hpin Hval]. split; auto.
  - exists lru. by apply bcache_ok_ptable.
  - by apply running_wakeup.
Qed.

(** Changing the log's counters, waking the waiters: the view stays. *)
Definition log_wake (f : logstate -> logstate) (k : kernel) : kernel :=
  set_k_ptable (wakeup1_proc C_log <$> k_ptable k) (set_k_log (f (k_log k)) k).

Lemma bview_log k c pid L V f :
  bview k c pid [] L V -> bview (set_k_log (f (k_log k)) k) c pid [] L V.
Proof. apply view_log. Qed.

Lemma bview_log_wake k c pid L V f :
  bview k c pid [] L V -> bview (log_wake f k) c pid [] L V.
Proof. intros HV. apply (bview_wakeup (set_k_log (f (k_log k)) k)). by apply bview_log. Qed.

Lemma wake_waiters k f :
  k_held k = [] ->
  (acquire L_log ;;; upd_log f ;;; wakeup C_log ;;; release L_log) k = Ok tt (log_wake f k).
Proof.
  intros Hh. erewrite bind_ok by (apply acquire_ok; rewrite Hh; set_solver).
  erewrite bind_ok by reflexivity.
  erewrite bind_ok by (apply wakeup_ok; simpl; rewrite Hh; set_solver).
  erewrite release_ok by reflexivity. f_equal.
Qed.

Definition ended (lg : logstate) : logstate := set_l_outstanding (l_outstanding lg - 1) lg.

(** [end_op] as its two cases. *)
Lemma end_op_eq k :
  k_held k = [] -> l_committing (k_log k) = false ->
  end_op k =
  if l_outstanding (k_log k) =? 1 then
    (commit ;;; acquire L_log ;;; upd_log (set_l_committing false) ;;; wakeup C_log ;;; release L_log)
      (set_k_log (set_l_committing true (ended (k_log k))) k)
  else Ok tt (log_wake ended k).
Proof.
  intros Hh Hc. unfold end_op. erewrite bind_ok by (apply acquire_ok; rewrite Hh; set_solver).
  erewrite bind_ok by reflexivity. mget. simpl. rewrite Hc.
  replace (l_outstanding (k_log k) - 1 =? 0) with (l_outstanding (k_log k) =? 1)
    by (destruct (Z.eqb_spec (l_outstanding (k_log k)) 1), (Z.eqb_spec (l_outstanding (k_log k) - 1) 0); lia || done).
  destruct (l_outstanding (k_log k) =? 1).
  - erewrite bind_ok by reflexivity. erewrite bind_ok by (by apply release_ok).
    f_equal.
  - erewrite bind_ok by (apply wakeup_ok; simpl; rewrite Hh; set_solver).
    erewrite bind_ok by (by apply release_ok). unfold ret. f_equal.
Qed.

Lemma log_ok_counters k bs f g :
  log_ok st sz k bs ->
  (forall lg, l_dev (f lg) = l_dev lg /\ l_start (f lg) = l_start lg /\ l_size (f lg) = l_size lg /\
    lh_n (f lg) = lh_n lg /\ lh_block (f lg) = lh_block lg) ->
  (forall k, k_log (g k) = f (k_log k) /\ k_disksize (g k) = k_disksize k) ->
  log_ok st sz (g k) bs.
Proof.
  intros [] Hf Hg. destruct (Hg k) as [E1 E2]. destruct (Hf (k_log k)) as (? & ? & ? & ? & ?).
  split; rewrite ?E1, ?E2; congruence.
Qed.

(** The disk writes of an [end_op]. *)
Definition end_writes (V : Z -> list Z) (bs : list Z) (a : txn) (j : nat) : list (Z * list Z) :=
  if decide (delete j (t_ops a) = [] /\ bs <> []) then commit_writes st V bs else [].

Lemma commit_outside V bs b :
  NoDup bs ->
  Z.of_nat (length bs) <= sz - 1 -> outside b -> b <> st ->
  forall D, (forall x, x ∉ bs -> outside x -> V x = D x) ->
  apply_writes D (commit_writes st V bs) b = V b.
Proof.
  intros Hnd Hfit Hb Hst D HD. unfold commit_writes. set (h := head_block _ _).
  rewrite !apply_writes_app. rewrite apply_writes_out; cycle 1.
  { intros Hx. apply list_elem_of_fmap in Hx as (w & E & Hw). apply list_elem_of_singleton in Hw. by subst w. }
  assert (Hdom : ((fun b => (b, V b)) <$> bs).*1 = bs) by (by rewrite <- list_fmap_compose, list_fmap_id).
  destruct (decide (b ∈ bs)) as [Hin|Hn].
  - apply list_elem_of_lookup in Hin as [i Hi]. apply (apply_writes_in _ _ i); [by rewrite Hdom|].
    by rewrite list_lookup_fmap, Hi.
  - rewrite apply_writes_out by (by rewrite Hdom). simpl. rewrite vupd_ne by done.
    rewrite apply_writes_out; [by rewrite HD|]. intros Hx%log_copies_dom. unfold outside in Hb. lia.
Qed.

Lemma refines_ended k k' c pid bs bs' a j q f :
  refines k c pid bs a -> t_ops a !! j = Some q ->
  (exists V, bview k' c pid [] bs' V /\ forall b, outside b -> V b = t_current a b) ->
  (forall b, outside b -> k_disk k' b = t_committed (t_end j a) b) ->
  get32 (k_disk k' st) 0 = 0 -> log_ok st sz k' bs' -> loggable st sz k' bs' ->
  k_log k' = f (k_log k) -> l_outstanding (f (k_log k)) = l_outstanding (k_log k) - 1 ->
  l_committing (f (k_log k)) = false ->
  (length bs' <= length bs)%nat -> (delete j (t_ops a) = [] -> bs' = []) ->
  refines k' c pid bs' (t_end j a).
Proof.
  intros Hr Hj HV HD Hh Hlo Hlg Hf Ho Hc Hlen Hno. pose proof (lookup_lt_Some _ _ _ Hj).
  split; auto; rewrite ?Hf; auto.
  - rewrite Ho, (rf_ops _ _ _ _ _ Hr). simpl. rewrite length_delete by done. lia.
  - simpl. pose proof (quota_delete (t_ops a) j). pose proof (rf_quota _ _ _ _ _ Hr). lia.
  - simpl. apply Forall_delete, Hr.
Qed.

Lemma end_op_ok k c pid bs a j q V :
  refines k c pid bs a -> t_ops a !! j = Some q -> sz <= Z.of_nat NBUF ->
  bview k c pid [] bs V -> (forall b, outside b -> V b = t_current a b) ->
  exists k' bs', end_op k = Ok tt k' /\ refines k' c pid bs' (t_end j a) /\
    k_disk k' = apply_writes (k_disk k) (end_writes V bs a j) /\
    k_dtrace k' = rev (end_writes V bs a j) ++ k_dtrace k.
Proof.
  intros Hr Hj Hsz HV HVa. pose proof (bc_running _ _ _ _ _ _ HV) as (Hh & _).
  pose proof (rf_log _ _ _ _ _ Hr) as Hlo. destruct (lo_geom _ _ _ _ Hlo) as (Hg1 & Hg0 & Hg2 & Hg3).
  pose proof (rf_fit _ _ _ _ _ Hr) as Hfit. pose proof (lookup_lt_Some _ _ _ Hj) as Hjl.
  pose proof (length_delete (t_ops a) j (ex_intro _ _ Hj)) as Hld.
  rewrite end_op_eq by (done || apply Hr). rewrite (rf_ops _ _ _ _ _ Hr). unfold end_writes.
  destruct (Z.eqb_spec (Z.of_nat (length (t_ops a))) 1) as [E1|E1].
  - assert (Hnil : delete j (t_ops a) = []) by (apply nil_length_inv; lia).
    set (k1 := set_k_log _ k).
    assert (V1 : bview k1 c pid [] bs V) by exact (bview_log k c pid bs V (fun lg => set_l_committing true (ended lg)) HV).
    assert (Hlo1 : log_ok st sz k1 bs).
    { apply (log_ok_counters k bs (fun lg => set_l_committing true (ended lg))
               (fun k => set_k_log (set_l_committing true (ended (k_log k))) k)); [done|by repeat split..]. }
    assert (Hfit1 : loggable st sz k1 bs) by (by destruct Hfit).
    assert (Hcur : t_committed (t_end j a) = t_current a) by (simpl; by rewrite decide_True).
    destruct (decide (bs = [])) as [->|Hne].
    + rewrite decide_False by tauto.
      assert (F1 : commit k1 = Ok tt k1).
      { unfold commit. mget. by rewrite (lo_n _ _ _ _ Hlo1). }
      mstep F1. rewrite wake_waiters by exact Hh.
      eexists _, []. split; [reflexivity|]. split; [|done].
      eapply (refines_ended k _ c pid [] [] a j q (fun lg => set_l_committing false (set_l_committing true (ended lg))));
        try done.
      * exists V. split; [by apply bview_log_wake|done].
      * intros b Hb. rewrite Hcur. simpl. rewrite <- HVa by done. symmetry.
        eapply bc_clean; [exact HV|set_solver|set_solver].
      * apply Hr.
      * apply (log_ok_counters k1 [] (set_l_committing false) (log_wake (set_l_committing false))); [done|by repeat split..].
      * by destruct Hfit.
    + rewrite decide_True by done.
      destruct (commit_ok st sz c pid k1 V bs V1 Hlo1 Hfit1 Hne) as (k2 & F2 & D2 & T2 & Hlo2 & V2 & Elog & Eds).
      mstep F2. pose proof (bc_running _ _ _ _ _ _ V2) as (Hh2 & _). rewrite wake_waiters by done.
      eexists _, []. split; [reflexivity|]. split; [|split; [exact D2|exact T2]].
      assert (Hcl : forall x, x ∉ bs -> outside x -> V x = k_disk k x).
      { intros x Hx _. eapply bc_clean; [exact HV|done|set_solver]. }
      assert (Hst : ~ outside st) by (unfold outside; lia).
      assert (Hout : forall D b, (forall x, x ∉ bs -> outside x -> V x = D x) -> outside b ->
        apply_writes D (commit_writes st V bs) b = V b).
      { intros D b HD Hb. apply commit_outside; auto; [apply Hfit|apply Hfit|]. by intros ->. }
      assert (Hhead : apply_writes (k_disk k) (commit_writes st V bs) st =
                      set32 (head_block (V st) bs) 0 0).
      { unfold commit_writes. rewrite !app_assoc, apply_writes_app. apply vupd_eq. }
      eapply (refines_ended k _ c pid bs [] a j q
        (fun lg => set_l_committing false (set_lh_n 0 (set_l_committing true (ended lg))))); try done.
      * exists (apply_writes V (commit_writes st V bs)). split; [by apply bview_log_wake|].
        intros b Hb. rewrite Hout by done. by apply HVa.
      * intros b Hb. rewrite Hcur. simpl. rewrite D2. change (k_disk k1) with (k_disk k).
        rewrite Hout by done. by apply HVa.
      * simpl. rewrite D2. change (k_disk k1) with (k_disk k). rewrite Hhead. rewrite get32_set32_eq; [done|].
        rewrite (head_block_length st sz V bs); [unfold BSIZE; lia|..].
        -- intros. by eapply bc_length.
        -- split; [apply Hfit|]. by apply (log_ok_length st sz k).
      * apply (log_ok_counters k2 [] (set_l_committing false) (log_wake (set_l_committing false))); [done|by repeat split..].
      * split; [set_solver|constructor|simpl; unfold NBUF; lia].
      * simpl. by rewrite Elog.
      * simpl. lia.
  - assert (Hne : delete j (t_ops a) <> []) by (intros E; rewrite E in Hld; simpl in Hld; lia).
    rewrite decide_False by tauto. eexists _, bs. split; [reflexivity|]. split; [|done].
    eapply (refines_ended k _ c pid bs bs a j q ended); try done.
    + exists V. split; [by apply bview_log_wake|done].
    + intros b Hb. simpl. rewrite decide_False by done. by apply Hr.
    + apply Hr.
    + apply (log_ok_counters k bs ended (log_wake ended)); [done|by repeat split..].
    + by destruct Hfit.
    + apply Hr.
Qed.

(** ** Runs of the log *)

(** What the processes of the system do to the log, a step at a time: a call
    begins, call [j] writes a block, call [j] ends, another process gets the
    processor. *)
Inductive event : Type :=
| Ebegin | Eupdate (j : nat) (b : Z) (d : list Z) | Eend (j : nat) | Eswitch (c : nat).

Definition exec (ev : event) : KM unit :=
  match ev with
  | Ebegin => begin_op
  | Eupdate _ b d => update b d
  | Eend _ => end_op
  | Eswitch c => modify (set_k_cur (Some c))
  end.

Definition t_exec (ev : event) (a : txn) : txn :=
  match ev with
  | Ebegin => t_begin a
  | Eupdate j b d => t_update j b d a
  | Eend j => t_end j a
  | Eswitch _ => a
  end.

(** What a caller must respect: a block of the disk outside the log, a whole block
    of data, and no more than [MAXOPBLOCKS] writes in a call. *)
Definition allowed (ev : event) (k : kernel) (a : txn) : Prop :=
  match ev with
  | Ebegin => True
  | Eupdate j b d => (exists q, t_ops a !! j = Some (S q)) /\ 0 <= b < k_disksize k /\ outside b /\
      length d = Z.to_nat BSIZE
  | Eend j => exists q, t_ops a !! j = Some q
  | Eswitch c => exists p, k_ptable k !! c = Some p
  end.

Lemma refines_switch k c pid bs a c' p :
  refines k c pid bs a -> k_ptable k !! c' = Some p ->
  refines (set_k_cur (Some c') k) c' (p_pid p) bs a.
Proof.
  intros [(V & [[lru Hok] (Hh & _) Hheld Hfree Hnd Hpin Hval] & HVa) Hd Hhd [] [] Ho Hi Hq Ht Hno] Hp.
  split; auto; [|by split..]. exists V. split; [|done]. split; auto.
  - exists lru. destruct Hok as [? ? ? ? Hb ? ?]. split; auto.
    intros i x Hi' Hx. by destruct (Hb i x Hi' Hx).
  - repeat split; [done|]. by exists p.
  - intros i b Hib. by apply elem_of_nil in Hib.
Qed.

(** The full log: the write is refused by a panic. *)
Lemma update_full k c pid bs a b d :
  refines k c pid bs a -> 0 <= b < k_disksize k -> length d = Z.to_nat BSIZE ->
  sz - 1 <= Z.of_nat (length bs) -> update b d k = Panic "too big a transaction".
Proof.
  intros Hr Hb Hd Hn. destruct (rf_view _ _ _ _ _ Hr) as (V & HV & HVa).
  pose proof (rf_log _ _ _ _ _ Hr) as Hlo. destruct (lg_room _ _ _ _ (rf_fit _ _ _ _ _ Hr)) as [Hrm Hnb].
  unfold update.
  destruct (bc_bread k c pid [] bs V b HV Hb) as (i & k1 & F1 & V1 & R1 & D1 & T1); [set_solver|by left|].
  mstep F1. unfold set_data.
  destruct (bc_set_data k1 c pid _ bs V i b d V1) as (k2 & F2 & V2 & R2 & D2 & T2); [set_solver|done|].
  mstep F2. assert (Hlo2 : log_ok st sz k2 bs) by (apply (log_ok_erase st sz k); [congruence|done]).
  unfold bind at 1, log_write. unfold bind at 1, get. rewrite (lo_n _ _ _ _ Hlo2), (lo_size _ _ _ _ Hlo2).
  rewrite (proj2 (Z.leb_le (sz - 1) _)) by done. by rewrite orb_true_r.
Qed.

Lemma exec_refines ev k c pid bs a :
  refines k c pid bs a -> allowed ev k a -> sz <= Z.of_nat NBUF ->
  match exec ev k with
  | Ok _ k' => exists c' pid' bs', refines k' c' pid' bs' (t_exec ev a)
  | Swtch k' => ev = Ebegin /\ LOGSIZE < Z.of_nat (length bs) + (Z.of_nat (length (t_ops a)) + 1) * MAXOPBLOCKS
                /\ k_log k' = k_log k /\ k_disk k' = k_disk k
  | Panic m => m = "too big a transaction"%string /\ sz - 1 <= Z.of_nat (length bs)
  | _ => False
  end.
Proof.
  intros Hr Ha Hsz. destruct ev as [|j b d|j|c']; simpl in *.
  - destruct (Z.leb_spec (Z.of_nat (length bs) + (Z.of_nat (length (t_ops a)) + 1) * MAXOPBLOCKS) LOGSIZE).
    + destruct (begin_op_ok k c pid bs a Hr) as (k' & -> & Hr' & _); [done|]. by exists c, pid, bs.
    + destruct (begin_op_waits k c pid bs a Hr) as (k' & -> & E1 & E2); [lia|]. auto.
  - destruct Ha as ((q & Hj) & Hb & Ho & Hd).
    destruct (Z.ltb_spec (Z.of_nat (length bs)) (sz - 1)).
    + destruct (update_ok k c pid bs a j q b d Hr Hj Hb Ho Hd) as (k' & -> & Hr' & _); [done|done|].
      by exists c, pid, (logged b bs).
    + rewrite (update_full k c pid bs a b d) by done. auto.
  - destruct Ha as (q & Hj). destruct (rf_view _ _ _ _ _ Hr) as (V & HV & HVa).
    destruct (end_op_ok k c pid bs a j q V Hr Hj Hsz HV HVa) as (k' & bs' & -> & Hr' & _).
    by exists c, pid, bs'.
  - destruct Ha as (p & Hp). exists c', (p_pid p), bs. by apply (refines_switch k c pid).
Qed.

Inductive lrun : kernel -> txn -> list event -> kernel -> txn -> Prop :=
| lrun_nil k a : lrun k a [] k a
| lrun_cons k a ev k1 evs k' a' :
    allowed ev k a -> exec ev k = Ok tt k1 -> lrun k1 (t_exec ev a) evs k' a' ->
    lrun k a (ev :: evs) k' a'.

Lemma lrun_refines k a evs k' a' c pid bs :
  lrun k a evs k' a' -> refines k c pid bs a -> sz <= Z.of_nat NBUF ->
  exists c' pid' bs', refines k' c' pid' bs' a'.
Proof.
  intros Hrun. revert c pid bs. induction Hrun as [|k a ev k1 evs k' a' Ha He _ IH];
    intros c pid bs Hr Hsz; [by exists c, pid, bs|].
  pose proof (exec_refines ev k c pid bs a Hr Ha Hsz) as Hx. rewrite He in Hx.
  destruct Hx as (c1 & pid1 & bs1 & Hr1). by apply (IH c1 pid1 bs1).
Qed.

End Txn.

(** ** Crashes and recovery *)

Lemma recover_writes_ext st V V' :
  (forall b, V b = V' b) -> recover_writes st V = recover_writes st V'.
Proof.
  intros E. unfold recover_writes. rewrite (E st). f_equal. apply home_copies_agree. auto.
Qed.

Lemma apply_writes_ext d d' W b : (forall b, d b = d' b) -> apply_writes d W b = apply_writes d' W b.
Proof.
  revert d d'. induction W as [|w W IH]; intros d d' E; [apply E|]. simpl. apply IH.
  intros x. unfold vupd, disk_upd. by case_bool.
Qed.

(** A machine booted with disk [d]: nothing cached, the log's variables zero. *)
Record booted (k : kernel) (c : nat) (pid : Z) (n : Z) (d : Z -> list Z) : Prop := {
  bt_view : exists V, bview k c pid [] [] V;
  bt_disk : forall b, k_disk k b = d b;
  bt_size : k_disksize k = n;
  bt_log : k_log k = zero_log
}.

(** The superblock in [d] places the log at [st], [sz] blocks long. *)
Definition log_placed (st sz : Z) (d : Z -> list Z) (n : Z) : Prop :=
  i32 (sb_logstart (decode_sb (d 1))) = st /\ i32 (sb_nlog (decode_sb (d 1))) = sz /\
  1 < st /\ 1 <= sz <= Z.of_nat NBUF /\ st + sz <= n /\ n < 2 ^ 31.

Definition idle (d : Z -> list Z) : txn := mk_txn d d [].

Lemma initlog_booted st sz k c pid n d :
  booted k c pid n d -> log_placed st sz d n -> head_ok (d st) -> loggable st sz k (head_list (d st)) ->
  (forall b, length (d b) = Z.to_nat BSIZE) ->
  exists k', initlog ROOTDEV k = Ok tt k' /\
    k_dtrace k' = rev (recover_writes st d) ++ k_dtrace k /\
    refines st sz k' c pid [] (idle (recover_disk st d)) /\ k_disksize k' = n.
Proof.
  intros [[V HV] Hd Hn Hlog] (E1 & E2 & Hg1 & Hg2 & Hg3 & Hg4) Hh Hlg Hlen.
  assert (EV : forall b, V b = d b).
  { intros b. rewrite <- Hd. eapply bc_clean; [exact HV|set_solver|set_solver]. }
  destruct (initlog_ok st sz c pid k V HV) as (k' & F & D & T & Hlo & V' & Es & Eo & Ec);
    rewrite ?EV; auto; rewrite ?Hlog, ?Hn; try done; try lia.
  rewrite (recover_writes_ext st V d EV) in *.
  assert (ED : forall b, k_disk k' b = recover_disk st d b).
  { intros b. rewrite D. by apply apply_writes_ext. }
  exists k'. split; [done|]. split; [done|]. split; [|congruence]. split.
  - exists (apply_writes V (recover_writes st d)). split; [done|]. intros b _. by apply apply_writes_ext.
  - intros b _. apply ED.
  - rewrite ED. unfold recover_disk, recover_writes. rewrite apply_writes_app. simpl.
    rewrite vupd_eq. rewrite get32_set32_eq; [done|lia].
  - done.
  - split; [set_solver|constructor|simpl; unfold NBUF; lia].
  - rewrite Eo, Hlog. done.
  - rewrite Ec, Hlog. done.
  - simpl. lia.
  - constructor.
  - done.
Qed.

Section Crash.
Context (st sz : Z) (k : kernel) (c : nat) (pid : Z) (bs : list Z) (a : txn) (V : Z -> list Z).
Hypothesis Hr : refines st sz k c pid bs a.
Hypothesis HV : bview k c pid [] bs V.
Hypothesis HVa : forall b, outside st sz b -> V b = t_current a b.
Hypothesis Hsz : sz <= Z.of_nat NBUF.

Lemma refines_head_empty : head_list (k_disk k st) = [].
Proof. unfold head_list. by rewrite (rf_head _ _ _ _ _ _ _ Hr). Qed.

Lemma refines_clean b : b ∉ bs -> V b = k_disk k b.
Proof. intros. eapply bc_clean; [exact HV|done|set_solver]. Qed.

Lemma refines_bounds b : b ∈ bs -> 0 <= b < 2 ^ 31 /\ ~ (st <= b < st + sz).
Proof.
  intros Hb%(lg_in _ _ _ _ (rf_fit _ _ _ _ _ _ _ Hr)).
  destruct (lo_geom _ _ _ _ (rf_log _ _ _ _ _ _ _ Hr)). lia.
Qed.

Lemma refines_fits : Z.of_nat (length bs) <= sz - 1 /\ (length bs <= 30)%nat.
Proof.
  destruct (lg_room _ _ _ _ (rf_fit _ _ _ _ _ _ _ Hr)). unfold NBUF in *. split; [done|lia].
Qed.

Lemma crash_recovers j q m kb c' pid' :
  t_ops a !! j = Some q ->
  booted kb c' pid' (k_disksize k) (apply_writes (k_disk k) (take m (end_writes st V bs a j))) ->
  log_placed st sz (k_disk k) (k_disksize k) -> 1 ∉ bs ->
  exists kb' C, initlog ROOTDEV kb = Ok tt kb' /\ refines st sz kb' c' pid' [] (idle C) /\
    ((forall b, outside st sz b -> C b = t_committed a b) \/
     (forall b, outside st sz b -> C b = t_committed (t_end j a) b)).
Proof.
  intros Hj Hbt Hpl H1. destruct (rf_fit _ _ _ _ _ _ _ Hr) as [Hin Hnd _].
  pose proof Hpl as (E1 & E2 & Hg1 & Hg2 & Hg3 & Hg4).
  assert (Hlen : forall b, length (V b) = Z.to_nat BSIZE) by (intros; by eapply bc_length).
  set (W := end_writes st V bs a j) in *. set (d := apply_writes (k_disk k) (take m W)) in *.
  assert (Hst : ~ outside st sz st) by (unfold outside; lia).
  assert (HD : forall b, outside st sz b -> d b = k_disk k b \/ b ∈ bs).
  { intros b Hb. destruct (decide (b ∈ bs)); [by right|left]. unfold d. apply apply_writes_out.
    intros Hw. assert (b ∈ W.*1) as Hw'.
    { revert Hw. rewrite fmap_take. apply subseteq_take. }
    unfold W, end_writes in Hw'. case_decide; [|by apply elem_of_nil in Hw'].
    unfold commit_writes in Hw'. rewrite !fmap_app, <- list_fmap_compose, list_fmap_id in Hw'.
    apply elem_of_app in Hw' as [Hw'%log_copies_dom|Hw'].
    - destruct refines_fits. unfold outside in Hb. lia.
    - assert (b = st \/ b ∈ bs) as [->|]; [clear -Hw'; set_solver|done|done]. }
  assert (Hpl' : log_placed st sz d (k_disksize k)).
  { unfold log_placed. destruct (HD 1) as [->|]; [unfold outside; lia|done|done]. }
  assert (Hd512 : forall b, length (d b) = Z.to_nat BSIZE).
  { intros b. rewrite <- (bt_disk _ _ _ _ _ Hbt). destruct (bt_view _ _ _ _ _ Hbt) as [Vb HVb].
    destruct (bv_ok _ _ _ _ _ _ HVb) as [lru Hok]. apply (bc_disk _ _ Hok). }
  assert (Hlg : forall l, l = [] \/ l = bs -> loggable st sz kb l).
  { intros l [->| ->].
    - split; [set_solver|constructor|simpl; unfold NBUF; lia].
    - destruct (rf_fit _ _ _ _ _ _ _ Hr). split; rewrite ?(bt_size _ _ _ _ _ Hbt); auto. }
  destruct (decide (delete j (t_ops a) = [] /\ bs <> [])) as [[Hlast Hne]|Hno].
  - assert (EW : W = commit_writes st V bs) by (unfold W, end_writes; by rewrite decide_True).
    destruct (crash_head_list st sz (k_disk k) V bs Hlen refines_head_empty refines_bounds Hnd refines_fits refines_clean m
                (rf_head _ _ _ _ _ _ _ Hr)) as [Hok Hhl].
    rewrite <- EW in Hok, Hhl. fold d in Hok, Hhl.
    destruct (initlog_booted st sz kb c' pid' _ d Hbt Hpl' Hok (Hlg _ Hhl) Hd512) as (kb' & F & _ & R & _).
    exists kb', (recover_disk st d). split; [done|]. split; [done|].
    destruct (decide (m <= length bs)%nat) as [Hm|Hm].
    + left. intros b Hb. unfold d. 
      rewrite EW, (crash_before st sz (k_disk k) V bs Hlen refines_head_empty refines_bounds Hnd
        refines_fits refines_clean) by done.
      by apply (rf_disk _ _ _ _ _ _ _ Hr).
    + right. intros b Hb. simpl. rewrite decide_True by done. rewrite <- HVa by done. unfold d. rewrite EW.
      apply (crash_after st sz (k_disk k) V bs Hlen refines_head_empty refines_bounds Hnd
        refines_fits refines_clean); [lia|done].
  - assert (Ed : d = k_disk k).
    { unfold d, W, end_writes. rewrite decide_False by done. by rewrite take_nil. }
    rewrite Ed in *.
    assert (Hok : head_ok (k_disk k st)).
    { unfold head_ok. rewrite refines_head_empty, (rf_head _ _ _ _ _ _ _ Hr). simpl.
      split; [done|]. lia. }
    destruct (initlog_booted st sz kb c' pid' _ (k_disk k) Hbt Hpl' Hok) as (kb' & F & _ & R & _).
    { apply Hlg. left. apply refines_head_empty. }
    { done. }
    exists kb', (recover_disk st (k_disk k)). split; [done|]. split; [done|]. left. intros b Hb.
    rewrite recover_disk_out; [by apply (rf_disk _ _ _ _ _ _ _ Hr)|rewrite refines_head_empty; set_solver|].
    by intros ->.
Qed.

End Crash.

(** The header while recovery runs. *)
Lemma recover_head st d m :
  st ∉ head_list (d st) ->
  let d2 := apply_writes d (take m (recover_writes st d)) in
  d2 st = d st \/ d2 st = set32 (d st) 0 0.
Proof.
  intros Hst. cbv zeta. unfold recover_writes.
  destruct (decide (m <= length (home_copies st d 0 (head_list (d st))))%nat) as [Hm|Hm].
  - left. rewrite take_app_le by done. apply apply_writes_out. rewrite fmap_take, home_copies_dom.
    by intros ?%subseteq_take.
  - right. rewrite take_ge by (rewrite length_app; simpl; lia). rewrite apply_writes_app. apply vupd_eq.
Qed.

(** ** The theorems *)

(** C1: Every step of the log refines the transaction machine, on every outcome: a
    [begin_op] either adds a call or puts the process to sleep because the log might
    not hold another call's blocks; a block update inside a call changes the current
    contents only, or is refused by the panic when the log is full; an [end_op]
    always returns and makes the current contents the committed ones when it is the
    last. *)
Theorem log_step_refines st sz ev k c pid bs a :
  refines st sz k c pid bs a -> allowed st sz ev k a -> sz <= Z.of_nat NBUF ->
  match exec ev k with
  | Ok _ k' => exists c' pid' bs', refines st sz k' c' pid' bs' (t_exec ev a)
  | Swtch k' => ev = Ebegin /\ LOGSIZE < Z.of_nat (length bs) + (Z.of_nat (length (t_ops a)) + 1) * MAXOPBLOCKS
                /\ k_log k' = k_log k /\ k_disk k' = k_disk k
  | Panic m => m = "too big a transaction"%string /\ sz - 1 <= Z.of_nat (length bs)
  | _ => False
  end.
Proof. apply exec_refines. Qed.

(** After boot, however the calls of the processes interleave, the disk outside the
    log holds exactly the committed contents (the blocks of unfinished calls are
    never written home), and the blocks logged plus those the calls in progress may
    still write never exceed [LOGSIZE]. *)
Theorem log_runs_isolated st sz k c pid d evs k' a' :
  refines st sz k c pid [] (idle d) -> sz <= Z.of_nat NBUF ->
  lrun st sz k (idle d) evs k' a' ->
  (forall b, outside st sz b -> k_disk k' b = t_committed a' b) /\
  lh_n (k_log k') + Z.of_nat (quota (t_ops a')) <= LOGSIZE /\
  l_outstanding (k_log k') = Z.of_nat (length (t_ops a')).
Proof.
  intros Hr Hsz Hrun. destruct (lrun_refines st sz _ _ _ _ _ c pid [] Hrun Hr Hsz) as (c' & pid' & bs' & Hr').
  split; [apply Hr'|]. split; [|apply Hr'].
  rewrite (lo_n _ _ _ _ (rf_log _ _ _ _ _ _ _ Hr')). pose proof (rf_quota _ _ _ _ _ _ _ Hr').
  unfold LOGSIZE, MAXOPBLOCKS in *. lia.
Qed.

(** C2: Crash atomicity.  [end_op] returns, and if the machine stops after any number
    [m] of the disk writes it makes and is booted again, [initlog] recovers a disk
    whose blocks outside the log are all those committed before the [end_op] or all
    those committed by it, and the log is ready for use. *)
Theorem end_op_crash_safe st sz k c pid bs a j q :
  refines st sz k c pid bs a -> t_ops a !! j = Some q -> log_placed st sz (k_disk k) (k_disksize k) -> 1 ∉ bs ->
  exists W k' bs', end_op k = Ok tt k' /\ refines st sz k' c pid bs' (t_end j a) /\
    k_dtrace k' = rev W ++ k_dtrace k /\ k_disk k' = apply_writes (k_disk k) W /\
    forall m kb c' pid',
      booted kb c' pid' (k_disksize k) (apply_writes (k_disk k) (take m W)) ->
      exists kb' C, initlog ROOTDEV kb = Ok tt kb' /\ refines st sz kb' c' pid' [] (idle C) /\
        ((forall b, outside st sz b -> C b = t_committed a b) \/
         (forall b, outside st sz b -> C b = t_committed (t_end j a) b)).
Proof.
  intros Hr Hj Hpl H1. assert (Hsz : sz <= Z.of_nat NBUF) by (destruct Hpl; lia).
  destruct (rf_view _ _ _ _ _ _ _ Hr) as (V & HV & HVa).
  destruct (end_op_ok st sz k c pid bs a j q V Hr Hj Hsz HV HVa) as (k' & bs' & F & Hr' & D & T).
  exists (end_writes st V bs a j), k', bs'. do 4 (split; [done|]). intros m kb c' pid' Hbt.
  by apply (crash_recovers st sz k c pid bs a V Hr HV HVa Hsz j q m kb c' pid').
Qed.

(** C9: Recovery can be interrupted: if the machine stops after any number of the disk
    writes [initlog] makes and is booted again, the second [initlog] comes to the
    same contents outside the log as the first would have. *)
Theorem recovery_repeatable st sz k c pid n d :
  booted k c pid n d -> log_placed st sz d n -> head_ok (d st) -> loggable st sz k (head_list (d st)) ->
  1 ∉ head_list (d st) ->
  exists k' W, initlog ROOTDEV k = Ok tt k' /\ k_dtrace k' = rev W ++ k_dtrace k /\
    forall m k2 c2 pid2, booted k2 c2 pid2 n (apply_writes d (take m W)) ->
      exists k2', initlog ROOTDEV k2 = Ok tt k2' /\
        forall b, outside st sz b -> k_disk k2' b = k_disk k' b.
Proof.
  intros Hbt Hpl Hh Hlg H1. assert (Hlen : forall b, length (d b) = Z.to_nat BSIZE).
  { intros b. rewrite <- (bt_disk _ _ _ _ _ Hbt). destruct (bt_view _ _ _ _ _ Hbt) as [Vb HVb].
    destruct (bv_ok _ _ _ _ _ _ HVb) as [lru Hok]. apply (bc_disk _ _ Hok). }
  destruct (initlog_booted st sz k c pid n d Hbt Hpl Hh Hlg Hlen) as (k' & F & T & Hr & _).
  exists k', (recover_writes st d). split; [done|]. split; [done|]. intros m k2 c2 pid2 Hb2.
  set (d2 := apply_writes d (take m (recover_writes st d))) in *.
  destruct Hpl as (E1 & E2 & Hg).
  assert (Hout : forall b, b ∈ head_list (d st) -> ~ (st <= b < st + sz)) by (intros b ?%(lg_in _ _ _ _ Hlg); tauto).
  assert (E : d2 1 = d 1).
  { unfold d2. apply apply_writes_out. rewrite fmap_take. intros Hx%subseteq_take.
    unfold recover_writes in Hx. rewrite fmap_app, home_copies_dom in Hx.
    apply elem_of_app in Hx as [Hx|Hx%list_elem_of_singleton]; [done|]. simpl in Hx. lia. }
  assert (Hpl2 : log_placed st sz d2 n) by (unfold log_placed; by rewrite E).
  assert (Hhd : head_ok (d2 st) /\ loggable st sz k2 (head_list (d2 st))).
  { assert (Hst : st ∉ head_list (d st)) by (intros Hst%Hout; lia).
    destruct (recover_head st d m Hst) as [Eh|Eh]; fold d2 in Eh; rewrite Eh.
    - split; [done|]. destruct Hlg. split; rewrite ?(bt_size _ _ _ _ _ Hb2); auto.
      by rewrite <- (bt_size _ _ _ _ _ Hbt).
    - rewrite head_list_erased by (rewrite Hlen; unfold BSIZE; lia). split.
      + unfold head_ok. rewrite head_list_erased, get32_set32_eq; [|lia|rewrite Hlen; unfold BSIZE; lia].
        split; [done|simpl; lia].
      + split; [by intros ? ?%elem_of_nil|constructor|simpl; unfold NBUF; lia]. }
  destruct Hhd as [Hh2 Hlg2].
  assert (Hlen2 : forall b, length (d2 b) = Z.to_nat BSIZE).
  { intros b. rewrite <- (bt_disk _ _ _ _ _ Hb2). destruct (bt_view _ _ _ _ _ Hb2) as [Vb HVb].
    destruct (bv_ok _ _ _ _ _ _ HVb) as [lru Hok]. apply (bc_disk _ _ Hok). }
  destruct (initlog_booted st sz k2 c2 pid2 n d2 Hb2 Hpl2 Hh2 Hlg2 Hlen2) as (k2' & F2 & _ & Hr2 & _).
  exists k2'. split; [done|]. intros b Hb. rewrite (rf_disk _ _ _ _ _ _ _ Hr2), (rf_disk _ _ _ _ _ _ _ Hr) by done.
  simpl. apply (recover_again st sz); auto; [apply Hlg|apply Hlg|rewrite Hlen; unfold BSIZE; lia].
Qed.

(** ** A concrete log *)

(** The disk of a small file system as mkfs.c lays it out: the superblock in block
    1, a log of [LOGSIZE] blocks from block 2, everything else zero. *)
Definition sb_bytes : list Z :=
  le_bytes 4 1000 ++ le_bytes 4 941 ++ le_bytes 4 200 ++ le_bytes 4 LOGSIZE ++ le_bytes 4 2 ++
  le_bytes 4 32 ++ le_bytes 4 58.
Definition log_disk : Z -> list Z := fun b =>
  if b =? 1 then sb_bytes ++ replicate (Z.to_nat BSIZE - 28) 0 else replicate (Z.to_nat BSIZE) 0.
Definition log_machine : kernel := ready_on log_disk.

Lemma log_disk_length b : length (log_disk b) = Z.to_nat BSIZE.
Proof. unfold log_disk. by case_bool. Qed.

Lemma log_machine_booted : booted log_machine 0 7 1000 log_disk.
Proof. split; try done. exists log_disk. apply ready_view, log_disk_length. Qed.

Lemma log_machine_placed : log_placed 2 LOGSIZE log_disk 1000.
Proof. by repeat split. Qed.

Lemma log_machine_outside b : b < 2 \/ 32 <= b -> outside 2 LOGSIZE b.
Proof. unfold outside, LOGSIZE, MAXOPBLOCKS. lia. Qed.

Lemma loggable_nil st sz k : 1 <= sz -> loggable st sz k [].
Proof. intros. split; [by intros ? ?%elem_of_nil|constructor|simpl; unfold NBUF; lia]. Qed.

Lemma log_machine_head : head_ok (log_disk 2) /\ head_list (log_disk 2) = [].
Proof. split; [split|]; vm_compute; (reflexivity || lia || discriminate). Qed.

Lemma log_machine_init :
  exists k, initlog ROOTDEV log_machine = Ok tt k /\
    refines 2 LOGSIZE k 0 7 [] (idle (recover_disk 2 log_disk)) /\ k_disksize k = 1000.
Proof.
  destruct (initlog_booted 2 LOGSIZE log_machine 0 7 1000 log_disk log_machine_booted log_machine_placed
              (proj1 log_machine_head)) as (k & F & _ & Hr & Hs).
  - rewrite (proj2 log_machine_head). by apply loggable_nil.
  - apply log_disk_length.
  - exists k. exact (conj F (conj Hr Hs)).
Qed.

Lemma log_step_refines_witness :
  exists k k', initlog ROOTDEV log_machine = Ok tt k /\ begin_op k = Ok tt k' /\ l_outstanding (k_log k') = 1.
Proof.
  destruct log_machine_init as (k & F & Hr & _). exists k.
  pose proof (log_step_refines 2 LOGSIZE Ebegin k 0 7 [] (idle (recover_disk 2 log_disk)) Hr I
                ltac:(by vm_compute)) as H. simpl in H.
  destruct (begin_op k) as [[] k'| | | |].
  - exists k'. split; [exact F|]. split; [reflexivity|]. destruct H as (c' & p' & b' & Hr').
    exact (rf_ops _ _ _ _ _ _ _ Hr').
  - destruct H as [_ H]. vm_compute in H. by destruct H.
  - destruct H.
  - destruct H as (_ & H & _). vm_compute in H. discriminate.
  - destruct H.
Defined.

Lemma log_runs_isolated_witness :
  exists k k', initlog ROOTDEV log_machine = Ok tt k /\ begin_op k = Ok tt k' /\
    lh_n (k_log k') + 10 <= LOGSIZE.
Proof.
  destruct log_machine_init as (k & F & Hr & _).
  destruct (begin_op_ok 2 LOGSIZE k 0 7 [] _ Hr) as (k' & B & _ & _); [by vm_compute|].
  exists k, k'. split; [exact F|]. split; [exact B|].
  apply (log_runs_isolated 2 LOGSIZE k 0 7 (recover_disk 2 log_disk) [Ebegin] k' (t_begin (idle (recover_disk 2 log_disk))) Hr).
  - by vm_compute.
  - econstructor; [exact I|exact B|constructor].
Defined.

Lemma end_op_crash_safe_witness :
  exists k0 k1 k2 W k3,
    initlog ROOTDEV log_machine = Ok tt k0 /\ begin_op k0 = Ok tt k1 /\
    update 100 (replicate (Z.to_nat BSIZE) 5) k1 = Ok tt k2 /\ end_op k2 = Ok tt k3 /\
    k_disk k3 = apply_writes (k_disk k2) W /\ k_disk k3 100 = replicate (Z.to_nat BSIZE) 5.
Proof.
  destruct log_machine_init as (k0 & F0 & H0 & Hs0).
  destruct (begin_op_ok 2 LOGSIZE k0 0 7 [] _ H0) as (k1 & F1 & H1 & _ & _ & Es1); [by vm_compute|].
  assert (Hs1 : k_disksize k1 = 1000) by congruence.
  destruct (update_ok 2 LOGSIZE k1 0 7 [] _ 0 9 100 (replicate (Z.to_nat BSIZE) 5) H1 eq_refl)
    as (k2 & F2 & H2 & _ & _ & Es2 & _); [rewrite Hs1; lia|apply log_machine_outside; lia|apply length_replicate|
      unfold LOGSIZE, MAXOPBLOCKS; simpl; lia|unfold LOGSIZE, MAXOPBLOCKS, NBUF; lia|].
  assert (Hd1 : k_disksize k2 = 1000) by congruence.
  assert (Hd2 : k_disk k2 1 = log_disk 1).
  { rewrite (rf_disk _ _ _ _ _ _ _ H2) by (apply log_machine_outside; lia).
    apply recover_disk_out; [|lia]. rewrite (proj2 log_machine_head). apply not_elem_of_nil. }
  destruct (end_op_crash_safe 2 LOGSIZE k2 0 7 _ _ 0 9 H2 eq_refl) as (W & k3 & bs' & F3 & H3 & _ & D3 & _).
  - unfold log_placed. rewrite Hd1, Hd2. exact log_machine_placed.
  - intros [H|H]%elem_of_app; [exact (proj1 (elem_of_nil _) H)|]. apply list_elem_of_singleton in H. lia.
  - exists k0, k1, k2, W, k3. do 5 (split; [assumption|]).
    rewrite (rf_disk _ _ _ _ _ _ _ H3); [reflexivity|]. apply log_machine_outside. lia.
Defined.

Lemma recovery_repeatable_witness :
  exists k' W, initlog ROOTDEV log_machine = Ok tt k' /\ k_dtrace k' = rev W ++ [].
Proof.
  destruct (recovery_repeatable 2 LOGSIZE log_machine 0 7 1000 log_disk log_machine_booted log_machine_placed
              (proj1 log_machine_head)) as (k' & W & F & T & _).
  - rewrite (proj2 log_machine_head). by apply loggable_nil.
  - rewrite (proj2 log_machine_head). apply not_elem_of_nil.
  - exists k', W. split; [exact F|exact T].
Defined.

(** ** A full log within the reservations

    mkfs.c makes the log [LOGSIZE] blocks long, the header included, while
    [begin_op] lets the calls in progress reserve [LOGSIZE] blocks of data. *)

Definition allowedb (st sz : Z) (ev : event) (k : kernel) (a : txn) : bool :=
  match ev with
  | Ebegin => true
  | Eupdate j b d =>
      match t_ops a !! j with Some (S _) => true | _ => false end &&
      (0 <=? b) && (b <? k_disksize k) && negb ((st <=? b) && (b <? st + sz)) &&
      Nat.eqb (length d) (Z.to_nat BSIZE)
  | Eend j => match t_ops a !! j with Some _ => true | None => false end
  | Eswitch c => match k_ptable k !! c with Some _ => true | None => false end
  end.

Lemma allowedb_sound st sz ev k a : allowedb st sz ev k a = true -> allowed st sz ev k a.
Proof.
  destruct ev as [|j b d|j|c]; simpl; [done|..].
  - intros H. zify_bool.
    repeat match goal with H : (_ && _)%bool = true |- _ => apply andb_true_iff in H as [? ?] end.
    zify_bool. destruct (t_ops a !! j) as [[|q]|] eqn:E; try done.
    split; [by exists q|]. split; [lia|]. split; [|by apply Nat.eqb_eq]. unfold outside.
    match goal with H : _ \/ _ |- _ => destruct H end; zify_bool; lia.
  - destruct (t_ops a !! j) as [q|]; [|done]. by exists q.
  - destruct (k_ptable k !! c) as [p|]; [|done]. by exists p.
Qed.

Fixpoint run_log (st sz : Z) (evs : list event) (k : kernel) (a : txn) : option (kernel * txn) :=
  match evs with
  | [] => Some (k, a)
  | ev :: evs' =>
      if allowedb st sz ev k a then
        match exec ev k with
        | Ok _ k1 => run_log st sz evs' k1 (t_exec ev a)
        | _ => None
        end
      else None
  end.

Lemma run_log_sound st sz evs : forall k a k' a',
  run_log st sz evs k a = Some (k', a') -> lrun st sz k a evs k' a'.
Proof.
  induction evs as [|ev evs IH]; intros k a k' a'; simpl; [intros [= -> ->]; constructor|].
  destruct (allowedb st sz ev k a) eqn:Ea; [|done].
  destruct (exec ev k) as [[] k1| | | |] eqn:E; try done. intros H.
  econstructor; [by apply allowedb_sound|exact E|by apply IH].
Qed.

(** Three calls begin and write ten, ten and nine blocks. *)
Definition fill_events : list event :=
  [Ebegin; Ebegin; Ebegin] ++
  ((fun i => Eupdate (i mod 3) (100 + Z.of_nat i) (replicate (Z.to_nat BSIZE) 1)) <$> seq 0 29).

Definition fill_panics (k : kernel) : bool :=
  match run_log 2 LOGSIZE fill_events k (idle log_disk) with
  | Some (k', a') =>
      let ev := Eupdate 2 200 (replicate (Z.to_nat BSIZE) 1) in
      allowedb 2 LOGSIZE ev k' a' &&
      match exec ev k' with Panic m => String.eqb m "too big a transaction" | _ => false end
  | None => false
  end.

(** C38: A log as long as mkfs makes it does not hold what [begin_op] lets the callers
    reserve: three calls that stay within [MAXOPBLOCKS] writes each can begin
    together and fill the log, so that one of them panics the kernel. *)
Theorem log_reservation_overflows :
  exists k evs k' a' j b d,
    initlog ROOTDEV log_machine = Ok tt k /\ lrun 2 LOGSIZE k (idle log_disk) evs k' a' /\
    allowed 2 LOGSIZE (Eupdate j b d) k' a' /\
    exec (Eupdate j b d) k' = Panic "too big a transaction".
Proof.
  assert (H : match initlog ROOTDEV log_machine with Ok _ k => fill_panics k | _ => false end = true)
    by (vm_compute; reflexivity).
  destruct (initlog ROOTDEV log_machine) as [[] k| | | |]; try discriminate.
  unfold fill_panics in H. destruct (run_log _ _ _ _ _) as [[k' a']|] eqn:E; [|discriminate].
  apply andb_true_iff in H as [H1 H2]. apply allowedb_sound in H1.
  exists k, fill_events, k', a', 2%nat, 200, (replicate (Z.to_nat BSIZE) 1).
  split; [reflexivity|]. split; [by apply run_log_sound|]. split; [exact H1|].
  destruct (exec _ k') as [| m | | |]; try discriminate. by apply String.eqb_eq in H2 as ->.
Qed.
