(* ===== verification/Str.v ===== *)
(** * Str: the memory and string functions (string.c, ulib.c)

    The C functions on byte memory, loop by loop.  A loop that runs until it meets a
    NUL takes a bound on its iterations and returns [None] when it is exceeded; the
    theorems show that a bound past the terminator is enough.  [cstr m a s] says
    that the C string at address [a] is [s]. *)

From S2P Require Import Prelude Bytes.

(** [*a = v] for a byte. *)
Definition wr (m : mem) (a v : Z) : mem := fun x => if x =? a then u8 v else m x.

Lemma wr_eq m a v : wr m a v a = u8 v.
Proof. unfold wr. by rewrite Z.eqb_refl. Qed.

Lemma wr_ne m a v x : x <> a -> wr m a v x = m x.
Proof. intros. unfold wr. by rewrite (proj2 (Z.eqb_neq _ _)). Qed.

Module Kstring.

(** ** string.c *)

Fixpoint memcmp (m : mem) (s1 s2 : Z) (n : nat) : Z :=
  match n with
  | O => 0
  | S n' => if negb (m s1 =? m s2) then m s1 - m s2 else memcmp m (s1 + 1) (s2 + 1) n'
  end.

(** [while(n-- > 0) *--d = *--s;] *)
Fixpoint move_down (m : mem) (d s : Z) (n : nat) : mem :=
  match n with
  | O => m
  | S n' => move_down (wr m (d - 1) (m (s - 1))) (d - 1) (s - 1) n'
  end.

(** [while(n-- > 0) *d++ = *s++;] *)
Fixpoint move_up (m : mem) (d s : Z) (n : nat) : mem :=
  match n with
  | O => m
  | S n' => move_up (wr m d (m s)) (d + 1) (s + 1) n'
  end.

Definition memmove (m : mem) (dst src : Z) (n : nat) : mem :=
  if (src <? dst) && (dst <? src + Z.of_nat n)
  then move_down m (dst + Z.of_nat n) (src + Z.of_nat n) n
  else move_up m dst src n.

Definition memcpy (m : mem) (dst src : Z) (n : nat) : mem := memmove m dst src n.

Fixpoint strncmp (m : mem) (p q : Z) (n : nat) : Z :=
  match n with
  | O => 0
  | S n' =>
      if negb (m p =? 0) && (m p =? m q) then strncmp m (p + 1) (q + 1) n'
      else u8 (m p) - u8 (m q)
  end.

(** The two loops of [strncpy]; [n] is C's [int n], negative counts being none. *)
Fixpoint zero_fill (m : mem) (s : Z) (n : nat) : mem :=
  match n with
  | O => m
  | S n' => zero_fill (wr m s 0) (s + 1) n'
  end.

Fixpoint strncpy (m : mem) (s t : Z) (n : nat) : mem :=
  match n with
  | O => m
  | S n' =>
      let m' := wr m s (m t) in
      if m t =? 0 then zero_fill m' (s + 1) n' else strncpy m' (s + 1) (t + 1) n'
  end.

(** The loop [while(--n > 0 && ( *s++ = *t++) != 0)] and the store after it. *)
Fixpoint safestrcpy_loop (m : mem) (s t : Z) (n : nat) : mem :=
  match n with
  | O => wr m s 0
  | S n' =>
      let m' := wr m s (m t) in
      if m t =? 0 then wr m' (s + 1) 0 else safestrcpy_loop m' (s + 1) (t + 1) n'
  end.

Definition safestrcpy (m : mem) (s t : Z) (n : Z) : mem :=
  if n <=? 0 then m else safestrcpy_loop m s t (Z.to_nat (n - 1)).

Fixpoint strlen (fuel : nat) (m : mem) (s : Z) (n : Z) : option Z :=
  match fuel with
  | O => None
  | S fuel' => if m (s + n) =? 0 then Some n else strlen fuel' m s (n + 1)
  end.

End Kstring.

Module Ulib.

(** ** ulib.c *)

Fixpoint strcpy (fuel : nat) (m : mem) (s t : Z) : option mem :=
  match fuel with
  | O => None
  | S fuel' =>
      let m' := wr m s (m t) in
      if m t =? 0 then Some m' else strcpy fuel' m' (s + 1) (t + 1)
  end.

Fixpoint strcmp (fuel : nat) (m : mem) (p q : Z) : option Z :=
  match fuel with
  | O => None
  | S fuel' =>
      if negb (m p =? 0) && (m p =? m q) then strcmp fuel' m (p + 1) (q + 1)
      else Some (u8 (m p) - u8 (m q))
  end.

Fixpoint strlen (fuel : nat) (m : mem) (s : Z) (n : Z) : option Z :=
  match fuel with
  | O => None
  | S fuel' => if m (s + n) =? 0 then Some n else strlen fuel' m s (n + 1)
  end.

Definition memset (m : mem) (dst c : Z) (n : Z) : mem := fun x =>
  if (dst <=? x) && (x <? dst + n) then u8 c else m x.

Fixpoint strchr (fuel : nat) (m : mem) (s c : Z) : option Z :=
  match fuel with
  | O => None
  | S fuel' =>
      if m s =? 0 then Some 0 else if m s =? c then Some s else strchr fuel' m (s + 1) c
  end.

(** [gets] reads its characters one at a time: [input] is what successive
    [read(0, &c, 1)] return, [None] for end of file or an error. *)
Fixpoint gets_loop (fuel : nat) (m : mem) (buf i max : Z) (input : list (option Z)) : mem * list (option Z) :=
  match fuel with
  | O => (wr m (buf + i) 0, input)
  | S fuel' =>
      if i + 1 <? max then
        match input with
        | Some c :: input' =>
            let m' := wr m (buf + i) c in
            if (c =? 10) || (c =? 13) then (wr m' (buf + (i + 1)) 0, input')
            else gets_loop fuel' m' buf (i + 1) max input'
        | None :: input' => (wr m (buf + i) 0, input')
        | [] => (wr m (buf + i) 0, [])
        end
      else (wr m (buf + i) 0, input)
  end.

Definition gets (m : mem) (buf max : Z) (input : list (option Z)) : mem * list (option Z) :=
  gets_loop (Z.to_nat max) m buf 0 max input.

Fixpoint atoi_loop (fuel : nat) (m : mem) (s n : Z) : option Z :=
  match fuel with
  | O => None
  | S fuel' =>
      if (48 <=? m s) && (m s <=? 57) then atoi_loop fuel' m (s + 1) (i32 (n * 10 + m s - 48))
      else Some n
  end.

Definition atoi (fuel : nat) (m : mem) (s : Z) : option Z := atoi_loop fuel m s 0.

Fixpoint memmove (m : mem) (dst src : Z) (n : nat) : mem :=
  match n with
  | O => m
  | S n' => memmove (wr m dst (m src)) (dst + 1) (src + 1) n'
  end.

End Ulib.

(** ** Strings in memory *)

(** Every byte of memory is a byte. *)
Definition byte_mem (m : mem) : Prop := forall a, 0 <= m a < 256.

(** [s], without a NUL, is at [a] and a NUL follows it. *)
Fixpoint cstr (m : mem) (a : Z) (s : list Z) : Prop :=
  match s with
  | [] => m a = 0
  | c :: s' => m a = c /\ 0 < c < 256 /\ cstr m (a + 1) s'
  end.

Lemma cstr_agree m m' a s :
  (forall x, a <= x <= a + Z.of_nat (length s) -> m x = m' x) -> cstr m a s -> cstr m' a s.
Proof.
  revert a. induction s as [|c s IH]; intros a H; simpl in *.
  - by rewrite H by lia.
  - intros (Hc & Hr & Hs). rewrite <- H by lia. split; [done|]. split; [done|].
    apply IH; [|done]. intros. apply H. lia.
Qed.

Lemma cstr_unique m a s s' : cstr m a s -> cstr m a s' -> s = s'.
Proof.
  revert a s'. induction s as [|c s IH]; intros a [|c' s']; simpl; try done.
  - intros H0 (Hc & Hr & _). lia.
  - intros (Hc & Hr & _) H0. lia.
  - intros (Hc & _ & Hs) (Hc' & _ & Hs'). f_equal; [congruence|]. by eapply IH.
Qed.

(** ** memmove *)

Lemma move_up_spec n : forall m d s,
  byte_mem m -> ~ (s < d < s + Z.of_nat n) ->
  forall x, Kstring.move_up m d s n x =
    if (d <=? x) && (x <? d + Z.of_nat n) then m (s + (x - d)) else m x.
Proof.
  induction n as [|n IH]; intros m d s Hm Hov x; cbn [Kstring.move_up].
  - by replace ((d <=? x) && (x <? d + Z.of_nat 0)) with false by (destruct (Z.leb_spec d x), (Z.ltb_spec x (d + Z.of_nat 0)); simpl; lia || done).
  - assert (Hm' : byte_mem (wr m d (m s))).
    { intros y. unfold wr. case_bool; auto with words. }
    rewrite IH; [|done|lia].
    destruct (Z.leb_spec (d + 1) x), (Z.ltb_spec x (d + 1 + Z.of_nat n)),
      (Z.leb_spec d x), (Z.ltb_spec x (d + Z.of_nat (S n))); simpl; try lia.
    + rewrite wr_ne by lia. f_equal. lia.
    + rewrite wr_ne by lia. done.
    + assert (x = d) as -> by lia. rewrite wr_eq, u8_small by apply Hm. f_equal. lia.
    + rewrite wr_ne by lia. done.
Qed.

(** Between places that do not overlap, whatever the memory holds. *)
Lemma memmove_apart m dst src n x :
  (src + Z.of_nat n <= dst \/ dst + Z.of_nat n <= src) ->
  Kstring.memmove m dst src n x =
    if (dst <=? x) && (x <? dst + Z.of_nat n) then u8 (m (src + (x - dst))) else m x.
Proof.
  intros Ho. unfold Kstring.memmove. rewrite (proj2 (andb_false_iff _ _)) by (rewrite !Z.ltb_ge; lia).
  revert m dst src Ho. induction n as [|n IH]; intros m dst src Ho; cbn [Kstring.move_up].
  - destruct (Z.leb_spec dst x), (Z.ltb_spec x (dst + Z.of_nat 0)); simpl; lia || done.
  - rewrite IH by lia.
    destruct (Z.leb_spec (dst + 1) x), (Z.ltb_spec x (dst + 1 + Z.of_nat n)),
      (Z.leb_spec dst x), (Z.ltb_spec x (dst + Z.of_nat (S n))); simpl; try lia.
    + rewrite wr_ne by lia. f_equal. f_equal. lia.
    + rewrite wr_ne by lia. done.
    + assert (x = dst) as -> by lia. rewrite wr_eq, Z.sub_diag, Z.add_0_r. done.
    + rewrite wr_ne by lia. done.
Qed.

Lemma move_down_spec n : forall m d s,
  byte_mem m -> ~ (d < s < d + Z.of_nat n) ->
  forall x, Kstring.move_down m (d + Z.of_nat n) (s + Z.of_nat n) n x =
    if (d <=? x) && (x <? d + Z.of_nat n) then m (s + (x - d)) else m x.
Proof.
  induction n as [|n IH]; intros m d s Hm Hov x; cbn [Kstring.move_down].
  - by replace ((d <=? x) && (x <? d + Z.of_nat 0)) with false by (destruct (Z.leb_spec d x), (Z.ltb_spec x (d + Z.of_nat 0)); simpl; lia || done).
  - replace (d + Z.of_nat (S n) - 1) with (d + Z.of_nat n) by lia.
    replace (s + Z.of_nat (S n) - 1) with (s + Z.of_nat n) by lia.
    set (m1 := wr m (d + Z.of_nat n) (m (s + Z.of_nat n))).
    assert (Hm' : byte_mem m1).
    { intros y. unfold m1, wr. case_bool; auto with words. }
    rewrite IH; [|done|lia].
    destruct (Z.leb_spec d x), (Z.ltb_spec x (d + Z.of_nat n)), (Z.ltb_spec x (d + Z.of_nat (S n)));
      simpl; try lia; unfold m1.
    + rewrite wr_ne by lia. done.
    + assert (x = d + Z.of_nat n) as -> by lia. rewrite wr_eq, u8_small by apply Hm. f_equal. lia.
    + rewrite wr_ne by lia. done.
    + rewrite wr_ne by lia. done.
Qed.

(** [memmove] copies correctly whether or not the areas overlap: every byte of the
    destination gets the byte the source held before the call, and no other byte
    changes. *)
Theorem memmove_overlap m dst src n x :
  byte_mem m ->
  Kstring.memmove m dst src n x =
    if (dst <=? x) && (x <? dst + Z.of_nat n) then m (src + (x - dst)) else m x.
Proof.
  intros Hm. unfold Kstring.memmove.
  destruct (Z.ltb_spec src dst), (Z.ltb_spec dst (src + Z.of_nat n)); simpl.
  - apply move_down_spec; [done|lia].
  - apply move_up_spec; [done|lia].
  - apply move_up_spec; [done|lia].
  - apply move_up_spec; [done|lia].
Qed.

Definition counting_mem : mem := fun x => x mod 256.

Lemma memmove_overlap_witness :
  Kstring.memmove counting_mem 4 2 6 7 = 5 /\ Kstring.memmove counting_mem 4 2 6 11 = 11.
Proof.
  split; (rewrite memmove_overlap; [reflexivity|]);
    (intros a; unfold counting_mem; apply Z.mod_pos_bound; lia).
Defined.

(** ** strncpy and safestrcpy *)

Lemma zero_fill_spec n : forall m s x,
  Kstring.zero_fill m s n x = if (s <=? x) && (x <? s + Z.of_nat n) then 0 else m x.
Proof.
  induction n as [|n IH]; intros m s x; cbn [Kstring.zero_fill].
  - by replace ((s <=? x) && (x <? s + Z.of_nat 0)) with false
      by (destruct (Z.leb_spec s x), (Z.ltb_spec x (s + Z.of_nat 0)); simpl; lia || done).
  - rewrite IH. destruct (Z.leb_spec (s + 1) x), (Z.ltb_spec x (s + 1 + Z.of_nat n)),
      (Z.leb_spec s x), (Z.ltb_spec x (s + Z.of_nat (S n))); simpl; try lia; try done;
      try (rewrite wr_ne by lia; done).
    assert (x = s) as -> by lia. by rewrite wr_eq.
Qed.

(** What [strncpy] puts at offset [i]: the string cut to [n] bytes, padded with NULs. *)
Definition padded (str : list Z) (i : Z) : Z := default 0 (str !! Z.to_nat i).

Lemma strncpy_spec str : forall n m s t,
  byte_mem m -> cstr m t str ->
  (t + Z.of_nat (length str) < s \/ s + Z.of_nat n <= t) ->
  forall x, Kstring.strncpy m s t n x =
    if (s <=? x) && (x <? s + Z.of_nat n) then padded str (x - s) else m x.
Proof.
  induction str as [|c str IH]; intros n m s t Hm Hs Hd x; simpl in Hs.
  - destruct n as [|n]; cbn [Kstring.strncpy].
    { destruct (Z.leb_spec s x), (Z.ltb_spec x (s + Z.of_nat 0)); simpl; lia || done. }
    rewrite Hs. simpl (0 =? 0). cbn iota. rewrite zero_fill_spec. unfold padded. rewrite lookup_nil. simpl.
    destruct (Z.leb_spec (s + 1) x), (Z.ltb_spec x (s + 1 + Z.of_nat n)),
      (Z.leb_spec s x), (Z.ltb_spec x (s + Z.of_nat (S n))); simpl; try lia; try done;
      try (rewrite wr_ne by lia; done).
    assert (x = s) as -> by lia. by rewrite wr_eq.
  - destruct Hs as (Hc & Hr & Hs). destruct n as [|n]; cbn [Kstring.strncpy].
    { destruct (Z.leb_spec s x), (Z.ltb_spec x (s + Z.of_nat 0)); simpl; lia || done. }
    rewrite Hc, (proj2 (Z.eqb_neq c 0)) by lia.
    assert (Hm' : byte_mem (wr m s c)).
    { intros y. unfold wr. case_bool; auto with words. }
    simpl in Hd. rewrite (IH n (wr m s c) (s + 1) (t + 1) Hm'); [| |lia].
    + destruct (Z.leb_spec (s + 1) x), (Z.ltb_spec x (s + 1 + Z.of_nat n)),
        (Z.leb_spec s x), (Z.ltb_spec x (s + Z.of_nat (S n))); simpl; try lia; try done;
        try (rewrite wr_ne by lia; done).
      * unfold padded. by replace (Z.to_nat (x - s)) with (S (Z.to_nat (x - (s + 1)))) by lia.
      * assert (x = s) as -> by lia. rewrite wr_eq, u8_small by lia. by rewrite Z.sub_diag.
    + eapply cstr_agree; [|exact Hs]. intros y Hy. symmetry. apply wr_ne. lia.
Qed.

Lemma safestrcpy_loop_spec str : forall n m s t,
  byte_mem m -> cstr m t str ->
  (t + Z.of_nat (length str) < s \/ s + Z.of_nat (S n) <= t) ->
  cstr (Kstring.safestrcpy_loop m s t n) s (take n str) /\
  forall x, ~ (s <= x < s + Z.of_nat (S n)) -> Kstring.safestrcpy_loop m s t n x = m x.
Proof.
  induction str as [|c str IH]; intros n m s t Hm Hs Hd; simpl in Hs.
  - rewrite take_nil. destruct n as [|n]; cbn [Kstring.safestrcpy_loop]; [|rewrite Hs; simpl (0 =? 0); cbn iota].
    + split; [simpl; by rewrite wr_eq|]. intros. apply wr_ne. lia.
    + split; [simpl; rewrite wr_ne by lia; by rewrite wr_eq|]. intros. rewrite !wr_ne; lia || done.
  - destruct Hs as (Hc & Hr & Hs). destruct n as [|n]; cbn [Kstring.safestrcpy_loop take].
    { split; [simpl; by rewrite wr_eq|]. intros. apply wr_ne. lia. }
    rewrite Hc, (proj2 (Z.eqb_neq c 0)) by lia. simpl in Hd.
    assert (Hm' : byte_mem (wr m s c)).
    { intros y. unfold wr. case_bool; auto with words. }
    destruct (IH n (wr m s c) (s + 1) (t + 1) Hm') as [H1 H2]; [|lia|].
    + eapply cstr_agree; [|exact Hs]. intros y Hy. symmetry. apply wr_ne. lia.
    + split.
      * cbn [cstr]. rewrite H2 by lia. rewrite wr_eq, u8_small by lia. done.
      * intros x Hx. rewrite H2 by lia. apply wr_ne. lia.
Qed.

(** [safestrcpy] always terminates: for [n > 0] the destination holds, as a C
    string, the first [n - 1] characters of the source, and nothing outside the [n]
    bytes it is given is written. *)
Theorem safestrcpy_terminates m s t n str :
  byte_mem m -> cstr m t str -> 0 < n ->
  t + Z.of_nat (length str) < s \/ s + n <= t ->
  cstr (Kstring.safestrcpy m s t n) s (take (Z.to_nat (n - 1)) str) /\
  forall x, ~ (s <= x < s + n) -> Kstring.safestrcpy m s t n x = m x.
Proof.
  intros Hm Hs Hn Hd. unfold Kstring.safestrcpy. rewrite (proj2 (Z.leb_gt _ _)) by done.
  destruct (safestrcpy_loop_spec str (Z.to_nat (n - 1)) m s t Hm Hs) as [H1 H2]; [lia|].
  split; [done|]. intros x Hx. apply H2. lia.
Qed.

(** ["hello"] at address 64 of an otherwise zero memory. *)
Definition hello_mem : mem := store_bytes (fun _ => 0) 64 [104; 101; 108; 108; 111].

Lemma hello_bytes : byte_mem hello_mem.
Proof.
  intros a. unfold hello_mem, store_bytes. case_bool; [|lia].
  assert (H : Forall (fun b => 0 <= b < 256) [104; 101; 108; 108; 111]) by (repeat constructor; lia).
  rewrite Forall_forall in H. destruct (_ !! _) as [b|] eqn:E; simpl; [|lia].
  apply H. by eapply list_elem_of_lookup_2.
Qed.

Lemma hello_cstr : cstr hello_mem 64 [104; 101; 108; 108; 111].
Proof. by repeat split. Qed.

Lemma safestrcpy_terminates_witness :
  cstr (Kstring.safestrcpy hello_mem 100 64 4) 100 [104; 101; 108].
Proof.
  apply (safestrcpy_terminates hello_mem 100 64 4 [104; 101; 108; 108; 111] hello_bytes hello_cstr).
  - lia.
  - left. reflexivity.
Defined.

(** ** Comparisons *)

(** The sign of the difference at the first place the strings differ, NUL included. *)
Fixpoint str_diff (s t : list Z) : Z :=
  match s, t with
  | c :: s', d :: t' => if c =? d then str_diff s' t' else c - d
  | c :: _, [] => c
  | [], d :: _ => - d
  | [], [] => 0
  end.

Lemma strncmp_spec : forall n m p q s t,
  cstr m p s -> cstr m q t -> Kstring.strncmp m p q n = str_diff (take n s) (take n t).
Proof.
  induction n as [|n IH]; intros m p q s t Hs Ht; cbn [Kstring.strncmp]; [done|].
  destruct s as [|c s], t as [|d t]; simpl in *.
  - rewrite Hs, Ht. done.
  - destruct Ht as (Hd & Hr & _). rewrite Hs, Hd. simpl. rewrite (u8_small d) by lia.
    change (u8 0) with 0. lia.
  - destruct Hs as (Hc & Hr & _). rewrite Ht, Hc, (proj2 (Z.eqb_neq c 0)) by lia. simpl.
    rewrite u8_small by lia. change (u8 0) with 0. lia.
  - destruct Hs as (Hc & Hrc & Hs), Ht as (Hd & Hrd & Ht). rewrite Hc, Hd.
    rewrite (proj2 (Z.eqb_neq c 0)) by lia. simpl. destruct (c =? d); [by apply IH|].
    rewrite !u8_small by lia. done.
Qed.

Lemma str_diff_zero s : forall t,
  Forall (fun c => 0 < c < 256) s -> Forall (fun c => 0 < c < 256) t -> str_diff s t = 0 <-> s = t.
Proof.
  induction s as [|c s IH]; intros [|d t] Hs Ht; simpl; try done.
  - inversion Ht; subst. split; [lia|done].
  - inversion Hs; subst. split; [lia|done].
  - inversion Hs; inversion Ht; subst. destruct (Z.eqb_spec c d) as [->|Hne].
    + rewrite IH by done. split; [by intros ->|by intros [= ->]].
    + split; [lia|]. intros [= -> _]. done.
Qed.

Lemma cstr_chars m a s : cstr m a s -> Forall (fun c => 0 < c < 256) s.
Proof. revert a. induction s; intros ? H; constructor; naive_solver. Qed.

(** [strncmp] decides equality of the first [n] characters: on two C strings it
    returns 0 exactly when their prefixes of length [n] are equal (the comparison
    [namecmp] of the file system is [strncmp] with [DIRSIZ]). *)
Theorem strncmp_decides m p q n s t :
  cstr m p s -> cstr m q t ->
  (Kstring.strncmp m p q n = 0 <-> take n s = take n t).
Proof.
  intros Hs Ht. rewrite (strncmp_spec n m p q s t) by done.
  apply str_diff_zero; apply Forall_take; by eapply cstr_chars.
Qed.

Lemma strncmp_decides_witness :
  Kstring.strncmp hello_mem 64 64 14 = 0 /\ Kstring.strncmp hello_mem 64 65 14 <> 0.
Proof.
  split.
  - apply (strncmp_decides hello_mem 64 64 14 _ _ hello_cstr hello_cstr). reflexivity.
  - intros H. apply (strncmp_decides hello_mem 64 65 14 _ [101; 108; 108; 111] hello_cstr) in H;
      [discriminate|]. exact (proj2 (proj2 hello_cstr)).
Defined.

(** ** The user library's loops end at the terminator *)

Lemma ulib_strlen_spec s : forall fuel m a n,
  cstr m (a + n) s -> (length s < fuel)%nat -> Ulib.strlen fuel m a n = Some (n + Z.of_nat (length s)).
Proof.
  induction s as [|c s IH]; intros [|fuel] m a n Hs Hf; simpl in *; try lia.
  - rewrite Hs. simpl. f_equal. lia.
  - destruct Hs as (Hc & Hr & Hs). rewrite Hc, (proj2 (Z.eqb_neq c 0)) by lia.
    rewrite IH; [f_equal; lia| |lia]. by rewrite Z.add_assoc.
Qed.

Lemma ulib_strcmp_spec s : forall t fuel m p q,
  cstr m p s -> cstr m q t -> (length s < fuel)%nat -> Ulib.strcmp fuel m p q = Some (str_diff s t).
Proof.
  induction s as [|c s IH]; intros t [|fuel] m p q Hs Ht Hf; simpl in *; try lia.
  - rewrite Hs. simpl. destruct t as [|d t]; simpl in Ht; [by rewrite Ht|].
    destruct Ht as (-> & Hr & _). rewrite (u8_small d) by lia. f_equal.
  - destruct Hs as (Hc & Hr & Hs). rewrite Hc, (proj2 (Z.eqb_neq c 0)) by lia. simpl.
    destruct t as [|d t]; simpl in Ht.
    + rewrite Ht, (proj2 (Z.eqb_neq c 0)) by lia. rewrite u8_small by lia. f_equal. change (u8 0) with 0. lia.
    + destruct Ht as (Hd & Hrd & Ht). rewrite Hd. destruct (c =? d); [by apply IH; [..|lia]|].
      by rewrite !u8_small by lia.
Qed.

Lemma ulib_strcpy_spec str : forall fuel m s t,
  cstr m t str -> (length str < fuel)%nat ->
  (t + Z.of_nat (length str) < s \/ s + Z.of_nat (length str) < t) ->
  exists m', Ulib.strcpy fuel m s t = Some m' /\ cstr m' s str /\
    forall x, ~ (s <= x <= s + Z.of_nat (length str)) -> m' x = m x.
Proof.
  induction str as [|c str IH]; intros [|fuel] m s t Hs Hf Hd; simpl in *; try lia.
  - rewrite Hs. simpl. eexists. split; [done|]. split; [by rewrite wr_eq|]. intros. apply wr_ne. lia.
  - destruct Hs as (Hc & Hr & Hs). rewrite Hc, (proj2 (Z.eqb_neq c 0)) by lia.
    destruct (IH fuel (wr m s c) (s + 1) (t + 1)) as (m' & E & H1 & H2); [|lia|lia|].
    + eapply cstr_agree; [|exact Hs]. intros y Hy. symmetry. apply wr_ne. lia.
    + exists m'. split; [done|]. split.
      * split; [|by split]. rewrite H2 by lia. by rewrite wr_eq, u8_small by lia.
      * intros x Hx. rewrite H2 by lia. apply wr_ne. lia.
Qed.

Lemma ulib_memmove_eq m d s n : Ulib.memmove m d s n = Kstring.move_up m d s n.
Proof. revert m d s. induction n; intros; simpl; auto. Qed.
