(* ===== verification/Inode.v ===== *)
(** * Inode: blocks, inodes and their contents (fs.c, first half)

    The free-block bitmap, the inodes on the disk and their cache, and the map from
    a file's blocks to blocks of the disk, with the double-indirect block this
    kernel adds. *)

From S2P Require Import Prelude Bytes Kernel Sync Bio Cache Log.

(** ** Blocks *)

Definition IBLOCK (i : Z) (sb : superblock) : Z := u32 (i / IPB + sb_inodestart sb).
Definition BBLOCK (b : Z) (sb : superblock) : Z := u32 (b / BPB + sb_bmapstart sb).

Definition bzero (dev bno : Z) : KM unit :=
  let! i := bread dev bno in
  set_data i (replicate (Z.to_nat BSIZE) 0) ;;;
  log_write i ;;;
  brelse i.

Definition bit_of (bi : Z) : Z := Z.shiftl 1 (bi mod 8).
Definition data_byte (d : list Z) (j : Z) : Z := default 0 (d !! Z.to_nat j).

(** The inner loop of [balloc]: the first free bit of [bi, ..., bi + n - 1]. *)
Fixpoint scan_free (d : list Z) (n : nat) (bi : Z) : option Z :=
  match n with
  | O => None
  | S n' =>
      if Z.land (data_byte d (bi / 8)) (bit_of bi) =? 0 then Some bi
      else scan_free d n' (bi + 1)
  end.

Definition set_byte (d : list Z) (j v : Z) : list Z := <[Z.to_nat j := v]> d.

(** The outer loop of [balloc], from block [b]; [fuel] bounds the bitmap blocks. *)
Fixpoint balloc_loop (fuel : nat) (dev b : Z) : KM Z :=
  match fuel with
  | O => panic "balloc: out of blocks"
  | S fuel' =>
      let! k := get in
      let sb := k_sb k in
      if b <? sb_size sb then
        let! i := bread dev (BBLOCK b sb) in
        let! bp := get_buf i in
        match scan_free (b_data bp) (Z.to_nat (Z.min BPB (sb_size sb - b))) 0 with
        | Some bi =>
            let byte := data_byte (b_data bp) (bi / 8) in
            set_data i (set_byte (b_data bp) (bi / 8) (Z.lor byte (bit_of bi))) ;;;
            log_write i ;;;
            brelse i ;;;
            bzero dev (b + bi) ;;;
            ret (b + bi)
        | None =>
            brelse i ;;;
            balloc_loop fuel' dev (b + BPB)
        end
      else panic "balloc: out of blocks"
  end.

Definition balloc (dev : Z) : KM Z :=
  let! k := get in
  balloc_loop (S (Z.to_nat (sb_size (k_sb k) / BPB + 1))) dev 0.

Definition bfree (dev b : Z) : KM unit :=
  let! sb := readsb dev in
  modify (set_k_sb sb) ;;;
  let! i := bread dev (BBLOCK b sb) in
  let! bp := get_buf i in
  let bi := b mod BPB in
  let byte := data_byte (b_data bp) (bi / 8) in
  if Z.land byte (bit_of bi) =? 0 then panic "freeing free block" else
  set_data i (set_byte (b_data bp) (bi / 8) (Z.ldiff byte (bit_of bi))) ;;;
  log_write i ;;;
  brelse i.

(** ** Inodes on the disk *)

(** [struct dinode]. *)
Record dinode : Type := mk_dinode {
  d_type : Z;
  d_major : Z;
  d_minor : Z;
  d_nlink : Z;
  d_size : Z;
  d_addrs : list Z
}.

(** [(struct dinode* )bp->data + inum%IPB]: its offset in the block. *)
Definition dip_off (inum : Z) : nat := Z.to_nat ((inum mod IPB) * sizeof_dinode).

Definition NADDRS : nat := Z.to_nat (NDIRECT + 2).

Definition get_dinode (d : list Z) (off : nat) : dinode :=
  mk_dinode (i16 (get16 d off)) (i16 (get16 d (off + 2))) (i16 (get16 d (off + 4)))
    (i16 (get16 d (off + 6))) (get32 d (off + 8))
    ((fun j => get32 d (off + 12 + 4 * j)) <$> seq 0 NADDRS).

(** The stores of [iupdate] into the block. *)
Definition put_dinode (d : list Z) (off : nat) (di : dinode) : list Z :=
  let d := set16 d off (d_type di) in
  let d := set16 d (off + 2) (d_major di) in
  let d := set16 d (off + 4) (d_minor di) in
  let d := set16 d (off + 6) (d_nlink di) in
  let d := set32 d (off + 8) (d_size di) in
  splice d (off + 12) (mjoin (le_bytes 4 <$> d_addrs di)).

Definition inode_dinode (ip : inode) : dinode :=
  mk_dinode (i_type ip) (i_major ip) (i_minor ip) (i_nlink ip) (i_size ip) (i_addrs ip).

(** ** The inode cache *)

Definition get_inode (i : nat) : KM inode := fun k =>
  match k_icache k !! i with Some ip => Ok ip k | None => Fault "inode" end.

Definition upd_inode (i : nat) (f : inode -> inode) : KM unit :=
  modify (fun k => set_k_icache (alter f i (k_icache k)) k).

(** The scan of [iget]: the entry in use for the inode, or the first unused one. *)
Fixpoint iget_scan (l : list inode) (i : nat) (empty : option nat) (dev inum : Z) : nat + option nat :=
  match l with
  | [] => inr empty
  | ip :: l' =>
      if (0 <? i_ref ip) && (i_dev ip =? dev) && (i_inum ip =? inum) then inl i else
      let empty := match empty with
                   | None => if i_ref ip =? 0 then Some i else None
                   | Some e => Some e
                   end in
      iget_scan l' (S i) empty dev inum
  end.

Definition iget (dev inum : Z) : KM nat :=
  acquire L_icache ;;;
  let! k := get in
  match iget_scan (k_icache k) 0 None dev inum with
  | inl i =>
      upd_inode i (fun ip => set_i_ref (i_ref ip + 1) ip) ;;;
      release L_icache ;;;
      ret i
  | inr None => panic "iget: no inodes"
  | inr (Some i) =>
      upd_inode i (set_i_dev dev) ;;;
      upd_inode i (set_i_inum inum) ;;;
      upd_inode i (set_i_ref 1) ;;;
      upd_inode i (set_i_valid false) ;;;
      release L_icache ;;;
      ret i
  end.

Definition idup (i : nat) : KM nat :=
  acquire L_icache ;;;
  upd_inode i (fun ip => set_i_ref (i_ref ip + 1) ip) ;;;
  release L_icache ;;;
  ret i.

Fixpoint ialloc_loop (n : nat) (inum dev type : Z) : KM nat :=
  match n with
  | O => panic "ialloc: no inodes"
  | S n' =>
      let! k := get in
      let! i := bread dev (IBLOCK inum (k_sb k)) in
      let! bp := get_buf i in
      if d_type (get_dinode (b_data bp) (dip_off inum)) =? 0 then
        set_data i (splice (b_data bp) (dip_off inum) (replicate (Z.to_nat sizeof_dinode) 0)) ;;;
        let! bp := get_buf i in
        set_data i (set16 (b_data bp) (dip_off inum) type) ;;;
        log_write i ;;;
        brelse i ;;;
        iget dev inum
      else
        brelse i ;;;
        ialloc_loop n' (inum + 1) dev type
  end.

Definition ialloc (dev type : Z) : KM nat :=
  let! k := get in
  ialloc_loop (Z.to_nat (sb_ninodes (k_sb k) - 1)) 1 dev type.

Definition iupdate (i : nat) : KM unit :=
  let! ip := get_inode i in
  let! k := get in
  let! bi := bread (i_dev ip) (IBLOCK (i_inum ip) (k_sb k)) in
  let! bp := get_buf bi in
  set_data bi (put_dinode (b_data bp) (dip_off (i_inum ip)) (inode_dinode ip)) ;;;
  log_write bi ;;;
  brelse bi.

Definition load_dinode (di : dinode) (ip : inode) : inode :=
  mk_inode (i_dev ip) (i_inum ip) (i_ref ip) (i_lock ip) (i_valid ip)
    (d_type di) (d_major di) (d_minor di) (d_nlink di) (d_size di) (d_addrs di).

Definition ilock (o : option nat) : KM unit :=
  match o with
  | None => panic "ilock"
  | Some i =>
      let! ip := get_inode i in
      if i_ref ip <? 1 then panic "ilock" else
      acquiresleep (S_inode i) ;;;
      let! ip := get_inode i in
      if i_valid ip then ret tt else
      let! k := get in
      let! bi := bread (i_dev ip) (IBLOCK (i_inum ip) (k_sb k)) in
      let! bp := get_buf bi in
      let di := get_dinode (b_data bp) (dip_off (i_inum ip)) in
      upd_inode i (load_dinode di) ;;;
      brelse bi ;;;
      upd_inode i (set_i_valid true) ;;;
      if d_type di =? 0 then panic "ilock: no type" else ret tt
  end.

Definition iunlock (o : option nat) : KM unit :=
  match o with
  | None => panic "iunlock"
  | Some i =>
      let! h := holdingsleep (S_inode i) in
      let! ip := get_inode i in
      if negb h || (i_ref ip <? 1) then panic "iunlock" else
      releasesleep (S_inode i)
  end.

(** ** Inode contents *)

(** [if((addr = ip->addrs[s]) == 0) ip->addrs[s] = addr = balloc(ip->dev);] *)
Definition inode_slot (i : nat) (s : Z) : KM Z :=
  let! ip := get_inode i in
  let! addr := deref (i_addrs ip !! Z.to_nat s) in
  if addr =? 0 then
    let! addr := balloc (i_dev ip) in
    upd_inode i (fun ip => set_i_addrs (<[Z.to_nat s := addr]> (i_addrs ip)) ip) ;;;
    ret addr
  else ret addr.

(** Entry [j] of the block of addresses [blk], allocating a block if it is zero. *)
Definition block_slot (dev blk j : Z) : KM Z :=
  let! bi := bread dev blk in
  let! bp := get_buf bi in
  let addr := get32 (b_data bp) (Z.to_nat (4 * j)) in
  if addr =? 0 then
    let! addr := balloc dev in
    let! bp := get_buf bi in
    set_data bi (set32 (b_data bp) (Z.to_nat (4 * j)) addr) ;;;
    log_write bi ;;;
    brelse bi ;;;
    ret addr
  else
    brelse bi ;;;
    ret addr.

Definition bmap (i : nat) (bn : Z) : KM Z :=
  if bn <? NDIRECT then inode_slot i bn else
  let bn := bn - NDIRECT in
  if bn <? NINDIRECT then
    let! addr := inode_slot i NDIRECT in
    let! ip := get_inode i in
    block_slot (i_dev ip) addr bn
  else
  let bn := bn - NINDIRECT in
  if bn <? NINDIRECT * NINDIRECT then
    let! addr := inode_slot i (NDIRECT + 1) in
    let direct_block := bn mod NINDIRECT in
    let bn := bn / NINDIRECT in
    let! ip := get_inode i in
    let! addr := block_slot (i_dev ip) addr bn in
    block_slot (i_dev ip) addr direct_block
  else panic "bmap: out of range".

(** Freeing every block that the block of addresses in buffer [bi] names. *)
Definition free_entries (dev : Z) (bi : nat) : KM unit :=
  for_tail (Z.to_nat NINDIRECT) 0 (fun j =>
    let! bp := get_buf bi in
    let a := get32 (b_data bp) (4 * j) in
    if a =? 0 then ret tt else bfree dev a).

Definition itrunc_direct (i : nat) : KM unit :=
  for_tail (Z.to_nat NDIRECT) 0 (fun s =>
    let! ip := get_inode i in
    let! a := deref (i_addrs ip !! s) in
    if a =? 0 then ret tt else
    bfree (i_dev ip) a ;;;
    upd_inode i (fun ip => set_i_addrs (<[s := 0]> (i_addrs ip)) ip)).

Definition itrunc_indirect (i : nat) : KM unit :=
  let s := Z.to_nat NDIRECT in
  let! ip := get_inode i in
  let! a := deref (i_addrs ip !! s) in
  if a =? 0 then ret tt else
  let! bi := bread (i_dev ip) a in
  free_entries (i_dev ip) bi ;;;
  brelse bi ;;;
  bfree (i_dev ip) a ;;;
  upd_inode i (fun ip => set_i_addrs (<[s := 0]> (i_addrs ip)) ip).

Definition itrunc_double (i : nat) : KM unit :=
  let s := Z.to_nat (NDIRECT + 1) in
  let! ip := get_inode i in
  let! a := deref (i_addrs ip !! s) in
  if a =? 0 then ret tt else
  let! bi := bread (i_dev ip) a in
  for_tail (Z.to_nat NINDIRECT) 0 (fun k =>
    let! bp := get_buf bi in
    let ak := get32 (b_data bp) (4 * k) in
    if ak =? 0 then ret tt else
    let! aux := bread (i_dev ip) ak in
    free_entries (i_dev ip) aux ;;;
    brelse aux ;;;
    bfree (i_dev ip) ak) ;;;
  brelse bi ;;;
  bfree (i_dev ip) a ;;;
  upd_inode i (fun ip => set_i_addrs (<[s := 0]> (i_addrs ip)) ip).

Definition itrunc (i : nat) : KM unit :=
  itrunc_direct i ;;;
  itrunc_indirect i ;;;
  itrunc_double i ;;;
  upd_inode i (set_i_size 0) ;;;
  iupdate i.

(** ** Dropping references *)

Definition iput (i : nat) : KM unit :=
  acquiresleep (S_inode i) ;;;
  let! ip := get_inode i in
  (if i_valid ip && (i_nlink ip =? 0) then
     acquire L_icache ;;;
     let! ip := get_inode i in
     release L_icache ;;;
     if i_ref ip =? 1 then
       itrunc i ;;;
       upd_inode i (set_i_type 0) ;;;
       iupdate i ;;;
       upd_inode i (set_i_valid false)
     else ret tt
   else ret tt) ;;;
  releasesleep (S_inode i) ;;;
  acquire L_icache ;;;
  upd_inode i (fun ip => set_i_ref (i_ref ip - 1) ip) ;;;
  release L_icache.

Definition iunlockput (i : nat) : KM unit :=
  iunlock (Some i) ;;;
  iput i.

(** [struct stat]. *)
Record stat : Type := mk_stat {
  st_type : Z;
  st_dev : Z;
  st_ino : Z;
  st_nlink : Z;
  st_size : Z
}.

Definition stati (ip : inode) : stat :=
  mk_stat (i_type ip) (i_dev ip) (i_inum ip) (i_nlink ip) (i_size ip).

(** ** The inode codec *)

Definition dinode_ok (di : dinode) : Prop :=
  (forall x, x = d_type di \/ x = d_major di \/ x = d_minor di \/ x = d_nlink di -> - 2 ^ 15 <= x < 2 ^ 15) /\
  0 <= d_size di < 2 ^ 32 /\ length (d_addrs di) = NADDRS /\ Forall (fun a => 0 <= a < 2 ^ 32) (d_addrs di).

Lemma i16_u16 x : - 2 ^ 15 <= x < 2 ^ 15 -> i16 (u16 x) = x.
Proof.
  intros H. unfold i16, u16. rewrite Zmod_mod.
  destruct (decide (0 <= x)).
  - rewrite Z.mod_small by lia. destruct (Z.ltb_spec x (2 ^ 15)); lia.
  - replace (x mod 2 ^ 16) with (x + 2 ^ 16).
    + destruct (Z.ltb_spec (x + 2 ^ 16) (2 ^ 15)); lia.
    + rewrite <- (Z_mod_plus_full x 1 (2 ^ 16)), Z.mul_1_l, Z.mod_small; lia.
Qed.

Lemma mjoin_words_cons x l :
  mjoin (le_bytes 4 <$> (x :: l)) = le_bytes 4 x ++ mjoin (le_bytes 4 <$> l).
Proof. done. Qed.

Lemma length_mjoin_words l : length (mjoin (le_bytes 4 <$> l)) = (4 * length l)%nat.
Proof.
  induction l as [|x l IH]; [done|]. rewrite mjoin_words_cons, length_app, length_le_bytes, IH.
  simpl. lia.
Qed.

Lemma drop_mjoin_words l : forall j, drop (4 * j) (mjoin (le_bytes 4 <$> l)) = mjoin (le_bytes 4 <$> drop j l).
Proof.
  induction l as [|x l IH]; intros [|j]; try done.
  rewrite mjoin_words_cons. replace (4 * S j)%nat with (length (le_bytes 4 x) + 4 * j)%nat by (rewrite length_le_bytes; lia).
  by rewrite drop_app_add, IH.
Qed.

Lemma get32_mjoin l j x : l !! j = Some x -> get32 (mjoin (le_bytes 4 <$> l)) (4 * j) = u32 x.
Proof.
  intros Hj. unfold get32. rewrite drop_mjoin_words. rewrite (drop_S l x j) by done.
  rewrite mjoin_words_cons.
  rewrite take_app_length' by (by rewrite length_le_bytes). apply le_val4_bytes.
Qed.

Lemma get32_splice_in l off s j :
  (off + length s <= length l)%nat -> (4 * j + 4 <= length s)%nat ->
  get32 (splice l off s) (off + 4 * j) = get32 s (4 * j).
Proof.
  intros Hl Hj. unfold get32. f_equal. apply list_eq. intros i.
  destruct (decide (i < 4)%nat); [|rewrite !lookup_take_ge by lia; done].
  rewrite !lookup_take_lt, !lookup_drop by lia. rewrite lookup_splice by done.
  rewrite decide_True by lia. f_equal. lia.
Qed.

Lemma length_put_dinode d off di :
  length (d_addrs di) = NADDRS -> (off + 64 <= length d)%nat -> length (put_dinode d off di) = length d.
Proof.
  intros Ha Hl. unfold put_dinode. change NADDRS with 13%nat in Ha.
  pose proof (length_mjoin_words (d_addrs di)) as Hj. rewrite Ha in Hj.
  set (d1 := set16 d off _). set (d2 := set16 d1 _ _). set (d3 := set16 d2 _ _).
  set (d4 := set16 d3 _ _). set (d5 := set32 d4 _ _).
  assert (L1 : length d1 = length d) by (apply length_set16; lia).
  assert (L2 : length d2 = length d) by (unfold d2; rewrite length_set16; lia).
  assert (L3 : length d3 = length d) by (unfold d3; rewrite length_set16; lia).
  assert (L4 : length d4 = length d) by (unfold d4; rewrite length_set16; lia).
  assert (L5 : length d5 = length d) by (unfold d5; rewrite length_set32; lia).
  rewrite length_splice; lia.
Qed.

Lemma dinode_codec d off di :
  dinode_ok di -> (off + 64 <= length d)%nat ->
  get_dinode (put_dinode d off di) off = di /\
  forall off', (off' + 64 <= off \/ off + 64 <= off')%nat ->
    get_dinode (put_dinode d off di) off' = get_dinode d off'.
Proof.
  intros (Hs & Hz & Ha & Hr) Hl. destruct di as [ty ma mi nl sz addrs]. simpl in *.
  change NADDRS with 13%nat in Ha. pose proof (length_mjoin_words addrs) as Hj. rewrite Ha in Hj.
  unfold put_dinode. cbn [d_type d_major d_minor d_nlink d_size d_addrs].
  set (d1 := set16 d off ty). set (d2 := set16 d1 (off + 2) ma). set (d3 := set16 d2 (off + 4) mi).
  set (d4 := set16 d3 (off + 6) nl). set (d5 := set32 d4 (off + 8) sz).
  assert (L1 : length d1 = length d) by (apply length_set16; lia).
  assert (L2 : length d2 = length d) by (unfold d2; rewrite length_set16; lia).
  assert (L3 : length d3 = length d) by (unfold d3; rewrite length_set16; lia).
  assert (L4 : length d4 = length d) by (unfold d4; rewrite length_set16; lia).
  assert (L5 : length d5 = length d) by (unfold d5; rewrite length_set32; lia).
  assert (G16 : forall l o v o', (o + 2 <= length l)%nat -> (o' + 2 <= o \/ o + 2 <= o')%nat ->
    get16 (set16 l o v) o' = get16 l o').
  { intros. apply get16_splice_ne; rewrite length_le_bytes; lia. }
  assert (G16' : forall l o v o', (o + 4 <= length l)%nat -> (o' + 2 <= o \/ o + 4 <= o')%nat ->
    get16 (set32 l o v) o' = get16 l o').
  { intros. apply get16_splice_ne; rewrite length_le_bytes; lia. }
  assert (G32 : forall l o v o', (o + 2 <= length l)%nat -> (o' + 4 <= o \/ o + 2 <= o')%nat ->
    get32 (set16 l o v) o' = get32 l o').
  { intros. apply get32_splice_ne; rewrite length_le_bytes; lia. }
  split.
  - unfold get_dinode. f_equal.
    + rewrite get16_splice_ne by lia. unfold d5. rewrite G16' by lia. unfold d4. rewrite G16 by lia.
      unfold d3. rewrite G16 by lia. unfold d2. rewrite G16 by lia. unfold d1.
      rewrite get16_set16_eq by lia. apply i16_u16, Hs. auto.
    + rewrite get16_splice_ne by lia. unfold d5. rewrite G16' by lia. unfold d4. rewrite G16 by lia.
      unfold d3. rewrite G16 by lia. unfold d2.
      rewrite get16_set16_eq by lia. apply i16_u16, Hs. auto.
    + rewrite get16_splice_ne by lia. unfold d5. rewrite G16' by lia. unfold d4. rewrite G16 by lia. unfold d3.
      rewrite get16_set16_eq by lia. apply i16_u16, Hs. auto.
    + rewrite get16_splice_ne by lia. unfold d5. rewrite G16' by lia. unfold d4.
      rewrite get16_set16_eq by lia. apply i16_u16, Hs. auto.
    + rewrite get32_splice_ne by lia. unfold d5. rewrite get32_set32_eq by lia. by apply u32_small.
    + apply list_eq. intros j. rewrite list_lookup_fmap. destruct (decide (j < 13)%nat) as [Hlt|Hge].
      * rewrite lookup_seq_lt by done. cbn [fmap option_fmap option_map].
        change (0 + j)%nat with j. destruct (lookup_lt_is_Some_2 addrs j) as [a Ea]; [lia|].
        rewrite Ea. f_equal. rewrite get32_splice_in by lia. rewrite (get32_mjoin addrs j a) by done.
        rewrite Forall_forall in Hr. apply u32_small, Hr. by eapply list_elem_of_lookup_2.
      * rewrite !(proj2 (lookup_ge_None _ j)); [done|lia|rewrite length_seq; change NADDRS with 13%nat; lia].
  - intros off' Hd.
    assert (H16 : forall o, (o + 2 <= off \/ off + 12 <= o)%nat -> get16 d5 o = get16 d o).
    { intros o Ho. unfold d5. rewrite G16' by lia. unfold d4. rewrite G16 by lia. unfold d3.
      rewrite G16 by lia. unfold d2. rewrite G16 by lia. unfold d1. by rewrite G16 by lia. }
    assert (H32 : forall o, (o + 4 <= off \/ off + 12 <= o)%nat -> get32 d5 o = get32 d o).
    { intros o Ho. unfold d5. rewrite get32_set32_ne by lia. unfold d4. rewrite G32 by lia. unfold d3.
      rewrite G32 by lia. unfold d2. rewrite G32 by lia. unfold d1. by rewrite G32 by lia. }
    unfold get_dinode. f_equal.
    + rewrite get16_splice_ne by lia. rewrite H16 by lia. done.
    + rewrite get16_splice_ne by lia. rewrite H16 by lia. done.
    + rewrite get16_splice_ne by lia. rewrite H16 by lia. done.
    + rewrite get16_splice_ne by lia. rewrite H16 by lia. done.
    + rewrite get32_splice_ne by lia. apply H32; lia.
    + apply list_fmap_ext. intros j x Hx. apply lookup_seq in Hx as [-> Hx]. change NADDRS with 13%nat in Hx.
      rewrite get32_splice_ne by lia. apply H32; lia.
Qed.

(** The disk layout of an inode: what [iupdate] stores in its block is what
    [ilock] loads back, and the other inodes of the block are untouched. *)
Theorem dinode_roundtrip d off di :
  dinode_ok di -> (off + 64 <= length d)%nat ->
  get_dinode (put_dinode d off di) off = di /\
  forall off', (off' + 64 <= off \/ off + 64 <= off')%nat ->
    get_dinode (put_dinode d off di) off' = get_dinode d off'.
Proof. apply dinode_codec. Qed.

Lemma dinode_roundtrip_witness :
  get_dinode (put_dinode (replicate 512 7) 128 (mk_dinode 2 0 0 1 1300 (seqZ 60 13))) 128 =
    mk_dinode 2 0 0 1 1300 (seqZ 60 13) /\
  get_dinode (put_dinode (replicate 512 7) 128 (mk_dinode 2 0 0 1 1300 (seqZ 60 13))) 192 =
    get_dinode (replicate 512 7) 192.
Proof.
  destruct (dinode_roundtrip (replicate 512 7) 128 (mk_dinode 2 0 0 1 1300 (seqZ 60 13))) as [H1 H2].
  - split; [|split; [simpl; lia|split; [reflexivity|]]].
    + simpl. intros x Hx. lia.
    + apply Forall_forall. simpl. intros x Hx. apply elem_of_seqZ in Hx. lia.
  - rewrite length_replicate. lia.
  - split; [exact H1|]. apply H2. lia.
Defined.
