(* ===== verification/Console.v ===== *)
(** * Console: output, the input line editor and the formatted printers
    (console.c, printf.c)

    [k_cons] is the trace of the characters given to [consputc]; [cgaputc] is
    modelled on the screen memory and the cursor.  The input side is the ring buffer
    of [INPUT_BUF] characters with its 32-bit indices [r], [w] and [e]. *)

From S2P Require Import Prelude Bytes Kernel Sync Str Inode.

Definition BACKSPACE : Z := 0x100.
(** [C(x)]: control-[x]. *)
Definition ctrl (x : Z) : Z := x - 64.

(** ** The screen *)

Record cga : Type := mk_cga { crt : list Z; pos : Z }.

Definition cgaputc (c : Z) (s : cga) : option cga :=
  let p := pos s in
  let '(m, p) :=
    if c =? 10 then (crt s, p + (80 - p mod 80))
    else if c =? BACKSPACE then (crt s, if 0 <? p then p - 1 else p)
    else (<[Z.to_nat p := Z.lor (Z.land c 0xff) 0x0700]> (crt s), p + 1) in
  if (p <? 0) || (25 * 80 <? p) then None (* panic("pos under/overflow") *) else
  let '(m, p) :=
    if 24 <=? p / 80 then
      let m := splice m 0 (slice m 80 (23 * 80)) in
      let p := p - 80 in
      (splice m (Z.to_nat p) (replicate (Z.to_nat (24 * 80 - p)) 0), p)
    else (m, p) in
  Some (mk_cga (<[Z.to_nat p := Z.lor 32 0x0700]> m) p).

(** ** consputc *)

Definition consputc (c : Z) : KM unit := fun k =>
  if k_panicked k then Spin else Ok tt (set_k_cons (k_cons k ++ [c]) k).

Fixpoint consputs (l : list Z) : KM unit :=
  match l with
  | [] => ret tt
  | c :: l' => consputc c ;;; consputs l'
  end.

(** ** printint *)

Definition digits_lower : list Z := [48; 49; 50; 51; 52; 53; 54; 55; 56; 57; 97; 98; 99; 100; 101; 102].
Definition digits_upper : list Z := [48; 49; 50; 51; 52; 53; 54; 55; 56; 57; 65; 66; 67; 68; 69; 70].

(** [do buf[i++] = digits[x % base]; while((x /= base) != 0);] the least significant
    digit first; a 32-bit number has at most 32 digits. *)
Fixpoint digit_loop (fuel : nat) (digits : list Z) (x base : Z) : list Z :=
  match fuel with
  | O => []
  | S fuel' =>
      default 0 (digits !! Z.to_nat (x mod base)) ::
      (if x / base =? 0 then [] else digit_loop fuel' digits (x / base) base)
  end.

(** The characters printed for [xx], an [int] or the word of one. *)
Definition int_chars (digits : list Z) (xx base : Z) (sgn : bool) : list Z :=
  let neg := sgn && (i32 xx <? 0) in
  let x := if neg then u32 (- i32 xx) else u32 xx in
  let buf := digit_loop 32 digits x base in
  let buf := if neg then buf ++ [45] else buf in
  reverse buf.

Definition printint (xx base : Z) (sign : bool) : KM unit := consputs (int_chars digits_lower xx base sign).

(** ** Strings given to %s *)

Fixpoint read_str (fuel : nat) (m : mem) (s : Z) : option (list Z) :=
  match fuel with
  | O => None
  | S fuel' =>
      if m s =? 0 then Some []
      else match read_str fuel' m (s + 1) with Some l => Some (m s :: l) | None => None end
  end.

Definition null_str : list Z := [40; 110; 117; 108; 108; 41].

(** ** cprintf

    [fmt] is the format string; [args] the words after it on the stack: a number, or
    a pointer to a string, given as its characters ([None] is the null pointer). *)

Inductive carg : Type := A_int (x : Z) | A_str (s : option (list Z)).

Fixpoint cprintf_loop (fmt : list Z) (args : list carg) : KM unit :=
  match fmt with
  | [] => ret tt
  | c :: fmt' =>
      if negb (c =? 37) then consputc c ;;; cprintf_loop fmt' args else
      match fmt' with
      | [] => ret tt
      | c :: fmt'' =>
          if c =? 100 then                         (* 'd' *)
            match args with
            | A_int x :: args' => printint x 10 true ;;; cprintf_loop fmt'' args'
            | _ => fault "argp"
            end
          else if (c =? 120) || (c =? 112) then    (* 'x', 'p' *)
            match args with
            | A_int x :: args' => printint x 16 false ;;; cprintf_loop fmt'' args'
            | _ => fault "argp"
            end
          else if c =? 115 then                    (* 's' *)
            match args with
            | A_str s :: args' => consputs (default null_str s) ;;; cprintf_loop fmt'' args'
            | _ => fault "argp"
            end
          else if c =? 37 then consputc 37 ;;; cprintf_loop fmt'' args
          else consputc 37 ;;; consputc c ;;; cprintf_loop fmt'' args
      end
  end.

Definition cprintf (fmt : option (list Z)) (args : list carg) : KM unit :=
  let! k := get in
  let locking := k_locking k in
  when locking (acquire L_cons) ;;;
  match fmt with
  | None => panic "null fmt"
  | Some f =>
      cprintf_loop f args ;;;
      when locking (release L_cons)
  end.

(** [cprintf] of a literal that ends with a newline. *)
Definition cprintln (s : string) (args : list carg) : KM unit := cprintf (Some (chars s ++ [10])) args.

(** ** printf (printf.c)

    The user library's printer: the characters it writes to the descriptor, or
    [None] when it runs out of arguments or a string has no end. *)
(** Its [printint], which has upper case digits; [putc] writes one character. *)
Definition user_printint (xx base : Z) (sgn : bool) : list Z := int_chars digits_upper xx base sgn.

Section Printf.
Context (fuel : nat) (m : mem).

Definition fmt_str (s : Z) : option (list Z) :=
  if s =? 0 then Some null_str else read_str fuel m s.

Fixpoint printf_loop (fmt : list Z) (state : bool) (ap : list Z) : option (list Z) :=
  match fmt with
  | [] => Some []
  | c :: fmt' =>
      if negb state then
        if c =? 37 then printf_loop fmt' true ap
        else match printf_loop fmt' false ap with Some o => Some (c :: o) | None => None end
      else
        let next l ap := match printf_loop fmt' false ap with Some o => Some (l ++ o) | None => None end in
        if c =? 100 then match ap with x :: ap' => next (user_printint x 10 true) ap' | [] => None end
        else if (c =? 120) || (c =? 112) then
          match ap with x :: ap' => next (user_printint x 16 false) ap' | [] => None end
        else if c =? 115 then
          match ap with
          | x :: ap' => match fmt_str x with Some s => next s ap' | None => None end
          | [] => None
          end
        else if c =? 99 then match ap with x :: ap' => next [u8 x] ap' | [] => None end
        else if c =? 37 then next [c] ap
        else next [37; c] ap
  end.

Definition printf (fmt ap : list Z) : option (list Z) := printf_loop fmt false ap.

End Printf.

(** ** Input *)

Definition upd_input (f : inputstate -> inputstate) : KM unit :=
  modify (fun k => set_k_input (f (k_input k)) k).

Definition in_at (s : inputstate) (i : Z) : Z := default 0 (in_buf s !! Z.to_nat (i mod INPUT_BUF)).

(** The loop of control-U; the line being edited has at most [INPUT_BUF] characters. *)
Fixpoint kill_line (fuel : nat) : KM unit :=
  match fuel with
  | O => spin
  | S fuel' =>
      let! k := get in
      let s := k_input k in
      if negb (in_e s =? in_w s) && negb (in_at s (u32 (in_e s - 1)) =? 10) then
        upd_input (fun s => set_in_e (u32 (in_e s - 1)) s) ;;;
        consputc BACKSPACE ;;;
        kill_line fuel'
      else ret tt
  end.

(** One character of [consoleintr]'s loop; [true] for control-P. *)
Definition consoleintr_char (c : Z) : KM bool :=
  if c =? ctrl 80 then ret true else
  if c =? ctrl 85 then kill_line (S (Z.to_nat INPUT_BUF)) ;;; ret false else
  if (c =? ctrl 72) || (c =? 127) then
    let! k := get in
    let s := k_input k in
    when (negb (in_e s =? in_w s))
      (upd_input (fun s => set_in_e (u32 (in_e s - 1)) s) ;;;
       consputc BACKSPACE) ;;;
    ret false
  else
    let! k := get in
    let s := k_input k in
    when (negb (c =? 0) && (u32 (in_e s - in_r s) <? INPUT_BUF))
      (let c := if c =? 13 then 10 else c in
       upd_input (fun s => set_in_e (u32 (in_e s + 1))
         (set_in_buf (<[Z.to_nat (in_e s mod INPUT_BUF) := u8 c]> (in_buf s)) s)) ;;;
       consputc c ;;;
       let! k := get in
       let s := k_input k in
       when ((c =? 10) || (c =? ctrl 68) || (in_e s =? u32 (in_r s + INPUT_BUF)))
         (upd_input (fun s => set_in_w (in_e s) s) ;;;
          wakeup C_input)) ;;;
    ret false.

Fixpoint consoleintr_loop (input : list Z) (dump : bool) : KM bool :=
  match input with
  | [] => ret dump
  | c :: input' =>
      if c <? 0 then ret dump else
      let! p := consoleintr_char c in
      consoleintr_loop input' (dump || p)
  end.

(** [input] is what [getc] returns until it returns a negative number; the result
    says whether [procdump] is called afterwards. *)
Definition consoleintr (input : list Z) : KM bool :=
  acquire L_cons ;;;
  let! dump := consoleintr_loop input false in
  release L_cons ;;;
  ret dump.

(** The loop of [consoleread] with [n] characters to go, having read [acc].  A process
    that finds the buffer empty sleeps, and goes on from here when it is woken. *)
Fixpoint consoleread_loop (fuel : nat) (target n : Z) (acc : list Z) : KM (option (list Z)) :=
  match fuel with
  | O => ret (Some acc)
  | S fuel' =>
      if 0 <? n then
        let! k := get in
        let s := k_input k in
        if in_r s =? in_w s then
          let! i := curproc in
          let! p := get_proc i in
          if p_killed p then ret None
          else sleep_again C_input L_cons
        else
          let c := in_at s (in_r s) in
          upd_input (fun s => set_in_r (u32 (in_r s + 1)) s) ;;;
          if c =? ctrl 68 then
            when (n <? target) (upd_input (fun s => set_in_r (u32 (in_r s - 1)) s)) ;;;
            ret (Some acc)
          else if c =? 10 then ret (Some (acc ++ [c]))
          else consoleread_loop fuel' target (n - 1) (acc ++ [c])
      else ret (Some acc)
  end.

(** [None] is the [-1] of a killed process. *)
Definition consoleread (ip : nat) (n : Z) : KM (option (list Z)) :=
  iunlock (Some ip) ;;;
  acquire L_cons ;;;
  let! r := consoleread_loop (S (Z.to_nat n)) n n [] in
  release L_cons ;;;
  ilock (Some ip) ;;;
  ret r.

Definition consolewrite (ip : nat) (src : list Z) : KM Z :=
  iunlock (Some ip) ;;;
  acquire L_cons ;;;
  consputs ((fun c => Z.land c 0xff) <$> src) ;;;
  release L_cons ;;;
  ilock (Some ip) ;;;
  ret (Z.of_nat (length src)).

Definition consoleinit : KM unit :=
  modify (fun k => set_k_devsw (<[Z.to_nat CONSOLE := Some consoledev]> (k_devsw k)) k) ;;;
  modify (set_k_locking true).

(** ** printint prints the number *)

(** The number whose base-10 digits, the least significant first, are [ds]. *)
Fixpoint of_digits (base : Z) (ds : list Z) : Z :=
  match ds with [] => 0 | d :: ds' => d + base * of_digits base ds' end.

Lemma of_digits_nonneg base ds : 0 < base -> Forall (fun d => 0 <= d < base) ds -> 0 <= of_digits base ds.
Proof. intros Hb. induction 1; simpl; nia. Qed.

Lemma digits_lookup digits d :
  digits = digits_lower \/ digits = digits_upper -> 0 <= d < 10 ->
  default 0 (digits !! Z.to_nat d) = 48 + d.
Proof.
  intros Hd Hr.
  assert (d = 0 \/ d = 1 \/ d = 2 \/ d = 3 \/ d = 4 \/ d = 5 \/ d = 6 \/ d = 7 \/ d = 8 \/ d = 9)
    as H by lia.
  destruct Hd as [->| ->]; repeat destruct H as [->|H]; subst; reflexivity.
Qed.

(** The digits the loop produces, whatever the base. *)
Lemma digit_loop_spec fuel : forall digits x base k,
  1 < base -> 0 <= x < base ^ Z.of_nat k -> (1 <= k <= fuel)%nat ->
  exists ds, digit_loop fuel digits x base = (fun d => default 0 (digits !! Z.to_nat d)) <$> ds /\
    of_digits base ds = x /\ Forall (fun d => 0 <= d < base) ds /\ (1 <= length ds <= k)%nat.
Proof.
  induction fuel as [|fuel IH]; intros digits x base k Hb Hx Hk; [lia|]. cbn [digit_loop].
  pose proof (Z.mod_pos_bound x base ltac:(lia)) as Hm. pose proof (Z.div_mod x base ltac:(lia)) as Hdm.
  destruct (Z.eqb_spec (x / base) 0) as [E|E].
  - exists [x mod base]. cbn. split; [done|]. split; [lia|]. split; [|lia]. constructor; [done|constructor].
  - destruct k as [|k]; [lia|]. destruct k as [|k].
    { exfalso. apply E. change (Z.of_nat 1) with 1 in Hx. rewrite Z.pow_1_r in Hx. by apply Z.div_small. }
    destruct (IH digits (x / base) base (S k)) as (ds & E1 & E2 & E3 & E4); [lia| |lia|].
    + split; [apply Z.div_pos; lia|]. apply Z.div_lt_upper_bound; [lia|].
      rewrite (Nat2Z.inj_succ (S k)), Z.pow_succ_r in Hx by lia. lia.
    + exists (x mod base :: ds). rewrite fmap_cons, <- E1. split; [done|]. cbn [of_digits length].
      rewrite E2. split; [lia|]. split; [by constructor|lia].
Qed.

Lemma word_digits x base k :
  0 <= x < 2 ^ 32 -> 2 ^ 32 <= base ^ Z.of_nat k -> 0 <= x < base ^ Z.of_nat k.
Proof. lia. Qed.

(** [printint] never overruns its buffer of 16 characters: for every 32-bit word, in
    base 10 or 16, signed or not, it produces at least one character and at most
    11, the sign included, and the digits it prints are those of the number. *)
Theorem printint_bounds digits xx base sgn :
  base = 10 \/ base = 16 ->
  (1 <= length (int_chars digits xx base sgn) <= 11)%nat /\
  exists ds, of_digits base ds = (if sgn && (i32 xx <? 0) then - i32 xx else u32 xx) /\
    int_chars digits xx base sgn =
      (if sgn && (i32 xx <? 0) then [45] else []) ++
      reverse ((fun d => default 0 (digits !! Z.to_nat d)) <$> ds).
Proof.
  intros Hb. unfold int_chars.
  assert (Hx : forall x, 0 <= x < 2 ^ 32 -> exists ds, digit_loop 32 digits x base = (fun d => default 0 (digits !! Z.to_nat d)) <$> ds /\
    of_digits base ds = x /\ (1 <= length ds <= 10)%nat).
  { intros x Hx. destruct (digit_loop_spec 32 digits x base 10) as (ds & E1 & E2 & _ & E4); [lia| |lia|by exists ds].
    apply word_digits; [done|]. by destruct Hb as [->| ->]. }
  pose proof (i32_range xx) as Hr. destruct (sgn && (i32 xx <? 0)) eqn:E.
  - zify_bool. rewrite u32_small by lia. destruct (Hx (- i32 xx) ltac:(lia)) as (ds & -> & E2 & E4).
    rewrite reverse_app. split.
    + rewrite length_app, !length_reverse, length_fmap. simpl. lia.
    + by exists ds.
  - destruct (Hx (u32 xx) (u32_range xx)) as (ds & -> & E2 & E4). split.
    + rewrite length_reverse, length_fmap. lia.
    + by exists ds.
Qed.

Lemma printint_bounds_witness :
  int_chars digits_lower (-2147483648) 10 true = [45; 50; 49; 52; 55; 52; 56; 51; 54; 52; 56] /\
  (length (int_chars digits_lower (-2147483648) 10 true) <= 11)%nat.
Proof. split; [reflexivity|]. apply (printint_bounds digits_lower (-2147483648) 10 true). by left. Defined.

(** ** atoi reads back what printint prints *)

Lemma atoi_loop_spec cs : forall fuel m s n,
  (forall i c, cs !! i = Some c -> m (s + Z.of_nat i) = c) -> Forall (fun c => 48 <= c <= 57) cs ->
  ~ (48 <= m (s + Z.of_nat (length cs)) <= 57) -> (length cs < fuel)%nat ->
  Ulib.atoi_loop fuel m s n = Some (foldl (fun n c => i32 (n * 10 + c - 48)) n cs).
Proof.
  induction cs as [|c cs IH]; intros [|fuel] m s n Hm Hc Hend Hf; simpl in *; try lia.
  - rewrite Z.add_0_r in Hend. destruct (Z.leb_spec 48 (m s)), (Z.leb_spec (m s) 57); simpl; try done. lia.
  - inversion Hc; subst. assert (E : m s = c) by (rewrite <- (Z.add_0_r s); apply (Hm 0%nat); done).
    rewrite E, (proj2 (Z.leb_le 48 c)), (proj2 (Z.leb_le c 57)) by lia. simpl. apply IH; [|done| |lia].
    + intros i c' Hi. rewrite <- (Hm (S i) c' Hi). f_equal. lia.
    + intros H. apply Hend. by replace (s + Z.of_nat (S (length cs))) with (s + 1 + Z.of_nat (length cs)) by lia.
Qed.

Lemma foldl_digits ds :
  Forall (fun d => 0 <= d < 10) ds -> of_digits 10 ds < 2 ^ 31 ->
  foldl (fun n c => i32 (n * 10 + c - 48)) 0 (reverse ((fun d => 48 + d) <$> ds)) = of_digits 10 ds.
Proof.
  induction 1 as [|d ds Hd Hds IH]; intros Hb; [done|]. cbn [of_digits] in Hb.
  rewrite fmap_cons, reverse_cons, foldl_app. cbn [foldl of_digits].
  pose proof (of_digits_nonneg 10 ds ltac:(lia) Hds). rewrite IH by lia. rewrite i32_small; lia.
Qed.

(** [atoi] reads back what [printf]'s [%d] writes: if the characters printed for a
    non-negative [int] are in memory and what follows is not a digit, [atoi] returns
    the number (and reads no further). *)
Theorem atoi_printint m s x fuel :
  0 <= x < 2 ^ 31 ->
  (forall i c, int_chars digits_upper x 10 true !! i = Some c -> m (s + Z.of_nat i) = c) ->
  ~ (48 <= m (s + Z.of_nat (length (int_chars digits_upper x 10 true))) <= 57) ->
  (11 <= fuel)%nat -> Ulib.atoi fuel m s = Some x.
Proof.
  intros Hx. unfold int_chars. rewrite i32_small by lia. rewrite (proj2 (Z.ltb_ge x 0)), (u32_small x) by lia.
  cbn [andb].
  destruct (digit_loop_spec 32 digits_upper x 10 10) as (ds & -> & E2 & E3 & E4); [lia| |lia|].
  { split; [lia|]. eapply Z.lt_trans; [apply Hx|]. reflexivity. }
  assert (Ed : (fun d => default 0 (digits_upper !! Z.to_nat d)) <$> ds = (fun d => 48 + d) <$> ds).
  { apply list_fmap_ext. intros i d Hi. apply digits_lookup; [by right|].
    rewrite Forall_forall in E3. apply E3. by eapply list_elem_of_lookup_2. }
  rewrite Ed. intros Hm Hend Hf. unfold Ulib.atoi. rewrite (atoi_loop_spec _ _ _ _ _ Hm); [|..|done|].
  - rewrite foldl_digits by (done || lia). by rewrite E2.
  - apply Forall_reverse, Forall_fmap. eapply Forall_impl; [exact E3|]. simpl. intros. lia.
  - rewrite length_reverse, length_fmap. lia.
Qed.

Lemma atoi_printint_witness :
  Ulib.atoi 11 (store_bytes (fun _ => 0) 200 (int_chars digits_upper 4096 10 true)) 200 = Some 4096.
Proof.
  apply (atoi_printint _ 200 4096 11).
  - lia.
  - intros i c Hi. by apply store_bytes_in.
  - vm_compute. intros [H _]. by apply H.
  - lia.
Defined.

(** ** The line editor *)

(** The contents of the input buffer: the characters a reader can have, and the line
    being edited. *)
Record line : Type := mk_line { ln_avail : list Z; ln_edit : list Z }.

Record ring (s : inputstate) (l : line) : Prop := {
  rg_len : length (in_buf s) = Z.to_nat INPUT_BUF;
  rg_r : 0 <= in_r s < 2 ^ 32;
  rg_w : in_w s = u32 (in_r s + Z.of_nat (length (ln_avail l)));
  rg_e : in_e s = u32 (in_r s + Z.of_nat (length (ln_avail l ++ ln_edit l)));
  rg_fit : Z.of_nat (length (ln_avail l ++ ln_edit l)) <= INPUT_BUF;
  rg_chars : forall i c, (ln_avail l ++ ln_edit l) !! i = Some c -> in_at s (in_r s + Z.of_nat i) = c;
  rg_edit : Forall (fun c => c <> 10) (ln_edit l)
}.

(** What a character typed does to the line. *)
Definition line_char (c : Z) (l : line) : line :=
  if c =? ctrl 80 then l
  else if c =? ctrl 85 then mk_line (ln_avail l) []
  else if (c =? ctrl 72) || (c =? 127) then mk_line (ln_avail l) (take (pred (length (ln_edit l))) (ln_edit l))
  else if negb (c =? 0) && (Z.of_nat (length (ln_avail l ++ ln_edit l)) <? INPUT_BUF) then
    let c := if c =? 13 then 10 else c in
    let edit := ln_edit l ++ [c] in
    if (c =? 10) || (c =? ctrl 68) || (Z.of_nat (length (ln_avail l ++ edit)) =? INPUT_BUF)
    then mk_line (ln_avail l ++ edit) []
    else mk_line (ln_avail l) edit
  else l.

Lemma in_at_u32 s i : in_at s (u32 i) = in_at s i.
Proof.
  unfold in_at, u32, INPUT_BUF. do 2 f_equal.
  rewrite <- Znumtheory.Zmod_div_mod; [done|lia|lia|]. by exists (2 ^ 25).
Qed.

Lemma u32_add_l a b : u32 (u32 a + b) = u32 (a + b).
Proof. unfold u32. by rewrite Zplus_mod_idemp_l. Qed.

Lemma u32_sub_l a b : u32 (u32 a - b) = u32 (a - b).
Proof. unfold u32. by rewrite Zminus_mod_idemp_l. Qed.

Lemma u32_diff r n m : 0 <= n -> 0 <= m -> n - m < 2 ^ 32 -> m <= n ->
  u32 (u32 (r + n) - u32 (r + m)) = n - m.
Proof.
  intros. rewrite u32_sub_l. unfold u32 at 2. rewrite <- (u32_small (n - m)) by lia. unfold u32.
  rewrite Zminus_mod_idemp_r. f_equal. lia.
Qed.

Lemma u32_eqb r n m : 0 <= n <= 128 -> 0 <= m <= 128 ->
  (u32 (r + n) =? u32 (r + m)) = (n =? m).
Proof.
  intros Hn Hm. destruct (Z.eqb_spec n m) as [->|Hne]; [apply Z.eqb_refl|].
  apply Z.eqb_neq. intros E. unfold u32 in E.
  assert (H : (r + n - (r + m)) mod 2 ^ 32 = 0) by (rewrite Zminus_mod, E, Z.sub_diag; done).
  apply Z.mod_divide in H as [q Hq]; [|lia]. lia.
Qed.

(** Storing at the edit index changes no character of the ring. *)
Lemma ring_store s l c :
  ring s l -> Z.of_nat (length (ln_avail l ++ ln_edit l)) < INPUT_BUF ->
  let s' := set_in_buf (<[Z.to_nat (in_e s mod INPUT_BUF) := c]> (in_buf s)) s in
  forall i x, ((ln_avail l ++ ln_edit l) ++ [c]) !! i = Some x -> in_at s' (in_r s + Z.of_nat i) = x.
Proof.
  intros [Hlen Hr Hw He Hfit Hch _] Hroom s' i x Hi. pose proof (lookup_lt_Some _ _ _ Hi) as Hil.
  rewrite length_app in Hil. cbn [length] in Hil. unfold in_at, s'. cbn [in_buf set_in_buf].
  rewrite He. set (n := length (ln_avail l ++ ln_edit l)) in *.
  assert (E : u32 (in_r s + Z.of_nat n) mod INPUT_BUF = (in_r s + Z.of_nat n) mod INPUT_BUF).
  { unfold u32, INPUT_BUF. symmetry. apply Znumtheory.Zmod_div_mod; [lia|lia|]. by exists (2 ^ 25). }
  rewrite E. unfold INPUT_BUF in *.
  pose proof (Z.mod_pos_bound (in_r s + Z.of_nat n) 128 ltac:(lia)).
  pose proof (Z.mod_pos_bound (in_r s + Z.of_nat i) 128 ltac:(lia)).
  destruct (decide (i = n)) as [->|Hne].
  - rewrite list_lookup_insert_eq by (rewrite Hlen; lia). rewrite lookup_app_r in Hi by done.
    fold n in Hi. rewrite Nat.sub_diag in Hi. by injection Hi as <-.
  - rewrite list_lookup_insert_ne.
    + rewrite lookup_app_l in Hi by (fold n; lia). by apply Hch.
    + intros En. apply Z2Nat.inj in En; [|lia|lia].
      pose proof (Z.div_mod (in_r s + Z.of_nat n) 128). pose proof (Z.div_mod (in_r s + Z.of_nat i) 128). lia.
Qed.

(** The state the console code runs in: its lock held, the machine not frozen. *)
Definition cons_ok (k : kernel) : Prop := k_panicked k = false /\ L_ptable ∉ k_held k.

Lemma consputc_ok c k : k_panicked k = false -> consputc c k = Ok tt (set_k_cons (k_cons k ++ [c]) k).
Proof. intros H. unfold consputc. by rewrite H. Qed.

Lemma ring_drop s l :
  ring s l -> ln_edit l <> [] ->
  ring (set_in_e (u32 (in_e s - 1)) s) (mk_line (ln_avail l) (take (pred (length (ln_edit l))) (ln_edit l))).
Proof.
  intros [Hlen Hr Hw He Hfit Hch Hed] Hne. assert (Hl : (1 <= length (ln_edit l))%nat) by (destruct (ln_edit l); simpl in *; [done|lia]).
  rewrite length_app in He, Hfit. split; cbn [ln_avail ln_edit in_buf in_r in_w in_e set_in_e]; auto.
  - rewrite He, u32_sub_l. f_equal. rewrite length_app, length_take. lia.
  - rewrite length_app, length_take. lia.
  - intros i c Hi. unfold in_at. cbn [in_buf set_in_e]. apply Hch.
    rewrite <- (take_drop (pred (length (ln_edit l))) (ln_edit l)), app_assoc. by apply lookup_app_l_Some.
  - by apply Forall_take.
Qed.

Lemma ring_edit_empty s l : ring s l -> (in_e s =? in_w s) = bool_decide (ln_edit l = []).
Proof.
  intros [_ _ Hw He Hfit _ _]. rewrite length_app in He, Hfit. rewrite Hw, He, u32_eqb by (unfold INPUT_BUF in *; lia).
  destruct (ln_edit l) as [|c e]; simpl.
  - rewrite Nat.add_0_r, Z.eqb_refl. done.
  - apply Z.eqb_neq. simpl. lia.
Qed.

Lemma kill_line_ok fuel : forall k l,
  cons_ok k -> ring (k_input k) l -> (length (ln_edit l) < fuel)%nat ->
  exists k', kill_line fuel k = Ok tt k' /\ ring (k_input k') (mk_line (ln_avail l) []) /\ cons_ok k' /\
    k_held k' = k_held k /\ k_ptable k' = k_ptable k.
Proof.
  induction fuel as [|fuel IH]; intros k l Hc Hr Hf; [lia|]. cbn [kill_line]. mget.
  rewrite (ring_edit_empty _ l Hr). destruct (decide (ln_edit l = [])) as [E|E].
  - rewrite bool_decide_eq_true_2 by done. simpl. exists k. split; [done|]. split; [|by destruct Hc].
    destruct l as [a e]. simpl in *. by subst.
  - rewrite bool_decide_eq_false_2 by done. cbn [negb andb].
    destruct (ln_edit l) as [|x e _] eqn:El using rev_ind; [done|].
    assert (Hlast : in_at (k_input k) (u32 (in_e (k_input k) - 1)) = x).
    { rewrite in_at_u32, (rg_e _ _ Hr), <- in_at_u32, u32_sub_l, in_at_u32.
      replace (in_r (k_input k) + Z.of_nat (length (ln_avail l ++ ln_edit l)) - 1)
        with (in_r (k_input k) + Z.of_nat (length (ln_avail l ++ e))).
      - apply (rg_chars _ _ Hr). rewrite El, app_assoc. rewrite lookup_app_r by lia. by rewrite Nat.sub_diag.
      - rewrite El, !length_app. simpl. lia. }
    assert (Hx : x <> 10).
    { pose proof (rg_edit _ _ Hr) as Hed. rewrite El in Hed. apply Forall_app in Hed as [_ Hed]. by inversion Hed. }
    rewrite Hlast, (proj2 (Z.eqb_neq x 10)) by done. cbn [negb].
    erewrite bind_ok by reflexivity. destruct Hc as [Hp Hh].
    erewrite bind_ok by (by apply consputc_ok).
    match goal with |- exists k', kill_line fuel ?k1 = _ /\ _ =>
      destruct (IH k1 (mk_line (ln_avail l) (take (pred (length (ln_edit l))) (ln_edit l)))) as (k' & F & R & C & Eh & Ep)
    end.
    + by split.
    + simpl. apply ring_drop; [done|]. rewrite El. by destruct e.
    + simpl. rewrite El, length_take, length_app. simpl. rewrite length_app in Hf. simpl in Hf. lia.
    + exists k'. split; [exact F|]. split; [exact R|]. auto.
Qed.

(** A character that fits goes in the buffer. *)
Lemma ring_put s l c :
  ring s l -> 0 <= c < 256 -> Z.of_nat (length (ln_avail l ++ ln_edit l)) < INPUT_BUF ->
  let s' := set_in_e (u32 (in_e s + 1))
              (set_in_buf (<[Z.to_nat (in_e s mod INPUT_BUF) := u8 c]> (in_buf s)) s) in
  let edit := ln_edit l ++ [c] in
  (in_e s' =? u32 (in_r s' + INPUT_BUF)) = (Z.of_nat (length (ln_avail l ++ edit)) =? INPUT_BUF) /\
  (c <> 10 -> ring s' (mk_line (ln_avail l) edit)) /\
  ring (set_in_w (in_e s') s') (mk_line (ln_avail l ++ edit) []).
Proof.
  intros Hr Hc Hroom s' edit. pose proof (ring_store s l (u8 c) Hr Hroom) as Hst. cbv zeta in Hst.
  rewrite u8_small in Hst by done. rewrite <- app_assoc in Hst.
  destruct Hr as [Hlen Hr Hw He Hfit Hch Hed].
  assert (Hlen' : length (ln_avail l ++ edit) = S (length (ln_avail l ++ ln_edit l))).
  { unfold edit. rewrite !length_app. simpl. lia. }
  assert (He' : in_e s' = u32 (in_r s + Z.of_nat (length (ln_avail l ++ edit)))).
  { simpl. rewrite He, u32_add_l. f_equal. rewrite Hlen'. lia. }
  assert (Hch' : forall i x, (ln_avail l ++ edit) !! i = Some x -> in_at s' (in_r s + Z.of_nat i) = x).
  { intros i x Hi. rewrite <- (Hst i x Hi). unfold in_at, s'. simpl. by rewrite (u8_small c) by done. }
  unfold INPUT_BUF in *. split; [|split].
  - rewrite He'. change (in_r s') with (in_r s). rewrite u32_eqb by lia. done.
  - intros Hne. split; cbn [ln_avail ln_edit]; auto.
    + simpl. by rewrite length_insert.
    + unfold INPUT_BUF. lia.
    + unfold edit. apply Forall_app. split; [done|]. by constructor.
  - rewrite <- (app_nil_r (ln_avail l ++ edit)) in He', Hch'.
    split; cbn [ln_avail ln_edit]; auto.
    + simpl. by rewrite length_insert.
    + cbn [in_w set_in_w]. rewrite He', app_nil_r. done.
    + rewrite app_nil_r. unfold INPUT_BUF. lia.
Qed.

(** C36: The console's line editor: for every character typed, [consoleintr] leaves in
    the ring buffer exactly the line the editor should: control-U drops the line
    being edited, backspace its last character, a newline (or carriage return),
    control-D or a full buffer hands the line to the readers, and characters that do
    not fit are dropped; the 32-bit indices may wrap around. *)
Theorem consoleintr_edits c k l :
  cons_ok k -> ring (k_input k) l -> 0 <= c < 256 ->
  exists k', consoleintr_char c k = Ok (c =? ctrl 80) k' /\ ring (k_input k') (line_char c l) /\ cons_ok k'.
Proof.
  intros Hc Hr Hcr. unfold consoleintr_char, line_char.
  destruct (c =? ctrl 80) eqn:E1; [by exists k|].
  destruct (c =? ctrl 85) eqn:E2.
  { destruct (kill_line_ok (S (Z.to_nat INPUT_BUF)) k l Hc Hr) as (k' & F & R & C & _).
    - pose proof (rg_fit _ _ Hr) as Hf. rewrite length_app in Hf. lia.
    - mstep F. by exists k'. }
  destruct ((c =? ctrl 72) || (c =? 127)) eqn:E3.
  { mget. rewrite (ring_edit_empty _ l Hr). destruct (decide (ln_edit l = [])) as [E|E].
    - rewrite bool_decide_eq_true_2 by done. erewrite bind_ok by reflexivity. exists k. split; [done|]. split; [|done].
      rewrite E. destruct l as [a e]. simpl in *. by subst.
    - rewrite bool_decide_eq_false_2 by done. cbn [negb when]. destruct Hc as [Hp Hh].
      erewrite bind_ok; [|erewrite bind_ok by reflexivity; by apply consputc_ok].
      eexists. split; [reflexivity|]. split; [|by split]. simpl. by apply ring_drop. }
  mget. set (s := k_input k) in *.
  assert (Hroom : (u32 (in_e s - in_r s) <? INPUT_BUF) = (Z.of_nat (length (ln_avail l ++ ln_edit l)) <? INPUT_BUF)).
  { pose proof (rg_fit _ _ Hr) as Hfit. rewrite (rg_e _ _ Hr).
    pose proof (rg_r _ _ Hr) as Hrr. f_equal. replace (in_r s) with (u32 (in_r s + 0)) at 2
      by (rewrite Z.add_0_r; by apply u32_small).
    rewrite u32_diff by (unfold INPUT_BUF in *; lia). lia. }
  rewrite Hroom. destruct (negb (c =? 0) && _) eqn:E4; cbn [when]; [|erewrite bind_ok by reflexivity; by exists k].
  zify_bool. set (c' := if c =? 13 then 10 else c).
  assert (Hc' : 0 <= c' < 256) by (unfold c'; case_bool; lia).
  destruct (ring_put s l c' Hr Hc' ltac:(lia)) as (Ef & Re & Ra). destruct Hc as [Hp Hh].
  set (done := (c' =? 10) || (c' =? ctrl 68) || (Z.of_nat (length (ln_avail l ++ ln_edit l ++ [c'])) =? INPUT_BUF)).
  set (s' := set_in_e _ _) in *.
  set (k1 := set_k_cons (k_cons k ++ [c']) (set_k_input s' k)).
  erewrite bind_ok with (s' := if done then set_k_ptable (wakeup1_proc C_input <$> k_ptable k)
                                 (set_k_input (set_in_w (in_e s') s') k1) else k1).
  2: { erewrite bind_ok by reflexivity. erewrite bind_ok by (by apply consputc_ok). mget.
       change (set_k_cons _ (set_k_input _ k)) with k1. change (k_input k1) with s'. rewrite Ef. fold done.
       destruct done; [|reflexivity]. cbn [when]. erewrite bind_ok by reflexivity. rewrite wakeup_ok by done. reflexivity. }
  eexists. split; [reflexivity|]. destruct done eqn:E5.
  - split; [exact Ra|]. by split.
  - split; [|by split]. apply Re. unfold done in E5. zify_bool. lia.
Qed.

Lemma ring_zero : ring zero_input (mk_line [] []).
Proof. split; try done. Qed.

Lemma consoleintr_edits_witness :
  exists k', consoleintr_char 97 (boot_kernel 0x80115000 0x80108000 (fun _ => []) 0) = Ok false k' /\
    ring (k_input k') (mk_line [] [97]).
Proof.
  destruct (consoleintr_edits 97 (boot_kernel 0x80115000 0x80108000 (fun _ => []) 0) (mk_line [] []))
    as (k' & E & R & _).
  - split; [reflexivity|apply not_elem_of_nil].
  - exact ring_zero.
  - lia.
  - exists k'. split; [exact E|exact R].
Defined.

(** ** Reading lines *)

(** What a read of at most [n] characters gets from the characters available, and what
    it leaves: up to and including a newline; an end of file (control-D) only by
    itself, otherwise it stays for the next read.  [None]: the reader has to wait. *)
Fixpoint take_line (n : nat) (first : bool) (l : list Z) : option (list Z * list Z) :=
  match n with
  | O => Some ([], l)
  | S n' =>
      match l with
      | [] => None
      | c :: l' =>
          if c =? ctrl 68 then Some ([], if first then l' else l)
          else if c =? 10 then Some ([c], l')
          else match take_line n' false l' with
               | Some (r, rest) => Some (c :: r, rest)
               | None => None
               end
      end
  end.

Lemma ring_pop s c l e :
  ring s (mk_line (c :: l) e) ->
  (in_r s =? in_w s) = false /\ in_at s (in_r s) = c /\ ring (set_in_r (u32 (in_r s + 1)) s) (mk_line l e).
Proof.
  intros [Hlen Hr Hw He Hfit Hch Hed]. cbn [ln_avail ln_edit] in *. simpl length in *. split; [|split].
  - rewrite Hw. rewrite <- (u32_small (in_r s)) at 1 by done. rewrite <- (Z.add_0_r (in_r s)) at 1.
    simpl in Hfit. rewrite length_app in Hfit. unfold INPUT_BUF in Hfit.
    rewrite u32_eqb by lia. apply Z.eqb_neq. lia.
  - rewrite <- (Z.add_0_r (in_r s)). apply (Hch 0%nat). done.
  - split; cbn [ln_avail ln_edit in_buf in_r in_w in_e set_in_r]; auto.
    + apply u32_range.
    + rewrite Hw, u32_add_l. f_equal. lia.
    + rewrite He, u32_add_l. f_equal. simpl. lia.
    + simpl in Hfit. lia.
    + intros i x Hi. transitivity (in_at s (in_r s + Z.of_nat (S i))).
      * unfold in_at at 1. cbn [in_buf set_in_r]. fold (in_at s (u32 (in_r s + 1) + Z.of_nat i)).
        rewrite <- in_at_u32, u32_add_l, in_at_u32. f_equal. lia.
      * by apply Hch.
Qed.

Lemma ring_empty s e : ring s (mk_line [] e) -> (in_r s =? in_w s) = true.
Proof. intros [_ Hr Hw _ _ _ _]. rewrite Hw. simpl. rewrite Z.add_0_r, u32_small by done. apply Z.eqb_refl. Qed.

Lemma ring_unread s c l e :
  ring s (mk_line (c :: l) e) ->
  set_in_r (u32 (in_r (set_in_r (u32 (in_r s + 1)) s) - 1)) (set_in_r (u32 (in_r s + 1)) s) = s.
Proof.
  intros Hr. destruct s as [b r w e']. unfold set_in_r. simpl. f_equal.
  rewrite u32_sub_l. replace (r + 1 - 1) with r by lia. apply u32_small, (rg_r _ _ Hr).
Qed.

(** A read of the console gets exactly one line: with the characters [l] available
    it returns those up to a newline, an end of file or the count asked for, and
    leaves the rest in the buffer; when they do not complete the read, the process
    goes to sleep waiting for input (or returns if it was killed). *)
Theorem consoleread_takes_line fuel target n acc k l e c p :
  ring (k_input k) (mk_line l e) -> 0 <= n <= target -> (Z.to_nat n < fuel)%nat ->
  k_held k = [L_cons] -> k_cur k = Some c -> k_ptable k !! c = Some p ->
  match take_line (Z.to_nat n) (n =? target) l with
  | Some (r, rest) => exists k', consoleread_loop fuel target n acc k = Ok (Some (acc ++ r)) k' /\
      ring (k_input k') (mk_line rest e)
  | None => exists k', consoleread_loop fuel target n acc k = (if p_killed p then Ok None k' else Swtch k') /\
      ring (k_input k') (mk_line [] e)
  end.
Proof.
  revert n acc k l. induction fuel as [|fuel IH]; intros n acc k l Hr Hn Hf Hh Hc Hp; [lia|].
  remember (consoleread_loop (S fuel) target n acc k) as R eqn:ER. cbn [consoleread_loop] in ER.
  destruct (Z.ltb_spec 0 n) as [Hpos|Hz].
  2: { assert (n = 0) as -> by lia. simpl. exists k. by rewrite app_nil_r. }
  destruct (Z.to_nat n) as [|n'] eqn:En; [lia|]. cbn [take_line]. unfold bind at 1, get in ER.
  destruct l as [|x l].
  - rewrite (ring_empty _ _ Hr) in ER. erewrite bind_ok in ER by (by apply curproc_ok).
    erewrite bind_ok in ER by (by apply get_proc_ok). subst R. destruct (p_killed p).
    + by exists k.
    + unfold bind. erewrite sleep_again_switches by done. eexists. split; [reflexivity|]. exact Hr.
  - destruct (ring_pop _ _ _ _ Hr) as (E1 & E2 & E3). rewrite E1, E2 in ER.
    erewrite bind_ok in ER by reflexivity. subst R.
    destruct (x =? ctrl 68) eqn:Ex.
    + destruct (Z.eqb_spec n target) as [->|Hne].
      * rewrite Z.ltb_irrefl. cbn [when]. erewrite bind_ok by reflexivity. eexists. split; [by rewrite app_nil_r|].
        exact E3.
      * rewrite (proj2 (Z.ltb_lt _ _)) by lia. cbn [when]. erewrite bind_ok by reflexivity.
        eexists. split; [by rewrite app_nil_r|]. exact (eq_ind_r (fun s => ring s _) Hr (ring_unread _ _ _ _ Hr)).
    + destruct (x =? 10) eqn:Ex2; [by eexists|].
      match goal with |- context [consoleread_loop fuel _ _ _ ?k1] =>
        pose proof (IH (n - 1) (acc ++ [x]) k1 l E3 ltac:(lia) ltac:(lia) Hh Hc Hp) as H end.
      rewrite (proj2 (Z.eqb_neq (n - 1) target)) in H by lia. replace (Z.to_nat (n - 1)) with n' in H by lia.
      destruct (take_line n' false l) as [[r rest]|]; [|exact H].
      by rewrite <- app_assoc in H.
Qed.

(** A console with ["hi\n"] and the start of another line available. *)
Definition typed : kernel :=
  set_k_input (mk_input (splice (replicate 128 0) 0 [104; 105; 10; 120]) 0 4 4)
    (set_k_held [L_cons] (set_k_cur (Some 0%nat) (boot_kernel 0x80115000 0x80108000 (fun _ => []) 0))).

Lemma typed_ring : ring (k_input typed) (mk_line [104; 105; 10; 120] []).
Proof.
  split; try done. intros i c Hi. do 4 (destruct i as [|i]; [by injection Hi as <-|]).
  done.
Qed.

Lemma consoleread_takes_line_witness :
  exists k', consoleread_loop 11 10 10 [] typed = Ok (Some [104; 105; 10]) k' /\
    ring (k_input k') (mk_line [120] []).
Proof.
  destruct (consoleread_takes_line 11 10 10 [] typed [104; 105; 10; 120] [] 0 zero_proc typed_ring)
    as (k' & E & R); [lia|simpl; lia|reflexivity..|].
  exists k'. split; [exact E|exact R].
Defined.
