(* ===== verification/Blocks.v ===== *)
(** * Blocks: the free-block bitmap and the block map (theorems about fs.c)

    [file_block] is the block of the disk that holds block [bn] of a file, through
    the direct, indirect and double-indirect addresses; the theorems show that
    [bmap] finds it, that different blocks of a file go through different entries,
    and that [balloc] and [bfree] keep the bitmap. *)

From S2P Require Import Prelude Bytes Kernel Sync Bio Cache Log Txn Str Inode.

(** ** Looking a block up *)

Definition entry (V : Z -> list Z) (a j : Z) : Z := get32 (V a) (Z.to_nat (4 * j)).
Definition addr (addrs : list Z) (s : Z) : Z := default 0 (addrs !! Z.to_nat s).

Definition file_block (V : Z -> list Z) (addrs : list Z) (bn : Z) : Z :=
  if bn <? NDIRECT then addr addrs bn else
  let bn := bn - NDIRECT in
  if bn <? NINDIRECT then entry V (addr addrs NDIRECT) bn else
  let bn := bn - NINDIRECT in
  entry V (entry V (addr addrs (NDIRECT + 1)) (bn / NINDIRECT)) (bn mod NINDIRECT).

(** The blocks of addresses on the way to block [bn]. *)
Definition path_blocks (V : Z -> list Z) (addrs : list Z) (bn : Z) : list Z :=
  if bn <? NDIRECT then [] else
  let bn := bn - NDIRECT in
  if bn <? NINDIRECT then [addr addrs NDIRECT] else
  let bn := bn - NINDIRECT in
  [addr addrs (NDIRECT + 1); entry V (addr addrs (NDIRECT + 1)) (bn / NINDIRECT)].

Section Lookup.
Context {view : kernel -> nat -> Z -> list (nat * Z) -> list Z -> (Z -> list Z) -> Prop}.
Context `{!BlockCache view}.
Context (c : nat) (pid : Z) (L : list Z) (V : Z -> list Z).

(** Nothing but the cache changed. *)
Definition same (k k' : kernel) : Prop :=
  erase k' = erase k /\ k_disk k' = k_disk k /\ k_dtrace k' = k_dtrace k.

Lemma same_trans k1 k2 k3 : same k1 k2 -> same k2 k3 -> same k1 k3.
Proof. intros (? & ? & ?) (? & ? & ?). repeat split; congruence. Qed.

Lemma same_icache k k' : same k k' -> k_icache k' = k_icache k /\ k_disksize k' = k_disksize k.
Proof. intros (E & _). split; [exact (f_equal k_icache E)|exact (f_equal k_disksize E)]. Qed.

(** Reading a block and releasing it. *)
Lemma read_block k H b :
  view k c pid H L V -> 0 <= b < k_disksize k -> b ∉ H.*2 -> (length H + length L < NBUF)%nat ->
  exists i k1 x k2, bread ROOTDEV b k = Ok i k1 /\ get_buf i k1 = Ok x k1 /\ b_data x = V b /\
    brelse i k1 = Ok tt k2 /\ view k2 c pid H L V /\ same k k1 /\ same k k2.
Proof.
  intros HV Hb Hn Hroom.
  destruct (bc_bread k c pid H L V b HV Hb Hn (or_introl Hroom)) as (i & k1 & F1 & V1 & R1 & D1 & T1).
  destruct (bc_get_buf k1 c pid _ L V i b V1) as (x & Fx & Hxd & _); [left|].
  destruct (bc_brelse k1 c pid H L V i b V1) as (k2 & F2 & V2 & R2 & D2 & T2).
  { destruct (decide (b ∈ L)); [by left|right]. rewrite D1. by eapply bc_clean. }
  exists i, k1, x, k2. repeat split; auto; congruence.
Qed.

Lemma block_slot_found k H a j :
  view k c pid H L V -> 0 <= a < k_disksize k -> a ∉ H.*2 -> (length H + length L < NBUF)%nat ->
  entry V a j <> 0 ->
  exists k', block_slot ROOTDEV a j k = Ok (entry V a j) k' /\ view k' c pid H L V /\ same k k'.
Proof.
  intros HV Ha Hn Hroom He.
  destruct (read_block k H a HV Ha Hn Hroom) as (i & k1 & x & k2 & F1 & Fx & Hx & F2 & V2 & _ & S2).
  unfold block_slot. mstep F1. mstep Fx. rewrite Hx. fold (entry V a j).
  rewrite (proj2 (Z.eqb_neq _ _)) by done. mstep F2. by exists k2.
Qed.

Lemma inode_slot_found k i ip s :
  k_icache k !! i = Some ip -> (Z.to_nat s < length (i_addrs ip))%nat -> addr (i_addrs ip) s <> 0 ->
  inode_slot i s k = Ok (addr (i_addrs ip) s) k.
Proof.
  intros Hi Hs Ha. unfold inode_slot, get_inode. unfold bind at 1. rewrite Hi. unfold addr in *.
  destruct (lookup_lt_is_Some_2 _ _ Hs) as [x Ex]. rewrite Ex in *. simpl in *.
  unfold bind, deref, ret. by rewrite (proj2 (Z.eqb_neq _ _)).
Qed.

Lemma bmap_found k H i ip bn :
  view k c pid H L V -> (length H + length L < NBUF)%nat ->
  k_icache k !! i = Some ip -> i_dev ip = ROOTDEV -> length (i_addrs ip) = NADDRS ->
  0 <= bn < MAXFILE ->
  (forall a, a ∈ path_blocks V (i_addrs ip) bn -> 0 < a < k_disksize k /\ (a ∉ H.*2)) ->
  file_block V (i_addrs ip) bn <> 0 ->
  exists k', bmap i bn k = Ok (file_block V (i_addrs ip) bn) k' /\ view k' c pid H L V /\ same k k'.
Proof.
  intros HV Hroom Hi Hdev Hlen Hbn Hp Hf. unfold bmap, file_block, path_blocks in *.
  change NADDRS with 13%nat in Hlen. change MAXFILE with 16523 in Hbn.
  assert (Hgi : forall k', same k k' -> get_inode i k' = Ok ip k').
  { intros k' S. unfold get_inode. destruct (same_icache _ _ S) as [-> _]. by rewrite Hi. }
  destruct (Z.ltb_spec bn NDIRECT) as [H1|H1]; unfold NDIRECT in *.
  { rewrite (inode_slot_found k i ip bn) by (done || lia). exists k. by repeat split. }
  destruct (Z.ltb_spec (bn - 11) NINDIRECT) as [H2|H2].
  { destruct (Hp (addr (i_addrs ip) 11)) as [Ha Hn]; [set_solver|].
    mstep (inode_slot_found k i ip 11 Hi ltac:(lia) ltac:(lia)). mstep (Hgi k ltac:(by repeat split)).
    rewrite Hdev. apply block_slot_found; auto. lia. }
  change NINDIRECT with 128 in *.
  rewrite (proj2 (Z.ltb_lt _ (128 * 128))) by lia.
  destruct (Hp (addr (i_addrs ip) 12)) as [Ha Hn]; [set_solver|].
  destruct (Hp (entry V (addr (i_addrs ip) 12) ((bn - 11 - 128) / 128))) as [Ha2 Hn2]; [set_solver|].
  mstep (inode_slot_found k i ip 12 Hi ltac:(lia) ltac:(lia)). mstep (Hgi k ltac:(by repeat split)).
  rewrite Hdev.
  destruct (block_slot_found k H (addr (i_addrs ip) 12) ((bn - 11 - 128) / 128))
    as (k1 & F1 & V1 & S1); auto; try lia.
  mstep F1. destruct (same_icache _ _ S1) as [_ Hd1].
  destruct (block_slot_found k1 H (entry V (addr (i_addrs ip) 12) ((bn - 11 - 128) / 128))
              ((bn - 11 - 128) mod 128)) as (k2 & F2 & V2 & S2); auto; try lia.
  exists k2. split; [done|]. split; [done|]. by eapply same_trans.
Qed.

End Lookup.

(** ** Different blocks, different entries *)

(** The entry of the inode or of a block of addresses that names block [bn]. *)
Inductive slot : Type := Sl_inode (s : Z) | Sl_single (j : Z) | Sl_double (j1 j2 : Z).

Definition bmap_slot (bn : Z) : slot :=
  if bn <? NDIRECT then Sl_inode bn else
  let bn := bn - NDIRECT in
  if bn <? NINDIRECT then Sl_single bn else
  let bn := bn - NINDIRECT in Sl_double (bn / NINDIRECT) (bn mod NINDIRECT).

Lemma bmap_slot_inj bn bn' : bmap_slot bn = bmap_slot bn' -> bn = bn'.
Proof.
  unfold bmap_slot. change NINDIRECT with 128. unfold NDIRECT.
  repeat case_bool; zify_bool; intros E; simplify_eq; try lia.
  pose proof (Z.div_mod (bn - 11 - 128) 128). pose proof (Z.div_mod (bn' - 11 - 128) 128). lia.
Qed.

(** Which block an entry names. *)
Definition slot_val (V : Z -> list Z) (addrs : list Z) (s : slot) : Z :=
  match s with
  | Sl_inode s => addr addrs s
  | Sl_single j => entry V (addr addrs NDIRECT) j
  | Sl_double j1 j2 => entry V (entry V (addr addrs (NDIRECT + 1)) j1) j2
  end.

Lemma slot_val_block V addrs bn : slot_val V addrs (bmap_slot bn) = file_block V addrs bn.
Proof. unfold bmap_slot, file_block. by repeat case_bool. Qed.

Lemma bmap_slot_range bn :
  0 <= bn < MAXFILE ->
  match bmap_slot bn with
  | Sl_inode s => 0 <= s < NDIRECT
  | Sl_single j => 0 <= j < NINDIRECT
  | Sl_double j1 j2 => 0 <= j1 < NINDIRECT /\ 0 <= j2 < NINDIRECT
  end.
Proof.
  change MAXFILE with 16523. unfold bmap_slot. change NINDIRECT with 128. unfold NDIRECT. intros Hb.
  repeat case_bool; zify_bool; try lia.
  pose proof (Z.mod_pos_bound (bn - 11 - 128) 128). split; [|lia].
  split; [apply Z.div_pos; lia|apply Z.div_lt_upper_bound; lia].
Qed.

(** [bmap] finds the block: for a file whose addresses on the way to block [bn] are
    set, through the double-indirect block too, it returns the address recorded for
    [bn] and changes nothing but the cache. *)
Theorem bmap_finds_block k c pid L V i ip bn :
  bview k c pid [] L V -> (length L < NBUF)%nat ->
  k_icache k !! i = Some ip -> i_dev ip = ROOTDEV -> length (i_addrs ip) = NADDRS ->
  0 <= bn < MAXFILE ->
  (forall a, a ∈ path_blocks V (i_addrs ip) bn -> 0 < a < k_disksize k) ->
  file_block V (i_addrs ip) bn <> 0 ->
  exists k', bmap i bn k = Ok (file_block V (i_addrs ip) bn) k' /\ bview k' c pid [] L V /\ same k k'.
Proof.
  intros HV Hroom Hi Hd Hl Hb Hp Hf. apply (bmap_found c pid L V k [] i ip bn); auto.
  intros a Ha. split; [by apply Hp|]. apply not_elem_of_nil.
Qed.

(** The block map is one to one: the blocks of a file below [MAXFILE] go through
    entries that exist and are all different, and beyond [MAXFILE] [bmap] panics. *)
Theorem bmap_one_to_one :
  (forall i bn k, MAXFILE <= bn -> bmap i bn k = Panic "bmap: out of range") /\
  (forall bn bn', bmap_slot bn = bmap_slot bn' -> bn = bn') /\
  (forall V addrs bn, 0 <= bn < MAXFILE ->
     slot_val V addrs (bmap_slot bn) = file_block V addrs bn /\
     match bmap_slot bn with
     | Sl_inode s => 0 <= s < NDIRECT
     | Sl_single j => 0 <= j < NINDIRECT
     | Sl_double j1 j2 => 0 <= j1 < NINDIRECT /\ 0 <= j2 < NINDIRECT
     end).
Proof.
  split; [|split].
  - intros i bn k. change MAXFILE with 16523. intros Hb. unfold bmap, NDIRECT. change NINDIRECT with 128.
    by rewrite !(proj2 (Z.ltb_ge _ _)) by lia.
  - apply bmap_slot_inj.
  - intros V addrs bn Hb. split; [apply slot_val_block|by apply bmap_slot_range].
Qed.

(** ** The bitmap *)

Definition bit_clear (d : list Z) (bi : Z) : Prop := Z.land (data_byte d (bi / 8)) (bit_of bi) = 0.

Lemma scan_free_spec d n : forall bi,
  match scan_free d n bi with
  | Some r => bi <= r < bi + Z.of_nat n /\ bit_clear d r /\ forall x, bi <= x < r -> ~ bit_clear d x
  | None => forall x, bi <= x < bi + Z.of_nat n -> ~ bit_clear d x
  end.
Proof.
  induction n as [|n IH]; intros bi; cbn [scan_free]; [lia|].
  destruct (Z.eqb_spec (Z.land (data_byte d (bi / 8)) (bit_of bi)) 0) as [E|E].
  - split; [lia|]. split; [done|lia].
  - specialize (IH (bi + 1)). destruct (scan_free d n (bi + 1)) as [r|].
    + destruct IH as (H1 & H2 & H3). split; [lia|]. split; [done|]. intros x Hx.
      destruct (decide (x = bi)) as [->|]; [done|]. apply H3. lia.
    + intros x Hx. destruct (decide (x = bi)) as [->|]; [done|]. apply IH. lia.
Qed.

(** Bit [b] of the bitmap in the contents [C]. *)
Definition block_free (C : Z -> list Z) (sb : superblock) (b : Z) : Prop :=
  bit_clear (C (BBLOCK b sb)) (b mod BPB).

(** The bitmap block with the bit of block [b] set. *)
Definition mark_used (d : list Z) (b : Z) : list Z :=
  let bi := b mod BPB in
  set_byte d (bi / 8) (Z.lor (data_byte d (bi / 8)) (bit_of bi)).

Lemma length_set_byte d j v : length (set_byte d j v) = length d.
Proof. apply length_insert. Qed.

Lemma BBLOCK_chunk b bi sb : b mod BPB = 0 -> 0 <= bi < BPB -> BBLOCK (b + bi) sb = BBLOCK b sb.
Proof.
  intros Hb Hbi. unfold BBLOCK. do 2 f_equal. change BPB with 4096 in *.
  apply Z.mod_divide in Hb as [q ->]; [|lia]. rewrite Z.div_mul by lia.
  rewrite Z.add_comm, Z.div_add by lia. rewrite Z.div_small; lia.
Qed.

Lemma chunk_mod b bi : b mod BPB = 0 -> 0 <= bi < BPB -> (b + bi) mod BPB = bi.
Proof.
  intros Hb Hbi. change BPB with 4096 in *. apply Z.mod_divide in Hb as [q ->]; [|lia].
  rewrite Z.add_comm, Z_mod_plus_full. by apply Z.mod_small.
Qed.

Section Alloc.
Context (st sz : Z) (c : nat) (pid : Z) (j : nat) (sb : superblock).

(** The bitmap lies on the disk outside the log. *)
Definition bitmap_placed (k : kernel) : Prop :=
  k_sb k = sb /\ sb_size sb <= k_disksize k /\
  forall b, 0 <= b < sb_size sb -> 0 <= BBLOCK b sb < k_disksize k /\ outside st sz (BBLOCK b sb).

Lemma placed_frame k k' :
  erase_log_too k' = erase_log_too k -> bitmap_placed k -> bitmap_placed k'.
Proof.
  intros E. pose proof (f_equal k_sb E) as E1. pose proof (f_equal k_disksize E) as E2.
  simpl in E1, E2. unfold bitmap_placed. by rewrite E1, E2.
Qed.

(** Reading a block in a transaction. *)
Lemma txn_read k bs a b :
  refines st sz k c pid bs a -> 0 <= b < k_disksize k -> outside st sz b ->
  exists i k1 x k2, bread ROOTDEV b k = Ok i k1 /\ get_buf i k1 = Ok x k1 /\ b_data x = t_current a b /\
    brelse i k1 = Ok tt k2 /\ refines st sz k2 c pid bs a /\ erase_log_too k2 = erase_log_too k.
Proof.
  intros Hr Hb Ho. destruct (rf_view _ _ _ _ _ _ _ Hr) as (V & HV & HVa).
  destruct (lg_room _ _ _ _ (rf_fit _ _ _ _ _ _ _ Hr)) as [_ Hroom].
  destruct (read_block c pid bs V k [] b HV Hb ltac:(apply not_elem_of_nil) Hroom)
    as (i & k1 & x & k2 & F1 & Fx & Hx & F2 & V2 & S1 & S2).
  exists i, k1, x, k2. rewrite <- HVa by done. do 4 (split; [done|]).
  destruct S2 as (R2 & D2 & T2). split; [|exact (f_equal (set_k_log zero_log) R2)].
  destruct (erase_log _ _ R2) as [El Ed].
  destruct Hr as [_ Hd Hh Hlo Hfit Hops Hidle Hq Hten Hnone].
  split; rewrite ?El, ?D2; auto.
  - by exists V.
  - by apply (log_ok_erase st sz k).
  - by apply (loggable_erase st sz k).
Qed.

(** Changing a block in a transaction after looking at it. *)
Lemma txn_write k bs a b q d :
  refines st sz k c pid bs a -> t_ops a !! j = Some (S q) ->
  0 <= b < k_disksize k -> outside st sz b -> length d = Z.to_nat BSIZE ->
  Z.of_nat (length bs) < sz - 1 -> sz <= Z.of_nat NBUF ->
  exists i k1 x k', bread ROOTDEV b k = Ok i k1 /\ get_buf i k1 = Ok x k1 /\ b_data x = t_current a b /\
    (set_data i d ;;; log_write i ;;; brelse i) k1 = Ok tt k' /\
    refines st sz k' c pid (logged b bs) (t_update j b d a) /\ erase_log_too k' = erase_log_too k.
Proof.
  intros Hr Hj Hb Ho Hd Hn Hsz.
  destruct (txn_read k bs a b Hr Hb Ho) as (i & k1 & x & k2 & F1 & Fx & Hx & _).
  destruct (update_ok st sz k c pid bs a j q b d Hr Hj Hb Ho Hd Hn Hsz) as (k' & F & Hr' & _ & _ & _ & R).
  exists i, k1, x, k'. do 3 (split; [done|]). split; [|done].
  unfold update in F. by rewrite (bind_ok _ _ _ _ _ F1) in F.
Qed.

Definition zero_block : list Z := replicate (Z.to_nat BSIZE) 0.

(** The contents after block [r] is allocated. *)
Definition t_balloc (r : Z) (a : txn) : txn :=
  t_update j r zero_block (t_update j (BBLOCK r sb) (mark_used (t_current a (BBLOCK r sb)) r) a).

Lemma balloc_loop_ok fuel : forall k bs a b q r,
  refines st sz k c pid bs a -> t_ops a !! j = Some (S (S q)) -> bitmap_placed k ->
  Z.of_nat (length bs) + 2 <= sz - 1 -> sz <= Z.of_nat NBUF ->
  b mod BPB = 0 -> 0 <= b <= r -> r < sb_size sb -> outside st sz r ->
  block_free (t_current a) sb r -> (forall x, b <= x < r -> ~ block_free (t_current a) sb x) ->
  (r - b < Z.of_nat fuel * BPB) ->
  exists k' bs', balloc_loop fuel ROOTDEV b k = Ok r k' /\ refines st sz k' c pid bs' (t_balloc r a) /\
    (length bs' <= length bs + 2)%nat /\ erase_log_too k' = erase_log_too k.
Proof.
  induction fuel as [|fuel IH]; intros k bs a b q r Hr Hj Hpl Hn Hsz Hbm Hb Hrs Hor Hfree Hused Hfuel.
  { change BPB with 4096 in Hfuel. lia. }
  destruct Hpl as (Esb & Hds & Hbp). cbn [balloc_loop]. mget. rewrite Esb.
  rewrite (proj2 (Z.ltb_lt _ _)) by lia.
  destruct (Hbp b ltac:(lia)) as [Hbb Hob].
  pose proof (scan_free_spec (t_current a (BBLOCK b sb)) (Z.to_nat (Z.min BPB (sb_size sb - b))) 0) as Hscan.
  rewrite Z2Nat.id in Hscan by (change BPB with 4096; lia). rewrite Z.add_0_l in Hscan.
  assert (Hchunk : forall x, 0 <= x < BPB -> block_free (t_current a) sb (b + x) <-> bit_clear (t_current a (BBLOCK b sb)) x).
  { intros x Hx. unfold block_free. by rewrite BBLOCK_chunk, chunk_mod by done. }
  destruct (decide (r - b < BPB)) as [Hin|Hout].
  - assert (Ers : scan_free (t_current a (BBLOCK b sb)) (Z.to_nat (Z.min BPB (sb_size sb - b))) 0 = Some (r - b)).
    { destruct (scan_free _ _ 0) as [bi|].
      - destruct Hscan as (H1 & H2 & H3). f_equal.
        destruct (Z.lt_trichotomy bi (r - b)) as [Hlt|[->|Hgt]]; [|done|].
        + exfalso. apply (Hused (b + bi)); [lia|]. apply Hchunk; [lia|done].
        + exfalso. apply (H3 (r - b)); [lia|]. apply Hchunk; [lia|]. by replace (b + (r - b)) with r by lia.
      - exfalso. apply (Hscan (r - b)); [lia|]. apply Hchunk; [lia|]. by replace (b + (r - b)) with r by lia. }
    assert (Er : r mod BPB = r - b /\ BBLOCK r sb = BBLOCK b sb).
    { replace r with (b + (r - b)) at 1 3 by lia. rewrite chunk_mod, BBLOCK_chunk by (done || lia). done. }
    destruct Er as [Em Ebb].
    set (d := mark_used (t_current a (BBLOCK b sb)) r).
    assert (Hdl : length d = Z.to_nat BSIZE).
    { unfold d, mark_used. rewrite length_set_byte.
      destruct (rf_view _ _ _ _ _ _ _ Hr) as (V & HV & HVa). rewrite <- HVa by done. by eapply bc_length. }
    destruct (txn_write k bs a (BBLOCK b sb) (S q) d Hr Hj Hbb Hob Hdl ltac:(lia) Hsz)
      as (i & k1 & x & k2 & F1 & Fx & Hx & F2 & Hr2 & R2).
    mstep F1. mstep Fx. rewrite Hx, Ers.
    assert (Ed : set_byte (t_current a (BBLOCK b sb)) ((r - b) / 8)
                   (Z.lor (data_byte (t_current a (BBLOCK b sb)) ((r - b) / 8)) (bit_of (r - b))) = d).
    { unfold d, mark_used. by rewrite Em. }
    rewrite Ed. replace (b + (r - b)) with r by lia.
    destruct (bind_ok_inv _ _ _ _ _ F2) as ([] & ka & G1 & F2').
    destruct (bind_ok_inv _ _ _ _ _ F2') as ([] & kb & G2 & G3).
    mstep G1. mstep G2. mstep G3.
    assert (Hj2 : t_ops (t_update j (BBLOCK b sb) d a) !! j = Some (S q)).
    { simpl. by rewrite list_lookup_alter_eq, Hj. }
    assert (Hds2 : k_disksize k2 = k_disksize k) by exact (f_equal k_disksize R2).
    pose proof (length_logged (BBLOCK b sb) bs) as Hl2.
    destruct (update_ok st sz k2 c pid _ _ j q r zero_block Hr2 Hj2) as (k3 & F3 & Hr3 & _ & _ & _ & R3);
      [lia|done|apply length_replicate|lia|done|].
    change (bzero ROOTDEV r) with (update r zero_block). mstep F3.
    exists k3, (logged r (logged (BBLOCK b sb) bs)). split; [done|].
    split; [unfold t_balloc; rewrite Ebb; exact Hr3|]. split; [|congruence].
    pose proof (length_logged r (logged (BBLOCK b sb) bs)). lia.
  - assert (Ers : scan_free (t_current a (BBLOCK b sb)) (Z.to_nat (Z.min BPB (sb_size sb - b))) 0 = None).
    { destruct (scan_free _ _ 0) as [bi|]; [|done]. destruct Hscan as (H1 & H2 & _). exfalso.
      apply (Hused (b + bi)); [lia|]. apply Hchunk; [lia|done]. }
    destruct (txn_read k bs a (BBLOCK b sb) Hr Hbb Hob) as (i & k1 & x & k2 & F1 & Fx & Hx & F2 & Hr2 & R2).
    mstep F1. mstep Fx. rewrite Hx, Ers. mstep F2.
    destruct (IH k2 bs a (b + BPB) q r Hr2 Hj) as (k' & bs' & F & Hr' & Hl & R'); auto.
    + apply (placed_frame k); [done|]. exact (conj Esb (conj Hds Hbp)).
    + rewrite <- Zplus_mod_idemp_l, Hbm. done.
    + change BPB with 4096 in *. lia.
    + intros y Hy. apply Hused. change BPB with 4096 in *. lia.
    + change BPB with 4096 in *. lia.
    + exists k', bs'. split; [done|]. split; [done|]. split; [done|]. congruence.
Qed.

End Alloc.

(** [balloc] allocates the first free block: inside a transaction with room for two
    more blocks, if [r] is the lowest block whose bit is clear, [balloc] returns [r]
    with its bit set in the bitmap and the block zeroed, both through the log, and
    changes no other block. *)
Theorem balloc_first_free st sz c pid j sb k bs a q r :
  refines st sz k c pid bs a -> t_ops a !! j = Some (S (S q)) -> bitmap_placed st sz sb k ->
  Z.of_nat (length bs) + 2 <= sz - 1 -> sz <= Z.of_nat NBUF ->
  0 <= r < sb_size sb -> outside st sz r -> block_free (t_current a) sb r ->
  (forall x, 0 <= x < r -> ~ block_free (t_current a) sb x) ->
  exists k' bs', balloc ROOTDEV k = Ok r k' /\ refines st sz k' c pid bs' (t_balloc j sb r a) /\
    t_current (t_balloc j sb r a) r = zero_block /\
    (forall b, b <> r -> b <> BBLOCK r sb -> t_current (t_balloc j sb r a) b = t_current a b).
Proof.
  intros Hr Hj Hpl Hn Hsz Hrs Ho Hf Hu. unfold balloc. mget. destruct Hpl as (Esb & Hpl).
  destruct (balloc_loop_ok st sz c pid j sb (S (Z.to_nat (sb_size (k_sb k) / BPB + 1))) k bs a 0 q r)
    as (k' & bs' & F & Hr' & _); auto; try lia.
  - by split.
  - rewrite Esb. change BPB with 4096. pose proof (Z.div_mod (sb_size sb) 4096).
    pose proof (Z.mod_pos_bound (sb_size sb) 4096). assert (0 <= sb_size sb / 4096) by (apply Z.div_pos; lia). lia.
  - exists k', bs'. split; [done|]. split; [done|]. split; [apply vupd_eq|].
    intros b H1 H2. simpl. by rewrite !vupd_ne.
Qed.

(** The bitmap byte of the block that was allocated. *)
Lemma land_lor_same x m : Z.land (Z.lor x m) m = m.
Proof. apply Z.bits_inj'. intros n _. rewrite Z.land_spec, Z.lor_spec. by destruct (Z.testbit x n), (Z.testbit m n). Qed.

Lemma bit_of_pos bi : 0 < bit_of bi.
Proof.
  unfold bit_of. pose proof (Z.mod_pos_bound bi 8). rewrite Z.shiftl_mul_pow2 by lia.
  pose proof (Z.pow_pos_nonneg 2 (bi mod 8)). lia.
Qed.

Lemma data_byte_set d i v : 0 <= i < Z.of_nat (length d) -> data_byte (set_byte d i v) i = v.
Proof. intros H. unfold data_byte, set_byte. by rewrite list_lookup_insert_eq by lia. Qed.

Lemma data_byte_set_ne d i i' v : 0 <= i -> 0 <= i' -> i <> i' -> data_byte (set_byte d i v) i' = data_byte d i'.
Proof. intros. unfold data_byte, set_byte. rewrite list_lookup_insert_ne; [done|]. lia. Qed.

Lemma bits_disjoint bi bi' : bi / 8 = bi' / 8 -> bi <> bi' -> Z.land (bit_of bi) (bit_of bi') = 0.
Proof.
  intros E Hne. unfold bit_of. pose proof (Z.mod_pos_bound bi 8). pose proof (Z.mod_pos_bound bi' 8).
  pose proof (Z.div_mod bi 8). pose proof (Z.div_mod bi' 8).
  apply Z.bits_inj'. intros n Hn. rewrite Z.land_spec, Z.bits_0.
  rewrite !Z.shiftl_mul_pow2, !Z.mul_1_l by lia.
  destruct (decide (n = bi mod 8)) as [->|].
  - rewrite (Z.pow2_bits_false (bi' mod 8)) by lia. apply andb_false_r.
  - by rewrite (Z.pow2_bits_false (bi mod 8)) by lia.
Qed.

(** Marking a block used clears no other bit and sets its own. *)
Lemma mark_used_bits d b x :
  length d = Z.to_nat BSIZE -> 0 <= b -> 0 <= x < BPB ->
  bit_clear (mark_used d b) x <-> bit_clear d x /\ x <> b mod BPB.
Proof.
  intros Hd Hb Hx. unfold bit_clear, mark_used. change BPB with 4096 in *. unfold BSIZE in Hd.
  pose proof (Z.mod_pos_bound b 4096). set (bi := b mod 4096) in *.
  assert (Hi : 0 <= bi / 8 < Z.of_nat (length d)).
  { rewrite Hd. split; [apply Z.div_pos; lia|]. apply Z.div_lt_upper_bound; lia. }
  destruct (decide (x / 8 = bi / 8)) as [E|E].
  - rewrite E, data_byte_set by done. destruct (decide (x = bi)) as [->|Hne].
    + rewrite land_lor_same. pose proof (bit_of_pos bi). split; [lia|tauto].
    + rewrite Z.land_lor_distr_l, (bits_disjoint bi x) by (done || lia). rewrite Z.lor_0_r. tauto.
  - rewrite data_byte_set_ne by (try lia; apply Z.div_pos; lia). split; [|tauto].
    intros ?. split; [done|]. by intros ->.
Qed.

(** The bitmap after [balloc]: exactly one block stops being free. *)
Theorem balloc_bitmap j sb a r b :
  (forall x, length (t_current a x) = Z.to_nat BSIZE) -> 0 <= r -> 0 <= b < sb_size sb ->
  (forall x, 0 <= x < sb_size sb -> r <> BBLOCK x sb) ->
  0 <= sb_bmapstart sb -> b / BPB + sb_bmapstart sb < 2 ^ 32 -> r / BPB + sb_bmapstart sb < 2 ^ 32 ->
  block_free (t_current (t_balloc j sb r a)) sb b <-> block_free (t_current a) sb b /\ b <> r.
Proof.
  intros Hlen Hr Hb Hne Hs Hb1 Hr1. unfold block_free, t_balloc. simpl.
  change BPB with 4096 in *.
  rewrite (vupd_ne _ r) by (intros E; by apply (Hne b Hb)).
  assert (Hbb : BBLOCK b sb = BBLOCK r sb <-> b / 4096 = r / 4096).
  { unfold BBLOCK. change BPB with 4096. assert (0 <= b / 4096) by (apply Z.div_pos; lia).
    assert (0 <= r / 4096) by (apply Z.div_pos; lia). rewrite !u32_small by lia. lia. }
  pose proof (Z.mod_pos_bound b 4096). pose proof (Z.mod_pos_bound r 4096).
  pose proof (Z.div_mod b 4096). pose proof (Z.div_mod r 4096).
  destruct (decide (BBLOCK b sb = BBLOCK r sb)) as [E|E].
  - rewrite E, vupd_eq. rewrite (mark_used_bits _ r (b mod 4096)); [|done|lia|change BPB with 4096; lia].
    change BPB with 4096. apply Hbb in E. split; intros [? ?]; split; auto; intros ?; subst; lia.
  - rewrite vupd_ne by done. split; [|tauto]. intros ?. split; [done|]. intros ->. done.
Qed.

(** ** The theorems at work *)

Lemma refines_sb st sz k c pid bs a sb : refines st sz k c pid bs a -> refines st sz (set_k_sb sb k) c pid bs a.
Proof.
  intros [(V & HV & HVa) Hd Hh [] [] Ho Hi Hq Ht Hn]. split; auto; [|by split..].
  exists V. split; [|done]. apply (bc_frame k c pid [] bs V (set_k_sb sb) HV). intros. by repeat split.
Qed.

Definition small_sb : superblock := mk_superblock 1000 941 200 30 2 32 58.

Lemma small_bitmap_outside b : 0 <= b < 1000 -> BBLOCK b small_sb = 58.
Proof.
  intros Hb. unfold BBLOCK. simpl. change BPB with 4096. rewrite Z.div_small by lia. reflexivity.
Qed.

Lemma log_disk_recovered b : b <> 2 -> recover_disk 2 log_disk b = log_disk b.
Proof.
  intros Hb. apply recover_disk_out; [|done]. rewrite (proj2 log_machine_head). apply not_elem_of_nil.
Qed.

Lemma balloc_first_free_witness :
  exists k k' bs' a', refines 2 LOGSIZE k 0 7 [] a' /\ balloc ROOTDEV k = Ok 0 k' /\
    refines 2 LOGSIZE k' 0 7 bs' (t_balloc 0 small_sb 0 a').
Proof.
  destruct log_machine_init as (k0 & F0 & H0 & Hs0).
  destruct (begin_op_ok 2 LOGSIZE k0 0 7 [] _ H0) as (k1 & F1 & H1 & _ & _ & Hs1); [by vm_compute|].
  set (a := t_begin _) in H1. pose proof (refines_sb _ _ _ _ _ _ _ small_sb H1) as H2.
  destruct (balloc_first_free 2 LOGSIZE 0 7 0 small_sb (set_k_sb small_sb k1) [] a 8 0 H2 eq_refl)
    as (k' & bs' & F & Hr & _).
  - split; [reflexivity|]. cbn [k_disksize set_k_sb]. rewrite Hs1, Hs0. split; [simpl; lia|].
    simpl sb_size. intros b Hb. rewrite small_bitmap_outside by done. split; [lia|].
    apply log_machine_outside. lia.
  - vm_compute. discriminate.
  - vm_compute. discriminate.
  - simpl. lia.
  - apply log_machine_outside. lia.
  - unfold block_free, a, t_begin, idle. cbn [t_current]. rewrite small_bitmap_outside by lia.
    rewrite log_disk_recovered by lia. reflexivity.
  - intros x Hx. lia.
  - exists (set_k_sb small_sb k1), k', bs', a. split; [exact H2|]. split; [exact F|exact Hr].
Defined.

Lemma balloc_bitmap_witness :
  ~ block_free (t_current (t_balloc 0 small_sb 100 (idle log_disk))) small_sb 100 /\
  block_free (t_current (t_balloc 0 small_sb 100 (idle log_disk))) small_sb 101.
Proof.
  assert (Hne : forall x, 0 <= x < 1000 -> 100 <> BBLOCK x small_sb).
  { intros x Hx. rewrite small_bitmap_outside by done. lia. }
  split.
  - intros H. apply (balloc_bitmap 0 small_sb (idle log_disk) 100 100) in H;
      [|apply log_disk_length|lia|simpl; lia|exact Hne|simpl; lia|vm_compute; reflexivity..].
    destruct H as [_ H]. by apply H.
  - apply (balloc_bitmap 0 small_sb (idle log_disk) 100 101);
      [apply log_disk_length|lia|simpl; lia|exact Hne|simpl; lia|vm_compute; reflexivity..|].
    split; [|lia]. unfold block_free, idle. cbn [t_current]. rewrite small_bitmap_outside by lia. reflexivity.
Defined.

(** A file of 150 blocks on a disk whose block 300 is its indirect block. *)
Definition map_disk : Z -> list Z := fun b =>
  if b =? 300 then mjoin (le_bytes 4 <$> seqZ 400 128) else replicate (Z.to_nat BSIZE) 0.
Definition map_inode : inode :=
  mk_inode ROOTDEV 5 1 zero_sleeplock true T_FILE 0 0 1 70000 (seqZ 100 11 ++ [300; 0]).
Definition map_machine : kernel := set_k_icache [map_inode] (ready_on map_disk).

Lemma bmap_finds_block_witness :
  exists k', bmap 0 50 map_machine = Ok 439 k' /\ bview k' 0 7 [] [] map_disk.
Proof.
  destruct (bmap_finds_block map_machine 0 7 [] map_disk 0 map_inode 50) as (k' & F & V & _).
  - apply (bc_frame (ready_on map_disk) 0 7 [] [] map_disk (set_k_icache [map_inode])).
    + apply ready_view. intros b. unfold map_disk. by case_bool.
    + intros. by repeat split.
  - simpl. unfold NBUF. lia.
  - reflexivity.
  - reflexivity.
  - reflexivity.
  - vm_compute. split; congruence.
  - intros a Ha. vm_compute in Ha. apply list_elem_of_singleton in Ha as ->. simpl. lia.
  - vm_compute. discriminate.
  - exists k'. split; [exact F|exact V].
Defined.
