(* ===== verification/Fs.v ===== *)
(** * Fs: file contents, directories and paths (fs.c, second half)

    [readi] returns the bytes read, [writei] takes those to write; where they go to
    or come from (a kernel buffer or the memory of the process) is the caller's.
    A path and a name are the characters of the C string. *)

From S2P Require Import Prelude Bytes Kernel Sync Bio Cache Log Txn Str Inode Console Blocks.

(** ** Start-up *)

Definition iinit (dev : Z) : KM unit :=
  for_tail NINODE 0 (fun i => upd_inode i (set_i_lock initsleeplock)) ;;;
  let! sb := readsb dev in
  modify (set_k_sb sb) ;;;
  cprintln "sb: size %d nblocks %d ninodes %d nlog %d logstart %d inodestart %d bmap start %d"
    (A_int <$> [sb_size sb; sb_nblocks sb; sb_ninodes sb; sb_nlog sb; sb_logstart sb;
                sb_inodestart sb; sb_bmapstart sb]).

(** ** Reading and writing an inode *)

(** The device of an inode of type [T_DEV], if its major number has one. *)
Definition device (ip : inode) (k : kernel) : option devfn :=
  if (i_major ip <? 0) || (NDEV <=? i_major ip) then None
  else match k_devsw k !! Z.to_nat (i_major ip) with Some o => o | None => None end.

(** The loop of [readi], having read [acc]; every turn reads at least a byte. *)
Fixpoint readi_loop (fuel : nat) (i : nat) (off tot n : Z) (acc : list Z) : KM (list Z) :=
  match fuel with
  | O => ret acc
  | S fuel' =>
      if tot <? n then
        let! ip := get_inode i in
        let! blk := bmap i (off / BSIZE) in
        let! bi := bread (i_dev ip) blk in
        let m := Z.min (n - tot) (BSIZE - off mod BSIZE) in
        let! bp := get_buf bi in
        let bytes := slice (b_data bp) (Z.to_nat (off mod BSIZE)) (Z.to_nat m) in
        brelse bi ;;;
        readi_loop fuel' i (off + m) (tot + m) n (acc ++ bytes)
      else ret acc
  end.

(** [None] is the [-1] of an error. *)
Definition readi (i : nat) (off n : Z) : KM (option (list Z)) :=
  let! ip := get_inode i in
  if i_type ip =? T_DEV then
    let! k := get in
    match device ip k with
    | None => ret None
    | Some consoledev => consoleread i n
    end
  else if (i_size ip <? off) || (u32 (off + n) <? off) then ret None
  else
    let n := if i_size ip <? u32 (off + n) then i_size ip - off else n in
    let! l := readi_loop (Z.to_nat n) i off 0 n [] in
    ret (Some l).

(** The loop of [writei]; [src] is what remains to be written.  Returns the final
    offset. *)
Fixpoint writei_loop (fuel : nat) (i : nat) (off : Z) (src : list Z) : KM Z :=
  match fuel with
  | O => ret off
  | S fuel' =>
      if 0 <? Z.of_nat (length src) then
        let! ip := get_inode i in
        let! blk := bmap i (off / BSIZE) in
        let! bi := bread (i_dev ip) blk in
        let m := Z.min (Z.of_nat (length src)) (BSIZE - off mod BSIZE) in
        let! bp := get_buf bi in
        set_data bi (splice (b_data bp) (Z.to_nat (off mod BSIZE)) (take (Z.to_nat m) src)) ;;;
        log_write bi ;;;
        brelse bi ;;;
        writei_loop fuel' i (off + m) (drop (Z.to_nat m) src)
      else ret off
  end.

Definition writei (i : nat) (src : list Z) (off : Z) : KM Z :=
  let n := Z.of_nat (length src) in
  let! ip := get_inode i in
  if i_type ip =? T_DEV then
    let! k := get in
    match device ip k with
    | None => ret (-1)
    | Some consoledev => consolewrite i src
    end
  else if (i_size ip <? off) || (u32 (off + n) <? off) then ret (-1)
  else if MAXFILE * BSIZE <? u32 (off + n) then ret (-1)
  else
    let! off := writei_loop (length src) i off src in
    let! ip := get_inode i in
    (if (0 <? n) && (i_size ip <? off) then
       upd_inode i (set_i_size off) ;;;
       iupdate i
     else ret tt) ;;;
    ret n.

(** ** Directories *)

(** [strncmp(s, t, n)] on arrays of characters that end with a NUL or at their end. *)
Fixpoint cmp_chars (s t : list Z) (n : nat) : Z :=
  match n with
  | O => 0
  | S n' =>
      let p := List.hd 0 s in
      let q := List.hd 0 t in
      if negb (p =? 0) && (p =? q) then cmp_chars (List.tl s) (List.tl t) n' else u8 p - u8 q
  end.

Definition namecmp (s t : list Z) : Z := cmp_chars s t DIRSIZ.

(** [struct dirent]. *)
Record dirent : Type := mk_dirent { de_inum : Z; de_name : list Z }.

Definition get_dirent (b : list Z) : dirent := mk_dirent (get16 b 0) (slice b 2 DIRSIZ).

(** [strncpy(de.name, name, DIRSIZ)]. *)
Definition pad_name (name : list Z) : list Z :=
  take DIRSIZ name ++ replicate (DIRSIZ - length name) 0.

Definition put_dirent (de : dirent) : list Z := le_bytes 2 (de_inum de) ++ de_name de.

(** The loop of [dirlookup] over the [n] entries from [off]. *)
Fixpoint dirlookup_loop (n : nat) (dp : nat) (name : list Z) (off : Z) : KM (option (nat * Z)) :=
  match n with
  | O => ret None
  | S n' =>
      let! d := get_inode dp in
      if off <? i_size d then
        let! r := readi dp off sizeof_dirent in
        match r with
        | Some b =>
            if negb (Z.of_nat (length b) =? sizeof_dirent) then panic "dirlookup read" else
            let de := get_dirent b in
            if de_inum de =? 0 then dirlookup_loop n' dp name (off + sizeof_dirent)
            else if namecmp name (de_name de) =? 0 then
              let! ip := iget (i_dev d) (de_inum de) in
              ret (Some (ip, off))
            else dirlookup_loop n' dp name (off + sizeof_dirent)
        | None => panic "dirlookup read"
        end
      else ret None
  end.

(** The inode and the offset of the entry, [None] when there is none. *)
Definition dirlookup (dp : nat) (name : list Z) : KM (option (nat * Z)) :=
  let! d := get_inode dp in
  if negb (i_type d =? T_DIR) then panic "dirlookup not DIR" else
  dirlookup_loop (S (Z.to_nat (i_size d / sizeof_dirent + 1))) dp name 0.

(** The loop of [dirlink]: the offset of the first free entry, or of the end. *)
Fixpoint dirlink_loop (n : nat) (dp : nat) (off : Z) : KM Z :=
  match n with
  | O => ret off
  | S n' =>
      let! d := get_inode dp in
      if off <? i_size d then
        let! r := readi dp off sizeof_dirent in
        match r with
        | Some b =>
            if negb (Z.of_nat (length b) =? sizeof_dirent) then panic "dirlink read" else
            if de_inum (get_dirent b) =? 0 then ret off
            else dirlink_loop n' dp (off + sizeof_dirent)
        | None => panic "dirlink read"
        end
      else ret off
  end.

Definition dirlink (dp : nat) (name : list Z) (inum : Z) : KM Z :=
  let! r := dirlookup dp name in
  match r with
  | Some (ip, _) => iput ip ;;; ret (-1)
  | None =>
      let! d := get_inode dp in
      let! off := dirlink_loop (S (Z.to_nat (i_size d / sizeof_dirent + 1))) dp 0 in
      let! w := writei dp (put_dirent (mk_dirent inum (pad_name name))) off in
      if negb (w =? sizeof_dirent) then panic "dirlink" else ret 0
  end.

(** ** Paths *)

Fixpoint skip_slashes (path : list Z) : list Z :=
  match path with
  | c :: path' => if c =? 47 then skip_slashes path' else path
  | [] => []
  end.

(** The characters up to the next slash or the end, and the rest. *)
Fixpoint path_elem (path : list Z) : list Z * list Z :=
  match path with
  | c :: path' =>
      if c =? 47 then ([], path)
      else let '(e, rest) := path_elem path' in (c :: e, rest)
  | [] => ([], [])
  end.

(** The name copied (at most [DIRSIZ] characters) and the rest of the path. *)
Definition skipelem (path : list Z) : option (list Z * list Z) :=
  match skip_slashes path with
  | [] => None
  | path =>
      let '(e, rest) := path_elem path in
      let name := if (DIRSIZ <=? length e)%nat then take DIRSIZ e else e in
      Some (name, skip_slashes rest)
  end.

(** The loop of [namex] at inode [ip]; [fuel] bounds the elements of the path. *)
Fixpoint namex_loop (fuel : nat) (ip : nat) (path : list Z) (parent : bool) (name : list Z) :
    KM (option (nat * list Z)) :=
  match fuel with
  | O => spin
  | S fuel' =>
      match skipelem path with
      | None =>
          if parent then iput ip ;;; ret None
          else ret (Some (ip, name))
      | Some (name, path) =>
          ilock (Some ip) ;;;
          let! d := get_inode ip in
          if negb (i_type d =? T_DIR) then iunlockput ip ;;; ret None else
          if parent && bool_decide (path = []) then
            iunlock (Some ip) ;;;
            ret (Some (ip, name))
          else
            let! next := dirlookup ip name in
            match next with
            | None => iunlockput ip ;;; ret None
            | Some (next, _) => iunlockput ip ;;; namex_loop fuel' next path parent name
            end
      end
  end.

Definition namex (path : list Z) (parent : bool) : KM (option (nat * list Z)) :=
  let! ip :=
    (if bool_decide (List.hd 0 path = 47) then iget ROOTDEV ROOTINO
     else
       let! i := curproc in
       let! p := get_proc i in
       let! cwd := deref (p_cwd p) in
       idup cwd) in
  namex_loop (S (length path)) ip path parent [].

Definition namei (path : list Z) : KM (option nat) :=
  let! r := namex path false in
  ret (fst <$> r).

Definition nameiparent (path : list Z) : KM (option (nat * list Z)) := namex path true.

(** ** What a file contains *)

(** Byte [o] of the file with addresses [addrs]. *)
Definition file_byte (V : Z -> list Z) (addrs : list Z) (o : Z) : Z :=
  default 0 (V (file_block V addrs (o / BSIZE)) !! Z.to_nat (o mod BSIZE)).

(** Block [bn] of the file is there: every block on the way and the block itself. *)
Definition mapped (V : Z -> list Z) (addrs : list Z) (n bn : Z) : Prop :=
  (forall a, a ∈ path_blocks V addrs bn -> 0 < a < n) /\ 0 < file_block V addrs bn < n.

Section Read.
Context {view : kernel -> nat -> Z -> list (nat * Z) -> list Z -> (Z -> list Z) -> Prop}.
Context `{!BlockCache view}.
Context (c : nat) (pid : Z) (L : list Z) (V : Z -> list Z) (i : nat) (ip : inode).
Hypothesis Hdev : i_dev ip = ROOTDEV.
Hypothesis Haddrs : length (i_addrs ip) = NADDRS.
Hypothesis Hroom : (length L < NBUF)%nat.
Hypothesis HV512 : forall b, length (V b) = Z.to_nat BSIZE.

Lemma slice_bytes off m :
  0 <= off -> 0 <= m <= BSIZE - off mod BSIZE ->
  slice (V (file_block V (i_addrs ip) (off / BSIZE))) (Z.to_nat (off mod BSIZE)) (Z.to_nat m) =
  file_byte V (i_addrs ip) <$> seqZ off m.
Proof.
  intros Ho Hm. unfold BSIZE in *. pose proof (Z.mod_pos_bound off 512 ltac:(lia)) as Hmod.
  pose proof (Z.div_mod off 512 ltac:(lia)) as Hdm.
  apply list_eq. intros x. rewrite lookup_slice, list_lookup_fmap.
  destruct (decide (x < Z.to_nat m)%nat) as [Hx|Hx].
  - rewrite lookup_seqZ_lt by lia. simpl. unfold file_byte, BSIZE.
    assert (Eq : (off + Z.of_nat x) / 512 = off / 512).
    { symmetry. apply (Z.div_unique _ _ _ (off mod 512 + Z.of_nat x)); lia. }
    assert (Em : (off + Z.of_nat x) mod 512 = off mod 512 + Z.of_nat x).
    { symmetry. apply (Z.mod_unique _ _ (off / 512)); lia. }
    rewrite Eq, Em. replace (Z.to_nat (off mod 512 + Z.of_nat x)) with (Z.to_nat (off mod 512) + x)%nat by lia.
    destruct (lookup_lt_is_Some_2 (V (file_block V (i_addrs ip) (off / 512))) (Z.to_nat (off mod 512) + x)) as [y ->]; [|done].
    rewrite HV512. unfold BSIZE. lia.
  - rewrite lookup_seqZ_ge by lia. done.
Qed.

Lemma readi_loop_ok fuel : forall k off tot n acc,
  view k c pid [] L V -> k_icache k !! i = Some ip -> 0 <= off -> tot <= n ->
  n - tot <= Z.of_nat fuel -> off + (n - tot) <= MAXFILE * BSIZE ->
  (forall o, off <= o < off + (n - tot) -> mapped V (i_addrs ip) (k_disksize k) (o / BSIZE)) ->
  exists k', readi_loop fuel i off tot n acc k =
      Ok (acc ++ (file_byte V (i_addrs ip) <$> seqZ off (n - tot))) k' /\
    view k' c pid [] L V /\ same k k'.
Proof.
  induction fuel as [|fuel IH]; intros k off tot n acc HV Hi Ho Ht Hf Hmax Hmap; cbn [readi_loop].
  - assert (n - tot = 0) as -> by lia. exists k. rewrite app_nil_r. by repeat split.
  - destruct (Z.ltb_spec tot n) as [Hlt|Hge].
    2: { assert (n - tot = 0) as -> by lia. exists k. rewrite app_nil_r. by repeat split. }
    assert (Hgi : get_inode i k = Ok ip k) by (unfold get_inode; by rewrite Hi).
    mstep Hgi. destruct (Hmap off ltac:(lia)) as [Hp Hb].
    assert (Hbn : 0 <= off / BSIZE < MAXFILE).
    { unfold BSIZE in *. change MAXFILE with 16523 in *. split; [apply Z.div_pos; lia|].
      apply Z.div_lt_upper_bound; lia. }
    destruct (bmap_found c pid L V k [] i ip (off / BSIZE) HV Hroom Hi Hdev Haddrs Hbn)
      as (k1 & F1 & V1 & S1); [|lia|].
    { intros a Ha. split; [by apply Hp|apply not_elem_of_nil]. }
    mstep F1. rewrite Hdev. destruct (same_icache _ _ S1) as [Ei1 Ed1].
    destruct (read_block c pid L V k1 [] (file_block V (i_addrs ip) (off / BSIZE)) V1)
      as (bi & k2 & x & k3 & F2 & Fx & Hx & F3 & V3 & _ & S3); [lia|apply not_elem_of_nil|done|].
    mstep F2. mstep Fx. rewrite Hx. mstep F3. unfold BSIZE in *.
    pose proof (Z.mod_pos_bound off 512 ltac:(lia)) as Hmod.
    set (m := Z.min (n - tot) (512 - off mod 512)).
    assert (Hm : 1 <= m <= n - tot) by (unfold m; lia).
    pose proof (same_trans _ _ _ S1 S3) as S13. destruct (same_icache _ _ S13) as [Ei3 Ed3].
    rewrite slice_bytes by (unfold BSIZE, m; lia).
    destruct (IH k3 (off + m) (tot + m) n (acc ++ (file_byte V (i_addrs ip) <$> seqZ off m)) V3)
      as (k4 & F4 & V4 & S4); [by rewrite Ei3|lia..| |].
    + intros o Hoo. rewrite Ed3. apply Hmap. lia.
    + exists k4. rewrite F4. split; [|split; [done|by eapply same_trans]]. f_equal.
      rewrite <- app_assoc, <- fmap_app. do 2 f_equal.
      replace (n - (tot + m)) with (n - tot - m) by lia. replace (n - tot) with (m + (n - tot - m)) at 2 by lia.
      rewrite seqZ_app by lia. done.
Qed.

End Read.

(** C11: [readi] returns the bytes of the file: on a file (not a device) whose blocks
    are there, a read of [n] bytes from [off] returns exactly the bytes of the file
    from [off] to [off + n] or the end of the file, and changes nothing but the
    cache; a read from beyond the end is refused. *)
Theorem readi_contents k c pid L V i ip off n :
  bview k c pid [] L V -> (length L < NBUF)%nat ->
  k_icache k !! i = Some ip -> i_dev ip = ROOTDEV -> length (i_addrs ip) = NADDRS ->
  i_type ip <> T_DEV -> 0 <= i_size ip <= MAXFILE * BSIZE ->
  0 <= off -> 0 <= n -> off + n < 2 ^ 32 ->
  (forall o, 0 <= o < i_size ip -> mapped V (i_addrs ip) (k_disksize k) (o / BSIZE)) ->
  exists k', readi i off n k =
      Ok (if i_size ip <? off then None
          else Some (file_byte V (i_addrs ip) <$> seqZ off (Z.min n (i_size ip - off)))) k' /\
    bview k' c pid [] L V /\ same k k'.
Proof.
  intros HV Hroom Hi Hdev Hl Hty Hsz Ho Hn Hw Hmap. unfold readi.
  assert (Hgi : get_inode i k = Ok ip k) by (unfold get_inode; by rewrite Hi). mstep Hgi.
  rewrite (proj2 (Z.eqb_neq (i_type ip) T_DEV)) by done.
  rewrite u32_small by lia. rewrite (proj2 (Z.ltb_ge (off + n) off)), orb_false_r by lia.
  destruct (Z.ltb_spec (i_size ip) off) as [Hgt|Hle]; [exists k; split; [done|]; split; [done|by repeat split]|].
  set (n' := if i_size ip <? off + n then i_size ip - off else n).
  assert (En : n' = Z.min n (i_size ip - off)).
  { unfold n'. destruct (Z.ltb_spec (i_size ip) (off + n)); lia. }
  destruct (readi_loop_ok c pid L V i ip Hdev Hl Hroom (fun b => bview_length _ _ _ _ _ _ HV b)
              (Z.to_nat n') k off 0 n' []) as (k' & F & V' & S'); auto; try lia.
  - intros o Hoo. apply Hmap. lia.
  - mstep F. exists k'. rewrite <- En, Z.sub_0_r. by split.
Qed.

(** A 40-byte file in block 100, which holds the bytes 1, 2, 3, ... *)
Definition read_disk : Z -> list Z := fun b => if b =? 100 then (fun x => x mod 256) <$> seqZ 1 512 else replicate (Z.to_nat BSIZE) 0.
Definition read_inode : inode :=
  mk_inode ROOTDEV 5 1 zero_sleeplock true T_FILE 0 0 1 40 (100 :: replicate 12 0).
Definition read_machine : kernel := set_k_icache [read_inode] (ready_on read_disk).

Lemma readi_contents_witness :
  exists k', readi 0 30 20 read_machine = Ok (Some [31; 32; 33; 34; 35; 36; 37; 38; 39; 40]) k'.
Proof.
  destruct (readi_contents read_machine 0 7 [] read_disk 0 read_inode 30 20) as (k' & F & _).
  - apply (bc_frame (ready_on read_disk) 0 7 [] [] read_disk (set_k_icache [read_inode])).
    + apply ready_view. intros b. unfold read_disk. by case_bool.
    + intros. by repeat split.
  - simpl. unfold NBUF. lia.
  - reflexivity.
  - reflexivity.
  - reflexivity.
  - discriminate.
  - vm_compute. split; congruence.
  - lia.
  - lia.
  - lia.
  - simpl i_size. intros o Hoo. unfold BSIZE. rewrite Z.div_small by lia. split.
    + intros a Ha. apply elem_of_nil in Ha. destruct Ha.
    + vm_compute. split; reflexivity.
  - exists k'. exact F.
Defined.

(** ** Paths *)

(** The elements of a path: its pieces between slashes, each cut to [DIRSIZ]. *)
Fixpoint path_elems (fuel : nat) (path : list Z) : list (list Z) :=
  match fuel with
  | O => []
  | S fuel' => match skipelem path with None => [] | Some (e, rest) => e :: path_elems fuel' rest end
  end.

(** The reference: split at every slash and drop the empty pieces. *)
Fixpoint split_slash (path : list Z) (cur : list Z) : list (list Z) :=
  match path with
  | [] => if decide (cur = []) then [] else [cur]
  | c :: path' =>
      if c =? 47 then (if decide (cur = []) then [] else [cur]) ++ split_slash path' []
      else split_slash path' (cur ++ [c])
  end.

Lemma skip_slashes_split path : split_slash (skip_slashes path) [] = split_slash path [].
Proof.
  induction path as [|c path IH]; [done|]. simpl. destruct (c =? 47) eqn:E; [|simpl; by rewrite E].
  exact IH.
Qed.

Lemma skip_slashes_length path : (length (skip_slashes path) <= length path)%nat.
Proof. induction path as [|c path IH]; simpl; [lia|]. case_bool; simpl; lia. Qed.

Lemma path_elem_spec path : forall cur,
  let '(e, rest) := path_elem path in
  path = e ++ rest /\ (rest = [] \/ exists r, rest = 47 :: r) /\
  split_slash path cur = (if decide (cur ++ e = []) then [] else [cur ++ e]) ++ split_slash rest [].
Proof.
  induction path as [|c path IH]; intros cur; cbn [path_elem].
  - split; [done|]. split; [by left|]. simpl. rewrite !app_nil_r. by case_decide.
  - destruct (c =? 47) eqn:E.
    + split; [done|]. split; [apply Z.eqb_eq in E as ->; right; by exists path|].
      rewrite app_nil_r. cbn [split_slash]. rewrite E. rewrite (decide_True (P := [] = [])) by done.
      by case_decide.
    + specialize (IH (cur ++ [c])). destruct (path_elem path) as [e rest]. destruct IH as (-> & Hr & Hs).
      split; [done|]. split; [done|]. cbn [split_slash]. rewrite E, Hs, <- app_assoc. done.
Qed.

(** The path walk of [namex] visits the components of the path: the elements that
    repeated [skipelem] yields are the non-empty pieces of the path between slashes,
    in order, each cut to [DIRSIZ] characters, and the walk ends within as many
    steps as the path has characters. *)
Theorem skipelem_components path fuel :
  (length path < fuel)%nat -> path_elems fuel path = take DIRSIZ <$> split_slash path [].
Proof.
  revert path. induction fuel as [|fuel IH]; intros path Hf; [lia|]. cbn [path_elems]. unfold skipelem.
  rewrite <- skip_slashes_split. pose proof (skip_slashes_length path) as Hl.
  destruct (skip_slashes path) as [|c p] eqn:Es; [done|].
  assert (Hc : c =? 47 = false).
  { clear -Es. induction path as [|x path IH]; simpl in Es; [done|]. destruct (x =? 47) eqn:E; [auto|].
    by injection Es as -> ->. }
  pose proof (path_elem_spec (c :: p) []) as Hp. destruct (path_elem (c :: p)) as [e rest] eqn:Ee.
  destruct Hp as (Epath & Hrest & Hs). rewrite Hs.
  assert (He : e <> []).
  { intros ->. simpl in Ee. rewrite Hc in Ee. destruct (path_elem p). done. }
  rewrite decide_False by done. cbn [app]. rewrite fmap_cons.
  assert (En : (if (DIRSIZ <=? length e)%nat then take DIRSIZ e else e) = take DIRSIZ e).
  { destruct (Nat.leb_spec DIRSIZ (length e)); [done|]. rewrite take_ge by lia. done. }
  rewrite En, <- skip_slashes_split. f_equal. apply IH.
  pose proof (skip_slashes_length rest). apply (f_equal length) in Epath. rewrite length_app in Epath.
  destruct e; [done|]. simpl in *. lia.
Qed.

Lemma skipelem_components_witness :
  path_elems 12 [47; 47; 97; 47; 98; 98; 47; 47; 99; 47] = [[97]; [98; 98]; [99]].
Proof. rewrite skipelem_components by (simpl; lia). reflexivity. Defined.
