(* ===== verification/Mkfs.v ===== *)
(** * Mkfs: the program that builds the file system image (mkfs.c)

    The image is its sectors; [m_size] is how many have been written so far, so that reading past
    them is the error of a short [read].  The host is little-endian, as the target.  A
    failed [assert] and an access outside an array are [Fault]s, [exit(1)] after [perror] is
    [Panic].  The theorems relate the image to what the kernel reads: [Fs.file_byte] through
    [Blocks.file_block]. *)

From S2P Require Import Prelude Bytes Kernel Sync Bio Cache Log Txn Str Inode Blocks Fs.

Definition NINODES : Z := 200.

Definition nbitmap : Z := FSSIZE / (BSIZE * 8) + 1.
Definition ninodeblocks : Z := NINODES / IPB + 1.
Definition nlog : Z := LOGSIZE.
Definition nmeta : Z := 2 + nlog + ninodeblocks + nbitmap.
Definition nblocks : Z := FSSIZE - nmeta.

(** [xshort] and [xint]: the bytes of the number, lowest first, read as a number. *)
Definition xshort (x : Z) : Z := le_val (le_bytes 2 x).
Definition xint (x : Z) : Z := le_val (le_bytes 4 x).

Definition sb : superblock :=
  mk_superblock (xint FSSIZE) (xint nblocks) (xint NINODES) (xint nlog) (xint 2) (xint (2 + nlog)) (xint (2 + nlog + ninodeblocks)).

Record image : Type := mk_image { m_img : Z -> list Z; m_size : Z; freeinode : Z; freeblock : Z }.

Notation MK := (M image).

Definition assert (b : bool) : MK unit := if b then ret tt else fault "assert".

Definition wsect (sec : Z) (buf : list Z) : MK unit :=
  modify (fun m => mk_image (fun s => if s =? sec then buf else m_img m s) (Z.max (m_size m) (sec + 1)) (freeinode m) (freeblock m)).

Definition rsect (sec : Z) : MK (list Z) := fun m =>
  if sec <? m_size m then Ok (m_img m sec) m else Panic "read".

Definition winode (inum : Z) (ip : dinode) : MK unit :=
  let bn := IBLOCK inum sb in
  let! buf := rsect bn in
  wsect bn (put_dinode buf (dip_off inum) ip).

Definition rinode (inum : Z) : MK dinode :=
  let bn := IBLOCK inum sb in
  let! buf := rsect bn in
  ret (get_dinode buf (dip_off inum)).

Definition ialloc (type : Z) : MK Z :=
  let! m := get in
  let inum := freeinode m in
  modify (fun m => mk_image (m_img m) (m_size m) (freeinode m + 1) (freeblock m)) ;;;
  winode inum (mk_dinode (xshort type) 0 0 (xshort 1) (xint 0) (replicate NADDRS 0)) ;;;
  ret inum.

(** [buf[i/8] = buf[i/8] | (0x1 << (i%8))] for the first [used] blocks. *)
Fixpoint set_bits (n : nat) (i : Z) (buf : list Z) : list Z :=
  match n with
  | O => buf
  | S n' => set_bits n' (i + 1) (set_byte buf (i / 8) (Z.lor (data_byte buf (i / 8)) (Z.shiftl 1 (i mod 8))))
  end.

Definition balloc (used : Z) : MK unit :=
  assert (used <? BSIZE * 8) ;;;
  wsect (sb_bmapstart sb) (set_bits (Z.to_nat used) 0 (replicate (Z.to_nat BSIZE) 0)).

(** [freeblock++] *)
Definition take_block : MK Z := fun m =>
  Ok (freeblock m) (mk_image (m_img m) (m_size m) (freeinode m) (freeblock m + 1)).

Definition set_addr (din : dinode) (k v : Z) : dinode :=
  mk_dinode (d_type din) (d_major din) (d_minor din) (d_nlink din) (d_size din) (<[Z.to_nat k := v]> (d_addrs din)).
Definition set_size (din : dinode) (v : Z) : dinode :=
  mk_dinode (d_type din) (d_major din) (d_minor din) (d_nlink din) v (d_addrs din).

(** [if(xint(din.addrs[k]) == 0) din.addrs[k] = xint(freeblock++)] *)
Definition need_addr (din : dinode) (k : Z) : MK dinode :=
  if xint (addr (d_addrs din) k) =? 0 then let! b := take_block in ret (set_addr din k (xint b)) else ret din.

(** The sector of block [fbn], given to the file if it has none: [iappend] up to its copy. *)
Definition file_sector (din : dinode) (fbn : Z) : MK (dinode * Z) :=
  if fbn <? NDIRECT then
    let! din := need_addr din fbn in
    ret (din, xint (addr (d_addrs din) fbn))
  else
    let! din := need_addr din NDIRECT in
    let ind := xint (addr (d_addrs din) NDIRECT) in
    let! indirect := rsect ind in
    let j := fbn - NDIRECT in
    if NINDIRECT <=? j then fault "indirect" else
    let! indirect :=
      (if get32 indirect (Z.to_nat (4 * j)) =? 0 then
         let! b := take_block in
         let indirect := set32 indirect (Z.to_nat (4 * j)) (xint b) in
         wsect ind indirect ;;; ret indirect
       else ret indirect) in
    ret (din, xint (get32 indirect (Z.to_nat (4 * j)))).

(** The [while] of [iappend], with the bytes [p] still to append. *)
Fixpoint append_loop (fuel : nat) (din : dinode) (off : Z) (p : list Z) : MK (dinode * Z) :=
  match p, fuel with
  | [], _ => ret (din, off)
  | _, O => spin
  | _, S fuel' =>
      let fbn := off / BSIZE in
      assert (fbn <? MAXFILE) ;;;
      let! '(din, x) := file_sector din fbn in
      let n1 := Z.min (Z.of_nat (length p)) ((fbn + 1) * BSIZE - off) in
      let! buf := rsect x in
      wsect x (splice buf (Z.to_nat (off - fbn * BSIZE)) (take (Z.to_nat n1) p)) ;;;
      append_loop fuel' din (off + n1) (drop (Z.to_nat n1) p)
  end.

Definition iappend (inum : Z) (p : list Z) : MK unit :=
  let! din := rinode inum in
  let! '(din, off) := append_loop (length p) din (xint (d_size din)) p in
  winode inum (set_size din (xint off)).

(** ** main *)

(** [for(i = 0; i < FSSIZE; i++) wsect(i, zeroes)] *)
Fixpoint wipe (n : nat) (i : Z) : MK unit :=
  match n with
  | O => ret tt
  | S n' => wsect i (replicate (Z.to_nat BSIZE) 0) ;;; wipe n' (i + 1)
  end.

(** [memmove(buf, &sb, sizeof(sb))] on a block of zeros. *)
Definition sb_bytes : list Z :=
  le_bytes 4 (sb_size sb) ++ le_bytes 4 (sb_nblocks sb) ++ le_bytes 4 (sb_ninodes sb) ++ le_bytes 4 (sb_nlog sb) ++
  le_bytes 4 (sb_logstart sb) ++ le_bytes 4 (sb_inodestart sb) ++ le_bytes 4 (sb_bmapstart sb).
Definition sb_block : list Z := splice (replicate (Z.to_nat BSIZE) 0) 0 sb_bytes.

(** [bzero(&de, sizeof(de)); de.inum = xshort(inum); strncpy(de.name, name, DIRSIZ)] *)
Definition make_dirent (inum : Z) (name : list Z) : list Z := put_dirent (mk_dirent (xshort inum) (pad_name name)).

(** [while((cc = read(fd, buf, sizeof(buf))) > 0) iappend(inum, buf, cc)] *)
Fixpoint copy_file (fuel : nat) (inum : Z) (contents : list Z) : MK unit :=
  match contents, fuel with
  | [], _ => ret tt
  | _, O => spin
  | _, S fuel' => iappend inum (take (Z.to_nat BSIZE) contents) ;;; copy_file fuel' inum (drop (Z.to_nat BSIZE) contents)
  end.

(** [if(argv[i][0] == '_') ++argv[i]] *)
Definition skip_underscore (name : list Z) : list Z := match name with 95 :: name' => name' | _ => name end.

Section Main.

(** The files of the host: the bytes that [read] gives, [None] where [open] fails. *)
Context (host : list Z -> option (list Z)).

Definition add_file (rootino : Z) (arg : list Z) : MK unit :=
  assert (bool_decide (47 ∉ arg)) ;;;
  match host arg with
  | None => panic "open"
  | Some bytes =>
      let! inum := ialloc T_FILE in
      iappend rootino (make_dirent inum (skip_underscore arg)) ;;;
      copy_file (length bytes) inum bytes
  end.

Fixpoint add_files (rootino : Z) (args : list (list Z)) : MK unit :=
  match args with
  | [] => ret tt
  | arg :: args' => add_file rootino arg ;;; add_files rootino args'
  end.

(** The size of the root directory becomes a whole number of blocks. *)
Definition fix_root (rootino : Z) : MK unit :=
  let! din := rinode rootino in
  let off := xint (d_size din) in
  winode rootino (set_size din (xint ((off / BSIZE + 1) * BSIZE))).

(** [argv] without the name of the program; the image is opened with [O_TRUNC]. *)
Definition main (argv : list (list Z)) : MK unit :=
  match argv with
  | [] => panic "usage"
  | _ :: files =>
      modify (fun m => mk_image (m_img m) 0 1 nmeta) ;;;
      wipe (Z.to_nat FSSIZE) 0 ;;;
      wsect 1 sb_block ;;;
      let! rootino := ialloc T_DIR in
      assert (rootino =? ROOTINO) ;;;
      iappend rootino (make_dirent rootino [46]) ;;;
      iappend rootino (make_dirent rootino [46; 46]) ;;;
      add_files rootino files ;;;
      fix_root rootino ;;;
      let! m := get in
      balloc (freeblock m)
  end.

End Main.

(** ** What the image holds *)

(** To which file, and to which of its blocks ([None] for the block of addresses), a sector belongs. *)
Definition owner : Type := Z -> option (Z * option Z).

Definition own_at (b : Z) (v : Z * option Z) (own : owner) : owner := fun x => if x =? b then Some v else own x.

Definition extends (own own' : owner) : Prop := forall b v, own b = Some v -> own' b = Some v.

Record image_ok (m : image) (own : owner) : Prop := {
  io_own : forall b v, own b = Some v -> nmeta <= b < freeblock m;
  io_free : forall b, freeblock m <= b < FSSIZE -> m_img m b = replicate (Z.to_nat BSIZE) 0;
  io_length : forall b, 0 <= b < FSSIZE -> length (m_img m b) = Z.to_nat BSIZE;
  io_size : m_size m = FSSIZE;
  io_block : nmeta <= freeblock m <= FSSIZE }.

(** The most blocks that [iappend] can give a file. *)
Definition maxblocks : Z := NDIRECT + NINDIRECT.

(** The file with addresses [addrs] has its first [n] blocks, its block of addresses when
    [i], no others, and its bytes are [c] and then zeros. *)
Record holds (V : Z -> list Z) (own : owner) (inum : Z) (addrs : list Z) (n : Z) (i : bool) (c : list Z) : Prop := {
  ho_length : length addrs = NADDRS;
  ho_range : Forall (fun a => 0 <= a < 2 ^ 32) addrs;
  ho_count : 0 <= n <= maxblocks /\ (NDIRECT < n -> i = true);
  ho_data : forall k, 0 <= k < n -> own (file_block V addrs k) = Some (inum, Some k);
  ho_ind : if i then own (addr addrs NDIRECT) = Some (inum, None) else addr addrs NDIRECT = 0;
  ho_direct0 : forall k, n <= k < NDIRECT -> addr addrs k = 0;
  ho_entry0 : i = true -> forall k, n <= k < maxblocks -> NDIRECT <= k -> entry V (addr addrs NDIRECT) (k - NDIRECT) = 0;
  ho_fits : Z.of_nat (length c) <= BSIZE * n;
  ho_bytes : forall o, 0 <= o < BSIZE * n -> file_byte V addrs o = default 0 (c !! Z.to_nat o) }.

Lemma file_block_direct V addrs k : k < NDIRECT -> file_block V addrs k = addr addrs k.
Proof. intros H. unfold file_block. by rewrite (proj2 (Z.ltb_lt _ _) H). Qed.

Lemma file_block_ind V addrs k : NDIRECT <= k < maxblocks -> file_block V addrs k = entry V (addr addrs NDIRECT) (k - NDIRECT).
Proof.
  intros H. unfold file_block, maxblocks in *. destruct (Z.ltb_spec k NDIRECT); [lia|]. by destruct (Z.ltb_spec (k - NDIRECT) NINDIRECT); [|lia].
Qed.

(** A file keeps what it holds when its sectors do. *)
Lemma holds_frame V V' own own' inum addrs n i c :
  (forall b r, own b = Some (inum, r) -> own' b = Some (inum, r) /\ V' b = V b) -> holds V own inum addrs n i c -> holds V' own' inum addrs n i c.
Proof.
  intros HF [H1 H2 [H3 H3'] H4 H5 H6 H7 H8 H9].
  assert (HE : i = true -> V' (addr addrs NDIRECT) = V (addr addrs NDIRECT)) by (intros ->; by apply (HF _ _ H5)).
  assert (HB : forall k, 0 <= k < n -> file_block V' addrs k = file_block V addrs k).
  { intros k Hk. destruct (Z.lt_ge_cases k NDIRECT); [by rewrite !file_block_direct|].
    rewrite !file_block_ind by lia. unfold entry. rewrite HE; [done|]. apply H3'. lia. }
  split; [done|done|done| | |done| |done|].
  - intros k Hk. rewrite HB by done. by apply HF, H4.
  - destruct i; [by apply HF|done].
  - intros Hi k Hk Hd. unfold entry. rewrite HE by done. by apply H7.
  - intros o Ho. rewrite <- H9 by done. unfold file_byte. assert (Hk : 0 <= o / BSIZE < n).
    { split; [apply Z.div_pos; unfold BSIZE; lia|]. apply Z.div_lt_upper_bound; unfold BSIZE in *; lia. }
    rewrite HB by done. destruct (HF _ _ (H4 _ Hk)) as [_ ->]. done.
Qed.

Lemma xint_small x : 0 <= x < 2 ^ 32 -> xint x = x.
Proof. intros H. unfold xint. rewrite le_val4_bytes. by apply u32_small. Qed.

Lemma addr_range V own inum addrs n i c k : holds V own inum addrs n i c -> 0 <= addr addrs k < 2 ^ 32.
Proof.
  intros HH. unfold addr. destruct (addrs !! Z.to_nat k) eqn:E; cbn; [|lia]. pose proof (ho_range _ _ _ _ _ _ _ HH) as HR. rewrite Forall_forall in HR.
  apply HR. by eapply list_elem_of_lookup_2.
Qed.

Lemma addr_set addrs k v j : 0 <= k -> 0 <= j -> (Z.to_nat k < length addrs)%nat -> addr (<[Z.to_nat k := v]> addrs) j = if j =? k then v else addr addrs j.
Proof.
  intros Hk Hj Hl. unfold addr. destruct (Z.eqb_spec j k) as [->|Hne]; [by rewrite list_lookup_insert_eq|]. by rewrite list_lookup_insert_ne by lia.
Qed.

Lemma own_at_eq b v own : own_at b v own b = Some v.
Proof. unfold own_at. by rewrite Z.eqb_refl. Qed.
Lemma own_at_ne b v own x : x <> b -> own_at b v own x = own x.
Proof. unfold own_at. intros H. by rewrite (proj2 (Z.eqb_neq _ _) H). Qed.

(** *** A file gets a block *)

Ltac dims := unfold maxblocks, NDIRECT in *; try change NINDIRECT with 128 in *; try change BSIZE with 512 in *; lia.

Lemma owned_ne (own : owner) b x v : own b = None -> own x = Some v -> x <> b.
Proof. intros H1 H2 ->. congruence. Qed.

Lemma byte_block o n : 0 <= o < BSIZE * n -> 0 <= o / BSIZE < n.
Proof. intros Ho. unfold BSIZE in *. split; [apply Z.div_pos; lia|]. apply Z.div_lt_upper_bound; lia. Qed.

(** The bytes are the same when the blocks and their contents are. *)
Lemma same_bytes V V' own inum addrs addrs' n i c : holds V own inum addrs n i c ->
  (forall k, 0 <= k < n -> file_block V' addrs' k = file_block V addrs k /\ V' (file_block V addrs k) = V (file_block V addrs k)) ->
  forall o, 0 <= o < BSIZE * n -> file_byte V' addrs' o = default 0 (c !! Z.to_nat o).
Proof.
  intros HH HS o Ho. rewrite <- (ho_bytes _ _ _ _ _ _ _ HH) by done. unfold file_byte.
  destruct (HS (o / BSIZE)) as [-> ->]; [|done]. by apply byte_block.
Qed.

(** With one more block, of zeros. *)
Lemma more_bytes V V' own inum addrs addrs' n i c : holds V own inum addrs n i c ->
  (forall k, 0 <= k < n -> file_block V' addrs' k = file_block V addrs k /\ V' (file_block V addrs k) = V (file_block V addrs k)) ->
  V' (file_block V' addrs' n) = replicate (Z.to_nat BSIZE) 0 ->
  forall o, 0 <= o < BSIZE * (n + 1) -> file_byte V' addrs' o = default 0 (c !! Z.to_nat o).
Proof.
  intros HH HS HZ o Ho. destruct (Z.lt_ge_cases o (BSIZE * n)) as [H|H]; [apply (same_bytes V V' own inum addrs addrs' n i c); [done..|lia]|].
  pose proof (ho_fits _ _ _ _ _ _ _ HH). rewrite (lookup_ge_None_2 c) by lia. unfold file_byte.
  assert (E : o / BSIZE = n) by (unfold BSIZE in *; symmetry; apply (Z.div_unique _ _ _ (o - 512 * n)); lia). rewrite E, HZ. pose proof (Z.mod_pos_bound o BSIZE ltac:(unfold BSIZE; lia)).
  rewrite lookup_replicate_2 by lia. done.
Qed.

Lemma holds_new_direct V own inum addrs n i c b : holds V own inum addrs n i c -> n < NDIRECT -> own b = None -> 0 <= b < 2 ^ 32 -> V b = replicate (Z.to_nat BSIZE) 0 ->
  holds V (own_at b (inum, Some n) own) inum (<[Z.to_nat n := b]> addrs) (n + 1) i c.
Proof.
  intros HH Hn Hb Hr HV. pose proof HH as [H1 H2 [H3 H3'] H4 H5 H6 H7 H8 H9]. unfold maxblocks, NDIRECT in *.
  assert (Hl : (Z.to_nat n < length addrs)%nat) by (rewrite H1; unfold NADDRS, NDIRECT; lia).
  assert (HA : forall j, 0 <= j -> addr (<[Z.to_nat n := b]> addrs) j = if j =? n then b else addr addrs j) by (intros j Hj; apply addr_set; lia).
  assert (HB : forall k, 0 <= k < n -> file_block V (<[Z.to_nat n := b]> addrs) k = file_block V addrs k).
  { intros k Hk. rewrite !file_block_direct by dims. rewrite HA, (proj2 (Z.eqb_neq _ _)) by lia. done. }
  split; [by rewrite length_insert|by apply Forall_insert|split; [dims|intros; dims]| | | | |dims|].
  - intros k Hk. destruct (Z.eq_dec k n) as [->|].
    + rewrite file_block_direct, HA, Z.eqb_refl by dims. apply own_at_eq.
    + rewrite HB by lia. rewrite own_at_ne; [apply H4; lia|]. eapply owned_ne; [done|]. apply H4. lia.
  - unfold NDIRECT. rewrite HA, (proj2 (Z.eqb_neq 11 n)) by lia. destruct i; [|done]. rewrite own_at_ne; [done|]. by eapply owned_ne.
  - intros k Hk. unfold NDIRECT in Hk. rewrite HA, (proj2 (Z.eqb_neq _ _)) by lia. apply H6. lia.
  - intros Hi k Hk Hd. unfold NDIRECT in *. rewrite HA, (proj2 (Z.eqb_neq 11 n)) by lia. apply H7; [done|dims|lia].
  - apply (more_bytes V V own inum addrs _ n i c HH); [intros k Hk; split; [by apply HB|done]|]. by rewrite file_block_direct, HA, Z.eqb_refl by dims.
Qed.

Lemma get32_zeros k n : get32 (replicate n 0) k = 0.
Proof.
  unfold get32. rewrite drop_replicate, take_replicate. generalize ((4 `min` (n - k))%nat). intros j. induction j as [|j IH]; [done|]. cbn. rewrite IH. done.
Qed.

Lemma holds_new_ind V own inum addrs n c b : holds V own inum addrs n false c -> own b = None -> 0 <= b < 2 ^ 32 ->
  V b = replicate (Z.to_nat BSIZE) 0 -> holds V (own_at b (inum, None) own) inum (<[Z.to_nat NDIRECT := b]> addrs) n true c.
Proof.
  intros HH Hb Hr HV. pose proof HH as [H1 H2 [H3 H3'] H4 H5 H6 H7 H8 H9]. unfold maxblocks, NDIRECT in *.
  assert (Hl : (Z.to_nat 11 < length addrs)%nat) by (rewrite H1; unfold NADDRS, NDIRECT; lia).
  assert (Hn : n <= 11) by (destruct (Z.le_gt_cases n 11); [done|]; discriminate H3'; lia).
  assert (HA : forall j, 0 <= j -> addr (<[Z.to_nat 11 := b]> addrs) j = if j =? 11 then b else addr addrs j) by (intros j Hj; apply addr_set; lia).
  assert (HB : forall k, 0 <= k < n -> file_block V (<[Z.to_nat 11 := b]> addrs) k = file_block V addrs k).
  { intros k Hk. rewrite !file_block_direct by dims. rewrite HA, (proj2 (Z.eqb_neq _ _)) by lia. done. }
  split; [by rewrite length_insert|by apply Forall_insert|done| | | | |done|].
  - intros k Hk. rewrite HB by lia. rewrite own_at_ne; [apply H4; lia|]. eapply owned_ne; [done|]. by apply H4.
  - unfold NDIRECT. rewrite HA by lia. apply own_at_eq.
  - intros k Hk. unfold NDIRECT in Hk. rewrite HA, (proj2 (Z.eqb_neq _ _)) by lia. apply H6. unfold NDIRECT. lia.
  - intros _ k Hk Hd. unfold NDIRECT. rewrite HA by lia. unfold entry. cbn [Z.eqb Pos.eqb]. rewrite HV. apply get32_zeros.
  - apply (same_bytes V V own inum addrs _ n false c HH). intros k Hk. split; [by apply HB|done].
Qed.

Definition vset (V : Z -> list Z) (a : Z) (d : list Z) : Z -> list Z := fun s => if s =? a then d else V s.
Lemma vset_eq V a d : vset V a d a = d.
Proof. unfold vset. by rewrite Z.eqb_refl. Qed.
Lemma vset_ne V a d x : x <> a -> vset V a d x = V x.
Proof. unfold vset. intros H. by rewrite (proj2 (Z.eqb_neq _ _) H). Qed.

Lemma holds_new_entry V own inum addrs n c b : holds V own inum addrs n true c -> NDIRECT <= n < maxblocks -> own b = None -> 0 <= b < 2 ^ 32 -> V b = replicate (Z.to_nat BSIZE) 0 ->
  length (V (addr addrs NDIRECT)) = Z.to_nat BSIZE ->
  holds (vset V (addr addrs NDIRECT) (set32 (V (addr addrs NDIRECT)) (Z.to_nat (4 * (n - NDIRECT))) b)) (own_at b (inum, Some n) own) inum addrs (n + 1) true c.
Proof.
  intros HH Hn Hb Hr HV HL. pose proof HH as [H1 H2 [H3 H3'] H4 H5 H6 H7 H8 H9]. set (ib := addr addrs NDIRECT) in *. set (V' := vset _ _ _).
  unfold maxblocks, NDIRECT in *. change NINDIRECT with 128 in *. change BSIZE with 512 in *.
  assert (HE : forall j, 0 <= j < 128 -> entry V' ib j = if j =? n - 11 then b else entry V ib j).
  { intros j Hj. unfold entry, V'. rewrite vset_eq. destruct (Z.eqb_spec j (n - 11)) as [->|Hne].
    - rewrite get32_set32_eq by (rewrite HL; lia). by apply u32_small.
    - apply get32_set32_ne; [rewrite HL; lia|lia]. }
  assert (HB : forall k, 0 <= k < n -> file_block V' addrs k = file_block V addrs k).
  { intros k Hk. destruct (Z.lt_ge_cases k 11); [by rewrite !file_block_direct by dims|].
    rewrite !file_block_ind by dims. fold ib. unfold NDIRECT. rewrite HE, (proj2 (Z.eqb_neq _ _)) by lia. done. }
  split; [done|done|split; [dims|done]| | | | |dims|].
  - intros k Hk. destruct (Z.eq_dec k n) as [->|].
    + rewrite file_block_ind by dims. fold ib. unfold NDIRECT. rewrite HE, Z.eqb_refl by lia. apply own_at_eq.
    + rewrite HB by lia. rewrite own_at_ne; [apply H4; lia|]. eapply owned_ne; [done|]. apply H4. lia.
  - rewrite own_at_ne; [done|]. by eapply owned_ne.
  - intros k Hk. apply H6. unfold NDIRECT in *. lia.
  - intros _ k Hk Hd. fold ib. unfold NDIRECT in *. unfold maxblocks in Hk. change NINDIRECT with 128 in Hk. unfold NDIRECT in Hk.
    rewrite HE, (proj2 (Z.eqb_neq _ _)) by lia. apply H7; [done|dims|unfold NDIRECT; lia].
  - apply (more_bytes V V' own inum addrs addrs n true c HH).
    + intros k Hk. split; [by apply HB|]. unfold V'. rewrite vset_ne; [done|]. intros E. assert (Ek := H4 k ltac:(lia)). rewrite E, H5 in Ek. discriminate Ek.
    + rewrite file_block_ind by dims. fold ib. unfold NDIRECT. rewrite HE, Z.eqb_refl by lia. unfold V'. rewrite vset_ne; [done|]. intros E. rewrite E in Hb. congruence.
Qed.

(** *** [iappend] *)

(** What a change of one file leaves of the others. *)
Record moves (inum : Z) (m : image) (own : owner) (m' : image) (own' : owner) : Prop := {
  mv_own : forall b, b < freeblock m -> own' b = own b;
  mv_img : forall b, b < freeblock m -> (forall r, own b <> Some (inum, r)) -> m_img m' b = m_img m b;
  mv_inode : freeinode m' = freeinode m;
  mv_block : freeblock m <= freeblock m' }.

Lemma moves_refl inum m own : moves inum m own m own.
Proof. by split. Qed.

Lemma moves_trans inum m own m1 own1 m2 own2 : moves inum m own m1 own1 -> moves inum m1 own1 m2 own2 -> moves inum m own m2 own2.
Proof.
  intros [A1 A2 A3 A4] [B1 B2 B3 B4]. split; [|..|congruence|lia].
  - intros b Hb. rewrite B1, A1 by lia. done.
  - intros b Hb Hr. rewrite B2; [by apply A2|lia|]. intros r. rewrite A1 by lia. apply Hr.
Qed.

Lemma moves_others inum m own m' own' inum' addrs n i c : image_ok m own -> moves inum m own m' own' -> inum' <> inum ->
  holds (m_img m) own inum' addrs n i c -> holds (m_img m') own' inum' addrs n i c.
Proof.
  intros HI [M1 M2 M3 M4] Hne. apply holds_frame. intros b r Hb. pose proof (io_own _ _ HI _ _ Hb). rewrite M1, M2 by (lia || congruence). done.
Qed.

Notation file_ok m own inum addrs n c := (holds (m_img m) own inum addrs n (NDIRECT <? n) c).

(** The sectors of a file of [n] blocks. *)
Definition sectors (n : Z) : Z := n + (if NDIRECT <? n then 1 else 0).

Lemma owned_pos m own b v : image_ok m own -> own b = Some v -> 0 < b < FSSIZE.
Proof. intros HI Hb. pose proof (io_own _ _ HI _ _ Hb). pose proof (io_block _ _ HI). unfold nmeta, nlog, LOGSIZE, MAXOPBLOCKS, ninodeblocks, NINODES, nbitmap in *. change (200 / IPB + 1) with 26 in *. change (FSSIZE / (BSIZE * 8) + 1) with 5 in *. lia. Qed.

Lemma fresh_block m own : image_ok m own -> own (freeblock m) = None.
Proof. intros HI. destruct (own (freeblock m)) eqn:E; [|done]. apply (io_own _ _ HI) in E. lia. Qed.

Definition next_block (m : image) : image := mk_image (m_img m) (m_size m) (freeinode m) (freeblock m + 1).

Lemma take_block_ok m own v : image_ok m own -> freeblock m < FSSIZE -> image_ok (next_block m) (own_at (freeblock m) v own) /\
  forall inum, moves inum m own (next_block m) (own_at (freeblock m) v own).
Proof.
  intros [H1 H2 H3 H4 H5] Hf. split.
  - split; [|intros b Hb; apply H2; cbn in Hb; lia|done|done|cbn; lia]. intros b w. unfold own_at. cbn. destruct (Z.eqb_spec b (freeblock m)) as [->|]; [lia|]. intros Hb. apply H1 in Hb. lia.
  - intros inum. split; [|done|done|cbn; lia]. intros b Hb. apply own_at_ne. lia.
Qed.

Lemma fb_range m own : image_ok m own -> 0 <= freeblock m < 2 ^ 32.
Proof. intros HI. pose proof (io_block _ _ HI) as H. change nmeta with 63 in H. unfold FSSIZE in H. lia. Qed.

Lemma rsect_ok m own b : image_ok m own -> b < FSSIZE -> rsect b m = Ok (m_img m b) m.
Proof. intros HI Hb. unfold rsect. rewrite (io_size _ _ HI). by rewrite (proj2 (Z.ltb_lt _ _) Hb). Qed.

Definition wrote (m : image) (b : Z) (d : list Z) : image := mk_image (vset (m_img m) b d) (m_size m) (freeinode m) (freeblock m).

(** Writing a sector that is in use. *)
Lemma wsect_ok m own b d : image_ok m own -> 0 <= b < freeblock m -> length d = Z.to_nat BSIZE ->
  wsect b d m = Ok tt (wrote m b d) /\ image_ok (wrote m b d) own.
Proof.
  intros HI Hb Hd. pose proof HI as [H1 H2 H3 H4 H5]. split; [unfold wsect, modify, wrote; rewrite Z.max_l by lia; done|].
  split; [done| | |done|done]; cbn [m_img wrote freeblock]; intros x Hx.
  - rewrite vset_ne by lia. by apply H2.
  - unfold vset. destruct (x =? b); [done|by apply H3].
Qed.

Definition with_addrs (din : dinode) (addrs : list Z) : dinode :=
  mk_dinode (d_type din) (d_major din) (d_minor din) (d_nlink din) (d_size din) addrs.

Lemma with_addrs_id din : with_addrs din (d_addrs din) = din.
Proof. by destruct din. Qed.

(** Block [fbn] is there. *)
Lemma file_sector_old m own inum din fbn n c : image_ok m own -> file_ok m own inum (d_addrs din) n c -> 0 <= fbn < n -> fbn < maxblocks ->
  file_sector din fbn m = Ok (din, file_block (m_img m) (d_addrs din) fbn) m.
Proof.
  intros HI HH Hf Hm. unfold file_sector, need_addr. rewrite !(xint_small (addr _ _)) by (by eapply addr_range).
  pose proof (owned_pos _ _ _ _ HI (ho_data _ _ _ _ _ _ _ HH fbn Hf)) as Hp. destruct (Z.ltb_spec fbn NDIRECT) as [Hd|Hd].
  - rewrite file_block_direct in * by done. rewrite (proj2 (Z.eqb_neq _ _)) by lia. unfold bind, ret. by rewrite xint_small by (by eapply addr_range).
  - assert (Hi : (NDIRECT <? n) = true) by (apply Z.ltb_lt; dims). pose proof (ho_ind _ _ _ _ _ _ _ HH) as HD. rewrite Hi in HD.
    pose proof (owned_pos _ _ _ _ HI HD) as Hpi. rewrite (proj2 (Z.eqb_neq _ _)) by lia. unfold bind at 1, ret at 1.
    rewrite (xint_small (addr _ _)) by (by eapply addr_range). mstep (rsect_ok _ _ _ HI (proj2 Hpi)).
    destruct (Z.leb_spec NINDIRECT (fbn - NDIRECT)); [dims|]. rewrite file_block_ind in Hp by dims. unfold entry in Hp.
    rewrite (proj2 (Z.eqb_neq _ _)) by lia. unfold bind, ret. rewrite xint_small by (unfold FSSIZE in Hp; lia). rewrite file_block_ind by dims. done.
Qed.

(** The result of giving the file its next block. *)
Definition grown (m : image) (own : owner) (inum : Z) (din : dinode) (n : Z) (c : list Z) (o : outcome image (dinode * Z)) : Prop :=
  exists addrs' x m' own', o = Ok (with_addrs din addrs', x) m' /\ image_ok m' own' /\ file_ok m' own' inum addrs' (n + 1) c /\
    x = file_block (m_img m') addrs' n /\ moves inum m own m' own' /\ freeblock m' = freeblock m + sectors (n + 1) - sectors n.

Lemma file_sector_direct m own inum din n c : image_ok m own -> file_ok m own inum (d_addrs din) n c -> 0 <= n < NDIRECT -> freeblock m < FSSIZE ->
  grown m own inum din n c (file_sector din n m).
Proof.
  intros HI HH Hn Hr. unfold file_sector, need_addr. rewrite !(xint_small (addr _ _)) by (by eapply addr_range). destruct (Z.ltb_spec n NDIRECT); [|lia].
  rewrite (ho_direct0 _ _ _ _ _ _ _ HH) by lia. cbn [Z.eqb]. pose proof (fresh_block _ _ HI) as Hb. pose proof (fb_range _ _ HI) as Hbr.
  destruct (take_block_ok m own (inum, Some n) HI Hr) as [HI' HM]. pose proof (holds_new_direct _ _ _ _ _ _ _ _ HH ltac:(lia) Hb Hbr (io_free _ _ HI (freeblock m) ltac:(lia))) as HH'.
  exists (<[Z.to_nat n := freeblock m]> (d_addrs din)), (freeblock m), (next_block m), (own_at (freeblock m) (inum, Some n) own).
  assert (EA : addr (<[Z.to_nat n := freeblock m]> (d_addrs din)) n = freeblock m).
  { rewrite addr_set, Z.eqb_refl by (rewrite ?(ho_length _ _ _ _ _ _ _ HH); unfold NADDRS, NDIRECT in *; lia). done. }
  split; [|split; [done|]].
  - unfold bind, take_block, ret, set_addr. cbn [d_addrs]. rewrite (xint_small (freeblock m)) by done. rewrite EA. by rewrite (xint_small (freeblock m)).
  - split; [|split; [by rewrite file_block_direct, EA by lia|split; [done|]]].
    + replace (NDIRECT <? n + 1) with (NDIRECT <? n); [done|]. destruct (Z.ltb_spec NDIRECT n), (Z.ltb_spec NDIRECT (n + 1)); lia || done.
    + cbn. unfold sectors. destruct (Z.ltb_spec NDIRECT n), (Z.ltb_spec NDIRECT (n + 1)); lia.
Qed.

(** The block of addresses, given to the file if it has none. *)
Lemma need_ind m own inum din n c : image_ok m own -> file_ok m own inum (d_addrs din) n c -> NDIRECT <= n -> freeblock m < FSSIZE ->
  exists addrs' m' own', need_addr din NDIRECT m = Ok (with_addrs din addrs') m' /\ image_ok m' own' /\ holds (m_img m') own' inum addrs' n true c /\
    moves inum m own m' own' /\ freeblock m' = freeblock m + (if NDIRECT <? n then 0 else 1).
Proof.
  intros HI HH Hn Hr. unfold need_addr. rewrite !(xint_small (addr _ _)) by (by eapply addr_range). pose proof (ho_ind _ _ _ _ _ _ _ HH) as HD.
  destruct (NDIRECT <? n) eqn:Hi.
  - pose proof (owned_pos _ _ _ _ HI HD). rewrite (proj2 (Z.eqb_neq _ _)) by lia. exists (d_addrs din), m, own. rewrite with_addrs_id.
    split; [done|]. split; [done|]. split; [done|]. split; [apply moves_refl|lia].
  - rewrite HD. cbn [Z.eqb]. pose proof (fresh_block _ _ HI) as Hb. pose proof (fb_range _ _ HI) as Hbr.
    destruct (take_block_ok m own (inum, None) HI Hr) as [HI' HM].
    pose proof (holds_new_ind _ _ _ _ _ _ _ HH Hb Hbr (io_free _ _ HI (freeblock m) ltac:(lia))) as HH'.
    exists (<[Z.to_nat NDIRECT := freeblock m]> (d_addrs din)), (next_block m), (own_at (freeblock m) (inum, None) own).
    split; [|done]. unfold bind, take_block, ret, set_addr. by rewrite (xint_small (freeblock m)).
Qed.

Lemma file_sector_indirect m own inum din n c : image_ok m own -> file_ok m own inum (d_addrs din) n c -> NDIRECT <= n < maxblocks -> freeblock m + 2 <= FSSIZE ->
  grown m own inum din n c (file_sector din n m).
Proof.
  intros HI HH Hn Hr. unfold file_sector. destruct (Z.ltb_spec n NDIRECT); [lia|].
  destruct (need_ind m own inum din n c HI HH ltac:(lia) ltac:(lia)) as (addrs1 & m1 & own1 & E1 & I1 & H1 & M1 & F1). mstep E1. cbn [d_addrs with_addrs].
  rewrite (xint_small (addr _ _)) by (by eapply addr_range). set (ib := addr addrs1 NDIRECT). pose proof (ho_ind _ _ _ _ _ _ _ H1) as Hib. cbn in Hib. fold ib in Hib.
  pose proof (owned_pos _ _ _ _ I1 Hib) as Hpi. mstep (rsect_ok _ _ _ I1 (proj2 Hpi)). destruct (Z.leb_spec NINDIRECT (n - NDIRECT)); [dims|].
  pose proof (ho_entry0 _ _ _ _ _ _ _ H1 eq_refl n ltac:(lia) ltac:(lia)) as HZ. unfold entry in HZ. fold ib in HZ. rewrite HZ. cbn [Z.eqb].
  assert (Hf1 : freeblock m1 < FSSIZE) by (destruct (NDIRECT <? n); lia). pose proof (fb_range _ _ I1) as Hbr. pose proof (fresh_block _ _ I1) as Hb.
  destruct (take_block_ok m1 own1 (inum, Some n) I1 Hf1) as [I2 M2]. set (own2 := own_at _ _ own1) in *. set (d := set32 (m_img m1 ib) (Z.to_nat (4 * (n - NDIRECT))) (freeblock m1)).
  pose proof (io_length _ _ I1 ib ltac:(lia)) as HL.
  assert (HLd : length d = Z.to_nat BSIZE) by (unfold d; rewrite length_set32; [done|rewrite HL; dims]).
  destruct (wsect_ok (next_block m1) own2 ib d I2) as [E3 I3]; [pose proof (io_own _ _ I1 _ _ Hib); cbn; lia|done|].
  unfold bind at 1 2 3, take_block. fold (next_block m1). rewrite (xint_small (freeblock m1)) by done. fold d. rewrite E3. unfold ret at 1. cbn beta iota.
  exists addrs1, (freeblock m1), (wrote (next_block m1) ib d), own2.
  assert (ED : get32 d (Z.to_nat (4 * (n - NDIRECT))) = freeblock m1) by (unfold d; rewrite get32_set32_eq by (rewrite HL; dims); by apply u32_small).
  split; [unfold ret; rewrite ED, (xint_small (freeblock m1)) by done; done|]. split; [done|].
  pose proof (holds_new_entry _ _ _ _ _ _ _ H1 Hn Hb Hbr (io_free _ _ I1 (freeblock m1) ltac:(lia)) HL) as H2. fold ib d own2 in H2. assert (Hi : (NDIRECT <? n + 1) = true) by (apply Z.ltb_lt; dims). rewrite Hi.
  split; [exact H2|]. split; [|split].
  - rewrite file_block_ind by dims. unfold entry. fold ib. cbn [m_img wrote]. by rewrite vset_eq, ED.
  - apply (moves_trans _ _ _ m1 own1); [done|]. destruct (M2 inum) as [A1 A2 A3 A4]. split; [done| |done|done]. intros b Hbb Hrb. cbn [m_img wrote].
    rewrite vset_ne; [by apply A2|]. intros ->. by apply (Hrb None).
  - cbn. rewrite F1. unfold sectors. rewrite Hi. destruct (NDIRECT <? n); lia.
Qed.

Lemma file_sector_new m own inum din n c : image_ok m own -> file_ok m own inum (d_addrs din) n c -> n < maxblocks -> freeblock m + 2 <= FSSIZE ->
  grown m own inum din n c (file_sector din n m).
Proof.
  intros HI HH Hn Hr. pose proof (ho_count _ _ _ _ _ _ _ HH) as [? _]. destruct (Z.lt_ge_cases n NDIRECT).
  - apply file_sector_direct; [done|done|lia|lia].
  - apply file_sector_indirect; [done|done|lia|lia].
Qed.

(** Bytes written at the end of the last block. *)
Lemma holds_write V own inum addrs n i c q : holds V own inum addrs n i c -> BSIZE * (n - 1) <= Z.of_nat (length c) -> 0 < n ->
  Z.of_nat (length c) + Z.of_nat (length q) <= BSIZE * n -> length (V (file_block V addrs (n - 1))) = Z.to_nat BSIZE ->
  holds (vset V (file_block V addrs (n - 1)) (splice (V (file_block V addrs (n - 1))) (Z.to_nat (Z.of_nat (length c) - BSIZE * (n - 1))) q)) own inum addrs n i (c ++ q).
Proof.
  intros HH Hlo Hn Hq HL. pose proof HH as [H1 H2 [H3 H3'] H4 H5 H6 H7 H8 H9]. set (x := file_block V addrs (n - 1)) in *. set (V' := vset V x _).
  assert (Hx : own x = Some (inum, Some (n - 1))) by (apply H4; lia).
  assert (HE : i = true -> V' (addr addrs NDIRECT) = V (addr addrs NDIRECT)).
  { intros ->. apply vset_ne. intros E. rewrite E in H5. congruence. }
  assert (HB : forall k, 0 <= k < n -> file_block V' addrs k = file_block V addrs k).
  { intros k Hk. destruct (Z.lt_ge_cases k NDIRECT); [by rewrite !file_block_direct|]. rewrite !file_block_ind by lia. unfold entry. rewrite HE; [done|]. apply H3'. lia. }
  split; [done|done|done| |done|done| |rewrite length_app; lia|].
  - intros k Hk. rewrite HB by done. by apply H4.
  - intros Hi k Hk Hd. unfold entry. rewrite HE by done. by apply H7.
  - intros o Ho. assert (Hk : 0 <= o / BSIZE < n) by (by apply byte_block).
    unfold file_byte. rewrite HB by done. pose proof (Z.mod_pos_bound o BSIZE ltac:(unfold BSIZE; lia)) as Hm. pose proof (Z.div_mod o BSIZE ltac:(unfold BSIZE; lia)) as Hdm.
    change BSIZE with 512 in *. destruct (Z.eq_dec (o / 512) (n - 1)) as [E|E].
    + rewrite E. fold x. unfold V'. rewrite vset_eq, lookup_splice by (rewrite HL; lia). destruct (Z.lt_ge_cases o (Z.of_nat (length c))) as [Ho'|Ho'].
      * case_decide; [lia|]. rewrite lookup_app_l by lia. rewrite <- H9 by lia. unfold file_byte. change BSIZE with 512. by rewrite E.
      * rewrite lookup_app_r by lia. case_decide; [do 2 f_equal; lia|]. rewrite (lookup_ge_None_2 q) by lia.
        transitivity (file_byte V addrs o); [unfold file_byte; change BSIZE with 512; by rewrite E|]. rewrite H9 by lia. by rewrite lookup_ge_None_2 by lia.
    + unfold V'. rewrite vset_ne.
      * rewrite lookup_app_l by lia. rewrite <- H9 by lia. done.
      * intros Ex. pose proof (H4 _ Hk) as Ho'. rewrite Ex, Hx in Ho'. injection Ho' as ?. lia.
Qed.

Definition blocks (l : Z) : Z := (l + (BSIZE - 1)) / BSIZE.

Lemma blocks_bound l : BSIZE * (blocks l - 1) < l <= BSIZE * blocks l.
Proof. unfold blocks, BSIZE. pose proof (Z.div_mod (l + (512 - 1)) 512 ltac:(lia)). pose proof (Z.mod_pos_bound (l + (512 - 1)) 512 ltac:(lia)). lia. Qed.

Lemma blocks_is l k : BSIZE * (k - 1) < l <= BSIZE * k -> blocks l = k.
Proof. intros H. pose proof (blocks_bound l). unfold BSIZE in *. lia. Qed.

Lemma blocks_le l l' : l <= l' -> blocks l <= blocks l'.
Proof. intros H. pose proof (blocks_bound l). pose proof (blocks_bound l'). unfold BSIZE in *. lia. Qed.

Lemma sectors_mono n n' : n <= n' -> sectors n <= sectors n'.
Proof. intros H. unfold sectors. destruct (Z.ltb_spec NDIRECT n), (Z.ltb_spec NDIRECT n'); lia. Qed.

Notation file_in m own inum addrs c := (file_ok m own inum addrs (blocks (Z.of_nat (length c))) c).

(** How one file of the image changes: its addresses and its bytes. *)
Definition appended (m : image) (own : owner) (inum : Z) (c c' : list Z) (addrs' : list Z) (m' : image) (own' : owner) : Prop :=
  image_ok m' own' /\ file_in m' own' inum addrs' c' /\ moves inum m own m' own' /\
  freeblock m' = freeblock m + sectors (blocks (Z.of_nat (length c'))) - sectors (blocks (Z.of_nat (length c))).

Lemma file_sector_ok m own inum din c : image_ok m own -> file_in m own inum (d_addrs din) c -> Z.of_nat (length c) / BSIZE < maxblocks -> freeblock m + 2 <= FSSIZE ->
  exists addrs' m' own', let n := Z.of_nat (length c) / BSIZE + 1 in
    file_sector din (Z.of_nat (length c) / BSIZE) m = Ok (with_addrs din addrs', file_block (m_img m') addrs' (n - 1)) m' /\ image_ok m' own' /\
    file_ok m' own' inum addrs' n c /\ moves inum m own m' own' /\ freeblock m' = freeblock m + sectors n - sectors (blocks (Z.of_nat (length c))).
Proof.
  intros HI HH Hm Hf. set (l := Z.of_nat (length c)) in *. pose proof (Z.div_mod l BSIZE ltac:(unfold BSIZE; lia)) as Hdm. pose proof (Z.mod_pos_bound l BSIZE ltac:(unfold BSIZE; lia)) as Hmm.
  assert (H0 : 0 <= l / BSIZE) by (apply Z.div_pos; unfold BSIZE; lia).
  destruct (Z.eq_dec (l mod BSIZE) 0) as [Ez|Ez].
  - assert (En : blocks l = l / BSIZE) by (apply blocks_is; unfold BSIZE in *; lia). rewrite En in HH. rewrite En.
    destruct (file_sector_new m own inum din _ c HI HH Hm Hf) as (addrs' & x & m' & own' & E & I' & H' & -> & M' & F').
    exists addrs', m', own'. cbn zeta. rewrite Z.add_simpl_r. done.
  - assert (En : blocks l = l / BSIZE + 1) by (apply blocks_is; unfold BSIZE in *; lia). rewrite En in HH. rewrite En.
    exists (d_addrs din), m, own. cbn zeta. rewrite Z.add_simpl_r, with_addrs_id. split; [eapply file_sector_old; [done..|lia|done]|].
    split; [done|]. split; [done|]. split; [apply moves_refl|lia].
Qed.

Lemma append_step m own inum din c p : image_ok m own -> file_in m own inum (d_addrs din) c -> Z.of_nat (length c) / BSIZE < maxblocks -> freeblock m + 2 <= FSSIZE -> p <> [] ->
  let off := Z.of_nat (length c) in let fbn := off / BSIZE in let n1 := Z.min (Z.of_nat (length p)) ((fbn + 1) * BSIZE - off) in
  exists addrs' x m1 m' own', 0 < n1 /\ file_sector din fbn m = Ok (with_addrs din addrs', x) m1 /\ rsect x m1 = Ok (m_img m1 x) m1 /\
    wsect x (splice (m_img m1 x) (Z.to_nat (off - fbn * BSIZE)) (take (Z.to_nat n1) p)) m1 = Ok tt m' /\
    appended m own inum c (c ++ take (Z.to_nat n1) p) addrs' m' own'.
Proof.
  intros HI HH Hm Hf Hp off fbn n1. destruct (file_sector_ok m own inum din c HI HH Hm Hf) as (addrs' & m1 & own' & E & I1 & H1 & M1 & F1). fold off fbn in E, H1, F1.
  set (x := file_block (m_img m1) addrs' (fbn + 1 - 1)) in *. set (q := take (Z.to_nat n1) p). assert (Hlp : (length p <> 0)%nat) by (by destruct p).
  pose proof (Z.div_mod off BSIZE ltac:(unfold BSIZE; lia)) as Hdm. pose proof (Z.mod_pos_bound off BSIZE ltac:(unfold BSIZE; lia)) as Hmm. fold fbn in Hdm.
  assert (H0 : 0 <= fbn) by (apply Z.div_pos; unfold BSIZE; lia).
  assert (Hn1 : 0 < n1) by (unfold n1, BSIZE in *; lia).
  assert (Hq : Z.of_nat (length q) = n1) by (unfold q; rewrite length_take; unfold n1; lia).
  assert (Hx : own' x = Some (inum, Some (fbn + 1 - 1))) by (apply (ho_data _ _ _ _ _ _ _ H1); lia).
  pose proof (owned_pos _ _ _ _ I1 Hx) as Hpx. pose proof (io_own _ _ I1 _ _ Hx) as Hox. pose proof (io_length _ _ I1 x ltac:(lia)) as HL.
  assert (Hlen : length (splice (m_img m1 x) (Z.to_nat (off - fbn * BSIZE)) q) = Z.to_nat BSIZE) by (rewrite length_splice; [done|rewrite HL; unfold n1, BSIZE in *; lia]).
  destruct (wsect_ok m1 own' x _ I1 ltac:(lia) Hlen) as [EW IW].
  exists addrs', x, m1, (wrote m1 x (splice (m_img m1 x) (Z.to_nat (off - fbn * BSIZE)) q)), own'.
  split; [done|]. split; [done|]. split; [by eapply rsect_ok; [done|lia]|]. split; [done|].
  assert (Eb : blocks (Z.of_nat (length (c ++ q))) = fbn + 1) by (apply blocks_is; rewrite length_app; fold off; unfold n1, BSIZE in *; lia).
  split; [done|]. rewrite Eb. split; [|split].
  - cbn [m_img wrote]. replace (off - fbn * BSIZE) with (off - BSIZE * (fbn + 1 - 1)) by lia. apply holds_write; [done|fold off; unfold BSIZE in *; lia|lia|fold off; unfold n1, BSIZE in *; lia|done].
  - destruct M1 as [A1 A2 A3 A4]. split; [done| |done|done]. intros b Hb Hr. cbn [m_img wrote]. rewrite vset_ne; [by apply A2|]. intros ->. apply (Hr (Some (fbn + 1 - 1))). rewrite <- A1 by done. done.
  - cbn. rewrite F1. done.
Qed.

Lemma appended_trans m own inum c c1 c2 addrs1 addrs2 m1 own1 m2 own2 : appended m own inum c c1 addrs1 m1 own1 -> appended m1 own1 inum c1 c2 addrs2 m2 own2 ->
  appended m own inum c c2 addrs2 m2 own2.
Proof.
  intros (A1 & A2 & A3 & A4) (B1 & B2 & B3 & B4). split; [done|]. split; [done|]. split; [by eapply moves_trans|lia].
Qed.

(** The room that a file of [l] bytes takes. *)
Notation room l := (sectors (blocks (Z.of_nat l))).

Lemma room_mono l l' : (l <= l')%nat -> room l <= room l'.
Proof. intros H. apply sectors_mono, blocks_le. lia. Qed.

Lemma append_loop_ok fuel : forall m own inum din c p, image_ok m own -> file_in m own inum (d_addrs din) c ->
  Z.of_nat (length (c ++ p)) <= maxblocks * BSIZE -> freeblock m + room (length (c ++ p)) - room (length c) + 2 <= FSSIZE -> (length p <= fuel)%nat ->
  exists addrs' m' own', append_loop fuel din (Z.of_nat (length c)) p m = Ok (with_addrs din addrs', Z.of_nat (length (c ++ p))) m' /\
    appended m own inum c (c ++ p) addrs' m' own'.
Proof.
  induction fuel as [|fuel IH]; intros m own inum din c p HI HH Hmax Hfree Hfuel.
  - destruct p; [|cbn in Hfuel; lia]. rewrite app_nil_r. exists (d_addrs din), m, own. rewrite with_addrs_id. split; [done|].
    split; [done|]. split; [done|]. split; [apply moves_refl|lia].
  - destruct (decide (p = [])) as [->|Hp].
    { rewrite app_nil_r. exists (d_addrs din), m, own. rewrite with_addrs_id. split; [done|]. split; [done|]. split; [done|]. split; [apply moves_refl|lia]. }
    pose proof (room_mono (length c) (length (c ++ p)) ltac:(rewrite length_app; lia)).
    assert (Hlp : (0 < length p)%nat) by (destruct p; [done|cbn; lia]). rewrite length_app in Hmax.
    assert (Hf : Z.of_nat (length c) / BSIZE < maxblocks) by (apply Z.div_lt_upper_bound; unfold BSIZE in *; lia).
    destruct (append_step m own inum din c p HI HH Hf ltac:(lia) Hp) as (addrs1 & x & m1 & m2 & own2 & Hn1 & E1 & E2 & E3 & HA).
    set (n1 := Z.min _ _) in *. pose proof HA as (I2 & H2 & M2 & F2). set (c1 := c ++ take (Z.to_nat n1) p) in *.
    assert (Ec : c ++ p = c1 ++ drop (Z.to_nat n1) p) by (unfold c1; rewrite <- app_assoc, take_drop; done).
    assert (El : Z.of_nat (length c1) = Z.of_nat (length c) + n1) by (unfold c1; rewrite length_app, length_take; unfold n1; lia).
    destruct (IH m2 own2 inum (with_addrs din addrs1) c1 (drop (Z.to_nat n1) p) I2 H2) as (addrs' & m' & own' & E' & A').
    { rewrite <- Ec, length_app. done. }
    { rewrite <- Ec. lia. }
    { rewrite length_drop. lia. }
    exists addrs', m', own'. split; [|rewrite Ec; by eapply appended_trans].
    destruct p as [|b p']; [done|]. cbn [append_loop]. set (p := b :: p') in *. unfold assert.
    assert (HM : (Z.of_nat (length c) / BSIZE <? MAXFILE) = true) by (apply Z.ltb_lt; change MAXFILE with 16523; dims). rewrite HM.
    rewrite (bind_ok _ _ _ _ _ (eq_refl : ret tt m = Ok tt m)). mstep E1. fold n1. mstep E2. mstep E3. rewrite <- El, E', <- Ec. done.
Qed.

(** *** The inodes on the disk *)

Definition inode_at (m : image) (inum : Z) : dinode := get_dinode (m_img m (IBLOCK inum sb)) (dip_off inum).

(** The inodes that have room in the blocks of inodes. *)
Notation inum_ok inum := (0 <= inum < ninodeblocks * IPB).

Lemma sb_start : sb_inodestart sb = 32.
Proof. reflexivity. Qed.

Lemma iblock_is inum : inum_ok inum -> IBLOCK inum sb = inum / 8 + 32 /\ 32 <= IBLOCK inum sb < 58.
Proof.
  intros H. change (ninodeblocks * IPB) with 208 in H. unfold IBLOCK. rewrite sb_start. change IPB with 8.
  assert (0 <= inum / 8 < 26) by (split; [apply Z.div_pos|apply Z.div_lt_upper_bound]; lia). rewrite u32_small by lia. lia.
Qed.

Lemma dip_bound inum : (dip_off inum + 64 <= Z.to_nat BSIZE)%nat.
Proof. unfold dip_off. change IPB with 8. change sizeof_dinode with 64. pose proof (Z.mod_pos_bound inum 8 ltac:(lia)). unfold BSIZE. lia. Qed.

Lemma dip_apart inum inum' : inum_ok inum -> inum_ok inum' -> inum <> inum' -> IBLOCK inum sb = IBLOCK inum' sb ->
  (dip_off inum' + 64 <= dip_off inum \/ dip_off inum + 64 <= dip_off inum')%nat.
Proof.
  intros H H' Hne HE. destruct (iblock_is _ H) as [E _], (iblock_is _ H') as [E' _]. unfold dip_off. change IPB with 8. change sizeof_dinode with 64.
  pose proof (Z.mod_pos_bound inum 8 ltac:(lia)). pose proof (Z.mod_pos_bound inum' 8 ltac:(lia)). pose proof (Z.div_mod inum 8 ltac:(lia)). pose proof (Z.div_mod inum' 8 ltac:(lia)). lia.
Qed.

Lemma rinode_ok m own inum : image_ok m own -> inum_ok inum -> rinode inum m = Ok (inode_at m inum) m.
Proof.
  intros HI H. destruct (iblock_is _ H) as [_ Hb]. unfold rinode. mstep (rsect_ok _ _ _ HI (ltac:(unfold FSSIZE; lia) : IBLOCK inum sb < FSSIZE)). done.
Qed.

(** What [winode] does: that inode, and no other inode or sector. *)
Lemma winode_ok m own inum din : image_ok m own -> inum_ok inum -> dinode_ok din -> exists m', winode inum din m = Ok tt m' /\ image_ok m' own /\
  inode_at m' inum = din /\ (forall j, inum_ok j -> j <> inum -> inode_at m' j = inode_at m j) /\
  (forall b, ~ (32 <= b < 58) -> m_img m' b = m_img m b) /\ freeinode m' = freeinode m /\ freeblock m' = freeblock m.
Proof.
  intros HI H HD. destruct (iblock_is _ H) as [_ Hb]. unfold winode. mstep (rsect_ok _ _ _ HI (ltac:(unfold FSSIZE; lia) : IBLOCK inum sb < FSSIZE)).
  set (bn := IBLOCK inum sb) in *. set (d := put_dinode _ _ _). pose proof (io_length _ _ HI bn ltac:(unfold FSSIZE; lia)) as HL. pose proof (dip_bound inum).
  pose proof (io_block _ _ HI) as HB. change nmeta with 63 in HB.
  assert (Hd : length d = Z.to_nat BSIZE) by (unfold d; rewrite length_put_dinode; [done|apply HD|lia]). destruct (wsect_ok m own bn d HI ltac:(lia) Hd) as [E I'].
  exists (wrote m bn d). split; [done|]. split; [done|]. destruct (dinode_codec (m_img m bn) (dip_off inum) din HD ltac:(lia)) as [G1 G2].
  split; [|split; [|split; [|done]]].
  - unfold inode_at. cbn [m_img wrote]. fold bn. rewrite vset_eq. exact G1.
  - intros j Hj Hne. unfold inode_at. cbn [m_img wrote]. unfold vset. destruct (Z.eqb_spec (IBLOCK j sb) bn) as [E'|]; [|done]. rewrite E'. apply G2.
    apply dip_apart; [done|done|congruence|done].
  - intros b Hnb. cbn [m_img wrote]. apply vset_ne. lia.
Qed.

(** ** What the program builds: the type and the bytes of each file, the first with inode 1 *)

Notation contents := (list (Z * list Z)).

Fixpoint rooms (fl : contents) : Z :=
  match fl with
  | [] => 0
  | (_, c) :: fl' => room (length c) + rooms fl'
  end.

Definition zeros : list Z := replicate (Z.to_nat BSIZE) 0.

Record stored (m : image) (own : owner) (fl : contents) : Prop := {
  st_image : image_ok m own;
  st_next : freeinode m = Z.of_nat (length fl) + 1;
  st_file : forall k t c, fl !! k = Some (t, c) -> 0 <= t < 2 ^ 15 /\ exists addrs,
    inode_at m (Z.of_nat k + 1) = mk_dinode t 0 0 1 (Z.of_nat (length c)) addrs /\ file_in m own (Z.of_nat k + 1) addrs c;
  st_room : freeblock m = nmeta + rooms fl;
  st_meta : forall b, 0 <= b < nmeta -> ~ (32 <= b < 58) -> m_img m b = if b =? 1 then sb_block else zeros }.

Lemma room_nonneg l : 0 <= room l.
Proof. pose proof (blocks_le 0 (Z.of_nat l) ltac:(lia)). change (blocks 0) with 0 in *. unfold sectors. destruct (_ <? _); lia. Qed.

Lemma rooms_nonneg fl : 0 <= rooms fl.
Proof. induction fl as [|[t c] fl IH]; cbn [rooms]; [lia|]. pose proof (room_nonneg (length c)). lia. Qed.

Lemma rooms_app fl fl' : rooms (fl ++ fl') = rooms fl + rooms fl'.
Proof. induction fl as [|[t c] fl IH]; cbn [rooms app]; lia. Qed.

Lemma rooms_insert fl k t c t' c' : fl !! k = Some (t, c) -> rooms (<[k := (t', c')]> fl) = rooms fl + room (length c') - room (length c).
Proof.
  revert k. induction fl as [|[u d] fl IH]; intros k Hk; [done|]. destruct k as [|k]; cbn in Hk; [simplify_eq; cbn; lia|].
  change (room (length d) + rooms (<[k := (t', c')]> fl) = room (length d) + rooms fl + room (length c') - room (length c)). rewrite (IH _ Hk). lia.
Qed.

(** A file without blocks. *)
Lemma holds_empty V own inum : holds V own inum (replicate NADDRS 0) 0 false [].
Proof.
  assert (HA : forall k, addr (replicate NADDRS 0) k = 0).
  { intros k. unfold addr. destruct (replicate NADDRS 0 !! Z.to_nat k) eqn:E; [|done]. by apply lookup_replicate in E as [-> _]. }
  split; [apply length_replicate|by apply Forall_replicate|split; [dims|intros; dims]|intros; lia|apply HA|intros; apply HA|done|cbn; lia|intros; lia].
Qed.

Lemma ialloc_ok m own fl t : stored m own fl -> Z.of_nat (length fl) + 1 < ninodeblocks * IPB -> 0 <= t < 2 ^ 15 ->
  exists m', ialloc t m = Ok (Z.of_nat (length fl) + 1) m' /\ stored m' own (fl ++ [(t, [])]).
Proof.
  intros [S1 S2 S3 S4 S5] Hn Ht. unfold ialloc. mget. rewrite S2. unfold bind at 1, modify. set (m1 := mk_image _ _ _ _).
  assert (I1 : image_ok m1 own) by (destruct S1; by split).
  set (din := mk_dinode _ _ _ _ _ _). assert (ED : din = mk_dinode t 0 0 1 0 (replicate NADDRS 0)) by (unfold din, xshort; rewrite le_val2_bytes, u16_small by lia; done).
  destruct (winode_ok m1 own (Z.of_nat (length fl) + 1) din I1 ltac:(lia)) as (m' & E & I' & N1 & N2 & N3 & N4 & N5).
  { rewrite ED. split; [cbn; intros; lia|]. split; [cbn; lia|]. split; [done|]. by apply Forall_replicate. }
  mstep E. exists m'. split; [done|]. split; [done|rewrite N4, length_app; cbn; lia| |rewrite N5, rooms_app; change (freeblock m1) with (freeblock m); change (rooms [(t, [])]) with 0; lia|].
  - intros k t' c Hk. apply lookup_app_Some in Hk as [Hk|[Hge Hk]].
    + destruct (S3 _ _ _ Hk) as (Ht' & addrs & Ei & Hh). split; [done|]. exists addrs. pose proof (lookup_lt_Some _ _ _ Hk) as Hlt. split.
      * rewrite N2 by lia. exact Ei.
      * eapply holds_frame; [|exact Hh]. intros b r Hb. split; [done|]. rewrite N3; [done|]. pose proof (io_own _ _ S1 _ _ Hb) as Hx. change nmeta with 63 in Hx. lia.
    + apply list_lookup_singleton_Some in Hk as [Hk Hv]. injection Hv as <- <-. split; [done|]. exists (replicate NADDRS 0). replace (Z.of_nat k) with (Z.of_nat (length fl)) by lia.
      split; [by rewrite N1, ED|]. apply holds_empty.
  - intros b Hb Hi. rewrite N3 by done. by apply S5.
Qed.

Lemma iappend_ok m own fl k t c p : stored m own fl -> fl !! k = Some (t, c) -> Z.of_nat (length fl) < ninodeblocks * IPB ->
  Z.of_nat (length (c ++ p)) <= maxblocks * BSIZE -> nmeta + rooms (<[k := (t, c ++ p)]> fl) + 2 <= FSSIZE ->
  exists m' own', iappend (Z.of_nat k + 1) p m = Ok tt m' /\ stored m' own' (<[k := (t, c ++ p)]> fl).
Proof.
  intros [S1 S2 S3 S4 S5] Hk Hn Hmax Hfree. destruct (S3 _ _ _ Hk) as (Ht & addrs & Ei & Hh). pose proof (lookup_lt_Some _ _ _ Hk) as Hlt. set (inum := Z.of_nat k + 1) in *.
  rewrite (rooms_insert _ _ _ _ _ _ Hk) in Hfree. unfold iappend. mstep (rinode_ok m own inum S1 ltac:(lia)). rewrite Ei. cbn [d_size].
  assert (Hl : Z.of_nat (length (c ++ p)) < 2 ^ 32) by (revert Hmax; dims). rewrite xint_small by (rewrite length_app in Hl; lia).
  destruct (append_loop_ok (length p) m own inum (mk_dinode t 0 0 1 (Z.of_nat (length c)) addrs) c p S1 Hh Hmax ltac:(lia) ltac:(lia)) as (addrs1 & m1 & own1 & E1 & I1 & H1 & M1 & F1).
  mstep E1. unfold with_addrs, set_size. cbn [d_type d_major d_minor d_nlink d_size d_addrs]. rewrite xint_small by lia.
  destruct (winode_ok m1 own1 inum (mk_dinode t 0 0 1 (Z.of_nat (length (c ++ p))) addrs1) I1 ltac:(lia)) as (m' & E & I' & N1 & N2 & N3 & N4 & N5).
  { split; [cbn; intros; lia|]. split; [cbn; lia|]. destruct H1. done. }
  rewrite E. exists m', own1. split; [done|]. pose proof (io_block _ _ S1) as HB. change nmeta with 63 in *.
  assert (Hlow : forall b, b < 63 -> m_img m1 b = m_img m b).
  { intros b Hb. apply (mv_img _ _ _ _ _ M1); [lia|]. intros r Hr. apply (io_own _ _ S1) in Hr. change nmeta with 63 in Hr. lia. }
  assert (Hkeep : forall j a n i d, holds (m_img m1) own1 j a n i d -> holds (m_img m') own1 j a n i d).
  { intros j a n i d. apply holds_frame. intros b r Hb. split; [done|]. apply N3. apply (io_own _ _ I1) in Hb. change nmeta with 63 in Hb. lia. }
  split; [done|rewrite N4, (mv_inode _ _ _ _ _ M1), length_insert; done| |rewrite N5, F1, (rooms_insert _ _ _ _ _ _ Hk); change nmeta with 63; lia|].
  - intros j t' d Hj. destruct (decide (j = k)) as [->|Hne].
    + rewrite list_lookup_insert_eq in Hj by done. injection Hj as <- <-. split; [done|]. exists addrs1. split; [done|]. by apply Hkeep.
    + rewrite list_lookup_insert_ne in Hj by done. destruct (S3 _ _ _ Hj) as (Ht' & addrs' & Ei' & Hh'). split; [done|]. exists addrs'. pose proof (lookup_lt_Some _ _ _ Hj).
      split; [|apply Hkeep; apply (moves_others inum m own); [done|done|lia|done]]. rewrite N2 by lia. unfold inode_at in *. rewrite Hlow; [done|].
      pose proof (iblock_is (Z.of_nat j + 1) ltac:(lia)). lia.
  - intros b Hb Hi. change nmeta with 63 in Hb. rewrite N3, Hlow by lia. apply S5; [change nmeta with 63; lia|done].
Qed.

Lemma copy_file_ok fuel : forall m own fl k t c p, stored m own fl -> fl !! k = Some (t, c) -> Z.of_nat (length fl) < ninodeblocks * IPB ->
  Z.of_nat (length (c ++ p)) <= maxblocks * BSIZE -> nmeta + rooms (<[k := (t, c ++ p)]> fl) + 2 <= FSSIZE -> (length p <= fuel)%nat ->
  exists m' own', copy_file fuel (Z.of_nat k + 1) p m = Ok tt m' /\ stored m' own' (<[k := (t, c ++ p)]> fl).
Proof.
  induction fuel as [|fuel IH]; intros m own fl k t c p HS Hk Hn Hmax Hfree Hfuel.
  - destruct p; [|cbn in Hfuel; lia]. rewrite app_nil_r, list_insert_id by done. by exists m, own.
  - destruct (decide (p = [])) as [->|Hp]; [rewrite app_nil_r, list_insert_id by done; by exists m, own|].
    set (q := take (Z.to_nat BSIZE) p). set (p2 := drop (Z.to_nat BSIZE) p). assert (Ep : p = q ++ p2) by (symmetry; apply take_drop).
    pose proof (lookup_lt_Some _ _ _ Hk) as Hlt.
    destruct (iappend_ok m own fl k t c q HS Hk Hn) as (m1 & own1 & E1 & S1).
    { rewrite Ep in Hmax. rewrite !length_app in *. lia. }
    { rewrite (rooms_insert _ _ _ _ _ _ Hk) in Hfree. rewrite (rooms_insert _ _ _ _ _ _ Hk). pose proof (room_mono (length (c ++ q)) (length (c ++ p)) ltac:(rewrite Ep, !length_app; lia)). lia. }
    destruct (IH m1 own1 _ k t (c ++ q) p2 S1) as (m' & own' & E' & S').
    { by rewrite list_lookup_insert_eq. }
    { by rewrite length_insert. }
    { rewrite <- app_assoc, <- Ep. done. }
    { rewrite <- app_assoc, <- Ep, list_insert_insert_eq. done. }
    { assert (length p = length q + length p2)%nat by (rewrite Ep at 1; apply length_app). assert (length q <> 0)%nat; [|lia]. assert (length p <> 0)%nat by (by destruct p). unfold q. rewrite length_take. unfold BSIZE. lia. }
    exists m', own'. rewrite <- app_assoc, <- Ep, list_insert_insert_eq in S'. split; [|done]. destruct p as [|b p']; [done|]. cbn [copy_file]. fold q. mstep E1. exact E'.
Qed.

(** *** The whole program *)

Lemma length_make_dirent inum name : length (make_dirent inum name) = 16%nat.
Proof. unfold make_dirent, put_dirent. cbn [de_name de_inum]. rewrite length_app, length_le_bytes. unfold pad_name. rewrite length_app, length_take, length_replicate. unfold DIRSIZ. lia. Qed.

(** The entries of the files, the first of which is inode [inum]. *)
Fixpoint listing (inum : Z) (args : list (list Z)) : list Z :=
  match args with
  | [] => []
  | arg :: args' => make_dirent inum (skip_underscore arg) ++ listing (inum + 1) args'
  end.

Lemma length_listing args : forall inum, length (listing inum args) = (16 * length args)%nat.
Proof. induction args as [|arg args IH]; intros inum; cbn [listing length]; [done|]. rewrite length_app, length_make_dirent, IH. lia. Qed.

Lemma assert_true b (m : image) : b = true -> assert b m = Ok tt m.
Proof. by intros ->. Qed.

Section Host.

Context (host : list Z -> option (list Z)).

Definition arg_ok (arg : list Z) : Prop := 47 ∉ arg /\ exists bytes, host arg = Some bytes /\ Z.of_nat (length bytes) <= maxblocks * BSIZE.

Definition bytes_of (arg : list Z) : list Z := default [] (host arg).

Definition files_of (args : list (list Z)) : list (Z * list Z) := (fun arg => (T_FILE, bytes_of arg)) <$> args.

(** The directory has room for the entries of all the inodes. *)
Lemma dir_fits (fl : list (Z * list Z)) (l : nat) : Z.of_nat (length fl) < ninodeblocks * IPB -> (l <= 16 * (length fl + 1))%nat -> Z.of_nat l <= maxblocks * BSIZE.
Proof. change (ninodeblocks * IPB) with 208. change (maxblocks * BSIZE) with 71168. lia. Qed.

Lemma add_file_ok m own dir rest arg : stored m own ((T_DIR, dir) :: rest) -> arg_ok arg -> Z.of_nat (length rest) + 2 < ninodeblocks * IPB ->
  length dir = (16 * (length rest + 2))%nat ->
  let fl := (T_DIR, dir ++ make_dirent (Z.of_nat (length rest) + 2) (skip_underscore arg)) :: rest ++ [(T_FILE, bytes_of arg)] in
  nmeta + rooms fl + 2 <= FSSIZE -> exists m' own', add_file host 1 arg m = Ok tt m' /\ stored m' own' fl.
Proof.
  intros HS (Hs & bytes & Hh & Hb) Hn Hd. unfold bytes_of. rewrite Hh. change (default [] (Some bytes)) with bytes. set (fl := (T_DIR, _) :: rest ++ _). intros Hfree. unfold add_file. rewrite (bind_ok _ _ _ _ _ (assert_true _ m (bool_decide_eq_true_2 _ Hs))).
  rewrite Hh. set (e := make_dirent _ _) in fl. assert (He : length e = 16%nat) by apply length_make_dirent.
  destruct (ialloc_ok _ _ _ T_FILE HS) as (m1 & E1 & S1); [cbn [length]; lia|unfold T_FILE; lia|].
  mstep E1. cbn [length]. replace (Z.of_nat (S (length rest)) + 1) with (Z.of_nat (length rest) + 2) by lia. fold e.
  cbn [app] in S1. set (fl1 := (T_DIR, dir) :: rest ++ [(T_FILE, [])]) in *. assert (L1 : length fl1 = (length rest + 2)%nat) by (unfold fl1; cbn [length]; rewrite length_app; cbn; lia).
  assert (R1 : rooms fl = rooms fl1 + room (length bytes) + room (length (dir ++ e)) - room (length dir)).
  { unfold fl, fl1. cbn [rooms]. rewrite !rooms_app. cbn [rooms length]. change (room 0) with 0. lia. }
  destruct (iappend_ok m1 own fl1 0 T_DIR dir e S1 eq_refl) as (m2 & own2 & E2 & S2).
  { lia. }
  { apply (dir_fits fl1); rewrite ?length_app; lia. }
  { rewrite (rooms_insert fl1 0 T_DIR dir T_DIR _ eq_refl). pose proof (room_nonneg (length bytes)). lia. }
  mstep E2. change (<[0%nat := (T_DIR, dir ++ e)]> fl1) with ((T_DIR, dir ++ e) :: rest ++ [(T_FILE, [])]) in S2. set (fl2 := _ :: rest ++ _) in S2.
  assert (K2 : fl2 !! S (length rest) = Some (T_FILE, [])) by (change ((rest ++ [(T_FILE, [])]) !! length rest = Some (T_FILE, [])); rewrite lookup_app_r, Nat.sub_diag by lia; done).
  assert (EI : <[S (length rest) := (T_FILE, [] ++ bytes)]> fl2 = fl).
  { change ((T_DIR, dir ++ e) :: <[length rest := (T_FILE, bytes)]> (rest ++ [(T_FILE, [])]) = fl). rewrite insert_app_r_alt, Nat.sub_diag by lia. done. }
  destruct (copy_file_ok (length bytes) m2 own2 fl2 _ _ [] bytes S2 K2) as (m3 & own3 & E3 & S3).
  { unfold fl2. cbn [length]. rewrite length_app. cbn. lia. }
  { done. }
  { rewrite EI. done. }
  { done. }
  rewrite EI in S3. exists m3, own3. split; [|done]. rewrite <- E3. f_equal. lia.
Qed.

Lemma add_files_ok args : forall m own dir rest, stored m own ((T_DIR, dir) :: rest) -> Forall arg_ok args ->
  Z.of_nat (length rest) + Z.of_nat (length args) + 1 < ninodeblocks * IPB -> length dir = (16 * (length rest + 2))%nat ->
  let fl := (T_DIR, dir ++ listing (Z.of_nat (length rest) + 2) args) :: rest ++ files_of args in
  nmeta + rooms fl + 2 <= FSSIZE -> exists m' own', add_files host 1 args m = Ok tt m' /\ stored m' own' fl.
Proof.
  induction args as [|arg args IH]; intros m own dir rest HS HF Hn Hd fl Hfree.
  - exists m, own. unfold fl. cbn. by rewrite !app_nil_r.
  - apply Forall_cons in HF as [Ha HF]. cbn [length] in Hn. set (e := make_dirent (Z.of_nat (length rest) + 2) (skip_underscore arg)).
    set (dir1 := dir ++ e). set (rest1 := rest ++ [(T_FILE, bytes_of arg)]).
    assert (L1 : length rest1 = S (length rest)) by (unfold rest1; rewrite length_app; cbn; lia).
    assert (Efl : fl = (T_DIR, dir1 ++ listing (Z.of_nat (length rest1) + 2) args) :: rest1 ++ files_of args).
    { unfold fl, dir1, rest1. rewrite <- !app_assoc, length_app. cbn [length]. replace (Z.of_nat (length rest + 1) + 2) with (Z.of_nat (length rest) + 2 + 1) by lia. done. }
    destruct (add_file_ok m own dir rest arg HS Ha ltac:(lia) Hd) as (m1 & own1 & E1 & S1).
    { fold e dir1 rest1. rewrite Efl in Hfree. cbn [rooms] in Hfree |- *. rewrite rooms_app in Hfree. pose proof (rooms_nonneg (files_of args)).
      pose proof (room_mono (length dir1) (length (dir1 ++ listing (Z.of_nat (length rest1) + 2) args)) ltac:(rewrite length_app; lia)). lia. }
    fold e dir1 rest1 in S1. destruct (IH m1 own1 dir1 rest1 S1 HF) as (m' & own' & E' & S').
    { lia. }
    { unfold dir1. rewrite length_app, L1. unfold e. rewrite length_make_dirent. lia. }
    { rewrite <- Efl. done. }
    exists m', own'. cbn [add_files]. mstep E1. rewrite E'. rewrite <- Efl in S'. done.
Qed.

End Host.

Lemma wipe_ok n : forall i m, 0 <= i -> exists m', wipe n i m = Ok tt m' /\ (forall b, m_img m' b = if (i <=? b) && (b <? i + Z.of_nat n) then zeros else m_img m b) /\
  m_size m' = (if n is O then m_size m else Z.max (m_size m) (i + Z.of_nat n)) /\ freeinode m' = freeinode m /\ freeblock m' = freeblock m.
Proof.
  induction n as [|n IH]; intros i m Hi.
  - exists m. split; [done|]. split; [|done]. intros b. destruct (Z.leb_spec i b), (Z.ltb_spec b (i + Z.of_nat 0)); cbn; done || lia.
  - cbn [wipe]. unfold bind at 1, wsect at 1, modify at 1. set (m1 := mk_image _ _ _ _). destruct (IH (i + 1) m1 ltac:(lia)) as (m' & E & HB & HS & HI & HF).
    exists m'. split; [done|]. split; [|split; [|done]].
    + intros b. rewrite HB. cbn [m_img m1]. destruct (Z.leb_spec (i + 1) b), (Z.ltb_spec b (i + 1 + Z.of_nat n)), (Z.leb_spec i b), (Z.ltb_spec b (i + Z.of_nat (S n))), (Z.eqb_spec b i); cbn; done || lia.
    + rewrite HS. cbn [m_size m1]. destruct n; lia.
Qed.

(** The disk before any file: zeros and the superblock. *)
Lemma fresh_disk_ok m0 : exists m1 m2, wipe (Z.to_nat FSSIZE) 0 (mk_image (m_img m0) 0 1 nmeta) = Ok tt m1 /\ wsect 1 sb_block m1 = Ok tt m2 /\ stored m2 (fun _ => None) [].
Proof.
  destruct (wipe_ok (Z.to_nat FSSIZE) 0 (mk_image (m_img m0) 0 1 nmeta) ltac:(lia)) as (m1 & E & HB & HS & HI & HF). rewrite Z2Nat.id in HB by (unfold FSSIZE; lia).
  assert (HS1 : m_size m1 = FSSIZE) by (rewrite HS; destruct (Z.to_nat FSSIZE) eqn:EF; unfold FSSIZE in *; cbn [m_size]; lia).
  exists m1, (wrote m1 1 sb_block). split; [done|]. split; [unfold wsect, modify, wrote; rewrite HS1; done|].
  assert (HZ : forall b, 0 <= b < FSSIZE -> m_img (wrote m1 1 sb_block) b = if b =? 1 then sb_block else zeros).
  { intros b Hb. cbn [m_img wrote]. unfold vset. destruct (Z.eqb_spec b 1); [done|]. rewrite HB, (proj2 (Z.leb_le 0 b)), (proj2 (Z.ltb_lt b (0 + FSSIZE))) by lia. reflexivity. }
  assert (HF1 : freeblock (wrote m1 1 sb_block) = 63) by (cbn [freeblock wrote]; rewrite HF; done).
  split; [|by cbn [freeinode wrote]; rewrite HI|done|by rewrite HF1|].
  - split; [done| | |done|rewrite HF1; unfold FSSIZE; change nmeta with 63; lia].
    + intros b Hb. rewrite HF1 in Hb. rewrite HZ by lia. by rewrite (proj2 (Z.eqb_neq b 1)) by lia.
    + intros b Hb. rewrite HZ by done. destruct (b =? 1); [reflexivity|apply length_replicate].
  - intros b Hb Hi. apply HZ. change nmeta with 63 in Hb. unfold FSSIZE. lia.
Qed.

Lemma set_bits_clear n : forall i d x, length d = Z.to_nat BSIZE -> 0 <= i -> i + Z.of_nat n <= BPB -> 0 <= x < BPB ->
  length (set_bits n i d) = Z.to_nat BSIZE /\ (bit_clear (set_bits n i d) x <-> bit_clear d x /\ ~ (i <= x < i + Z.of_nat n)).
Proof.
  induction n as [|n IH]; intros i d x Hd Hi Hn Hx.
  - split; [done|]. cbn [set_bits]. intuition lia.
  - cbn [set_bits]. assert (Em : i mod BPB = i) by (apply Z.mod_small; lia).
    assert (EM : set_byte d (i / 8) (Z.lor (data_byte d (i / 8)) (Z.shiftl 1 (i mod 8))) = mark_used d i) by (unfold mark_used; cbn zeta; rewrite Em; done).
    rewrite EM. pose proof (mark_used_bits d i x Hd Hi Hx) as HM. rewrite Em in HM.
    destruct (IH (i + 1) (mark_used d i) x) as [L1 L2]; [unfold mark_used; by rewrite length_set_byte|lia|lia|done|]. split; [done|]. rewrite L2, HM. clear. split; intros [A B]; [|split; [split|]]; intuition lia.
Qed.

Lemma zeros_clear x : bit_clear zeros x.
Proof. unfold bit_clear, data_byte. destruct (zeros !! Z.to_nat (x / 8)) as [v|] eqn:E; [|done]. by apply lookup_replicate in E as [-> _]. Qed.

Lemma bblock_is b : 0 <= b < FSSIZE -> BBLOCK b sb = b / 4096 + 58 /\ 58 <= BBLOCK b sb < 63.
Proof.
  intros Hb. unfold BBLOCK. change (sb_bmapstart sb) with 58. change BPB with 4096. assert (0 <= b / 4096 < 5) by (unfold FSSIZE in Hb; split; [apply Z.div_pos; lia|apply Z.div_lt_upper_bound; lia]).
  rewrite u32_small by lia. lia.
Qed.

(** The bitmap: the blocks below [used], and no others. *)
Lemma bitmap_ok m own : image_ok m own -> (forall b, 58 < b < 63 -> m_img m b = zeros) -> freeblock m < BSIZE * 8 -> exists m', balloc (freeblock m) m = Ok tt m' /\ image_ok m' own /\
  (forall b, b <> 58 -> m_img m' b = m_img m b) /\ freeblock m' = freeblock m /\ forall b, 0 <= b < FSSIZE -> block_free (m_img m') sb b <-> freeblock m <= b.
Proof.
  intros S1 S5 Hf. pose proof (io_block _ _ S1) as HB. change nmeta with 63 in HB. unfold balloc. rewrite (bind_ok _ _ _ _ _ (assert_true _ m (proj2 (Z.ltb_lt _ _) Hf))).
  change (sb_bmapstart sb) with 58. set (d := set_bits _ _ _).
  assert (HD : forall x, 0 <= x < BPB -> length d = Z.to_nat BSIZE /\ (bit_clear d x <-> freeblock m <= x)).
  { intros x Hx. destruct (set_bits_clear (Z.to_nat (freeblock m)) 0 zeros x) as [L1 L2]; [apply length_replicate|lia|unfold BPB in *; lia|done|]. split; [done|].
    unfold d. fold zeros. rewrite L2. pose proof (zeros_clear x). split; [intros [_ ?]; lia|]. intros; split; [done|lia]. }
  destruct (HD 0 ltac:(unfold BPB, BSIZE; lia)) as [Ld _]. destruct (wsect_ok m own 58 d S1 ltac:(lia) Ld) as [E I']. exists (wrote m 58 d). split; [done|]. split; [done|].
  split; [intros b Hb; by apply vset_ne|]. split; [done|]. intros b Hb. destruct (bblock_is b Hb) as [Eb Hb']. unfold block_free. rewrite Eb in *. cbn [m_img wrote].
  pose proof (Z.mod_pos_bound b BPB ltac:(unfold BPB, BSIZE; lia)) as Hm. pose proof (Z.div_mod b 4096 ltac:(lia)) as Hdm. change BPB with 4096 in *. change (BSIZE * 8) with 4096 in Hf.
  destruct (Z.eq_dec (b / 4096) 0) as [E0|E0].
  - rewrite E0. change (0 + 58) with 58. rewrite vset_eq. destruct (HD _ Hm) as [_ ->]. rewrite E0 in Hdm. lia.
  - rewrite vset_ne by lia. rewrite S5 by lia. pose proof (zeros_clear (b mod 4096)). split; [lia|done].
Qed.

(** A file of the disk as the kernel finds it: its inode, blocks of its own, its bytes and zeros to the end of its last block. *)
Definition disk_file (m : image) (own : owner) (inum type size : Z) (c : list Z) : Prop :=
  exists addrs, inode_at m inum = mk_dinode type 0 0 1 size addrs /\
    (forall k, 0 <= k < blocks (Z.of_nat (length c)) -> own (file_block (m_img m) addrs k) = Some (inum, Some k)) /\
    (forall o, 0 <= o < BSIZE * blocks (Z.of_nat (length c)) -> file_byte (m_img m) addrs o = default 0 (c !! Z.to_nat o)).

Lemma holds_disk m own inum type size addrs c : inode_at m inum = mk_dinode type 0 0 1 size addrs -> file_in m own inum addrs c -> disk_file m own inum type size c.
Proof. intros E H. exists addrs. split; [done|]. split; [exact (ho_data _ _ _ _ _ _ _ H)|exact (ho_bytes _ _ _ _ _ _ _ H)]. Qed.

Lemma disk_holds_frame m m' own inum type size c : image_ok m own -> 1 <= inum < ninodeblocks * IPB -> (forall b, b <> 58 -> m_img m' b = m_img m b) ->
  forall addrs, inode_at m inum = mk_dinode type 0 0 1 size addrs -> file_in m own inum addrs c -> disk_file m' own inum type size c.
Proof.
  intros HI Hn HB addrs E H. apply (holds_disk m' own inum type size addrs); [|].
  - unfold inode_at in *. rewrite HB; [done|]. pose proof (iblock_is inum ltac:(lia)). lia.
  - eapply holds_frame; [|exact H]. intros b r Hb. split; [done|]. apply HB. apply (io_own _ _ HI) in Hb. change nmeta with 63 in Hb. lia.
Qed.

(** The last two steps: the size of the root directory and the bitmap. *)
Lemma finish_ok m own dir rest : stored m own ((T_DIR, dir) :: rest) -> Z.of_nat (length rest) + 1 < ninodeblocks * IPB -> Z.of_nat (length dir) < 2 ^ 20 -> freeblock m < BSIZE * 8 ->
  exists m1 m', fix_root 1 m = Ok tt m1 /\ balloc (freeblock m1) m1 = Ok tt m' /\
    (forall b, b <> 58 -> ~ (32 <= b < 58) -> m_img m' b = m_img m b) /\ freeblock m' = freeblock m /\
    disk_file m' own 1 T_DIR ((Z.of_nat (length dir) / BSIZE + 1) * BSIZE) dir /\
    (forall k t c, rest !! k = Some (t, c) -> disk_file m' own (Z.of_nat k + 2) t (Z.of_nat (length c)) c) /\
    forall b, 0 <= b < FSSIZE -> block_free (m_img m') sb b <-> freeblock m <= b.
Proof.
  intros HS Hn Hd Hf. pose proof HS as [S1 S2 S3 S4 S5]. destruct (S3 0%nat _ _ eq_refl) as (_ & addrs & E0 & H0). change (Z.of_nat 0 + 1) with 1 in *.
  unfold fix_root. rewrite (bind_ok _ _ _ _ _ (rinode_ok m own 1 S1 ltac:(lia))), E0. cbn [d_size]. rewrite (xint_small (Z.of_nat (length dir))) by lia.
  set (l := Z.of_nat (length dir)) in *. set (sz := (l / BSIZE + 1) * BSIZE).
  assert (Hsz : 0 <= sz < 2 ^ 32) by (pose proof (Z.div_mod l BSIZE ltac:(unfold BSIZE; lia)); pose proof (Z.mod_pos_bound l BSIZE ltac:(unfold BSIZE; lia)); unfold sz, BSIZE in *; lia).
  rewrite xint_small by done. unfold set_size. cbn [d_type d_major d_minor d_nlink d_addrs].
  destruct (winode_ok m own 1 (mk_dinode T_DIR 0 0 1 sz addrs) S1 ltac:(lia)) as (m1 & E1 & I1 & N1 & N2 & N3 & N4 & N5).
  { split; [cbn; unfold T_DIR; intros; lia|]. split; [done|]. destruct H0. done. }
  assert (Hkeep : forall j a n i d, holds (m_img m) own j a n i d -> holds (m_img m1) own j a n i d).
  { intros j a n i d. apply holds_frame. intros b r Hb. split; [done|]. apply N3. apply (io_own _ _ S1) in Hb. change nmeta with 63 in Hb. lia. }
  destruct (bitmap_ok m1 own I1) as (m' & E' & I' & B1 & B2 & B3).
  { intros b Hb. rewrite N3 by lia. rewrite S5 by (change nmeta with 63; lia). by rewrite (proj2 (Z.eqb_neq b 1)) by lia. }
  { lia. }
  exists m1, m'. split; [done|]. split; [done|]. split; [intros b Hb Hb'; rewrite B1, N3 by done; done|]. split; [lia|]. split; [|split].
  - apply (disk_holds_frame m1 m' own 1 T_DIR sz dir I1 ltac:(lia) B1 addrs N1). by apply Hkeep.
  - intros k t c Hk. destruct (S3 (S k) t c Hk) as (_ & a & Ea & Ha). replace (Z.of_nat (S k) + 1) with (Z.of_nat k + 2) in * by lia. pose proof (lookup_lt_Some _ _ _ Hk).
    apply (disk_holds_frame m1 m' own (Z.of_nat k + 2) t _ c I1 ltac:(lia) B1 a); [rewrite N2 by lia; exact Ea|by apply Hkeep].
  - intros b Hb. rewrite B3 by done. lia.
Qed.

(** The root directory: itself, its parent and the files. *)
Definition directory (args : list (list Z)) : list Z := make_dirent 1 [46] ++ make_dirent 1 [46; 46] ++ listing 2 args.

(** C12: mkfs writes a file system that holds exactly the given files: the superblock that the kernel decodes, an empty log, a root directory of the entries of the files (and free entries up to its size), every file under its inode number with its type, size and bytes, in blocks that no other file has, and a bitmap that marks the blocks up to the last one used and no others. *)
Theorem mkfs_builds (host : list Z -> option (list Z)) (img : list Z) (args : list (list Z)) (m0 : image) :
  Forall (arg_ok host) args -> Z.of_nat (length args) + 1 < ninodeblocks * IPB ->
  nmeta + rooms ((T_DIR, directory args) :: files_of host args) < BSIZE * 8 ->
  exists m own, main host (img :: args) m0 = Ok tt m /\ decode_sb (m_img m 1) = sb /\ m_img m (sb_logstart sb) = zeros /\
    disk_file m own ROOTINO T_DIR ((Z.of_nat (length (directory args)) / BSIZE + 1) * BSIZE) (directory args) /\
    (forall i arg, args !! i = Some arg -> disk_file m own (Z.of_nat i + 2) T_FILE (Z.of_nat (length (bytes_of host arg))) (bytes_of host arg)) /\
    (forall b v, own b = Some v -> nmeta <= b < freeblock m) /\
    (forall b, 0 <= b < FSSIZE -> block_free (m_img m) sb b <-> freeblock m <= b).
Proof.
  intros HF Hn Hroom. unfold main. unfold bind at 1, modify at 1. destruct (fresh_disk_ok m0) as (m1 & m2 & E1 & E2 & S2).
  rewrite (bind_ok _ _ _ _ _ E1), (bind_ok _ _ _ _ _ E2). destruct (ialloc_ok m2 _ [] T_DIR S2 eq_refl ltac:(unfold T_DIR; lia)) as (m3 & E3 & S3).
  rewrite (bind_ok _ _ _ _ _ E3). change (Z.of_nat (length (@nil (Z * list Z))) + 1) with (Z.of_nat 0 + 1). rewrite (bind_ok _ _ _ _ _ (assert_true _ m3 (eq_refl : (Z.of_nat 0 + 1 =? ROOTINO) = true))).
  set (e1 := make_dirent (Z.of_nat 0 + 1) [46]). set (e2 := make_dirent (Z.of_nat 0 + 1) [46; 46]).
  destruct (iappend_ok m3 _ [(T_DIR, [])] 0 T_DIR [] e1 S3 eq_refl eq_refl) as (m4 & own4 & E4 & S4); [by vm_compute|by vm_compute|]. rewrite (bind_ok _ _ _ _ _ E4).
  destruct (iappend_ok m4 own4 [(T_DIR, e1)] 0 T_DIR e1 e2 S4 eq_refl eq_refl) as (m5 & own5 & E5 & S5); [by vm_compute|by vm_compute|]. rewrite (bind_ok _ _ _ _ _ E5).
  assert (ED : directory args = (e1 ++ e2) ++ listing 2 args) by (unfold directory; by rewrite <- app_assoc).
  destruct (add_files_ok host args m5 own5 (e1 ++ e2) [] S5 HF) as (m6 & own6 & E6 & S6).
  { cbn [length]. lia. }
  { reflexivity. }
  { change (Z.of_nat (length (@nil (Z * list Z))) + 2) with 2. rewrite <- ED. unfold FSSIZE. change (BSIZE * 8) with 4096 in Hroom. cbn [app]. lia. }
  rewrite (bind_ok _ _ _ _ _ E6). change (Z.of_nat (length (@nil (Z * list Z))) + 2) with 2 in S6. rewrite <- ED in S6. cbn [app] in S6.
  destruct (finish_ok m6 own6 (directory args) (files_of host args) S6) as (m7 & m8 & E7 & E8 & B1 & B2 & B3 & B4 & B5).
  { unfold files_of. rewrite length_fmap. lia. }
  { rewrite ED, length_app, length_listing. change (length (e1 ++ e2)) with 32%nat. change (ninodeblocks * IPB) with 208 in Hn. lia. }
  { rewrite (st_room _ _ _ S6). done. }
  rewrite (bind_ok _ _ _ _ _ E7). unfold bind at 1, get at 1. exists m8, own6. split; [exact E8|].
  pose proof (st_meta _ _ _ S6) as HM. split; [rewrite B1, HM by (try change nmeta with 63; lia); reflexivity|].
  split; [change (sb_logstart sb) with 2; rewrite B1, HM by (try change nmeta with 63; lia); reflexivity|]. split; [exact B3|]. split; [|split].
  - intros i arg Hi. apply (B4 i T_FILE). unfold files_of. rewrite list_lookup_fmap, Hi. done.
  - intros b v Hb. rewrite B2. by apply (io_own _ _ (st_image _ _ _ S6) b v).
  - intros b Hb. rewrite B2. by apply B5.
Qed.

Lemma mkfs_builds_witness : exists m own, main (fun _ => Some (replicate 600 7)) [[105]; [95; 97]; [98]] (mk_image (fun _ => []) 0 0 0) = Ok tt m /\
  disk_file m own 3 T_FILE 600 (replicate 600 7).
Proof.
  destruct (mkfs_builds (fun _ => Some (replicate 600 7)) [105] [[95; 97]; [98]] (mk_image (fun _ => []) 0 0 0)) as (m & own & E & _ & _ & _ & HF & _).
  - repeat constructor; try (exists (replicate 600 7); split; [reflexivity|vm_compute; discriminate]); intros H; repeat (apply elem_of_cons in H as [H|H]; [discriminate H|]); by apply elem_of_nil in H.
  - reflexivity.
  - vm_compute. reflexivity.
  - exists m, own. split; [exact E|]. exact (HF 1%nat [98] eq_refl).
Defined.

(** The loop of [iappend] checks a block number against [MAXFILE], which counts the blocks of the doubly indirect block too, but only knows the first block of addresses: past it the access to [indirect] is out of bounds. *)
Lemma file_sector_past m own inum din n c fbn : image_ok m own -> file_ok m own inum (d_addrs din) n c -> NDIRECT < n -> maxblocks <= fbn < MAXFILE ->
  file_sector din fbn m = Fault "indirect".
Proof.
  intros HI HH Hn Hf. unfold file_sector, need_addr. rewrite !(xint_small (addr _ _)) by (by eapply addr_range).
  destruct (Z.ltb_spec fbn NDIRECT); [dims|]. pose proof (ho_ind _ _ _ _ _ _ _ HH) as HD. rewrite (proj2 (Z.ltb_lt _ _) Hn) in HD. pose proof (owned_pos _ _ _ _ HI HD) as Hpi.
  rewrite (proj2 (Z.eqb_neq _ _)) by lia. unfold bind at 1, ret at 1. rewrite (xint_small (addr _ _)) by (by eapply addr_range). mstep (rsect_ok _ _ _ HI (proj2 Hpi)).
  destruct (Z.leb_spec NINDIRECT (fbn - NDIRECT)); [done|dims].
Qed.

(** [ialloc] does not check the number either: the first inode past the blocks of inodes lies in the bitmap. *)
Lemma inode_past_end : IBLOCK (ninodeblocks * IPB) sb = sb_bmapstart sb.
Proof. reflexivity. Qed.
