(* ===== verification/Kbd.v ===== *)
(** * Kbd: the keyboard (kbd.c, kbd.h) and the serial port's input (uart.c)

    [kbdgetc] turns the scan codes of the controller into characters; its static
    variable [shift] is the state.  The tables are those of kbd.h; reading past the end of
    one is a [Fault].  A read of the
    ports is an input: [None] when the status says that there is no data. *)

From S2P Require Import Prelude Bytes Kernel Sync Console.

Definition SHIFT : Z := 1.
Definition CTL : Z := 2.
Definition ALT : Z := 4.
Definition CAPSLOCK : Z := 8.
Definition NUMLOCK : Z := 16.
Definition SCROLLLOCK : Z := 32.
Definition E0ESC : Z := 64.

(** A 256-entry table: its first entries, then designated ones, the rest 0. *)
Definition patch (low : list Z) (ents : list (Z * Z)) : list Z :=
  foldl (fun l e => <[Z.to_nat (fst e) := snd e]> l) (low ++ replicate (256 - length low) 0) ents.
Definition sparse (ents : list (Z * Z)) : list Z := patch [] ents.

Definition shiftcode : list Z := sparse [(0x1D, 2); (0x2A, 1); (0x36, 1); (0x38, 4); (0x9D, 2); (0xB8, 4)].

Definition togglecode : list Z := sparse [(0x3A, 8); (0x45, 16); (0x46, 32)].

Definition normalmap : list Z := patch
  [0; 27; 49; 50; 51; 52; 53; 54; 55; 56; 57; 48; 45; 61; 8; 9;
   113; 119; 101; 114; 116; 121; 117; 105; 111; 112; 91; 93; 10; 0; 97; 115;
   100; 102; 103; 104; 106; 107; 108; 59; 39; 96; 0; 92; 122; 120; 99; 118;
   98; 110; 109; 44; 46; 47; 0; 42; 0; 32; 0; 0; 0; 0; 0; 0;
   0; 0; 0; 0; 0; 0; 0; 55; 56; 57; 45; 52; 53; 54; 43; 49;
   50; 51; 48; 46; 0; 0; 0; 0]
  [(0x97, 224); (0x9C, 10); (0xB5, 47); (0xC8, 226); (0xC9, 230); (0xCB, 228); (0xCD, 229); (0xCF, 225); (0xD0, 227); (0xD1, 231); (0xD2, 232); (0xD3, 233)].

Definition shiftmap : list Z := patch
  [0; 27; 33; 64; 35; 36; 37; 94; 38; 42; 40; 41; 95; 43; 8; 9;
   81; 87; 69; 82; 84; 89; 85; 73; 79; 80; 123; 125; 10; 0; 65; 83;
   68; 70; 71; 72; 74; 75; 76; 58; 34; 126; 0; 124; 90; 88; 67; 86;
   66; 78; 77; 60; 62; 63; 0; 42; 0; 32; 0; 0; 0; 0; 0; 0;
   0; 0; 0; 0; 0; 0; 0; 55; 56; 57; 45; 52; 53; 54; 43; 49;
   50; 51; 48; 46; 0; 0; 0; 0]
  [(0x97, 224); (0x9C, 10); (0xB5, 47); (0xC8, 226); (0xC9, 230); (0xCB, 228); (0xCD, 229); (0xCF, 225); (0xD0, 227); (0xD1, 231); (0xD2, 232); (0xD3, 233)].

Definition ctlmap : list Z := patch
  [0; 0; 0; 0; 0; 0; 0; 0; 0; 0; 0; 0; 0; 0; 0; 0;
   17; 23; 5; 18; 20; 25; 21; 9; 15; 16; 0; 0; 13; 0; 1; 19;
   4; 6; 7; 8; 10; 11; 12; 0; 0; 0; 0; 28; 26; 24; 3; 22;
   2; 14; 13; 0; 0; 239; 0; 0; 0; 0; 0; 0; 0; 0; 0; 0;
   0; 0; 0; 0; 0; 0; 0; 0; 0; 0; 0; 0; 0; 0; 0; 0;
   0; 0; 0; 0; 0; 0; 0; 0]
  [(0x97, 224); (0x9C, 13); (0xB5, 239); (0xC8, 226); (0xC9, 230); (0xCB, 228); (0xCD, 229); (0xCF, 225); (0xD0, 227); (0xD1, 231); (0xD2, 232); (0xD3, 233)].

(** [t[i]]: a read outside the table is a fault. *)
Definition at8 (t : list Z) (i : Z) : M Z Z :=
  if i <? 0 then fault "table" else deref (t !! Z.to_nat i).

(** The static [charcode] table of tables. *)
Definition charcode : list (list Z) := [normalmap; shiftmap; ctlmap; ctlmap].

(** [shift op= v] on the static variable. *)
Definition shift_upd (f : Z -> Z) : M Z unit := modify (fun shift => u32 (f shift)).

(** [c] with the case of a letter swapped. *)
Definition swap_case (c : Z) : Z :=
  if (97 <=? c) && (c <=? 122) then u32 (c + (65 - 97))
  else if (65 <=? c) && (c <=? 90) then u32 (c + (97 - 65))
  else c.

(** The state is the static [shift], the argument what the ports hold. *)
Definition kbdgetc (port : option Z) : M Z Z :=
  match port with
  | None => ret (-1)
  | Some data =>
      let! shift := get in
      if data =? 0xE0 then shift_upd (Z.lor E0ESC) ;;; ret 0
      else if has data 0x80 then
        let data := if has shift E0ESC then data else Z.land data 0x7F in
        let! sc := at8 shiftcode data in
        shift_upd (fun shift => Z.land shift (Z.lnot (Z.lor sc E0ESC))) ;;; ret 0
      else
        let esc := has shift E0ESC in
        let data := if esc then Z.lor data 0x80 else data in
        when esc (shift_upd (fun shift => Z.land shift (Z.lnot E0ESC))) ;;;
        let! sc := at8 shiftcode data in
        shift_upd (fun shift => Z.lor shift sc) ;;;
        let! tc := at8 togglecode data in
        shift_upd (fun shift => Z.lxor shift tc) ;;;
        let! shift := get in
        let! table := deref (charcode !! Z.to_nat (Z.land shift (Z.lor CTL SHIFT))) in
        let! c := at8 table data in
        ret (if has shift CAPSLOCK then swap_case c else c)
  end.

(** The characters for the scan codes waiting in the controller. *)
Fixpoint kbd_chars (codes : list Z) : M Z (list Z) :=
  match codes with
  | [] => ret []
  | d :: codes' =>
      let! c := kbdgetc (Some d) in
      let! l := kbd_chars codes' in
      ret (c :: l)
  end.

(** Code that only touches [shift], run in the kernel. *)
Definition with_shift {A} (m : M Z A) (shift : Z) : KM (A * Z) := fun k =>
  match m shift with
  | Ok a shift => Ok (a, shift) k
  | Panic msg => Panic msg
  | Fault what => Fault what
  | Swtch _ => Fault "sleep in the keyboard driver"
  | Spin => Spin
  end.

(** [kbdintr]: the new [shift], and whether [procdump] is to be called. *)
Definition kbdintr (shift : Z) (codes : list Z) : KM (Z * bool) :=
  let! r := with_shift (kbd_chars codes) shift in
  let! dump := consoleintr (fst r) in
  ret (snd r, dump).

(** [uartgetc]: [uart] says whether there is a serial port. *)
Definition uartgetc (uart : bool) (port : option Z) : Z :=
  if negb uart then -1 else match port with None => -1 | Some c => c end.

Definition uartintr (uart : bool) (input : list Z) : KM bool :=
  consoleintr ((fun c => uartgetc uart (Some c)) <$> input).

(** ** The state of the modifiers *)

Definition all_below (n : nat) (f : Z -> bool) : bool := forallb f (seqZ 0 (Z.of_nat n)).

Lemma all_below_spec n f : all_below n f = true -> forall x, 0 <= x < Z.of_nat n -> f x = true.
Proof.
  unfold all_below. rewrite forallb_forall. intros H x Hx. apply H.
  apply list_elem_of_In, elem_of_seqZ. lia.
Qed.

(** The letter keys: three rows of keys with consecutive scan codes. *)
Definition letter_keys : list (Z * Z) :=
  zip (seqZ 0x10 10) (chars "qwertyuiop") ++
  zip (seqZ 0x1E 9) (chars "asdfghjkl") ++
  zip (seqZ 0x2C 7) (chars "zxcvbnm").

(** The character of the key of letter [c]: control wins, then shift and caps lock
    swap the case, both together give the small letter again. *)
Definition letter_char (shift c : Z) : Z :=
  if has shift CTL then c - 96
  else if xorb (has shift SHIFT) (has shift CAPSLOCK) then c - 32 else c.

(** [m] returns from [s], with [P] of the value and the state. *)
Definition okb {A} (m : M Z A) (s : Z) (P : A -> Z -> bool) : bool :=
  match m s with Ok a s' => P a s' | _ => false end.

Definition letters_ok : bool :=
  all_below 64 (fun s => forallb (fun '(d, c) =>
    okb (kbdgetc (Some d)) s (fun r s' => (r =? letter_char s c) && (s' =? s))) letter_keys).

Definition modifiers_ok : bool :=
  all_below 128 (fun s => all_below 256 (fun d =>
    okb (kbdgetc (Some d)) s (fun c s' =>
      (0 <=? s') && (s' <? 128) && (0 <=? c) && (c <? 256) &&
      implb (negb (d =? 0xE0)) (s' <? 64)))).

Lemma letters_ok_true : letters_ok = true.
Proof. vm_compute. reflexivity. Qed.

Lemma modifiers_ok_true : modifiers_ok = true.
Proof. vm_compute. reflexivity. Qed.

#[local] Opaque all_below kbdgetc letter_keys.

Lemma okb_ok {A} (m : M Z A) s P :
  okb m s P = true -> exists a s', m s = Ok a s' /\ P a s' = true.
Proof. unfold okb. destruct (m s); try done. eauto. Qed.

(** One scan code: no read outside the tables, the state and the character in
    range, and an escape pending only after 0xE0. *)
Lemma kbdgetc_bounds s d :
  0 <= s < 128 -> 0 <= d < 256 ->
  exists c s', kbdgetc (Some d) s = Ok c s' /\ 0 <= s' < 128 /\ 0 <= c < 256 /\ (d <> 0xE0 -> s' < 64).
Proof.
  intros Hs Hd. pose proof (all_below_spec _ _ modifiers_ok_true s ltac:(lia)) as H.
  pose proof (all_below_spec _ _ H d ltac:(lia)) as (c & s' & E & H')%okb_ok.
  exists c, s'. split; [done|]. destruct (Z.eqb_spec d 0xE0); simpl in H'; zify_bool; lia.
Qed.

Lemma kbdgetc_letter s d c :
  0 <= s < 64 -> (d, c) ∈ letter_keys -> kbdgetc (Some d) s = Ok (letter_char s c) s.
Proof.
  intros Hs Hd. pose proof (all_below_spec _ _ letters_ok_true s ltac:(lia)) as H.
  cbv beta in H. rewrite forallb_forall in H.
  destruct (okb_ok _ _ _ (H _ (proj1 (list_elem_of_In _ _) Hd))) as (r & s' & E & H').
  rewrite E. f_equal; zify_bool; lia.
Qed.

(** The state has no escape pending after [codes] ends in anything but 0xE0. *)
Definition settled (s0 : Z) (codes : list Z) : bool :=
  match last codes with None => s0 <? 64 | Some d => negb (d =? 0xE0) end.

(** C37: The keyboard driver reads its tables only inside them: from any state of the
    modifiers, on any bytes the controller sends, [kbdgetc] returns for each of
    them (a read past the end of [shiftcode], [togglecode], [charcode] or a key map
    would be a fault), the state stays within the seven modifier bits and every
    character within 8 bits.  And, unless the last byte was the 0xE0 escape, the
    code of a letter key then gives its control character when control is down, and
    otherwise the letter with its case swapped by shift and by caps lock, leaving
    the modifiers alone. *)
Theorem kbd_letters codes s0 :
  0 <= s0 < 128 -> Forall (fun c => 0 <= c < 256) codes ->
  exists l s, kbd_chars codes s0 = Ok l s /\
    0 <= s < 128 /\ Forall (fun c => 0 <= c < 256) l /\ length l = length codes /\
    (settled s0 codes = true -> forall d c, (d, c) ∈ letter_keys ->
       kbd_chars (codes ++ [d]) s0 = Ok (l ++ [letter_char s c]) s).
Proof.
  intros Hs Hc. revert s0 Hs. induction Hc as [|d codes Hd _ IH]; intros s0 Hs; cbn [kbd_chars app].
  - exists [], s0. repeat split; try done; try lia. intros Hset d c Hk. unfold settled in Hset. simpl in Hset.
    unfold bind. zify_bool. by rewrite (kbdgetc_letter s0 d c ltac:(lia) Hk).
  - destruct (kbdgetc_bounds s0 d Hs Hd) as (c & s1 & E & H1 & H2 & H3).
    destruct (IH s1 H1) as (l & s & El & Hr & Hf & Hn & Hk). exists (c :: l), s.
    unfold bind. rewrite E, El. repeat split; try done; try lia; [by constructor|simpl; lia|].
    intros Hset d' c' Hk'. rewrite (Hk) with (c := c'); [done| |done]. revert Hset. unfold settled.
    rewrite last_cons. destruct (last codes); [done|]. intros ?. zify_bool. lia.
Qed.

Lemma kbd_letters_witness :
  kbd_chars [0x2A; 0x3A; 0x1E; 0xAA; 0x30] 0 = Ok [0; 0; 97; 0; 66] 8.
Proof.
  destruct (kbd_letters [0x2A; 0x3A; 0x1E; 0xAA] 0) as (l & s & E & _ & _ & _ & H); [lia|repeat constructor; lia|].
  vm_compute in E. injection E as <- <-. apply (H eq_refl 0x30 98).
  apply (bool_decide_unpack _). vm_compute. reflexivity.
Defined.
