(* ===== verification/Vm.v ===== *)
(** * Vm: page tables and the memory of a process (vm.c, the page fault of trap.c)

    Page directories and page tables are pages of the byte memory, read and written
    through the kernel's mapping of physical memory ([P2V]).  A virtual address, a
    page table entry and a pointer to one are 32-bit numbers, 0 being the null
    pointer.  The task segment and the segment descriptors are not part of the
    state: loading them leaves it alone. *)

From S2P Require Import Prelude Bytes Kernel Sync Kalloc Bio Log Str Inode Console Fs.

(** [*(uint* )a] read and written. *)
Definition mload (a : Z) : KM Z := gets (fun k => load32 (k_mem k) a).
Definition mstore (a v : Z) : KM unit := modify (fun k => set_k_mem (store32 (k_mem k) a v) k).
(** [memset(a, 0, PGSIZE)]. *)
Definition zero_page (a : Z) : KM unit := modify (fun k => set_k_mem (memset (k_mem k) a 0 PGSIZE) k).

(** ** Page tables *)

Definition walkpgdir (pgdir va : Z) (alloc : bool) : KM Z :=
  let pde := pgdir + 4 * PDX va in
  let! v := mload pde in
  if has v PTE_P then ret (P2V (PTE_ADDR v) + 4 * PTX va) else
  if negb alloc then ret 0 else
  let! pgtab := kalloc in
  if pgtab =? 0 then ret 0 else
  zero_page pgtab ;;;
  mstore pde (Z.lor (Z.lor (Z.lor (V2P pgtab) PTE_P) PTE_W) PTE_U) ;;;
  ret (pgtab + 4 * PTX va).

(** The loop of [mappages] from page [a] to page [last]; it ends after one turn for
    each page from [a] to [last], counted around the end of the address space. *)
Fixpoint mappages_loop (fuel : nat) (pgdir a last pa perm : Z) : KM Z :=
  match fuel with
  | O => spin
  | S fuel' =>
      let! pte := walkpgdir pgdir a true in
      if pte =? 0 then ret (-1) else
      let! v := mload pte in
      if has v PTE_P then ret 0 else
      mstore pte (Z.lor (Z.lor pa perm) PTE_P) ;;;
      if a =? last then ret 0
      else mappages_loop fuel' pgdir (u32 (a + PGSIZE)) last (u32 (pa + PGSIZE)) perm
  end.

Definition mappages (pgdir va size pa perm : Z) : KM Z :=
  let a := PGROUNDDOWN va in
  let last := PGROUNDDOWN (u32 (va + size - 1)) in
  mappages_loop (S (Z.to_nat (u32 (last - a) / PGSIZE))) pgdir a last pa perm.

(** ** Freeing user memory *)

(** The loop of [deallocuvm] at [a]: a turn for each page up to [oldsz], fewer when
    it jumps to the next page directory entry. *)
Fixpoint deallocuvm_loop (fuel : nat) (pgdir a oldsz : Z) : KM unit :=
  if a <? oldsz then
    match fuel with
    | O => spin
    | S fuel' =>
        let! pte := walkpgdir pgdir a false in
        if pte =? 0 then
          let a := u32 (PGADDR (PDX a + 1) 0 0 - PGSIZE) in
          deallocuvm_loop fuel' pgdir (u32 (a + PGSIZE)) oldsz
        else
          let! v := mload pte in
          (if has v PTE_P then
             let pa := PTE_ADDR v in
             if pa =? 0 then panic "kfree" else
             kfree (P2V pa) ;;;
             mstore pte 0
           else ret tt) ;;;
          deallocuvm_loop fuel' pgdir (u32 (a + PGSIZE)) oldsz
    end
  else ret tt.

Definition deallocuvm (pgdir oldsz newsz : Z) : KM Z :=
  if oldsz <=? newsz then ret oldsz else
  let a := PGROUNDUP newsz in
  deallocuvm_loop (Z.to_nat ((oldsz - a + PGSIZE - 1) / PGSIZE)) pgdir a oldsz ;;;
  ret newsz.

Definition freevm (pgdir : Z) : KM unit :=
  if pgdir =? 0 then panic "freevm: no pgdir" else
  let! _ := deallocuvm pgdir KERNBASE 0 in
  for_tail NPDENTRIES 0 (fun i =>
    let! v := mload (pgdir + 4 * Z.of_nat i) in
    if has v PTE_P then kfree (P2V (PTE_ADDR v)) else ret tt) ;;;
  kfree pgdir.

(** ** The kernel part of a page table *)

Record kmap_entry : Type := mk_kmap { km_virt : Z; km_start : Z; km_end : Z; km_perm : Z }.

(** [kmap[]]; [data] is the linker's symbol. *)
Definition kmap (data : Z) : list kmap_entry :=
  [ mk_kmap KERNBASE 0 EXTMEM PTE_W;
    mk_kmap KERNLINK (V2P KERNLINK) (V2P data) 0;
    mk_kmap data (V2P data) PHYSTOP PTE_W;
    mk_kmap DEVSPACE DEVSPACE 0 PTE_W ].

(** The loop of [setupkvm] over the rest of [kmap]. *)
Fixpoint setupkvm_loop (pgdir : Z) (km : list kmap_entry) : KM Z :=
  match km with
  | [] => ret pgdir
  | e :: km' =>
      let! r := mappages pgdir (km_virt e) (u32 (km_end e - km_start e)) (km_start e) (km_perm e) in
      if r <? 0 then freevm pgdir ;;; ret 0
      else setupkvm_loop pgdir km'
  end.

Definition setupkvm : KM Z :=
  let! pgdir := kalloc in
  if pgdir =? 0 then ret 0 else
  zero_page pgdir ;;;
  if DEVSPACE <? P2V PHYSTOP then panic "PHYSTOP too high" else
  let! k := get in
  setupkvm_loop pgdir (kmap (k_data k)).

(** [lcr3]: the page table register. *)
Definition lcr3 (v : Z) : KM unit := modify (set_k_cr3 v).

Definition switchkvm : KM unit :=
  let! k := get in
  lcr3 (V2P (k_kpgdir k)).

Definition kvmalloc : KM unit :=
  let! pgdir := setupkvm in
  modify (set_k_kpgdir pgdir) ;;;
  switchkvm.

Definition switchuvm (p : option nat) : KM unit :=
  match p with
  | None => panic "switchuvm: no process"
  | Some i =>
      let! p := get_proc i in
      if p_kstack p =? 0 then panic "switchuvm: no kstack" else
      if p_pgdir p =? 0 then panic "switchuvm: no pgdir" else
      lcr3 (V2P (p_pgdir p))
  end.

(** ** Filling user memory *)

(** [init] is the address of the bytes in the kernel; the page is used without
    looking whether there is one. *)
Definition inituvm (pgdir init sz : Z) : KM unit :=
  if PGSIZE <=? sz then panic "inituvm: more than a page" else
  let! mem := kalloc in
  if mem =? 0 then fault "memset of a null page" else
  zero_page mem ;;;
  let! _ := mappages pgdir 0 PGSIZE (V2P mem) (Z.lor PTE_W PTE_U) in
  modify (fun k => set_k_mem (Kstring.memmove (k_mem k) mem init (Z.to_nat sz)) k).

(** The loop of [loaduvm], [n] pages from [i]; what [readi] read is in memory even
    when it is too short. *)
Fixpoint loaduvm_loop (n : nat) (pgdir addr : Z) (ip : nat) (offset i sz : Z) : KM Z :=
  match n with
  | O => ret 0
  | S n' =>
      let! pte := walkpgdir pgdir (u32 (addr + i)) false in
      if pte =? 0 then panic "loaduvm: address should exist" else
      let! v := mload pte in
      let pa := PTE_ADDR v in
      let m := if sz - i <? PGSIZE then sz - i else PGSIZE in
      let! r := readi ip (u32 (offset + i)) m in
      match r with
      | None => ret (-1)
      | Some bytes =>
          modify (fun k => set_k_mem (store_bytes (k_mem k) (P2V pa) bytes) k) ;;;
          if negb (Z.of_nat (length bytes) =? m) then ret (-1)
          else loaduvm_loop n' pgdir addr ip offset (i + PGSIZE) sz
      end
  end.

Definition loaduvm (pgdir addr : Z) (ip : nat) (offset sz : Z) : KM Z :=
  if negb (addr mod PGSIZE =? 0) then panic "loaduvm: addr must be page aligned" else
  loaduvm_loop (Z.to_nat ((sz + PGSIZE - 1) / PGSIZE)) pgdir addr ip offset 0 sz.

(** The loop of [allocuvm] from page [a]; a turn for each page up to [newsz]. *)
Fixpoint allocuvm_loop (fuel : nat) (pgdir a oldsz newsz : Z) : KM Z :=
  if a <? newsz then
    match fuel with
    | O => spin
    | S fuel' =>
        let! mem := kalloc in
        if mem =? 0 then
          cprintln "allocuvm out of memory" [] ;;;
          let! _ := deallocuvm pgdir newsz oldsz in
          ret 0
        else
          zero_page mem ;;;
          let! r := mappages pgdir a PGSIZE (V2P mem) (Z.lor PTE_W PTE_U) in
          if r <? 0 then
            cprintln "allocuvm out of memory (2)" [] ;;;
            let! _ := deallocuvm pgdir newsz oldsz in
            kfree mem ;;;
            ret 0
          else allocuvm_loop fuel' pgdir (u32 (a + PGSIZE)) oldsz newsz
    end
  else ret newsz.

Definition allocuvm (pgdir oldsz newsz : Z) : KM Z :=
  if KERNBASE <=? newsz then ret 0 else
  if newsz <? oldsz then ret oldsz else
  let a := PGROUNDUP oldsz in
  allocuvm_loop (Z.to_nat ((newsz - a + PGSIZE - 1) / PGSIZE)) pgdir a oldsz newsz.

Definition clearpteu (pgdir uva : Z) : KM unit :=
  let! pte := walkpgdir pgdir uva false in
  if pte =? 0 then panic "clearpteu" else
  let! v := mload pte in
  mstore pte (Z.land v (Z.lnot PTE_U)).

(** The loop of [copyuvm], [n] pages from [i], into the directory [d]. *)
Fixpoint copyuvm_loop (n : nat) (pgdir d i : Z) : KM Z :=
  match n with
  | O => ret d
  | S n' =>
      let! pte := walkpgdir pgdir i false in
      if pte =? 0 then panic "copyuvm: pte should exist" else
      let! v := mload pte in
      if negb (has v PTE_P) then ret 0 else
      let pa := PTE_ADDR v in
      let flags := PTE_FLAGS v in
      let! mem := kalloc in
      if mem =? 0 then freevm d ;;; ret 0 else
      modify (fun k => set_k_mem (Kstring.memmove (k_mem k) mem (P2V pa) (Z.to_nat PGSIZE)) k) ;;;
      let! r := mappages d i PGSIZE (V2P mem) flags in
      if r <? 0 then kfree mem ;;; freevm d ;;; ret 0
      else copyuvm_loop n' pgdir d (i + PGSIZE)
  end.

Definition copyuvm (pgdir sz : Z) : KM Z :=
  let! d := setupkvm in
  if d =? 0 then ret 0 else
  copyuvm_loop (Z.to_nat ((sz + PGSIZE - 1) / PGSIZE)) pgdir d 0.

Definition uva2ka (pgdir uva : Z) : KM Z :=
  let! pte := walkpgdir pgdir uva false in
  if pte =? 0 then fault "null pte" else
  let! v := mload pte in
  if negb (has v PTE_P) then ret 0 else
  if negb (has v PTE_U) then ret 0 else
  ret (P2V (PTE_ADDR v)).

(** The loop of [copyout], with [buf] left to copy; every turn copies a byte or
    more. *)
Fixpoint copyout_loop (fuel : nat) (pgdir va : Z) (buf : list Z) : KM Z :=
  match fuel with
  | O => ret 0
  | S fuel' =>
      if 0 <? Z.of_nat (length buf) then
        let va0 := PGROUNDDOWN va in
        let! pa0 := uva2ka pgdir va0 in
        if pa0 =? 0 then ret (-1) else
        let n := PGSIZE - (va - va0) in
        let n := if Z.of_nat (length buf) <? n then Z.of_nat (length buf) else n in
        modify (fun k => set_k_mem (store_bytes (k_mem k) (pa0 + (va - va0)) (take (Z.to_nat n) buf)) k) ;;;
        copyout_loop fuel' pgdir (u32 (va0 + PGSIZE)) (drop (Z.to_nat n) buf)
      else ret 0
  end.

(** [copyout] of the bytes [buf]. *)
Definition copyout (pgdir va : Z) (buf : list Z) : KM Z := copyout_loop (length buf) pgdir va buf.

(** ** Page faults (the case [T_PGFLT] of [trap])

    [cr2] is the address that faulted, [cs] the code segment that was running and
    [eip] its instruction. *)
Definition page_fault (cpu cs eip cr2 : Z) : KM unit :=
  let! k := get in
  match myproc k with
  | None =>
      cprintln "unexpected page fault from  from cpu %d eip %x (cr2=0x%x)" (A_int <$> [cpu; eip; cr2]) ;;;
      panic "page fault"
  | Some i =>
      let! p := get_proc i in
      if (Z.land cs 3 =? 0) && (p_sz p <=? cr2) then
        cprintln "unexpected page fault from  from cpu %d eip %x (cr2=0x%x)" (A_int <$> [cpu; eip; cr2]) ;;;
        panic "page fault"
      else
        let! mem := kalloc in
        if mem =? 0 then
          cprintln "out of memory inside page fault" [] ;;;
          upd_proc i (set_p_killed true)
        else
          zero_page mem ;;;
          let! r := mappages (p_pgdir p) (PGROUNDDOWN cr2) PGSIZE (V2P mem) (Z.lor PTE_W PTE_U) in
          when (r <? 0)
            (cprintln "mappages error inside page fault" [] ;;;
             kfree mem ;;;
             upd_proc i (set_p_killed true))
  end.

(** ** The kernel's accesses to user memory

    The kernel runs on the page table of the current process, so it reads and
    writes user memory through it.  [translate] is what the MMU does: the entry of
    a page that is present, [None] for a page fault. *)
Definition translate (m : mem) (pgdir va : Z) : option Z :=
  let pde := load32 m (pgdir + 4 * PDX va) in
  if negb (has pde PTE_P) then None else
  let pte := load32 m (P2V (PTE_ADDR pde) + 4 * PTX va) in
  if has pte PTE_P then Some pte else None.

(** The kernel address of the user byte at [va]: on a page fault the handler runs
    ([cs] is the kernel's) and the access is tried again, as long as the handler
    does not map the page. *)
Definition user_byte (va : Z) : KM Z :=
  let! i := curproc in
  let! p := get_proc i in
  let! k := get in
  match translate (k_mem k) (p_pgdir p) va with
  | Some pte => ret (P2V (PTE_ADDR pte) + va mod PGSIZE)
  | None =>
      page_fault 0 (Z.shiftl SEG_KCODE 3) 0 va ;;;
      let! k := get in
      match translate (k_mem k) (p_pgdir p) va with
      | Some pte => ret (P2V (PTE_ADDR pte) + va mod PGSIZE)
      | None => spin
      end
  end.

Fixpoint uread (n : nat) (va : Z) : KM (list Z) :=
  match n with
  | O => ret []
  | S n' =>
      let! a := user_byte va in
      let! k := get in
      let b := k_mem k a in
      let! l := uread n' (u32 (va + 1)) in
      ret (b :: l)
  end.

Fixpoint uwrite (va : Z) (bytes : list Z) : KM unit :=
  match bytes with
  | [] => ret tt
  | b :: bytes' =>
      let! a := user_byte va in
      modify (fun k => set_k_mem (wr (k_mem k) a b) k) ;;;
      uwrite (u32 (va + 1)) bytes'
  end.
