(* ===== verification/Frame.v ===== *)
(** * Frame: what the file system and memory code leaves alone

    A part [pi] of the kernel state is framed ([Frame pi]) when it does not depend on
    what the locks, the sleeping of processes, the page allocator, the buffer cache,
    the log, the inodes, the console and the page tables change.  Every function of
    those components then leaves [pi] as it was ([keeps pi]), however it ends.  The
    open files and the pipes are framed parts, which is what their invariants are
    proved with. *)

From S2P Require Import Prelude Bytes Kernel Sync Kalloc Bio Log Str Inode Console Fs Vm.

Class Frame {T : Type} (pi : kernel -> T) : Prop := {
  fr_held v k : pi (set_k_held v k) = pi k;
  fr_bufs v k : pi (set_k_bufs v k) = pi k;
  fr_disk v k : pi (set_k_disk v k) = pi k;
  fr_dtrace v k : pi (set_k_dtrace v k) = pi k;
  fr_log v k : pi (set_k_log v k) = pi k;
  fr_sb v k : pi (set_k_sb v k) = pi k;
  fr_icache v k : pi (set_k_icache v k) = pi k;
  fr_input v k : pi (set_k_input v k) = pi k;
  fr_cons v k : pi (set_k_cons v k) = pi k;
  fr_mem v k : pi (set_k_mem v k) = pi k;
  fr_freelist v k : pi (set_k_freelist v k) = pi k;
  fr_state i s k : pi (set_k_ptable (alter (set_p_state s) i (k_ptable k)) k) = pi k;
  fr_chan i c k : pi (set_k_ptable (alter (set_p_chan c) i (k_ptable k)) k) = pi k;
  fr_killed i b k : pi (set_k_ptable (alter (set_p_killed b) i (k_ptable k)) k) = pi k;
  fr_wakeup c k : pi (set_k_ptable (wakeup1_proc c <$> k_ptable k) k) = pi k
}.

(** The state in which a call leaves the kernel, by returning or by giving the
    processor up. *)
Definition out_state {A} (o : outcome kernel A) : option kernel :=
  match o with Ok _ k' | Swtch k' => Some k' | _ => None end.

(** The call [m] leaves [pi] as it was. *)
Definition keeps {T A} (pi : kernel -> T) (m : KM A) : Prop :=
  forall k k', out_state (m k) = Some k' -> pi k' = pi k.

Create HintDb frame discriminated.
#[export] Hint Constants Opaque : frame.

(** ** The monad *)

Section Monad.
Context {T : Type} (pi : kernel -> T).

Lemma keeps_bind {A B} (m : KM A) (f : A -> KM B) :
  keeps pi m -> (forall a, keeps pi (f a)) -> keeps pi (bind m f).
Proof.
  intros Hm Hf k k'. unfold bind. specialize (Hm k). destruct (m k) as [a k1| | |k1|]; cbn; try done.
  - intros H. rewrite (Hf a k1 k' H). by apply Hm.
  - intros [= <-]. by apply Hm.
Qed.

(** A call that does not change the state. *)
Lemma keeps_reader {A} (m : KM A) : (forall k k', out_state (m k) = Some k' -> k' = k) -> keeps pi m.
Proof. intros H k k' E. by rewrite (H k k' E). Qed.

Lemma keeps_modify f : (forall k, pi (f k) = pi k) -> keeps pi (modify f).
Proof. intros H k k' [= <-]. apply H. Qed.

Lemma keeps_ret {A} (a : A) : keeps pi (ret a).
Proof. by intros k k' [= <-]. Qed.
Lemma keeps_get : keeps pi get.
Proof. by intros k k' [= <-]. Qed.
Lemma keeps_gets {A} (f : kernel -> A) : keeps pi (gets f).
Proof. by intros k k' [= <-]. Qed.
Lemma keeps_spin {A} : keeps pi (@spin kernel A).
Proof. by intros k k' [=]. Qed.
Lemma keeps_panic {A} s : keeps pi (@panic kernel A s).
Proof. by intros k k' [=]. Qed.
Lemma keeps_fault {A} s : keeps pi (@fault kernel A s).
Proof. by intros k k' [=]. Qed.
Lemma keeps_swtch {A} : keeps pi (fun k => @Swtch kernel A k).
Proof. by intros k k' [= <-]. Qed.
Lemma keeps_deref {A} (o : option A) : keeps pi (deref o).
Proof. destruct o; [apply keeps_ret|apply keeps_fault]. Qed.

Lemma keeps_for_tail n : forall i body, (forall j, keeps pi (body j)) -> keeps pi (for_tail n i body).
Proof.
  induction n as [|n IH]; intros i body H; cbn [for_tail]; [apply keeps_ret|].
  apply keeps_bind; [done|intros _; by apply IH].
Qed.

Lemma keeps_curproc : keeps pi curproc.
Proof. apply keeps_reader. intros k k'. unfold curproc. destruct (myproc k); [|done]. by intros [= <-]. Qed.
Lemma keeps_get_proc i : keeps pi (get_proc i).
Proof. apply keeps_reader. intros k k'. unfold get_proc. destruct (k_ptable k !! i); [|done]. by intros [= <-]. Qed.
Lemma keeps_get_buf i : keeps pi (get_buf i).
Proof. apply keeps_reader. intros k k'. unfold get_buf. destruct (k_bufs k !! i); [|done]. by intros [= <-]. Qed.
Lemma keeps_get_inode i : keeps pi (get_inode i).
Proof. apply keeps_reader. intros k k'. unfold get_inode. destruct (k_icache k !! i); [|done]. by intros [= <-]. Qed.
Lemma keeps_lh_get i : keeps pi (lh_get i).
Proof. apply keeps_reader. intros k k'. unfold lh_get. destruct (_ !! i); [|done]. by intros [= <-]. Qed.
Lemma keeps_get_sl s : keeps pi (get_sl s).
Proof.
  apply keeps_reader. intros k k'. unfold get_sl.
  destruct s; [destruct (k_bufs k !! i)|destruct (k_icache k !! i)]; try done; by intros [= <-].
Qed.
End Monad.

#[export] Hint Resolve keeps_ret keeps_get keeps_gets keeps_spin keeps_panic keeps_fault keeps_swtch keeps_deref
  keeps_curproc keeps_get_proc keeps_get_buf keeps_get_inode keeps_lh_get keeps_get_sl : frame.

(** Goes through the body of a function; what it calls is in the hint database. *)
Ltac keep_step :=
  match goal with
  | |- forall _, _ => intros ?
  | |- keeps _ (bind _ _) => apply keeps_bind
  | |- keeps _ (for_tail _ _ _) => apply keeps_for_tail
  | |- keeps _ (if ?b then _ else _) => destruct b
  | |- keeps _ (match ?x with _ => _ end) => destruct x
  | |- keeps _ (when ?b _) => unfold when; destruct b
  | |- keeps _ _ => solve [eauto with frame]
  end.
Ltac keep_body := cbv zeta; repeat (keep_step; cbv zeta).

(** ** The components *)

Section Components.
Context {T : Type} (pi : kernel -> T) {F : Frame pi}.

Lemma keeps_acquire l : keeps pi (acquire l).
Proof. intros k k'. unfold acquire. case_bool; [done|]. intros [= <-]. apply fr_held. Qed.
Lemma keeps_release l : keeps pi (release l).
Proof. intros k k'. unfold release. case_bool; [|done]. intros [= <-]. apply fr_held. Qed.
Lemma keeps_state i s : keeps pi (upd_proc i (set_p_state s)).
Proof. apply keeps_modify. intros. apply fr_state. Qed.
Lemma keeps_chan i c : keeps pi (upd_proc i (set_p_chan c)).
Proof. apply keeps_modify. intros. apply fr_chan. Qed.
Lemma keeps_killed i b : keeps pi (upd_proc i (set_p_killed b)).
Proof. apply keeps_modify. intros. apply fr_killed. Qed.
Lemma keeps_wakeup1 c : keeps pi (wakeup1 c).
Proof. apply keeps_modify. intros. apply fr_wakeup. Qed.
Lemma keeps_upd_buf i f : keeps pi (upd_buf i f).
Proof. apply keeps_modify. intros. apply fr_bufs. Qed.
Lemma keeps_set_data i d : keeps pi (set_data i d).
Proof. apply keeps_upd_buf. Qed.
Lemma keeps_disk_write b v : keeps pi (disk_write b v).
Proof. apply keeps_modify. intros. rewrite fr_dtrace. apply fr_disk. Qed.
Lemma keeps_upd_log f : keeps pi (upd_log f).
Proof. apply keeps_modify. intros. apply fr_log. Qed.
Lemma keeps_lh_put i v : keeps pi (lh_put i v).
Proof. intros k k'. unfold lh_put. case_decide; [|done]. intros [= <-]. apply fr_log. Qed.
Lemma keeps_upd_inode i f : keeps pi (upd_inode i f).
Proof. apply keeps_modify. intros. apply fr_icache. Qed.
Lemma keeps_set_sb sb : keeps pi (modify (set_k_sb sb)).
Proof. apply keeps_modify. intros. apply fr_sb. Qed.
Lemma keeps_put_sl s v : keeps pi (put_sl s v).
Proof. apply keeps_modify. intros. destruct s; [apply fr_bufs|apply fr_icache]. Qed.
Lemma keeps_upd_input f : keeps pi (upd_input f).
Proof. apply keeps_modify. intros. apply fr_input. Qed.
Lemma keeps_consputc c : keeps pi (consputc c).
Proof. intros k k'. unfold consputc. case_bool; [done|]. intros [= <-]. apply fr_cons. Qed.
Lemma keeps_set_mem (f : kernel -> mem) : keeps pi (modify (fun k => set_k_mem (f k) k)).
Proof. apply keeps_modify. intros. apply fr_mem. Qed.
Lemma keeps_set_freelist v : keeps pi (modify (set_k_freelist v)).
Proof. apply keeps_modify. intros. apply fr_freelist. Qed.
#[local] Hint Resolve keeps_acquire keeps_release keeps_state keeps_chan keeps_killed keeps_wakeup1
  keeps_upd_buf keeps_set_data keeps_disk_write keeps_upd_log keeps_lh_put keeps_upd_inode keeps_set_sb
  keeps_put_sl keeps_upd_input keeps_consputc keeps_set_mem keeps_set_freelist : frame.

Lemma keeps_sched : keeps pi sched.
Proof. unfold sched. keep_body. Qed.
#[local] Hint Resolve keeps_sched : frame.
Lemma keeps_sleep_return i lk : keeps pi (sleep_return i lk).
Proof. unfold sleep_return. keep_body. Qed.
#[local] Hint Resolve keeps_sleep_return : frame.
Lemma keeps_sleep c lk : keeps pi (sleep c lk).
Proof. unfold sleep. keep_body. Qed.
#[local] Hint Resolve keeps_sleep : frame.
Lemma keeps_sleep_again {A} c lk : keeps pi (@sleep_again A c lk).
Proof. unfold sleep_again. keep_body. Qed.
#[local] Hint Resolve keeps_sleep_again : frame.
Lemma keeps_wakeup c : keeps pi (wakeup c).
Proof. unfold wakeup. keep_body. Qed.
#[local] Hint Resolve keeps_wakeup : frame.
Lemma keeps_acquiresleep s : keeps pi (acquiresleep s).
Proof. unfold acquiresleep. keep_body. Qed.
#[local] Hint Resolve keeps_acquiresleep : frame.
Lemma keeps_releasesleep s : keeps pi (releasesleep s).
Proof. unfold releasesleep. keep_body. Qed.
#[local] Hint Resolve keeps_releasesleep : frame.
Lemma keeps_holdingsleep s : keeps pi (holdingsleep s).
Proof. unfold holdingsleep. keep_body. Qed.
#[local] Hint Resolve keeps_holdingsleep : frame.
Lemma keeps_kmem_lock : keeps pi kmem_lock.
Proof. unfold kmem_lock. keep_body. Qed.
#[local] Hint Resolve keeps_kmem_lock : frame.
Lemma keeps_kmem_unlock : keeps pi kmem_unlock.
Proof. unfold kmem_unlock. keep_body. Qed.
#[local] Hint Resolve keeps_kmem_unlock : frame.
Lemma keeps_kfree v : keeps pi (kfree v).
Proof. unfold kfree. keep_body. Qed.
#[local] Hint Resolve keeps_kfree : frame.
Lemma keeps_kalloc : keeps pi kalloc.
Proof. unfold kalloc. keep_body. Qed.
#[local] Hint Resolve keeps_kalloc : frame.
Lemma keeps_iderw i : keeps pi (iderw i).
Proof. unfold iderw. keep_body. Qed.
#[local] Hint Resolve keeps_iderw : frame.
Lemma keeps_bget_cached dev b n : forall i, keeps pi (bget_cached n i dev b).
Proof. induction n as [|n IH]; intros; cbn [bget_cached]; keep_body. Qed.
#[local] Hint Resolve keeps_bget_cached : frame.
Lemma keeps_bget_unused  n : forall i, keeps pi (bget_unused n i).
Proof. induction n as [|n IH]; intros; cbn [bget_unused]; keep_body. Qed.
#[local] Hint Resolve keeps_bget_unused : frame.
Lemma keeps_bget dev b : keeps pi (bget dev b).
Proof. unfold bget. keep_body. Qed.
#[local] Hint Resolve keeps_bget : frame.
Lemma keeps_bread dev b : keeps pi (bread dev b).
Proof. unfold bread. keep_body. Qed.
#[local] Hint Resolve keeps_bread : frame.
Lemma keeps_bwrite i : keeps pi (bwrite i).
Proof. unfold bwrite. keep_body. Qed.
#[local] Hint Resolve keeps_bwrite : frame.
Lemma keeps_brelse i : keeps pi (brelse i).
Proof. unfold brelse. keep_body. Qed.
#[local] Hint Resolve keeps_brelse : frame.
Lemma keeps_readsb dev : keeps pi (readsb dev).
Proof. unfold readsb. keep_body. Qed.
#[local] Hint Resolve keeps_readsb : frame.
Lemma keeps_install_one i : keeps pi (install_one i).
Proof. unfold install_one. keep_body. Qed.
#[local] Hint Resolve keeps_install_one : frame.
Lemma keeps_install_trans : keeps pi install_trans.
Proof. unfold install_trans. keep_body. Qed.
#[local] Hint Resolve keeps_install_trans : frame.
Lemma keeps_read_head : keeps pi read_head.
Proof. unfold read_head. keep_body. Qed.
#[local] Hint Resolve keeps_read_head : frame.
Lemma keeps_write_head : keeps pi write_head.
Proof. unfold write_head. keep_body. Qed.
#[local] Hint Resolve keeps_write_head : frame.
Lemma keeps_recover_from_log : keeps pi recover_from_log.
Proof. unfold recover_from_log. keep_body. Qed.
#[local] Hint Resolve keeps_recover_from_log : frame.
Lemma keeps_initlog dev : keeps pi (initlog dev).
Proof. unfold initlog. keep_body. Qed.
#[local] Hint Resolve keeps_initlog : frame.
Lemma keeps_begin_op : keeps pi begin_op.
Proof. unfold begin_op. keep_body. Qed.
#[local] Hint Resolve keeps_begin_op : frame.
Lemma keeps_write_one i : keeps pi (write_one i).
Proof. unfold write_one. keep_body. Qed.
#[local] Hint Resolve keeps_write_one : frame.
Lemma keeps_write_log : keeps pi write_log.
Proof. unfold write_log. keep_body. Qed.
#[local] Hint Resolve keeps_write_log : frame.
Lemma keeps_commit : keeps pi commit.
Proof. unfold commit. keep_body. Qed.
#[local] Hint Resolve keeps_commit : frame.
Lemma keeps_end_op : keeps pi end_op.
Proof. unfold end_op. keep_body. Qed.
#[local] Hint Resolve keeps_end_op : frame.
Lemma keeps_log_write i : keeps pi (log_write i).
Proof. unfold log_write. keep_body. Qed.
#[local] Hint Resolve keeps_log_write : frame.
Lemma keeps_bzero dev b : keeps pi (bzero dev b).
Proof. unfold bzero. keep_body. Qed.
#[local] Hint Resolve keeps_bzero : frame.
Lemma keeps_balloc_loop dev n : forall b, keeps pi (balloc_loop n dev b).
Proof. induction n as [|n IH]; intros; cbn [balloc_loop]; keep_body. Qed.
#[local] Hint Resolve keeps_balloc_loop : frame.
Lemma keeps_balloc dev : keeps pi (balloc dev).
Proof. unfold balloc. keep_body. Qed.
#[local] Hint Resolve keeps_balloc : frame.
Lemma keeps_bfree dev b : keeps pi (bfree dev b).
Proof. unfold bfree. keep_body. Qed.
#[local] Hint Resolve keeps_bfree : frame.
Lemma keeps_iget dev i : keeps pi (iget dev i).
Proof. unfold iget. keep_body. Qed.
#[local] Hint Resolve keeps_iget : frame.
Lemma keeps_idup i : keeps pi (idup i).
Proof. unfold idup. keep_body. Qed.
#[local] Hint Resolve keeps_idup : frame.
Lemma keeps_ialloc_loop dev ty n : forall i, keeps pi (ialloc_loop n i dev ty).
Proof. induction n as [|n IH]; intros; cbn [ialloc_loop]; keep_body. Qed.
#[local] Hint Resolve keeps_ialloc_loop : frame.
Lemma keeps_ialloc dev ty : keeps pi (ialloc dev ty).
Proof. unfold ialloc. keep_body. Qed.
#[local] Hint Resolve keeps_ialloc : frame.
Lemma keeps_iupdate i : keeps pi (iupdate i).
Proof. unfold iupdate. keep_body. Qed.
#[local] Hint Resolve keeps_iupdate : frame.
Lemma keeps_ilock o : keeps pi (ilock o).
Proof. unfold ilock. keep_body. Qed.
#[local] Hint Resolve keeps_ilock : frame.
Lemma keeps_iunlock o : keeps pi (iunlock o).
Proof. unfold iunlock. keep_body. Qed.
#[local] Hint Resolve keeps_iunlock : frame.
Lemma keeps_inode_slot i s : keeps pi (inode_slot i s).
Proof. unfold inode_slot. keep_body. Qed.
#[local] Hint Resolve keeps_inode_slot : frame.
Lemma keeps_block_slot dev b j : keeps pi (block_slot dev b j).
Proof. unfold block_slot. keep_body. Qed.
#[local] Hint Resolve keeps_block_slot : frame.
Lemma keeps_bmap i b : keeps pi (bmap i b).
Proof. unfold bmap. keep_body. Qed.
#[local] Hint Resolve keeps_bmap : frame.
Lemma keeps_free_entries dev b : keeps pi (free_entries dev b).
Proof. unfold free_entries. keep_body. Qed.
#[local] Hint Resolve keeps_free_entries : frame.
Lemma keeps_itrunc_direct i : keeps pi (itrunc_direct i).
Proof. unfold itrunc_direct. keep_body. Qed.
#[local] Hint Resolve keeps_itrunc_direct : frame.
Lemma keeps_itrunc_indirect i : keeps pi (itrunc_indirect i).
Proof. unfold itrunc_indirect. keep_body. Qed.
#[local] Hint Resolve keeps_itrunc_indirect : frame.
Lemma keeps_itrunc_double i : keeps pi (itrunc_double i).
Proof. unfold itrunc_double. keep_body. Qed.
#[local] Hint Resolve keeps_itrunc_double : frame.
Lemma keeps_itrunc i : keeps pi (itrunc i).
Proof. unfold itrunc. keep_body. Qed.
#[local] Hint Resolve keeps_itrunc : frame.
Lemma keeps_iput i : keeps pi (iput i).
Proof. unfold iput. keep_body. Qed.
#[local] Hint Resolve keeps_iput : frame.
Lemma keeps_iunlockput i : keeps pi (iunlockput i).
Proof. unfold iunlockput. keep_body. Qed.
#[local] Hint Resolve keeps_iunlockput : frame.
Lemma keeps_consputs  l : keeps pi (consputs l ).
Proof. induction l as [|? ? IH]; intros; cbn [consputs]; keep_body. Qed.
#[local] Hint Resolve keeps_consputs : frame.
Lemma keeps_printint x b s : keeps pi (printint x b s).
Proof. unfold printint. keep_body. Qed.
#[local] Hint Resolve keeps_printint : frame.
Lemma keeps_cprintf_loop fuel : forall fmt args, (length fmt <= fuel)%nat -> keeps pi (cprintf_loop fmt args).
Proof.
  induction fuel as [|fuel IH]; intros [|c fmt] args Hl; simpl in Hl; try lia; cbn [cprintf_loop]; [keep_step..|].
  destruct (negb (c =? 37)); [keep_step; [keep_step|intros _; apply IH; lia]|].
  destruct fmt as [|c' fmt]; [keep_step|]. simpl in Hl.
  assert (H : forall args, keeps pi (cprintf_loop fmt args)) by (intros; apply IH; lia).
  keep_body.
Qed.

Lemma keeps_cprintf fmt args : keeps pi (cprintf fmt args).
Proof.
  pose proof (fun f a => keeps_cprintf_loop (length f) f a ltac:(lia)). unfold cprintf. keep_body.
Qed.
#[local] Hint Resolve keeps_cprintf : frame.

Lemma keeps_cprintln s args : keeps pi (cprintln s args).
Proof. unfold cprintln. keep_body. Qed.
#[local] Hint Resolve keeps_cprintln : frame.
Lemma keeps_consoleread_loop  n : forall t m acc, keeps pi (consoleread_loop n t m acc).
Proof. induction n as [|n IH]; intros; cbn [consoleread_loop]; keep_body. Qed.
#[local] Hint Resolve keeps_consoleread_loop : frame.
Lemma keeps_consoleread i n : keeps pi (consoleread i n).
Proof. unfold consoleread. keep_body. Qed.
#[local] Hint Resolve keeps_consoleread : frame.
Lemma keeps_consolewrite i l : keeps pi (consolewrite i l).
Proof. unfold consolewrite. keep_body. Qed.
#[local] Hint Resolve keeps_consolewrite : frame.
Lemma keeps_readi_loop i m n : forall off tot acc, keeps pi (readi_loop n i off tot m acc).
Proof. induction n as [|n IH]; intros; cbn [readi_loop]; keep_body. Qed.
#[local] Hint Resolve keeps_readi_loop : frame.
Lemma keeps_readi i off n : keeps pi (readi i off n).
Proof. unfold readi. keep_body. Qed.
#[local] Hint Resolve keeps_readi : frame.
Lemma keeps_writei_loop i n : forall off src, keeps pi (writei_loop n i off src).
Proof. induction n as [|n IH]; intros; cbn [writei_loop]; keep_body. Qed.
#[local] Hint Resolve keeps_writei_loop : frame.
Lemma keeps_writei i src off : keeps pi (writei i src off).
Proof. unfold writei. keep_body. Qed.
#[local] Hint Resolve keeps_writei : frame.
Lemma keeps_dirlookup_loop dp name n : forall off, keeps pi (dirlookup_loop n dp name off).
Proof. induction n as [|n IH]; intros; cbn [dirlookup_loop]; keep_body. Qed.
#[local] Hint Resolve keeps_dirlookup_loop : frame.
Lemma keeps_dirlookup dp name : keeps pi (dirlookup dp name).
Proof. unfold dirlookup. keep_body. Qed.
#[local] Hint Resolve keeps_dirlookup : frame.
Lemma keeps_dirlink_loop dp n : forall off, keeps pi (dirlink_loop n dp off).
Proof. induction n as [|n IH]; intros; cbn [dirlink_loop]; keep_body. Qed.
#[local] Hint Resolve keeps_dirlink_loop : frame.
Lemma keeps_dirlink dp name inum : keeps pi (dirlink dp name inum).
Proof. unfold dirlink. keep_body. Qed.
#[local] Hint Resolve keeps_dirlink : frame.
Lemma keeps_namex_loop parent n : forall ip path name, keeps pi (namex_loop n ip path parent name).
Proof. induction n as [|n IH]; intros; cbn [namex_loop]; keep_body. Qed.
#[local] Hint Resolve keeps_namex_loop : frame.
Lemma keeps_namex path parent : keeps pi (namex path parent).
Proof. unfold namex. keep_body. Qed.
#[local] Hint Resolve keeps_namex : frame.
Lemma keeps_namei path : keeps pi (namei path).
Proof. unfold namei. keep_body. Qed.
#[local] Hint Resolve keeps_namei : frame.
Lemma keeps_nameiparent path : keeps pi (nameiparent path).
Proof. unfold nameiparent. keep_body. Qed.
#[local] Hint Resolve keeps_nameiparent : frame.
Lemma keeps_mload a : keeps pi (mload a).
Proof. unfold mload. keep_body. Qed.
#[local] Hint Resolve keeps_mload : frame.
Lemma keeps_mstore a v : keeps pi (mstore a v).
Proof. unfold mstore. keep_body. Qed.
#[local] Hint Resolve keeps_mstore : frame.
Lemma keeps_zero_page a : keeps pi (zero_page a).
Proof. unfold zero_page. keep_body. Qed.
#[local] Hint Resolve keeps_zero_page : frame.
Lemma keeps_walkpgdir pgdir va alloc : keeps pi (walkpgdir pgdir va alloc).
Proof. unfold walkpgdir. keep_body. Qed.
#[local] Hint Resolve keeps_walkpgdir : frame.
Lemma keeps_mappages_loop pgdir last perm n : forall a pa, keeps pi (mappages_loop n pgdir a last pa perm).
Proof. induction n as [|n IH]; intros; cbn [mappages_loop]; keep_body. Qed.
#[local] Hint Resolve keeps_mappages_loop : frame.
Lemma keeps_mappages pgdir va size pa perm : keeps pi (mappages pgdir va size pa perm).
Proof. unfold mappages. keep_body. Qed.
#[local] Hint Resolve keeps_mappages : frame.
Lemma keeps_deallocuvm_loop n : forall pgdir a oldsz, keeps pi (deallocuvm_loop n pgdir a oldsz).
Proof. induction n as [|n IH]; intros; cbn [deallocuvm_loop]; keep_body. Qed.
#[local] Hint Resolve keeps_deallocuvm_loop : frame.

Lemma keeps_deallocuvm pgdir o n : keeps pi (deallocuvm pgdir o n).
Proof. unfold deallocuvm. keep_body. Qed.
#[local] Hint Resolve keeps_deallocuvm : frame.
Lemma keeps_freevm pgdir : keeps pi (freevm pgdir).
Proof. unfold freevm. keep_body. Qed.
#[local] Hint Resolve keeps_freevm : frame.
Lemma keeps_page_fault cpu cs eip cr2 : keeps pi (page_fault cpu cs eip cr2).
Proof. unfold page_fault. keep_body. Qed.
#[local] Hint Resolve keeps_page_fault : frame.
Lemma keeps_user_byte va : keeps pi (user_byte va).
Proof. unfold user_byte. keep_body. Qed.
#[local] Hint Resolve keeps_user_byte : frame.
Lemma keeps_uread  n : forall va, keeps pi (uread n va).
Proof. induction n as [|n IH]; intros; cbn [uread]; keep_body. Qed.
#[local] Hint Resolve keeps_uread : frame.
Lemma keeps_uwrite  l : forall va, keeps pi (uwrite va l).
Proof. induction l as [|? ? IH]; intros; cbn [uwrite]; keep_body. Qed.
#[local] Hint Resolve keeps_uwrite : frame.

End Components.

#[export] Hint Resolve keeps_acquire keeps_release keeps_state keeps_chan keeps_killed keeps_wakeup1 keeps_upd_buf
  keeps_set_data keeps_disk_write keeps_upd_log keeps_lh_put keeps_upd_inode keeps_set_sb
  keeps_put_sl keeps_upd_input keeps_consputc keeps_set_mem keeps_set_freelist keeps_sched
  keeps_sleep_return keeps_sleep keeps_sleep_again keeps_wakeup keeps_acquiresleep
  keeps_releasesleep keeps_holdingsleep keeps_kmem_lock keeps_kmem_unlock keeps_kfree
  keeps_kalloc keeps_iderw keeps_bget_cached keeps_bget_unused keeps_bget keeps_bread
  keeps_bwrite keeps_brelse keeps_readsb keeps_install_one keeps_install_trans keeps_read_head
  keeps_write_head keeps_recover_from_log keeps_initlog keeps_begin_op keeps_write_one
  keeps_write_log keeps_commit keeps_end_op keeps_log_write keeps_bzero keeps_balloc_loop
  keeps_balloc keeps_bfree keeps_iget keeps_idup keeps_ialloc_loop keeps_ialloc keeps_iupdate
  keeps_ilock keeps_iunlock keeps_inode_slot keeps_block_slot keeps_bmap keeps_free_entries
  keeps_itrunc_direct keeps_itrunc_indirect keeps_itrunc_double keeps_itrunc keeps_iput
  keeps_iunlockput keeps_consputs keeps_printint keeps_cprintln keeps_consoleread_loop
  keeps_consoleread keeps_consolewrite keeps_readi_loop keeps_readi keeps_writei_loop
  keeps_writei keeps_dirlookup_loop keeps_dirlookup keeps_dirlink_loop keeps_dirlink
  keeps_namex_loop keeps_namex keeps_namei keeps_nameiparent keeps_mload keeps_mstore
  keeps_zero_page keeps_walkpgdir keeps_mappages_loop keeps_mappages keeps_deallocuvm
  keeps_freevm keeps_page_fault keeps_user_byte keeps_uread keeps_uwrite keeps_cprintf
  keeps_deallocuvm_loop : frame.
#[export] Hint Extern 1 (Frame _) => typeclasses eauto : frame.
