(* ===== verification/Paging.v ===== *)
(** * Paging: what the page table code establishes (vm.c)

    [pgtab_ok m pgdir pt] says that the page at [pgdir] is a page directory whose
    tables are the pages [pt] gives, and [pte_of m pgdir va] is the entry the MMU
    finds for [va], 0 when there is none.  The theorems say what the functions of
    vm.c do to [pte_of]: [mappages] installs the entries it is asked for and no
    other, [deallocuvm] removes exactly those of its range, and [allocuvm] makes a
    process grow by fresh zeroed pages or leaves it as it was. *)

From S2P Require Import Prelude Bytes Kernel Sync Kalloc Str Console Vm Frame.

(** ** Addresses and entries *)

Lemma land_lnot_pages x : Z.land x (Z.lnot 0xFFF) = x - x mod 4096.
Proof.
  rewrite <- Z.ldiff_land. change 0xFFF with (Z.ones 12). rewrite Z.ldiff_ones_r by lia.
  rewrite Z.shiftl_mul_pow2, Z.shiftr_div_pow2 by lia. change (2 ^ 12) with 4096.
  pose proof (Z.div_mod x 4096 ltac:(lia)). lia.
Qed.

Lemma PGROUNDDOWN_eq a : PGROUNDDOWN a = a - a mod 4096.
Proof. apply land_lnot_pages. Qed.

Lemma PGROUNDUP_eq sz : 0 <= sz <= 2 ^ 32 - 4096 -> PGROUNDUP sz = (sz + 4095) / 4096 * 4096.
Proof.
  intros H. unfold PGROUNDUP, PGSIZE. rewrite u32_small by lia.
  change (4096 - 1) with 0xFFF. rewrite land_lnot_pages.
  replace (sz + 4096 - 1) with (sz + 4095) by lia. pose proof (Z.div_mod (sz + 4095) 4096 ltac:(lia)). lia.
Qed.

Lemma land_page_low p f : p mod 4096 = 0 -> 0 <= f < 4096 -> Z.land p f = 0.
Proof.
  intros Hp Hf. rewrite <- (Z.mod_small f (2 ^ 12)), <- Z.land_ones by lia.
  rewrite (Z.land_comm f), Z.land_assoc, Z.land_ones by lia. change (2 ^ 12) with 4096. by rewrite Hp.
Qed.

Lemma lor_low p f : p mod 4096 = 0 -> 0 <= f < 4096 -> Z.lor p f = p + f.
Proof. intros Hp Hf. rewrite <- Z.add_lor_land, land_page_low by done. lia. Qed.

Lemma has_low p f mask : p mod 4096 = 0 -> 0 <= mask < 4096 -> has (Z.lor p f) mask = has f mask.
Proof. intros Hp Hm. unfold has. by rewrite Z.land_lor_distr_l, (land_page_low p mask), Z.lor_0_l. Qed.

Lemma PTE_ADDR_pack p f : p mod 4096 = 0 -> 0 <= f < 4096 -> PTE_ADDR (Z.lor p f) = p.
Proof.
  intros Hp Hf. unfold PTE_ADDR. rewrite land_lnot_pages, lor_low by done.
  rewrite Z.add_mod, Hp, Z.add_0_l, Z.mod_mod, Z.mod_small by lia. lia.
Qed.

Lemma PTE_FLAGS_pack p f : p mod 4096 = 0 -> 0 <= f < 4096 -> PTE_FLAGS (Z.lor p f) = f.
Proof.
  intros Hp Hf. unfold PTE_FLAGS. change 0xFFF with (Z.ones 12). rewrite Z.land_ones by lia.
  change (2 ^ 12) with 4096. rewrite lor_low by done.
  rewrite Z.add_mod, Hp, Z.add_0_l, Z.mod_mod, Z.mod_small by lia. lia.
Qed.

(** A page the kernel maps: aligned, in the kernel's half of the address space. *)
Definition kpage (t : Z) : Prop := t mod 4096 = 0 /\ KERNBASE <= t < 2 ^ 32.

Lemma V2P_kpage t : kpage t -> V2P t = t - KERNBASE /\ V2P t mod 4096 = 0 /\ 0 <= V2P t < 2 ^ 31.
Proof.
  intros [Hm Hb]. unfold V2P, KERNBASE in *. rewrite u32_small by lia. split; [done|]. split; [|lia].
  rewrite Zminus_mod, Hm. reflexivity.
Qed.

Lemma P2V_V2P t : kpage t -> P2V (V2P t) = t.
Proof.
  intros H. destruct (V2P_kpage t H) as (-> & _). destruct H as [_ Hb]. unfold P2V, KERNBASE in *.
  rewrite Z.sub_add. apply u32_small. lia.
Qed.

Lemma PDX_eq va : 0 <= va < 2 ^ 32 -> PDX va = va / 2 ^ 22.
Proof.
  intros H. unfold PDX, PDXSHIFT. rewrite u32_small by done. change 0x3FF with (Z.ones 10).
  rewrite Z.land_ones, Z.shiftr_div_pow2 by lia. apply Z.mod_small. split; [apply Z.div_pos; lia|].
  apply Z.div_lt_upper_bound; lia.
Qed.

Lemma PTX_eq va : 0 <= va < 2 ^ 32 -> PTX va = va / 2 ^ 12 mod 2 ^ 10.
Proof.
  intros H. unfold PTX, PTXSHIFT. rewrite u32_small by done. change 0x3FF with (Z.ones 10).
  by rewrite Z.land_ones, Z.shiftr_div_pow2 by lia.
Qed.

Lemma PDX_range va : 0 <= va < 2 ^ 32 -> 0 <= PDX va < 1024.
Proof. intros H. rewrite PDX_eq by done. split; [apply Z.div_pos; lia|]. apply Z.div_lt_upper_bound; lia. Qed.

Lemma PTX_range va : 0 <= va < 2 ^ 32 -> 0 <= PTX va < 1024.
Proof. intros H. rewrite PTX_eq by done. apply (Z.mod_pos_bound _ 1024). lia. Qed.

(** A page of the address space has an entry of its own. *)
Definition upage (va : Z) : Prop := va mod 4096 = 0 /\ 0 <= va < 2 ^ 32.

Lemma upage_index va : upage va -> va = PDX va * 2 ^ 22 + PTX va * 2 ^ 12.
Proof.
  intros [Hm H]. rewrite PDX_eq, PTX_eq by done. change (2 ^ 10) with 1024.
  change (2 ^ 12) with 4096. change (2 ^ 22) with (4096 * 1024). rewrite <- Z.div_div by lia.
  pose proof (Z.div_mod va 4096 ltac:(lia)). pose proof (Z.div_mod (va / 4096) 1024 ltac:(lia)). lia.
Qed.

(** ** Page tables in memory *)

(** The entry for [va], 0 when the directory has no table for it. *)
Definition pte_of (m : mem) (pgdir va : Z) : Z :=
  let pde := load32 m (pgdir + 4 * PDX va) in
  if has pde PTE_P then load32 m (P2V (PTE_ADDR pde) + 4 * PTX va) else 0.

Record pgtab_ok (m : mem) (pgdir : Z) (pt : gmap Z Z) : Prop := {
  pt_dir d : 0 <= d < 1024 ->
    match pt !! d with
    | Some t => load32 m (pgdir + 4 * d) = Z.lor (V2P t) 7
    | None => has (load32 m (pgdir + 4 * d)) PTE_P = false
    end;
  pt_key d t : pt !! d = Some t -> 0 <= d < 1024;
  pt_root : kpage pgdir;
  pt_page d t : pt !! d = Some t -> kpage t /\ t <> pgdir;
  pt_inj d d' t : pt !! d = Some t -> pt !! d' = Some t -> d = d'
}.

Lemma pde_lor t : Z.lor (Z.lor (Z.lor (V2P t) PTE_P) PTE_W) PTE_U = Z.lor (V2P t) 7.
Proof. by rewrite <- !Z.lor_assoc. Qed.

Lemma pte_of_table m pgdir pt va :
  pgtab_ok m pgdir pt -> 0 <= va < 2 ^ 32 ->
  pte_of m pgdir va = match pt !! PDX va with Some t => load32 m (t + 4 * PTX va) | None => 0 end.
Proof.
  intros Hok Hva. unfold pte_of. pose proof (pt_dir _ _ _ Hok (PDX va) (PDX_range va Hva)) as Hd.
  destruct (pt !! PDX va) as [t|] eqn:Et; [|by rewrite Hd]. rewrite Hd.
  destruct (pt_page _ _ _ Hok _ _ Et) as [Ht _]. destruct (V2P_kpage t Ht) as (_ & Hm & _).
  rewrite has_low by (done || unfold PTE_P; lia). simpl (has 7 PTE_P).
  rewrite PTE_ADDR_pack by (done || lia). by rewrite P2V_V2P.
Qed.

(** Pages that are different do not overlap. *)
Lemma kpage_apart t t' : kpage t -> kpage t' -> t <> t' -> t + 4096 <= t' \/ t' + 4096 <= t.
Proof.
  intros [Hm _] [Hm' _] Hne. apply Z.mod_divide in Hm as [a ->], Hm' as [b ->]; lia.
Qed.

(** A write inside one page of a table or to a page of no table. *)
Lemma pgtab_ok_other m m' pgdir pt x :
  pgtab_ok m pgdir pt -> kpage x -> x <> pgdir ->
  (forall a, a < x \/ x + 4096 <= a -> m' a = m a) -> pgtab_ok m' pgdir pt.
Proof.
  intros [Hd Hky Hr Hp Hi] Hx Hne Hm. split; auto. intros d Hb. specialize (Hd d Hb).
  assert (E : load32 m' (pgdir + 4 * d) = load32 m (pgdir + 4 * d)).
  { apply load32_agree. intros a Ha. apply Hm. destruct (kpage_apart x pgdir Hx Hr Hne); lia. }
  by rewrite E.
Qed.

Lemma pte_of_other m m' pgdir pt x va :
  pgtab_ok m pgdir pt -> kpage x -> x <> pgdir -> (forall d, pt !! d <> Some x) ->
  (forall a, a < x \/ x + 4096 <= a -> m' a = m a) -> 0 <= va < 2 ^ 32 ->
  pte_of m' pgdir va = pte_of m pgdir va.
Proof.
  intros Hok Hx Hne Hn Hm Hva. pose proof (pgtab_ok_other _ m' _ _ x Hok Hx Hne Hm) as Hok'.
  rewrite (pte_of_table m' pgdir pt), (pte_of_table m pgdir pt) by done.
  destruct (pt !! PDX va) as [t|] eqn:Et; [|done]. destruct (pt_page _ _ _ Hok _ _ Et) as [Ht _].
  pose proof (PTX_range va Hva). assert (x <> t) by (intros ->; by apply (Hn (PDX va))).
  apply load32_agree. intros a Ha. apply Hm. destruct (kpage_apart x t Hx Ht); [done|lia..].
Qed.

(** Writing the entry of a page changes that entry only. *)
Lemma pte_store m pgdir pt va t v :
  pgtab_ok m pgdir pt -> upage va -> pt !! PDX va = Some t -> 0 <= v < 2 ^ 32 ->
  pgtab_ok (store32 m (t + 4 * PTX va) v) pgdir pt /\
  (forall w, upage w -> pte_of (store32 m (t + 4 * PTX va) v) pgdir w = if w =? va then v else pte_of m pgdir w) /\
  (forall a, a < t \/ t + 4096 <= a -> store32 m (t + 4 * PTX va) v a = m a).
Proof.
  intros Hok Hva Ht Hv. destruct (pt_page _ _ _ Hok _ _ Ht) as [Hk Hne].
  pose proof (PTX_range va (proj2 Hva)) as Hx.
  assert (Hout : forall a, a < t \/ t + 4096 <= a -> store32 m (t + 4 * PTX va) v a = m a).
  { intros a Ha. apply store32_out. lia. }
  assert (Hok' : pgtab_ok (store32 m (t + 4 * PTX va) v) pgdir pt) by (by eapply pgtab_ok_other).
  split; [done|]. split; [|done]. intros w Hw. rewrite !(pte_of_table _ pgdir pt) by (done || apply Hw).
  pose proof (PTX_range w (proj2 Hw)) as Hxw. destruct (Z.eqb_spec w va) as [->|Hwv].
  - rewrite Ht, load32_store32_eq. by apply u32_small.
  - destruct (pt !! PDX w) as [t'|] eqn:Et; [|done]. destruct (decide (t' = t)) as [->|Htt].
    + apply load32_store32_ne. assert (PDX w = PDX va) as Hd by (by eapply (pt_inj _ _ _ Hok)).
      assert (PTX w <> PTX va).
      { intros E. apply Hwv. rewrite (upage_index w Hw), (upage_index va Hva). by rewrite Hd, E. }
      lia.
    + destruct (pt_page _ _ _ Hok _ _ Et) as [Hk' _]. apply load32_agree. intros a Ha. apply Hout.
      destruct (kpage_apart t t' Hk Hk'); [congruence|lia..].
Qed.

(** ** An address space and the free pages *)

Record space_ok (k : kernel) (free : list Z) (pgdir : Z) (pt : gmap Z Z) : Prop := {
  sp_kmem : kmem_ok k free;
  sp_tab : pgtab_ok (k_mem k) pgdir pt;
  sp_root : good_page k pgdir /\ pgdir ∉ free;
  sp_pages d t : pt !! d = Some t -> good_page k t /\ t ∉ free
}.

(** Byte [a] is in no page of the directory and its tables. *)
Definition outside (pgdir : Z) (pt : gmap Z Z) (a : Z) : Prop :=
  (a < pgdir \/ pgdir + 4096 <= a) /\ forall d t, pt !! d = Some t -> a < t \/ t + 4096 <= a.

(** What building tables does: pages go from the free list to the tables, and only
    their bytes and those of the tables change. *)
Record grows (pgdir : Z) (k : kernel) (free : list Z) (pt : gmap Z Z)
    (k' : kernel) (free' : list Z) (pt' : gmap Z Z) : Prop := {
  gr_state : exists m f, k' = set_k_mem m (set_k_freelist f k);
  gr_ok : space_ok k' free' pgdir pt';
  gr_tables : pt ⊆ pt';
  gr_free : exists used, free = used ++ free' /\
    (forall d t, pt' !! d = Some t -> pt !! d = Some t \/ t ∈ used) /\
    (forall t, t ∈ used -> exists d, pt' !! d = Some t);
  gr_mem a : outside pgdir pt' a -> k_mem k' a = k_mem k a
}.

Lemma grows_refl pgdir k free pt : space_ok k free pgdir pt -> grows pgdir k free pt k free pt.
Proof.
  intros H. split; try done.
  - exists (k_mem k), (k_freelist k). by destruct k.
  - exists []. split; [done|]. split; [by left|by intros t ?%elem_of_nil].
Qed.

Lemma grows_trans pgdir k1 f1 p1 k2 f2 p2 k3 f3 p3 :
  grows pgdir k1 f1 p1 k2 f2 p2 -> grows pgdir k2 f2 p2 k3 f3 p3 -> grows pgdir k1 f1 p1 k3 f3 p3.
Proof.
  intros [S1 O1 T1 (u1 & F1 & I1 & J1) M1] [S2 O2 T2 (u2 & F2 & I2 & J2) M2]. split; [|done|by etrans| |].
  - destruct S1 as (m1 & g1 & ->), S2 as (m2 & g2 & ->). by exists m2, g2.
  - exists (u1 ++ u2). split; [by rewrite F1, F2, app_assoc|]. split.
    + intros d t Ht. rewrite elem_of_app. destruct (I2 d t Ht) as [H|H]; [|tauto]. destruct (I1 d t H); tauto.
    + intros t [H|H]%elem_of_app; [|by apply J2]. destruct (J1 t H) as [d Hd]. exists d. by eapply lookup_weaken.
  - intros a [Ha Hb]. rewrite (M2 a) by done. apply M1. split; [done|]. intros d t Ht. apply (Hb d).
    by eapply lookup_weaken.
Qed.

Lemma good_kpage k v : KERNBASE <= k_end k -> good_page k v -> kpage v.
Proof. intros He (Hm & Hb & _ & Hl). split; [done|]. unfold KERNBASE in *. lia. Qed.

(** What [space_ok] asks of the state does not change with the memory. *)
Lemma good_page_mem k m f v : good_page (set_k_mem m (set_k_freelist f k)) v <-> good_page k v.
Proof. done. Qed.

Lemma walkpgdir_found k pgdir pt va alloc t :
  pgtab_ok (k_mem k) pgdir pt -> 0 <= va < 2 ^ 32 -> pt !! PDX va = Some t ->
  walkpgdir pgdir va alloc k = Ok (t + 4 * PTX va) k.
Proof.
  intros Hok Hva Ht. unfold walkpgdir, mload, bind, gets.
  pose proof (pt_dir _ _ _ Hok (PDX va) (PDX_range va Hva)) as Hd. rewrite Ht in Hd.
  destruct (pt_page _ _ _ Hok _ _ Ht) as [Hk _]. destruct (V2P_kpage t Hk) as (_ & Hm & _).
  rewrite Hd, has_low by (done || unfold PTE_P; lia). simpl (has 7 PTE_P).
  rewrite PTE_ADDR_pack by (done || lia). by rewrite P2V_V2P.
Qed.

Lemma walkpgdir_none k pgdir pt va :
  pgtab_ok (k_mem k) pgdir pt -> 0 <= va < 2 ^ 32 -> pt !! PDX va = None ->
  walkpgdir pgdir va false k = Ok 0 k.
Proof.
  intros Hok Hva Ht. unfold walkpgdir, mload, bind, gets.
  pose proof (pt_dir _ _ _ Hok (PDX va) (PDX_range va Hva)) as Hd. rewrite Ht in Hd. by rewrite Hd.
Qed.

Lemma load32_zero m a : (forall x, a <= x < a + 4 -> m x = 0) -> load32 m a = 0.
Proof. intros H. unfold load32. rewrite !H by lia. reflexivity. Qed.

(** The memory after a new table [t] is put in the directory. *)
Definition new_table (m : mem) (pgdir va t : Z) : mem :=
  store32 (memset m t 0 PGSIZE) (pgdir + 4 * PDX va) (Z.lor (V2P t) 7).

(** The bytes of other pages are not in page [t]. *)
Lemma not_in_page t x a :
  kpage t -> kpage x -> x <> t -> x <= a < x + 4096 -> (t <=? a) && (a <? t + 4096) = false.
Proof.
  intros Ht Hx Hne Ha. apply andb_false_iff. rewrite Z.leb_gt, Z.ltb_ge.
  destruct (kpage_apart x t Hx Ht Hne); lia.
Qed.

Lemma new_table_ok m pgdir pt va t :
  pgtab_ok m pgdir pt -> kpage t -> t <> pgdir -> (forall d, pt !! d <> Some t) ->
  upage va -> pt !! PDX va = None ->
  let m' := new_table m pgdir va t in
  pgtab_ok m' pgdir (<[PDX va := t]> pt) /\
  (forall w, upage w -> pte_of m' pgdir w = pte_of m pgdir w) /\
  (forall a, a < t \/ t + 4096 <= a -> a < pgdir \/ pgdir + 4096 <= a -> m' a = m a).
Proof.
  intros Hok Hk Hne Hn Hva Hp m'. pose proof (PDX_range va (proj2 Hva)) as Hdx.
  pose proof (pt_root _ _ _ Hok) as Hr.
  assert (Hmem : forall a, a < pgdir + 4 * PDX va \/ pgdir + 4 * PDX va + 4 <= a ->
    m' a = if (t <=? a) && (a <? t + 4096) then 0 else m a).
  { intros a Ha. unfold m', new_table. rewrite store32_out by lia. by rewrite memset_byte by (unfold PGSIZE; lia). }
  assert (Hother : forall x a, kpage x -> x <> t -> x <= a < x + 4096 ->
    a < pgdir + 4 * PDX va \/ pgdir + 4 * PDX va + 4 <= a -> m' a = m a).
  { intros x a Hx Hxt Ha Hb. rewrite Hmem by done. by rewrite (not_in_page t x). }
  destruct (V2P_kpage t Hk) as (_ & Hm & Hb).
  assert (Hl : 0 <= Z.lor (V2P t) 7 < 2 ^ 32) by (rewrite lor_low by (done || lia); lia).
  assert (Hok' : pgtab_ok m' pgdir (<[PDX va := t]> pt)).
  { split.
    - intros d Hd. destruct (decide (d = PDX va)) as [->|Hdv].
      + rewrite lookup_insert_eq. unfold m', new_table. rewrite load32_store32_eq. by apply u32_small.
      + rewrite lookup_insert_ne by done.
        assert (E : load32 m' (pgdir + 4 * d) = load32 m (pgdir + 4 * d)).
        { apply load32_agree. intros a Ha. apply (Hother pgdir); [done|done|lia|lia]. }
        rewrite E. by apply (pt_dir _ _ _ Hok).
    - intros d t' Ht'. apply lookup_insert_Some in Ht' as [[<- _]|[_ Ht']]; [done|by eapply (pt_key _ _ _ Hok)].
    - done.
    - intros d t' Ht'. apply lookup_insert_Some in Ht' as [[_ <-]|[_ Ht']]; [done|by eapply (pt_page _ _ _ Hok)].
    - intros d d' t' H1 H2. apply lookup_insert_Some in H1 as [[<- <-]|[_ H1]].
      + apply lookup_insert_Some in H2 as [[<- _]|[_ H2]]; [done|by apply Hn in H2].
      + apply lookup_insert_Some in H2 as [[_ <-]|[_ H2]]; [by apply Hn in H1|by eapply (pt_inj _ _ _ Hok)]. }
  split; [done|]. split.
  - intros w Hw. pose proof (PTX_range w (proj2 Hw)) as Hx.
    rewrite (pte_of_table m' _ _ w Hok' (proj2 Hw)), (pte_of_table m _ _ w Hok (proj2 Hw)).
    destruct (decide (PDX w = PDX va)) as [E|E].
    + rewrite E, lookup_insert_eq, Hp. apply load32_zero. intros a Ha.
      rewrite Hmem by (destruct (kpage_apart t pgdir Hk Hr Hne); lia).
      rewrite (proj2 (andb_true_iff _ _)); [done|]. rewrite Z.leb_le, Z.ltb_lt. lia.
    + rewrite lookup_insert_ne by done. destruct (pt !! PDX w) as [t'|] eqn:Et; [|done].
      destruct (pt_page _ _ _ Hok _ _ Et) as [Hk' Hne'].
      apply load32_agree. intros a Ha. apply (Hother t'); [done| |lia|].
      * intros ->. by apply Hn in Et.
      * destruct (kpage_apart t' pgdir Hk' Hr Hne'); lia.
  - intros a Ha Ha'. rewrite Hmem by lia. rewrite (proj2 (andb_false_iff _ _)); [done|].
    rewrite Z.leb_gt, Z.ltb_ge. lia.
Qed.

(** The kernel with another memory and free list. *)
Definition with_mem (m : mem) (f : Z) (k : kernel) : kernel := set_k_mem m (set_k_freelist f k).

(** A page is taken from the free list, and the memory changes outside the free
    pages. *)
Lemma space_with_mem k t free pgdir pt pt' m' :
  space_ok k (t :: free) pgdir pt -> pgtab_ok m' pgdir pt' ->
  (forall a x, x ∈ free -> x <= a < x + 4096 -> m' a = k_mem k a) ->
  (forall d u, pt' !! d = Some u -> pt !! d = Some u \/ u = t) ->
  space_ok (with_mem m' (load32 (k_mem k) t) k) free pgdir pt'.
Proof.
  intros [Hk Ht [Hrg Hrf] Hp] Hok' Hm Hpt. pose proof Hk as [Hr Hnd Hg He].
  apply NoDup_cons in Hnd as [Hnt Hnd]. apply Forall_cons in Hg as [Hgt Hg]. destruct Hr as [_ Hr].
  apply not_elem_of_cons in Hrf as [_ Hrf]. split.
  - split; [|done|done|done]. eapply freelist_rep_agree; [|exact Hr]. intros a Ha. symmetry.
    apply load32_agree. intros x Hx. apply (Hm x a Ha). lia.
  - done.
  - by split.
  - intros d u Hu. destruct (Hpt d u Hu) as [H| ->]; [|by split].
    apply Hp in H as [? H]. split; [done|]. by apply not_elem_of_cons in H as [_ ?].
Qed.

Lemma walkpgdir_new k free t pgdir pt va :
  space_ok k (t :: free) pgdir pt -> kmem_free_lock k -> upage va -> pt !! PDX va = None ->
  walkpgdir pgdir va true k =
    Ok (t + 4 * PTX va) (with_mem (new_table (k_mem k) pgdir va t) (load32 (k_mem k) t) k).
Proof.
  intros [Hk Ht _ _] Hl Hva Et. unfold walkpgdir.
  pose proof (pt_dir _ _ _ Ht (PDX va) (PDX_range va (proj2 Hva))) as Hd. rewrite Et in Hd.
  unfold mload, bind at 1, gets. rewrite Hd. change (negb true) with false. cbv iota.
  destruct (kalloc_pop k _ Hk Hl) as (k1 & Ea & _ & ->). rewrite (bind_ok _ _ _ _ _ Ea).
  pose proof (kmem_good _ _ Hk) as Hg. apply Forall_cons in Hg as [Hgt _].
  rewrite (proj2 (Z.eqb_neq t 0)) by (pose proof (good_page_pos k t (kmem_end _ _ Hk) Hgt); lia).
  by rewrite pde_lor.
Qed.

(** [walkpgdir] with [alloc]: the table there is, a new one, or none when no page is
    free; the entries are what they were. *)
Lemma walkpgdir_alloc k free pgdir pt va :
  space_ok k free pgdir pt -> kmem_free_lock k -> upage va ->
  exists r k' free' pt', walkpgdir pgdir va true k = Ok r k' /\
    grows pgdir k free pt k' free' pt' /\
    (forall w, upage w -> pte_of (k_mem k') pgdir w = pte_of (k_mem k) pgdir w) /\
    (length free <= length free' + 1)%nat /\
    (r = 0 /\ free = [] /\ free' = [] /\ k' = k \/
     exists t, pt' !! PDX va = Some t /\ r = t + 4 * PTX va /\ r <> 0).
Proof.
  intros Hs Hl Hva. pose proof Hs as [Hk Ht [Hrg Hrf] Hp].
  pose proof (PTX_range va (proj2 Hva)) as Hx. destruct (pt !! PDX va) as [t|] eqn:Et.
  - exists (t + 4 * PTX va), k, free, pt. destruct (pt_page _ _ _ Ht _ _ Et) as [[_ Hb] _].
    split; [by eapply walkpgdir_found; [|apply Hva|]|]. split; [by apply grows_refl|]. split; [done|]. split; [lia|].
    right. exists t. split; [done|]. split; [done|]. unfold KERNBASE in Hb. lia.
  - destruct free as [|t free].
    + exists 0, k, [], pt. split; [|split; [by apply grows_refl|split; [done|split; [simpl; lia|by left]]]].
      unfold walkpgdir. pose proof (pt_dir _ _ _ Ht (PDX va) (PDX_range va (proj2 Hva))) as Hd. rewrite Et in Hd.
      unfold mload, bind at 1, gets. rewrite Hd. change (negb true) with false. cbv iota.
      by rewrite (bind_ok _ _ _ _ _ (kalloc_pop k [] Hk Hl)).
    + pose proof (walkpgdir_new k free t pgdir pt va Hs Hl Hva Et) as Ew.
      pose proof (kmem_end _ _ Hk) as He. pose proof (kmem_good _ _ Hk) as Hg. apply Forall_cons in Hg as [Hgt Hg].
      pose proof (good_kpage k t He Hgt) as Hkt. pose proof (kmem_nodup _ _ Hk) as Hnd.
      apply NoDup_cons in Hnd as [Hnt _]. apply not_elem_of_cons in Hrf as [Hne Hrf]. apply not_eq_sym in Hne.
      assert (Hn : forall d, pt !! d <> Some t).
      { intros d Hd'. apply Hp in Hd' as [_ Hd']. by apply not_elem_of_cons in Hd' as [? _]. }
      destruct (new_table_ok (k_mem k) pgdir pt va t Ht Hkt Hne Hn Hva Et) as (Hok' & Hpte & Hout).
      generalize dependent (new_table (k_mem k) pgdir va t). intros m' Ew Hok' Hpte Hout.
      eexists (t + 4 * PTX va), _, free, (<[PDX va := t]> pt). split; [exact Ew|].
      assert (Hpt : forall d u, <[PDX va := t]> pt !! d = Some u -> pt !! d = Some u \/ u = t).
      { intros d u Hu. apply lookup_insert_Some in Hu as [[_ <-]|[_ Hu]]; auto. }
      split; [|split; [done|split; [simpl; lia|right; exists t; rewrite lookup_insert_eq; split; [done|]; split; [done|destruct Hkt; unfold KERNBASE in *; lia]]]].
      split.
      * by eexists _, _.
      * apply (space_with_mem k t free pgdir pt); [done|done| |done]. intros a x Hxf Ha. rewrite Forall_forall in Hg.
        pose proof (good_kpage k x He (Hg x Hxf)) as Hkx. apply Hout.
        -- destruct (kpage_apart x t Hkx Hkt); [congruence|lia..].
        -- destruct (kpage_apart x pgdir Hkx (pt_root _ _ _ Ht)); [congruence|lia..].
      * by apply insert_subseteq.
      * exists [t]. split; [done|]. split.
        -- intros d u Hu. rewrite list_elem_of_singleton. by apply Hpt.
        -- intros u ->%list_elem_of_singleton. exists (PDX va). by rewrite lookup_insert_eq.
      * intros a [Ha Hb]. apply Hout; [|done]. apply (Hb (PDX va)). by rewrite lookup_insert_eq.
Qed.

(** ** mappages *)

Lemma grows_lock pgdir k free pt k' free' pt' :
  grows pgdir k free pt k' free' pt' -> kmem_free_lock k -> kmem_free_lock k'.
Proof. intros [(m & f & ->) _ _ _ _]. done. Qed.

(** Writing an entry in one of the tables. *)
Lemma grows_store pgdir k free pt va t v :
  space_ok k free pgdir pt -> upage va -> pt !! PDX va = Some t -> 0 <= v < 2 ^ 32 ->
  let k' := set_k_mem (store32 (k_mem k) (t + 4 * PTX va) v) k in
  grows pgdir k free pt k' free pt /\
  forall w, upage w -> pte_of (k_mem k') pgdir w = if w =? va then v else pte_of (k_mem k) pgdir w.
Proof.
  intros Hs Hva Ht Hv k'. pose proof Hs as [Hk Hok [Hrg Hrf] Hp].
  destruct (pte_store (k_mem k) pgdir pt va t v Hok Hva Ht Hv) as (Hok' & Hpte & Hout).
  destruct (Hp _ _ Ht) as [Hgt Hnt]. unfold k'. clear k'. generalize dependent (store32 (k_mem k) (t + 4 * PTX va) v).
  intros m' Hok' Hpte Hout. split; [|done]. split.
  - exists m', (k_freelist k). by destruct k.
  - split; [|done|done|done]. by apply (kmem_ok_mem k free m' t).
  - done.
  - exists []. split; [done|]. split; [by left|by intros x ?%elem_of_nil].
  - intros a [_ Ha]. apply Hout. by apply (Ha _ _ Ht).
Qed.

Definition mapped_entry (pa perm : Z) : Z := Z.lor (Z.lor pa perm) PTE_P.

Lemma present_range perm : 0 <= perm < 4096 -> 0 <= Z.lor perm PTE_P < 4096.
Proof.
  intros Hp. split; [rewrite Z.lor_nonneg; unfold PTE_P; lia|]. destruct (Z.eq_dec perm 0) as [->|]; [done|].
  apply Z.log2_lt_cancel. rewrite Z.log2_lor by (unfold PTE_P; lia). simpl (Z.log2 PTE_P).
  apply Z.max_lub_lt; [|done]. change (Z.log2 4096) with 12. apply Z.log2_lt_pow2; lia.
Qed.

Lemma has_present perm : has (Z.lor perm PTE_P) PTE_P = true.
Proof.
  unfold has. rewrite Z.land_lor_distr_l. apply negb_true_iff, Z.eqb_neq. rewrite Z.lor_eq_0_iff. by intros [_ ?].
Qed.

Lemma mapped_entry_range pa perm :
  pa mod 4096 = 0 -> 0 <= pa < 2 ^ 32 -> 0 <= perm < 4096 -> 0 <= mapped_entry pa perm < 2 ^ 32.
Proof.
  intros Hm Hpa Hp. unfold mapped_entry. rewrite <- Z.lor_assoc. pose proof (present_range perm Hp).
  rewrite lor_low by done. pose proof (Z.div_mod pa 4096 ltac:(lia)). lia.
Qed.

Section Mappages.
Context (pgdir perm : Z) (Hperm : 0 <= perm < 4096).

(** What [n] entries from [a] on, pointing to the pages from [pa] on, make of the
    entries [old]. *)
Definition with_run (old : Z -> Z) (a n pa w : Z) : Z :=
  if (a <=? w) && (w <? a + 4096 * n) then mapped_entry (pa + (w - a)) perm else old w.

Lemma with_run_first old a n pa w :
  upage a -> upage w -> 0 <= n ->
  with_run (fun w => if w =? a then mapped_entry pa perm else old w) (a + 4096) n (pa + 4096) w =
  with_run old a (n + 1) pa w.
Proof.
  intros [Ha _] [Hw _] Hn. unfold with_run. destruct (Z.eqb_spec w a) as [->|Hne].
  - rewrite (proj2 (andb_false_iff _ _)) by (rewrite Z.leb_gt; lia).
    rewrite (proj2 (andb_true_iff _ _)) by (rewrite Z.leb_le, Z.ltb_lt; lia). f_equal. lia.
  - apply Z.mod_divide in Ha as [x ->], Hw as [y ->]; [|lia..].
    replace (pa + 4096 + (y * 4096 - (x * 4096 + 4096))) with (pa + (y * 4096 - x * 4096)) by lia.
    replace ((x * 4096 <=? y * 4096) && (y * 4096 <? x * 4096 + 4096 * (n + 1)))
      with ((x * 4096 + 4096 <=? y * 4096) && (y * 4096 <? x * 4096 + 4096 + 4096 * n)); [done|].
    apply eq_bool_prop_intro. rewrite !andb_True, !Is_true_true, !Z.leb_le, !Z.ltb_lt. lia.
Qed.

Lemma mappages_loop_ok n : forall k free pt a pa,
  space_ok k free pgdir pt -> kmem_free_lock k -> upage a -> a + 4096 * Z.of_nat n < 2 ^ 32 ->
  pa mod 4096 = 0 -> 0 <= pa -> pa + 4096 * Z.of_nat n < 2 ^ 32 ->
  (forall i, 0 <= i <= Z.of_nat n -> has (pte_of (k_mem k) pgdir (a + 4096 * i)) PTE_P = false) ->
  exists r j k' free' pt', mappages_loop (S n) pgdir a (a + 4096 * Z.of_nat n) pa perm k = Ok r k' /\
    grows pgdir k free pt k' free' pt' /\
    (r = 0 /\ j = Z.of_nat n + 1 \/ r = -1 /\ free' = [] /\ 0 <= j <= Z.of_nat n) /\
    Z.of_nat (length free) <= Z.of_nat (length free') + j /\
    forall w, upage w -> pte_of (k_mem k') pgdir w = with_run (pte_of (k_mem k) pgdir) a j pa w.
Proof.
  induction n as [|n IH]; intros k free pt a pa Hs Hl Ha Hend Hm Hpa Hpe Hun; cbn [mappages_loop].
  all: destruct (walkpgdir_alloc k free pgdir pt a Hs Hl Ha) as (r & k1 & free1 & pt1 & Ew & G1 & P1 & Hlen & Hr);
    rewrite (bind_ok _ _ _ _ _ Ew);
    destruct Hr as [(-> & -> & -> & ->)|(t & Ht & -> & Hnz)].
  1,3: exists (-1), 0, k, [], pt1; split; [done|]; split; [done|]; split; [right; split; [done|split; [done|lia]]|];
    split; [simpl; lia|]; intros w Hw; unfold with_run; rewrite (proj2 (andb_false_iff _ _)); [done|]; rewrite Z.leb_gt, Z.ltb_ge; lia.
  all: rewrite (proj2 (Z.eqb_neq _ _) Hnz); unfold mload, bind at 1, gets;
    assert (Ev : load32 (k_mem k1) (t + 4 * PTX a) = pte_of (k_mem k1) pgdir a) by
      (rewrite (pte_of_table _ _ pt1) by (apply G1 || apply Ha); by rewrite Ht);
    rewrite Ev, P1 by done; pose proof (Hun 0 ltac:(lia)) as H0; rewrite Z.mul_0_r, Z.add_0_r in H0; rewrite H0;
    destruct (grows_store pgdir k1 free1 pt1 a t (mapped_entry pa perm) (gr_ok _ _ _ _ _ _ _ G1) Ha Ht
      (mapped_entry_range pa perm Hm ltac:(lia) Hperm)) as [G2 P2];
    rewrite (bind_ok _ _ _ _ _ (eq_refl : mstore (t + 4 * PTX a) (Z.lor (Z.lor pa perm) PTE_P) k1 = Ok tt _));
    fold (mapped_entry pa perm); pose proof (grows_trans _ _ _ _ _ _ _ _ _ _ G1 G2) as G;
    set (k2 := set_k_mem (store32 (k_mem k1) (t + 4 * PTX a) (mapped_entry pa perm)) k1) in *.
  - rewrite (proj2 (Z.eqb_eq _ _)) by lia. exists 0, 1, k2, free1, pt1. split; [done|]. split; [done|].
    split; [left; lia|]. split; [lia|]. intros w Hw. rewrite P2, P1 by done.
    change 1 with (0 + 1) at 1. rewrite <- (with_run_first (pte_of (k_mem k) pgdir) a 0 pa w) by (done || lia).
    unfold with_run. rewrite (proj2 (andb_false_iff (a + 4096 <=? w) _)); [done|].
    rewrite Z.leb_gt, Z.ltb_ge. lia.
  - pose proof (proj2 Ha). rewrite (proj2 (Z.eqb_neq _ _)) by lia. unfold PGSIZE. rewrite (u32_small (a + 4096)), (u32_small (pa + 4096)) by lia.
    destruct (IH k2 free1 pt1 (a + 4096) (pa + 4096)) as (r & j & k3 & free3 & pt3 & E3 & G3 & Hr & L3 & P3); auto; try lia.
    + apply (gr_ok _ _ _ _ _ _ _ G).
    + by eapply grows_lock.
    + destruct Ha as [Ha1 Ha2]. split; [|lia]. by rewrite Z.add_mod, Ha1 by lia.
    + by rewrite Z.add_mod, Hm by lia.
    + intros i Hi. assert (upage (a + 4096 + 4096 * i)).
      { destruct Ha as [Ha1 Ha2]. split; [|lia]. replace (a + 4096 + 4096 * i) with (a + (1 + i) * 4096) by lia.
        by rewrite Z.mod_add by lia. }
      rewrite P2, P1 by done. rewrite (proj2 (Z.eqb_neq _ _)) by lia.
      replace (a + 4096 + 4096 * i) with (a + 4096 * (i + 1)) by lia. apply Hun. lia.
    + exists r, (j + 1), k3, free3, pt3.
      replace (a + 4096 * Z.of_nat (S n)) with (a + 4096 + 4096 * Z.of_nat n) by lia. split; [done|].
      split; [by eapply grows_trans|]. split; [destruct Hr as [?|(-> & -> & ?)]; [left; lia|right; split; [done|split; [done|lia]]]|].
      split; [lia|]. intros w Hw. rewrite P3 by done.
      rewrite <- (with_run_first (pte_of (k_mem k) pgdir)) by (done || lia).
      unfold with_run. case_bool; [done|]. by rewrite P2, P1.
Qed.

End Mappages.

Lemma mappages_run k free pgdir pt va n pa perm :
  space_ok k free pgdir pt -> kmem_free_lock k ->
  upage va -> 0 < n -> va + 4096 * n <= 2 ^ 32 ->
  pa mod 4096 = 0 -> 0 <= pa -> pa + 4096 * n <= 2 ^ 32 -> 0 <= perm < 4096 ->
  (forall i, 0 <= i < n -> has (pte_of (k_mem k) pgdir (va + 4096 * i)) PTE_P = false) ->
  exists r j k' free' pt', mappages pgdir va (4096 * n) pa perm k = Ok r k' /\
    grows pgdir k free pt k' free' pt' /\
    (r = 0 /\ j = n \/ r = -1 /\ free' = [] /\ 0 <= j < n) /\
    Z.of_nat (length free) <= Z.of_nat (length free') + j /\
    forall w, upage w -> pte_of (k_mem k') pgdir w =
      if (va <=? w) && (w <? va + 4096 * j) then Z.lor (Z.lor (pa + (w - va)) perm) PTE_P
      else pte_of (k_mem k) pgdir w.
Proof.
  intros Hs Hl Hva Hn Hend Hm Hpa Hpe Hperm Hun. unfold mappages. pose proof Hva as [Ha Hb].
  assert (El : PGROUNDDOWN (u32 (va + 4096 * n - 1)) = va + 4096 * (n - 1)).
  { rewrite u32_small, PGROUNDDOWN_eq by lia.
    replace (va + 4096 * n - 1) with (4095 + (va / 4096 + n - 1) * 4096)
      by (pose proof (Z.div_mod va 4096 ltac:(lia)); lia).
    rewrite Z.mod_add, Z.mod_small by lia. pose proof (Z.div_mod va 4096 ltac:(lia)). lia. }
  rewrite El, PGROUNDDOWN_eq, Ha, Z.sub_0_r.
  replace (va + 4096 * (n - 1) - va) with ((n - 1) * 4096) by lia.
  rewrite u32_small by lia. unfold PGSIZE. rewrite Z.div_mul by lia.
  destruct (mappages_loop_ok pgdir perm Hperm (Z.to_nat (n - 1)) k free pt va pa)
    as (r & j & k' & free' & pt' & E & G & Hr & L & P); auto; try lia.
  { intros i Hi. apply Hun. lia. }
  rewrite Z2Nat.id in E, Hr by lia. exists r, j, k', free', pt'. split; [exact E|]. split; [done|].
  split; [destruct Hr as [?|(-> & -> & ?)]; [left; lia|right; split; [done|split; [done|lia]]]|]. split; [exact L|exact P].
Qed.

(** [mappages] installs the mappings it is asked for: for [n] pages none of which is
    mapped, it returns 0 with the entry of every page of the range set to its
    physical page and permissions, or, when it runs out of pages for the tables,
    returns -1 with the first [j] pages of the range mapped and no page free.  It takes
    at most one free page for each page it maps.  No other
    entry changes, and no memory outside the tables does. *)
Theorem mappages_maps k free pgdir pt va n pa perm :
  space_ok k free pgdir pt -> kmem_free_lock k ->
  upage va -> 0 < n -> va + 4096 * n <= 2 ^ 32 ->
  pa mod 4096 = 0 -> 0 <= pa -> pa + 4096 * n <= 2 ^ 32 -> 0 <= perm < 4096 ->
  (forall i, 0 <= i < n -> has (pte_of (k_mem k) pgdir (va + 4096 * i)) PTE_P = false) ->
  exists r j k' free' pt', mappages pgdir va (4096 * n) pa perm k = Ok r k' /\
    grows pgdir k free pt k' free' pt' /\
    (r = 0 /\ j = n \/ r = -1 /\ free' = [] /\ 0 <= j < n) /\
    Z.of_nat (length free) <= Z.of_nat (length free') + j /\
    forall w, upage w -> pte_of (k_mem k') pgdir w =
      if (va <=? w) && (w <? va + 4096 * j) then Z.lor (Z.lor (pa + (w - va)) perm) PTE_P
      else pte_of (k_mem k) pgdir w.
Proof. apply mappages_run. Qed.

(** ** The user part of an address space *)

(** [um] gives, for every user page that is mapped, the page of memory behind it. *)
Record user_ok (k : kernel) (free : list Z) (pgdir : Z) (pt um : gmap Z Z) : Prop := {
  us_space : space_ok k free pgdir pt;
  us_end : KERNBASE < k_end k;
  us_page va u : um !! va = Some u ->
    upage va /\ va < KERNBASE /\ good_page k u /\ (u ∉ free) /\ u <> pgdir /\ (forall d, pt !! d <> Some u);
  us_inj va va' u : um !! va = Some u -> um !! va' = Some u -> va = va';
  us_pte va u : um !! va = Some u ->
    exists fl, 0 <= fl < 4096 /\ has fl PTE_P = true /\ pte_of (k_mem k) pgdir va = Z.lor (V2P u) fl;
  us_none va : upage va -> va < KERNBASE -> um !! va = None -> has (pte_of (k_mem k) pgdir va) PTE_P = false
}.

(** The bytes of the pages in [um] are the same in both states. *)
Definition same_bytes (um : gmap Z Z) (k k' : kernel) : Prop :=
  forall va u x, um !! va = Some u -> u <= x < u + 4096 -> k_mem k' x = k_mem k x.

Lemma user_kpage k free pgdir pt um va u :
  user_ok k free pgdir pt um -> um !! va = Some u -> kpage u /\ V2P u <> 0.
Proof.
  intros H Hu. destruct (us_page _ _ _ _ _ H va u Hu) as (_ & _ & Hg & _).
  pose proof (us_end _ _ _ _ _ H) as He. assert (Hk : kpage u) by (by apply (good_kpage k); [lia|]).
  split; [done|]. destruct (V2P_kpage u Hk) as (-> & _). destruct Hg as (_ & Hg & _). lia.
Qed.

(** Tables that grow leave the user pages alone. *)
Lemma user_grows k free pgdir pt um k' free' pt' :
  user_ok k free pgdir pt um -> grows pgdir k free pt k' free' pt' ->
  (forall w, upage w -> pte_of (k_mem k') pgdir w = pte_of (k_mem k) pgdir w) ->
  user_ok k' free' pgdir pt' um /\ same_bytes um k k'.
Proof.
  intros H [(m & f & ->) Ho Ht (used & Hf & Hin & _) Hm] Hp. split.
  - split; [done|apply H| |apply H| |].
    + intros va u Hu. destruct (us_page _ _ _ _ _ H va u Hu) as (H1 & H2 & H3 & H4 & H5 & H6).
      split; [done|]. split; [done|]. split; [done|]. rewrite Hf, elem_of_app in H4. split; [tauto|]. split; [done|].
      intros d Hd. destruct (Hin d u Hd) as [E|E]; [by apply (H6 d)|tauto].
    + intros va u Hu. destruct (us_page _ _ _ _ _ H va u Hu) as (H1 & _).
      destruct (us_pte _ _ _ _ _ H va u Hu) as (fl & F1 & F2 & F3). exists fl. rewrite Hp by done. done.
    + intros va Hva Hl Hn. rewrite Hp by done. by apply (us_none _ _ _ _ _ H).
  - intros va u x Hu Hx. destruct (user_kpage _ _ _ _ _ _ _ H Hu) as [Hku _].
    destruct (us_page _ _ _ _ _ H va u Hu) as (_ & _ & _ & H4 & H5 & H6). apply Hm. split.
    + destruct (kpage_apart u pgdir Hku (pt_root _ _ _ (sp_tab _ _ _ _ (us_space _ _ _ _ _ H)))); [done|lia..].
    + intros d t Hd. destruct (pt_page _ _ _ (sp_tab _ _ _ _ Ho) d t Hd) as [Hkt _].
      destruct (kpage_apart u t Hku Hkt); [|lia..]. intros ->. rewrite Hf, elem_of_app in H4.
      destruct (Hin d t Hd) as [E|E]; [by apply (H6 d)|tauto].
Qed.

(** Removing a user page: its entry cleared and its page free. *)
Lemma user_remove k free pgdir pt um va u t :
  user_ok k free pgdir pt um -> um !! va = Some u -> pt !! PDX va = Some t ->
  let k1 := set_k_freelist u (set_k_mem (kfree_mem k u) k) in
  let k2 := set_k_mem (store32 (k_mem k1) (t + 4 * PTX va) 0) k1 in
  user_ok k2 (u :: free) pgdir pt (delete va um) /\ same_bytes (delete va um) k k2.
Proof.
  intros H Hu Ht k1 k2. destruct (us_page _ _ _ _ _ H va u Hu) as (Hva & Hl & Hg & Hnf & Hnr & Hnt).
  destruct (user_kpage _ _ _ _ _ _ _ H Hu) as [Hku _]. pose proof (us_space _ _ _ _ _ H) as [Hk Hok [Hrg Hrf] Hp].
  pose proof (kmem_ok_push k free u Hk Hg Hnf) as Hk1. fold k1 in Hk1.
  pose proof (kfree_mem_out k u) as Hout. unfold PGSIZE in Hout.
  assert (Hok1 : pgtab_ok (k_mem k1) pgdir pt) by (eapply (pgtab_ok_other (k_mem k)); eauto).
  assert (P1 : forall w, upage w -> pte_of (k_mem k1) pgdir w = pte_of (k_mem k) pgdir w).
  { intros w Hw. eapply pte_of_other; eauto. apply Hw. }
  assert (S1 : space_ok k1 (u :: free) pgdir pt).
  { split; [done|done|split; [done|by apply not_elem_of_cons]|]. intros d t' Ht'. destruct (Hp d t' Ht') as [? ?].
    split; [done|]. apply not_elem_of_cons. split; [|done]. intros ->. by apply (Hnt d). }
  destruct (grows_store pgdir k1 (u :: free) pt va t 0 S1 Hva Ht ltac:(lia)) as [G P2]. fold k2 in G, P2.
  assert (Hdel : forall w v, delete va um !! w = Some v -> um !! w = Some v /\ w <> va /\ v <> u).
  { intros w v Hw. apply lookup_delete_Some in Hw as [Hne Hw]. split; [done|]. split; [done|]. intros ->.
    apply Hne. by apply (us_inj _ _ _ _ _ H va w u). }
  split.
  - split; [apply G|apply H| | | |].
    + intros w v Hw. apply Hdel in Hw as (Hw & _ & Hvu). destruct (us_page _ _ _ _ _ H w v Hw) as (? & ? & ? & ? & ? & ?).
      split; [done|]. split; [done|]. split; [done|]. split; [by apply not_elem_of_cons|done].
    + intros w w' v Hw Hw'. apply Hdel in Hw as (Hw & _), Hw' as (Hw' & _). by apply (us_inj _ _ _ _ _ H w w' v).
    + intros w v Hw. apply Hdel in Hw as (Hw & Hne & _). destruct (us_page _ _ _ _ _ H w v Hw) as (Hpw & _).
      destruct (us_pte _ _ _ _ _ H w v Hw) as (fl & F1 & F2 & F3). exists fl.
      rewrite P2, (proj2 (Z.eqb_neq _ _)), P1 by done. done.
    + intros w Hw Hlw Hn. rewrite P2 by done. destruct (Z.eqb_spec w va) as [->|Hne]; [done|].
      rewrite P1 by done. apply (us_none _ _ _ _ _ H); [done|done|]. by rewrite lookup_delete_ne in Hn.
  - intros w v x Hw Hx. apply Hdel in Hw as (Hw & _ & Hvu). destruct (user_kpage _ _ _ _ _ _ _ H Hw) as [Hkv _].
    destruct (us_page _ _ _ _ _ H w v Hw) as (_ & _ & _ & _ & _ & Hvt).
    destruct (pt_page _ _ _ Hok _ _ Ht) as [Hkt _].
    transitivity (k_mem k1 x).
    + pose proof (PTX_range va (proj2 Hva)). unfold k2. apply store32_out.
      destruct (kpage_apart v t Hkv Hkt); [intros ->; by apply (Hvt (PDX va))|lia..].
    + apply Hout. destruct (kpage_apart v u Hkv Hku); [done|lia..].
Qed.

(** ** deallocuvm *)

(** The user pages outside [lo .. hi). *)
Definition del_range (um : gmap Z Z) (lo hi : Z) : gmap Z Z :=
  filter (fun p => ~ (lo <= p.1 < hi)) um.

Lemma del_range_Some um lo hi va u :
  del_range um lo hi !! va = Some u <-> um !! va = Some u /\ ~ (lo <= va < hi).
Proof. unfold del_range. apply map_lookup_filter_Some. Qed.

Lemma del_range_empty um lo hi : hi <= lo -> del_range um lo hi = um.
Proof.
  intros H. apply map_eq. intros va. apply option_eq. intros u. rewrite del_range_Some. intuition lia.
Qed.

(** Nothing is mapped from [lo] to [lo']. *)
Lemma del_range_skip um lo lo' hi :
  lo <= lo' -> (forall va u, um !! va = Some u -> lo <= va < lo' -> False) -> del_range um lo hi = del_range um lo' hi.
Proof.
  intros Hl H. apply map_eq. intros va. apply option_eq. intros u. rewrite !del_range_Some.
  split; intros [Hu Hr]; split; try done; [intros ?; apply Hr; lia|]. intros Hb. apply Hr. split; [|lia].
  destruct (decide (va < lo')); [|lia]. exfalso. apply (H va u); [done|lia].
Qed.

Lemma del_range_delete um a hi :
  (forall va u, um !! va = Some u -> upage va) -> upage a -> a < hi ->
  del_range (delete a um) (a + 4096) hi = del_range um a hi.
Proof.
  intros Hp Ha Hh. apply map_eq. intros va. apply option_eq. intros u. rewrite !del_range_Some, lookup_delete_Some.
  split.
  - intros [[Hne Hu] Hr]. split; [done|]. pose proof (Hp va u Hu) as [Hm _]. destruct Ha as [Hma _].
    apply Z.mod_divide in Hm as [x ->], Hma as [y ->]; lia.
  - intros [Hu Hr]. split; [split; [|done]|]; lia.
Qed.

(** A user page that the tables do not reach is not mapped. *)
Lemma user_no_table k free pgdir pt um va :
  user_ok k free pgdir pt um -> upage va -> pt !! PDX va = None -> um !! va = None.
Proof.
  intros H Hva Ht. destruct (um !! va) as [u|] eqn:Hu; [|done]. exfalso.
  destruct (us_pte _ _ _ _ _ H va u Hu) as (fl & Hf & F2 & F3).
  rewrite (pte_of_table _ _ pt) in F3 by (apply H || apply Hva). rewrite Ht in F3.
  destruct (user_kpage _ _ _ _ _ _ _ H Hu) as [Hk Hnz]. destruct (V2P_kpage u Hk) as (_ & Hm & Hb).
  rewrite lor_low in F3 by done. lia.
Qed.

(** The address at which the loop goes on when there is no table. *)
Lemma next_dir a :
  upage a -> a < KERNBASE ->
  let a' := u32 (u32 (PGADDR (PDX a + 1) 0 0 - PGSIZE) + PGSIZE) in
  a' = (PDX a + 1) * 2 ^ 22 /\ upage a' /\ a + 4096 <= a' /\
  forall va, upage va -> a <= va < a' -> PDX va = PDX a.
Proof.
  intros Ha Hk a'. pose proof (PDX_range a (proj2 Ha)) as Hd. pose proof (PTX_range a (proj2 Ha)) as Ht.
  pose proof (upage_index a Ha) as Hi. assert (Hd' : PDX a < 512) by (unfold KERNBASE in Hk; lia).
  assert (E : a' = (PDX a + 1) * 2 ^ 22).
  { unfold a', PGADDR, PDXSHIFT, PTXSHIFT, PGSIZE. rewrite Z.shiftl_0_l, !Z.lor_0_r, Z.shiftl_mul_pow2 by lia.
    rewrite (u32_small ((PDX a + 1) * 2 ^ 22)) by lia.
    rewrite (u32_small ((PDX a + 1) * 2 ^ 22 - 4096)) by lia. rewrite u32_small by lia. lia. }
  rewrite E. split; [done|]. split.
  - split; [|lia]. replace ((PDX a + 1) * 2 ^ 22) with ((PDX a + 1) * 1024 * 4096) by lia. apply Z.mod_mul. lia.
  - split; [lia|]. intros va Hva Hr. pose proof (upage_index va Hva). pose proof (PTX_range va (proj2 Hva)).
    pose proof (PDX_range va (proj2 Hva)). lia.
Qed.

(** What freeing user pages does to the rest: the pages in [gone] are free again, and
    only their bytes and those of the tables change. *)
Record shrinks (k : kernel) (free : list Z) (pt : gmap Z Z) (gone : list Z) (k' : kernel) (free' : list Z) : Prop := {
  sh_state : exists m f, k' = set_k_mem m (set_k_freelist f k);
  sh_free : free' = gone ++ free;
  sh_mem a : (forall d t, pt !! d = Some t -> a < t \/ t + 4096 <= a) ->
    (forall u, u ∈ gone -> a < u \/ u + 4096 <= a) -> k_mem k' a = k_mem k a
}.

Lemma deallocuvm_loop_ok fuel : forall k free pgdir pt um a oldsz,
  user_ok k free pgdir pt um -> kmem_free_lock k -> upage a -> oldsz <= KERNBASE ->
  oldsz - a <= 4096 * Z.of_nat fuel ->
  exists k' free' gone, deallocuvm_loop fuel pgdir a oldsz k = Ok tt k' /\
    user_ok k' free' pgdir pt (del_range um a oldsz) /\ same_bytes (del_range um a oldsz) k k' /\
    shrinks k free pt gone k' free' /\ (forall u, u ∈ gone <-> exists va, a <= va < oldsz /\ um !! va = Some u).
Proof.
  induction fuel as [|fuel IH]; intros k free pgdir pt um a oldsz H Hl Ha Hk Hf; cbn [deallocuvm_loop].
  all: destruct (Z.ltb_spec a oldsz) as [Hlt|Hge]; [try lia|
    exists k, free, []; rewrite del_range_empty by done; split; [done|]; split; [done|]; split; [done|];
    split; [split; [exists (k_mem k), (k_freelist k); by destruct k|done|done]|];
    intros u; split; [by intros ?%elem_of_nil|intros (va & Hr & _); lia]].
  assert (Hkb : a < KERNBASE) by lia. pose proof (us_space _ _ _ _ _ H) as Hs.
  assert (Hua : upage (a + 4096)).
  { destruct Ha as [Hm Hb]. unfold KERNBASE in *. split; [by rewrite Z.add_mod, Hm by lia|lia]. }
  assert (Hup : forall va u, um !! va = Some u -> upage va) by (intros va u Hu; apply (us_page _ _ _ _ _ H va u Hu)).
  destruct (pt !! PDX a) as [t|] eqn:Et.
  - rewrite (bind_ok _ _ _ _ _ (walkpgdir_found k pgdir pt a false t (sp_tab _ _ _ _ Hs) (proj2 Ha) Et)).
    destruct (pt_page _ _ _ (sp_tab _ _ _ _ Hs) _ _ Et) as [[_ Hkt] _]. pose proof (PTX_range a (proj2 Ha)).
    rewrite (proj2 (Z.eqb_neq _ _)) by (unfold KERNBASE in *; lia). unfold mload at 1, bind at 1, gets.
    assert (Ev : load32 (k_mem k) (t + 4 * PTX a) = pte_of (k_mem k) pgdir a).
    { rewrite (pte_of_table _ _ pt) by (apply Hs || apply Ha). by rewrite Et. }
    rewrite Ev. unfold PGSIZE. rewrite (u32_small (a + 4096)) by apply Hua.
    destruct (um !! a) as [u|] eqn:Hu.
    + destruct (us_pte _ _ _ _ _ H a u Hu) as (fl & F1 & F2 & F3). rewrite F3.
      destruct (user_kpage _ _ _ _ _ _ _ H Hu) as [Hku Hnz]. destruct (V2P_kpage u Hku) as (_ & Hm & _).
      rewrite has_low, F2 by (done || unfold PTE_P; lia). rewrite PTE_ADDR_pack by done.
      rewrite (proj2 (Z.eqb_neq _ _) Hnz), P2V_V2P by done.
      destruct (us_page _ _ _ _ _ H a u Hu) as (_ & _ & Hg & _).
      destruct (user_remove k free pgdir pt um a u t H Hu Et) as [H2 B2].
      rewrite (bind_ok _ _ tt k (set_k_mem (store32 (kfree_mem k u) (t + 4 * PTX a) 0) (set_k_freelist u (set_k_mem (kfree_mem k u) k)))).
      2: { by rewrite (bind_ok _ _ _ _ _ (kfree_eq k u Hg Hl)). }
      set (k2 := set_k_mem (store32 _ _ _) _) in *.
      destruct (IH k2 (u :: free) pgdir pt (delete a um) (a + 4096) oldsz H2) as (k' & free' & gone & E & H' & B' & S' & G'); try done; [lia|].
      exists k', free', (gone ++ [u]). rewrite del_range_delete in * by done. split; [done|]. split; [done|].
      split; [|split].
      * intros va v x Hv Hx. rewrite (B' va v x Hv Hx). apply (B2 va v x); [|done].
        apply del_range_Some in Hv as [Hv Hr]. apply lookup_delete_Some. split; [lia|done].
      * destruct S' as [(m & f & ->) -> S']. split; [by exists m, f|by rewrite <- app_assoc|].
        intros b Hb Hg'. rewrite S'; [|done|intros v Hv; apply Hg', elem_of_app; by left].
        unfold k2. cbn [k_mem set_k_mem]. rewrite store32_out by (destruct (Hb _ _ Et); lia).
        apply kfree_mem_out, Hg', elem_of_app. right. by apply list_elem_of_singleton.
      * intros v. rewrite elem_of_app, G', list_elem_of_singleton. split.
        -- intros [(va & Hr & Hv)| ->]; [|exists a; split; [lia|done]].
           apply lookup_delete_Some in Hv as [_ Hv]. exists va. split; [lia|done].
        -- intros (va & Hr & Hv). destruct (decide (va = a)) as [->|Hne]; [right; congruence|left].
           exists va. pose proof (Hup va v Hv) as [Hmv _]. destruct Ha as [Hma _]. split.
           ++ apply Z.mod_divide in Hmv as [x ->], Hma as [y ->]; lia.
           ++ by apply lookup_delete_Some.
    + rewrite (us_none _ _ _ _ _ H a Ha Hkb Hu).
      destruct (IH k free pgdir pt um (a + 4096) oldsz H) as (k' & free' & gone & E & H' & B' & S' & G'); try done; [lia|].
      assert (Hno : forall va v, um !! va = Some v -> a <= va < a + 4096 -> False).
      { intros va v Hv Hr. pose proof (Hup va v Hv) as [Hmv _]. destruct Ha as [Hma _].
        assert (va = a) as -> by (apply Z.mod_divide in Hmv as [x ->], Hma as [y ->]; lia). congruence. }
      rewrite <- (del_range_skip um a) in * by (lia || done). exists k', free', gone. split; [done|].
      split; [done|]. split; [done|]. split; [done|]. intros v. rewrite G'. split; intros (va & Hr & Hv); exists va; (split; [|done]).
      * lia.
      * destruct (decide (va < a + 4096)); [exfalso; apply (Hno va v); [done|lia]|lia].
  - rewrite (bind_ok _ _ _ _ _ (walkpgdir_none k pgdir pt a (sp_tab _ _ _ _ Hs) (proj2 Ha) Et)). rewrite Z.eqb_refl.
    destruct (next_dir a Ha Hkb) as (Ea & Hp' & Hle & Hsame). cbv zeta in Ea, Hp', Hle, Hsame. cbv zeta.
    set (a' := u32 (u32 (PGADDR (PDX a + 1) 0 0 - PGSIZE) + PGSIZE)) in *.
    destruct (IH k free pgdir pt um a' oldsz H) as (k' & free' & gone & E & H' & B' & S' & G'); try done; [lia|].
    assert (Hno : forall va v, um !! va = Some v -> a <= va < a' -> False).
    { intros va v Hv Hr. pose proof (Hup va v Hv) as Hvp.
      rewrite (user_no_table k free pgdir pt um va H Hvp) in Hv; [done|]. by rewrite (Hsame va Hvp Hr). }
    rewrite <- (del_range_skip um a) in * by (lia || done). exists k', free', gone. split; [done|].
    split; [done|]. split; [done|]. split; [done|]. intros v. rewrite G'. split; intros (va & Hr & Hv); exists va; (split; [|done]).
    + lia.
    + destruct (decide (va < a')); [exfalso; apply (Hno va v); [done|lia]|lia].
Qed.

Lemma PGROUNDUP_page sz : 0 <= sz <= KERNBASE -> upage (PGROUNDUP sz) /\ sz <= PGROUNDUP sz < sz + 4096.
Proof.
  intros H. unfold KERNBASE in H. rewrite PGROUNDUP_eq by lia.
  pose proof (Z.div_mod (sz + 4095) 4096 ltac:(lia)). pose proof (Z.mod_pos_bound (sz + 4095) 4096 ltac:(lia)).
  split; [split; [apply Z.mod_mul; lia|lia]|lia].
Qed.

Lemma deallocuvm_run k free pgdir pt um oldsz newsz :
  user_ok k free pgdir pt um -> kmem_free_lock k -> 0 <= newsz < oldsz -> oldsz <= KERNBASE ->
  exists k' free' gone, deallocuvm pgdir oldsz newsz k = Ok newsz k' /\
    user_ok k' free' pgdir pt (del_range um (PGROUNDUP newsz) oldsz) /\
    same_bytes (del_range um (PGROUNDUP newsz) oldsz) k k' /\
    shrinks k free pt gone k' free' /\
    (forall u, u ∈ gone <-> exists va, PGROUNDUP newsz <= va < oldsz /\ um !! va = Some u).
Proof.
  intros H Hl Hn Ho. unfold deallocuvm. rewrite (proj2 (Z.leb_gt _ _)) by lia.
  destruct (PGROUNDUP_page newsz ltac:(lia)) as [Hp Hr]. unfold PGSIZE.
  edestruct (deallocuvm_loop_ok (Z.to_nat ((oldsz - PGROUNDUP newsz + 4096 - 1) / 4096)) k free pgdir pt um
    (PGROUNDUP newsz) oldsz H Hl Hp Ho) as (k' & free' & gone & E & H' & B & S & G).
  - pose proof (Z.div_mod (oldsz - PGROUNDUP newsz + 4096 - 1) 4096 ltac:(lia)).
    pose proof (Z.mod_pos_bound (oldsz - PGROUNDUP newsz + 4096 - 1) 4096 ltac:(lia)). lia.
  - rewrite (bind_ok _ _ _ _ _ E). by exists k', free', gone.
Qed.

(** C21: [deallocuvm] frees exactly the user pages of its range: it returns the new size,
    every mapped page from the new size (rounded up) to the old one is unmapped and
    its memory is on the free list, once; every other page stays mapped as it was
    with its bytes.  Skipping to the next directory entry where there is no table
    leaves out nothing, and the loop ends within one turn for each page. *)
Theorem deallocuvm_frees k free pgdir pt um oldsz newsz :
  user_ok k free pgdir pt um -> kmem_free_lock k -> 0 <= newsz < oldsz -> oldsz <= KERNBASE ->
  exists k' free' gone, deallocuvm pgdir oldsz newsz k = Ok newsz k' /\
    user_ok k' free' pgdir pt (del_range um (PGROUNDUP newsz) oldsz) /\
    same_bytes (del_range um (PGROUNDUP newsz) oldsz) k k' /\ free' = gone ++ free /\
    (forall u, u ∈ gone <-> exists va, PGROUNDUP newsz <= va < oldsz /\ um !! va = Some u).
Proof.
  intros H Hl Hn Ho. destruct (deallocuvm_run k free pgdir pt um oldsz newsz H Hl Hn Ho)
    as (k' & free' & gone & E & H' & B & [_ S _] & G). by exists k', free', gone.
Qed.

(** ** allocuvm *)

(** The pages there are: free, tables, or behind user pages. *)
Definition owned (free : list Z) (pt um : gmap Z Z) (x : Z) : Prop :=
  x ∈ free \/ (exists d, pt !! d = Some x) \/ (exists va, um !! va = Some x).

Lemma owned_grows pgdir k free pt k' free' pt' um x :
  grows pgdir k free pt k' free' pt' -> owned free pt um x <-> owned free' pt' um x.
Proof.
  intros [_ _ Ht (used & -> & Hin & Hout) _]. unfold owned. rewrite elem_of_app. split.
  - intros [[H|H]|[[d Hd]|H]]; [|by left| |tauto].
    + right. left. by apply Hout.
    + right. left. exists d. by eapply lookup_weaken.
  - intros [H|[[d Hd]|H]]; [tauto| |tauto]. destruct (Hin d x Hd); [|tauto]. right. left. by exists d.
Qed.

(** A page is not used for anything yet. *)
Definition fresh_page (k : kernel) (free : list Z) (pgdir : Z) (pt um : gmap Z Z) (u : Z) : Prop :=
  good_page k u /\ (u ∉ free) /\ u <> pgdir /\ (forall d, pt !! d <> Some u) /\ (forall va, um !! va <> Some u).

(** A page taken from the free list may be written. *)
Lemma user_take_any k free u pgdir pt um m :
  user_ok k (u :: free) pgdir pt um -> (forall x, x < u \/ u + 4096 <= x -> m x = k_mem k x) ->
  let k2 := with_mem m (load32 (k_mem k) u) k in
  user_ok k2 free pgdir pt um /\ same_bytes um k k2 /\ fresh_page k2 free pgdir pt um u /\
  (forall w, upage w -> pte_of (k_mem k2) pgdir w = pte_of (k_mem k) pgdir w).
Proof.
  intros H Hout k2. pose proof (us_space _ _ _ _ _ H) as Hs. pose proof Hs as [Hk Hok [Hrg Hrf] Hp].
  pose proof Hk as [_ Hnd Hg He]. apply NoDup_cons in Hnd as [Hnu _]. apply Forall_cons in Hg as [Hgu Hg].
  apply not_elem_of_cons in Hrf as [Hru Hrf]. pose proof (good_kpage k u He Hgu) as Hku.
  assert (Hnt : forall d, pt !! d <> Some u).
  { intros d Hd. apply Hp in Hd as [_ Hd]. by apply not_elem_of_cons in Hd as [? _]. }
  assert (Hnm : forall va, um !! va <> Some u).
  { intros va Hva. destruct (us_page _ _ _ _ _ H va u Hva) as (_ & _ & _ & Hf & _). by apply not_elem_of_cons in Hf as [? _]. }
  assert (Hok2 : pgtab_ok (k_mem k2) pgdir pt) by (eapply (pgtab_ok_other (k_mem k)); eauto).
  assert (Hpte : forall w, upage w -> pte_of (k_mem k2) pgdir w = pte_of (k_mem k) pgdir w).
  { intros w Hw. eapply pte_of_other; eauto. apply Hw. }
  split; [split|split; [|split; [|done]]].
  - apply (space_with_mem k u free pgdir pt); [done|done| |auto]. intros a x Hx Ha. rewrite Forall_forall in Hg.
    apply Hout. destruct (kpage_apart x u (good_kpage k x He (Hg x Hx)) Hku); [congruence|lia..].
  - apply H.
  - intros va v Hv. destruct (us_page _ _ _ _ _ H va v Hv) as (? & ? & ? & Hf & ? & ?).
    apply not_elem_of_cons in Hf as [_ Hf]. done.
  - apply H.
  - intros va v Hv. destruct (us_page _ _ _ _ _ H va v Hv) as (Hva & _). rewrite Hpte by done. by apply (us_pte _ _ _ _ _ H).
  - intros va Hva Hl Hn. rewrite Hpte by done. by apply (us_none _ _ _ _ _ H).
  - intros va v x Hv Hx. apply Hout. destruct (user_kpage _ _ _ _ _ _ _ H Hv) as [Hkv _].
    destruct (kpage_apart v u Hkv Hku); [intros ->; by apply (Hnm va)|lia..].
  - split; [done|]. split; [done|]. split; [congruence|done].
Qed.

Lemma user_take k free u pgdir pt um :
  user_ok k (u :: free) pgdir pt um ->
  let k2 := with_mem (memset (k_mem k) u 0 PGSIZE) (load32 (k_mem k) u) k in
  user_ok k2 free pgdir pt um /\ same_bytes um k k2 /\ fresh_page k2 free pgdir pt um u /\
  (forall x, u <= x < u + 4096 -> k_mem k2 x = 0) /\
  (forall w, upage w -> pte_of (k_mem k2) pgdir w = pte_of (k_mem k) pgdir w).
Proof.
  intros H k2. assert (Hm : forall x, k_mem k2 x = if (u <=? x) && (x <? u + 4096) then 0 else k_mem k x).
  { intros x. unfold k2. cbn [k_mem with_mem set_k_mem]. by rewrite memset_byte by (unfold PGSIZE; lia). }
  destruct (user_take_any k free u pgdir pt um (k_mem k2) H) as (A & B & C & D).
  - intros x Hx. rewrite Hm. rewrite (proj2 (andb_false_iff _ _)); [done|]. rewrite Z.leb_gt, Z.ltb_ge. lia.
  - split; [exact A|]. split; [exact B|]. split; [exact C|]. split; [|exact D].
    intros x Hx. rewrite Hm. rewrite (proj2 (andb_true_iff _ _)); [done|]. rewrite Z.leb_le, Z.ltb_lt. lia.
Qed.

Lemma fresh_grows k free pgdir pt um u k' free' pt' :
  fresh_page k free pgdir pt um u -> grows pgdir k free pt k' free' pt' -> fresh_page k' free' pgdir pt' um u.
Proof.
  intros (Hg & Hnf & Hnr & Hnt & Hnm) [(m & f & ->) _ _ (used & -> & Hin & _) _].
  apply not_elem_of_app in Hnf as [Hu Hf]. split; [done|]. split; [done|]. split; [done|]. split; [|done].
  intros d Hd. destruct (Hin d u Hd) as [E|E]; [by apply (Hnt d)|done].
Qed.

(** A fresh page behind a user page that was not mapped. *)
Lemma user_map k free pgdir pt um k' free' pt' a u fl :
  user_ok k free pgdir pt um -> fresh_page k free pgdir pt um u -> grows pgdir k free pt k' free' pt' ->
  upage a -> a < KERNBASE -> um !! a = None -> 0 <= fl < 4096 -> has fl PTE_P = true ->
  (forall w, upage w -> pte_of (k_mem k') pgdir w = if w =? a then Z.lor (V2P u) fl else pte_of (k_mem k) pgdir w) ->
  user_ok k' free' pgdir pt' (<[a := u]> um) /\ same_bytes (<[a := u]> um) k k'.
Proof.
  intros H (Hg & Hnf & Hnr & Hnt & Hnm) [(m & f & ->) Ho Ht (used & Hf & Hin & _) Hmem] Ha Hk Hua Hfl Hfp Hp.
  assert (Hins : forall va v, <[a := u]> um !! va = Some v -> va = a /\ v = u \/ va <> a /\ um !! va = Some v).
  { intros va v Hv. apply lookup_insert_Some in Hv as [[<- <-]|[? ?]]; [by left|right; by split]. }
  assert (Hpg : forall v, (v ∉ free) -> (forall d, pt !! d <> Some v) -> (v ∉ free') /\ forall d, pt' !! d <> Some v).
  { intros v Hv1 Hv2. rewrite Hf, elem_of_app in Hv1. split; [tauto|]. intros d Hd.
    destruct (Hin d v Hd) as [E|E]; [by apply (Hv2 d)|tauto]. }
  split; [split; [done|apply H| | | |]|].
  - intros va v Hv. apply Hins in Hv as [[-> ->]|[_ Hv]].
    + destruct (Hpg u Hnf Hnt). done.
    + destruct (us_page _ _ _ _ _ H va v Hv) as (? & ? & ? & Hv1 & ? & Hv2). destruct (Hpg v Hv1 Hv2). done.
  - intros va va' v Hv Hv'. apply Hins in Hv as [[-> ->]|[_ Hv]]; apply Hins in Hv' as [[-> E]|[_ Hv']]; subst; try done.
    + by apply Hnm in Hv'.
    + by apply Hnm in Hv.
    + by apply (us_inj _ _ _ _ _ H va va' v).
  - intros va v Hv. apply Hins in Hv as [[-> ->]|[Hne Hv]].
    + exists fl. rewrite Hp, Z.eqb_refl by done. done.
    + destruct (us_page _ _ _ _ _ H va v Hv) as (Hva & _). rewrite Hp, (proj2 (Z.eqb_neq _ _)) by done.
      by apply (us_pte _ _ _ _ _ H).
  - intros va Hva Hl Hn. apply lookup_insert_None in Hn as [Hn Hne]. rewrite Hp, (proj2 (Z.eqb_neq _ _)) by done.
    by apply (us_none _ _ _ _ _ H).
  - intros va v x Hv Hx.
    assert (Hv' : kpage v /\ v <> pgdir /\ (v ∉ free) /\ forall d, pt !! d <> Some v).
    { apply Hins in Hv as [[-> ->]|[_ Hv]].
      - split; [|done]. apply (good_kpage k); [|done]. pose proof (us_end _ _ _ _ _ H). lia.
      - destruct (us_page _ _ _ _ _ H va v Hv) as (? & ? & ? & ? & ? & ?).
        split; [by apply (user_kpage _ _ _ _ _ _ _ H Hv)|done]. }
    destruct Hv' as (Hkv & Hvr & Hv1 & Hv2). destruct (Hpg v Hv1 Hv2) as [_ Hv3]. apply Hmem. split.
    + destruct (kpage_apart v pgdir Hkv (pt_root _ _ _ (sp_tab _ _ _ _ Ho)) Hvr); lia.
    + intros d t Hd. destruct (pt_page _ _ _ (sp_tab _ _ _ _ Ho) d t Hd) as [Hkt _].
      destruct (kpage_apart v t Hkv Hkt); [intros ->; by apply (Hv3 d)|lia..].
Qed.

(** Nothing of [user_ok] depends on the console. *)
Lemma user_cons k free pgdir pt um c :
  user_ok k free pgdir pt um -> user_ok (set_k_cons c k) free pgdir pt um.
Proof.
  intros [[Hk Ht Hr Hp] He H1 H2 H3 H4]. split; try done. split; try done. by destruct Hk; split.
Qed.

(** The console can be written to. *)
Definition can_print (k : kernel) : Prop := k_panicked k = false /\ L_cons ∉ k_held k.

Lemma cprintf_loop_plain fmt : forall k,
  k_panicked k = false -> 37 ∉ fmt -> cprintf_loop fmt [] k = Ok tt (set_k_cons (k_cons k ++ fmt) k).
Proof.
  induction fmt as [|c fmt IH]; intros k Hp Hn; cbn [cprintf_loop].
  - unfold ret. rewrite app_nil_r. by destruct k.
  - apply not_elem_of_cons in Hn as [Hc Hn]. rewrite (proj2 (Z.eqb_neq c 37)) by congruence.
    change (negb false) with true. cbv iota. rewrite (bind_ok _ _ _ _ _ (consputc_ok c k Hp)).
    rewrite IH by done. f_equal. destruct k; cbn. by rewrite <- app_assoc.
Qed.

Lemma cprintln_plain s k :
  can_print k -> 37 ∉ chars s ->
  cprintln s [] k = Ok tt (set_k_cons (k_cons k ++ chars s ++ [10]) k).
Proof.
  intros [Hp Hl] Hn. unfold cprintln, cprintf. mget.
  assert (Hn' : 37 ∉ chars s ++ [10]) by (rewrite elem_of_app, list_elem_of_singleton; intros [?|?]; done).
  destruct (k_locking k) eqn:E; unfold when.
  - rewrite (bind_ok _ _ _ _ _ (acquire_ok L_cons k Hl)).
    erewrite bind_ok by (by apply cprintf_loop_plain). erewrite release_ok by reflexivity. by destruct k.
  - rewrite (bind_ok _ _ _ _ _ (eq_refl : ret tt k = Ok tt k)).
    by erewrite bind_ok by (by apply cprintf_loop_plain).
Qed.

(** Giving a page back that was taken and not used. *)
Lemma user_give k free pgdir pt um u :
  user_ok k free pgdir pt um -> fresh_page k free pgdir pt um u -> kmem_free_lock k ->
  exists k', kfree u k = Ok tt k' /\ user_ok k' (u :: free) pgdir pt um /\ same_bytes um k k'.
Proof.
  intros H (Hg & Hnf & Hnr & Hnt & Hnm) Hl. eexists. split; [by apply kfree_eq|].
  pose proof (us_space _ _ _ _ _ H) as [Hk Hok [Hrg Hrf] Hp]. pose proof (kmem_ok_push k free u Hk Hg Hnf) as Hk1.
  pose proof (good_kpage k u (kmem_end _ _ Hk) Hg) as Hku. pose proof (kfree_mem_out k u) as Hout. unfold PGSIZE in Hout.
  set (k1 := set_k_freelist u (set_k_mem (kfree_mem k u) k)) in *.
  assert (Hok1 : pgtab_ok (k_mem k1) pgdir pt) by (eapply (pgtab_ok_other (k_mem k)); eauto).
  assert (P1 : forall w, upage w -> pte_of (k_mem k1) pgdir w = pte_of (k_mem k) pgdir w).
  { intros w Hw. eapply pte_of_other; eauto. apply Hw. }
  split.
  - split; [|apply H| |apply H| |].
    + split; [done|done|split; [done|by apply not_elem_of_cons]|]. intros d t Ht. destruct (Hp d t Ht) as [? ?].
      split; [done|]. apply not_elem_of_cons. split; [|done]. intros ->. by apply (Hnt d).
    + intros va v Hv. destruct (us_page _ _ _ _ _ H va v Hv) as (? & ? & ? & ? & ? & ?). split; [done|].
      split; [done|]. split; [done|]. split; [|done]. apply not_elem_of_cons. split; [|done]. intros ->. by apply (Hnm va).
    + intros va v Hv. destruct (us_page _ _ _ _ _ H va v Hv) as (Hva & _). rewrite P1 by done. by apply (us_pte _ _ _ _ _ H).
    + intros va Hva Hlt Hn. rewrite P1 by done. by apply (us_none _ _ _ _ _ H).
  - intros va v x Hv Hx. destruct (user_kpage _ _ _ _ _ _ _ H Hv) as [Hkv _]. apply Hout.
    destruct (kpage_apart v u Hkv Hku); [intros ->; by apply (Hnm va)|lia..].
Qed.

(** ** Mapping a fresh page *)

Lemma page_run_single a w n : upage a -> upage w -> n = 1 ->
  (a <=? w) && (w <? a + 4096 * n) = (w =? a).
Proof.
  intros [Hm _] [Hm' _] ->. destruct (Z.eqb_spec w a) as [->|Hne].
  - apply andb_true_iff. rewrite Z.leb_le, Z.ltb_lt. lia.
  - apply andb_false_iff. rewrite Z.leb_gt, Z.ltb_ge.
    apply Z.mod_divide in Hm as [y ->], Hm' as [z ->]; lia.
Qed.

(** [mappages] of one page that was taken from the free list: it is behind page [a] now;
    or there is no page for a table, and everything is as it was. *)
Lemma map_fresh k free pgdir pt um a u perm :
  user_ok k free pgdir pt um -> fresh_page k free pgdir pt um u -> kmem_free_lock k ->
  upage a -> a < KERNBASE -> um !! a = None -> 0 <= perm < 4096 ->
  exists r k' free' pt', mappages pgdir a PGSIZE (V2P u) perm k = Ok r k' /\ grows pgdir k free pt k' free' pt' /\
    Z.of_nat (length free) <= Z.of_nat (length free') + 1 /\
    (r = 0 /\ user_ok k' free' pgdir pt' (<[a := u]> um) /\ same_bytes (<[a := u]> um) k k' /\
       (forall w, upage w -> pte_of (k_mem k') pgdir w =
          if w =? a then Z.lor (V2P u) (Z.lor perm PTE_P) else pte_of (k_mem k) pgdir w) \/
     r = -1 /\ free = [] /\ free' = [] /\ user_ok k' [] pgdir pt' um /\ same_bytes um k k' /\
       fresh_page k' [] pgdir pt' um u).
Proof.
  intros H F Hl Ha Hak Hua Hperm. pose proof (sp_kmem _ _ _ _ (us_space _ _ _ _ _ H)) as Hk.
  pose proof (good_kpage k u (kmem_end _ _ Hk) (proj1 F)) as Hku. destruct (V2P_kpage u Hku) as (_ & Hmu & Hbu).
  destruct (mappages_run k free pgdir pt a 1 (V2P u) perm) as (r & j & k' & free' & pt' & E & G & Hrj & L & P);
    [apply H|done|done|lia|unfold KERNBASE in *; destruct Ha; lia|done|lia|lia|done| |].
  { intros i Hi. assert (i = 0) as -> by lia. rewrite Z.mul_0_r, Z.add_0_r. by apply (us_none _ _ _ _ _ H). }
  exists r, k', free', pt'. split; [exact E|]. split; [done|]. split; [lia|].
  destruct Hrj as [[-> ->]|(-> & -> & Hj)].
  - left. assert (Hpt : forall w, upage w -> pte_of (k_mem k') pgdir w =
      if w =? a then Z.lor (V2P u) (Z.lor perm PTE_P) else pte_of (k_mem k) pgdir w).
    { intros w Hw. rewrite P, (page_run_single a w 1) by done. destruct (Z.eqb_spec w a) as [->|]; [|done].
      by rewrite Z.sub_diag, Z.add_0_r, Z.lor_assoc. }
    split; [done|].
    destruct (user_map k free pgdir pt um k' free' pt' a u (Z.lor perm PTE_P) H F G Ha Hak Hua (present_range _ Hperm)
      (has_present _) Hpt) as [H' B']. done.
  - right. split; [done|]. assert (j = 0) as -> by lia. split; [destruct free; [done|simpl in L; lia]|]. split; [done|].
    destruct (user_grows k free pgdir pt um k' [] pt' H G) as [H' B'].
    { intros w Hw. rewrite P by done. rewrite (proj2 (andb_false_iff _ _)); [done|]. rewrite Z.leb_gt, Z.ltb_ge. lia. }
    split; [done|]. split; [done|]. by eapply fresh_grows.
Qed.

Lemma owned_insert free pt um a u x :
  um !! a = None -> owned (u :: free) pt um x <-> owned free pt (<[a := u]> um) x.
Proof.
  intros Hua. unfold owned. rewrite elem_of_cons. split.
  - intros [[->|?]|[?|[va Hva]]]; [right; right; exists a; by rewrite lookup_insert_eq|tauto|tauto|].
    right. right. exists va. rewrite lookup_insert_ne; [done|]. congruence.
  - intros [?|[?|[va Hva]]]; [tauto|tauto|]. apply lookup_insert_Some in Hva as [[_ <-]|[_ Hva]]; [tauto|].
    right. right. by exists va.
Qed.

Section Alloc.
Context (pgdir oldsz newsz : Z) (Hold : 0 <= oldsz <= newsz) (Hnew : newsz < KERNBASE).

(** The failure exit of [allocuvm]: everything the call mapped is unmapped again. *)
Lemma alloc_undo s k free pt um :
  user_ok k free pgdir pt um -> kmem_free_lock k -> can_print k -> 37 ∉ chars s -> oldsz < newsz ->
  exists k' gone, (cprintln s [] ;;; let! _ := deallocuvm pgdir newsz oldsz in ret 0) k = Ok 0 k' /\
    user_ok k' (gone ++ free) pgdir pt (del_range um (PGROUNDUP oldsz) newsz) /\
    same_bytes (del_range um (PGROUNDUP oldsz) newsz) k k' /\ kmem_free_lock k' /\ k_end k' = k_end k /\
    (forall u, u ∈ gone <-> exists va, PGROUNDUP oldsz <= va < newsz /\ um !! va = Some u).
Proof.
  intros H Hl Hc Hs Hlt. rewrite (bind_ok _ _ _ _ _ (cprintln_plain s k Hc Hs)).
  destruct (deallocuvm_run _ free pgdir pt um newsz oldsz (user_cons _ _ _ _ _ (k_cons k ++ chars s ++ [10]) H))
    as (k' & free' & gone & E & H' & B & [(m & f & ->) -> _] & G); [done|lia|lia|].
  rewrite (bind_ok _ _ _ _ _ E). eexists _, gone. split; [done|]. split; [done|]. split; [done|]. done.
Qed.

(** The pages from [a] to [newsz] are there now, zeroed and writable by the user. *)
Record grown (a : Z) (um um' : gmap Z Z) (k' : kernel) : Prop := {
  gw_old va : ~ (a <= va < newsz) -> um' !! va = um !! va;
  gw_new va : upage va -> a <= va < newsz ->
    exists u, um' !! va = Some u /\ pte_of (k_mem k') pgdir va = Z.lor (V2P u) (Z.lor PTE_P (Z.lor PTE_W PTE_U)) /\
      forall x, u <= x < u + 4096 -> k_mem k' x = 0
}.

(** The entries of the pages in [um] are the same in both states. *)
Definition same_ptes (um : gmap Z Z) (k k' : kernel) : Prop :=
  forall va u, um !! va = Some u -> pte_of (k_mem k') pgdir va = pte_of (k_mem k) pgdir va.

Definition alloc_result (k : kernel) (free : list Z) (pt um : gmap Z Z) (a r : Z)
    (k' : kernel) (free' : list Z) (pt' um' : gmap Z Z) : Prop :=
  user_ok k' free' pgdir pt' um' /\ (forall x, owned free pt um x <-> owned free' pt' um' x) /\
  (r = newsz /\ grown a um um' k' /\ same_bytes um k k' /\ same_ptes um k k' \/
   r = 0 /\ um' = del_range um (PGROUNDUP oldsz) newsz /\ same_bytes um' k k' /\
   4096 * Z.of_nat (length free) < 2 * (newsz - a + 4095)).

Lemma owned_del_range free pt um gone lo hi x :
  (forall u, u ∈ gone <-> exists va, lo <= va < hi /\ um !! va = Some u) ->
  owned free pt um x <-> owned (gone ++ free) pt (del_range um lo hi) x.
Proof.
  intros G. unfold owned. rewrite elem_of_app, G. split.
  - intros [H|[H|[va Hva]]]; [tauto|tauto|]. destruct (decide (lo <= va < hi)); [left; left; by exists va|].
    right. right. exists va. by apply del_range_Some.
  - intros [[(va & _ & Hva)|H]|[H|[va Hva]]]; [|tauto|tauto|].
    + right. right. by exists va.
    + apply del_range_Some in Hva as [Hva _]. right. right. by exists va.
Qed.

(** The first failure exit: no page left. *)
Lemma alloc_fail1 k pt um a :
  user_ok k [] pgdir pt um -> kmem_free_lock k -> can_print k -> a < newsz -> PGROUNDUP oldsz <= a ->
  exists k' gone, (cprintln "allocuvm out of memory" [] ;;; let! _ := deallocuvm pgdir newsz oldsz in ret 0) k = Ok 0 k' /\
    alloc_result k [] pt um a 0 k' gone pt (del_range um (PGROUNDUP oldsz) newsz).
Proof.
  intros H Hl Hc Ha Hr. pose proof (PGROUNDUP_page oldsz ltac:(lia)) as [_ Hp].
  destruct (alloc_undo "allocuvm out of memory" k [] pt um) as (k' & gone & E & H' & B & _ & _ & G); try done; [|lia|].
  { by apply (bool_decide_unpack (37 ∉ chars "allocuvm out of memory")). }
  exists k', gone. split; [done|]. rewrite app_nil_r in H'. split; [done|]. split; [|right; split; [done|split; [done|split; [done|simpl; lia]]]].
  intros x. rewrite (owned_del_range [] pt um gone _ _ x G). by rewrite app_nil_r.
Qed.

(** The second: no page for a table. *)
Lemma alloc_fail2 k pt um a u :
  user_ok k [] pgdir pt um -> fresh_page k [] pgdir pt um u -> kmem_free_lock k -> can_print k ->
  a < newsz -> PGROUNDUP oldsz <= a ->
  exists k' gone, (cprintln "allocuvm out of memory (2)" [] ;;;
      let! _ := deallocuvm pgdir newsz oldsz in kfree u ;;; ret 0) k = Ok 0 k' /\
    alloc_result k [u] pt um a 0 k' (u :: gone) pt (del_range um (PGROUNDUP oldsz) newsz).
Proof.
  intros H Hf Hl Hc Ha Hr. pose proof (PGROUNDUP_page oldsz ltac:(lia)) as [_ Hp].
  destruct (alloc_undo "allocuvm out of memory (2)" k [] pt um) as (k1 & gone & E & H1 & B1 & Hl1 & He1 & G); try done; [|lia|].
  { by apply (bool_decide_unpack (37 ∉ chars "allocuvm out of memory (2)")). }
  rewrite app_nil_r in H1. destruct Hf as (Hg & Hnf & Hnr & Hnt & Hnm).
  destruct (user_give k1 gone pgdir pt (del_range um (PGROUNDUP oldsz) newsz) u H1) as (k' & E' & H' & B'); [|done|].
  { split; [unfold good_page in *; by rewrite He1|]. split; [|split; [done|split; [done|]]].
    - rewrite G. intros (va & _ & Hva). by apply Hnm in Hva.
    - intros va [Hva _]%del_range_Some. by apply Hnm in Hva. }
  exists k', gone. split.
  - apply bind_ok_inv in E as ([] & k2 & E2 & E). rewrite (bind_ok _ _ _ _ _ E2).
    apply bind_ok_inv in E as (z & k3 & E3 & E). rewrite (bind_ok _ _ _ _ _ E3). injection E as <-.
    by rewrite (bind_ok _ _ _ _ _ E').
  - split; [done|]. split.
    + intros x. rewrite (owned_del_range [u] pt um gone _ _ x G). unfold owned.
      rewrite elem_of_app, !elem_of_cons, !elem_of_nil. tauto.
    + right. split; [done|]. split; [done|]. split; [|simpl; lia]. intros va v x Hv Hx.
      rewrite (B' va v x Hv Hx). by apply (B1 va v x).
Qed.

Lemma user_new_pte u : kpage u -> mapped_entry (V2P u) (Z.lor PTE_W PTE_U) = Z.lor (V2P u) (Z.lor PTE_P (Z.lor PTE_W PTE_U)).
Proof. intros _. unfold mapped_entry. rewrite <- Z.lor_assoc. done. Qed.

Lemma same_bytes_trans um k1 k2 k3 : same_bytes um k1 k2 -> same_bytes um k2 k3 -> same_bytes um k1 k3.
Proof. intros H1 H2 va u x Hu Hx. rewrite (H2 va u x Hu Hx). by apply (H1 va u x). Qed.

Lemma same_bytes_sub um um' k k' : um ⊆ um' -> same_bytes um' k k' -> same_bytes um k k'.
Proof. intros Hs H va u x Hu Hx. apply (H va u x); [|done]. by eapply lookup_weaken. Qed.

(** One page more, then the rest. *)
Lemma grown_cons a um u um' k1 k' :
  upage a -> a < newsz -> um !! a = None -> kpage u ->
  (forall x, u <= x < u + 4096 -> k_mem k1 x = 0) ->
  same_bytes (<[a := u]> um) k1 k' ->
  pte_of (k_mem k') pgdir a = Z.lor (V2P u) (Z.lor PTE_P (Z.lor PTE_W PTE_U)) ->
  grown (a + 4096) (<[a := u]> um) um' k' -> grown a um um' k'.
Proof.
  intros Ha Hlt Hn Hku Hz B Hpte [Gold Gnew]. split.
  - intros va Hva. rewrite Gold by lia. rewrite lookup_insert_ne; [done|]. intros ->. lia.
  - intros va Hva Hr. destruct (decide (va = a)) as [->|Hne].
    + exists u. split; [rewrite Gold by lia; by rewrite lookup_insert_eq|]. split; [done|].
      intros x Hx. rewrite (B a u x) by (done || by rewrite lookup_insert_eq). by apply Hz.
    + apply Gnew; [done|]. destruct Ha as [Hm _], Hva as [Hm' _].
      apply Z.mod_divide in Hm as [y ->], Hm' as [z ->]; lia.
Qed.

Lemma allocuvm_loop_ok fuel : forall k free pt um a,
  user_ok k free pgdir pt um -> kmem_free_lock k -> can_print k -> upage a -> PGROUNDUP oldsz <= a ->
  newsz - a <= 4096 * Z.of_nat fuel -> (forall va, a <= va < newsz -> um !! va = None) ->
  exists r k' free' pt' um', allocuvm_loop fuel pgdir a oldsz newsz k = Ok r k' /\
    alloc_result k free pt um a r k' free' pt' um'.
Proof.
  induction fuel as [|fuel IH]; intros k free pt um a H Hl Hc Ha Hr Hf Hn; cbn [allocuvm_loop].
  all: destruct (Z.ltb_spec a newsz) as [Hlt|Hge]; [try lia|
    exists newsz, k, free, pt, um; split; [done|]; split; [done|]; split; [done|]; left;
    split; [done|]; split; [split; [done|intros; lia]|done]].
  pose proof (sp_kmem _ _ _ _ (us_space _ _ _ _ _ H)) as Hk. pose proof (kalloc_pop k free Hk Hl) as Ea.
  destruct free as [|u free].
  { rewrite (bind_ok _ _ _ _ _ Ea), Z.eqb_refl.
    destruct (alloc_fail1 k pt um a H Hl Hc Hlt Hr) as (k' & gone & E & R). by eexists 0, k', gone, pt, _. }
  destruct Ea as (k1 & Ea & _ & ->). rewrite (bind_ok _ _ _ _ _ Ea).
  destruct (user_take k free u pgdir pt um H) as (H2 & B2 & F2 & Z2 & P2). cbv zeta in H2, B2, F2, Z2, P2.
  set (k2 := with_mem (memset (k_mem k) u 0 PGSIZE) (load32 (k_mem k) u) k) in *.
  pose proof (good_kpage k2 u (kmem_end _ _ (sp_kmem _ _ _ _ (us_space _ _ _ _ _ H2))) (proj1 F2)) as Hku.
  rewrite (proj2 (Z.eqb_neq u 0)) by (destruct Hku; unfold KERNBASE in *; lia).
  rewrite (bind_ok _ _ _ _ _ (eq_refl : zero_page u _ = Ok tt k2)).
  assert (Hak : a < KERNBASE) by lia. pose proof (Hn a ltac:(lia)) as Hua.
  destruct (map_fresh k2 free pgdir pt um a u (Z.lor PTE_W PTE_U) H2 F2 Hl Ha Hak Hua) as (r & k3 & free3 & pt3 & E3 & G3 & L3 & R3);
    [done|].
  rewrite (bind_ok _ _ _ _ _ E3). assert (Hl3 : kmem_free_lock k3) by (by eapply grows_lock).
  assert (Hc3 : can_print k3) by (destruct (gr_state _ _ _ _ _ _ _ G3) as (m & f & ->); exact Hc).
  destruct R3 as [(-> & H3 & B3 & Hpt)|(-> & -> & -> & H3 & B3 & F3)].
  - change (0 <? 0) with false. cbv iota. unfold PGSIZE.
    assert (Hua4 : upage (a + 4096)).
    { destruct Ha as [Hm Hb]. unfold KERNBASE in *. split; [by rewrite Z.add_mod, Hm by lia|lia]. }
    rewrite (u32_small (a + 4096)) by apply Hua4.
    destruct (IH k3 free3 pt3 (<[a := u]> um) (a + 4096) H3 Hl3 Hc3 Hua4) as (r & k4 & free4 & pt4 & um4 & E4 & H4 & O4 & R4);
      [lia|lia| |].
    { intros va Hva. rewrite lookup_insert_ne by lia. apply Hn. lia. }
    exists r, k4, free4, pt4, um4. split; [exact E4|]. split; [done|]. split.
    + intros x. by rewrite <- (O4 x), <- (owned_grows _ _ _ _ _ _ _ (<[a := u]> um) x G3), (owned_insert free pt um a u x Hua).
    + assert (B : same_bytes um k k3).
      { eapply same_bytes_trans; [exact B2|]. eapply same_bytes_sub; [|exact B3]. by apply insert_subseteq. }
      destruct R4 as [(-> & G4 & B4 & Q4)|(-> & -> & B4 & L4)].
      * left. split; [done|]. split.
        -- apply (grown_cons a um u um4 k3 k4 Ha Hlt Hua Hku); [|done| |done].
           ++ intros x Hx. rewrite (B3 a u x) by (done || by rewrite lookup_insert_eq). by apply Z2.
           ++ rewrite (Q4 a u) by (by rewrite lookup_insert_eq). by rewrite Hpt, Z.eqb_refl.
        -- split; [eapply same_bytes_trans; [exact B|]; eapply same_bytes_sub; [|exact B4]; by apply insert_subseteq|].
           intros va v Hv. assert (va <> a) by congruence. destruct (us_page _ _ _ _ _ H va v Hv) as (Hva & _).
           rewrite (Q4 va v) by (by rewrite lookup_insert_ne). rewrite Hpt, (proj2 (Z.eqb_neq _ _)) by done. by apply P2.
      * right. assert (Ed : del_range (<[a := u]> um) (PGROUNDUP oldsz) newsz = del_range um (PGROUNDUP oldsz) newsz).
        { apply map_eq. intros va. apply option_eq. intros v. rewrite !del_range_Some. split; intros [Hv Hnr]; (split; [|done]).
          - rewrite lookup_insert_ne in Hv; [done|]. intros ->. lia.
          - rewrite lookup_insert_ne; [done|]. intros ->. lia. }
        rewrite Ed in *. split; [done|]. split; [done|]. split; [|simpl length; lia].
        eapply same_bytes_trans; [|exact B4]. eapply same_bytes_sub; [|exact B].
        apply map_filter_subseteq.
  - change (-1 <? 0) with true. cbv iota.
    destruct (alloc_fail2 k3 pt3 um a u H3 F3 Hl3 Hc3 Hlt Hr) as (k' & gone & E & H' & O' & R').
    eexists 0, k', (u :: gone), pt3, _. split; [exact E|]. split; [exact H'|]. split.
    + intros x. rewrite <- (O' x). pose proof (owned_grows _ _ _ _ _ _ _ um x G3) as Ho.
      unfold owned in *. rewrite !elem_of_cons, !elem_of_nil in *. clear - Ho. tauto.
    + right. destruct R' as [(E0 & _)|(_ & E0 & B' & L')]; [destruct Ha; lia|]. split; [done|]. split; [done|].
      split; [|simpl length in *; lia].
      eapply same_bytes_trans; [|exact B']. eapply same_bytes_sub; [|eapply same_bytes_trans; [exact B2|exact B3]].
      apply map_filter_subseteq.
Qed.

End Alloc.

Lemma allocuvm_run k free pgdir pt um oldsz newsz :
  user_ok k free pgdir pt um -> kmem_free_lock k -> can_print k ->
  0 <= oldsz <= newsz -> newsz < KERNBASE ->
  (forall va, PGROUNDUP oldsz <= va < newsz -> um !! va = None) ->
  exists r k' free' pt' um', allocuvm pgdir oldsz newsz k = Ok r k' /\
    alloc_result pgdir oldsz newsz k free pt um (PGROUNDUP oldsz) r k' free' pt' um'.
Proof.
  intros H Hl Hc Ho Hn Hu. unfold allocuvm. rewrite (proj2 (Z.leb_gt _ _)), (proj2 (Z.ltb_ge _ _)) by lia.
  destruct (PGROUNDUP_page oldsz ltac:(lia)) as [Hp Hr]. unfold PGSIZE.
  apply allocuvm_loop_ok; try done.
  pose proof (Z.div_mod (newsz - PGROUNDUP oldsz + 4096 - 1) 4096 ltac:(lia)).
  pose proof (Z.mod_pos_bound (newsz - PGROUNDUP oldsz + 4096 - 1) 4096 ltac:(lia)). lia.
Qed.

(** [allocuvm] makes a process grow or leaves it as it was: it returns the new size
    with every page of the new part mapped to a zeroed page of its own, writable by
    the user, and the old pages, their entries and their bytes as they were; or it
    returns 0, which it does only when fewer pages are free than two for each page
    asked for, with the user pages and their bytes as they were.  Either way no page
    is lost: each is free, a page table or behind a user page, before and after. *)
Theorem allocuvm_grows k free pgdir pt um oldsz newsz :
  user_ok k free pgdir pt um -> kmem_free_lock k -> can_print k ->
  0 <= oldsz <= newsz -> newsz < KERNBASE ->
  (forall va, PGROUNDUP oldsz <= va < newsz -> um !! va = None) ->
  exists r k' free' pt' um', allocuvm pgdir oldsz newsz k = Ok r k' /\
    user_ok k' free' pgdir pt' um' /\ (forall x, owned free pt um x <-> owned free' pt' um' x) /\
    same_bytes um k k' /\
    (r = newsz /\ grown pgdir newsz (PGROUNDUP oldsz) um um' k' /\ same_ptes pgdir um k k' \/
     r = 0 /\ um' = um /\ 4096 * Z.of_nat (length free) < 2 * (newsz - PGROUNDUP oldsz + 4095)).
Proof.
  intros H Hl Hc Ho Hn Hu.
  destruct (allocuvm_run k free pgdir pt um oldsz newsz H Hl Hc Ho Hn Hu) as (r & k' & free' & pt' & um' & E & H' & O' & R).
  exists r, k', free', pt', um'. split; [done|]. split; [done|]. split; [done|].
  destruct R as [(-> & G & B & Q)|(-> & -> & B & L)].
  - split; [done|]. by left.
  - assert (Ed : del_range um (PGROUNDUP oldsz) newsz = um).
    { apply map_eq. intros va. apply option_eq. intros v. rewrite del_range_Some. split; [tauto|].
      intros Hv. split; [done|]. intros Hr. rewrite Hu in Hv by done. done. }
    rewrite Ed in *. split; [done|]. by right.
Qed.

(** ** An empty address space *)

(** A zeroed page is a page directory with nothing mapped. *)
Lemma user_empty k free pgdir :
  kmem_ok k free -> KERNBASE < k_end k -> good_page k pgdir -> (pgdir ∉ free) ->
  (forall x, pgdir <= x < pgdir + 4096 -> k_mem k x = 0) -> user_ok k free pgdir ∅ ∅.
Proof.
  intros Hk He Hg Hn Hz. pose proof (good_kpage k pgdir (kmem_end _ _ Hk) Hg) as Hkp.
  assert (Hd : forall d, 0 <= d < 1024 -> load32 (k_mem k) (pgdir + 4 * d) = 0).
  { intros d Hd. apply load32_zero. intros x Hx. apply Hz. lia. }
  assert (Ht : pgtab_ok (k_mem k) pgdir ∅).
  { split; [|done|done|done|done]. intros d Hb. rewrite lookup_empty, Hd by done. done. }
  split; [by split|done|done|done|done|]. intros va Hva _ _.
  by rewrite (pte_of_table _ _ ∅ va Ht (proj2 Hva)), lookup_empty.
Qed.

(** ** The theorems at work *)

(** The kernel of Kalloc.v with four free pages, and the zeroed page at 0x80300000. *)
Definition vm_pages : list Z := [0x80203000; 0x80202000; 0x80201000; 0x80200000].
Definition push_page (k : kernel) (v : Z) : kernel := set_k_freelist v (set_k_mem (kfree_mem k v) k).
Definition vm_machine : kernel := foldl push_page kmem_boot [0x80200000; 0x80201000; 0x80202000; 0x80203000].
Definition vm_dir : Z := 0x80300000.

Lemma vm_machine_ok : user_ok vm_machine vm_pages vm_dir ∅ ∅.
Proof.
  apply user_empty.
  - unfold vm_machine, vm_pages. cbn [foldl].
    repeat (apply kmem_ok_push; [|by apply kmem_boot_good|by_decide]). apply kmem_boot_ok.
  - done.
  - by apply kmem_boot_good.
  - by_decide.
  - intros x Hx. unfold vm_machine, push_page, vm_dir in *. cbn [foldl k_mem set_k_freelist set_k_mem].
    rewrite !kfree_mem_out by (unfold PGSIZE; lia). cbn [k_mem set_k_freelist set_k_mem].
    rewrite !kfree_mem_out by (unfold PGSIZE; lia). cbn [k_mem set_k_freelist set_k_mem].
    rewrite !kfree_mem_out by (unfold PGSIZE; lia). cbn [k_mem set_k_freelist set_k_mem].
    rewrite !kfree_mem_out by (unfold PGSIZE; lia). reflexivity.
Qed.

Lemma vm_machine_lock : kmem_free_lock vm_machine.
Proof. apply kmem_boot_lock. Qed.

Lemma vm_unmapped va : upage va -> va < KERNBASE -> has (pte_of (k_mem vm_machine) vm_dir va) PTE_P = false.
Proof. intros Hu Hk. apply (us_none _ _ _ _ _ vm_machine_ok va Hu Hk), lookup_empty. Qed.

Lemma upage_mul i : 0 <= i < 2 ^ 20 -> upage (0 + 4096 * i).
Proof. intros Hi. split; [|lia]. rewrite Z.add_0_l, Z.mul_comm. apply Z.mod_mul. lia. Qed.

(** Two pages of the address space are mapped to the physical pages from 4 MB on. *)
Lemma mappages_maps_witness :
  exists k', mappages vm_dir 0 (4096 * 2) 0x400000 6 vm_machine = Ok 0 k' /\
    pte_of (k_mem k') vm_dir 0 = 0x400007 /\ pte_of (k_mem k') vm_dir 4096 = 0x401007 /\
    has (pte_of (k_mem k') vm_dir 8192) PTE_P = false.
Proof.
  destruct (mappages_maps vm_machine vm_pages vm_dir ∅ 0 2 0x400000 6 (us_space _ _ _ _ _ vm_machine_ok) vm_machine_lock)
    as (r & j & k' & free' & pt' & E & G & R & L & P); [by split|lia|lia|done|lia|lia|lia| |].
  - intros i Hi. apply vm_unmapped; [apply upage_mul|unfold KERNBASE]; lia.
  - destruct R as [[-> ->]|(_ & -> & Hj)]; [|simpl in L; lia].
    exists k'. split; [exact E|]. clear E. split; [by rewrite P|]. split; [by rewrite P|].
    rewrite P by done. by apply vm_unmapped.
Defined.

(** An address space with page 0 mapped to a zeroed page, and another page free. *)
Lemma vm_one_page :
  exists m f u free pt, user_ok (with_mem m f vm_machine) (u :: free) vm_dir pt {[0 := 0x80203000]} /\
    forall x, 0x80203000 <= x < 0x80203000 + 4096 -> m x = 0.
Proof.
  destruct (user_take vm_machine [0x80202000; 0x80201000; 0x80200000] 0x80203000 vm_dir ∅ ∅ vm_machine_ok) as (H & _ & F & Hz & P).
  set (k := with_mem _ _ _) in *.
  destruct (map_fresh k [0x80202000; 0x80201000; 0x80200000] vm_dir ∅ ∅ 0 0x80203000 6 H F vm_machine_lock) as (r & k' & free' & pt' & _ & G & L & R);
    [by split|done|done|done|].
  destruct (gr_state _ _ _ _ _ _ _ G) as (m & f & ->). destruct R as [(_ & H' & B & _)|(_ & E & _)]; [|done].
  destruct free' as [|u free']; [simpl in L; lia|]. exists m, f, u, free', pt'. split; [exact H'|].
  intros x Hx. rewrite <- (Hz x Hx). apply (B 0 0x80203000 x); [|done]. by rewrite lookup_insert_eq.
Qed.

(** Shrinking a process of one page to nothing gives that page back. *)
Lemma deallocuvm_frees_witness :
  exists k k' free pt, user_ok k free vm_dir pt {[0 := 0x80203000]} /\ deallocuvm vm_dir 4096 0 k = Ok 0 k' /\
    exists free', user_ok k' free' vm_dir pt (del_range {[0 := 0x80203000]} 0 4096) /\ 0x80203000 ∈ free'.
Proof.
  destruct vm_one_page as (m & f & u & free & pt & H & _).
  destruct (deallocuvm_frees (with_mem m f vm_machine) (u :: free) vm_dir pt {[0 := 0x80203000]} 4096 0 H vm_machine_lock)
    as (k' & free' & gone & E & H' & _ & -> & G); [lia|unfold KERNBASE; lia|].
  eexists _, k', (u :: free), pt. split; [exact H|]. split; [exact E|]. eexists. split; [exact H'|].
  apply elem_of_app. left. apply G. exists 0. split; [clear; by vm_compute|apply lookup_singleton_eq].
Defined.

(** Four free pages are enough for a process to grow by one page. *)
Lemma allocuvm_grows_witness :
  exists k' free' pt' um' u, allocuvm vm_dir 0 4096 vm_machine = Ok 4096 k' /\
    user_ok k' free' vm_dir pt' um' /\ um' !! 0 = Some u /\ forall x, u <= x < u + 4096 -> k_mem k' x = 0.
Proof.
  destruct (allocuvm_grows vm_machine vm_pages vm_dir ∅ ∅ 0 4096 vm_machine_ok vm_machine_lock)
    as (r & k' & free' & pt' & um' & E & H & _ & _ & R); [|lia|unfold KERNBASE; lia|done|].
  - split; [done|]. apply (bool_decide_unpack _). reflexivity.
  - destruct R as [(-> & [_ G] & _)|(_ & _ & L)]; [|exfalso; revert L; vm_compute; discriminate].
    destruct (G 0) as (u & Hu & _ & Hz); [clear E; by split|clear E; by vm_compute|].
    exists k', free', pt', um', u. split; [exact E|]. split; [exact H|]. split; [exact Hu|exact Hz].
Defined.
