(* ===== verification/Uvm.v ===== *)
(** * Uvm: the memory of a process over its life (trap.c, vm.c)

    With the page table lemmas of Paging.v: the page fault that gives a process the
    pages [sbrk] promised it, and the copy of an address space for [fork]. *)

From S2P Require Import Prelude Bytes Kernel Sync Kalloc Log Str Console Vm Paging.

Lemma user_ptable k free pgdir pt um v :
  user_ok k free pgdir pt um -> user_ok (set_k_ptable v k) free pgdir pt um.
Proof.
  intros [[[] ? ? ?] ? ? ? ? ?]. by split; [split; [split|..]|..].
Qed.

(** [mappages] of a page that is present already does nothing and reports success. *)
Lemma mappages_present k pgdir pt a pa perm :
  pgtab_ok (k_mem k) pgdir pt -> upage a -> a + PGSIZE <= 2 ^ 32 -> has (pte_of (k_mem k) pgdir a) PTE_P = true ->
  mappages pgdir a PGSIZE pa perm k = Ok 0 k.
Proof.
  intros Ht Ha Hb Hp. unfold mappages, PGSIZE in *. rewrite (pte_of_table _ _ _ _ Ht (proj2 Ha)) in Hp.
  destruct (pt !! PDX a) as [t|] eqn:Et; [|done].
  assert (E : PGROUNDDOWN a = a) by (rewrite PGROUNDDOWN_eq; destruct Ha as [-> _]; lia).
  rewrite E. cbn [mappages_loop]. rewrite (bind_ok _ _ _ _ _ (walkpgdir_found k pgdir pt a true t Ht (proj2 Ha) Et)).
  destruct (pt_page _ _ _ Ht _ _ Et) as [Hk _]. pose proof (PTX_range a (proj2 Ha)).
  rewrite (proj2 (Z.eqb_neq _ _)) by (destruct Hk; unfold KERNBASE in *; lia).
  unfold mload, gets, bind. by rewrite Hp.
Qed.

(** ** Page faults *)

Section Fault.
Context (k : kernel) (free : list Z) (i : nat) (p : proc) (pt um : gmap Z Z) (cpu cs eip cr2 : Z).
Context (Hok : user_ok k free (p_pgdir p) pt um) (Hlock : kmem_free_lock k) (Hprint : can_print k).
Context (Hcur : k_cur k = Some i) (Hproc : k_ptable k !! i = Some p).
Context (Hmode : Z.land cs 3 = 0 -> cr2 < p_sz p) (Hcr2 : 0 <= cr2 < KERNBASE).

Lemma fault_page : upage (PGROUNDDOWN cr2) /\ PGROUNDDOWN cr2 < KERNBASE.
Proof.
  rewrite PGROUNDDOWN_eq. pose proof (Z.div_mod cr2 4096 ltac:(lia)). pose proof (Z.mod_pos_bound cr2 4096 ltac:(lia)).
  split; [split|]; unfold KERNBASE in *; [|lia|lia].
  replace (cr2 - cr2 mod 4096) with (cr2 / 4096 * 4096) by lia. apply Z.mod_mul. lia.
Qed.

(** The tests at the head of the handler. *)
Lemma page_fault_enter :
  page_fault cpu cs eip cr2 k =
  (let! mem := kalloc in
   if mem =? 0 then cprintln "out of memory inside page fault" [] ;;; upd_proc i (set_p_killed true)
   else
     zero_page mem ;;;
     let! r := mappages (p_pgdir p) (PGROUNDDOWN cr2) PGSIZE (V2P mem) (Z.lor PTE_W PTE_U) in
     when (r <? 0) (cprintln "mappages error inside page fault" [] ;;; kfree mem ;;; upd_proc i (set_p_killed true))) k.
Proof.
  unfold page_fault. mget. unfold myproc. rewrite Hcur. rewrite (bind_ok _ _ _ _ _ (get_proc_ok k i p Hproc)).
  destruct (Z.eqb_spec (Z.land cs 3) 0) as [E|E]; [|done]. rewrite (proj2 (Z.leb_gt _ _)) by auto. done.
Qed.

(** Killing the process leaves its memory alone. *)
Definition killed_process (k' : kernel) : Prop := k_ptable k' = alter (set_p_killed true) i (k_ptable k).

(** Taking the page and zeroing it. *)
Lemma fault_take u free' :
  free = u :: free' ->
  let k2 := with_mem (memset (k_mem k) u 0 PGSIZE) (load32 (k_mem k) u) k in
  page_fault cpu cs eip cr2 k =
    (let! r := mappages (p_pgdir p) (PGROUNDDOWN cr2) PGSIZE (V2P u) (Z.lor PTE_W PTE_U) in
     when (r <? 0) (cprintln "mappages error inside page fault" [] ;;; kfree u ;;; upd_proc i (set_p_killed true))) k2 /\
  user_ok k2 free' (p_pgdir p) pt um /\ same_bytes um k k2 /\ fresh_page k2 free' (p_pgdir p) pt um u /\
  (forall x, u <= x < u + 4096 -> k_mem k2 x = 0) /\
  (forall w, upage w -> pte_of (k_mem k2) (p_pgdir p) w = pte_of (k_mem k) (p_pgdir p) w).
Proof.
  intros Ef k2. rewrite Ef in Hok. destruct (user_take k free' u (p_pgdir p) pt um Hok) as (H2 & B2 & F2 & Z2 & P2).
  split; [|done]. pose proof (sp_kmem _ _ _ _ (us_space _ _ _ _ _ Hok)) as Hk.
  destruct (kalloc_pop k (u :: free') Hk Hlock) as (k1 & Ea & _ & ->).
  pose proof (good_kpage k2 u (kmem_end _ _ (sp_kmem _ _ _ _ (us_space _ _ _ _ _ H2))) (proj1 F2)) as Hku.
  rewrite page_fault_enter, (bind_ok _ _ _ _ _ Ea).
  rewrite (proj2 (Z.eqb_neq u 0)) by (destruct Hku; unfold KERNBASE in *; lia).
  by rewrite (bind_ok _ _ _ _ _ (eq_refl : zero_page u _ = Ok tt k2)).
Qed.

(** What the handler leaves behind when the page was not mapped. *)
Definition faulted_in (k' : kernel) (free' : list Z) (pt' : gmap Z Z) : Prop :=
  exists u, user_ok k' free' (p_pgdir p) pt' (<[PGROUNDDOWN cr2 := u]> um) /\
    pte_of (k_mem k') (p_pgdir p) (PGROUNDDOWN cr2) = Z.lor (V2P u) (Z.lor PTE_P (Z.lor PTE_W PTE_U)) /\
    (forall x, u <= x < u + 4096 -> k_mem k' x = 0) /\ k_ptable k' = k_ptable k /\
    forall x, owned free pt um x <-> owned free' pt' (<[PGROUNDDOWN cr2 := u]> um) x.
Definition faulted_out (k' : kernel) (free' : list Z) (pt' : gmap Z Z) : Prop :=
  (length free < 2)%nat /\ user_ok k' free' (p_pgdir p) pt' um /\ killed_process k' /\
  forall x, owned free pt um x <-> owned free' pt' um x.

End Fault.

(** C20: A page fault of a process on a page it has no memory for yet (the kernel's own
    faults must lie below the size of the process) makes the page present, zeroed and
    writable, and changes no other page, no byte of theirs and no other process; or it
    finds fewer than two free pages, and then kills the process and leaves its memory
    as it was.  Either way no page of memory is lost. *)
Theorem page_fault_allocates k free i p pt um cpu cs eip cr2 :
  user_ok k free (p_pgdir p) pt um -> kmem_free_lock k -> can_print k ->
  k_cur k = Some i -> k_ptable k !! i = Some p ->
  (Z.land cs 3 = 0 -> cr2 < p_sz p) -> 0 <= cr2 < KERNBASE -> um !! PGROUNDDOWN cr2 = None ->
  exists k' free' pt', page_fault cpu cs eip cr2 k = Ok tt k' /\ same_bytes um k k' /\
    (faulted_in k free p pt um cr2 k' free' pt' \/ faulted_out k free i p pt um k' free' pt').
Proof.
  intros Hok Hlock Hprint Hcur Hproc Hmode Hcr2 Hua. destruct (fault_page cr2 Hcr2) as [Ha Hak]. pose proof (sp_kmem _ _ _ _ (us_space _ _ _ _ _ Hok)) as Hk.
  unfold faulted_in, faulted_out. destruct free as [|u free'].
  { pose proof (kalloc_pop k [] Hk Hlock) as Ea. rewrite (page_fault_enter k i p) by done. rewrite (bind_ok _ _ _ _ _ Ea), Z.eqb_refl.
    rewrite (bind_ok _ _ _ _ _ (cprintln_plain "out of memory inside page fault" k Hprint ltac:(by_decide))).
    eexists _, [], pt. split; [reflexivity|]. split; [done|]. right. split; [cbn; lia|].
    split; [by apply user_ptable, user_cons|]. done. }
  destruct (fault_take k (u :: free') i p pt um cpu cs eip cr2 Hok Hlock Hcur Hproc Hmode u free' eq_refl) as (E2 & H2 & B2 & F2 & Z2 & P2). rewrite E2. clear E2.
  set (k2 := with_mem (memset (k_mem k) u 0 PGSIZE) (load32 (k_mem k) u) k) in *.
  destruct (map_fresh k2 free' (p_pgdir p) pt um (PGROUNDDOWN cr2) u (Z.lor PTE_W PTE_U) H2 F2 Hlock Ha Hak Hua)
    as (r & k3 & free3 & pt3 & E3 & G3 & L3 & R3); [done|]. rewrite (bind_ok _ _ _ _ _ E3).
  destruct (gr_state _ _ _ _ _ _ _ G3) as (m3 & f3 & E3'). destruct R3 as [(-> & H3 & B3 & Hpt)|(-> & -> & -> & H3 & B3 & F3)].
  - exists k3, free3, pt3. split; [done|]. split.
    { eapply same_bytes_trans; [exact B2|]. eapply same_bytes_sub; [|exact B3]. by apply insert_subseteq. }
    left. exists u. split; [done|]. split; [by rewrite Hpt, Z.eqb_refl|]. split.
    + intros x Hx. rewrite (B3 (PGROUNDDOWN cr2) u x) by (done || by rewrite lookup_insert_eq). by apply Z2.
    + split; [by rewrite E3'|]. intros x.
      by rewrite <- (owned_grows _ _ _ _ _ _ _ _ x G3), (owned_insert free' pt um (PGROUNDDOWN cr2) u x Hua).
  - change (-1 <? 0) with true. unfold when.
    assert (Hc3 : can_print k3) by (rewrite E3'; exact Hprint).
    rewrite (bind_ok _ _ _ _ _ (cprintln_plain "mappages error inside page fault" k3 Hc3 ltac:(by_decide))).
    destruct (user_give (set_k_cons (k_cons k3 ++ chars "mappages error inside page fault" ++ [10]) k3) [] (p_pgdir p) pt3 um u)
      as (k4 & E4 & H4 & B4); [by apply user_cons|exact F3|rewrite E3'; exact Hlock|].
    rewrite (bind_ok _ _ _ _ _ E4). eexists _, [u], pt3. split; [reflexivity|]. split.
    { intros va v x Hv Hx. cbn. rewrite (B4 va v x Hv Hx). cbn. rewrite (B3 va v x Hv Hx). by apply (B2 va v x). }
    right. split; [cbn; lia|]. split; [by apply user_ptable|]. split.
    + unfold killed_process. cbn. f_equal. rewrite kfree_eq in E4; [|apply F3|rewrite E3'; exact Hlock].
      injection E4 as <-. cbn. by rewrite E3'.
    + intros x. pose proof (owned_grows _ _ _ _ _ _ _ um x G3) as Ho. unfold owned in *.
      rewrite !elem_of_cons, !elem_of_nil in *. tauto.
Qed.

(** The page [u] was free, and now it is neither free nor in a page table. *)
Definition lost (u : Z) (free : list Z) (pt um : gmap Z Z) : Prop := owned (u :: free) pt um u /\ ~ owned free pt um u.

(** A page fault on a page that is present (a write to a read-only page, or the user's
    access to the page below its stack that [clearpteu] took from it) is not an error
    to this handler: it takes a free page, finds the entry present, returns as if it had
    mapped the page, and the page it took belongs to nobody any more.  The process is
    not killed and faults again. *)
Theorem page_fault_leaks k free u i p pt um cpu cs eip cr2 v :
  user_ok k (u :: free) (p_pgdir p) pt um -> kmem_free_lock k -> can_print k ->
  k_cur k = Some i -> k_ptable k !! i = Some p ->
  (Z.land cs 3 = 0 -> cr2 < p_sz p) -> 0 <= cr2 < KERNBASE -> um !! PGROUNDDOWN cr2 = Some v ->
  exists k', page_fault cpu cs eip cr2 k = Ok tt k' /\ user_ok k' free (p_pgdir p) pt um /\
    lost u free pt um /\ k_ptable k' = k_ptable k.
Proof.
  intros Hok Hlock Hprint Hcur Hproc Hmode Hcr2 Hv. destruct (fault_page cr2 Hcr2) as [Ha Hak].
  destruct (fault_take k (u :: free) i p pt um cpu cs eip cr2 Hok Hlock Hcur Hproc Hmode u free eq_refl)
    as (E2 & H2 & B2 & F2 & Z2 & P2).
  set (k2 := with_mem (memset (k_mem k) u 0 PGSIZE) (load32 (k_mem k) u) k) in *.
  exists k2. split; [|split; [done|split; [split; [by left; left|]|done]]].
  - rewrite E2. rewrite (bind_ok _ _ 0 k2 k2); [done|].
    apply (mappages_present k2 _ pt); [apply (us_space _ _ _ _ _ H2)|done|unfold KERNBASE, PGSIZE in *; lia|].
    destruct (us_pte _ _ _ _ _ H2 _ _ Hv) as (fl & Hf1 & Hf2 & ->).
    destruct (user_kpage _ _ _ _ _ _ _ H2 Hv) as [Hkv _]. destruct (V2P_kpage v Hkv) as (_ & Hmv & _).
    by rewrite has_low.
  - destruct F2 as (_ & Hn1 & _ & Hn2 & Hn3). intros [?|[[d Hd]|[va Hva]]]; [done|by apply (Hn2 d)|by apply (Hn3 va)].
Qed.

(** ** Several address spaces *)

(** Page [x] belongs to the address space. *)
Definition page_of (pgdir : Z) (pt um : gmap Z Z) (x : Z) : Prop :=
  x = pgdir \/ (exists d, pt !! d = Some x) \/ (exists va, um !! va = Some x).

Lemma page_of_kpage k free pgdir pt um x :
  user_ok k free pgdir pt um -> page_of pgdir pt um x -> kpage x /\ good_page k x /\ x ∉ free.
Proof.
  intros H Hx. pose proof (us_space _ _ _ _ _ H) as [Hk Ht [Hr Hrf] Hp].
  assert (G : good_page k x /\ x ∉ free).
  { destruct Hx as [->|[[d Hd]|[va Hva]]]; [done|by apply (Hp d)|].
    destruct (us_page _ _ _ _ _ H va x Hva) as (_ & _ & Hg & Hf & _). done. }
  split; [|done]. apply (good_kpage k); [apply Hk|apply G].
Qed.

(** Changes to other pages leave an address space alone. *)
Lemma user_other k free pgdir pt um m f free' :
  user_ok k free pgdir pt um -> kmem_ok (with_mem m f k) free' ->
  (forall x, page_of pgdir pt um x -> x ∉ free') ->
  (forall x a, page_of pgdir pt um x -> x <= a < x + 4096 -> m a = k_mem k a) ->
  user_ok (with_mem m f k) free' pgdir pt um /\ same_bytes um k (with_mem m f k) /\
  forall w, upage w -> pte_of m pgdir w = pte_of (k_mem k) pgdir w.
Proof.
  intros H Hk' Hfree Hm. pose proof (us_space _ _ _ _ _ H) as [Hk Ht [Hr Hrf] Hp].
  assert (Ht' : pgtab_ok m pgdir pt).
  { destruct Ht as [Hd Hky Hroot Hpg Hinj]. split; auto. intros d Hb. specialize (Hd d Hb).
    assert (E : load32 m (pgdir + 4 * d) = load32 (k_mem k) (pgdir + 4 * d)); [|by rewrite E].
    apply load32_agree. intros a Ha. apply (Hm pgdir); [by left|lia]. }
  assert (Hpte : forall w, upage w -> pte_of m pgdir w = pte_of (k_mem k) pgdir w).
  { intros w Hw. rewrite (pte_of_table m pgdir pt), (pte_of_table _ pgdir pt) by (done || apply Hw).
    destruct (pt !! PDX w) as [t|] eqn:Et; [|done]. pose proof (PTX_range w (proj2 Hw)). apply load32_agree.
    intros a Ha. apply (Hm t); [right; left; by exists (PDX w)|lia]. }
  split; [|split; [|done]].
  - split; [split|apply H| |apply H| |]; auto.
    + split; [done|]. apply Hfree. by left.
    + intros d t Hd. destruct (Hp d t Hd) as [Hg _]. split; [done|]. apply Hfree. right. left. by exists d.
    + intros va u Hu. destruct (us_page _ _ _ _ _ H va u Hu) as (A & B & C & _ & D & E). repeat split; try done; try apply A; try apply C.
      apply Hfree. right. right. by exists va.
    + intros va u Hu. destruct (us_page _ _ _ _ _ H va u Hu) as (A & _). cbn. rewrite Hpte by done. by apply (us_pte _ _ _ _ _ H).
    + intros va Hva Hl Hn. cbn. rewrite Hpte by done. by apply (us_none _ _ _ _ _ H).
  - intros va u x Hu Hx. apply (Hm u); [|done]. right. right. by exists va.
Qed.

(** ** freevm *)

(** The pages that the loop of [freevm] frees from entry [i] of the directory on. *)
Definition tables_from (pt : gmap Z Z) (i n : nat) : list Z :=
  omap (fun d => pt !! Z.of_nat d) (seq i n).

Lemma elem_of_tables pt i n x :
  x ∈ tables_from pt i n <-> exists d, (i <= d < i + n)%nat /\ pt !! Z.of_nat d = Some x.
Proof.
  unfold tables_from. rewrite list_elem_of_omap. split; intros (d & A & B); exists d; rewrite elem_of_seq in *; split; auto; lia.
Qed.

Definition free_table (pgdir : Z) (i : nat) : KM unit :=
  let! v := mload (pgdir + 4 * Z.of_nat i) in
  if has v PTE_P then kfree (P2V (PTE_ADDR v)) else ret tt.

Lemma free_tables_ok n : forall i k free pgdir pt,
  kmem_ok k free -> kmem_free_lock k -> (i + n <= 1024)%nat -> pgtab_ok (k_mem k) pgdir pt ->
  (forall d t, (i <= d)%nat -> pt !! Z.of_nat d = Some t -> good_page k t /\ t ∉ free) ->
  exists m f, for_tail n i (free_table pgdir) k = Ok tt (with_mem m f k) /\
    kmem_ok (with_mem m f k) (reverse (tables_from pt i n) ++ free) /\
    forall a, (forall x, x ∈ tables_from pt i n -> a < x \/ x + 4096 <= a) -> m a = k_mem k a.
Proof.
  induction n as [|n IH]; intros i k free pgdir pt Hk Hl Hb Ht Hg; cbn [for_tail].
  - exists (k_mem k), (k_freelist k). split; [by destruct k|]. split; [by destruct k|done].
  - pose proof (pt_dir _ _ _ Ht (Z.of_nat i) ltac:(lia)) as Hd. change (tables_from pt i (S n)) with
      (match pt !! Z.of_nat i with Some t => t :: tables_from pt (S i) n | None => tables_from pt (S i) n end).
    destruct (pt !! Z.of_nat i) as [t|] eqn:Et.
    + destruct (pt_page _ _ _ Ht _ _ Et) as [Hkt Hne]. destruct (V2P_kpage t Hkt) as (_ & Hm & _).
      destruct (Hg i t ltac:(lia) Et) as [Hgt Hnf].
      set (k1 := set_k_freelist t (set_k_mem (kfree_mem k t) k)). rewrite (bind_ok _ _ tt k k1).
      2: { unfold free_table, mload, gets, bind. rewrite Hd, has_low by (done || unfold PTE_P; lia).
           change (has 7 PTE_P) with true. cbv iota. rewrite PTE_ADDR_pack, P2V_V2P by (done || lia). by apply kfree_eq. }
      pose proof (kfree_mem_out k t) as Hout. unfold PGSIZE in Hout.
      destruct (IH (S i) k1 (t :: free) pgdir pt) as (m & f & E & Hk' & Hm').
      * by apply kmem_ok_push.
      * exact Hl.
      * lia.
      * by eapply (pgtab_ok_other (k_mem k)).
      * intros d t' Hdi Hd'. destruct (Hg d t' ltac:(lia) Hd') as [A B]. split; [done|]. apply not_elem_of_cons. split; [|done].
        intros ->. pose proof (pt_inj _ _ _ Ht _ _ _ Et Hd'). lia.
      * exists m, f. split; [exact E|]. rewrite reverse_cons, <- app_assoc. split; [exact Hk'|].
        intros a Ha. rewrite Hm'; [|intros x Hx; apply Ha; by right]. apply Hout, Ha. by left.
    + rewrite (bind_ok _ _ tt k k) by (unfold free_table, mload, gets, bind; by rewrite Hd). destruct (IH (S i) k free pgdir pt) as (m & f & E & Hk' & Hm'); try done; [lia| |].
      * intros d t Hdi. apply Hg. lia.
      * by exists m, f.
Qed.

(** [freevm] gives back every page of the address space, and nothing else. *)
Lemma freevm_run k free pgdir pt um :
  user_ok k free pgdir pt um -> kmem_free_lock k ->
  exists m f free', freevm pgdir k = Ok tt (with_mem m f k) /\ kmem_ok (with_mem m f k) free' /\
    (forall x, x ∈ free' <-> x ∈ free \/ page_of pgdir pt um x) /\
    (forall a, (forall x, page_of pgdir pt um x -> a < x \/ x + 4096 <= a) -> m a = k_mem k a).
Proof.
  intros H Hl. pose proof (us_space _ _ _ _ _ H) as [_ _ [Hrg Hrf] _].
  destruct (page_of_kpage k free pgdir pt um pgdir H (or_introl eq_refl)) as (Hkr & _ & _).
  unfold freevm. rewrite (proj2 (Z.eqb_neq _ _)) by (destruct Hkr; unfold KERNBASE in *; lia).
  destruct (deallocuvm_run k free pgdir pt um KERNBASE 0 H Hl) as (k1 & free1 & gone & E1 & H1 & _ & [(m1 & f1 & ->) -> M1] & G1);
    [done|done|]. rewrite (bind_ok _ _ _ _ _ E1). clear E1. change (PGROUNDUP 0) with 0 in *.
  set (k1 := set_k_mem m1 (set_k_freelist f1 k)) in *. pose proof (us_space _ _ _ _ _ H1) as [Hk1 Ht1 [Hr1 Hrf1] Hp1].
  assert (Hgone : forall u, u ∈ gone <-> exists va, um !! va = Some u).
  { intros u. rewrite G1. split; [intros (va & _ & Hva); by exists va|intros (va & Hva); exists va].
    destruct (us_page _ _ _ _ _ H va u Hva) as (Hu & Hlt & _). destruct Hu. split; [lia|done]. }
  destruct (free_tables_ok (Z.to_nat 1024) 0 k1 (gone ++ free) pgdir pt Hk1) as (m2 & f2 & E2 & Hk2 & M2);
    [done|lia|done|intros d t _ Hd; by apply (Hp1 _ _ Hd)|].
  change (fun i : nat => _) with (free_table pgdir) at 1. rewrite (bind_ok _ _ _ _ _ E2). clear E2.
  set (k2 := with_mem m2 f2 k1) in *.
  assert (Htab : forall x, x ∈ tables_from pt 0 (Z.to_nat 1024) <-> exists d, pt !! d = Some x).
  { intros x. rewrite elem_of_tables. split; [intros (d & _ & Hd); by exists (Z.of_nat d)|]. intros (d & Hd).
    assert (0 <= d < 1024) by (by apply (pt_key _ _ _ Ht1 d x)). exists (Z.to_nat d). rewrite Z2Nat.id by lia. split; [lia|done]. }
  assert (Hn2 : pgdir ∉ reverse (tables_from pt 0 (Z.to_nat 1024)) ++ gone ++ free).
  { rewrite elem_of_app, elem_of_reverse, Htab. intros [[d Hd]|?]; [|done]. by apply (pt_page _ _ _ Ht1) in Hd as [_ ?]. }
  pose proof (kmem_ok_push k2 _ pgdir Hk2 Hrg Hn2) as Hk3. pose proof (kfree_mem_out k2 pgdir) as Hout. unfold PGSIZE in Hout.
  exists (kfree_mem k2 pgdir), pgdir, (pgdir :: reverse (tables_from pt 0 (Z.to_nat 1024)) ++ gone ++ free).
  split; [exact (kfree_eq k2 pgdir Hrg Hl)|]. split; [exact Hk3|]. split.
  - intros x. unfold page_of. rewrite elem_of_cons, !elem_of_app, elem_of_reverse, Htab, Hgone. tauto.
  - intros a Ha. rewrite Hout by (apply Ha; by left). cbn. rewrite M2; [|intros x [d Hd]%Htab; apply Ha; right; left; by exists d].
    apply M1; [intros d t Hd; apply Ha; right; left; by exists d|].
    intros u [va Hva]%Hgone. apply Ha. right. right. by exists va.
Qed.

(** ** setupkvm *)

(** The pages an entry of [kmap] maps. *)
Definition km_pages (e : kmap_entry) : Z := u32 (km_end e - km_start e) / 4096.

Definition entry_ok (e : kmap_entry) : Prop :=
  upage (km_virt e) /\ KERNBASE <= km_virt e /\ u32 (km_end e - km_start e) = 4096 * km_pages e /\ 0 < km_pages e /\
  km_virt e + 4096 * km_pages e <= 2 ^ 32 /\ km_start e mod 4096 = 0 /\ 0 <= km_start e /\
  km_start e + 4096 * km_pages e <= 2 ^ 32 /\ 0 <= km_perm e < 4096.

(** The entries come in the order of their addresses, from [lo] on. *)
Fixpoint entries_ok (lo : Z) (km : list kmap_entry) : Prop :=
  match km with
  | [] => True
  | e :: km' => entry_ok e /\ lo <= km_virt e /\ entries_ok (km_virt e + 4096 * km_pages e) km'
  end.

(** The page table entry that [kmap] gives page [w]. *)
Fixpoint kern_pte (km : list kmap_entry) (w : Z) : option Z :=
  match km with
  | [] => None
  | e :: km' =>
      if (km_virt e <=? w) && (w <? km_virt e + 4096 * km_pages e)
      then Some (Z.lor (Z.lor (km_start e + (w - km_virt e)) (km_perm e)) PTE_P)
      else kern_pte km' w
  end.

Lemma kern_pte_below km w : forall lo, entries_ok lo km -> w < lo -> kern_pte km w = None.
Proof.
  induction km as [|e km IH]; intros lo; [done|]. cbn. intros (He & Hlo & Hr) Hw.
  destruct He as (_ & _ & _ & Hn & _). rewrite (proj2 (Z.leb_gt _ _)) by lia. cbn. apply (IH _ Hr). lia.
Qed.

(** The linker puts the kernel's data where [kmap] wants it. *)
Definition data_ok (k : kernel) : Prop :=
  k_data k mod 4096 = 0 /\ KERNLINK < k_data k < P2V PHYSTOP.

Lemma kmap_ok k : data_ok k -> entries_ok KERNBASE (kmap (k_data k)).
Proof.
  intros (Hm & Hb). change KERNLINK with 0x80100000 in Hb. change (P2V PHYSTOP) with 0x8E000000 in Hb.
  set (d := k_data k) in *. apply Z.mod_divide in Hm as [q Hq]; [|done].
  assert (Ev : V2P d = d - 0x80000000) by (unfold V2P, KERNBASE; apply u32_small; lia).
  unfold kmap. cbn [entries_ok]. unfold entry_ok, km_pages, upage. cbn [km_virt km_start km_end km_perm].
  change (V2P KERNLINK) with 0x100000. change EXTMEM with 0x100000. change PHYSTOP with 0xE000000.
  change KERNLINK with 0x80100000. change DEVSPACE with 0xFE000000. rewrite Ev.
  change (u32 (0x100000 - 0)) with 0x100000. change (u32 (0 - 0xFE000000)) with 0x2000000.
  rewrite !u32_small by lia. subst d. rewrite Hq in *.
  replace (q * 4096 - 0x80000000 - 0x100000) with ((q - 0x80100) * 4096) by lia.
  replace (0xE000000 - (q * 4096 - 0x80000000)) with ((0x8E000 - q) * 4096) by lia.
  replace (q * 4096 - 0x80000000) with ((q - 0x80000) * 4096) by lia.
  rewrite !Z.div_mul, !Z.mod_mul by lia. change (0x100000 / 4096) with 256. change (0x2000000 / 4096) with 8192.
  unfold KERNBASE, PTE_W. repeat split; try done; try lia.
Qed.

Lemma user_only_kernel k free pgdir pt k' free' pt' :
  user_ok k free pgdir pt ∅ -> grows pgdir k free pt k' free' pt' ->
  (forall w, upage w -> w < KERNBASE -> pte_of (k_mem k') pgdir w = pte_of (k_mem k) pgdir w) ->
  user_ok k' free' pgdir pt' ∅.
Proof.
  intros H G Hp. split; [apply G| |done|done|done|].
  - destruct (gr_state _ _ _ _ _ _ _ G) as (m & f & ->). apply H.
  - intros va Hva Hl _. rewrite Hp by done. apply (us_none _ _ _ _ _ H); [done|done|apply lookup_empty].
Qed.

(** The pages an address space has after its tables grew. *)
Lemma page_of_grows pgdir k free pt k' free' pt' um x :
  grows pgdir k free pt k' free' pt' -> (x ∈ free \/ page_of pgdir pt um x) <-> (x ∈ free' \/ page_of pgdir pt' um x).
Proof. intros G. pose proof (owned_grows _ _ _ _ _ _ _ um x G). unfold owned, page_of in *. tauto. Qed.

(** Memory outside the pages of [P] is the same. *)
Definition same_outside (P : Z -> Prop) (m m' : mem) : Prop :=
  forall a, (forall x, P x -> a < x \/ x + 4096 <= a) -> m' a = m a.

Lemma same_outside_trans (P Q R : Z -> Prop) m1 m2 m3 :
  (forall x, P x -> R x) -> (forall x, Q x -> R x) -> same_outside P m1 m2 -> same_outside Q m2 m3 -> same_outside R m1 m3.
Proof. intros HP HQ H1 H2 a Ha. rewrite H2, H1; [done| |]; intros x Hx; apply Ha; auto. Qed.

Lemma grows_outside pgdir k free pt k' free' pt' :
  grows pgdir k free pt k' free' pt' -> same_outside (fun x => x ∈ free \/ page_of pgdir pt ∅ x) (k_mem k) (k_mem k').
Proof.
  intros G a Ha. apply (gr_mem _ _ _ _ _ _ _ G). assert (A : forall x, page_of pgdir pt' ∅ x -> a < x \/ x + 4096 <= a).
  { intros x Hx. apply Ha. apply (page_of_grows _ _ _ _ _ _ _ ∅ x G). by right. }
  split; [apply A; by left|]. intros d t Hd. apply A. right. left. by exists d.
Qed.

(** An address space has a directory, at most 1024 tables and its user pages: a list
    of distinct pages that are all free or of the address space is not longer. *)
Definition space_pages : nat := 1025.

Lemma space_pages_bound m pgdir pt um pages free :
  pgtab_ok m pgdir pt -> NoDup pages -> (forall x, x ∈ pages -> x ∈ free \/ page_of pgdir pt um x) ->
  (length pages <= length free + space_pages + size um)%nat.
Proof.
  intros Ht Hnd Hin. assert (Hpt : (size pt <= 1024)%nat).
  { rewrite <- size_dom. transitivity (size (list_to_set (seqZ 0 1024) : gset Z)); [|by vm_compute].
    apply subseteq_size. intros d [t Hd]%elem_of_dom. apply elem_of_list_to_set, elem_of_seqZ. pose proof (pt_key _ _ _ Ht d t Hd). lia. }
  assert (Hs : pages ⊆+ free ++ pgdir :: (map_to_list pt).*2 ++ (map_to_list um).*2).
  { apply NoDup_submseteq; [done|]. intros x Hx. rewrite elem_of_app, elem_of_cons, elem_of_app, !list_elem_of_fmap.
    destruct (Hin x Hx) as [?|[->|[[d Hd]|[va Hva]]]]; [tauto|tauto| |].
    - right. right. left. exists (d, x). split; [done|]. by apply elem_of_map_to_list.
    - right. right. right. exists (va, x). split; [done|]. by apply elem_of_map_to_list. }
  apply submseteq_length in Hs. rewrite length_app in Hs. cbn [length] in Hs.
  rewrite length_app, !length_fmap, !length_map_to_list in Hs. unfold space_pages. lia.
Qed.

Section Setup.
Context (pgdir : Z).

(** What [setupkvm] comes to, from [free] pages and a directory of no user pages. *)
Definition set_up (km : list kmap_entry) (k : kernel) (free : list Z) (pt : gmap Z Z) (r : Z) (k' : kernel) : Prop :=
  (exists m f, k' = with_mem m f k) /\ same_outside (fun x => x ∈ free \/ page_of pgdir pt ∅ x) (k_mem k) (k_mem k') /\
  (r = pgdir /\ (exists free' pt', user_ok k' free' pgdir pt' ∅ /\
      (forall x, (x ∈ free \/ page_of pgdir pt ∅ x) <-> (x ∈ free' \/ page_of pgdir pt' ∅ x))) /\
      (forall w, upage w -> pte_of (k_mem k') pgdir w = default (pte_of (k_mem k) pgdir w) (kern_pte km w)) \/
   r = 0 /\ (exists free', kmem_ok k' free' /\ forall x, x ∈ free' <-> x ∈ free \/ page_of pgdir pt ∅ x) /\
     forall pages, NoDup pages -> (forall x, x ∈ pages -> x ∈ free \/ page_of pgdir pt ∅ x) -> (length pages <= space_pages)%nat).

Lemma setupkvm_loop_ok km : forall k free pt lo,
  user_ok k free pgdir pt ∅ -> kmem_free_lock k -> entries_ok lo km ->
  (forall w, upage w -> lo <= w -> has (pte_of (k_mem k) pgdir w) PTE_P = false) ->
  exists r k', setupkvm_loop pgdir km k = Ok r k' /\ set_up km k free pt r k'.
Proof.
  induction km as [|e km IH]; intros k free pt lo H Hl He Hn; cbn [setupkvm_loop].
  - exists pgdir, k. split; [done|]. split; [exists (k_mem k), (k_freelist k); by destruct k|]. split; [done|].
    left. split; [done|]. split; [by exists free, pt|done].
  - destruct He as ((Hv & Hvk & Hsz & Hpos & Hend & Hm & Hs0 & Hse & Hperm) & Hlo & He). rewrite Hsz.
    assert (Hup : forall i, 0 <= i < km_pages e -> upage (km_virt e + 4096 * i)).
    { intros i Hi. destruct Hv as [Hm' Hb]. split; [|lia]. rewrite Z.mul_comm. by rewrite Z_mod_plus_full. }
    destruct (mappages_run k free pgdir pt (km_virt e) (km_pages e) (km_start e) (km_perm e)) as (r & j & k1 & free1 & pt1 & E1 & G & R & _ & P1);
      try done; [apply H|intros i Hi; apply Hn; [by apply Hup|lia]|].
    rewrite (bind_ok _ _ _ _ _ E1). pose proof (grows_outside _ _ _ _ _ _ _ G) as M1.
    assert (Hl1 : kmem_free_lock k1) by (by eapply grows_lock).
    destruct (gr_state _ _ _ _ _ _ _ G) as (m1 & f1 & Ek1).
    assert (H1 : user_ok k1 free1 pgdir pt1 ∅).
    { apply (user_only_kernel k free pgdir pt k1 free1 pt1 H G). intros w Hw Hwk. rewrite P1 by done.
      by rewrite (proj2 (Z.leb_gt _ _)) by lia. }
    assert (Hpg : forall x, (x ∈ free \/ page_of pgdir pt ∅ x) <-> (x ∈ free1 \/ page_of pgdir pt1 ∅ x))
      by (intros x; by apply (page_of_grows _ _ _ _ _ _ _ ∅ x G)).
    destruct R as [[-> ->]|(-> & -> & Hj)].
    + change (0 <? 0) with false. cbv iota.
      destruct (IH k1 free1 pt1 (km_virt e + 4096 * km_pages e) H1 Hl1 He) as (r & k2 & E2 & (m2 & f2 & Ek2) & M2 & R2).
      { intros w Hw Hlw. rewrite P1 by done. rewrite (proj2 (andb_false_iff _ _)) by (right; apply Z.ltb_ge; lia). apply Hn; [done|lia]. }
      exists r, k2. split; [exact E2|]. split; [subst; by exists m2, f2|]. split.
      { eapply same_outside_trans; [| |exact M1|exact M2]; [done|]. intros x. by rewrite Hpg. }
      destruct R2 as [(-> & (free2 & pt2 & H2 & Hpg2) & P2)|(-> & (free2 & Hk2 & Hf2) & L2)].
      * left. split; [done|]. split; [exists free2, pt2; split; [done|]; intros x; by rewrite Hpg|].
        intros w Hw. rewrite P2, P1 by done. cbn [kern_pte]. destruct (_ && _) eqn:Ein; [|by destruct (kern_pte km w)].
        rewrite (kern_pte_below km w _ He); [done|]. apply andb_true_iff in Ein as [_ Ein]. by apply Z.ltb_lt in Ein.
      * right. split; [done|]. split; [exists free2; split; [done|]; intros x; by rewrite Hf2, Hpg|].
        intros pages Hnd Hin. apply L2; [done|]. intros x Hx. by apply Hpg, Hin.
    + change (-1 <? 0) with true. cbv iota.
      destruct (freevm_run k1 [] pgdir pt1 ∅ H1 Hl1) as (m2 & f2 & free2 & E2 & Hk2 & Hf2 & M2).
      rewrite (bind_ok _ _ _ _ _ E2). exists 0, (with_mem m2 f2 k1). split; [done|]. split; [subst; by exists m2, f2|]. split.
      { eapply same_outside_trans; [| |exact M1|exact M2]; [done|]. intros x Hx. rewrite Hpg. by right. }
      right. split; [done|]. split; [exists free2; split; [done|]; intros x; by rewrite Hf2, Hpg|].
      intros pages Hnd Hin. pose proof (space_pages_bound _ pgdir pt1 ∅ pages [] (sp_tab _ _ _ _ (us_space _ _ _ _ _ H1)) Hnd) as L.
      rewrite map_size_empty, Nat.add_0_r in L. apply L. intros x Hx. by apply Hpg, Hin.
Qed.

End Setup.

(** [setupkvm] makes an address space with the kernel's mappings and nothing else of
    pages that were free, or gives them all back, which it does only when there are
    not enough of them. *)
Definition kvm_made (k : kernel) (free : list Z) (r : Z) (k' : kernel) : Prop :=
  (exists m f, k' = with_mem m f k) /\ same_outside (fun x => x ∈ free) (k_mem k) (k_mem k') /\
  ((r <> 0 /\ exists free' pt', user_ok k' free' r pt' ∅ /\ (forall x, x ∈ free <-> x ∈ free' \/ page_of r pt' ∅ x) /\
      forall w, upage w -> pte_of (k_mem k') r w = default 0 (kern_pte (kmap (k_data k)) w)) \/
   r = 0 /\ (exists free', kmem_ok k' free' /\ forall x, x ∈ free' <-> x ∈ free) /\ (length free <= space_pages)%nat).

Lemma setupkvm_run k free :
  kmem_ok k free -> KERNBASE < k_end k -> kmem_free_lock k -> data_ok k ->
  exists r k', setupkvm k = Ok r k' /\ kvm_made k free r k'.
Proof.
  intros Hk He Hl Hd. unfold setupkvm. pose proof (kalloc_pop k free Hk Hl) as Ea. destruct free as [|u free].
  { rewrite (bind_ok _ _ _ _ _ Ea), Z.eqb_refl. exists 0, k. split; [done|].
    split; [exists (k_mem k), (k_freelist k); by destruct k|]. split; [done|]. right. split; [done|]. split; [by exists []|cbn; lia]. }
  destruct Ea as (k1 & Ea & Hk1 & ->). rewrite (bind_ok _ _ _ _ _ Ea).
  pose proof Hk as [_ Hnd Hg _]. apply NoDup_cons in Hnd as [Hnu _]. apply Forall_cons in Hg as [Hgu Hg].
  pose proof (good_kpage k u (kmem_end _ _ Hk) Hgu) as Hku.
  rewrite (proj2 (Z.eqb_neq u 0)) by (destruct Hku; unfold KERNBASE in *; lia).
  set (k2 := with_mem (memset (k_mem k) u 0 PGSIZE) (load32 (k_mem k) u) k).
  rewrite (bind_ok _ _ _ _ _ (eq_refl : zero_page u _ = Ok tt k2)). change (DEVSPACE <? P2V PHYSTOP) with false. cbv iota.
  rewrite (bind_ok _ _ _ _ _ (eq_refl : get k2 = Ok k2 k2)).
  assert (Hm : forall x, k_mem k2 x = if (u <=? x) && (x <? u + 4096) then 0 else k_mem k x).
  { intros x. unfold k2. cbn [k_mem with_mem set_k_mem]. by rewrite memset_byte by (unfold PGSIZE; lia). }
  assert (Hout : forall x, x < u \/ u + PGSIZE <= x -> memset (k_mem k) u 0 PGSIZE x = k_mem k x).
  { intros x Hx. unfold PGSIZE in Hx. change (memset (k_mem k) u 0 PGSIZE x) with (k_mem k2 x). rewrite Hm.
    rewrite (proj2 (andb_false_iff _ _)); [done|]. rewrite Z.leb_gt, Z.ltb_ge. lia. }
  assert (Hk2 : kmem_ok k2 free) by (exact (kmem_ok_mem _ free (memset (k_mem k) u 0 PGSIZE) u Hk1 Hgu Hnu Hout)).
  assert (Hz : forall x, u <= x < u + 4096 -> k_mem k2 x = 0).
  { intros x Hx. rewrite Hm, (proj2 (andb_true_iff _ _)); [done|]. rewrite Z.leb_le, Z.ltb_lt. lia. }
  pose proof (user_empty k2 free u Hk2 He Hgu Hnu Hz) as H2.
  assert (P2 : forall w, upage w -> pte_of (k_mem k2) u w = 0).
  { intros w Hw. by rewrite (pte_of_table _ _ ∅ w (sp_tab _ _ _ _ (us_space _ _ _ _ _ H2)) (proj2 Hw)), lookup_empty. }
  destruct (setupkvm_loop_ok u (kmap (k_data k)) k2 free ∅ KERNBASE H2 Hl (kmap_ok k Hd)) as (r & k' & E & (m & f & Ek) & M & R).
  { intros w Hw _. by rewrite P2. }
  assert (Hpg : forall x, x ∈ u :: free <-> x ∈ free \/ page_of u ∅ ∅ x).
  { intros x. unfold page_of. rewrite elem_of_cons. split; [tauto|]. intros [?|[?|[[d Hd']|[va Hva]]]]; [tauto|tauto|done|done]. }
  exists r, k'. split; [exact E|]. split; [subst; by exists m, f|]. split.
  { eapply same_outside_trans with (P := fun x => x = u); [| | |exact M].
    - intros x ->. by left.
    - intros x. by rewrite Hpg.
    - intros a Ha. apply Hout. unfold PGSIZE. by apply Ha. }
  destruct R as [(-> & (free' & pt' & H' & Hf') & P')|(-> & (free' & Hk' & Hf') & L')].
  - left. split; [destruct Hku; unfold KERNBASE in *; lia|]. exists free', pt'. split; [done|]. split; [intros x; by rewrite Hpg|].
    intros w Hw. rewrite P' by done. by rewrite P2.
  - right. split; [done|]. split; [exists free'; split; [done|]; intros x; by rewrite Hf', Hpg|].
    apply L'; [apply (kmem_nodup _ _ Hk)|]. intros x. by rewrite Hpg.
Qed.

(** ** copyuvm *)

Lemma page_of_insert pgdir pt um va u x :
  um !! va = None -> page_of pgdir pt (<[va := u]> um) x <-> x = u \/ page_of pgdir pt um x.
Proof.
  intros Hn. unfold page_of. split.
  - intros [?|[?|[w Hw]]]; [tauto|tauto|]. apply lookup_insert_Some in Hw as [[_ <-]|[_ Hw]]; [tauto|].
    right. right. right. by exists w.
  - intros [->|[?|[?|[w Hw]]]]; [right; right; exists va; by rewrite lookup_insert_eq|tauto|tauto|].
    right. right. exists w. rewrite lookup_insert_ne; [done|]. congruence.
Qed.

Section Copy.
Context (k0 : kernel) (free0 : list Z) (pgdir : Z) (pt um : gmap Z Z) (d : Z).
Context (Hparent : user_ok k0 free0 pgdir pt um) (Hlock : kmem_free_lock k0).
Context (Hbytes : forall va v x, um !! va = Some v -> v <= x < v + 4096 -> 0 <= k_mem k0 x < 256).

(** While [copyuvm] runs, only pages that were free when it was called change, and they
    are free or in the new address space. *)
Record copying (k : kernel) (free : list Z) (cpt cum : gmap Z Z) : Prop := {
  cp_state : exists m f, k = with_mem m f k0;
  cp_child : user_ok k free d cpt cum;
  cp_pages x : x ∈ free0 <-> x ∈ free \/ page_of d cpt cum x;
  cp_mem : same_outside (fun x => x ∈ free0) (k_mem k0) (k_mem k)
}.

(** Page [va] of the child is a copy of the parent's, with the same flags. *)
Definition copied (k : kernel) (cum : gmap Z Z) (va : Z) : Prop :=
  exists v u, um !! va = Some v /\ cum !! va = Some u /\
    (forall j, 0 <= j < 4096 -> k_mem k (u + j) = k_mem k0 (v + j)) /\
    exists fl, 0 <= fl < 4096 /\ pte_of (k_mem k0) pgdir va = Z.lor (V2P v) fl /\ pte_of (k_mem k) d va = Z.lor (V2P u) fl.

(** The parent is as it was. *)
Lemma parent_same k free cpt cum :
  copying k free cpt cum -> user_ok k free pgdir pt um /\ same_bytes um k0 k /\
  (forall w, upage w -> pte_of (k_mem k) pgdir w = pte_of (k_mem k0) pgdir w).
Proof.
  intros [(m & f & ->) Hc Hp Hm]. apply (user_other k0 free0); [done|apply Hc| |].
  - intros x Hx Hf. destruct (page_of_kpage _ _ _ _ _ _ Hparent Hx) as (_ & _ & Hn). apply Hn. rewrite Hp. by left.
  - intros x a Hx Ha. apply Hm. intros y Hy. destruct (page_of_kpage _ _ _ _ _ _ Hparent Hx) as (Hkx & _ & Hn).
    pose proof (sp_kmem _ _ _ _ (us_space _ _ _ _ _ Hparent)) as Hk. pose proof (kmem_good _ _ Hk) as Hg.
    rewrite Forall_forall in Hg. pose proof (good_kpage k0 y (kmem_end _ _ Hk) (Hg y Hy)) as Hky.
    destruct (kpage_apart x y Hkx Hky); [by intros ->|lia..].
Qed.

(** The child given up: every page is free again. *)
Definition given_up (k' : kernel) : Prop :=
  (exists m f, k' = with_mem m f k0) /\ same_outside (fun x => x ∈ free0) (k_mem k0) (k_mem k') /\
  exists free', kmem_ok k' free' /\ forall x, x ∈ free' <-> x ∈ free0.

(** The pages there were, when the copy has taken all but [free]. *)
Lemma copying_bound k free cpt cum :
  copying k free cpt cum -> (length free0 <= length free + space_pages + size cum)%nat.
Proof.
  intros Hc. apply (space_pages_bound (k_mem k) d cpt); [apply (us_space _ _ _ _ _ (cp_child _ _ _ _ Hc))| |].
  - apply (kmem_nodup _ _ (sp_kmem _ _ _ _ (us_space _ _ _ _ _ Hparent))).
  - intros x. apply (cp_pages _ _ _ _ Hc).
Qed.

Lemma copy_give_up k free cpt cum :
  copying k free cpt cum -> exists k', (freevm d ;;; ret 0) k = Ok 0 k' /\ given_up k'.
Proof.
  intros [(m & f & ->) Hc Hp Hm]. destruct (freevm_run _ free d cpt cum Hc Hlock) as (m2 & f2 & free2 & E2 & Hk2 & Hf2 & M2).
  eexists. split; [by rewrite (bind_ok _ _ _ _ _ E2)|]. split; [by exists m2, f2|]. split.
  - eapply same_outside_trans; [| |exact Hm|exact M2]; [done|]. intros x Hx. rewrite Hp. by right.
  - exists free2. split; [done|]. intros x. by rewrite Hf2, Hp.
Qed.

Lemma lor_has_present fl : has fl PTE_P = true -> Z.lor fl PTE_P = fl.
Proof.
  unfold has, PTE_P. intros H. apply negb_true_iff, Z.eqb_neq in H. apply Z.bits_inj'. intros n Hn.
  rewrite Z.lor_spec. destruct (Z.eq_dec n 0) as [->|Hz].
  - destruct (Z.testbit fl 0) eqn:E; [done|]. exfalso. apply H. apply Z.bits_inj'. intros j Hj. rewrite Z.land_spec, Z.bits_0.
    destruct (Z.eq_dec j 0) as [->|Hjz]; [by rewrite E|]. change 1 with (2 ^ 0). rewrite Z.pow2_bits_false by lia. apply andb_false_r.
  - change 1 with (2 ^ 0). rewrite Z.pow2_bits_false by lia. apply orb_false_r.
Qed.

(** One turn of the loop, up to the mapping of the copy. *)
Lemma copy_page k free cpt cum i v :
  copying k free cpt cum -> um !! i = Some v ->
  exists fl, 0 <= fl < 4096 /\ has fl PTE_P = true /\ pte_of (k_mem k0) pgdir i = Z.lor (V2P v) fl /\
  forall n', copyuvm_loop (S n') pgdir d i k =
    (let! mem := kalloc in
     if mem =? 0 then freevm d ;;; ret 0 else
     modify (fun k => set_k_mem (Kstring.memmove (k_mem k) mem v (Z.to_nat PGSIZE)) k) ;;;
     let! r := mappages d i PGSIZE (V2P mem) fl in
     if r <? 0 then kfree mem ;;; freevm d ;;; ret 0 else copyuvm_loop n' pgdir d (i + PGSIZE)) k.
Proof.
  intros Hc Hv. destruct (parent_same _ _ _ _ Hc) as (Hp & _ & Hpte). destruct (us_page _ _ _ _ _ Hp i v Hv) as (Hi & _).
  destruct (us_pte _ _ _ _ _ Hp i v Hv) as (fl & F1 & F2 & F3). exists fl. split; [done|]. split; [done|].
  split; [by rewrite <- Hpte|]. intros n'. cbn [copyuvm_loop].
  destruct (user_kpage _ _ _ _ _ _ _ Hp Hv) as [Hkv _]. destruct (V2P_kpage v Hkv) as (_ & Hm & _).
  pose proof (us_space _ _ _ _ _ Hp) as Hs. pose proof (sp_tab _ _ _ _ Hs) as Ht.
  assert (Hpt : exists t, pt !! PDX i = Some t).
  { destruct (pt !! PDX i) as [t|] eqn:Et; [by exists t|]. rewrite (pte_of_table _ _ _ _ Ht (proj2 Hi)), Et in F3.
    symmetry in F3. apply Z.lor_eq_0_iff in F3 as [_ ->]. done. }
  destruct Hpt as [t Et]. destruct (pt_page _ _ _ Ht _ _ Et) as [[_ Hkt] _]. pose proof (PTX_range i (proj2 Hi)).
  rewrite (bind_ok _ _ _ _ _ (walkpgdir_found k pgdir pt i false t Ht (proj2 Hi) Et)).
  rewrite (proj2 (Z.eqb_neq _ _)) by (unfold KERNBASE in *; lia). unfold mload, gets, bind at 1.
  rewrite (pte_of_table _ _ _ _ Ht (proj2 Hi)), Et in F3. rewrite F3, has_low, F2 by (done || unfold PTE_P; lia).
  change (negb true) with false. cbv iota. rewrite PTE_ADDR_pack, PTE_FLAGS_pack, P2V_V2P by done. done.
Qed.

(** A free page [u] filled with the bytes of [v]. *)
Lemma copy_fill k free u cpt cum i v :
  copying k (u :: free) cpt cum -> um !! i = Some v ->
  let m := Kstring.memmove (k_mem k) u v (Z.to_nat PGSIZE) in
  let k2 := with_mem m (load32 (k_mem k) u) k in
  user_ok k2 free d cpt cum /\ same_bytes cum k k2 /\ fresh_page k2 free d cpt cum u /\
  (forall w, upage w -> pte_of (k_mem k2) d w = pte_of (k_mem k) d w) /\
  (forall j, 0 <= j < 4096 -> k_mem k2 (u + j) = k_mem k0 (v + j)) /\
  same_outside (fun x => x ∈ free0) (k_mem k0) (k_mem k2).
Proof.
  intros Hc Hv m k2. destruct (parent_same _ _ _ _ Hc) as (Hp & Hpb & _).
  assert (Hu : u ∈ free0) by (apply (cp_pages _ _ _ _ Hc); left; by left).
  assert (Hku : kpage u).
  { pose proof (sp_kmem _ _ _ _ (us_space _ _ _ _ _ Hparent)) as Hk. pose proof (kmem_good _ _ Hk) as Hg.
    rewrite Forall_forall in Hg. apply (good_kpage k0); [apply Hk|by apply Hg]. }
  destruct (user_kpage _ _ _ _ _ _ _ Hparent Hv) as [Hkv _].
  assert (Hne : v <> u).
  { intros ->. destruct (us_page _ _ _ _ _ Hparent i u Hv) as (_ & _ & _ & Hf & _). done. }
  assert (Hm : forall x, m x = if (u <=? x) && (x <? u + 4096) then u8 (k_mem k (v + (x - u))) else k_mem k x).
  { intros x. unfold m. rewrite memmove_apart; [done|]. change (Z.of_nat (Z.to_nat PGSIZE)) with 4096.
    destruct (kpage_apart v u Hkv Hku Hne); lia. }
  assert (Hout : forall x, x < u \/ u + 4096 <= x -> m x = k_mem k x).
  { intros x Hx. rewrite Hm, (proj2 (andb_false_iff _ _)); [done|]. rewrite Z.leb_gt, Z.ltb_ge. lia. }
  destruct (user_take_any k free u d cpt cum m (cp_child _ _ _ _ Hc) Hout) as (A & B & C & D).
  split; [exact A|]. split; [exact B|]. split; [exact C|]. split; [exact D|]. split.
  - intros j Hj. unfold k2. cbn [k_mem with_mem set_k_mem]. rewrite Hm, (proj2 (andb_true_iff _ _)) by (rewrite Z.leb_le, Z.ltb_lt; lia).
    replace (v + (u + j - u)) with (v + j) by lia. rewrite (Hpb i v (v + j) Hv) by lia. apply u8_small.
    apply (Hbytes i v); [done|lia].
  - eapply same_outside_trans with (Q := fun x => x = u); [| |exact (cp_mem _ _ _ _ Hc)|]; [done|by intros x ->|].
    intros a Ha. apply Hout, Ha. done.
Qed.

(** What the rest of the loop comes to. *)
Definition copy_result (n : nat) (i : Z) (k : kernel) (cum : gmap Z Z) (r : Z) (k' : kernel) : Prop :=
  (r = d /\ exists free' cpt' cum', copying k' free' cpt' cum' /\
     (forall va, ~ (i <= va < i + 4096 * Z.of_nat n) -> cum' !! va = cum !! va) /\
     same_bytes cum k k' /\ same_ptes d cum k k' /\
     (forall va, upage va -> i <= va < i + 4096 * Z.of_nat n -> copied k' cum' va)) \/
  (r = 0 /\ given_up k' /\ (length free0 <= S space_pages + size cum + n)%nat).

Lemma copied_mono k k' cum cum' va u :
  copied k cum va -> cum !! va = Some u -> cum' !! va = Some u -> same_bytes cum k k' -> same_ptes d cum k k' -> copied k' cum' va.
Proof.
  intros (v & u' & Hv & Hu' & Hb & fl & F1 & F2 & F3) Hu Hu2 Sb Sp. assert (u' = u) as -> by congruence.
  exists v, u. split; [done|]. split; [done|]. split.
  - intros j Hj. rewrite (Sb va u) by (done || lia). by apply Hb.
  - exists fl. split; [done|]. split; [done|]. by rewrite (Sp va u).
Qed.

Lemma copyuvm_loop_ok n : forall i k free cpt cum,
  copying k free cpt cum -> upage i -> i + 4096 * Z.of_nat n <= KERNBASE ->
  (forall va, upage va -> i <= va < i + 4096 * Z.of_nat n -> exists v, um !! va = Some v) ->
  (forall va, i <= va -> cum !! va = None) ->
  exists r k', copyuvm_loop n pgdir d i k = Ok r k' /\ copy_result n i k cum r k'.
Proof.
  induction n as [|n IH]; intros i k free cpt cum Hc Hi Hend Hum Hnone.
  { exists d, k. split; [done|]. left. split; [done|]. exists free, cpt, cum. split; [done|]. split; [done|]. split; [done|].
    split; [done|]. intros va _ Hr. lia. }
  destruct (Hum i Hi ltac:(lia)) as [v Hv]. destruct (copy_page k free cpt cum i v Hc Hv) as (fl & F1 & F2 & F3 & El).
  rewrite El. clear El. pose proof (cp_state _ _ _ _ Hc) as (mk & fk & Ek).
  assert (Hl : kmem_free_lock k) by (rewrite Ek; exact Hlock).
  pose proof (sp_kmem _ _ _ _ (us_space _ _ _ _ _ (cp_child _ _ _ _ Hc))) as Hkm.
  pose proof (kalloc_pop k free Hkm Hl) as Ea. destruct free as [|u free].
  { rewrite (bind_ok _ _ _ _ _ Ea), Z.eqb_refl. destruct (copy_give_up _ _ _ _ Hc) as (k' & E & G).
    exists 0, k'. split; [exact E|]. right. pose proof (copying_bound _ _ _ _ Hc) as L. cbn [length] in L. split; [done|]. split; [done|lia]. }
  destruct Ea as (k1 & Ea & _ & ->). rewrite (bind_ok _ _ _ _ _ Ea).
  destruct (copy_fill k free u cpt cum i v Hc Hv) as (H2 & B2 & Fr2 & P2 & Cp2 & M2). cbv zeta in *.
  set (k2 := with_mem (Kstring.memmove (k_mem k) u v (Z.to_nat PGSIZE)) (load32 (k_mem k) u) k) in *.
  assert (Hku : kpage u) by (apply (good_kpage k2); [apply (us_space _ _ _ _ _ H2)|apply Fr2]).
  rewrite (proj2 (Z.eqb_neq u 0)) by (destruct Hku; unfold KERNBASE in *; lia).
  rewrite (bind_ok _ _ tt _ k2) by reflexivity.
  assert (Hik : i < KERNBASE) by lia. pose proof (Hnone i ltac:(lia)) as Hci.
  destruct (map_fresh k2 free d cpt cum i u fl H2 Fr2 Hl Hi Hik Hci F1) as (r & k3 & free3 & cpt3 & E3 & G3 & _ & R3).
  rewrite (bind_ok _ _ _ _ _ E3). destruct (gr_state _ _ _ _ _ _ _ G3) as (m3 & f3 & Ek3).
  assert (Hst : exists m f, k3 = with_mem m f k0) by (exists m3, f3; rewrite Ek3; unfold k2; by rewrite Ek).
  assert (Hpg : forall x, x ∈ free0 <-> x = u \/ x ∈ free3 \/ page_of d cpt3 cum x).
  { intros x. rewrite (cp_pages _ _ _ _ Hc), elem_of_cons, <- (page_of_grows _ _ _ _ _ _ _ cum x G3). tauto. }
  assert (M3 : same_outside (fun x => x ∈ free0) (k_mem k0) (k_mem k3)).
  { eapply same_outside_trans; [| |exact M2|exact (grows_outside _ _ _ _ _ _ _ G3)]; [done|]. intros x Hx.
    rewrite (cp_pages _ _ _ _ Hc), elem_of_cons. unfold page_of in *. destruct Hx as [?|[?|[?|[va Hva]]]]; [tauto..|done]. }
  destruct R3 as [(-> & H3 & B3 & Pt3)|(-> & -> & -> & H3 & B3 & Fr3)].
  - change (0 <? 0) with false. cbv iota.
    assert (Hc3 : copying k3 free3 cpt3 (<[i := u]> cum)).
    { split; [done|done| |done]. intros x. rewrite page_of_insert by done. rewrite Hpg. tauto. }
    assert (Hcp : copied k3 (<[i := u]> cum) i).
    { exists v, u. split; [done|]. split; [by rewrite lookup_insert_eq|]. split.
      - intros j Hj. rewrite (B3 i u) by (by rewrite lookup_insert_eq || lia). by apply Cp2.
      - exists fl. split; [done|]. split; [done|]. rewrite Pt3, Z.eqb_refl by done. by rewrite lor_has_present. }
    assert (Hi4 : upage (i + 4096)).
    { destruct Hi as [Hm Hb]. unfold KERNBASE in *. split; [by rewrite Z.add_mod, Hm by lia|lia]. }
    destruct (IH (i + PGSIZE) k3 free3 cpt3 (<[i := u]> cum) Hc3 Hi4) as (r & k4 & E4 & R4).
    { unfold PGSIZE. lia. }
    { intros va Hva Hr. apply Hum; [done|unfold PGSIZE in *; lia]. }
    { intros va Hva. unfold PGSIZE in Hva. rewrite lookup_insert_ne by lia. apply Hnone. lia. }
    exists r, k4. split; [exact E4|]. unfold PGSIZE in *.
    destruct R4 as [(-> & free' & cpt' & cum' & Hc' & Ho & Sb & Sp & Hcps)|(-> & G & L)]; [left|right].
    2: { split; [done|]. split; [done|]. rewrite map_size_insert_None in L by done. lia. }
    split; [done|]. exists free', cpt', cum'. split; [done|]. split; [|split; [|split]].
    + intros va Hva. rewrite Ho by lia. apply lookup_insert_ne. lia.
    + eapply same_bytes_trans; [exact B2|]. eapply same_bytes_trans; [|eapply same_bytes_sub; [|exact Sb]; by apply insert_subseteq].
      eapply same_bytes_sub; [|exact B3]. by apply insert_subseteq.
    + intros va w Hw. assert (va <> i) by congruence. destruct (us_page _ _ _ _ _ (cp_child _ _ _ _ Hc) va w Hw) as (Hva & _).
      rewrite (Sp va w) by (by rewrite lookup_insert_ne). by rewrite Pt3, (proj2 (Z.eqb_neq _ _)), P2.
    + intros va Hva Hr. destruct (decide (va = i)) as [->|Hne].
      * apply (copied_mono k3 k4 (<[i := u]> cum) cum' i u); [done|by rewrite lookup_insert_eq| |done|done].
        rewrite Ho by lia. by rewrite lookup_insert_eq.
      * apply Hcps; [done|]. destruct Hi as [Hm _], Hva as [Hm' _].
        apply Z.mod_divide in Hm as [y ->], Hm' as [z ->]; lia.
  - change (-1 <? 0) with true. cbv iota.
    assert (Hl3 : kmem_free_lock k3) by (destruct Hst as (? & ? & ->); exact Hlock).
    pose proof (kfree_eq k3 u (proj1 Fr3) Hl3) as E4. rewrite (bind_ok _ _ _ _ _ E4).
    destruct (user_give k3 [] d cpt3 cum u H3 Fr3 Hl3) as (k4 & E4' & H4 & _). rewrite E4 in E4'. injection E4' as E4'.
    rewrite E4'. assert (Hc4 : copying k4 [u] cpt3 cum).
    { split; [|done| |].
      - destruct Hst as (? & ? & ->). rewrite <- E4'. by eexists _, _.
      - intros x. rewrite Hpg, elem_of_nil, list_elem_of_singleton. tauto.
      - eapply same_outside_trans with (Q := fun x => x = u); [| |exact M3|]; [done|intros x ->; rewrite Hpg; tauto|].
        intros a Ha. rewrite <- E4'. apply kfree_mem_out, Ha. done. }
    destruct (copy_give_up _ _ _ _ Hc4) as (k' & E & G). exists 0, k'. split; [exact E|].
    right. pose proof (copying_bound _ _ _ _ Hc4) as L. cbn [length] in L. split; [done|]. split; [done|lia].
Qed.

End Copy.

(** ** fork's copy *)

Definition copy_pages (sz : Z) : nat := Z.to_nat ((sz + PGSIZE - 1) / PGSIZE).

Lemma copy_pages_bounds sz :
  0 <= sz <= KERNBASE -> sz <= 4096 * Z.of_nat (copy_pages sz) < sz + 4096 /\ 4096 * Z.of_nat (copy_pages sz) <= KERNBASE.
Proof.
  intros H. unfold copy_pages, PGSIZE, KERNBASE in *. pose proof (Z.div_mod (sz + 4096 - 1) 4096 ltac:(lia)).
  pose proof (Z.mod_pos_bound (sz + 4096 - 1) 4096 ltac:(lia)). lia.
Qed.

(** Every user page is a page of bytes. *)
Definition byte_pages (k : kernel) (um : gmap Z Z) : Prop :=
  forall va v x, um !! va = Some v -> v <= x < v + 4096 -> 0 <= k_mem k x < 256.

(** The directory [setupkvm] made is ready for the copies. *)
Lemma copying_start k free r k1 :
  kvm_made k free r k1 -> r <> 0 -> exists free1 cpt, copying k free r k1 free1 cpt ∅.
Proof.
  intros (Hs & Hm & [(_ & free1 & cpt & H1 & Hp & _)|(-> & _)]) Hr; [|done]. exists free1, cpt. by split.
Qed.

Lemma given_up_parent k free pgdir pt um k' :
  user_ok k free pgdir pt um -> given_up k free k' ->
  exists free', user_ok k' free' pgdir pt um /\ same_bytes um k k' /\ forall x, x ∈ free' <-> x ∈ free.
Proof.
  intros H ((m & f & ->) & Hm & free' & Hk & Hf). exists free'.
  destruct (user_other k free pgdir pt um m f free' H Hk) as (A & B & _).
  - intros x Hx Hi. rewrite Hf in Hi. by destruct (page_of_kpage _ _ _ _ _ _ H Hx) as (_ & _ & Hn).
  - intros x a Hx Ha. apply Hm. intros y Hy. destruct (page_of_kpage _ _ _ _ _ _ H Hx) as (Hkx & _ & Hn).
    pose proof (sp_kmem _ _ _ _ (us_space _ _ _ _ _ H)) as Hk0. pose proof (kmem_good _ _ Hk0) as Hg.
    rewrite Forall_forall in Hg. pose proof (good_kpage k y (kmem_end _ _ Hk0) (Hg y Hy)) as Hky.
    destruct (kpage_apart x y Hkx Hky); [by intros ->|lia..].
  - done.
Qed.

(** What a copy that went well leaves: parent and child side by side. *)
Definition forked (k : kernel) (free : list Z) (pgdir : Z) (pt um : gmap Z Z) (sz r : Z) (k' : kernel) : Prop :=
  exists free' cpt cum, user_ok k' free' r cpt cum /\ user_ok k' free' pgdir pt um /\ same_bytes um k k' /\
    (forall x, x ∈ free <-> x ∈ free' \/ page_of r cpt cum x) /\
    (forall va, upage va -> va < sz -> copied k pgdir um r k' cum va) /\
    (forall va u, cum !! va = Some u -> va < sz).

(** C19: [copyuvm] copies the memory of a process: when every page below [sz] is present, it
    returns a new address space whose page at each address below [sz] holds the parent's
    bytes under the parent's flags, and that has no other user page, made of pages that
    were free; or it returns 0, with every page it took free again, which happens only when
    there are not free pages enough for the copies and the tables.  The parent's page
    table and memory are as they were, and the two share no page. *)
Theorem copyuvm_copies k free pgdir pt um sz :
  user_ok k free pgdir pt um -> kmem_free_lock k -> data_ok k -> byte_pages k um -> 0 <= sz <= KERNBASE ->
  (forall va, upage va -> va < sz -> exists v, um !! va = Some v) ->
  exists r k', copyuvm pgdir sz k = Ok r k' /\
    ((r <> 0 /\ forked k free pgdir pt um sz r k') \/
     (r = 0 /\ (length free <= S space_pages + copy_pages sz)%nat /\
      exists free', user_ok k' free' pgdir pt um /\ same_bytes um k k' /\ forall x, x ∈ free' <-> x ∈ free)).
Proof.
  intros H Hl Hd Hb Hsz Hum. pose proof (sp_kmem _ _ _ _ (us_space _ _ _ _ _ H)) as Hk. unfold copyuvm.
  destruct (setupkvm_run k free Hk (us_end _ _ _ _ _ H) Hl Hd) as (r & k1 & E1 & Hm). rewrite (bind_ok _ _ _ _ _ E1). clear E1.
  destruct (Z.eqb_spec r 0) as [->|Hr].
  - exists 0, k1. split; [done|]. right. split; [done|].
    destruct Hm as (A & B & [(? & _)|(_ & C & L)]); [done|]. split; [lia|]. by apply (given_up_parent k free).
  - destruct (copying_start k free r k1 Hm Hr) as (free1 & cpt & Hc).
    destruct (copy_pages_bounds sz Hsz) as [Hn1 Hn2].
    destruct (copyuvm_loop_ok k free pgdir pt um r H Hl Hb (copy_pages sz) 0 k1 free1 cpt ∅ Hc) as (r' & k' & E & R).
    + by split.
    + lia.
    + intros va Hva Hr'. apply Hum; [done|]. destruct Hva as [Hmod Hrange]. apply Z.mod_divide in Hmod as [q ->]; lia.
    + intros va _. apply lookup_empty.
    + exists r', k'. split; [exact E|]. destruct R as [(-> & free' & cpt' & cum' & Hc' & Ho & _ & _ & Hcp)|(-> & G)].
      * left. split; [done|]. destruct (parent_same k free pgdir pt um r H k' free' cpt' cum' Hc') as (A & B & _).
        exists free', cpt', cum'. split; [apply Hc'|]. split; [done|]. split; [done|]. split; [apply Hc'|]. split.
        -- intros va Hva Hlt. apply Hcp; [done|]. destruct Hva as [_ Hrange]. lia.
        -- intros va u Hu. destruct (decide (0 <= va < 0 + 4096 * Z.of_nat (copy_pages sz))) as [Hin|Hout].
           ++ destruct (us_page _ _ _ _ _ (cp_child _ _ _ _ _ _ _ Hc') va u Hu) as ((Hmod & _) & _).
              apply Z.mod_divide in Hmod as [q ->]; lia.
           ++ rewrite Ho, lookup_empty in Hu by done. done.
      * right. destruct G as [G L]. rewrite map_size_empty in L. split; [done|]. split; [lia|]. by apply (given_up_parent k free).
Qed.

Lemma copyuvm_loop_app pgdir d n m : d <> 0 -> forall i k,
  copyuvm_loop (n + m) pgdir d i k =
  match copyuvm_loop n pgdir d i k with
  | Ok r k' => if r =? 0 then Ok r k' else copyuvm_loop m pgdir d (i + 4096 * Z.of_nat n) k'
  | o => o
  end.
Proof.
  intros Hd. induction n as [|n IH]; intros i k.
  - cbn [Nat.add copyuvm_loop]. unfold ret. rewrite (proj2 (Z.eqb_neq _ _) Hd). f_equal. lia.
  - cbn [Nat.add copyuvm_loop]. unfold bind at 1 9. unfold panic, ret, mload, gets, modify.
    destruct (walkpgdir pgdir i false k) as [pte k1| | | |]; [|done..]. destruct (pte =? 0); [done|].
    unfold bind. destruct (negb _); [done|]. destruct (kalloc k1) as [u k2| | | |]; [|done..].
    destruct (u =? 0); [by destruct (freevm d k2)|]. destruct (mappages _ _ _ _ _ _) as [r k3| | | |]; [|done..].
    destruct (r <? 0).
    + destruct (kfree u k3) as [? k4| | | |]; [|done..]. by destruct (freevm d k4).
    + rewrite IH. destruct (copyuvm_loop n pgdir d (i + PGSIZE) k3); [|done..]. destruct (_ =? 0); [done|].
      f_equal. unfold PGSIZE. lia.
Qed.

(** C39: A process that has not touched all the memory it asked for cannot fork.  Let [h] be
    the first page below its size that it has no memory for, and let there be free pages
    enough for the copies of the pages before and for any page tables.  When there is no
    page table for [h], [copyuvm] panics, which stops the machine.  When there is one, it
    returns 0, as if memory had run out, and does not free the new address space: its
    directory [d], which was free, its tables and the copies of the pages below [h] are
    on the free list no more, and they are no pages of the process. *)
Theorem copyuvm_hole k free pgdir pt um sz h :
  user_ok k free pgdir pt um -> kmem_free_lock k -> data_ok k -> byte_pages k um -> 0 <= sz <= KERNBASE ->
  upage h -> h < sz -> um !! h = None -> (forall va, upage va -> va < h -> exists v, um !! va = Some v) ->
  (S space_pages + Z.to_nat (h / 4096) < length free)%nat ->
  (pt !! PDX h = None -> copyuvm pgdir sz k = Panic "copyuvm: pte should exist") /\
  (pt !! PDX h <> None -> exists k' free' d cpt cum, copyuvm pgdir sz k = Ok 0 k' /\
     user_ok k' free' pgdir pt um /\ (forall x, x ∈ free <-> x ∈ free' \/ page_of d cpt cum x) /\
     (forall x, page_of d cpt cum x -> x ∉ free' /\ ~ page_of pgdir pt um x) /\
     (forall va, upage va -> va < h -> copied k pgdir um d k' cum va)).
Proof.
  intros H Hl Hd Hb Hsz Hh Hlt Hnone Hum Henough. pose proof (sp_kmem _ _ _ _ (us_space _ _ _ _ _ H)) as Hk.
  destruct (setupkvm_run k free Hk (us_end _ _ _ _ _ H) Hl Hd) as (d & k1 & E1 & Hm).
  destruct (Z.eqb_spec d 0) as [->|Hd0].
  { destruct Hm as (_ & _ & [(? & _)|(_ & _ & L)]); [done|lia]. }
  destruct (copying_start k free d k1 Hm Hd0) as (free1 & cpt & Hc). destruct (copy_pages_bounds sz Hsz) as [Hn1 Hn2].
  assert (Eh : h = 4096 * Z.of_nat (Z.to_nat (h / 4096))).
  { destruct Hh as [Hmod Hrange]. apply Z.mod_divide in Hmod as [q ->]; [|done]. rewrite Z.div_mul by done. lia. }
  set (n := Z.to_nat (h / 4096)) in *. assert (Hn : exists j, copy_pages sz = (n + S j)%nat).
  { exists (copy_pages sz - n - 1)%nat. lia. }
  destruct Hn as [j Hj].
  destruct (copyuvm_loop_ok k free pgdir pt um d H Hl Hb n 0 k1 free1 cpt ∅ Hc) as (r & k2 & E2 & R).
  { by split. } { lia. } { intros va Hva Hr. apply Hum; [done|lia]. } { intros va _. apply lookup_empty. }
  destruct R as [(-> & free2 & cpt2 & cum2 & Hc2 & _ & _ & _ & Hcp)|(_ & _ & L)]; [|rewrite map_size_empty in L; lia].
  assert (E : copyuvm pgdir sz k = copyuvm_loop (S j) pgdir d h k2).
  { unfold copyuvm. rewrite (bind_ok _ _ _ _ _ E1), (proj2 (Z.eqb_neq _ _) Hd0). fold (copy_pages sz).
    rewrite Hj, (copyuvm_loop_app pgdir d n (S j) Hd0), E2, (proj2 (Z.eqb_neq _ _) Hd0). f_equal. lia. }
  rewrite E. clear E. destruct (parent_same k free pgdir pt um d H k2 free2 cpt2 cum2 Hc2) as (Hp & _ & _).
  pose proof (sp_tab _ _ _ _ (us_space _ _ _ _ _ Hp)) as Ht. cbn [copyuvm_loop]. split; intros Et.
  - by rewrite (bind_ok _ _ _ _ _ (walkpgdir_none k2 pgdir pt h Ht (proj2 Hh) Et)).
  - destruct (pt !! PDX h) as [t|] eqn:Et'; [|done]. exists k2, free2, d, cpt2, cum2. split; [|split; [done|split; [apply Hc2|split]]].
    + rewrite (bind_ok _ _ _ _ _ (walkpgdir_found k2 pgdir pt h false t Ht (proj2 Hh) Et')).
      destruct (pt_page _ _ _ Ht _ _ Et') as [[_ Hkt] _]. pose proof (PTX_range h (proj2 Hh)).
      rewrite (proj2 (Z.eqb_neq _ _)) by (unfold KERNBASE in *; lia). unfold mload, gets, bind.
      pose proof (us_none _ _ _ _ _ Hp h Hh ltac:(lia) Hnone) as Hno.
      rewrite (pte_of_table _ _ _ _ Ht (proj2 Hh)), Et' in Hno. by rewrite Hno.
    + intros x Hx. split; [by apply (page_of_kpage _ _ _ _ _ _ (cp_child _ _ _ _ _ _ _ Hc2))|]. intros Hx'.
      destruct (page_of_kpage _ _ _ _ _ _ H Hx') as (_ & _ & Hnf). apply Hnf, (cp_pages _ _ _ _ _ _ _ Hc2). by right.
    + intros va Hva Hlt'. apply Hcp; [done|]. destruct Hva as [_ ?]. lia.
Qed.

(** ** The theorems at work *)

Lemma user_cur k free pgdir pt um c :
  user_ok k free pgdir pt um -> user_ok (set_k_cur c k) free pgdir pt um.
Proof. intros [[[] ? ? ?] ? ? ? ? ?]. by split; [split; [split|..]|..]. Qed.

(** The machines of Paging.v with process 0 running, of [sz] bytes. *)
Definition vm_proc (sz : Z) : proc := set_p_pgdir vm_dir (set_p_sz sz zero_proc).
Definition with_proc (sz : Z) (k : kernel) : kernel := set_k_cur (Some 0%nat) (set_k_ptable [vm_proc sz] k).

Lemma with_proc_ok sz k free pt um : user_ok k free vm_dir pt um -> user_ok (with_proc sz k) free (p_pgdir (vm_proc sz)) pt um.
Proof. intros H. apply user_cur, user_ptable, H. Qed.

Lemma vm_can_print m f : can_print (with_mem m f vm_machine).
Proof. split; [reflexivity|]. apply (bool_decide_unpack _). reflexivity. Qed.

(** A process with no memory and 8192 bytes promised touches address 5000. *)
Lemma page_fault_allocates_witness :
  let k := with_proc 8192 vm_machine in
  exists k' free' pt', page_fault 0 3 0 5000 k = Ok tt k' /\
    faulted_in k vm_pages (vm_proc 8192) ∅ ∅ 5000 k' free' pt'.
Proof.
  destruct (page_fault_allocates (with_proc 8192 vm_machine) vm_pages 0 (vm_proc 8192) ∅ ∅ 0 3 0 5000
    (with_proc_ok 8192 _ _ _ _ vm_machine_ok) vm_machine_lock (vm_can_print (k_mem vm_machine) (k_freelist vm_machine)) eq_refl eq_refl)
    as (k' & free' & pt' & E & _ & R).
  - intros E. discriminate E.
  - unfold KERNBASE. lia.
  - reflexivity.
  - exists k', free', pt'. split; [exact E|]. destruct R as [R|(L & _)]; [exact R|]. simpl in L. lia.
Defined.

(** A process touches its page 0 though it is present. *)
Lemma page_fault_leaks_witness :
  exists k k' u free pt, page_fault 0 3 0 100 (with_proc 4096 k) = Ok tt k' /\
    user_ok k' free vm_dir pt {[0 := 0x80203000]} /\ lost u free pt {[0 := 0x80203000]}.
Proof.
  destruct vm_one_page as (m & f & u & free & pt & H & _).
  destruct (page_fault_leaks (with_proc 4096 (with_mem m f vm_machine)) free u 0 (vm_proc 4096) pt {[0 := 0x80203000]} 0 3 0 100 0x80203000
    (with_proc_ok 4096 _ _ _ _ H) vm_machine_lock (vm_can_print m f) eq_refl eq_refl) as (k' & E & H' & O & _).
  - intros E. discriminate E.
  - unfold KERNBASE. lia.
  - reflexivity.
  - exists (with_mem m f vm_machine), k', u, free, pt. split; [exact E|]. split; [exact H'|exact O].
Defined.

(** A machine with [n] free pages from 4 MB of its memory on. *)
Fixpoint pages_of (n : nat) : list Z :=
  match n with O => [] | S n' => (0x80400000 + 4096 * Z.of_nat n') :: pages_of n' end.
Fixpoint machine_of (n : nat) : kernel :=
  match n with O => kmem_boot | S n' => push_page (machine_of n') (0x80400000 + 4096 * Z.of_nat n') end.

Lemma pages_of_length n : length (pages_of n) = n.
Proof. induction n; cbn [pages_of length]; congruence. Qed.

Lemma elem_of_pages n x : x ∈ pages_of n -> 0x80400000 <= x < 0x80400000 + 4096 * Z.of_nat n.
Proof. induction n as [|n IH]; [by intros ?%elem_of_nil|]. intros [->|Hx]%elem_of_cons; [lia|]. specialize (IH Hx). lia. Qed.

Lemma machine_of_mem n : exists m f, machine_of n = with_mem m f kmem_boot.
Proof. induction n as [|n (m & f & E)]; cbn [machine_of]; [by eexists _, _|]. rewrite E. by eexists _, _. Qed.

Lemma machine_of_ok n : (n <= 2000)%nat -> user_ok (machine_of n) (pages_of n) vm_dir ∅ ∅.
Proof.
  intros Hn. assert (G : forall v, v mod 4096 = 0 -> 0x80115000 <= v < 0x8E000000 -> good_page (machine_of n) v).
  { intros v Hm Hv. destruct (machine_of_mem n) as (m & f & ->). apply good_page_mem. by apply kmem_boot_good. }
  apply user_empty.
  - clear G. induction n as [|n IH]; [apply kmem_boot_ok|]. apply kmem_ok_push; [apply IH; lia| |intros Hx%elem_of_pages; lia].
    change (good_page (machine_of n) (0x80400000 + 4096 * Z.of_nat n)). destruct (machine_of_mem n) as (m & f & ->). apply good_page_mem, kmem_boot_good.
    + replace (0x80400000 + 4096 * Z.of_nat n) with ((0x80400 + Z.of_nat n) * PGSIZE) by (unfold PGSIZE; lia). by apply Z.mod_mul.
    + change (P2V PHYSTOP) with 0x8E000000. lia.
  - by destruct (machine_of_mem n) as (m & f & ->).
  - by apply G.
  - intros Hx%elem_of_pages. unfold vm_dir in Hx. lia.
  - intros x Hx. unfold vm_dir in Hx. clear G. induction n as [|n IH]; [done|]. cbn [machine_of]. unfold push_page. cbn [k_mem set_k_freelist set_k_mem].
    rewrite kfree_mem_out by (unfold PGSIZE; lia). apply IH. lia.
Qed.

Lemma machine_of_lock n : kmem_free_lock (machine_of n).
Proof. destruct (machine_of_mem n) as (m & f & ->). apply kmem_boot_lock. Qed.

(** The same with page 0 of an address space mapped to a zeroed page. *)
Lemma machine_one_page n : (2 <= n <= 2000)%nat ->
  exists k u free pt, user_ok k free vm_dir pt {[0 := u]} /\ kmem_free_lock k /\ data_ok k /\ byte_pages k {[0 := u]} /\
    (n <= length free + 2)%nat /\ pt !! 0 <> None.
Proof.
  intros Hn. destruct n as [|n]; [lia|]. destruct (machine_of_mem (S n)) as (m & f & Em).
  pose proof (machine_of_ok (S n) ltac:(lia)) as H0. pose proof (machine_of_lock (S n)) as Hl. rewrite Em in H0, Hl. cbn [pages_of] in H0.
  destruct (user_take _ _ _ _ _ _ H0) as (H & _ & F & Hz & _). cbv zeta in *. set (u := 0x80400000 + 4096 * Z.of_nat n) in *.
  set (k := with_mem (memset _ u 0 PGSIZE) _ _) in *. pose proof (pages_of_length n) as Ln.
  destruct (map_fresh k (pages_of n) vm_dir ∅ ∅ 0 u 6 H F Hl) as (r & k' & free' & pt' & _ & G & L & R); [by split|done|done|done|].
  destruct R as [(_ & H' & B & _)|(_ & E & _)]; [|rewrite E in Ln; cbn in Ln; lia].
  rewrite insert_empty in H', B. exists k', u, free', pt'. split; [done|]. split; [by eapply grows_lock|].
  destruct (gr_state _ _ _ _ _ _ _ G) as (m' & f' & ->). split; [split; [reflexivity|split; reflexivity]|]. split; [|split; [lia|]].
  - intros va v x [<- <-]%lookup_singleton_Some Hx. rewrite (B 0 u x) by (by rewrite lookup_singleton_eq || done). rewrite Hz by done. lia.
  - intros En. pose proof (user_no_table _ _ _ _ _ 0 H' ltac:(by split) En) as Hu. by rewrite lookup_singleton_eq in Hu.
Qed.

(** A process of one page is copied. *)
Lemma copyuvm_copies_witness :
  exists k r k' u free pt, copyuvm vm_dir 4096 k = Ok r k' /\ user_ok k free vm_dir pt {[0 := u]} /\
    r <> 0 /\ forked k free vm_dir pt {[0 := u]} 4096 r k'.
Proof.
  destruct (machine_one_page 1100 ltac:(lia)) as (k & u & free & pt & H & Hl & Hd & Hb & L & _).
  destruct (copyuvm_copies k free vm_dir pt {[0 := u]} 4096 H Hl Hd Hb) as (r & k' & E & R).
  - unfold KERNBASE. lia.
  - intros va [Hm Hr] Hlt. exists u. rewrite Z.mod_small in Hm by lia. by rewrite Hm, lookup_singleton_eq.
  - exists k, r, k', u, free, pt. split; [exact E|]. split; [exact H|]. destruct R as [R|(_ & R & _)]; [exact R|].
    change (copy_pages 4096) with 1%nat in R. unfold space_pages in R. lia.
Defined.

(** A process that asked for a page and forks before it uses it: with no other page
    the machine stops, and a process of one page loses the copy. *)
Lemma copyuvm_hole_witness :
  copyuvm vm_dir 4096 (machine_of 1100) = Panic "copyuvm: pte should exist" /\
  exists k k' u free free' pt d, user_ok k free vm_dir pt {[0 := u]} /\ copyuvm vm_dir 8192 k = Ok 0 k' /\
    user_ok k' free' vm_dir pt {[0 := u]} /\ (d ∈ free) /\ (d ∉ free').
Proof.
  split.
  - assert (D : data_ok (machine_of 1100)).
    { destruct (machine_of_mem 1100) as (m & f & ->). split; [reflexivity|split; reflexivity]. }
    apply (copyuvm_hole (machine_of 1100) (pages_of 1100) vm_dir ∅ ∅ 4096 0 (machine_of_ok 1100 ltac:(lia)) (machine_of_lock 1100) D).
    + intros va v x Hv. by rewrite lookup_empty in Hv.
    + unfold KERNBASE. lia.
    + by split.
    + lia.
    + apply lookup_empty.
    + intros va [_ Hva] Hlt. lia.
    + rewrite pages_of_length. change (Z.to_nat (0 / 4096)) with 0%nat. unfold space_pages. lia.
    + apply lookup_empty.
  - destruct (machine_one_page 1100 ltac:(lia)) as (k & u & free & pt & H & Hl & Hd & Hb & L & Hpt).
    destruct (copyuvm_hole k free vm_dir pt {[0 := u]} 8192 4096 H Hl Hd Hb) as [_ R].
    + unfold KERNBASE. lia.
    + by split.
    + lia.
    + reflexivity.
    + intros va [Hm Hr] Hlt. exists u. rewrite Z.mod_small in Hm by lia. by rewrite Hm, lookup_singleton_eq.
    + change (Z.to_nat (4096 / 4096)) with 1%nat. unfold space_pages. lia.
    + destruct (R Hpt) as (k' & free' & d & cpt & cum & E & H' & Hf & Hn & _). exists k, k', u, free, free', pt, d.
      split; [exact H|]. split; [exact E|]. split; [exact H'|]. split; [apply Hf; right; by left|apply (Hn d); by left].
Defined.
