(* ===== verification/Pipe.v ===== *)
(** * Pipe: pipes (pipe.c)

    A pipe lives in a page of its own; [k_pipes] maps the address of the page to it.
    The bytes of a call are a list: those [pipewrite] is given, those [piperead]
    returns.  A writer that finds the pipe full goes to sleep in [pipewrite_loop]
    with some bytes left; when it is woken it goes on with them ([pipewrite_resume]).
    The theorems show that a pipe is a first-in first-out queue of [PIPESIZE] bytes
    whatever the order of the calls, also when the 32-bit counters wrap around. *)

From S2P Require Import Prelude Bytes Kernel Sync Kalloc Vm Frame.

Definition get_pipe (p : Z) : KM pipe := fun k =>
  match k_pipes k !! p with Some s => Ok s k | None => Fault "pipe" end.
Definition put_pipe (p : Z) (s : pipe) : KM unit := modify (fun k => set_k_pipes (<[p := s]> (k_pipes k)) k).

(** [myproc()->killed]. *)
Definition cur_killed : KM bool :=
  let! i := curproc in
  let! pr := get_proc i in
  ret (p_killed pr).

Definition pipeclose (p : Z) (writable : bool) : KM unit :=
  acquire (L_pipe p) ;;;
  let! s := get_pipe p in
  (if writable then
     put_pipe p (set_p_writeopen false s) ;;;
     wakeup (C_nread p)
   else
     put_pipe p (set_p_readopen false s) ;;;
     wakeup (C_nwrite p)) ;;;
  let! s := get_pipe p in
  if negb (p_readopen s) && negb (p_writeopen s) then
    release (L_pipe p) ;;;
    modify (fun k => set_k_pipes (delete p (k_pipes k)) k) ;;;
    kfree p
  else release (L_pipe p).

Definition pipe_full (s : pipe) : bool := p_nwrite s =? u32 (p_nread s + PIPESIZE).
Definition pipe_empty (s : pipe) : bool := p_nread s =? p_nwrite s.

(** [p->data[p->nwrite++ % PIPESIZE] = c]. *)
Definition pipe_put (c : Z) (s : pipe) : pipe :=
  set_p_nwrite (u32 (p_nwrite s + 1)) (set_p_data (<[Z.to_nat (p_nwrite s mod PIPESIZE) := c]> (p_data s)) s).

(** The loop of [pipewrite] on the bytes left; [false] when it gives up with -1, the
    lock released. *)
Fixpoint pipewrite_loop (p : Z) (src : list Z) : KM bool :=
  match src with
  | [] => ret true
  | c :: src' =>
      let! s := get_pipe p in
      if pipe_full s then
        let! killed := cur_killed in
        if negb (p_readopen s) || killed then
          release (L_pipe p) ;;; ret false
        else
          wakeup (C_nread p) ;;;
          sleep_again (C_nwrite p) (L_pipe p)
      else
        put_pipe p (pipe_put c s) ;;;
        pipewrite_loop p src'
  end.

(** [pipewrite] from its loop on, for a call of [n] bytes with [src] left. *)
Definition pipewrite_from (p : Z) (src : list Z) (n : Z) : KM Z :=
  let! ok := pipewrite_loop p src in
  if negb ok then ret (-1) else
  wakeup (C_nread p) ;;;
  release (L_pipe p) ;;;
  ret n.

Definition pipewrite (p : Z) (src : list Z) : KM Z :=
  acquire (L_pipe p) ;;;
  pipewrite_from p src (Z.of_nat (length src)).

(** What a writer that slept runs when it is scheduled again. *)
Definition pipewrite_resume (p : Z) (src : list Z) (n : Z) : KM Z :=
  let! i := curproc in
  sleep_return i (L_pipe p) ;;;
  pipewrite_from p src n.

(** The copying loop of [piperead], at most [n] bytes. *)
Fixpoint piperead_copy (p : Z) (n : nat) : KM (list Z) :=
  match n with
  | O => ret []
  | S n' =>
      let! s := get_pipe p in
      if pipe_empty s then ret [] else
      let! c := deref (p_data s !! Z.to_nat (p_nread s mod PIPESIZE)) in
      put_pipe p (set_p_nread (u32 (p_nread s + 1)) s) ;;;
      let! l := piperead_copy p n' in
      ret (c :: l)
  end.

(** [piperead] from its waiting loop on; [None] is the -1 of a killed reader. *)
Definition piperead_from (p : Z) (n : nat) : KM (option (list Z)) :=
  let! s := get_pipe p in
  if pipe_empty s && p_writeopen s then
    let! killed := cur_killed in
    if killed then release (L_pipe p) ;;; ret None
    else sleep_again (C_nread p) (L_pipe p)
  else
    let! l := piperead_copy p n in
    wakeup (C_nwrite p) ;;;
    release (L_pipe p) ;;;
    ret (Some l).

Definition piperead (p : Z) (n : nat) : KM (option (list Z)) :=
  acquire (L_pipe p) ;;;
  piperead_from p n.

Definition piperead_resume (p : Z) (n : nat) : KM (option (list Z)) :=
  let! i := curproc in
  sleep_return i (L_pipe p) ;;;
  piperead_from p n.

(** ** The queue a pipe holds *)

(** The pipe [s] holds the bytes [q], the oldest first. *)
Record pipe_rep (s : pipe) (q : list Z) : Prop := {
  pr_data : length (p_data s) = Z.to_nat PIPESIZE;
  pr_nread : 0 <= p_nread s < 2 ^ 32;
  pr_nwrite : p_nwrite s = u32 (p_nread s + Z.of_nat (length q));
  pr_room : (length q <= Z.to_nat PIPESIZE)%nat;
  pr_bytes : forall i c, q !! i = Some c ->
    p_data s !! Z.to_nat ((p_nread s + Z.of_nat i) mod PIPESIZE) = Some c
}.

(** The counters wrap around at a multiple of [PIPESIZE]. *)
Lemma u32_mod_pipesize x : u32 x mod PIPESIZE = x mod PIPESIZE.
Proof.
  unfold u32, PIPESIZE. rewrite (Z.div_mod x (2 ^ 32)) at 2 by lia.
  replace (2 ^ 32 * (x / 2 ^ 32) + x mod 2 ^ 32) with (x mod 2 ^ 32 + (8388608 * (x / 2 ^ 32)) * 512) by lia.
  by rewrite Z.mod_add by lia.
Qed.

Lemma u32_add x y : u32 (u32 x + y) = u32 (x + y).
Proof. unfold u32. by rewrite Z.add_mod_idemp_l by lia. Qed.

Lemma u32_inj x y : u32 x = u32 y -> 0 <= y - x < 2 ^ 32 -> x = y.
Proof.
  unfold u32. intros H Hb. pose proof (Z.div_mod x (2 ^ 32) ltac:(lia)).
  pose proof (Z.div_mod y (2 ^ 32) ltac:(lia)). nia.
Qed.

Lemma pipe_full_spec s q : pipe_rep s q -> pipe_full s = bool_decide (length q = Z.to_nat PIPESIZE).
Proof.
  intros [_ Hr Hw Hl _]. unfold pipe_full. rewrite Hw. case_bool_decide as E.
  - rewrite E. apply Z.eqb_refl.
  - apply Z.eqb_neq. intros H. apply E. unfold PIPESIZE in *. apply u32_inj in H; lia.
Qed.

Lemma pipe_empty_spec s q : pipe_rep s q -> pipe_empty s = bool_decide (q = []).
Proof.
  intros [_ Hr Hw Hl _]. unfold pipe_empty. rewrite Hw. case_bool_decide as E.
  - subst. simpl. rewrite Z.add_0_r, u32_small by done. apply Z.eqb_refl.
  - apply Z.eqb_neq. intros H. apply E. rewrite <- (u32_small (p_nread s)) in H at 1 by done.
    unfold PIPESIZE in *. apply u32_inj in H; [|lia]. destruct q; [done|simpl in H; lia].
Qed.

(** Two of the bytes held are in different places. *)
Lemma pipe_places r i j :
  (i < j)%nat -> (j < Z.to_nat PIPESIZE)%nat ->
  Z.to_nat ((r + Z.of_nat i) mod PIPESIZE) <> Z.to_nat ((r + Z.of_nat j) mod PIPESIZE).
Proof.
  unfold PIPESIZE. intros Hi Hj E.
  pose proof (Z.mod_pos_bound (r + Z.of_nat i) 512 ltac:(lia)).
  pose proof (Z.mod_pos_bound (r + Z.of_nat j) 512 ltac:(lia)).
  apply Z2Nat.inj in E; [|lia..].
  pose proof (Z.div_mod (r + Z.of_nat i) 512 ltac:(lia)).
  pose proof (Z.div_mod (r + Z.of_nat j) 512 ltac:(lia)). lia.
Qed.

Lemma pipe_put_rep s q c :
  pipe_rep s q -> (length q < Z.to_nat PIPESIZE)%nat -> pipe_rep (pipe_put c s) (q ++ [c]).
Proof.
  intros [Hd Hr Hw Hl Hb] Hroom. split; cbn.
  - by rewrite length_insert.
  - done.
  - rewrite Hw, u32_add, length_app. simpl. f_equal. lia.
  - rewrite length_app. simpl. lia.
  - intros i x. rewrite Hw, u32_mod_pipesize. intros Hi.
    assert (Hp : (Z.to_nat ((p_nread s + Z.of_nat (length q)) mod PIPESIZE) < length (p_data s))%nat).
    { rewrite Hd. unfold PIPESIZE. pose proof (Z.mod_pos_bound (p_nread s + Z.of_nat (length q)) 512). lia. }
    destruct (decide (i = length q)) as [->|Hne].
    + rewrite lookup_app_r, Nat.sub_diag in Hi by lia. injection Hi as <-.
      by rewrite list_lookup_insert_eq.
    + pose proof (lookup_lt_Some _ _ _ Hi) as Hlt. rewrite length_app in Hlt. simpl in Hlt.
      rewrite lookup_app_l in Hi by lia. rewrite list_lookup_insert_ne; [by apply Hb|].
      apply not_eq_sym, pipe_places; lia.
Qed.

Lemma pipe_take_rep s c q :
  pipe_rep s (c :: q) ->
  p_data s !! Z.to_nat (p_nread s mod PIPESIZE) = Some c /\
  pipe_rep (set_p_nread (u32 (p_nread s + 1)) s) q.
Proof.
  intros [Hd Hr Hw Hl Hb]. split.
  - specialize (Hb 0%nat c eq_refl). by rewrite Z.add_0_r in Hb.
  - split; cbn.
    + done.
    + apply u32_range.
    + rewrite Hw, u32_add. simpl. f_equal. lia.
    + simpl in Hl. lia.
    + intros i x Hi. specialize (Hb (S i) x Hi).
      rewrite Z.add_mod by (unfold PIPESIZE; lia). rewrite u32_mod_pipesize.
      rewrite <- Z.add_mod by (unfold PIPESIZE; lia). rewrite <- Hb. do 3 f_equal. lia.
Qed.

#[export] Instance pipes_frame : Frame k_pipes.
Proof. split; reflexivity. Qed.

Lemma keeps_cur_killed {T} (pi : kernel -> T) : keeps pi cur_killed.
Proof. unfold cur_killed. keep_body. Qed.
#[export] Hint Resolve keeps_cur_killed : frame.

(** ** Calls on a pipe, however they end *)

Section Fifo.
Context (p : Z).

(** Pipe [p] is there and holds [q]. *)
Definition holds (k : kernel) (s : pipe) (q : list Z) : Prop :=
  k_pipes k !! p = Some s /\ pipe_rep s q.

Lemma holds_keep {A} (m : KM A) k k' s q :
  keeps k_pipes m -> out_state (m k) = Some k' -> holds k s q -> holds k' s q.
Proof. intros Hm H [Hp Hr]. split; [|done]. by rewrite (Hm k k' H). Qed.

(** How the state of a sequence comes about. *)
Lemma out_bind {A B} (m : KM A) (f : A -> KM B) k k' :
  out_state (bind m f k) = Some k' ->
  m k = Swtch k' \/ exists a k1, m k = Ok a k1 /\ out_state (f a k1) = Some k'.
Proof.
  unfold bind. destruct (m k) as [a k1| | |k1|]; cbn; try done.
  - intros H. right. by exists a, k1.
  - intros [= <-]. by left.
Qed.

Lemma get_pipe_ok k s q : holds k s q -> get_pipe p k = Ok s k.
Proof. intros [Hp _]. unfold get_pipe. by rewrite Hp. Qed.

Lemma holds_put k s q c :
  holds k s q -> (length q < Z.to_nat PIPESIZE)%nat ->
  holds (set_k_pipes (<[p := pipe_put c s]> (k_pipes k)) k) (pipe_put c s) (q ++ [c]).
Proof. intros [Hp Hr] Hl. split; [|by apply pipe_put_rep]. simpl. by rewrite lookup_insert_eq. Qed.

(** Some of the bytes are in the pipe, all of them when the loop says so. *)
Lemma pipewrite_loop_holds src : forall k k' s q,
  holds k s q -> out_state (pipewrite_loop p src k) = Some k' ->
  exists s' m, holds k' s' (q ++ take m src) /\ p_nread s' = p_nread s /\
    (pipewrite_loop p src k = Ok true k' -> (length src <= m)%nat).
Proof.
  induction src as [|c src IH]; intros k k' s q H Ho; cbn [pipewrite_loop] in *.
  - injection Ho as <-. exists s, 0%nat. rewrite app_nil_r. split; [done|]. split; [done|simpl; lia].
  - rewrite (bind_ok _ _ _ _ _ (get_pipe_ok k s q H)) in *.
    rewrite (pipe_full_spec s q (proj2 H)) in *. case_bool_decide as Hf.
    + assert (K : keeps k_pipes (let! killed := cur_killed in
         if negb (p_readopen s) || killed then release (L_pipe p) ;;; ret false
         else wakeup (C_nread p) ;;; sleep_again (C_nwrite p) (L_pipe p))) by keep_body.
      exists s, 0%nat. rewrite app_nil_r. split; [by eapply holds_keep|]. split; [done|].
      intros E. exfalso. apply bind_ok_inv in E as (b & k1 & _ & E). destruct (negb (p_readopen s) || b).
      * apply bind_ok_inv in E as (? & ? & _ & E). by injection E.
      * apply bind_ok_inv in E as (? & ? & _ & E). apply bind_ok_inv in E as (? & ? & E & _).
        by apply sleep_never_returns in E.
    + assert (Hl : (length q < Z.to_nat PIPESIZE)%nat) by (destruct (proj2 H); lia).
      rewrite (bind_ok _ _ _ _ _ (eq_refl : put_pipe p (pipe_put c s) k = Ok tt _)) in *.
      destruct (IH _ k' _ _ (holds_put k s q c H Hl) Ho) as (s' & m & Hh & Hn & Hm).
      exists s', (S m). split; [by rewrite <- app_assoc in Hh|]. split; [done|].
      intros E. specialize (Hm E). simpl. lia.
Qed.

Lemma piperead_copy_holds n : forall k s q,
  holds k s q ->
  exists s', piperead_copy p n k = Ok (take n q) (set_k_pipes (<[p := s']> (k_pipes k)) k) /\
    pipe_rep s' (drop n q) /\ p_nwrite s' = p_nwrite s /\ p_writeopen s' = p_writeopen s /\
    p_readopen s' = p_readopen s.
Proof.
  induction n as [|n IH]; intros k s q H; cbn [piperead_copy].
  - exists s. split; [|by split; [apply H|]]. unfold ret. f_equal. destruct H as [Hp _].
    rewrite insert_id by done. by destruct k.
  - rewrite (bind_ok _ _ _ _ _ (get_pipe_ok k s q H)), (pipe_empty_spec s q (proj2 H)).
    case_bool_decide as He.
    + subst q. exists s. split; [|by split; [apply H|]]. unfold ret. f_equal. destruct H as [Hp _].
      rewrite insert_id by done. by destruct k.
    + destruct q as [|c q]; [done|]. destruct (pipe_take_rep s c q (proj2 H)) as [Hc Hr].
      rewrite Hc. unfold deref. rewrite (bind_ok _ _ _ _ _ (eq_refl : ret c k = Ok c k)).
      set (s1 := set_p_nread (u32 (p_nread s + 1)) s) in *.
      rewrite (bind_ok _ _ _ _ _ (eq_refl : put_pipe p s1 k = Ok tt _)).
      destruct (IH (set_k_pipes (<[p := s1]> (k_pipes k)) k) s1 q) as (s' & E & Hr' & Hn & Hw & Ho).
      { split; [simpl; by rewrite lookup_insert_eq|done]. }
      exists s'. rewrite (bind_ok _ _ _ _ _ E). split; [|done]. unfold ret. simpl.
      by rewrite insert_insert_eq.
Qed.

End Fifo.

(** ** First in, first out *)

Lemma wakeup_release_returns {A} c l (a : A) k k' : (wakeup c ;;; release l ;;; ret a) k <> Swtch k'.
Proof.
  unfold wakeup, wakeup1, bind, acquire, modify, ret. case_bool; [done|]. unfold release. repeat case_bool; done.
Qed.

Section Runs.
Context (p : Z).

(** The bytes of [src] that a call stored, by the counter. *)
Definition accepted (s s' : pipe) (src : list Z) : list Z :=
  take (Z.to_nat (u32 (p_nwrite s' - p_nwrite s))) src.

(** What can happen to a pipe, with the bytes that go in and those that come out: a
    call or its continuation after a sleep, ending in any way, the close of an end
    while the other is open, or anything that leaves this pipe alone. *)
Inductive pipe_step : kernel -> list Z -> list Z -> kernel -> Prop :=
| step_write k src k' s s' :
    out_state (pipewrite p src k) = Some k' ->
    k_pipes k !! p = Some s -> k_pipes k' !! p = Some s' ->
    pipe_step k (accepted s s' src) [] k'
| step_write_on k src n k' s s' :
    out_state (pipewrite_resume p src n k) = Some k' ->
    k_pipes k !! p = Some s -> k_pipes k' !! p = Some s' ->
    pipe_step k (accepted s s' src) [] k'
| step_read k n r k' : piperead p n k = Ok r k' -> pipe_step k [] (default [] r) k'
| step_read_on k n r k' : piperead_resume p n k = Ok r k' -> pipe_step k [] (default [] r) k'
| step_read_sleep k n k' : piperead p n k = Swtch k' -> pipe_step k [] [] k'
| step_read_on_sleep k n k' : piperead_resume p n k = Swtch k' -> pipe_step k [] [] k'
| step_close k w k' s' :
    out_state (pipeclose p w k) = Some k' -> k_pipes k' !! p = Some s' -> pipe_step k [] [] k'
| step_other k k' : k_pipes k' !! p = k_pipes k !! p -> pipe_step k [] [] k'.

Inductive pipe_run : kernel -> list Z -> list Z -> kernel -> Prop :=
| run_nil k : pipe_run k [] [] k
| run_cons k i o k1 i' o' k2 :
    pipe_step k i o k1 -> pipe_run k1 i' o' k2 -> pipe_run k (i ++ i') (o ++ o') k2.

Lemma accepted_take s s' q m src :
  pipe_rep s q -> pipe_rep s' (q ++ take m src) -> p_nread s' = p_nread s ->
  accepted s s' src = take m src.
Proof.
  intros [_ _ Hw Hl _] [_ _ Hw' Hl' _] Hn. unfold accepted.
  assert (E : u32 (p_nwrite s' - p_nwrite s) = Z.of_nat (length (take m src))).
  { rewrite Hw, Hw', Hn. unfold u32. rewrite <- Zminus_mod. rewrite length_app in *.
    rewrite Z.mod_small; unfold PIPESIZE in *; lia. }
  rewrite E, Nat2Z.id, length_take. destruct (decide (m <= length src)%nat).
  - by rewrite Nat.min_l.
  - rewrite Nat.min_r by lia. by rewrite !take_ge by lia.
Qed.

(** A call that stores some of [src], the first ones, in the pipe. *)
Definition writes {A} (src : list Z) (c : KM A) : Prop := forall k k' s q,
  holds p k s q -> out_state (c k) = Some k' ->
  exists s' m, holds p k' s' (q ++ take m src) /\ p_nread s' = p_nread s.

(** A call that returns the oldest bytes of the pipe, taken out of it. *)
Definition reads (c : KM (option (list Z))) : Prop := forall k k' s q,
  holds p k s q -> out_state (c k) = Some k' ->
  exists s' q', holds p k' s' q' /\
    match c k with Ok r _ => q = default [] r ++ q' | _ => q = q' end.

Lemma writes_bind {A B} src (m : KM A) (f : A -> KM B) :
  keeps k_pipes m -> (forall a, writes src (f a)) -> writes src (bind m f).
Proof.
  intros Hm Hf k k' s q H Ho. apply out_bind in Ho as [E|(a & k1 & E & Ho)].
  - exists s, 0%nat. rewrite app_nil_r. split; [|done]. eapply (holds_keep p m); [done|by rewrite E|done].
  - eapply Hf; [|exact Ho]. eapply (holds_keep p m); [done|by rewrite E|done].
Qed.

Lemma reads_bind {A} (m : KM A) (f : A -> KM (option (list Z))) :
  keeps k_pipes m -> (forall a, reads (f a)) -> reads (bind m f).
Proof.
  intros Hm Hf k k' s q H Ho. unfold bind in *. destruct (m k) as [a k1| | |k1|] eqn:E; try done.
  - eapply Hf; [|exact Ho]. eapply (holds_keep p m); [done|by rewrite E|done].
  - exists s, q. split; [|done]. eapply (holds_keep p m); [done|by rewrite E|done].
Qed.

Lemma pipewrite_from_writes src n : writes src (pipewrite_from p src n).
Proof.
  intros k k' s q H Ho. apply out_bind in Ho as [E|(b & k1 & E & Ho)].
  - destruct (pipewrite_loop_holds p src k k' s q H) as (s' & m & Hh & Hn & _); [by rewrite E|]. eauto.
  - destruct (pipewrite_loop_holds p src k k1 s q H) as (s' & m & Hh & Hn & _); [by rewrite E|].
    exists s', m. split; [|done].
    eapply (holds_keep p (if negb b then ret (-1) else wakeup (C_nread p) ;;; release (L_pipe p) ;;; ret n));
      [destruct b; simpl; keep_body|exact Ho|done].
Qed.

Lemma piperead_from_reads n : reads (piperead_from p n).
Proof.
  intros k k' s q H Ho. unfold piperead_from in *. rewrite (bind_ok _ _ _ _ _ (get_pipe_ok p k s q H)) in *.
  destruct (pipe_empty s && p_writeopen s).
  - assert (K : keeps k_pipes (let! killed := cur_killed in
         if killed then release (L_pipe p) ;;; ret None else sleep_again (C_nread p) (L_pipe p)
         : KM (option (list Z)))) by keep_body.
    exists s, q. split; [by eapply holds_keep|].
    match goal with |- match ?c with _ => _ end => destruct c as [r k2| | | |] eqn:E end; try done.
    apply bind_ok_inv in E as (b & k1 & _ & E). destruct b.
    + apply bind_ok_inv in E as (? & ? & _ & E). by injection E as <- _.
    + apply bind_ok_inv in E as (? & ? & E & _). by apply sleep_never_returns in E.
  - destruct (piperead_copy_holds p n k s q H) as (s' & E & Hr & _).
    rewrite (bind_ok _ _ _ _ _ E) in *. set (k1 := set_k_pipes _ k) in *.
    assert (H1 : holds p k1 s' (drop n q)) by (split; [simpl; by rewrite lookup_insert_eq|done]).
    assert (K : keeps k_pipes (wakeup (C_nwrite p) ;;; release (L_pipe p) ;;; ret (Some (take n q))))
      by keep_body.
    exists s', (drop n q). split; [by eapply holds_keep|].
    match goal with |- match ?c with _ => _ end => destruct c as [r k2| | |k2|] eqn:Er end; try done.
    + do 2 apply bind_ok_inv in Er as (? & ? & _ & Er). injection Er as <- _. simpl. by rewrite take_drop.
    + apply wakeup_release_returns in Er. done.
Qed.

Lemma pipewrite_writes src : writes src (pipewrite p src).
Proof. apply writes_bind; [solve [auto with frame]|]. intros _. apply pipewrite_from_writes. Qed.

Lemma pipewrite_resume_writes src n : writes src (pipewrite_resume p src n).
Proof. do 2 (apply writes_bind; [solve [auto with frame]|intros ?]). apply pipewrite_from_writes. Qed.

Lemma piperead_reads n : reads (piperead p n).
Proof. apply reads_bind; [solve [auto with frame]|]. intros _. apply piperead_from_reads. Qed.

Lemma piperead_resume_reads n : reads (piperead_resume p n).
Proof. do 2 (apply reads_bind; [solve [auto with frame]|intros ?]). apply piperead_from_reads. Qed.

(** Closing an end leaves the bytes in the pipe, as long as there is a pipe. *)
Lemma pipeclose_holds w k k' s s' q :
  holds p k s q -> out_state (pipeclose p w k) = Some k' -> k_pipes k' !! p = Some s' -> holds p k' s' q.
Proof.
  intros H Ho Hs'. assert (HK : forall A (m : KM A) k1 s1, keeps k_pipes m -> out_state (m k1) = Some k' -> holds p k1 s1 q -> holds p k' s' q).
  { intros A m k1 s1 Hm E H1. pose proof (holds_keep p m k1 k' s1 q Hm E H1) as H2. assert (s1 = s') as -> by (destruct H2; congruence). done. }
  unfold pipeclose in Ho. apply out_bind in Ho as [E|(u & k1 & E & Ho)].
  { eapply (HK _ (acquire (L_pipe p))); [solve [auto with frame]|by rewrite E|done]. }
  assert (H1 : holds p k1 s q) by (eapply (holds_keep p (acquire (L_pipe p))); [solve [auto with frame]|by rewrite E|done]).
  rewrite (bind_ok _ _ _ _ _ (get_pipe_ok p k1 s q H1)) in Ho. clear E H k.
  set (s2 := if w then set_p_writeopen false s else set_p_readopen false s).
  set (k2 := set_k_pipes (<[p := s2]> (k_pipes k1)) k1).
  assert (H2 : holds p k2 s2 q).
  { split; [apply lookup_insert_eq|]. destruct H1 as [_ [? ? ? ? ?]]. unfold s2. by destruct w; split. }
  set (ch := if w then C_nread p else C_nwrite p).
  assert (Ho' : out_state ((wakeup ch ;;; let! s := get_pipe p in
     if negb (p_readopen s) && negb (p_writeopen s) then
       release (L_pipe p) ;;; modify (fun k => set_k_pipes (delete p (k_pipes k)) k) ;;; kfree p
     else release (L_pipe p)) k2) = Some k') by (unfold k2, s2, ch; destruct w; exact Ho).
  clear Ho. apply out_bind in Ho' as [E|(u' & k3 & E & Ho)].
  { eapply (HK _ (wakeup ch)); [solve [auto with frame]|by rewrite E|done]. }
  assert (H3 : holds p k3 s2 q) by (eapply (holds_keep p (wakeup ch)); [solve [auto with frame]|by rewrite E|done]).
  rewrite (bind_ok _ _ _ _ _ (get_pipe_ok p k3 s2 q H3)) in Ho.
  destruct (negb (p_readopen s2) && negb (p_writeopen s2)).
  - apply out_bind in Ho as [E'|(u2 & k4 & _ & Ho)]; [eapply (HK _ (release (L_pipe p))); [solve [auto with frame]|by rewrite E'|done]|].
    exfalso. unfold bind at 1, modify in Ho. pose proof (keeps_kfree k_pipes p _ _ Ho) as Hd. rewrite Hd in Hs'. cbn in Hs'. by rewrite lookup_delete_eq in Hs'.
  - eapply (HK _ (release (L_pipe p))); [solve [auto with frame]|done|done].
Qed.

Lemma pipe_step_holds k i o k' s q :
  holds p k s q -> pipe_step k i o k' -> exists s' q', holds p k' s' q' /\ q ++ i = o ++ q'.
Proof.
  intros H Hs.
  assert (Hw : forall A src (c : KM A) s0 s1, writes src c -> out_state (c k) = Some k' ->
    k_pipes k !! p = Some s0 -> k_pipes k' !! p = Some s1 ->
    exists s' q', holds p k' s' q' /\ q ++ accepted s0 s1 src = q').
  { intros A src c s0 s1 Hc Ho E0 E1. destruct (Hc k k' s q H Ho) as (s' & m & Hh & Hn).
    assert (s0 = s) as -> by (destruct H; congruence). assert (s1 = s') as -> by (destruct Hh; congruence).
    exists s', (q ++ take m src). split; [done|]. f_equal.
    apply (accepted_take s s' q); [apply H|apply Hh|done]. }
  assert (Hr : forall c, reads c -> (exists r, c k = Ok r k' /\ o = default [] r) \/ c k = Swtch k' /\ o = [] ->
    exists s' q', holds p k' s' q' /\ q ++ [] = o ++ q').
  { intros c Hc Ho. destruct (Hc k k' s q H) as (s' & q' & Hh & E).
    - destruct Ho as [(r & -> & _)|[-> _]]; done.
    - exists s', q'. split; [done|]. rewrite app_nil_r. destruct Ho as [(r & Eo & ->)|[Eo ->]]; by rewrite Eo in E. }
  destruct Hs.
  - eapply Hw; eauto using pipewrite_writes.
  - eapply Hw; eauto using pipewrite_resume_writes.
  - eapply Hr; eauto using piperead_reads.
  - eapply Hr; eauto using piperead_resume_reads.
  - eapply Hr; eauto using piperead_reads.
  - eapply Hr; eauto using piperead_resume_reads.
  - exists s', q. rewrite app_nil_r. split; [by eapply pipeclose_holds|done].
  - exists s, q. rewrite app_nil_r. split; [|done]. destruct H as [Hp Hq]. split; [congruence|done].
Qed.

End Runs.

(** C18: A pipe is first in, first out: over any run of calls on it ([pipewrite] and
    [piperead], ending or going to sleep and going on later, and [pipeclose] of one
    end while the other is open) mixed with anything that leaves it alone, the bytes
    that were in it followed by the bytes that went in are the bytes that came out
    followed by those still in it, which are at most [PIPESIZE]: nothing is lost,
    invented or reordered, however often the 32-bit counters wrap around. *)
Theorem pipe_fifo p k s q ins outs k' :
  holds p k s q -> pipe_run p k ins outs k' ->
  exists s' q', holds p k' s' q' /\ q ++ ins = outs ++ q' /\ (length q' <= Z.to_nat PIPESIZE)%nat.
Proof.
  intros H Hr. revert s q H. induction Hr as [k|k i o k1 i' o' k2 Hs _ IH]; intros s q H.
  - exists s, q. rewrite app_nil_r. split; [done|]. split; [done|]. apply H.
  - destruct (pipe_step_holds p k i o k1 s q H Hs) as (s1 & q1 & H1 & E1).
    destruct (IH s1 q1 H1) as (s2 & q2 & H2 & E2 & Hl). exists s2, q2. split; [done|]. split; [|done].
    by rewrite app_assoc, E1, <- app_assoc, E2, app_assoc.
Qed.

(** ** Every call ends *)

Section Calls.
Context (p : Z) (c : nat).

(** Process [c] runs, and the processor holds the locks [held]. *)
Definition runs (k : kernel) (held : list lockid) (pr : proc) : Prop :=
  k_held k = held /\ k_cur k = Some c /\ k_ptable k !! c = Some pr.

Lemma cur_killed_ok k held pr : runs k held pr -> cur_killed k = Ok (p_killed pr) k.
Proof.
  intros (_ & Hc & Hp). unfold cur_killed. rewrite (bind_ok _ _ _ _ _ (curproc_ok k c Hc)).
  by rewrite (bind_ok _ _ _ _ _ (get_proc_ok k c pr Hp)).
Qed.

(** The kernel with pipe [p] now [s]. *)
Definition with_pipe (s : pipe) (k : kernel) : kernel := set_k_pipes (<[p := s]> (k_pipes k)) k.
(** The processes that sleep on [ch] woken. *)
Definition woken (ch : chan) (k : kernel) : kernel :=
  set_k_ptable (wakeup1_proc ch <$> k_ptable k) k.

Lemma with_pipe_id k s : k_pipes k !! p = Some s -> with_pipe s k = k.
Proof. intros H. unfold with_pipe. rewrite insert_id by done. by destruct k. Qed.

Lemma with_pipe_twice k s s' : with_pipe s' (with_pipe s k) = with_pipe s' k.
Proof. unfold with_pipe. cbn. rewrite insert_insert_eq. by destruct k. Qed.

(** Where the loop of [pipewrite] ends. *)
Definition write_end (k : kernel) (s : pipe) (pr : proc) (fits : bool) : outcome kernel bool :=
  if fits then Ok true k
  else if negb (p_readopen s) || p_killed pr then Ok false (set_k_held [] k)
  else Swtch (asleep c (C_nwrite p) (woken (C_nread p) k)).

Lemma pipewrite_full k s pr src x :
  k_pipes k !! p = Some s -> runs k [L_pipe p] pr -> pipe_full s = true ->
  pipewrite_loop p (x :: src) k = write_end k s pr false.
Proof.
  intros Hp Hr Hf. cbn [pipewrite_loop]. assert (Hg : get_pipe p k = Ok s k) by (unfold get_pipe; by rewrite Hp).
  rewrite (bind_ok _ _ _ _ _ Hg), Hf, (bind_ok _ _ _ _ _ (cur_killed_ok k _ pr Hr)).
  destruct Hr as (Hh & Hc & Hpr). unfold write_end. case_bool.
  - by rewrite (bind_ok _ _ _ _ _ (release_ok (L_pipe p) [] k Hh)).
  - erewrite bind_ok by (apply wakeup_ok; rewrite Hh; set_solver).
    erewrite sleep_again_switches; [done|done|done|done|].
    simpl. by rewrite list_lookup_fmap, Hpr.
Qed.

Lemma pipewrite_loop_run src : forall k s q pr,
  holds p k s q -> runs k [L_pipe p] pr ->
  let room := (Z.to_nat PIPESIZE - length q)%nat in
  exists s', pipe_rep s' (q ++ take room src) /\ p_readopen s' = p_readopen s /\
    p_writeopen s' = p_writeopen s /\
    pipewrite_loop p src k = write_end (with_pipe s' k) s pr (bool_decide (length src <= room)%nat).
Proof.
  induction src as [|x src IH]; intros k s q pr H Hr; cbv zeta.
  - exists s. rewrite take_nil, app_nil_r. split; [apply H|]. do 2 (split; [done|]).
    rewrite with_pipe_id by apply H. by rewrite bool_decide_eq_true_2 by (simpl; lia).
  - destruct (decide (length q = Z.to_nat PIPESIZE)) as [Hl|Hl].
    + exists s. rewrite Hl, Nat.sub_diag, app_nil_r. split; [apply H|]. do 2 (split; [done|]).
      rewrite with_pipe_id by apply H. rewrite bool_decide_eq_false_2 by (simpl; lia).
      apply pipewrite_full; [apply H|done|].
      rewrite (pipe_full_spec s q) by apply H. by apply bool_decide_eq_true_2.
    + assert (Hlt : (length q < Z.to_nat PIPESIZE)%nat) by (destruct H as [_ []]; lia).
      cbn [pipewrite_loop]. rewrite (bind_ok _ _ _ _ _ (get_pipe_ok p k s q H)).
      rewrite (pipe_full_spec s q) by apply H. rewrite bool_decide_eq_false_2 by done.
      rewrite (bind_ok _ _ _ _ _ (eq_refl : put_pipe p (pipe_put x s) k = Ok tt _)).
      destruct (IH _ _ _ pr (holds_put p k s q x H Hlt) Hr) as (s' & Hrep & Ho & Hw & E).
      rewrite length_app in *. exists s'. rewrite E. fold (with_pipe (pipe_put x s) k). rewrite with_pipe_twice.
      replace (Z.to_nat PIPESIZE - length q)%nat with (S (Z.to_nat PIPESIZE - (length q + 1)))%nat by lia.
      split; [by rewrite <- app_assoc in Hrep|]. split; [done|]. split; [done|]. unfold write_end.
      simpl length. replace (bool_decide (S (length src) <= S (Z.to_nat PIPESIZE - (length q + 1)))%nat)
        with (bool_decide (length src <= Z.to_nat PIPESIZE - (length q + 1))%nat); [done|].
      apply bool_decide_ext. lia.
Qed.

End Calls.

(** [pipewrite] always comes to an end: on a pipe that holds [q] it returns the
    number of bytes when they fit, with all of them in the pipe and every sleeping
    reader woken; otherwise it fills the pipe and then returns -1 when nobody can read
    or the process was killed, or else wakes the readers and goes to sleep for room
    on the pipe's [nwrite]; the locks are given back in every case. *)
Theorem pipewrite_ends p c k s q pr src :
  holds p k s q -> runs c k [] pr ->
  let room := (Z.to_nat PIPESIZE - length q)%nat in
  exists s', pipe_rep s' (q ++ take room src) /\ p_readopen s' = p_readopen s /\
    let k1 := with_pipe p s' k in
    pipewrite p src k =
      if bool_decide (length src <= room)%nat then Ok (Z.of_nat (length src)) (woken (C_nread p) k1)
      else if negb (p_readopen s) || p_killed pr then Ok (-1) k1
      else Swtch (asleep c (C_nwrite p) (woken (C_nread p) k1)).
Proof.
  intros H (Hh & Hc & Hpr). cbv zeta. unfold pipewrite, pipewrite_from.
  rewrite (bind_ok _ _ _ _ _ (acquire_ok (L_pipe p) k ltac:(rewrite Hh; set_solver))). rewrite Hh.
  set (kl := set_k_held [L_pipe p] k).
  destruct (pipewrite_loop_run p c src kl s q pr) as (s' & Hrep & Ho & _ & E); [by destruct H|done|].
  exists s'. split; [done|]. split; [done|]. unfold bind at 1. rewrite E. unfold write_end.
  assert (Ek : set_k_held [] (with_pipe p s' kl) = with_pipe p s' k).
  { unfold with_pipe, kl. destruct k. cbn in *. by subst. }
  case_bool_decide.
  - change (negb true) with false. cbv iota.
    erewrite bind_ok by (apply wakeup_ok; simpl; rewrite list_elem_of_singleton; discriminate).
    erewrite bind_ok by (by apply release_ok). unfold ret. f_equal.
    unfold woken, with_pipe, kl. destruct k. cbn in *. by subst.
  - case_bool; [by rewrite <- Ek|]. f_equal.
Qed.

(** ** The theorems at work *)

(** Process 0 runs, with an empty pipe at 0x80200000 whose counters are about to wrap
    around. *)
Definition pipe_demo : pipe := mk_pipe (replicate 512 0) 0xFFFFFFFF 0xFFFFFFFF true true.
Definition pipe_machine : kernel :=
  set_k_cur (Some 0%nat) (set_k_pipes {[ 0x80200000 := pipe_demo ]} (boot_kernel 0x80115000 0x80108000 (fun _ => []) 0)).

Definition state_of {A} (o : outcome kernel A) (k : kernel) : kernel := default k (out_state o).

Lemma pipe_machine_holds : holds 0x80200000 pipe_machine pipe_demo [].
Proof.
  split; [reflexivity|]. split; simpl; try reflexivity; try lia. intros i c H. by rewrite lookup_nil in H.
Qed.

Lemma pipe_fifo_witness :
  let k1 := state_of (pipewrite 0x80200000 [7; 8; 9] pipe_machine) pipe_machine in
  let k2 := state_of (piperead 0x80200000 2 k1) k1 in
  exists s' q', holds 0x80200000 k2 s' q' /\ [7; 8; 9] = [7; 8] ++ q'.
Proof.
  intros k1 k2.
  destruct (pipe_fifo 0x80200000 pipe_machine pipe_demo [] [7; 8; 9] [7; 8] k2 pipe_machine_holds)
    as (s' & q' & Hh & E & _).
  - apply (run_cons _ _ [7; 8; 9] [] k1 [] [7; 8]).
    + pose proof (step_write 0x80200000 pipe_machine [7; 8; 9] k1 pipe_demo
        (mk_pipe (<[1%nat := 9]> (<[0%nat := 8]> (<[511%nat := 7]> (replicate 512 0)))) 0xFFFFFFFF 2 true true)) as H.
      apply H; vm_compute; reflexivity.
    + apply (run_cons _ _ [] [7; 8] k2 [] []); [|apply run_nil].
      apply (step_read 0x80200000 k1 2 (Some [7; 8])). vm_compute. reflexivity.
  - exists s', q'. split; [exact Hh|exact E].
Defined.

Lemma pipewrite_ends_witness :
  exists s', pipe_rep s' [7; 8; 9] /\
    pipewrite 0x80200000 [7; 8; 9] pipe_machine =
      Ok 3 (woken (C_nread 0x80200000) (with_pipe 0x80200000 s' pipe_machine)).
Proof.
  destruct (pipewrite_ends 0x80200000 0 pipe_machine pipe_demo [] zero_proc [7; 8; 9] pipe_machine_holds)
    as (s' & Hr & _ & E).
  - split; [reflexivity|]. split; reflexivity.
  - exists s'. split; [exact Hr|]. exact E.
Defined.
