(* ===== verification/File.v ===== *)
(** * File: the table of open files (file.c, [pipealloc] of pipe.c)

    A [struct file*] is the index of its entry in [k_ftable].  Reads return the
    bytes and writes take them, as in Fs.v and Pipe.v. *)

From S2P Require Import Prelude Bytes Kernel Sync Kalloc Bio Log Str Inode Console Fs Pipe.

Definition get_file (f : nat) : KM file := fun k =>
  match k_ftable k !! f with Some x => Ok x k | None => Fault "file" end.
Definition upd_file (f : nat) (g : file -> file) : KM unit :=
  modify (fun k => set_k_ftable (alter g f (k_ftable k)) k).

(** [fileinit] only gives the table's lock its name; the lock starts free. *)
Definition fileinit : KM unit := ret tt.

(** The first entry with no reference, from index [i]. *)
Fixpoint free_file (fs : list file) (i : nat) : option nat :=
  match fs with
  | [] => None
  | f :: fs' => if f_ref f =? 0 then Some i else free_file fs' (S i)
  end.

Definition filealloc : KM (option nat) :=
  acquire L_ftable ;;;
  let! k := get in
  match free_file (k_ftable k) 0 with
  | Some f =>
      upd_file f (set_f_ref 1) ;;;
      release L_ftable ;;;
      ret (Some f)
  | None =>
      release L_ftable ;;;
      ret None
  end.

Definition filedup (f : nat) : KM nat :=
  acquire L_ftable ;;;
  let! x := get_file f in
  if f_ref x <? 1 then panic "filedup" else
  upd_file f (fun x => set_f_ref (f_ref x + 1) x) ;;;
  release L_ftable ;;;
  ret f.

Definition fileclose (f : nat) : KM unit :=
  acquire L_ftable ;;;
  let! x := get_file f in
  if f_ref x <? 1 then panic "fileclose" else
  upd_file f (fun x => set_f_ref (f_ref x - 1) x) ;;;
  let! ff := get_file f in
  if 0 <? f_ref ff then release L_ftable else
  upd_file f (fun x => set_f_type FD_NONE (set_f_ref 0 x)) ;;;
  release L_ftable ;;;
  match f_type ff with
  | FD_PIPE => pipeclose (f_pipe ff) (f_writable ff)
  | FD_INODE =>
      begin_op ;;;
      let! ip := deref (f_ip ff) in
      iput ip ;;;
      end_op
  | FD_NONE => ret tt
  end.

(** [None] is -1. *)
Definition filestat (f : nat) : KM (option stat) :=
  let! x := get_file f in
  match f_type x with
  | FD_INODE =>
      ilock (f_ip x) ;;;
      let! i := deref (f_ip x) in
      let! ip := get_inode i in
      let st := stati ip in
      iunlock (f_ip x) ;;;
      ret (Some st)
  | _ => ret None
  end.

Definition fileread (f : nat) (n : Z) : KM (option (list Z)) :=
  let! x := get_file f in
  if negb (f_readable x) then ret None else
  match f_type x with
  | FD_PIPE => piperead (f_pipe x) (Z.to_nat n)
  | FD_INODE =>
      ilock (f_ip x) ;;;
      let! x := get_file f in
      let! i := deref (f_ip x) in
      let! r := readi i (f_off x) n in
      (match r with
       | Some (b :: l) => upd_file f (fun x => set_f_off (u32 (f_off x + Z.of_nat (length (b :: l)))) x)
       | _ => ret tt
       end) ;;;
      iunlock (f_ip x) ;;;
      ret r
  | FD_NONE => panic "fileread"
  end.

(** [((MAXOPBLOCKS-1-1-2) / 2) * 512]: what one transaction may write. *)
Definition filewrite_max : Z := ((MAXOPBLOCKS - 1 - 1 - 2) / 2) * 512.

(** The loop of [filewrite] with [src] left and [i] bytes written; each turn writes a
    byte or more.  Returns the final [i]. *)
Fixpoint filewrite_loop (fuel : nat) (f : nat) (src : list Z) (i : Z) : KM Z :=
  match fuel with
  | O => ret i
  | S fuel' =>
      if 0 <? Z.of_nat (length src) then
        let n1 := if filewrite_max <? Z.of_nat (length src) then filewrite_max else Z.of_nat (length src) in
        begin_op ;;;
        let! x := get_file f in
        ilock (f_ip x) ;;;
        let! x := get_file f in
        let! ip := deref (f_ip x) in
        let! r := writei ip (take (Z.to_nat n1) src) (f_off x) in
        when (0 <? r) (upd_file f (fun x => set_f_off (u32 (f_off x + r)) x)) ;;;
        iunlock (f_ip x) ;;;
        end_op ;;;
        if r <? 0 then ret i else
        if negb (r =? n1) then panic "short filewrite" else
        filewrite_loop fuel' f (drop (Z.to_nat r) src) (i + r)
      else ret i
  end.

Definition filewrite (f : nat) (src : list Z) : KM Z :=
  let n := Z.of_nat (length src) in
  let! x := get_file f in
  if negb (f_writable x) then ret (-1) else
  match f_type x with
  | FD_PIPE => pipewrite (f_pipe x) src
  | FD_INODE =>
      let! i := filewrite_loop (length src) f src 0 in
      ret (if i =? n then n else -1)
  | FD_NONE => panic "filewrite"
  end.

(** ** pipealloc *)

(** [sizeof(struct spinlock)], where the pipe's [data] starts. *)
Definition sizeof_spinlock : Z := 52.

(** [if(x) fileclose(x)]. *)
Definition close_if (x : option nat) : KM unit :=
  match x with Some f => fileclose f | None => ret tt end.

(** The [bad:] exit with no page to free. *)
Definition pipealloc_bad (f0 f1 : option nat) : KM (option (nat * nat)) :=
  close_if f0 ;;;
  close_if f1 ;;;
  ret None.

(** The reading and the writing end; [None] is -1.  The page is used as it comes:
    the pipe's bytes are those the page holds. *)
Definition pipealloc : KM (option (nat * nat)) :=
  let! f0 := filealloc in
  match f0 with
  | None => pipealloc_bad None None
  | Some a =>
      let! f1 := filealloc in
      match f1 with
      | None => pipealloc_bad f0 None
      | Some b =>
          let! p := kalloc in
          if p =? 0 then pipealloc_bad f0 f1 else
          let! k := get in
          put_pipe p (mk_pipe (load_bytes (k_mem k) (p + sizeof_spinlock) (Z.to_nat PIPESIZE)) 0 0 true true) ;;;
          upd_file a (fun x => set_f_pipe p (set_f_writable false (set_f_readable true (set_f_type FD_PIPE x)))) ;;;
          upd_file b (fun x => set_f_pipe p (set_f_writable true (set_f_readable false (set_f_type FD_PIPE x)))) ;;;
          ret (Some (a, b))
      end
  end.
