(* ===== verification/Proc.v ===== *)
(** * Proc: processes (proc.c)

    [sched], [sleep] and [wakeup] are in Sync.v; here are the life of a process,
    from [allocproc] to [wait], and the scheduler.  A [struct proc*] is the index of
    its entry in [k_ptable].  The trap frame and the context, which C keeps at the
    top of the kernel stack, are fields of the process; the addresses of [forkret]
    and [trapret] are the symbols of the kernel image. *)

From S2P Require Import Prelude Bytes Kernel Sync Kalloc Bio Log Str Inode Console Fs Vm Pipe File.

Section Image.
(** The addresses of [forkret] and of the bytes of initcode.S, and how many they
    are. *)
Context (forkret_addr initcode initcode_size : Z).

(** [pinit] only gives the table's lock its name; the lock starts free. *)
Definition pinit : KM unit := ret tt.

(** The first process in state UNUSED, from index [i]. *)
Fixpoint free_proc (ps : list proc) (i : nat) : option nat :=
  match ps with
  | [] => None
  | p :: ps' => if bool_decide (p_state p = UNUSED) then Some i else free_proc ps' (S i)
  end.

Definition allocproc : KM (option nat) :=
  acquire L_ptable ;;;
  let! k := get in
  match free_proc (k_ptable k) 0 with
  | None => release L_ptable ;;; ret None
  | Some i =>
      upd_proc i (set_p_state EMBRYO) ;;;
      upd_proc i (set_p_pid (k_nextpid k)) ;;;
      modify (set_k_nextpid (i32 (k_nextpid k + 1))) ;;;
      release L_ptable ;;;
      let! kstack := kalloc in
      upd_proc i (set_p_kstack kstack) ;;;
      if kstack =? 0 then
        upd_proc i (set_p_state UNUSED) ;;;
        ret None
      else
        upd_proc i (set_p_context (mk_context 0 0 0 0 forkret_addr)) ;;;
        ret (Some i)
  end.

(** The characters of the string in an array. *)
Fixpoint upto_nul (l : list Z) : list Z :=
  match l with
  | [] => []
  | c :: l' => if c =? 0 then [] else c :: upto_nul l'
  end.

(** [safestrcpy(p->name, s, sizeof(p->name))] on the characters of [s]: at most 15 of
    them and a NUL, the rest of the array as it was. *)
Definition copy_name (s old : list Z) : list Z := splice old 0 (take 15 s ++ [0]).

Definition user_frame : trapframe :=
  let ds := Z.lor (Z.shiftl SEG_UDATA 3) DPL_USER in
  set_tf_cs (Z.lor (Z.shiftl SEG_UCODE 3) DPL_USER)
    (set_tf_ds ds (set_tf_es ds (set_tf_ss ds
      (set_tf_eflags FL_IF (set_tf_esp PGSIZE (set_tf_eip 0 zero_trapframe)))))).

Definition userinit : KM unit :=
  let! r := allocproc in
  let! i := deref r in
  modify (set_k_initproc (Some i)) ;;;
  let! pgdir := setupkvm in
  upd_proc i (set_p_pgdir pgdir) ;;;
  if pgdir =? 0 then panic "userinit: out of memory?" else
  inituvm pgdir initcode initcode_size ;;;
  upd_proc i (set_p_sz PGSIZE) ;;;
  upd_proc i (set_p_tf user_frame) ;;;
  upd_proc i (fun p => set_p_name (copy_name (chars "initcode") (p_name p)) p) ;;;
  let! cwd := namei (chars "/") in
  upd_proc i (set_p_cwd cwd) ;;;
  acquire L_ptable ;;;
  upd_proc i (set_p_state RUNNABLE) ;;;
  release L_ptable.

Definition growproc (n : Z) : KM Z :=
  let! c := curproc in
  let! p := get_proc c in
  let sz := p_sz p in
  let finish sz := upd_proc c (set_p_sz sz) ;;; switchuvm (Some c) ;;; ret 0 in
  if 0 <? n then
    let! sz := allocuvm (p_pgdir p) sz (u32 (sz + n)) in
    if sz =? 0 then ret (-1) else finish sz
  else if n <? 0 then
    let! sz := deallocuvm (p_pgdir p) sz (u32 (sz + n)) in
    if sz =? 0 then ret (-1) else finish sz
  else finish sz.

(** [np->ofile[i] = filedup(curproc->ofile[i])] for the open descriptors from [i]. *)
Fixpoint dup_files (np : nat) (ofile : list (option nat)) (i : nat) : KM unit :=
  match ofile with
  | [] => ret tt
  | o :: ofile' =>
      (match o with
       | Some f =>
           let! f := filedup f in
           upd_proc np (fun p => set_p_ofile (<[i := Some f]> (p_ofile p)) p)
       | None => ret tt
       end) ;;;
      dup_files np ofile' (S i)
  end.

Definition fork : KM Z :=
  let! c := curproc in
  let! r := allocproc in
  match r with
  | None => ret (-1)
  | Some np =>
      let! p := get_proc c in
      let! pgdir := copyuvm (p_pgdir p) (p_sz p) in
      upd_proc np (set_p_pgdir pgdir) ;;;
      if pgdir =? 0 then
        let! n := get_proc np in
        kfree (p_kstack n) ;;;
        upd_proc np (set_p_kstack 0) ;;;
        upd_proc np (set_p_state UNUSED) ;;;
        ret (-1)
      else
        upd_proc np (set_p_sz (p_sz p)) ;;;
        upd_proc np (set_p_parent (Some c)) ;;;
        upd_proc np (set_p_tf (set_tf_eax 0 (p_tf p))) ;;;
        dup_files np (p_ofile p) 0 ;;;
        let! cwd := deref (p_cwd p) in
        let! cwd := idup cwd in
        upd_proc np (set_p_cwd (Some cwd)) ;;;
        upd_proc np (fun n => set_p_name (copy_name (upto_nul (p_name p)) (p_name n)) n) ;;;
        let! n := get_proc np in
        acquire L_ptable ;;;
        upd_proc np (set_p_state RUNNABLE) ;;;
        release L_ptable ;;;
        ret (p_pid n)
  end.

(** Closing the [n] descriptors from [fd]. *)
Fixpoint close_files (n : nat) (c fd : nat) : KM unit :=
  match n with
  | O => ret tt
  | S n' =>
      let! p := get_proc c in
      let! o := deref (p_ofile p !! fd) in
      (match o with
       | Some f =>
           fileclose f ;;;
           upd_proc c (fun p => set_p_ofile (<[fd := None]> (p_ofile p)) p)
       | None => ret tt
       end) ;;;
      close_files n' c (S fd)
  end.

(** [p] as a sleep channel; the null pointer is the null channel. *)
Definition proc_chan (p : option nat) : chan :=
  match p with Some i => C_proc i | None => C_none end.

(** Passing the children of [c] among the [n] processes from [i] to init. *)
Fixpoint reparent (n : nat) (c i : nat) : KM unit :=
  match n with
  | O => ret tt
  | S n' =>
      let! p := get_proc i in
      (if bool_decide (p_parent p = Some c) then
         let! k := get in
         upd_proc i (set_p_parent (k_initproc k)) ;;;
         when (bool_decide (p_state p = ZOMBIE)) (wakeup1 (proc_chan (k_initproc k)))
       else ret tt) ;;;
      reparent n' c (S i)
  end.

(** The end of [exit], with [ptable.lock] held from its start. *)
Definition exit_zombie (c : nat) : KM unit :=
  acquire L_ptable ;;;
  let! p := get_proc c in
  wakeup1 (proc_chan (p_parent p)) ;;;
  reparent NPROC c 0 ;;;
  upd_proc c (set_p_state ZOMBIE) ;;;
  sched ;;;
  panic "zombie exit".

Definition exit : KM unit :=
  let! c := curproc in
  let! k := get in
  if bool_decide (k_initproc k = Some c) then panic "init exiting" else
  close_files NOFILE c 0 ;;;
  begin_op ;;;
  let! p := get_proc c in
  let! cwd := deref (p_cwd p) in
  iput cwd ;;;
  end_op ;;;
  upd_proc c (set_p_cwd None) ;;;
  exit_zombie c.

(** [wait]'s clean-up of the zombie [i]. *)
Definition reap (i : nat) : KM Z :=
  let! p := get_proc i in
  let pid := p_pid p in
  kfree (p_kstack p) ;;;
  upd_proc i (set_p_kstack 0) ;;;
  freevm (p_pgdir p) ;;;
  upd_proc i (set_p_pid 0) ;;;
  upd_proc i (set_p_parent None) ;;;
  upd_proc i (fun p => set_p_name (<[0%nat := 0]> (p_name p)) p) ;;;
  upd_proc i (set_p_killed false) ;;;
  upd_proc i (set_p_state UNUSED) ;;;
  release L_ptable ;;;
  ret pid.

(** The scan of [wait] over the [n] processes from [i]: the pid of the zombie reaped,
    or whether there are children. *)
Fixpoint wait_scan (n : nat) (c i : nat) (havekids : bool) : KM (Z + bool) :=
  match n with
  | O => ret (inr havekids)
  | S n' =>
      let! p := get_proc i in
      if negb (bool_decide (p_parent p = Some c)) then wait_scan n' c (S i) havekids
      else if bool_decide (p_state p = ZOMBIE) then
        let! pid := reap i in
        ret (inl pid)
      else wait_scan n' c (S i) true
  end.

(** [wait] from the top of its loop, with [ptable.lock] held. *)
Definition wait_from (c : nat) : KM Z :=
  let! r := wait_scan NPROC c 0 false in
  match r with
  | inl pid => ret pid
  | inr havekids =>
      let! p := get_proc c in
      if negb havekids || p_killed p then
        release L_ptable ;;; ret (-1)
      else sleep_again (C_proc c) L_ptable
  end.

Definition wait : KM Z :=
  let! c := curproc in
  acquire L_ptable ;;;
  wait_from c.

(** ** Scheduling *)

Section Scheduler.
(** What the processor does from the [swtch] to process [i] until that process
    switches back: the code of the process. *)
Context (run : nat -> KM unit).

(** The body of the scheduler's loop over the [n] processes from [i]. *)
Fixpoint scheduler_pass (n i : nat) : KM unit :=
  match n with
  | O => ret tt
  | S n' =>
      let! p := get_proc i in
      (if bool_decide (p_state p = RUNNABLE) then
         modify (set_k_cur (Some i)) ;;;
         switchuvm (Some i) ;;;
         upd_proc i (set_p_state RUNNING) ;;;
         run i ;;;
         switchkvm ;;;
         modify (set_k_cur None)
       else ret tt) ;;;
      scheduler_pass n' (S i)
  end.

(** One turn of [for(;;)]. *)
Definition scheduler_round : KM unit :=
  acquire L_ptable ;;;
  scheduler_pass NPROC 0 ;;;
  release L_ptable.

Fixpoint scheduler_rounds (n : nat) : KM unit :=
  match n with O => ret tt | S n' => scheduler_round ;;; scheduler_rounds n' end.

(** The first [n] rounds of [scheduler], which never returns. *)
Definition scheduler (n : nat) : KM unit :=
  modify (set_k_cur None) ;;;
  scheduler_rounds n.

End Scheduler.

Definition yield : KM unit :=
  acquire L_ptable ;;;
  let! c := curproc in
  upd_proc c (set_p_state RUNNABLE) ;;;
  sched ;;;
  release L_ptable.

(** [first] is the static variable, whose new value is returned. *)
Definition forkret (first : bool) : KM bool :=
  release L_ptable ;;;
  when first (iinit ROOTDEV ;;; initlog ROOTDEV) ;;;
  ret false.

(** The scan of [kill] over the [n] processes from [i]. *)
Fixpoint kill_scan (n : nat) (pid : Z) (i : nat) : KM Z :=
  match n with
  | O => release L_ptable ;;; ret (-1)
  | S n' =>
      let! p := get_proc i in
      if p_pid p =? pid then
        upd_proc i (set_p_killed true) ;;;
        when (bool_decide (p_state p = SLEEPING)) (upd_proc i (set_p_state RUNNABLE)) ;;;
        release L_ptable ;;;
        ret 0
      else kill_scan n' pid (S i)
  end.

Definition kill (pid : Z) : KM Z :=
  acquire L_ptable ;;;
  kill_scan NPROC pid 0.

(** ** procdump *)

(** The loop of [getcallerpcs] (spinlock.c): [n] frames from [ebp]; those it does not
    reach are 0. *)
Fixpoint getcallerpcs_loop (n : nat) (m : mem) (ebp : Z) : list Z :=
  match n with
  | O => []
  | S n' =>
      if (ebp =? 0) || (ebp <? KERNBASE) || (ebp =? 0xffffffff) then replicate (S n') 0
      else load32 m (ebp + 4) :: getcallerpcs_loop n' m (load32 m ebp)
  end.

Definition getcallerpcs (m : mem) (v : Z) : list Z := getcallerpcs_loop 10 m (u32 (v - 8)).

Definition state_name (s : procstate) : list Z :=
  match s with
  | UNUSED => chars "unused"
  | EMBRYO => chars "embryo"
  | SLEEPING => chars "sleep "
  | RUNNABLE => chars "runble"
  | RUNNING => chars "run   "
  | ZOMBIE => chars "zombie"
  end.

Fixpoint print_pcs (pcs : list Z) : KM unit :=
  match pcs with
  | [] => ret tt
  | pc :: pcs' => if pc =? 0 then ret tt else cprintf (Some (chars " %p")) [A_int pc] ;;; print_pcs pcs'
  end.

Definition dump_one (i : nat) : KM unit :=
  let! p := get_proc i in
  if bool_decide (p_state p = UNUSED) then ret tt else
  cprintf (Some (chars "%d %s %s"))
    [A_int (p_pid p); A_str (Some (state_name (p_state p))); A_str (Some (upto_nul (p_name p)))] ;;;
  (if bool_decide (p_state p = SLEEPING) then
     let! k := get in
     print_pcs (getcallerpcs (k_mem k) (u32 (ctx_ebp (p_context p) + 8)))
   else ret tt) ;;;
  cprintln "" [].

Definition procdump : KM unit := for_tail NPROC 0 dump_one.

End Image.
