(* ===== verification/Life.v ===== *)
(** * Life: parents and children (theorems about proc.c)

    The process table as [fork], [exit], [wait], [kill], [sleep], [wakeup] and the
    scheduler change it, one section of code under [ptable.lock] after another.  A
    process that sleeps in [wait] must not miss the exit of a child: the invariant says
    that it has no child that is a zombie already, and that it has a child whose exit
    will wake it. *)

From S2P Require Import Prelude Bytes Kernel Sync Kalloc Bio Log Str Inode Console Fs Vm Frame Pipe File Proc.

(** ** What leaves the process table alone *)

Section Table.

(** Functions of the memory and of the tables of files and inodes. *)
Notation still := (keeps k_ptable).

Lemma still_modify f : (forall k, k_ptable (f k) = k_ptable k) -> still (modify f).
Proof. apply keeps_modify. Qed.

Lemma still_acquire l : still (acquire l).
Proof. intros k k'. unfold acquire. case_bool; [done|]. by intros [= <-]. Qed.
Lemma still_release l : still (release l).
Proof. intros k k'. unfold release. case_bool; [|done]. by intros [= <-]. Qed.
Hint Resolve still_acquire still_release : frame.

Lemma still_kmem_lock : still kmem_lock.
Proof. unfold kmem_lock. keep_body. Qed.
Lemma still_kmem_unlock : still kmem_unlock.
Proof. unfold kmem_unlock. keep_body. Qed.
Hint Resolve still_kmem_lock still_kmem_unlock : frame.

Lemma still_set_mem (f : kernel -> mem) : still (modify (fun k => set_k_mem (f k) k)).
Proof. by apply still_modify. Qed.
Lemma still_set_freelist v : still (modify (set_k_freelist v)).
Proof. by apply still_modify. Qed.
Hint Resolve still_set_mem still_set_freelist : frame.

Lemma still_kfree v : still (kfree v).
Proof. unfold kfree. keep_body. Qed.
Lemma still_kalloc : still kalloc.
Proof. unfold kalloc. keep_body. Qed.
Lemma still_mload a : still (mload a).
Proof. apply keeps_reader. by intros k k' [= <-]. Qed.
Lemma still_mstore a v : still (mstore a v).
Proof. by apply still_modify. Qed.
Lemma still_zero_page a : still (zero_page a).
Proof. by apply still_modify. Qed.
Hint Resolve still_kfree still_kalloc still_mload still_mstore still_zero_page : frame.

Lemma still_walkpgdir pgdir va alloc : still (walkpgdir pgdir va alloc).
Proof. unfold walkpgdir. keep_body. Qed.
Hint Resolve still_walkpgdir : frame.
Lemma still_mappages_loop pgdir last perm n : forall a pa, still (mappages_loop n pgdir a last pa perm).
Proof. induction n as [|n IH]; intros; cbn [mappages_loop]; keep_body. Qed.
Hint Resolve still_mappages_loop : frame.
Lemma still_mappages pgdir va size pa perm : still (mappages pgdir va size pa perm).
Proof. unfold mappages. keep_body. Qed.
Hint Resolve still_mappages : frame.
Lemma still_deallocuvm_loop n : forall pgdir a oldsz, still (deallocuvm_loop n pgdir a oldsz).
Proof. induction n as [|n IH]; intros; cbn [deallocuvm_loop]; keep_body. Qed.
Hint Resolve still_deallocuvm_loop : frame.
Lemma still_deallocuvm pgdir o n : still (deallocuvm pgdir o n).
Proof. unfold deallocuvm. keep_body. Qed.
Hint Resolve still_deallocuvm : frame.
Lemma still_freevm pgdir : still (freevm pgdir).
Proof. unfold freevm. keep_body. Qed.
Hint Resolve still_freevm : frame.
Lemma still_setupkvm_loop pgdir km : still (setupkvm_loop pgdir km).
Proof. induction km as [|e km IH]; cbn [setupkvm_loop]; keep_body. Qed.
Hint Resolve still_setupkvm_loop : frame.
Lemma still_setupkvm : still setupkvm.
Proof. unfold setupkvm. keep_body. Qed.
Hint Resolve still_setupkvm : frame.
Lemma still_copyuvm_loop n pgdir d : forall i, still (copyuvm_loop n pgdir d i).
Proof. induction n as [|n IH]; intros; cbn [copyuvm_loop]; keep_body. Qed.
Hint Resolve still_copyuvm_loop : frame.
Lemma still_copyuvm pgdir sz : still (copyuvm pgdir sz).
Proof. unfold copyuvm. keep_body. Qed.

Lemma still_get_file f : still (get_file f).
Proof. apply keeps_reader. intros k k'. unfold get_file. destruct (_ !! f); [|done]. by intros [= <-]. Qed.
Lemma still_upd_file f g : still (upd_file f g).
Proof. by apply still_modify. Qed.
Lemma still_upd_inode i g : still (upd_inode i g).
Proof. by apply still_modify. Qed.
Hint Resolve still_get_file still_upd_file still_upd_inode : frame.
Lemma still_filedup f : still (filedup f).
Proof. unfold filedup. keep_body. Qed.
Lemma still_idup i : still (idup i).
Proof. unfold idup. keep_body. Qed.

End Table.

(** ** The invariant *)

Definition asleep_in_wait (c : nat) (p : proc) : Prop := p_state p = SLEEPING /\ p_chan p = C_proc c.

(** [init] is the first process. *)
Record family (init : nat) (t : list proc) : Prop := {
  fam_size : length t = NPROC;
  (* a process asleep in [wait] has no child to wait for already *)
  fam_zombie c p i q : t !! c = Some p -> asleep_in_wait c p -> t !! i = Some q -> p_parent q = Some c -> p_state q <> ZOMBIE;
  (* and it has a child *)
  fam_child c p : t !! c = Some p -> asleep_in_wait c p -> exists i q, t !! i = Some q /\ p_parent q = Some c;
  fam_self i q : t !! i = Some q -> p_parent q <> Some i;
  fam_unused i q : t !! i = Some q -> p_state q = UNUSED -> p_parent q = None;
  fam_init : exists p, t !! init = Some p /\ p_parent p = None /\ p_state p <> UNUSED /\ p_state p <> ZOMBIE }.

(** The entry [q'] came from [q] at [i] without a new parent, a new zombie, a new sleeper
    in [wait] or a new free entry. *)
Record milder (i : nat) (q q' : proc) : Prop := {
  mi_parent : p_parent q' = p_parent q;
  mi_zombie : p_state q' = ZOMBIE -> p_state q = ZOMBIE;
  mi_unused : p_state q' = UNUSED -> p_state q = UNUSED;
  mi_asleep : asleep_in_wait i q' -> asleep_in_wait i q }.

Definition milder_table (t t' : list proc) : Prop :=
  length t' = length t /\ forall i q', t' !! i = Some q' -> exists q, t !! i = Some q /\ milder i q q'.

Lemma milder_refl i q : milder i q q.
Proof. by split. Qed.

Lemma milder_trans i q1 q2 q3 : milder i q1 q2 -> milder i q2 q3 -> milder i q1 q3.
Proof. intros [A1 A2 A3 A4] [B1 B2 B3 B4]. split; [congruence|auto..]. Qed.

#[export] Instance milder_table_po : PreOrder milder_table.
Proof.
  split.
  - intros t. split; [done|]. intros i q' H. exists q'. split; [done|apply milder_refl].
  - intros t1 t2 t3 [L12 H12] [L23 H23]. split; [congruence|]. intros i q3 H3. destruct (H23 _ _ H3) as (q2 & H2 & M2).
    destruct (H12 _ _ H2) as (q1 & H1 & M1). exists q1. split; [done|by eapply milder_trans].
Qed.

Lemma milder_table_lookup t t' i q : milder_table t t' -> t !! i = Some q -> exists q', t' !! i = Some q' /\ milder i q q'.
Proof.
  intros [L H] Hi. destruct (lookup_lt_is_Some_2 t' i) as [q' Hq']; [rewrite L; by eapply lookup_lt_Some|].
  exists q'. split; [done|]. destruct (H _ _ Hq') as (q0 & H0 & M). congruence.
Qed.

Lemma milder_family init t t' : family init t -> milder_table t t' -> family init t'.
Proof.
  intros [Sz Z C Sf U I] M. pose proof M as [L H]. split.
  - congruence.
  - intros c p i q Hc Ha Hi Hq Hz. destruct (H _ _ Hc) as (p0 & Hc0 & Mp). destruct (H _ _ Hi) as (q0 & Hi0 & Mq).
    apply (Z c p0 i q0 Hc0 (mi_asleep _ _ _ Mp Ha) Hi0); [|by apply (mi_zombie _ _ _ Mq)]. by rewrite <- (mi_parent _ _ _ Mq).
  - intros c p Hc Ha. destruct (H _ _ Hc) as (p0 & Hc0 & Mp). destruct (C c p0 Hc0 (mi_asleep _ _ _ Mp Ha)) as (i & q & Hi & Hq).
    destruct (milder_table_lookup _ _ _ _ M Hi) as (q' & Hi' & Mq). exists i, q'. split; [done|]. by rewrite (mi_parent _ _ _ Mq).
  - intros i q Hi. destruct (H _ _ Hi) as (q0 & Hi0 & Mq). rewrite (mi_parent _ _ _ Mq). by apply (Sf i q0).
  - intros i q Hi Hq. destruct (H _ _ Hi) as (q0 & Hi0 & Mq). rewrite (mi_parent _ _ _ Mq). apply (U i q0 Hi0). by apply (mi_unused _ _ _ Mq).
  - destruct I as (p & Hp & P1 & P2 & P3). destruct (milder_table_lookup _ _ _ _ M Hp) as (p' & Hp' & Mp). exists p'.
    split; [done|]. rewrite (mi_parent _ _ _ Mp). split; [done|]. split; [intros E; apply P2; by apply (mi_unused _ _ _ Mp)|].
    intros E. apply P3. by apply (mi_zombie _ _ _ Mp).
Qed.

(** Changing one entry. *)
Lemma milder_alter t i f : (forall q, t !! i = Some q -> milder i q (f q)) -> milder_table t (alter f i t).
Proof.
  intros Hf. split; [apply length_alter|]. intros j q'. destruct (decide (j = i)) as [->|Hne].
  - rewrite list_lookup_alter_eq. destruct (t !! i) as [q|] eqn:E; [|done]. intros [= <-]. exists q. split; [done|by apply Hf].
  - rewrite list_lookup_alter_ne by done. intros H. exists q'. split; [done|apply milder_refl].
Qed.

Lemma milder_wakeup ch t : milder_table t (wakeup1_proc ch <$> t).
Proof.
  split; [apply length_fmap|]. intros i q'. rewrite list_lookup_fmap. destruct (t !! i) as [q|]; [|done]. intros [= <-]. exists q.
  split; [done|]. unfold wakeup1_proc. destruct (_ && _); [|apply milder_refl]. split; [done..|]. by intros [? _].
Qed.

(** ** Sequences of updates *)

Lemma out_state_bind {A B} (m : KM A) (f : A -> KM B) k k' :
  out_state (bind m f k) = Some k' -> (exists a k1, m k = Ok a k1 /\ out_state (f a k1) = Some k') \/ m k = Swtch k'.
Proof. unfold bind. destruct (m k) as [a k1| | |k1|]; cbn; try done; [left; by exists a, k1|]. intros [= ->]. by right. Qed.

(** [m] keeps a property of the table. *)
Definition stable {A} (P : list proc -> Prop) (m : KM A) : Prop :=
  forall k k', P (k_ptable k) -> out_state (m k) = Some k' -> P (k_ptable k').

Lemma stable_bind {A B} P (m : KM A) (f : A -> KM B) : stable P m -> (forall a, stable P (f a)) -> stable P (bind m f).
Proof.
  intros Hm Hf k k' HP H. destruct (out_state_bind _ _ _ _ H) as [(a & k1 & E & Hout)|E].
  - apply (Hf a k1 k'); [|done]. apply (Hm k k1 HP). by rewrite E.
  - apply (Hm k k' HP). by rewrite E.
Qed.

Lemma stable_still {A} P (m : KM A) : keeps k_ptable m -> stable P m.
Proof. intros Hm k k' HP H. by rewrite (Hm k k' H). Qed.

Lemma stable_upd P i f : (forall t, P t -> P (alter f i t)) -> stable P (upd_proc i f).
Proof. intros H k k' HP [= <-]. by apply H. Qed.

(** From here [m] only makes the table milder. *)
Definition gentle {A} (m : KM A) : Prop := forall t, stable (milder_table t) m.

Lemma gentle_bind {A B} (m : KM A) (f : A -> KM B) : gentle m -> (forall a, gentle (f a)) -> gentle (bind m f).
Proof. intros Hm Hf t. apply stable_bind; [apply Hm|intros a; apply Hf]. Qed.

Lemma gentle_still {A} (m : KM A) : keeps k_ptable m -> gentle m.
Proof. intros H t. by apply stable_still. Qed.

Lemma gentle_upd i f : (forall q, milder i q (f q)) -> gentle (upd_proc i f).
Proof. intros H t. apply stable_upd. intros t' Ht. etrans; [exact Ht|]. by apply milder_alter. Qed.

Lemma gentle_awake i s : s = RUNNABLE \/ s = RUNNING -> gentle (upd_proc i (set_p_state s)).
Proof. intros Hs. apply gentle_upd. intros q. destruct Hs as [-> | ->]; split; try done; by intros [? _]. Qed.

Lemma gentle_wakeup1 ch : gentle (wakeup1 ch).
Proof. intros t k k' Ht [= <-]. etrans; [exact Ht|]. apply milder_wakeup. Qed.

Lemma still_sched : keeps k_ptable sched.
Proof. unfold sched. keep_body. Qed.

Lemma gentle_family {A} init (m : KM A) k k' :
  gentle m -> family init (k_ptable k) -> out_state (m k) = Some k' -> family init (k_ptable k').
Proof. intros Hm Hf H. eapply milder_family; [exact Hf|]. by apply (Hm (k_ptable k) k k'). Qed.

Lemma gentle_wakeup ch : gentle (wakeup ch).
Proof.
  unfold wakeup. apply gentle_bind; [apply gentle_still, still_acquire|]. intros _.
  apply gentle_bind; [apply gentle_wakeup1|]. intros _. apply gentle_still, still_release.
Qed.

Lemma gentle_kill pid : gentle (kill pid).
Proof.
  unfold kill. apply gentle_bind; [apply gentle_still, still_acquire|]. intros _. generalize 0%nat.
  induction NPROC as [|n IH]; intros i; cbn [kill_scan].
  - apply gentle_bind; [apply gentle_still, still_release|]. intros _. apply gentle_still, keeps_ret.
  - apply gentle_bind; [apply gentle_still, keeps_get_proc|]. intros p. destruct (p_pid p =? pid); [|apply IH].
    apply gentle_bind; [apply gentle_upd; by split|]. intros _. apply gentle_bind.
    { unfold when. case_bool; [apply gentle_awake; by left|apply gentle_still, keeps_ret]. }
    intros _. apply gentle_bind; [apply gentle_still, still_release|]. intros _. apply gentle_still, keeps_ret.
Qed.

Lemma gentle_yield : gentle yield.
Proof.
  unfold yield. apply gentle_bind; [apply gentle_still, still_acquire|]. intros _. apply gentle_bind; [apply gentle_still, keeps_curproc|].
  intros c. apply gentle_bind; [apply gentle_awake; by left|]. intros _. apply gentle_bind; [apply gentle_still, still_sched|].
  intros _. apply gentle_still, still_release.
Qed.

(** Where [sleep] leaves the table. *)
Lemma sleep_table ch lk k k' c :
  k_cur k = Some c -> out_state (sleep ch lk k) = Some k' ->
  k_ptable k' = alter (set_p_state SLEEPING) c (alter (set_p_chan ch) c (k_ptable k)).
Proof.
  intros Hc H. unfold sleep in H. apply out_state_bind in H as [(k0 & k1 & [= <- <-] & H)|]; [|done]. unfold myproc in H. rewrite Hc in H.
  apply out_state_bind in H as [(u & k1 & E & H)|E]; [|exfalso; revert E; case_bool; [done|]; unfold bind, acquire, release; by repeat case_match].
  assert (Ht : k_ptable k1 = k_ptable k).
  { revert E. case_bool; [by intros [= _ <-]|]. intros E. apply bind_ok_inv in E as (u1 & k2 & E1 & E2).
    rewrite (still_release lk k2 k1) by (by rewrite E2). apply (still_acquire L_ptable k k2). by rewrite E1. }
  apply out_state_bind in H as [(u2 & k2 & [= _ <-] & H)|]; [|done]. apply out_state_bind in H as [(u3 & k3 & [= _ <-] & H)|]; [|done].
  apply out_state_bind in H as [(u4 & k4 & E4 & _)|E4]; [by apply sched_never_returns in E4|].
  pose proof (still_sched _ _ (f_equal out_state E4)) as Hs. rewrite Hs. cbn. by rewrite Ht.
Qed.

Lemma sleep_family init ch lk k k' c :
  k_cur k = Some c -> ch <> C_proc c -> family init (k_ptable k) -> (forall p, k_ptable k !! c = Some p -> p_state p = RUNNING) ->
  out_state (sleep ch lk k) = Some k' -> family init (k_ptable k').
Proof.
  intros Hc Hch Hf Hrun H. rewrite (sleep_table _ _ _ _ _ Hc H). rewrite alter_alter. eapply milder_family; [exact Hf|].
  apply milder_alter. intros q Hq. specialize (Hrun q Hq). split; [done|done|done|]. intros [_ E]. cbn in E. done.
Qed.

(** ** One entry that changes *)

(** The table [t'] is [t] but for the entry [j], for which [Q] holds. *)
Definition only_entry (j : nat) (Q : proc -> Prop) (t t' : list proc) : Prop :=
  length t' = length t /\ (forall i, i <> j -> t' !! i = t !! i) /\ (forall q', t' !! j = Some q' -> Q q').

Lemma only_entry_alter j (Q Q' : proc -> Prop) t t' f :
  only_entry j Q t t' -> (forall q, Q q -> Q' (f q)) -> only_entry j Q' t (alter f j t').
Proof.
  intros (L & Ho & HQ) Hf. split; [by rewrite length_alter|]. split; [intros i Hi; rewrite list_lookup_alter_ne by done; by apply Ho|].
  intros q'. rewrite list_lookup_alter_eq. destruct (t' !! j) as [q|] eqn:E; [|done]. intros [= <-]. by apply Hf, HQ.
Qed.

Lemma only_entry_refl j (Q : proc -> Prop) t : (forall q, t !! j = Some q -> Q q) -> only_entry j Q t t.
Proof. by intros H. Qed.

Lemma stable_entry j (Q : proc -> Prop) t f : (forall q, Q q -> Q (f q)) -> stable (only_entry j Q t) (upd_proc j f).
Proof. intros H. apply stable_upd. intros t' Ht. by eapply only_entry_alter. Qed.

(** The entry of a child of the running process [c] that is new, or that [wait] cleans up. *)
Record child_entry (c : nat) (q : proc) : Prop := {
  ce_parent : p_parent q = None \/ (p_parent q = Some c /\ p_state q <> UNUSED);
  ce_awake : p_state q <> SLEEPING }.

Lemma entry_family init c p j q t t' :
  family init t -> t !! c = Some p -> p_state p = RUNNING -> t !! j = Some q -> j <> c -> j <> init ->
  (p_parent q = None \/ p_parent q = Some c) ->
  only_entry j (child_entry c) t t' -> family init t'.
Proof.
  intros [Sz Z C Sf U I] Hc Hrun Hj Hjc Hji Hpar (L & Ho & HQ).
  assert (Hc' : t' !! c = Some p) by (rewrite Ho by done; done).
  assert (Hawake : forall c1 p1, t' !! c1 = Some p1 -> asleep_in_wait c1 p1 -> c1 <> j /\ c1 <> c).
  { intros c1 p1 H1 [Hs _]. split; intros ->; [by apply (ce_awake _ _ (HQ _ H1))|]. congruence. }
  split.
  - congruence.
  - intros c1 p1 i q1 H1 Ha Hi Hq Hz. destruct (Hawake _ _ H1 Ha) as [Hn1 Hn2]. rewrite Ho in H1 by done.
    destruct (decide (i = j)) as [->|Hij]; [|rewrite Ho in Hi by done; by apply (Z c1 p1 i q1)].
    destruct (ce_parent _ _ (HQ _ Hi)) as [E|[E _]]; congruence.
  - intros c1 p1 H1 Ha. destruct (Hawake _ _ H1 Ha) as [Hn1 Hn2]. rewrite Ho in H1 by done. destruct (C c1 p1 H1 Ha) as (i & q1 & Hi & Hq).
    exists i, q1. split; [|done]. rewrite Ho; [done|]. intros ->. rewrite Hj in Hi. injection Hi as ->. destruct Hpar; congruence.
  - intros i q1 Hi. destruct (decide (i = j)) as [->|Hij]; [|rewrite Ho in Hi by done; by apply (Sf i)].
    destruct (ce_parent _ _ (HQ _ Hi)) as [E|[E _]]; rewrite E; congruence.
  - intros i q1 Hi Hq. destruct (decide (i = j)) as [->|Hij]; [|rewrite Ho in Hi by done; by apply (U i)].
    by destruct (ce_parent _ _ (HQ _ Hi)) as [E|[_ E]].
  - destruct I as (p0 & H0 & I0). exists p0. split; [by rewrite Ho|done].
Qed.

(** ** wait *)

(** The entry that [wait] cleans up, before and after its parent is forgotten. *)
Definition reaping (c : nat) (q : proc) : Prop := p_parent q = Some c /\ p_state q = ZOMBIE.
Definition orphan (q : proc) : Prop := p_parent q = None /\ (p_state q = ZOMBIE \/ p_state q = UNUSED).

Lemma reaping_entry c q : reaping c q -> child_entry c q.
Proof. intros [A B]. split; [right|]; rewrite ?B; done. Qed.
Lemma orphan_entry c q : orphan q -> child_entry c q.
Proof. intros [A B]. split; [by left|]. destruct B as [-> | ->]; done. Qed.

Lemma only_entry_mono j (Q Q' : proc -> Prop) t t' : (forall q, Q q -> Q' q) -> only_entry j Q t t' -> only_entry j Q' t t'.
Proof. intros H (L & Ho & HQ). split; [done|]. split; [done|]. auto. Qed.

Lemma out_bind_upd {B} j f (g : unit -> KM B) k : out_state (bind (upd_proc j f) g k) = out_state (g tt (set_k_ptable (alter f j (k_ptable k)) k)).
Proof. done. Qed.

(** A call that leaves the table alone, and then more. *)
Lemma out_bind_still {A B} (m : KM A) (g : A -> KM B) k k' :
  keeps k_ptable m -> out_state (bind m g k) = Some k' ->
  k_ptable k' = k_ptable k \/ exists a k1, k_ptable k1 = k_ptable k /\ out_state (g a k1) = Some k'.
Proof.
  intros Hm H. destruct (out_state_bind _ _ _ _ H) as [(a & k1 & E & Hout)|E].
  - right. exists a, k1. split; [|done]. apply Hm. by rewrite E.
  - left. apply Hm. by rewrite E.
Qed.

Lemma reap_entry c j q k k' :
  k_ptable k !! j = Some q -> reaping c q -> out_state (reap j k) = Some k' -> only_entry j (child_entry c) (k_ptable k) (k_ptable k').
Proof.
  intros Hj Hq. unfold reap. rewrite (bind_ok _ _ _ _ _ (get_proc_ok k j q Hj)). cbv zeta.
  assert (H0 : only_entry j (reaping c) (k_ptable k) (k_ptable k)) by (apply only_entry_refl; intros q0 E; congruence).
  intros H. destruct (out_bind_still _ _ _ _ (still_kfree _) H) as [->|(u & k1 & Hk1 & H1)]; [by eapply only_entry_mono; [apply reaping_entry|]|].
  clear H. rewrite out_bind_upd in H1.
  destruct (out_bind_still _ _ _ _ (still_freevm _) H1) as [->|(u2 & k2 & Hk2 & H2)].
  { eapply only_entry_mono; [apply reaping_entry|]. cbn. rewrite Hk1. by eapply only_entry_alter. }
  clear H1. cbn in Hk2. do 2 rewrite out_bind_upd in H2. eapply only_entry_mono; [apply (orphan_entry c)|].
  match type of H2 with out_state (?m ?x) = _ => set (rest := m) in H2; set (k3 := x) in H2 end.
  assert (H3 : only_entry j orphan (k_ptable k) (k_ptable k3)).
  { unfold k3. cbn. rewrite Hk2, Hk1. eapply (only_entry_alter j (reaping c)); [|intros x [A B]; split; [done|by left]].
    do 2 (eapply (only_entry_alter j (reaping c)); [|done]). done. }
  assert (Hst : stable (only_entry j orphan (k_ptable k)) rest).
  { unfold rest. apply stable_bind; [apply stable_entry; done|]. intros _. apply stable_bind; [apply stable_entry; done|]. intros _.
    apply stable_bind; [apply stable_entry; intros x [A B]; split; [done|by right]|]. intros _.
    apply stable_bind; [apply stable_still, still_release|]. intros _. apply stable_still, keeps_ret. }
  by apply (Hst k3 k').
Qed.

(** The scan of [wait]: nothing is found, or a zombie child is cleaned up. *)
Lemma wait_scan_out n c : forall i kids k k',
  out_state (wait_scan n c i kids k) = Some k' ->
  (exists h, wait_scan n c i kids k = Ok (inr h) k /\ k' = k /\
     (h = true -> kids = true \/ exists j q, k_ptable k !! j = Some q /\ p_parent q = Some c) /\
     (forall j q, (i <= j < i + n)%nat -> k_ptable k !! j = Some q -> p_parent q = Some c -> p_state q <> ZOMBIE)) \/
  (exists j q, k_ptable k !! j = Some q /\ reaping c q /\ only_entry j (child_entry c) (k_ptable k) (k_ptable k') /\
     (forall h k1, wait_scan n c i kids k <> Ok (inr h) k1)).
Proof.
  induction n as [|n IH]; intros i kids k k'; cbn [wait_scan].
  - intros [= <-]. left. exists kids. split; [done|]. split; [done|]. split; [by left|]. intros; lia.
  - destruct (k_ptable k !! i) as [p|] eqn:Ei; [|by unfold bind, get_proc; rewrite Ei].
    rewrite !(bind_ok _ _ _ _ _ (get_proc_ok k i p Ei)).
    assert (Hnext : forall h', (p_parent p = Some c -> p_state p <> ZOMBIE) ->
      (h' = true -> kids = true \/ p_parent p = Some c) -> out_state (wait_scan n c (S i) h' k) = Some k' ->
      (exists h, wait_scan n c (S i) h' k = Ok (inr h) k /\ k' = k /\
         (h = true -> kids = true \/ exists j q, k_ptable k !! j = Some q /\ p_parent q = Some c) /\
         (forall j q, (i <= j < i + S n)%nat -> k_ptable k !! j = Some q -> p_parent q = Some c -> p_state q <> ZOMBIE)) \/
      (exists j q, k_ptable k !! j = Some q /\ reaping c q /\ only_entry j (child_entry c) (k_ptable k) (k_ptable k') /\
         (forall h k1, wait_scan n c (S i) h' k <> Ok (inr h) k1))).
    { intros h' Hz Hh H. destruct (IH _ _ _ _ H) as [(h & E & -> & Hk & Hs)|Hr]; [left|by right]. exists h. split; [done|]. split; [done|].
      split; [intros Hh'; destruct (Hk Hh') as [Hk'|?]; [|by right]; destruct (Hh Hk') as [?|?]; [by left|right; by exists i, p]|].
      intros j q Hj Hq Hp. destruct (decide (j = i)) as [->|]; [rewrite Ei in Hq; injection Hq as <-; auto|]. apply (Hs j q); [lia|done|done]. }
    destruct (bool_decide_reflect (p_parent p = Some c)) as [Hp|Hp]; cbn [negb]; [|by apply Hnext; [|auto]].
    destruct (bool_decide_reflect (p_state p = ZOMBIE)) as [Hz|Hz]; [|by apply Hnext; auto].
    intros H. right. exists i, p. split; [done|]. split; [done|]. split.
    + destruct (out_state_bind _ _ _ _ H) as [(pid & k1 & E & [= <-])|E]; (eapply reap_entry; [exact Ei|done|]); by rewrite E.
    + intros h k1 E. apply bind_ok_inv in E as (pid & k2 & _ & E). discriminate E.
Qed.

Definition running (k : kernel) (c : nat) : Prop := k_cur k = Some c /\ exists p, k_ptable k !! c = Some p /\ p_state p = RUNNING.

(** Going to sleep in [wait] with children, none of them a zombie. *)
Lemma sleep_in_wait_family init c p j q t :
  family init t -> t !! c = Some p -> t !! j = Some q -> p_parent q = Some c ->
  (forall j q, t !! j = Some q -> p_parent q = Some c -> p_state q <> ZOMBIE) ->
  family init (alter (fun x => set_p_state SLEEPING (set_p_chan (C_proc c) x)) c t).
Proof.
  intros [Sz Z C Sf U I] Hp Hj Hq Hz. set (t' := alter _ c t).
  assert (Hlk : forall i q', t' !! i = Some q' -> exists q0, t !! i = Some q0 /\ p_parent q' = p_parent q0 /\
    (i <> c -> q' = q0) /\ (i = c -> p_state q' = SLEEPING)).
  { intros i q'. unfold t'. destruct (decide (i = c)) as [->|Hi].
    - rewrite list_lookup_alter_eq, Hp. intros [= <-]. by exists p.
    - rewrite list_lookup_alter_ne by done. intros Hi'. by exists q'. }
  assert (Hch : forall i q, t !! i = Some q -> exists q', t' !! i = Some q' /\ p_parent q' = p_parent q).
  { intros i q1 Hi. destruct (lookup_lt_is_Some_2 t' i) as [q' Hq']; [unfold t'; rewrite length_alter; by eapply lookup_lt_Some|].
    exists q'. split; [done|]. destruct (Hlk _ _ Hq') as (q0 & Hq0 & -> & _). congruence. }
  split.
  - unfold t'. by rewrite length_alter.
  - intros c1 p1 i q1 H1 Ha Hi Hq1. destruct (Hlk _ _ Hi) as (q0 & Hq0 & Hpar & Hne & Heq). destruct (decide (i = c)) as [->|Hi'].
    { rewrite (Heq eq_refl). done. }
    rewrite (Hne Hi') in *. destruct (decide (c1 = c)) as [->|Hc1]; [by apply (Hz i q0)|].
    destruct (Hlk _ _ H1) as (p0 & Hp0 & _ & Hne1 & _). rewrite (Hne1 Hc1) in *. by apply (Z c1 p0 i q0).
  - intros c1 p1 H1 Ha. destruct (decide (c1 = c)) as [->|Hc1].
    { destruct (Hch j q Hj) as (q' & Hq' & Hpar). exists j, q'. split; [done|congruence]. }
    destruct (Hlk _ _ H1) as (p0 & Hp0 & _ & Hne1 & _). rewrite (Hne1 Hc1) in *. destruct (C c1 p0 Hp0 Ha) as (i & q1 & Hi & Hq1).
    destruct (Hch i q1 Hi) as (q' & Hq' & Hpar). exists i, q'. split; [done|congruence].
  - intros i q1 Hi. destruct (Hlk _ _ Hi) as (q0 & Hq0 & -> & _). by apply (Sf i q0).
  - intros i q1 Hi Hu. destruct (Hlk _ _ Hi) as (q0 & Hq0 & Hpar & Hne & Heq). destruct (decide (i = c)) as [->|Hi'].
    { rewrite (Heq eq_refl) in Hu. done. } rewrite (Hne Hi') in *. by apply (U i q0).
  - destruct I as (p0 & H0 & I1 & I2 & I3). destruct (Hch init p0 H0) as (q' & Hq' & Hpar). exists q'. split; [done|]. split; [congruence|].
    destruct (Hlk _ _ Hq') as (q0 & Hq0 & _ & Hne & Heq). assert (q0 = p0) as -> by congruence.
    destruct (decide (init = c)) as [->|Hi']; [rewrite (Heq eq_refl); done|by rewrite (Hne Hi')].
Qed.

(** Cleaning up a child of the running process. *)
Lemma reaped_family init c p j q t t' :
  family init t -> t !! c = Some p -> p_state p = RUNNING -> t !! j = Some q -> reaping c q ->
  only_entry j (child_entry c) t t' -> family init t'.
Proof.
  intros Hf Hp Hrun Hj [Hq1 Hq2] Ho. eapply (entry_family init c p j q); [done..| | |by right|done].
  - intros ->. by apply (fam_self _ _ Hf c q).
  - intros ->. destruct (fam_init _ _ Hf) as (p0 & H0 & I0 & _). congruence.
Qed.

(** What [wait] does after its scan. *)
Lemma wait_rest_family init c p k k' h :
  k_cur k = Some c -> k_ptable k !! c = Some p -> family init (k_ptable k) ->
  (h = true -> exists j q, k_ptable k !! j = Some q /\ p_parent q = Some c) ->
  (forall j q, k_ptable k !! j = Some q -> p_parent q = Some c -> p_state q <> ZOMBIE) ->
  out_state ((let! p := get_proc c in
    if negb h || p_killed p then release L_ptable ;;; ret (-1) else sleep_again (C_proc c) L_ptable) k) = Some k' ->
  family init (k_ptable k').
Proof.
  intros Hcur Hp Hf Hk Hz H. rewrite (bind_ok _ _ _ _ _ (get_proc_ok k c p Hp)) in H. destruct (negb h || p_killed p) eqn:Eh.
  - destruct (out_bind_still _ _ _ _ (still_release _) H) as [->|(u & k2 & Hk2 & [= <-])]; [done|by rewrite Hk2].
  - apply orb_false_iff in Eh as [Eh _]. apply negb_false_iff in Eh. destruct (Hk Eh) as (j & q & Hj & Hq).
    unfold sleep_again in H. apply out_state_bind in H as [(u & k2 & E2 & [=])|E2].
    rewrite (sleep_table (C_proc c) L_ptable k k' c Hcur (f_equal out_state E2)), alter_alter. by apply (sleep_in_wait_family init c p j q).
Qed.

Lemma wait_scan_family n init c k k' :
  running k c -> family init (k_ptable k) -> (length (k_ptable k) <= n)%nat ->
  out_state ((let! r := wait_scan n c 0 false in
    match r with
    | inl pid => ret pid
    | inr havekids =>
        let! p := get_proc c in
        if negb havekids || p_killed p then release L_ptable ;;; ret (-1) else sleep_again (C_proc c) L_ptable
    end) k) = Some k' -> family init (k_ptable k').
Proof.
  intros [Hcur (p & Hp & Hrun)] Hf Hn H. apply out_state_bind in H as [(r & k1 & E & H)|E].
  - destruct (wait_scan_out n c 0 false k k1 (f_equal out_state E)) as [(h & E' & -> & Hk & Hz)|(j & q & Hj & Hq & Ho & Hno)].
    + rewrite E' in E. injection E as <-. eapply (wait_rest_family init c p k k' h); [done..| | |exact H].
      * intros Hh. by destruct (Hk Hh) as [?|?].
      * intros j q Hj. apply (Hz j q); [|done]. pose proof (lookup_lt_Some _ _ _ Hj). lia.
    + destruct r as [pid|h]; [|by apply Hno in E]. injection H as <-. by eapply (reaped_family init c p j q).
  - destruct (wait_scan_out n c 0 false k k' (f_equal out_state E)) as [(h & E' & _)|(j & q & Hj & Hq & Ho & _)]; [by rewrite E in E'|].
    by eapply (reaped_family init c p j q).
Qed.

Lemma wait_from_family init c k k' :
  running k c -> family init (k_ptable k) -> out_state (wait_from c k) = Some k' -> family init (k_ptable k').
Proof. intros Hrun Hf. apply (wait_scan_family NPROC); [done|done|]. by rewrite (fam_size _ _ Hf). Qed.

(** ** exit *)

(** The table after [exit] of [c] has passed the first [n] entries' children to [init]. *)
Record passed (init c n : nat) (t t' : list proc) : Prop := {
  pa_size : length t' = length t;
  pa_entry i q' : t' !! i = Some q' -> exists q, t !! i = Some q /\
    p_parent q' = (if bool_decide (p_parent q = Some c) && (i <? n)%nat then Some init else p_parent q) /\
    (p_state q' = ZOMBIE <-> p_state q = ZOMBIE) /\ (p_state q' = UNUSED <-> p_state q = UNUSED) /\
    (asleep_in_wait i q' -> asleep_in_wait i q);
  pa_woken i q p' : (i < n)%nat -> t !! i = Some q -> p_parent q = Some c -> p_state q = ZOMBIE ->
    t' !! init = Some p' -> ~ asleep_in_wait init p' }.

Lemma passed_start init c t : passed init c 0 t t.
Proof.
  split; [done| |intros; lia]. intros i q' Hi. exists q'. split; [done|]. rewrite andb_false_r. done.
Qed.

(** An entry that is not a child of [c]. *)
Lemma passed_skip init c n t t' q' :
  passed init c n t t' -> t' !! n = Some q' -> p_parent q' <> Some c -> passed init c (S n) t t'.
Proof.
  intros [Sz E W] Hn Hne. split; [done| |].
  - intros i x Hi. destruct (E i x Hi) as (q & Hq & Hpar & Hrest). exists q. split; [done|]. split; [|done]. rewrite Hpar.
    destruct (decide (i = n)) as [->|Hin].
    + rewrite Hn in Hi. injection Hi as ->. rewrite Hpar, Nat.ltb_irrefl, andb_false_r in *.
      by rewrite bool_decide_eq_false_2 by done.
    + replace (i <? S n)%nat with (i <? n)%nat; [done|]. destruct (Nat.ltb_spec i n), (Nat.ltb_spec i (S n)); lia || done.
  - intros i q p' Hi Hq Hpar Hz. destruct (decide (i = n)) as [->|Hin]; [|apply (W i q p'); [lia|done..]].
    destruct (E n q' Hn) as (q0 & Hq0 & Hp0 & _). rewrite Nat.ltb_irrefl, andb_false_r in Hp0. assert (q0 = q) as -> by congruence. congruence.
Qed.

Lemma wakeup1_not_asleep i (t : list proc) p' : (wakeup1_proc (C_proc i) <$> t) !! i = Some p' -> ~ asleep_in_wait i p'.
Proof.
  rewrite list_lookup_fmap. destruct (t !! i) as [p|]; [|done]. intros [= <-] [Hs Hc]. unfold wakeup1_proc in *.
  destruct (bool_decide_reflect (p_state p = SLEEPING)) as [H1|H1]; cbn in *; [|done].
  destruct (bool_decide_reflect (p_chan p = C_proc i)) as [H2|H2]; cbn in *; [discriminate Hs|done].
Qed.

(** A child of [c] goes to [init], which wakes up if the child is a zombie. *)
Lemma passed_child init c n t t' q' :
  passed init c n t t' -> t' !! n = Some q' -> p_parent q' = Some c -> init <> c ->
  let t1 := alter (set_p_parent (Some init)) n t' in
  passed init c (S n) t (if bool_decide (p_state q' = ZOMBIE) then wakeup1_proc (C_proc init) <$> t1 else t1).
Proof.
  intros [Sz E W] Hn Hpar Hic t1.
  assert (E1 : forall i x, t1 !! i = Some x -> exists q, t !! i = Some q /\
    p_parent x = (if bool_decide (p_parent q = Some c) && (i <? S n)%nat then Some init else p_parent q) /\
    (p_state x = ZOMBIE <-> p_state q = ZOMBIE) /\ (p_state x = UNUSED <-> p_state q = UNUSED) /\ (asleep_in_wait i x -> asleep_in_wait i q)).
  { intros i x. unfold t1. destruct (decide (i = n)) as [->|Hin].
    - rewrite list_lookup_alter_eq, Hn. intros [= <-]. destruct (E n q' Hn) as (q & Hq & Hp & Hz & Hu & Ha). exists q. split; [done|].
      rewrite Nat.ltb_irrefl, andb_false_r in Hp. split; [|done]. rewrite bool_decide_eq_true_2 by congruence.
      by rewrite (proj2 (Nat.ltb_lt n (S n))) by lia.
    - rewrite list_lookup_alter_ne by done. intros Hi. destruct (E i x Hi) as (q & Hq & Hp & Hrest). exists q. split; [done|]. split; [|done].
      rewrite Hp. replace (i <? S n)%nat with (i <? n)%nat; [done|]. destruct (Nat.ltb_spec i n), (Nat.ltb_spec i (S n)); lia || done. }
  assert (Hasl : forall p', t1 !! init = Some p' -> asleep_in_wait init p' -> exists p0, t' !! init = Some p0 /\ asleep_in_wait init p0).
  { intros p' Hi Ha. unfold t1 in Hi. destruct (decide (init = n)) as [->|Hin].
    - rewrite list_lookup_alter_eq, Hn in Hi. injection Hi as <-. exists q'. split; [exact Hn|exact Ha].
    - rewrite list_lookup_alter_ne in Hi by done. by exists p'. }
  destruct (bool_decide_reflect (p_state q' = ZOMBIE)) as [Hz|Hz].
  - split.
    + rewrite length_fmap. unfold t1. by rewrite length_alter.
    + intros i x. rewrite list_lookup_fmap. destruct (t1 !! i) as [y|] eqn:Ey; [|done]. intros [= <-]. destruct (E1 i y Ey) as (q & Hq & Hp & Hzz & Hu & Ha).
      exists q. split; [done|]. unfold wakeup1_proc. destruct (bool_decide (p_state y = SLEEPING) && _) eqn:Ew; [|exact (conj Hp (conj Hzz (conj Hu Ha)))]. apply andb_true_iff in Ew as [Ew _].
      apply bool_decide_eq_true in Ew. cbn. split; [done|]. rewrite Ew in Hzz, Hu.
      split; [split; [done|intros Hx; by apply Hzz in Hx]|]. split; [split; [done|intros Hx; by apply Hu in Hx]|]. by intros [? _].
    + intros i q p' _ _ _ _ Hi. by eapply wakeup1_not_asleep.
  - split.
    + unfold t1. by rewrite length_alter.
    + exact E1.
    + intros i q p' Hi Hq Hp Hzq Hp' Ha. destruct (decide (i = n)) as [->|Hin].
      * destruct (E n q' Hn) as (q0 & Hq0 & _ & Hzz & _). assert (q0 = q) as -> by congruence. by apply Hz, Hzz.
      * destruct (Hasl p' Hp' Ha) as (p0 & Hp0 & Ha0). by apply (W i q p0 ltac:(lia) Hq Hp Hzq Hp0).
Qed.

Lemma reparent_out init c n : forall i t k k',
  k_initproc k = Some init -> init <> c -> passed init c i t (k_ptable k) -> out_state (reparent n c i k) = Some k' ->
  passed init c (i + n) t (k_ptable k') /\ exists u, reparent n c i k = Ok u k'.
Proof.
  induction n as [|n IH]; intros i t k k' Hi Hic Hp; cbn [reparent].
  - intros [= <-]. rewrite Nat.add_0_r. split; [done|by exists tt].
  - destruct (k_ptable k !! i) as [q'|] eqn:Eq; [|by unfold bind, get_proc; rewrite Eq].
    rewrite !(bind_ok _ _ _ _ _ (get_proc_ok k i q' Eq)). replace (i + S n)%nat with (S i + n)%nat by lia.
    destruct (bool_decide_reflect (p_parent q' = Some c)) as [Hq|Hq].
    + set (t1 := alter (set_p_parent (Some init)) i (k_ptable k)).
      set (k1 := set_k_ptable (if bool_decide (p_state q' = ZOMBIE) then wakeup1_proc (C_proc init) <$> t1 else t1) k).
      assert (E1 : (let! k := get in upd_proc i (set_p_parent (k_initproc k)) ;;;
        when (bool_decide (p_state q' = ZOMBIE)) (wakeup1 (proc_chan (k_initproc k)))) k = Ok tt k1).
      { unfold bind, get, upd_proc, modify, when, wakeup1, ret. rewrite Hi. unfold k1, t1, proc_chan. by destruct (bool_decide _). }
      rewrite (bind_ok _ _ _ _ _ E1). apply (IH (S i) t k1 k'); [done|done|]. by apply (passed_child init c i t (k_ptable k) q').
    + rewrite (bind_ok (ret tt) _ tt k k) by done. apply (IH (S i) t k k'); [done|done|]. by eapply passed_skip.
Qed.

(** The zombie and the children it leaves behind. *)
Lemma exit_family init c p t t2 :
  family init t -> t !! c = Some p -> init <> c ->
  (forall a p', p_parent p = Some a -> t !! a = Some p' -> ~ asleep_in_wait a p') ->
  passed init c NPROC t t2 -> family init (alter (set_p_state ZOMBIE) c t2).
Proof.
  intros Hf Hp Hic Hpar [L E W]. pose proof Hf as [Sz Z C Sf U I]. set (t3 := alter _ c t2).
  assert (H3 : forall i q3, t3 !! i = Some q3 -> exists q2 q, t2 !! i = Some q2 /\ t !! i = Some q /\ p_parent q3 = p_parent q2 /\
    (i <> c -> q3 = q2) /\ (i = c -> p_state q3 = ZOMBIE /\ p_parent q3 = p_parent p)).
  { intros i q3. unfold t3. destruct (decide (i = c)) as [->|Hi].
    - rewrite list_lookup_alter_eq. destruct (t2 !! c) as [q2|] eqn:E2; [|done]. intros [= <-]. destruct (E c q2 E2) as (q & Hq & Hp2 & _).
      exists q2, q. split; [done|]. split; [done|]. split; [done|]. split; [done|]. intros _. split; [done|]. cbn. rewrite Hp2.
      assert (q = p) as -> by congruence. rewrite bool_decide_eq_false_2; [done|]. by apply (Sf c p).
    - rewrite list_lookup_alter_ne by done. intros E2. destruct (E i q3 E2) as (q & Hq & _). by exists q3, q. }
  assert (Hlt : forall i q, t !! i = Some q -> (i <? NPROC)%nat = true).
  { intros i q Hi. apply Nat.ltb_lt. rewrite <- Sz. by eapply lookup_lt_Some. }
  assert (Hkeep : forall i q, t !! i = Some q -> p_parent q <> Some c -> exists q3, t3 !! i = Some q3 /\ p_parent q3 = p_parent q).
  { intros i q Hi Hne. destruct (lookup_lt_is_Some_2 t3 i) as [q3 Hq3]; [unfold t3; rewrite length_alter, L; by eapply lookup_lt_Some|].
    exists q3. split; [done|]. destruct (H3 _ _ Hq3) as (q2 & q0 & Hq2 & Hq0 & -> & _). destruct (E i q2 Hq2) as (q1 & Hq1 & -> & _).
    assert (q1 = q) as -> by congruence. by rewrite bool_decide_eq_false_2. }
  split.
  - unfold t3. by rewrite length_alter, L.
  - intros c1 p3 i q3 H1 Ha Hi Hq Hz. destruct (H3 _ _ H1) as (p2 & p1 & Hp2 & Hp1 & _ & Hn1 & He1).
    assert (Hc1 : c1 <> c) by (intros ->; destruct (He1 eq_refl) as [Hx _]; destruct Ha as [Ha _]; congruence).
    rewrite (Hn1 Hc1) in *. destruct (E c1 p2 Hp2) as (p1' & Hp1' & _ & _ & _ & Ha1). assert (p1' = p1) as -> by congruence.
    destruct (H3 _ _ Hi) as (q2 & q & Hq2 & Hq' & Hpq & Hnq & Heq). destruct (decide (i = c)) as [->|Hic'].
    + destruct (Heq eq_refl) as [_ Hpp]. apply (Hpar c1 p1); [congruence|done|auto].
    + rewrite (Hnq Hic') in *. destruct (E i q2 Hq2) as (q0 & Hq0 & Hp0 & Hz0 & _). assert (q0 = q) as -> by congruence.
      rewrite (Hlt i q Hq0), andb_true_r in Hp0. destruct (bool_decide_reflect (p_parent q = Some c)) as [Hqc|Hqc].
      * assert (c1 = init) as -> by congruence. apply (W i q p2); [|done|done|by apply Hz0|done|done]. by apply Nat.ltb_lt, (Hlt i q).
      * apply (Z c1 p1 i q); [done|auto|done|congruence|by apply Hz0].
  - intros c1 p3 H1 Ha. destruct (H3 _ _ H1) as (p2 & p1 & Hp2 & Hp1 & _ & Hn1 & He1).
    assert (Hc1 : c1 <> c) by (intros ->; destruct (He1 eq_refl) as [Hx _]; destruct Ha as [Ha _]; congruence).
    rewrite (Hn1 Hc1) in *. destruct (E c1 p2 Hp2) as (p1' & Hp1' & _ & _ & _ & Ha1). assert (p1' = p1) as -> by congruence.
    destruct (C c1 p1 Hp1 (Ha1 Ha)) as (i & q & Hi & Hq). destruct (Hkeep i q Hi) as (q3 & Hq3 & Hp3); [congruence|].
    exists i, q3. split; [done|congruence].
  - intros i q3 Hi. destruct (H3 _ _ Hi) as (q2 & q & Hq2 & Hq & Hpq & _). destruct (E i q2 Hq2) as (q0 & Hq0 & Hp0 & _).
    assert (q0 = q) as -> by congruence. rewrite Hpq, Hp0. destruct (bool_decide_reflect (p_parent q = Some c)) as [Hqc|Hqc]; cbn [andb].
    + rewrite (Hlt i q Hq). intros [= <-]. destruct I as (pi & Hpi & I1 & _). congruence.
    + by apply (Sf i q).
  - intros i q3 Hi Hu. destruct (H3 _ _ Hi) as (q2 & q & Hq2 & Hq & Hpq & Hnq & Heq). destruct (decide (i = c)) as [->|Hic'].
    { destruct (Heq eq_refl) as [Hx _]. congruence. } rewrite (Hnq Hic') in *.
    destruct (E i q2 Hq2) as (q0 & Hq0 & Hp0 & _ & Hu0 & _). assert (q0 = q) as -> by congruence. apply Hu0 in Hu. rewrite Hp0, (U i q Hq Hu). done.
  - destruct I as (p0 & H0 & I1 & I2 & I3). destruct (Hkeep init p0 H0) as (q3 & Hq3 & Hp3); [congruence|]. exists q3. split; [done|].
    split; [congruence|]. destruct (H3 _ _ Hq3) as (q2 & q & Hq2 & Hq & _ & Hnq & _). rewrite (Hnq Hic) in *.
    destruct (E init q2 Hq2) as (q0 & Hq0 & _ & Hz0 & Hu0 & _). assert (q0 = p0) as -> by congruence.
    split; [intros Hx; by apply I2, Hu0|intros Hx; by apply I3, Hz0].
Qed.

Lemma exit_zombie_family init c p k k' :
  k_initproc k = Some init -> init <> c -> k_ptable k !! c = Some p -> family init (k_ptable k) ->
  out_state (exit_zombie c k) = Some k' -> family init (k_ptable k').
Proof.
  intros Hi Hic Hp Hf H. unfold exit_zombie in H. apply out_state_bind in H as [(u & k1 & E1 & H)|E1].
  2: { by rewrite (still_acquire L_ptable k k') by (by rewrite E1). }
  assert (Ht1 : k_ptable k1 = k_ptable k) by (apply (still_acquire L_ptable); by rewrite E1).
  assert (Hi1 : k_initproc k1 = Some init) by (revert E1; unfold acquire; case_bool; [done|]; by intros [= _ <-]).
  rewrite (bind_ok _ _ _ _ _ (get_proc_ok k1 c p ltac:(by rewrite Ht1))) in H.
  unfold wakeup1 at 1 in H. unfold bind at 1, modify at 1 in H. set (k2 := set_k_ptable (wakeup1_proc _ <$> _) k1) in H.
  assert (Hf2 : family init (k_ptable k2)) by (unfold k2; cbn; rewrite Ht1; eapply milder_family; [exact Hf|apply milder_wakeup]).
  assert (Hp2 : k_ptable k2 !! c = Some (wakeup1_proc (proc_chan (p_parent p)) p)).
  { unfold k2. cbn. by rewrite list_lookup_fmap, Ht1, Hp. }
  assert (Hpar : p_parent (wakeup1_proc (proc_chan (p_parent p)) p) = p_parent p) by (unfold wakeup1_proc; by destruct (_ && _)).
  assert (Hw : forall a p', p_parent p = Some a -> k_ptable k2 !! a = Some p' -> ~ asleep_in_wait a p').
  { intros a p' Ha. unfold k2. cbn. rewrite Ha. apply wakeup1_not_asleep. }
  set (n := NPROC) in H. assert (Hn : n = NPROC) by done. clearbody n.
  apply out_state_bind in H as [(u3 & k3 & E3 & H)|E3]; destruct (reparent_out init c n 0 (k_ptable k2) k2 _ Hi1 Hic (passed_start _ _ _) (f_equal out_state E3)) as [Hpa (u' & E')].
  2: { by rewrite E' in E3. }
  rewrite out_bind_upd in H. set (k4 := set_k_ptable _ k3) in H.
  assert (Hf4 : family init (k_ptable k4)).
  { unfold k4. cbn. apply (exit_family init c (wakeup1_proc (proc_chan (p_parent p)) p) (k_ptable k2)); [done|done|done| |by rewrite <- Hn].
    intros a p'. rewrite Hpar. apply Hw. }
  destruct (out_bind_still _ _ _ _ still_sched H) as [->|(u5 & k5 & Hk5 & [=])]. done.
Qed.

(** ** fork *)

(** The entry of the new process, before and after it has its parent. *)
Definition newborn (q : proc) : Prop := p_parent q = None /\ (p_state q = UNUSED \/ p_state q = EMBRYO).
Definition born (c : nat) (q : proc) : Prop := p_parent q = Some c /\ (p_state q = EMBRYO \/ p_state q = RUNNABLE).

Lemma newborn_entry c q : newborn q -> child_entry c q.
Proof. intros [A B]. split; [by left|]. destruct B as [-> | ->]; done. Qed.
Lemma born_entry c q : born c q -> child_entry c q.
Proof. intros [A B]. split; [right; split; [done|]|]; destruct B as [-> | ->]; done. Qed.

Lemma free_proc_unused ps : forall i j, free_proc ps i = Some j -> exists n q, j = (i + n)%nat /\ ps !! n = Some q /\ p_state q = UNUSED.
Proof.
  induction ps as [|p ps IH]; intros i j; cbn [free_proc]; [done|]. destruct (bool_decide_reflect (p_state p = UNUSED)) as [H|H].
  - intros [= <-]. exists 0%nat, p. split; [lia|done].
  - intros Hj. destruct (IH _ _ Hj) as (n & q & -> & Hq & Hs). exists (S n), q. split; [lia|done].
Qed.

Lemma dup_files_stable np (P : proc -> Prop) t files : (forall q f, P q -> P (set_p_ofile f q)) ->
  forall i, stable (only_entry np P t) (dup_files np files i).
Proof.
  intros HP. induction files as [|o files IH]; intros i; cbn [dup_files]; [apply stable_still, keeps_ret|].
  apply stable_bind; [|intros _; apply IH]. destruct o as [f|]; [|apply stable_still, keeps_ret].
  apply stable_bind; [apply stable_still, still_filedup|]. intros f'. apply stable_entry. intros q. apply HP.
Qed.

(** What [fork] does to the entry it took, once it is marked EMBRYO. *)
Lemma fork_rest_entry c np p pgdir t k k' :
  only_entry np newborn t (k_ptable k) ->
  (forall q, k_ptable k !! np = Some q -> p_state q = EMBRYO) ->
  out_state ((upd_proc np (set_p_pgdir pgdir) ;;;
      if pgdir =? 0 then
        let! n := get_proc np in
        kfree (p_kstack n) ;;; upd_proc np (set_p_kstack 0) ;;; upd_proc np (set_p_state UNUSED) ;;; ret (-1)
      else
        upd_proc np (set_p_sz (p_sz p)) ;;; upd_proc np (set_p_parent (Some c)) ;;; upd_proc np (set_p_tf (set_tf_eax 0 (p_tf p))) ;;;
        dup_files np (p_ofile p) 0 ;;;
        let! cwd := deref (p_cwd p) in
        let! cwd := idup cwd in
        upd_proc np (set_p_cwd (Some cwd)) ;;;
        upd_proc np (fun n => set_p_name (copy_name (upto_nul (p_name p)) (p_name n)) n) ;;;
        let! n := get_proc np in
        acquire L_ptable ;;; upd_proc np (set_p_state RUNNABLE) ;;; release L_ptable ;;; ret (p_pid n)) k) = Some k' ->
  only_entry np (child_entry c) t (k_ptable k').
Proof.
  intros H0 He H. rewrite out_bind_upd in H. set (k1 := set_k_ptable _ k) in H.
  assert (H1 : only_entry np (fun q => newborn q /\ p_state q = EMBRYO) t (k_ptable k1)).
  { unfold k1. cbn. destruct H0 as (L & Ho & HQ). eapply (only_entry_alter np (fun q => newborn q /\ p_state q = EMBRYO)); [|done].
    split; [done|]. split; [done|]. intros q Hq. split; [by apply HQ|by apply He]. }
  destruct (pgdir =? 0).
  - eapply only_entry_mono; [apply (newborn_entry c)|].
    assert (Hst : stable (only_entry np newborn t) (let! n := get_proc np in
        kfree (p_kstack n) ;;; upd_proc np (set_p_kstack 0) ;;; upd_proc np (set_p_state UNUSED) ;;; ret (-1))).
    { apply stable_bind; [apply stable_still, keeps_get_proc|]. intros n. apply stable_bind; [apply stable_still, still_kfree|]. intros _.
      apply stable_bind; [by apply stable_entry|]. intros _.
      apply stable_bind; [apply stable_entry; intros q [A B]; split; [done|by left]|]. intros _. apply stable_still, keeps_ret. }
    apply (Hst k1 k'); [|exact H]. eapply only_entry_mono; [|exact H1]. by intros q [? _].
  - eapply only_entry_mono; [apply (born_entry c)|]. do 2 rewrite out_bind_upd in H. cbn [k_ptable set_k_ptable] in H.
    match type of H with out_state (?m ?x) = _ => set (rest := m) in H; set (k2 := x) in H end.
    assert (H2 : only_entry np (born c) t (k_ptable k2)).
    { unfold k2. cbn. eapply (only_entry_alter np (fun q => newborn q /\ p_state q = EMBRYO)); [|by intros q [_ B]; split; [|left]].
      eapply only_entry_alter; [exact H1|]. intros q [A B]. done. }
    apply (fun Hst : stable (only_entry np (born c) t) rest => Hst k2 k' H2 H). unfold rest.
    apply stable_bind; [by apply stable_entry|]. intros _.
    apply stable_bind; [by apply dup_files_stable|]. intros _. apply stable_bind; [apply stable_still, keeps_deref|]. intros cwd.
    apply stable_bind; [apply stable_still, still_idup|]. intros cwd'. apply stable_bind; [by apply stable_entry|]. intros _.
    apply stable_bind; [by apply stable_entry|]. intros _. apply stable_bind; [apply stable_still, keeps_get_proc|]. intros n.
    apply stable_bind; [apply stable_still, still_acquire|]. intros _.
    apply stable_bind; [apply stable_entry; intros q [A B]; split; [done|by right]|]. intros _.
    apply stable_bind; [apply stable_still, still_release|]. intros _. apply stable_still, keeps_ret.
Qed.

(** [m] takes tables of [P] to tables of [Q] of its result, or of [W] when it gives the
    processor up. *)
Definition hoare {A} (W P : list proc -> Prop) (m : KM A) (Q : A -> list proc -> Prop) : Prop :=
  forall k, P (k_ptable k) -> match m k with Ok a k' => Q a (k_ptable k') | Swtch k' => W (k_ptable k') | _ => True end.

Lemma hoare_bind {A B} W P (m : KM A) (R : A -> list proc -> Prop) (f : A -> KM B) Q :
  hoare W P m R -> (forall a, hoare W (R a) (f a) Q) -> hoare W P (bind m f) Q.
Proof. intros Hm Hf k HP. specialize (Hm k HP). unfold bind. destruct (m k); try done. by apply Hf. Qed.

Lemma hoare_still {A} (W P : list proc -> Prop) (m : KM A) : (forall t, P t -> W t) -> keeps k_ptable m -> hoare W P m (fun _ => P).
Proof.
  intros HW Hm k HP. specialize (Hm k). destruct (m k) as [a k'| | |k'|]; try done.
  - by rewrite (Hm k' eq_refl).
  - rewrite (Hm k' eq_refl). by apply HW.
Qed.

Lemma hoare_upd W (P Q : list proc -> Prop) i f : (forall t, P t -> Q (alter f i t)) -> hoare W P (upd_proc i f) (fun _ => Q).
Proof. intros H k HP. by apply H. Qed.

Lemma hoare_ret {A} W (a : A) Q : hoare W (Q a) (ret a) Q.
Proof. by intros k. Qed.

Section Fork.
Context (forkret_addr : Z).

Definition embryo (q : proc) : Prop := newborn q /\ p_state q = EMBRYO.

(** What [allocproc] does with the free entry [n]. *)
Lemma alloc_entry t n pid :
  (forall q, t !! n = Some q -> newborn q) ->
  hoare (only_entry n newborn t) (fun t' => t' = t)
    (upd_proc n (set_p_state EMBRYO) ;;;
     upd_proc n (set_p_pid pid) ;;;
     modify (set_k_nextpid (i32 (pid + 1))) ;;;
     release L_ptable ;;;
     let! kstack := kalloc in
     upd_proc n (set_p_kstack kstack) ;;;
     if kstack =? 0 then upd_proc n (set_p_state UNUSED) ;;; ret None
     else upd_proc n (set_p_context (mk_context 0 0 0 0 forkret_addr)) ;;; ret (Some n))
    (fun r t' => match r with Some m => m = n /\ only_entry n embryo t t' | None => only_entry n newborn t t' end).
Proof.
  intros Hn. assert (He : forall t', only_entry n embryo t t' -> only_entry n newborn t t') by (intros t'; apply only_entry_mono; by intros q [? _]).
  assert (Hk : forall f, (forall q, embryo q -> embryo (f q)) ->
    hoare (only_entry n newborn t) (only_entry n embryo t) (upd_proc n f) (fun _ => only_entry n embryo t)).
  { intros f Hf. apply hoare_upd. intros t' Ht'. by eapply only_entry_alter. }
  eapply hoare_bind with (R := fun _ => only_entry n embryo t).
  { apply hoare_upd. intros t' ->. eapply (only_entry_alter n newborn); [by apply only_entry_refl|]. intros q [A _]. split; [split; [done|by right]|done]. }
  intros ?; cbv beta. eapply hoare_bind; [by apply Hk|]. intros ?; cbv beta. eapply hoare_bind; [apply hoare_still; [done|by apply still_modify]|]. intros ?; cbv beta.
  eapply hoare_bind; [apply hoare_still; [done|apply still_release]|]. intros ?; cbv beta.
  eapply hoare_bind; [apply hoare_still; [done|apply still_kalloc]|]. intros kstack; cbv beta.
  eapply hoare_bind; [by apply Hk|]. intros ?; cbv beta. destruct (kstack =? 0).
  - eapply hoare_bind with (R := fun _ => only_entry n newborn t); [|by intros ? k Hk0].
    apply hoare_upd. intros t' Ht'. eapply only_entry_alter; [exact Ht'|]. intros q [[A _] _]. split; [done|by left].
  - eapply hoare_bind; [by apply Hk|]. intros ? k Ht'. by split.
Qed.

(** [allocproc] leaves the table alone, or takes a free entry of it. *)
Lemma allocproc_out init k k' : family init (k_ptable k) -> out_state (allocproc forkret_addr k) = Some k' ->
  (k_ptable k' = k_ptable k /\ forall np k1, allocproc forkret_addr k <> Ok (Some np) k1) \/
  exists np q, k_ptable k !! np = Some q /\ p_state q = UNUSED /\ only_entry np newborn (k_ptable k) (k_ptable k') /\
    forall m k1, allocproc forkret_addr k = Ok (Some m) k1 -> m = np /\ only_entry np embryo (k_ptable k) (k_ptable k1).
Proof.
  intros Hf H. destruct (allocproc forkret_addr k) as [r k1'| | |k1'|] eqn:Ea; try discriminate H; injection H as ->.
  all: unfold allocproc in Ea; unfold bind at 1 in Ea; destruct (acquire L_ptable k) as [u k1| | |k1|] eqn:E1; try discriminate Ea.
  3: exfalso; revert E1; unfold acquire; by case_bool.
  all: assert (Ht1 : k_ptable k1 = k_ptable k) by (apply (still_acquire L_ptable); by rewrite E1).
  all: unfold bind at 1, get in Ea; destruct (free_proc (k_ptable k1) 0) as [np|] eqn:Efree.
  4: exfalso; revert Ea; unfold bind, release; by case_bool.
  2: { revert Ea. unfold bind, release. case_bool; [|done]. intros Ex. inversion Ex; subst. left. split; [by rewrite <- Ht1|done]. }
  all: right; destruct (free_proc_unused _ _ _ Efree) as (n & q & -> & Hq & Hu); cbn [Nat.add] in *; rewrite Ht1 in Hq;
    exists n, q; split; [done|]; split; [done|];
    (assert (Hnb : forall q0, k_ptable k !! n = Some q0 -> newborn q0)
      by (intros q0 E0; assert (q0 = q) as -> by congruence; split; [by apply (fam_unused _ _ Hf n q)|by left]));
    pose proof (alloc_entry (k_ptable k) n (k_nextpid k1) Hnb k1 Ht1) as Ho; rewrite Ea in Ho.
  - destruct r as [m|].
    + destruct Ho as [-> Ho]. split; [eapply only_entry_mono; [|exact Ho]; by intros x [? _]|]. by intros m k2 [= <- <-].
    + split; [done|]. done.
  - split; [done|]. done.
Qed.

Lemma fork_family init c k k' :
  running k c -> family init (k_ptable k) -> out_state (fork forkret_addr k) = Some k' -> family init (k_ptable k').
Proof.
  intros [Hcur (p & Hp & Hrun)] Hf H. unfold fork in H. rewrite (bind_ok _ _ _ _ _ (curproc_ok k c Hcur)) in H.
  assert (Hent : forall np q t', k_ptable k !! np = Some q -> p_state q = UNUSED -> only_entry np (child_entry c) (k_ptable k) t' -> family init t').
  { intros np q t' Hq Hu Ho. eapply (entry_family init c p np q); [done..| | | |done].
    - intros ->. congruence.
    - intros ->. destruct (fam_init _ _ Hf) as (p0 & H0 & _ & I2 & _). congruence.
    - left. by apply (fam_unused _ _ Hf np q). }
  apply out_state_bind in H as [(r & k1 & E1 & H)|E1].
  - destruct (allocproc_out init k k1 Hf (f_equal out_state E1)) as [[Ht Hno]|(np & q & Hq & Hu & Ho & Hs)].
    + destruct r as [np|]; [by apply Hno in E1|]. injection H as <-. by rewrite Ht.
    + destruct r as [m|]; [|injection H as <-; eapply Hent; [done..|]; eapply only_entry_mono; [|exact Ho]; apply newborn_entry].
      destruct (Hs m k1 E1) as [-> He]. assert (Hnc : np <> c) by (intros ->; congruence).
      assert (Hpc : k_ptable k1 !! c = Some p) by (destruct He as (_ & He & _); rewrite He; [done|congruence]).
      rewrite (bind_ok _ _ _ _ _ (get_proc_ok k1 c p Hpc)) in H.
      destruct (out_bind_still _ _ _ _ (still_copyuvm _ _) H) as [->|(pgdir & k2 & Hk2 & H2)].
      { eapply Hent; [done..|]. eapply only_entry_mono; [|exact Ho]. apply newborn_entry. }
      eapply Hent; [done..|]. apply (fork_rest_entry c np p pgdir (k_ptable k) k2 k'); [by rewrite Hk2| |exact H2].
      intros q'. rewrite Hk2. intros Hq'. destruct He as (_ & _ & He). by apply He.
  - destruct (allocproc_out init k k' Hf (f_equal out_state E1)) as [[Ht _]|(np & q & Hq & Hu & Ho & _)]; [by rewrite Ht|].
    eapply Hent; [done..|]. eapply only_entry_mono; [|exact Ho]. apply newborn_entry.
Qed.

End Fork.

(** ** The life of processes *)

Section Steps.
Context (forkret_addr : Z) (init : nat).

(** What the kernel does to the process table: the system calls of the running process,
    the places where it gives the processor up, the scheduler, and interrupts. *)
Inductive pstep (k : kernel) : kernel -> Prop :=
| p_fork c k' : running k c -> out_state (fork forkret_addr k) = Some k' -> pstep k k'
| p_exit c k' : running k c -> k_initproc k = Some init -> init <> c -> out_state (exit_zombie c k) = Some k' -> pstep k k'
| p_wait c k' : running k c -> out_state (wait k) = Some k' -> pstep k k'
| p_wait_woken c k' : running k c -> out_state ((sleep_return c L_ptable ;;; wait_from c) k) = Some k' -> pstep k k'
| p_sleep c ch lk k' : running k c -> ch <> C_proc c -> out_state (sleep ch lk k) = Some k' -> pstep k k'
| p_woken c lk k' : running k c -> out_state (sleep_return c lk k) = Some k' -> pstep k k'
| p_yield c k' : running k c -> out_state (yield k) = Some k' -> pstep k k'
| p_kill pid k' : out_state (kill pid k) = Some k' -> pstep k k'
| p_wakeup ch k' : out_state (wakeup ch k) = Some k' -> pstep k k'
| p_switch i p k' : k_ptable k !! i = Some p -> p_state p = RUNNABLE ->
    k' = set_k_cur (Some i) (set_k_ptable (alter (set_p_state RUNNING) i (k_ptable k)) k) -> pstep k k'
| p_other k' : k_ptable k' = k_ptable k -> pstep k k'.

Lemma gentle_sleep_return c lk : gentle (sleep_return c lk).
Proof.
  unfold sleep_return. apply gentle_bind; [apply gentle_upd; intros q; split; try done; by intros [_ ?]|]. intros _.
  case_bool; [apply gentle_still, keeps_ret|]. apply gentle_bind; [apply gentle_still, still_release|]. intros _. apply gentle_still, still_acquire.
Qed.

Lemma wait_family c k k' : running k c -> family init (k_ptable k) -> out_state (wait k) = Some k' -> family init (k_ptable k').
Proof.
  intros [Hcur (p & Hp & Hrun)] Hf H. unfold wait in H. rewrite (bind_ok _ _ _ _ _ (curproc_ok k c Hcur)) in H.
  apply out_state_bind in H as [(u & k1 & E & H)|E]; [|by rewrite (still_acquire L_ptable k k' (f_equal out_state E))].
  assert (Ht : k_ptable k1 = k_ptable k) by (apply (still_acquire L_ptable); by rewrite E).
  assert (Hc1 : k_cur k1 = k_cur k) by (revert E; unfold acquire; case_bool; [done|]; by intros [= _ <-]).
  apply (wait_from_family init c k1 k'); [|by rewrite Ht|done]. split; [by rewrite Hc1|]. exists p. by rewrite Ht.
Qed.

Lemma wait_woken_family c k k' :
  running k c -> family init (k_ptable k) -> out_state ((sleep_return c L_ptable ;;; wait_from c) k) = Some k' -> family init (k_ptable k').
Proof.
  intros [Hcur (p & Hp & Hrun)] Hf H.
  assert (E : sleep_return c L_ptable k = Ok tt (set_k_ptable (alter (set_p_chan C_none) c (k_ptable k)) k)) by done.
  rewrite (bind_ok _ _ _ _ _ E) in H.
  eapply wait_from_family; [| |exact H].
  - split; [done|]. exists (set_p_chan C_none p). cbn. by rewrite list_lookup_alter_eq, Hp.
  - cbn. eapply milder_family; [exact Hf|]. apply milder_alter. intros q _. split; try done. by intros [_ ?].
Qed.

Lemma pstep_family k k' : family init (k_ptable k) -> pstep k k' -> family init (k_ptable k').
Proof.
  intros Hf [c k1 Hr H|c k1 [Hcur (p & Hp & _)] Hi Hne H|c k1 Hr H|c k1 Hr H|c ch lk k1 [Hcur (p & Hp & Hrun)] Hch H|c lk k1 Hr H|c k1 Hr H|pid k1 H|ch k1 H|i p k1 Hp Hs ->|k1 E].
  - by eapply fork_family.
  - by eapply exit_zombie_family.
  - by eapply wait_family.
  - by eapply wait_woken_family.
  - eapply sleep_family; [done|done|done| |done]. intros p' Hp'. congruence.
  - eapply gentle_family; [apply gentle_sleep_return|done|done].
  - eapply gentle_family; [apply gentle_yield|done|done].
  - eapply gentle_family; [apply gentle_kill|done|done].
  - eapply gentle_family; [apply gentle_wakeup|done|done].
  - cbn. eapply milder_family; [exact Hf|]. apply milder_alter. intros q _. split; try done. by intros [? _].
  - by rewrite E.
Qed.

End Steps.

(** C8: No exit is missed: whatever sequence of [fork], [exit], [wait], [kill], sleeping,
    waking and scheduling the kernel goes through, a process asleep in [wait] has a child
    that has not exited, and none that is already a zombie; so the [wakeup] of that
    child's [exit] will reach it. *)
Theorem wait_never_misses forkret_addr init k k' c p :
  family init (k_ptable k) -> rtc (pstep forkret_addr init) k k' ->
  k_ptable k' !! c = Some p -> asleep_in_wait c p ->
  (exists i q, k_ptable k' !! i = Some q /\ p_parent q = Some c /\ p_state q <> ZOMBIE /\ p_state q <> UNUSED) /\
  (forall i q, k_ptable k' !! i = Some q -> p_parent q = Some c -> p_state q <> ZOMBIE).
Proof.
  intros Hf Hs Hc Ha. assert (Hf' : family init (k_ptable k')).
  { clear Hc Ha. induction Hs as [k|k k1 k' H1 _ IH]; [done|]. apply IH. by eapply pstep_family. }
  split; [|intros i q Hi Hq; by apply (fam_zombie _ _ Hf' c p i q)].
  destruct (fam_child _ _ Hf' c p Hc Ha) as (i & q & Hi & Hq). exists i, q. split; [done|]. split; [done|].
  split; [by apply (fam_zombie _ _ Hf' c p i q)|]. intros Hu. rewrite (fam_unused _ _ Hf' i q Hi Hu) in Hq. discriminate Hq.
Qed.

(** A table with the first process and a child of it. *)
Definition two_procs : list proc :=
  set_p_state RUNNING zero_proc :: set_p_parent (Some 0%nat) (set_p_state RUNNABLE zero_proc) :: replicate 62 zero_proc.
Definition two_kernel : kernel := set_k_cur (Some 0%nat) (set_k_ptable two_procs (boot_kernel 0 0 (fun _ => []) 0)).

Lemma two_procs_family : family 0 two_procs.
Proof.
  assert (Hlk : forall i q, two_procs !! i = Some q -> (i = 0%nat /\ q = set_p_state RUNNING zero_proc) \/
    (i = 1%nat /\ q = set_p_parent (Some 0%nat) (set_p_state RUNNABLE zero_proc)) \/ ((2 <= i)%nat /\ q = zero_proc)).
  { intros [|[|i]] q; [intros [= <-]; by left|intros [= <-]; right; by left|].
    change (two_procs !! S (S i)) with (replicate 62 zero_proc !! i). intros H. right. right. split; [lia|]. by apply lookup_replicate in H as [-> _]. }
  assert (Hns : forall c q, two_procs !! c = Some q -> ~ asleep_in_wait c q).
  { intros c q Hq [Hs _]. destruct (Hlk c q Hq) as [[_ ->]|[[_ ->]|[_ ->]]]; discriminate Hs. }
  split.
  - reflexivity.
  - intros c p i q Hc Ha. by destruct (Hns c p Hc).
  - intros c p Hc Ha. by destruct (Hns c p Hc).
  - intros i q Hi. destruct (Hlk i q Hi) as [[-> ->]|[[-> ->]|[? ->]]]; done.
  - intros i q Hi Hu. destruct (Hlk i q Hi) as [[-> ->]|[[-> ->]|[? ->]]]; done.
  - by exists (set_p_state RUNNING zero_proc).
Qed.

Lemma two_running : running two_kernel 0.
Proof. split; [done|]. by exists (set_p_state RUNNING zero_proc). Qed.

(** The first process waits, and its child has not exited. *)
Lemma wait_never_misses_witness :
  exists k' p, rtc (pstep 0 0) two_kernel k' /\ k_ptable k' !! 0%nat = Some p /\ asleep_in_wait 0 p /\
    exists i q, k_ptable k' !! i = Some q /\ p_parent q = Some 0%nat /\ p_state q <> ZOMBIE /\ p_state q <> UNUSED.
Proof.
  destruct (out_state (wait two_kernel)) as [k'|] eqn:E; [|vm_compute in E; discriminate E].
  assert (Hs : rtc (pstep 0 0) two_kernel k') by (eapply rtc_once, p_wait; [apply two_running|exact E]).
  destruct (k_ptable k' !! 0%nat) as [p|] eqn:Ep; [|exfalso; vm_compute in E; injection E as <-; discriminate Ep].
  assert (Ha : asleep_in_wait 0 p) by (vm_compute in E; injection E as <-; injection Ep as <-; by split).
  exists k', p. split; [exact Hs|]. split; [exact Ep|]. split; [exact Ha|].
  destruct (wait_never_misses 0 0 two_kernel k' 0 p two_procs_family Hs Ep Ha) as [H _]. exact H.
Defined.
