(* ===== verification/Syscall.v ===== *)
(** * Syscall: system call arguments (syscall.c)

    The arguments are words on the user stack, read through the page table of the
    process ([uread]), which may run the page fault handler.  [None] is the -1 of an
    error. *)

From S2P Require Import Prelude Bytes Kernel Sync Kalloc Str Vm.

(** The running process. *)
Definition cur : KM proc :=
  let! i := curproc in
  get_proc i.

Definition fetchint (addr : Z) : KM (option Z) :=
  let! p := cur in
  if (p_sz p <=? addr) || (p_sz p <? u32 (addr + 4)) then ret None else
  let! l := uread 4 addr in
  ret (Some (i32 (le_val l))).

(** The loop of [fetchstr] at [s], [n] bytes before the end of the process: the
    characters up to the NUL. *)
Fixpoint fetchstr_loop (n : nat) (s : Z) : KM (option (list Z)) :=
  match n with
  | O => ret None
  | S n' =>
      let! l := uread 1 s in
      let c := le_val l in
      if c =? 0 then ret (Some []) else
      let! r := fetchstr_loop n' (s + 1) in
      ret (cons c <$> r)
  end.

(** The characters of the string at [addr]; the pointer is [addr] itself and the
    length returned theirs. *)
Definition fetchstr (addr : Z) : KM (option (list Z)) :=
  let! p := cur in
  if p_sz p <=? addr then ret None else
  fetchstr_loop (Z.to_nat (p_sz p - addr)) addr.

Definition argint (n : Z) : KM (option Z) :=
  let! p := cur in
  fetchint (u32 (tf_esp (p_tf p) + 4 + 4 * n)).

Definition argptr (n size : Z) : KM (option Z) :=
  let! p := cur in
  let! r := argint n in
  match r with
  | None => ret None
  | Some i =>
      let i := u32 i in
      if (size <? 0) || (p_sz p <=? i) || (p_sz p <? u32 (i + size)) then ret None
      else ret (Some i)
  end.

Definition argstr (n : Z) : KM (option (list Z)) :=
  let! r := argint n in
  match r with
  | None => ret None
  | Some addr => fetchstr (u32 addr)
  end.
