(* ===== verification/Exec.v ===== *)
(** * Exec: replacing the image of a process (exec.c, elf.h)

    The path and the arguments are the characters of the strings, which [sys_exec]
    has read from the user memory. *)

From S2P Require Import Prelude Bytes Kernel Sync Kalloc Bio Log Str Inode Console Fs Vm Pipe File Proc.

Definition ELF_MAGIC : Z := 0x464C457F.
Definition ELF_PROG_LOAD : Z := 1.

(** The fields of [struct elfhdr] that [exec] reads, at their offsets. *)
Record elfhdr : Type := mk_elfhdr { e_magic : Z; e_entry : Z; e_phoff : Z; e_phnum : Z }.
Definition sizeof_elfhdr : Z := 52.
Definition get_elfhdr (b : list Z) : elfhdr :=
  mk_elfhdr (get32 b 0) (get32 b 24) (get32 b 28) (get16 b 44).

(** [struct proghdr]. *)
Record proghdr : Type := mk_proghdr {
  ph_type : Z; ph_off : Z; ph_vaddr : Z; ph_paddr : Z;
  ph_filesz : Z; ph_memsz : Z; ph_flags : Z; ph_align : Z
}.
Definition sizeof_proghdr : Z := 32.
Definition get_proghdr (b : list Z) : proghdr :=
  mk_proghdr (get32 b 0) (get32 b 4) (get32 b 8) (get32 b 12)
    (get32 b 16) (get32 b 20) (get32 b 24) (get32 b 28).

(** [bad:] with the page directory and the inode there are. *)
Definition exec_bad (pgdir : Z) (ip : option nat) : KM Z :=
  (if pgdir =? 0 then ret tt else freevm pgdir) ;;;
  (match ip with
   | Some i => iunlockput i ;;; end_op
   | None => ret tt
   end) ;;;
  ret (-1).

(** [readi] of [n] bytes at [off], [None] when it does not return [n]. *)
Definition read_exactly (ip : nat) (off n : Z) : KM (option (list Z)) :=
  let! r := readi ip off n in
  ret (match r with
       | Some b => if Z.of_nat (length b) =? n then Some b else None
       | None => None
       end).

(** Loading the [n] program headers from [off]: the size of the image, or [None]
    when the code goes to [bad]. *)
Fixpoint load_segments (n : nat) (ip : nat) (pgdir off sz : Z) : KM (option Z) :=
  match n with
  | O => ret (Some sz)
  | S n' =>
      let! r := read_exactly ip (u32 off) sizeof_proghdr in
      match r with
      | None => ret None
      | Some b =>
          let ph := get_proghdr b in
          if negb (ph_type ph =? ELF_PROG_LOAD) then
            load_segments n' ip pgdir (off + sizeof_proghdr) sz
          else if ph_memsz ph <? ph_filesz ph then ret None
          else if u32 (ph_vaddr ph + ph_memsz ph) <? ph_vaddr ph then ret None
          else
            let! sz := allocuvm pgdir sz (u32 (ph_vaddr ph + ph_memsz ph)) in
            if sz =? 0 then ret None else
            if negb (ph_vaddr ph mod PGSIZE =? 0) then ret None else
            let! l := loaduvm pgdir (ph_vaddr ph) ip (ph_off ph) (ph_filesz ph) in
            if l <? 0 then ret None
            else load_segments n' ip pgdir (off + sizeof_proghdr) sz
      end
  end.

(** Pushing the argument strings from number [argc]: the stack pointer and the
    addresses of the strings, or [None] when the code goes to [bad]. *)
Fixpoint push_args (argv : list (list Z)) (argc : nat) (pgdir sp : Z) (acc : list Z) :
    KM (option (Z * list Z)) :=
  match argv with
  | [] => ret (Some (sp, acc))
  | s :: argv' =>
      if (MAXARG <=? argc)%nat then ret None else
      let sp := Z.land (u32 (sp - (Z.of_nat (length s) + 1))) (Z.lnot 3) in
      let! r := copyout pgdir sp (s ++ [0]) in
      if r <? 0 then ret None else
      push_args argv' (S argc) pgdir sp (acc ++ [sp])
  end.

(** [ustack]: the fake return address, argc, argv and the argument pointers. *)
Definition ustack (sp : Z) (ptrs : list Z) : list Z :=
  let argc := Z.of_nat (length ptrs) in
  [0xffffffff; argc; u32 (sp - (argc + 1) * 4)] ++ ptrs ++ [0].

(** What follows the last slash of the path. *)
Fixpoint last_elem (s last : list Z) : list Z :=
  match s with
  | [] => last
  | c :: s' => last_elem s' (if c =? 47 then s' else last)
  end.

(** The switch to the new image. *)
Definition exec_commit (c : nat) (path : list Z) (pgdir sz entry sp : Z) : KM Z :=
  upd_proc c (fun p => set_p_name (copy_name (last_elem path path) (p_name p)) p) ;;;
  let! p := get_proc c in
  let oldpgdir := p_pgdir p in
  upd_proc c (set_p_pgdir pgdir) ;;;
  upd_proc c (set_p_sz sz) ;;;
  upd_proc c (fun p => set_p_tf (set_tf_esp sp (set_tf_eip entry (p_tf p))) p) ;;;
  switchuvm (Some c) ;;;
  freevm oldpgdir ;;;
  ret 0.

(** From the user stack on, the image of size [sz] loaded. *)
Definition exec_stack (c : nat) (path : list Z) (argv : list (list Z)) (pgdir sz entry : Z) : KM Z :=
  let sz := PGROUNDUP sz in
  let! sz := allocuvm pgdir sz (u32 (sz + 2 * PGSIZE)) in
  if sz =? 0 then exec_bad pgdir None else
  clearpteu pgdir (u32 (sz - 2 * PGSIZE)) ;;;
  let! r := push_args argv 0 pgdir sz [] in
  match r with
  | None => exec_bad pgdir None
  | Some (sp, ptrs) =>
      let words := ustack sp ptrs in
      let sp := u32 (sp - (3 + Z.of_nat (length ptrs) + 1) * 4) in
      let! w := copyout pgdir sp (mjoin (le_bytes 4 <$> words)) in
      if w <? 0 then exec_bad pgdir None
      else exec_commit c path pgdir sz entry sp
  end.

Definition exec (path : list Z) (argv : list (list Z)) : KM Z :=
  let! c := curproc in
  begin_op ;;;
  let! r := namei path in
  match r with
  | None =>
      end_op ;;;
      cprintln "exec: fail" [] ;;;
      ret (-1)
  | Some ip =>
      ilock (Some ip) ;;;
      let! h := read_exactly ip 0 sizeof_elfhdr in
      match h with
      | None => exec_bad 0 (Some ip)
      | Some b =>
          let elf := get_elfhdr b in
          if negb (e_magic elf =? ELF_MAGIC) then exec_bad 0 (Some ip) else
          let! pgdir := setupkvm in
          if pgdir =? 0 then exec_bad 0 (Some ip) else
          let! r := load_segments (Z.to_nat (e_phnum elf)) ip pgdir (e_phoff elf) 0 in
          match r with
          | None => exec_bad pgdir (Some ip)
          | Some sz =>
              iunlockput ip ;;;
              end_op ;;;
              exec_stack c path argv pgdir sz (e_entry elf)
          end
      end
  end.
