(* ===== verification/Sysfile.v ===== *)
(** * Sysfile: the file system calls (sysfile.c)

    Every call reads its arguments from the user stack and returns an [int].  Bytes
    read go to the user memory, and bytes to write are taken from it, with [uwrite]
    and [uread]. *)

From S2P Require Import Prelude Bytes Kernel Sync Kalloc Bio Log Str Inode Console Fs Vm Pipe File Proc Syscall Exec.

(** ** Descriptors *)

(** The descriptor and its file. *)
Definition argfd (n : Z) : KM (option (nat * nat)) :=
  let! r := argint n in
  match r with
  | None => ret None
  | Some fd =>
      if (fd <? 0) || (Z.of_nat NOFILE <=? fd) then ret None else
      let! p := cur in
      let! o := deref (p_ofile p !! Z.to_nat fd) in
      ret (match o with Some f => Some (Z.to_nat fd, f) | None => None end)
  end.

(** The first descriptor not in use, from [fd]. *)
Fixpoint free_fd (ofile : list (option nat)) (fd : nat) : option nat :=
  match ofile with
  | [] => None
  | None :: _ => Some fd
  | Some _ :: ofile' => free_fd ofile' (S fd)
  end.

(** [curproc->ofile[fd] = v]. *)
Definition set_fd (fd : nat) (v : option nat) : KM unit :=
  let! c := curproc in
  upd_proc c (fun p => set_p_ofile (<[fd := v]> (p_ofile p)) p).

Definition fdalloc (f : nat) : KM (option nat) :=
  let! p := cur in
  match free_fd (p_ofile p) 0 with
  | Some fd => set_fd fd (Some f) ;;; ret (Some fd)
  | None => ret None
  end.

Definition sys_dup : KM Z :=
  let! a := argfd 0 in
  match a with
  | None => ret (-1)
  | Some (_, f) =>
      let! r := fdalloc f in
      match r with
      | None => ret (-1)
      | Some fd =>
          let! _ := filedup f in
          ret (Z.of_nat fd)
      end
  end.

Definition sys_dup2 : KM Z :=
  let! c := curproc in
  let! a := argfd 0 in
  match a with
  | None => ret (-1)
  | Some (fd, f1) =>
      let! b := argint 1 in
      match b with
      | None => ret (-1)
      | Some fd2 =>
          if (fd2 <? 0) || (Z.of_nat NOFILE <=? fd2) then ret (-1) else
          if Z.of_nat fd =? fd2 then ret fd2 else
          let! p := get_proc c in
          let! f2 := deref (p_ofile p !! Z.to_nat fd2) in
          close_if f2 ;;;
          upd_proc c (fun p => set_p_ofile (<[Z.to_nat fd2 := Some f1]> (p_ofile p)) p) ;;;
          let! _ := filedup f1 in
          ret fd2
      end
  end.

(** [argfd(0, 0, &f) < 0 || argint(2, &n) < 0 || argptr(1, &p, n) < 0]. *)
Definition rw_args : KM (option (nat * Z * Z)) :=
  let! a := argfd 0 in
  match a with
  | None => ret None
  | Some (_, f) =>
      let! b := argint 2 in
      match b with
      | None => ret None
      | Some n =>
          let! p := argptr 1 n in
          ret (match p with Some p => Some (f, n, p) | None => None end)
      end
  end.

Definition sys_read : KM Z :=
  let! a := rw_args in
  match a with
  | None => ret (-1)
  | Some (f, n, p) =>
      let! r := fileread f n in
      match r with
      | None => ret (-1)
      | Some l => uwrite p l ;;; ret (Z.of_nat (length l))
      end
  end.

Definition sys_write : KM Z :=
  let! a := rw_args in
  match a with
  | None => ret (-1)
  | Some (f, n, p) =>
      let! l := uread (Z.to_nat n) p in
      filewrite f l
  end.

Definition sys_close : KM Z :=
  let! a := argfd 0 in
  match a with
  | None => ret (-1)
  | Some (fd, f) =>
      set_fd fd None ;;;
      fileclose f ;;;
      ret 0
  end.

(** [sizeof(struct stat)]: a short and its padding, two words, a short and its
    padding, a word. *)
Definition sizeof_stat : Z := 20.

(** [stati] writing the fields of the user's structure; its padding is left alone. *)
Definition put_stat (p : Z) (st : stat) : KM unit :=
  uwrite p (le_bytes 2 (st_type st)) ;;;
  uwrite (u32 (p + 4)) (le_bytes 4 (st_dev st)) ;;;
  uwrite (u32 (p + 8)) (le_bytes 4 (st_ino st)) ;;;
  uwrite (u32 (p + 12)) (le_bytes 2 (st_nlink st)) ;;;
  uwrite (u32 (p + 16)) (le_bytes 4 (st_size st)).

Definition sys_fstat : KM Z :=
  let! a := argfd 0 in
  match a with
  | None => ret (-1)
  | Some (_, f) =>
      let! p := argptr 1 sizeof_stat in
      match p with
      | None => ret (-1)
      | Some p =>
          let! st := filestat f in
          match st with
          | None => ret (-1)
          | Some st => put_stat p st ;;; ret 0
          end
      end
  end.

(** ** Links *)

(** [bad:] of [sys_link]: the link count taken back. *)
Definition link_bad (ip : nat) : KM Z :=
  ilock (Some ip) ;;;
  upd_inode ip (fun x => set_i_nlink (i16 (i_nlink x - 1)) x) ;;;
  iupdate ip ;;;
  iunlockput ip ;;;
  end_op ;;;
  ret (-1).

Definition do_link (old new : list Z) : KM Z :=
  begin_op ;;;
  let! r := namei old in
  match r with
  | None => end_op ;;; ret (-1)
  | Some ip =>
      ilock (Some ip) ;;;
      let! x := get_inode ip in
      if i_type x =? T_DIR then
        iunlockput ip ;;;
        end_op ;;;
        ret (-1)
      else
        upd_inode ip (fun x => set_i_nlink (i16 (i_nlink x + 1)) x) ;;;
        iupdate ip ;;;
        iunlock (Some ip) ;;;
        let! r := nameiparent new in
        match r with
        | None => link_bad ip
        | Some (dp, name) =>
            ilock (Some dp) ;;;
            let! d := get_inode dp in
            let! x := get_inode ip in
            let! ok :=
              (if negb (i_dev d =? i_dev x) then ret false
               else let! l := dirlink dp name (i_inum x) in ret (negb (l <? 0))) in
            if ok then
              iunlockput dp ;;;
              iput ip ;;;
              end_op ;;;
              ret 0
            else
              iunlockput dp ;;;
              link_bad ip
        end
  end.

Definition sys_link : KM Z :=
  let! old := argstr 0 in
  match old with
  | None => ret (-1)
  | Some old =>
      let! new := argstr 1 in
      match new with
      | None => ret (-1)
      | Some new => do_link old new
      end
  end.

(** The loop of [isdirempty] over the [n] entries from [off]. *)
Fixpoint isdirempty_loop (n : nat) (dp : nat) (off : Z) : KM bool :=
  match n with
  | O => ret true
  | S n' =>
      let! d := get_inode dp in
      if off <? i_size d then
        let! r := read_exactly dp off sizeof_dirent in
        match r with
        | None => panic "isdirempty: readi"
        | Some b =>
            if negb (de_inum (get_dirent b) =? 0) then ret false
            else isdirempty_loop n' dp (off + sizeof_dirent)
        end
      else ret true
  end.

Definition isdirempty (dp : nat) : KM bool :=
  let! d := get_inode dp in
  isdirempty_loop (S (Z.to_nat (i_size d / sizeof_dirent))) dp (2 * sizeof_dirent).

(** [bad:] of [sys_unlink]. *)
Definition unlink_bad (dp : nat) : KM Z :=
  iunlockput dp ;;;
  end_op ;;;
  ret (-1).

Definition do_unlink (path : list Z) : KM Z :=
  begin_op ;;;
  let! r := nameiparent path in
  match r with
  | None => end_op ;;; ret (-1)
  | Some (dp, name) =>
      ilock (Some dp) ;;;
      if (namecmp name (chars ".") =? 0) || (namecmp name (chars "..") =? 0) then unlink_bad dp else
      let! e := dirlookup dp name in
      match e with
      | None => unlink_bad dp
      | Some (ip, off) =>
          ilock (Some ip) ;;;
          let! x := get_inode ip in
          if i_nlink x <? 1 then panic "unlink: nlink < 1" else
          let! full := (if i_type x =? T_DIR then let! e := isdirempty ip in ret (negb e) else ret false) in
          if full then iunlockput ip ;;; unlink_bad dp else
          let! w := writei dp (put_dirent (mk_dirent 0 (replicate DIRSIZ 0))) off in
          if negb (w =? sizeof_dirent) then panic "unlink: writei" else
          (if i_type x =? T_DIR then
             upd_inode dp (fun d => set_i_nlink (i16 (i_nlink d - 1)) d) ;;;
             iupdate dp
           else ret tt) ;;;
          iunlockput dp ;;;
          upd_inode ip (fun x => set_i_nlink (i16 (i_nlink x - 1)) x) ;;;
          iupdate ip ;;;
          iunlockput ip ;;;
          end_op ;;;
          ret 0
      end
  end.

Definition sys_unlink : KM Z :=
  let! path := argstr 0 in
  match path with
  | None => ret (-1)
  | Some path => do_unlink path
  end.

(** ** Creating and opening *)

(** The locked inode, [None] for the null pointer. *)
Definition create (path : list Z) (type major minor : Z) : KM (option nat) :=
  let! r := nameiparent path in
  match r with
  | None => ret None
  | Some (dp, name) =>
      ilock (Some dp) ;;;
      let! e := dirlookup dp name in
      match e with
      | Some (ip, _) =>
          iunlockput dp ;;;
          ilock (Some ip) ;;;
          let! x := get_inode ip in
          if (type =? T_FILE) && (i_type x =? T_FILE) then ret (Some ip)
          else iunlockput ip ;;; ret None
      | None =>
          let! d := get_inode dp in
          let! ip := ialloc (i_dev d) type in
          ilock (Some ip) ;;;
          upd_inode ip (fun x => set_i_nlink 1 (set_i_minor (i16 minor) (set_i_major (i16 major) x))) ;;;
          iupdate ip ;;;
          let! x := get_inode ip in
          (if type =? T_DIR then
             upd_inode dp (fun d => set_i_nlink (i16 (i_nlink d + 1)) d) ;;;
             iupdate dp ;;;
             let! a := dirlink ip (chars ".") (i_inum x) in
             if a <? 0 then panic "create dots" else
             let! d := get_inode dp in
             let! b := dirlink ip (chars "..") (i_inum d) in
             if b <? 0 then panic "create dots" else ret tt
           else ret tt) ;;;
          let! l := dirlink dp name (i_inum x) in
          if l <? 0 then panic "create: dirlink" else
          iunlockput dp ;;;
          ret (Some ip)
      end
  end.

(** The inode [sys_open] opens, locked. *)
Definition open_inode (path : list Z) (omode : Z) : KM (option nat) :=
  if has omode O_CREATE then create path T_FILE 0 0 else
  let! r := namei path in
  match r with
  | None => ret None
  | Some ip =>
      ilock (Some ip) ;;;
      let! x := get_inode ip in
      if (i_type x =? T_DIR) && negb (omode =? O_RDONLY) then iunlockput ip ;;; ret None
      else ret (Some ip)
  end.

(** No file or no descriptor: [if(f) fileclose(f); iunlockput(ip); end_op()]. *)
Definition open_fail (f : option nat) (ip : nat) : KM Z :=
  close_if f ;;;
  iunlockput ip ;;;
  end_op ;;;
  ret (-1).

Definition do_open (path : list Z) (omode : Z) : KM Z :=
  begin_op ;;;
  let! r := open_inode path omode in
  match r with
  | None => end_op ;;; ret (-1)
  | Some ip =>
      let! f := filealloc in
      match f with
      | None => open_fail None ip
      | Some f =>
          let! d := fdalloc f in
          match d with
          | None => open_fail (Some f) ip
          | Some fd =>
              iunlock (Some ip) ;;;
              end_op ;;;
              upd_file f (fun x =>
                set_f_writable (has omode O_WRONLY || has omode O_RDWR)
                  (set_f_readable (negb (has omode O_WRONLY))
                    (set_f_off 0 (set_f_ip (Some ip) (set_f_type FD_INODE x))))) ;;;
              ret (Z.of_nat fd)
          end
      end
  end.

Definition sys_open : KM Z :=
  let! path := argstr 0 in
  match path with
  | None => ret (-1)
  | Some path =>
      let! m := argint 1 in
      match m with
      | None => ret (-1)
      | Some omode => do_open path omode
      end
  end.

(** The end of [sys_mkdir] and [sys_mknod]. *)
Definition finish_create (r : option nat) : KM Z :=
  match r with
  | None => end_op ;;; ret (-1)
  | Some ip => iunlockput ip ;;; end_op ;;; ret 0
  end.

Definition sys_mkdir : KM Z :=
  begin_op ;;;
  let! path := argstr 0 in
  match path with
  | None => finish_create None
  | Some path =>
      let! r := create path T_DIR 0 0 in
      finish_create r
  end.

Definition sys_mknod : KM Z :=
  begin_op ;;;
  let! path := argstr 0 in
  match path with
  | None => finish_create None
  | Some path =>
      let! major := argint 1 in
      match major with
      | None => finish_create None
      | Some major =>
          let! minor := argint 2 in
          match minor with
          | None => finish_create None
          | Some minor =>
              let! r := create path T_DEV major minor in
              finish_create r
          end
      end
  end.

Definition sys_chdir : KM Z :=
  let! c := curproc in
  begin_op ;;;
  let! path := argstr 0 in
  match path with
  | None => end_op ;;; ret (-1)
  | Some path =>
      let! r := namei path in
      match r with
      | None => end_op ;;; ret (-1)
      | Some ip =>
          ilock (Some ip) ;;;
          let! x := get_inode ip in
          if negb (i_type x =? T_DIR) then
            iunlockput ip ;;;
            end_op ;;;
            ret (-1)
          else
            iunlock (Some ip) ;;;
            let! p := get_proc c in
            let! cwd := deref (p_cwd p) in
            iput cwd ;;;
            end_op ;;;
            upd_proc c (set_p_cwd (Some ip)) ;;;
            ret 0
      end
  end.

(** ** exec and pipe *)

(** The loop of [sys_exec]: [n] more entries of [argv] fit; the strings from entry
    [i] on, [None] for an error. *)
Fixpoint fetch_argv (n : nat) (uargv i : Z) : KM (option (list (list Z))) :=
  match n with
  | O => ret None
  | S n' =>
      let! w := fetchint (u32 (uargv + 4 * i)) in
      match w with
      | None => ret None
      | Some w =>
          let uarg := u32 w in
          if uarg =? 0 then ret (Some []) else
          let! s := fetchstr uarg in
          match s with
          | None => ret None
          | Some s =>
              let! rest := fetch_argv n' uargv (i + 1) in
              ret (cons s <$> rest)
          end
      end
  end.

Definition sys_exec : KM Z :=
  let! path := argstr 0 in
  match path with
  | None => ret (-1)
  | Some path =>
      let! a := argint 1 in
      match a with
      | None => ret (-1)
      | Some uargv =>
          let! argv := fetch_argv MAXARG (u32 uargv) 0 in
          match argv with
          | None => ret (-1)
          | Some argv => exec path argv
          end
      end
  end.

(** No descriptor for one of the ends. *)
Definition pipe_bad (fd0 : option nat) (rf wf : nat) : KM Z :=
  (match fd0 with Some fd => set_fd fd None | None => ret tt end) ;;;
  fileclose rf ;;;
  fileclose wf ;;;
  ret (-1).

Definition sys_pipe : KM Z :=
  let! a := argptr 0 8 in
  match a with
  | None => ret (-1)
  | Some fd =>
      let! r := pipealloc in
      match r with
      | None => ret (-1)
      | Some (rf, wf) =>
          let! fd0 := fdalloc rf in
          match fd0 with
          | None => pipe_bad None rf wf
          | Some d0 =>
              let! fd1 := fdalloc wf in
              match fd1 with
              | None => pipe_bad fd0 rf wf
              | Some d1 =>
                  uwrite fd (le_bytes 4 (Z.of_nat d0)) ;;;
                  uwrite (u32 (fd + 4)) (le_bytes 4 (Z.of_nat d1)) ;;;
                  ret 0
              end
          end
      end
  end.
