(* ===== verification/Fds.v ===== *)
(** * Fds: descriptors and their files

    The reference count of an open file is the number of descriptors, over all
    processes, that refer to it.  The system calls that make, copy and close
    descriptors keep it so: [sys_dup], [sys_dup2], [sys_close], [sys_open] and
    [sys_pipe], whatever the file system does meanwhile. *)

From S2P Require Import Prelude Bytes Kernel Sync Kalloc Bio Log Str Inode Console Fs Vm Frame Pipe File Proc Syscall Exec Sysfile.

(** ** What the counts depend on *)

(** The descriptors of every process. *)
Definition ofiles (k : kernel) : list (list (option nat)) := p_ofile <$> k_ptable k.

Definition fview (k : kernel) : option nat * list file * list (list (option nat)) :=
  (k_cur k, k_ftable k, ofiles k).

Lemma ofiles_alter (i : nat) f (ps : list proc) :
  (forall p, p_ofile (f p) = p_ofile p) -> p_ofile <$> alter f i ps = p_ofile <$> ps.
Proof.
  intros H. apply list_eq. intros j. rewrite !list_lookup_fmap. destruct (decide (i = j)) as [->|].
  - rewrite list_lookup_alter_eq. destruct (ps !! j); simpl; by rewrite ?H.
  - by rewrite list_lookup_alter_ne.
Qed.

Lemma ofiles_wakeup c (ps : list proc) : p_ofile <$> (wakeup1_proc c <$> ps) = p_ofile <$> ps.
Proof.
  rewrite <- list_fmap_compose. apply list_fmap_ext. intros i p _. unfold compose, wakeup1_proc.
  by case_bool.
Qed.

#[export] Instance fview_frame : Frame fview.
Proof.
  split; try reflexivity; intros; unfold fview, ofiles; simpl; f_equal; try (by apply ofiles_alter).
  apply ofiles_wakeup.
Qed.

(** ** Counting *)

Definition one (f : option nat) (g : nat) : Z := if decide (f = Some g) then 1 else 0.

Fixpoint count (l : list (option nat)) (g : nat) : Z :=
  match l with [] => 0 | o :: l' => one o g + count l' g end.

Fixpoint refs (ofs : list (list (option nat))) (g : nat) : Z :=
  match ofs with [] => 0 | l :: ofs' => count l g + refs ofs' g end.

Lemma count_insert l fd o o' g :
  l !! fd = Some o -> count (<[fd := o']> l) g = count l g - one o g + one o' g.
Proof.
  revert fd. induction l as [|x l IH]; intros [|fd] H; simpl in *; try done.
  - injection H as ->. lia.
  - rewrite (IH fd H). lia.
Qed.

Lemma refs_alter ofs i l l' g :
  ofs !! i = Some l -> refs (<[i := l']> ofs) g = refs ofs g - count l g + count l' g.
Proof.
  revert i. induction ofs as [|x ofs IH]; intros [|i] H; simpl in *; try done.
  - injection H as ->. lia.
  - rewrite (IH i H). lia.
Qed.

(** Every file has as many references as descriptors and [d] more. *)
Definition counted (d : nat -> Z) (k : kernel) : Prop :=
  forall g x, k_ftable k !! g = Some x -> f_ref x = refs (ofiles k) g + d g.

Definition none (g : nat) : Z := 0.

(** The invariant between system calls. *)
Definition fds_ok (k : kernel) : Prop := counted none k.

Lemma counted_view d k k' : fview k' = fview k -> counted d k -> counted d k'.
Proof. unfold fview, counted. intros [= _ Hf Ho] H g x. rewrite Hf, Ho. apply H. Qed.

Lemma counted_ext d d' k : (forall g, d g = d' g) -> counted d k -> counted d' k.
Proof. intros E H g x Hx. rewrite <- E. by apply H. Qed.

(** ** The file table *)

(** A call that adds [d] references, leaving the descriptors alone. *)
Definition adds (d : nat -> Z) (k k' : kernel) : Prop :=
  k_cur k' = k_cur k /\ ofiles k' = ofiles k /\
  forall d0, counted d0 k -> counted (fun g => d0 g + d g) k'.

Lemma adds_view d k k1 k' : fview k1 = fview k -> adds d k1 k' -> adds d k k'.
Proof.
  intros E (Hc & Ho & Hd). pose proof E as E'. unfold fview in E'. injection E' as E1 E2 E3.
  split; [congruence|]. split; [congruence|]. intros d0 H. apply Hd. by apply (counted_view _ k).
Qed.

Lemma adds_then_view d k k1 k' : adds d k k1 -> fview k' = fview k1 -> adds d k k'.
Proof.
  intros (Hc & Ho & Hd) E. pose proof E as E'. unfold fview in E'. injection E' as E1 E2 E3.
  split; [congruence|]. split; [congruence|]. intros d0 H. apply (counted_view _ k1); [done|]. by apply Hd.
Qed.

Lemma adds_none k k' : fview k' = fview k -> adds none k k'.
Proof.
  intros E. pose proof E as E'. unfold fview in E'. injection E' as E1 E2 E3. split; [done|]. split; [done|].
  intros d0 H. apply (counted_ext d0); [intros; unfold none; lia|]. by apply (counted_view _ k).
Qed.

Lemma adds_trans d1 d2 k k1 k2 : adds d1 k k1 -> adds d2 k1 k2 -> adds (fun g => d1 g + d2 g) k k2.
Proof.
  intros (Hc & Ho & Hd) (Hc' & Ho' & Hd'). split; [congruence|]. split; [congruence|].
  intros d0 H. eapply counted_ext; [|exact (Hd' _ (Hd _ H))]. intros g. simpl. lia.
Qed.

Lemma keep_view {A} (m : KM A) k a k' : keeps fview m -> m k = Ok a k' -> fview k' = fview k.
Proof. intros Hm E. apply Hm. by rewrite E. Qed.

(** The count of one file changed by [n]. *)
Lemma adds_ref f x n k h :
  k_ftable k !! f = Some x ->
  adds (fun g => n * one (Some f) g) k
    (set_k_ftable (alter h f (k_ftable k)) k) \/ f_ref (h x) <> f_ref x + n.
Proof.
  intros Hx. destruct (decide (f_ref (h x) = f_ref x + n)) as [E|]; [left|by right].
  split; [done|]. split; [done|]. intros d0 H g y. simpl. intros Hy. change (ofiles (set_k_ftable _ k)) with (ofiles k).
  unfold one. destruct (decide (Some f = Some g)) as [[= <-]|Hne].
  - rewrite list_lookup_alter_eq, Hx in Hy. injection Hy as <-. rewrite E, (H f x Hx). lia.
  - rewrite list_lookup_alter_ne in Hy by congruence. rewrite (H g y Hy). lia.
Qed.

Lemma keeps_get_file {T} (pi : kernel -> T) f : keeps pi (get_file f).
Proof. apply keeps_reader. intros k k'. unfold get_file. destruct (k_ftable k !! f); [|done]. by intros [= <-]. Qed.

Lemma get_file_inv f k x k' : get_file f k = Ok x k' -> k' = k /\ k_ftable k !! f = Some x.
Proof. unfold get_file. destruct (k_ftable k !! f); [|done]. by intros [= -> ->]. Qed.

Lemma keeps_get_pipe {T} (pi : kernel -> T) p : keeps pi (get_pipe p).
Proof. apply keeps_reader. intros k k'. unfold get_pipe. destruct (k_pipes k !! p); [|done]. by intros [= <-]. Qed.

Lemma keeps_put_pipe p s : keeps fview (put_pipe p s).
Proof. by apply keeps_modify. Qed.

Lemma keeps_drop_pipe p : keeps fview (modify (fun k => set_k_pipes (delete p (k_pipes k)) k)).
Proof. by apply keeps_modify. Qed.
#[export] Hint Resolve keeps_get_file keeps_get_pipe keeps_put_pipe keeps_drop_pipe : frame.

Lemma keeps_pipeclose p w : keeps fview (pipeclose p w).
Proof. unfold pipeclose. keep_body. Qed.
#[export] Hint Resolve keeps_pipeclose : frame.

(** Splits a run of a sequence into the runs of its commands. *)
Ltac minv H :=
  let a := fresh "a" in let k1 := fresh "k" in let E := fresh "E" in
  apply bind_ok_inv in H as (a & k1 & E & H).
(** The same, for a command that leaves the view alone. *)
Ltac mkeep H :=
  let a := fresh "a" in let k1 := fresh "k" in let E := fresh "E" in let V := fresh "V" in
  apply bind_ok_inv in H as (a & k1 & E & H);
  match type of E with
  | ?m ?k = Ok _ _ => assert (V : fview k1 = fview k) by (apply (keep_view m k a k1); [solve [keep_body]|exact E])
  end.

Lemma filedup_adds f k r k' : filedup f k = Ok r k' -> adds (one (Some f)) k k'.
Proof.
  unfold filedup. intros H. mkeep H. minv H. apply get_file_inv in E0 as [-> Hx].
  destruct (f_ref a0 <? 1); [done|]. minv H. injection E0 as <- <-. mkeep H. injection H as <- <-.
  eapply adds_view; [exact V|]. eapply adds_then_view; [|exact V0].
  destruct (adds_ref f a0 1 k0 (fun x => set_f_ref (f_ref x + 1) x) Hx) as [A|A]; [|done].
  destruct A as (A1 & A2 & A3). split; [done|]. split; [done|]. intros d0 Hd.
  eapply counted_ext; [|exact (A3 d0 Hd)]. intros g. simpl. lia.
Qed.

(** A change of a file that leaves its count alone. *)
Lemma upd_file_adds f h k :
  (forall x, f_ref (h x) = f_ref x) -> adds none k (set_k_ftable (alter h f (k_ftable k)) k).
Proof.
  intros Hh. split; [done|]. split; [done|]. intros d0 H g y. simpl. intros Hy.
  change (ofiles (set_k_ftable _ k)) with (ofiles k). unfold none. rewrite Z.add_0_r.
  destruct (decide (f = g)) as [->|Hne].
  - rewrite list_lookup_alter_eq in Hy. destruct (k_ftable k !! g) as [x|] eqn:Ex; [|done].
    injection Hy as <-. rewrite Hh. by apply H.
  - rewrite list_lookup_alter_ne in Hy by done. by apply H.
Qed.

Lemma keep_after {A} (m : KM A) k a k1 k' : keeps fview m -> m k1 = Ok a k' -> adds none k k1 \/ fview k1 = fview k -> adds none k k'.
Proof.
  intros Hm E H. pose proof (keep_view m k1 a k' Hm E) as V. destruct H as [H|H].
  - by eapply adds_then_view.
  - apply adds_none. congruence.
Qed.

Lemma fileclose_adds f k r k' : fileclose f k = Ok r k' -> adds (fun g => - one (Some f) g) k k'.
Proof.
  unfold fileclose. intros H. mkeep H. minv H. apply get_file_inv in E0 as [-> Hx].
  destruct (Z.ltb_spec (f_ref a0) 1) as [|Hr]; [done|]. minv H. injection E0 as <- <-.
  set (k2 := set_k_ftable _ k0) in *.
  assert (A : adds (fun g => - one (Some f) g) k0 k2).
  { destruct (adds_ref f a0 (-1) k0 (fun x => set_f_ref (f_ref x - 1) x) Hx) as [(A1 & A2 & A3)|A]; [|simpl in A; lia].
    split; [done|]. split; [done|]. intros d0 Hd. eapply counted_ext; [|exact (A3 d0 Hd)]. intros g. simpl. lia. }
  eapply adds_view; [exact V|]. minv H. apply get_file_inv in E0 as [-> Hff].
  destruct (0 <? f_ref a1) eqn:E2.
  - eapply adds_then_view; [exact A|]. apply (keep_view (release L_ftable) _ r); [keep_body|exact H].
  - minv H. injection E0 as <- <-. set (k3 := set_k_ftable _ k2) in *.
    assert (Hz : f_ref a1 = 0).
    { unfold k2 in Hff. simpl in Hff. rewrite list_lookup_alter_eq, Hx in Hff. injection Hff as <-.
      zify_bool. simpl in *. lia. }
    assert (A' : adds none k2 k3).
    { destruct (adds_ref f a1 0 k2 (fun x => set_f_type FD_NONE (set_f_ref 0 x)) Hff) as [(A1 & A2 & A3)|A'].
      - split; [done|]. split; [done|]. intros d0 Hd. eapply counted_ext; [|exact (A3 d0 Hd)]. done.
      - simpl in A'. lia. }
    mkeep H. pose proof (adds_trans _ _ _ _ _ A A') as B.
    assert (B' : adds (fun g => - one (Some f) g) k0 k3).
    { destruct B as (B1 & B2 & B3). split; [done|]. split; [done|]. intros d0 Hd.
      eapply counted_ext; [|exact (B3 d0 Hd)]. intros g. simpl. unfold none. lia. }
    eapply adds_then_view; [exact B'|]. rewrite <- V0.
    match type of H with ?m ?k4 = _ => apply (keep_view m k4 r); [keep_body|exact H] end.
Qed.

Lemma close_if_adds o k r k' : close_if o k = Ok r k' -> adds (fun g => - one o g) k k'.
Proof.
  destruct o as [f|]; simpl; [by apply fileclose_adds|]. intros [= <- <-].
  split; [done|]. split; [done|]. intros d0 H. eapply counted_ext; [|exact H]. intros g. unfold one. simpl. lia.
Qed.

Lemma free_file_spec fs : forall i f, free_file fs i = Some f ->
  exists x, fs !! (f - i)%nat = Some x /\ f_ref x = 0 /\ (i <= f)%nat.
Proof.
  induction fs as [|x fs IH]; intros i f H; simpl in H; [done|]. destruct (f_ref x =? 0) eqn:E; zify_bool.
  - injection H as <-. exists x. rewrite Nat.sub_diag. by split; [|split].
  - destruct (IH (S i) f H) as (y & Hy & Hr & Hl). exists y.
    replace (f - i)%nat with (S (f - S i))%nat by lia. by split; [|split; [|lia]].
Qed.

Lemma filealloc_adds k r k' : filealloc k = Ok r k' -> adds (one r) k k'.
Proof.
  unfold filealloc. intros H. mkeep H. minv H. injection E0 as <- <-.
  destruct (free_file (k_ftable k0) 0) as [f|] eqn:Ef.
  - apply free_file_spec in Ef as (x & Hx & Hr & _). rewrite Nat.sub_0_r in Hx. minv H. injection E0 as <- <-.
    mkeep H. injection H as <- <-. eapply adds_view; [exact V|]. eapply adds_then_view; [|exact V0].
    destruct (adds_ref f x 1 k0 (set_f_ref 1) Hx) as [(A1 & A2 & A3)|A]; [|simpl in A; lia].
    split; [done|]. split; [done|]. intros d0 Hd. eapply counted_ext; [|exact (A3 d0 Hd)]. intros g. simpl. lia.
  - mkeep H. injection H as <- <-. assert (E2 : fview k1 = fview k) by congruence.
    destruct (adds_none _ _ E2) as (A1 & A2 & A3). split; [done|]. split; [done|]. intros d0 Hd.
    eapply counted_ext; [|exact (A3 d0 Hd)]. intros g. unfold one. simpl. unfold none. lia.
Qed.

(** ** Descriptors *)

(** Descriptor [fd] of the running process holds [o]. *)
Definition slot (k : kernel) (c fd : nat) (o : option nat) : Prop :=
  k_cur k = Some c /\ exists l, ofiles k !! c = Some l /\ l !! fd = Some o.

Lemma slot_adds d k k' c fd o : adds d k k' -> slot k c fd o -> slot k' c fd o.
Proof. intros (Hc & Ho & _) (Hk & l & Hl & Hf). split; [congruence|]. exists l. by rewrite Ho. Qed.

Lemma slot_view k k' c fd o : fview k' = fview k -> slot k c fd o -> slot k' c fd o.
Proof. intros E. apply (slot_adds none). by apply adds_none. Qed.

Definition put_fd (c fd : nat) (o : option nat) (k : kernel) : kernel :=
  set_k_ptable (alter (fun p => set_p_ofile (<[fd := o]> (p_ofile p)) p) c (k_ptable k)) k.

Lemma put_fd_counted k c fd o o' d :
  slot k c fd o -> counted d k -> counted (fun g => d g + one o g - one o' g) (put_fd c fd o' k).
Proof.
  intros (_ & l & Hl & Hf) H g x Hx. rewrite (H g x Hx).
  assert (E : ofiles (put_fd c fd o' k) = <[c := <[fd := o']> l]> (ofiles k)).
  { unfold ofiles, put_fd. simpl. apply list_eq. intros j. rewrite list_lookup_fmap.
    unfold ofiles in Hl. rewrite list_lookup_fmap in Hl. destruct (k_ptable k !! c) as [p|] eqn:Ep; [|done].
    injection Hl as <-. destruct (decide (c = j)) as [<-|Hne].
    - rewrite list_lookup_alter_eq, Ep. rewrite list_lookup_insert_eq; [done|].
      rewrite length_fmap. by eapply lookup_lt_Some.
    - rewrite list_lookup_alter_ne by done. by rewrite list_lookup_insert_ne, list_lookup_fmap. }
  rewrite E, (refs_alter _ c l) by done. rewrite (count_insert _ _ o) by done. lia.
Qed.

Lemma free_fd_spec l : forall n fd, free_fd l n = Some fd -> l !! (fd - n)%nat = Some None /\ (n <= fd)%nat.
Proof.
  induction l as [|[f|] l IH]; intros n fd H; simpl in H; try done.
  - destruct (IH (S n) fd H) as [Hf Hl]. replace (fd - n)%nat with (S (fd - S n))%nat by lia. by split; [|lia].
  - injection H as <-. by rewrite Nat.sub_diag.
Qed.

Lemma keeps_cur {T} (pi : kernel -> T) : keeps pi cur.
Proof. unfold cur. keep_body. Qed.
#[export] Hint Resolve keeps_cur : frame.

Lemma cur_inv k p k' : cur k = Ok p k' -> k' = k /\ exists c, k_cur k = Some c /\ k_ptable k !! c = Some p.
Proof.
  unfold cur. intros H. minv H. unfold curproc, myproc in E. destruct (k_cur k) as [c|] eqn:Ec; [|done].
  injection E as <- <-. unfold get_proc in H. destruct (k_ptable k !! c) as [q|] eqn:Ep; [|done].
  injection H as <- <-. split; [done|]. by exists c.
Qed.

Lemma set_fd_inv fd o k r k' : set_fd fd o k = Ok r k' -> exists c, k_cur k = Some c /\ k' = put_fd c fd o k.
Proof.
  unfold set_fd. intros H. minv H. unfold curproc, myproc in E. destruct (k_cur k) as [c|] eqn:Ec; [|done].
  injection E as <- <-. injection H as <- <-. by exists c.
Qed.

(** A new descriptor takes one of the references. *)
Lemma fdalloc_counted f k r k' d :
  fdalloc f k = Ok r k' -> counted d k ->
  match r with
  | Some fd => exists c, slot k c fd None /\ k' = put_fd c fd (Some f) k /\
                 counted (fun g => d g - one (Some f) g) k'
  | None => k' = k
  end.
Proof.
  unfold fdalloc. intros H Hd. minv H. apply cur_inv in E as (-> & c & Hc & Hp).
  destruct (free_fd (p_ofile a) 0) as [fd|] eqn:Ef; [|by injection H as <- <-].
  apply free_fd_spec in Ef as [Hf _]. rewrite Nat.sub_0_r in Hf.
  assert (Hs : slot k c fd None).
  { split; [done|]. exists (p_ofile a). split; [|done]. unfold ofiles. by rewrite list_lookup_fmap, Hp. }
  minv H. apply set_fd_inv in E as (c' & Hc' & ->). injection H as <- <-.
  assert (c' = c) as -> by congruence. exists c. split; [done|]. split; [done|].
  eapply counted_ext; [|exact (put_fd_counted k c fd None (Some f) d Hs Hd)].
  intros g. unfold one. simpl. lia.
Qed.

(** ** Arguments *)

Lemma keeps_fetchint a : keeps fview (fetchint a).
Proof. unfold fetchint. keep_body. Qed.
#[export] Hint Resolve keeps_fetchint : frame.
Lemma keeps_argint n : keeps fview (argint n).
Proof. unfold argint. keep_body. Qed.
#[export] Hint Resolve keeps_argint : frame.
Lemma keeps_argptr n s : keeps fview (argptr n s).
Proof. unfold argptr. keep_body. Qed.
Lemma keeps_fetchstr_loop n : forall s, keeps fview (fetchstr_loop n s).
Proof. induction n as [|n IH]; intros; cbn [fetchstr_loop]; keep_body. Qed.
#[export] Hint Resolve keeps_argptr keeps_fetchstr_loop : frame.
Lemma keeps_fetchstr a : keeps fview (fetchstr a).
Proof. unfold fetchstr. keep_body. Qed.
#[export] Hint Resolve keeps_fetchstr : frame.
Lemma keeps_argstr n : keeps fview (argstr n).
Proof. unfold argstr. keep_body. Qed.
Lemma keeps_argfd n : keeps fview (argfd n).
Proof. unfold argfd. keep_body. Qed.
Lemma keeps_create path t a b : keeps fview (create path t a b).
Proof. unfold create. keep_body. Qed.
#[export] Hint Resolve keeps_argstr keeps_argfd keeps_create : frame.
Lemma keeps_open_inode path m : keeps fview (open_inode path m).
Proof. unfold open_inode. keep_body. Qed.
#[export] Hint Resolve keeps_open_inode : frame.

(** [argfd] finds a descriptor of the running process. *)
Lemma argfd_slot n k fd f k' : argfd n k = Ok (Some (fd, f)) k' -> exists c, slot k' c fd (Some f).
Proof.
  unfold argfd. intros H. minv H. destruct a as [x|]; [|done].
  destruct ((x <? 0) || _); [done|].
  minv H. apply cur_inv in E0 as (-> & c & Hc & Hp). minv H.
  unfold deref in E0. destruct (p_ofile a !! Z.to_nat x) as [o|] eqn:Eo; [|done]. injection E0 as <- <-.
  injection H as Ho <-. destruct o as [g|]; [|done]. injection Ho as <- <-.
  exists c. split; [done|]. exists (p_ofile a). split; [|done]. unfold ofiles. by rewrite list_lookup_fmap, Hp.
Qed.

(** ** The system calls *)

Lemma counted_adds d0 d k k' : adds d k k' -> counted d0 k -> counted (fun g => d0 g + d g) k'.
Proof. intros (_ & _ & H). apply H. Qed.

(** Closes a goal [counted d k'] from [counted d' k'] by arithmetic on the counts. *)
Ltac by_counts H := eapply counted_ext; [|exact H]; intros ?g; cbv beta iota; unfold none; lia.

Lemma sys_dup_ok k r k' : sys_dup k = Ok r k' -> fds_ok k -> fds_ok k'.
Proof.
  unfold sys_dup, fds_ok. intros H Hok. mkeep H. apply (counted_view _ _ _ V) in Hok.
  destruct a as [[fd0 f]|]; [|by injection H as <- <-]. minv H.
  pose proof (fdalloc_counted f _ _ _ _ E0 Hok) as Hd. destruct a as [fd|]; [|subst; by injection H as <- <-].
  destruct Hd as (c & _ & _ & Hd). minv H. injection H as <- <-.
  pose proof (counted_adds _ _ _ _ (filedup_adds _ _ _ _ E1) Hd) as Hd'. by_counts Hd'.
Qed.

Lemma sys_close_ok k r k' : sys_close k = Ok r k' -> fds_ok k -> fds_ok k'.
Proof.
  unfold sys_close, fds_ok. intros H Hok. mkeep H. apply (counted_view _ _ _ V) in Hok.
  destruct a as [[fd f]|]; [|by injection H as <- <-]. apply argfd_slot in E as (c & Hs).
  minv H. apply set_fd_inv in E as (c' & Hc' & ->). assert (c' = c) as -> by (destruct Hs; congruence).
  pose proof (put_fd_counted _ c fd (Some f) None _ Hs Hok) as Hd. minv H. injection H as <- <-.
  pose proof (counted_adds _ _ _ _ (fileclose_adds _ _ _ _ E) Hd) as Hd'.
  eapply counted_ext; [|exact Hd']. intros g. cbv beta. change (one None g) with 0. unfold none. lia.
Qed.

Lemma sys_dup2_ok k r k' : sys_dup2 k = Ok r k' -> fds_ok k -> fds_ok k'.
Proof.
  unfold sys_dup2, fds_ok. intros H Hok. minv H. unfold curproc, myproc in E.
  destruct (k_cur k) as [c|] eqn:Hc; [|done]. injection E as <- <-. mkeep H.
  destruct a as [[fd f1]|]; [|injection H as <- <-; by apply (counted_view _ _ _ V)]. mkeep H.
  assert (W : fview k1 = fview k) by congruence. apply (counted_view _ _ _ W) in Hok.
  destruct a as [fd2|]; [|by injection H as <- <-].
  destruct ((fd2 <? 0) || _); [by injection H as <- <-|].
  destruct (Z.of_nat fd =? fd2); [by injection H as <- <-|].
  minv H. unfold get_proc in E1. destruct (k_ptable k1 !! c) as [p|] eqn:Ep; [|done]. injection E1 as <- <-.
  minv H. unfold deref in E1. destruct (p_ofile p !! Z.to_nat fd2) as [f2|] eqn:Ef; [|done]. injection E1 as <- <-.
  assert (Hs : slot k1 c (Z.to_nat fd2) f2).
  { split; [unfold fview in W; congruence|]. exists (p_ofile p). split; [|done].
    unfold ofiles. by rewrite list_lookup_fmap, Ep. }
  minv H. pose proof (close_if_adds _ _ _ _ E1) as A. pose proof (counted_adds _ _ _ _ A Hok) as Hd.
  apply (slot_adds _ _ _ _ _ _ A) in Hs. minv H. injection E2 as <- <-.
  pose proof (put_fd_counted _ c _ f2 (Some f1) _ Hs Hd) as Hd1. unfold put_fd in Hd1. minv H. injection H as <- <-.
  pose proof (counted_adds _ _ _ _ (filedup_adds _ _ _ _ E2) Hd1) as Hd2. by_counts Hd2.
Qed.

Lemma open_fail_ok f ip k r k' d :
  open_fail f ip k = Ok r k' -> counted d k -> counted (fun g => d g - one f g) k'.
Proof.
  unfold open_fail. intros H Hd. minv H. pose proof (counted_adds _ _ _ _ (close_if_adds _ _ _ _ E) Hd) as Hd1.
  mkeep H. mkeep H. injection H as <- <-. assert (W : fview k2 = fview k0) by congruence.
  apply (counted_view _ _ _ W) in Hd1. by_counts Hd1.
Qed.

Lemma do_open_ok path m k r k' : do_open path m k = Ok r k' -> fds_ok k -> fds_ok k'.
Proof.
  unfold do_open, fds_ok. intros H Hok. mkeep H. mkeep H. assert (W : fview k1 = fview k) by congruence.
  apply (counted_view _ _ _ W) in Hok. destruct a0 as [ip|].
  2: { mkeep H. injection H as <- <-. by apply (counted_view _ _ _ V1). }
  minv H. pose proof (counted_adds _ _ _ _ (filealloc_adds _ _ _ E1) Hok) as Hd. destruct a0 as [f|].
  2: { pose proof (open_fail_ok _ _ _ _ _ _ H Hd) as Hd1.
       eapply counted_ext; [|exact Hd1]. intros g. cbv beta iota. lia. }
  minv H. pose proof (fdalloc_counted f _ _ _ _ E2 Hd) as Hf. destruct a0 as [fd|].
  2: { subst. pose proof (open_fail_ok _ _ _ _ _ _ H Hd) as Hd1. by_counts Hd1. }
  destruct Hf as (c & _ & _ & Hf). mkeep H. mkeep H. minv H. injection E5 as <- <-. injection H as <- <-.
  assert (W2 : fview k5 = fview k3) by congruence. apply (counted_view _ _ _ W2) in Hf.
  epose proof (counted_adds _ _ _ _ (upd_file_adds f _ k5 _) Hf) as Hd1. by_counts Hd1.
  Unshelve. done.
Qed.

Lemma sys_open_ok k r k' : sys_open k = Ok r k' -> fds_ok k -> fds_ok k'.
Proof.
  unfold sys_open. intros H Hok. mkeep H. apply (counted_view _ _ _ V) in Hok.
  destruct a as [path|]; [|by injection H as <- <-]. mkeep H. apply (counted_view _ _ _ V0) in Hok.
  destruct a as [m|]; [|by injection H as <- <-]. by eapply do_open_ok.
Qed.

Lemma pipealloc_bad_ok f0 f1 k r k' d :
  pipealloc_bad f0 f1 k = Ok r k' -> counted d k -> r = None /\ counted (fun g => d g - one f0 g - one f1 g) k'.
Proof.
  unfold pipealloc_bad. intros H Hd. minv H. minv H. injection H as <- <-. split; [done|].
  pose proof (counted_adds _ _ _ _ (close_if_adds _ _ _ _ E) Hd) as Hd1.
  pose proof (counted_adds _ _ _ _ (close_if_adds _ _ _ _ E0) Hd1) as Hd2. by_counts Hd2.
Qed.

Lemma pipealloc_ok k r k' d :
  pipealloc k = Ok r k' -> counted d k ->
  counted (fun g => match r with Some (a, b) => d g + one (Some a) g + one (Some b) g | None => d g end) k'.
Proof.
  unfold pipealloc. intros H Hd. minv H. pose proof (counted_adds _ _ _ _ (filealloc_adds _ _ _ E) Hd) as H1.
  destruct a as [a|].
  2: { destruct (pipealloc_bad_ok _ _ _ _ _ _ H H1) as [-> H2]. eapply counted_ext; [|exact H2].
       intros g. cbv beta iota. change (one None g) with 0. lia. }
  minv H. pose proof (counted_adds _ _ _ _ (filealloc_adds _ _ _ E0) H1) as H2. destruct a0 as [b|].
  2: { destruct (pipealloc_bad_ok _ _ _ _ _ _ H H2) as [-> H3]. eapply counted_ext; [|exact H3].
       intros g. cbv beta iota. change (one None g) with 0. lia. }
  mkeep H. apply (counted_view _ _ _ V) in H2. destruct (a0 =? 0).
  { destruct (pipealloc_bad_ok _ _ _ _ _ _ H H2) as [-> H3]. by_counts H3. }
  minv H. injection E2 as <- <-. mkeep H. apply (counted_view _ _ _ V0) in H2.
  minv H. injection E3 as <- <-. minv H. injection E3 as <- <-. injection H as <- <-.
  epose proof (counted_adds _ _ _ _ (upd_file_adds a _ k3 _) H2) as H3.
  epose proof (counted_adds _ _ _ _ (upd_file_adds b _ _ _) H3) as H4. by_counts H4.
  Unshelve. all: done.
Qed.

Lemma pipe_bad_ok rf wf k r k' d :
  pipe_bad None rf wf k = Ok r k' -> counted d k -> counted (fun g => d g - one (Some rf) g - one (Some wf) g) k'.
Proof.
  unfold pipe_bad. intros H Hd. minv H. injection E as <- <-. minv H. minv H. injection H as <- <-.
  pose proof (counted_adds _ _ _ _ (fileclose_adds _ _ _ _ E) Hd) as Hd1.
  pose proof (counted_adds _ _ _ _ (fileclose_adds _ _ _ _ E0) Hd1) as Hd2. by_counts Hd2.
Qed.

Lemma sys_pipe_ok k r k' : sys_pipe k = Ok r k' -> fds_ok k -> fds_ok k'.
Proof.
  unfold sys_pipe, fds_ok. intros H Hok. mkeep H. apply (counted_view _ _ _ V) in Hok.
  destruct a as [fd|]; [|by injection H as <- <-]. minv H. pose proof (pipealloc_ok _ _ _ _ E0 Hok) as H1.
  destruct a as [[rf wf]|]; [|by injection H as <- <-]. minv H.
  pose proof (fdalloc_counted rf _ _ _ _ E1 H1) as H2. destruct a as [d0|].
  2: { subst. pose proof (pipe_bad_ok _ _ _ _ _ _ H H1) as H3. by_counts H3. }
  destruct H2 as (c & Hs & -> & H2). minv H. pose proof (fdalloc_counted wf _ _ _ _ E2 H2) as H3.
  destruct a as [d1|].
  - destruct H3 as (c' & _ & _ & H3). mkeep H. mkeep H. injection H as <- <-.
    assert (W : fview k4 = fview k2) by congruence. apply (counted_view _ _ _ W) in H3. by_counts H3.
  - subst. unfold pipe_bad in H. minv H. apply set_fd_inv in E3 as (c' & Hc' & ->).
    assert (Hs' : slot (put_fd c d0 (Some rf) k1) c' d0 (Some rf)).
    { split; [done|]. destruct Hs as (Hc & l & Hl & Hf). simpl in Hc'. assert (c' = c) as -> by congruence.
      exists (<[d0 := Some rf]> l). unfold ofiles in *. simpl. rewrite list_lookup_fmap in *.
      rewrite list_lookup_alter_eq. destruct (k_ptable k1 !! c) as [p|]; [|done]. injection Hl as <-.
      split; [done|]. apply list_lookup_insert_eq. by eapply lookup_lt_Some. }
    pose proof (put_fd_counted _ c' d0 (Some rf) None _ Hs' H2) as H4. minv H. minv H. injection H as <- <-.
    pose proof (counted_adds _ _ _ _ (fileclose_adds _ _ _ _ E3) H4) as H5.
    pose proof (counted_adds _ _ _ _ (fileclose_adds _ _ _ _ E4) H5) as H6.
    eapply counted_ext; [|exact H6]. intros g. cbv beta iota. change (one None g) with 0. unfold none. lia.
Qed.

(** The calls that make, copy and close descriptors. *)
Inductive fd_call : KM Z -> Prop :=
| call_dup : fd_call sys_dup
| call_dup2 : fd_call sys_dup2
| call_close : fd_call sys_close
| call_open : fd_call sys_open
| call_pipe : fd_call sys_pipe.

(** C17: Reference counts are exact: if every open file counts one reference for each
    descriptor of any process that refers to it, it does so again after any
    [sys_dup], [sys_dup2], [sys_close], [sys_open] or [sys_pipe] that returns, on
    every path, the failures included: no reference is leaked and no file in use
    is freed. *)
Theorem fd_counts_exact call k r k' :
  fd_call call -> call k = Ok r k' -> fds_ok k -> fds_ok k'.
Proof. intros [] H; eauto using sys_dup_ok, sys_dup2_ok, sys_close_ok, sys_open_ok, sys_pipe_ok. Qed.

(** ** The theorem at work *)

Definition fds_okb (k : kernel) : bool :=
  forallb (fun g => match k_ftable k !! g with Some x => f_ref x =? refs (ofiles k) g | None => true end)
    (seq 0 (length (k_ftable k))).

Lemma fds_okb_spec k : fds_okb k = true -> fds_ok k.
Proof.
  unfold fds_okb, fds_ok, counted, none. rewrite forallb_forall. intros H g x Hx.
  specialize (H g). rewrite Hx in H. rewrite Z.add_0_r. apply Z.eqb_eq, H, in_seq.
  apply lookup_lt_Some in Hx. lia.
Qed.

(** Process 0 runs, with one page of user memory: its page directory is at 0x80300000,
    its page table at 0x80301000 and the page at 0x80302000.  Its descriptor 0 is an
    open file; the words of its stack, at 0x100, are 0. *)
Definition user_mem : mem :=
  store32 (store32 (fun _ => 0) 0x80300000 (Z.lor (V2P 0x80301000) 7)) 0x80301000 (Z.lor (V2P 0x80302000) 7).
Definition user_proc : proc :=
  set_p_ofile (<[0%nat := Some 0%nat]> (replicate NOFILE None))
    (set_p_tf (set_tf_esp 0x100 zero_trapframe)
      (set_p_state RUNNING (set_p_pid 1 (set_p_pgdir 0x80300000 (set_p_sz PGSIZE zero_proc))))).
Definition user_machine : kernel :=
  let k := boot_kernel 0x80115000 0x80108000 (fun _ => []) 0 in
  set_k_cur (Some 0%nat)
    (set_k_mem user_mem
      (set_k_ptable (<[0%nat := user_proc]> (k_ptable k))
        (set_k_ftable (<[0%nat := mk_file FD_PIPE 1 true true 0x80200000 None 0]> (k_ftable k)) k))).

(** A call that returns [v]. *)
Definition returns (o : outcome kernel Z) (v : Z) : bool :=
  match o with Ok r _ => r =? v | _ => false end.

Lemma returns_spec o v k : returns o v = true -> o = Ok v (state_of o k).
Proof. destruct o; simpl; try done. intros H. by apply Z.eqb_eq in H as ->. Qed.

Lemma fd_counts_exact_witness :
  let k' := state_of (sys_dup user_machine) user_machine in
  sys_dup user_machine = Ok 1 k' /\ fds_ok k'.
Proof.
  intros k'. assert (E : sys_dup user_machine = Ok 1 k') by (apply returns_spec; vm_compute; reflexivity).
  split; [exact E|]. apply (fd_counts_exact sys_dup user_machine 1 k').
  - exact call_dup.
  - exact E.
  - apply fds_okb_spec. vm_compute. reflexivity.
Defined.
