(* ===== verification/Sysproc.v ===== *)
(** * Sysproc: the process system calls (sysproc.c) and the clock (lapic.c)

    The CMOS clock is a device: [cmos t reg] is what the [t]-th read of a register
    returns when it reads [reg]. *)

From S2P Require Import Prelude Bytes Kernel Sync Kalloc Str Console Vm Pipe File Proc Syscall.

(** ** The clock *)

(** [struct rtcdate]. *)
Record rtcdate : Type := mk_rtcdate {
  second : Z; minute : Z; hour : Z; day : Z; month : Z; year : Z
}.

#[export] Instance rtcdate_eq_dec : EqDecision rtcdate.
Proof. solve_decision. Defined.

Section Clock.
Context (cmos : nat -> Z -> Z).

Definition CMOS_STATA : Z := 0x0a.
Definition CMOS_STATB : Z := 0x0b.
Definition CMOS_UIP : Z := 128.

Definition cmos_read (t : nat) (reg : Z) : Z := cmos t reg.

(** Six reads, from the [t]-th. *)
Definition fill_rtcdate (t : nat) : rtcdate :=
  mk_rtcdate (cmos_read t 0x00) (cmos_read (t + 1) 0x02) (cmos_read (t + 2) 0x04)
    (cmos_read (t + 3) 0x07) (cmos_read (t + 4) 0x08) (cmos_read (t + 5) 0x09).

(** The loop that reads until two dates in a row are the same; [None] when it has
    not come to an end within [fuel] turns. *)
Fixpoint stable_date (fuel : nat) (t : nat) : option rtcdate :=
  match fuel with
  | O => None
  | S fuel' =>
      let t1 := fill_rtcdate t in
      if has (cmos_read (t + 6) CMOS_STATA) CMOS_UIP then stable_date fuel' (t + 7)
      else
        let t2 := fill_rtcdate (t + 7) in
        if bool_decide (t1 = t2) then Some t1 else stable_date fuel' (t + 13)
  end.

(** [CONV]. *)
Definition conv (x : Z) : Z := Z.shiftr x 4 * 10 + Z.land x 0xf.

Definition cmostime (fuel : nat) (t : nat) : option rtcdate :=
  let sb := cmos_read t CMOS_STATB in
  let bcd := Z.land sb 4 =? 0 in
  match stable_date fuel (S t) with
  | None => None
  | Some t1 =>
      let t1 :=
        if bcd then mk_rtcdate (conv (second t1)) (conv (minute t1)) (conv (hour t1))
                      (conv (day t1)) (conv (month t1)) (conv (year t1))
        else t1 in
      Some (mk_rtcdate (second t1) (minute t1) (hour t1) (day t1) (month t1) (year t1 + 2000))
  end.

Definition sizeof_rtcdate : Z := 24.

Definition put_rtcdate (d : rtcdate) : list Z :=
  mjoin (le_bytes 4 <$> [second d; minute d; hour d; day d; month d; year d]).

(** [fuel] and [t]: how long the clock is watched, and from which read. *)
Definition sys_date (fuel t : nat) : KM Z :=
  let! a := argptr 0 sizeof_rtcdate in
  match a with
  | None => ret (-1)
  | Some r =>
      match cmostime fuel t with
      | None => spin
      | Some d => uwrite r (put_rtcdate d) ;;; ret 0
      end
  end.

End Clock.

(** ** System calls *)

Section Calls.
Context (forkret_addr : Z).

Definition sys_fork : KM Z := fork forkret_addr.

Definition sys_exit : KM Z := exit ;;; ret 0.

Definition sys_wait : KM Z := wait.

Definition sys_kill : KM Z :=
  let! a := argint 0 in
  match a with
  | None => ret (-1)
  | Some pid => kill pid
  end.

Definition sys_getpid : KM Z :=
  let! p := cur in
  ret (p_pid p).

Definition sys_sbrk : KM Z :=
  let! a := argint 0 in
  match a with
  | None => ret (-1)
  | Some n =>
      let! c := curproc in
      let! p := get_proc c in
      let addr := i32 (p_sz p) in
      if n <? 0 then
        let! r := growproc n in
        if r <? 0 then ret (-1) else ret addr
      else if KERNBASE <=? u32 (addr + n) then ret (-1)
      else
        upd_proc c (fun p => set_p_sz (u32 (p_sz p + n)) p) ;;;
        ret addr
  end.

(** [sys_sleep] from its loop, with [tickslock] held. *)
Definition sys_sleep_from (ticks0 n : Z) : KM Z :=
  let! k := get in
  if u32 (k_ticks k - ticks0) <? u32 n then
    let! killed := cur_killed in
    if killed then release L_ticks ;;; ret (-1)
    else sleep_again C_ticks L_ticks
  else
    release L_ticks ;;;
    ret 0.

Definition sys_sleep : KM Z :=
  let! a := argint 0 in
  match a with
  | None => ret (-1)
  | Some n =>
      acquire L_ticks ;;;
      let! k := get in
      sys_sleep_from (k_ticks k) n
  end.

Definition sys_uptime : KM Z :=
  acquire L_ticks ;;;
  let! k := get in
  release L_ticks ;;;
  ret (i32 (k_ticks k)).

End Calls.
