(* ===== verification/Umalloc.v ===== *)
(** * Umalloc: the memory allocator of user programs (umalloc.c)

    A [Header*] is its address, a multiple of 8; memory is what the headers hold.  [base]
    is the address of the static header and [h_brk] the size of the process, which [sbrk]
    moves as [sys_sbrk] does.  The free list is circular: the header [base], of size 0,
    and the free blocks in the order of their addresses.  [heap_ok] relates it to the
    blocks that the program has been given; the theorems say that [malloc] and [free]
    keep the blocks of the program apart from each other and from the free ones, and that
    no memory is lost.  [sys_sbrk_is_sbrk] joins this with the kernel's call. *)

From stdpp Require Import sorting.
From S2P Require Import Prelude Kernel Sync Syscall Sysproc.

Record heap : Type := mk_heap { h_ptr : Z -> Z; h_size : Z -> Z; h_freep : Z; h_brk : Z }.

Definition hset (f : Z -> Z) (a v : Z) : Z -> Z := fun x => if x =? a then v else f x.

Definition set_ptr (p v : Z) (h : heap) := mk_heap (hset (h_ptr h) p v) (h_size h) (h_freep h) (h_brk h).
Definition set_size (p v : Z) (h : heap) := mk_heap (h_ptr h) (hset (h_size h) p v) (h_freep h) (h_brk h).
Definition set_freep (v : Z) (h : heap) := mk_heap (h_ptr h) (h_size h) v (h_brk h).
Definition set_brk (v : Z) (h : heap) := mk_heap (h_ptr h) (h_size h) (h_freep h) v.

(** [p + n] on [Header*]. *)
Definition padd (p n : Z) : Z := u32 (p + 8 * n).

Section Umalloc.
Context (base : Z).

Notation H := (M heap).

(** The [for] of [free]. *)
Fixpoint free_find (fuel : nat) (bp p : Z) : H Z :=
  match fuel with
  | O => spin
  | S fuel' =>
      let! h := get in
      let next := h_ptr h p in
      if (p <? bp) && (bp <? next) then ret p
      else if (next <=? p) && ((p <? bp) || (bp <? next)) then ret p
      else free_find fuel' bp next
  end.

(** The rest of [free]: [bp] goes after [p]. *)
Definition free_link (bp p : Z) : H unit :=
  let! h := get in
  let next := h_ptr h p in
  (if padd bp (h_size h bp) =? next then
     modify (set_size bp (u32 (h_size h bp + h_size h next))) ;;; modify (set_ptr bp (h_ptr h next))
   else modify (set_ptr bp next)) ;;;
  let! h := get in
  (if padd p (h_size h p) =? bp then
     modify (set_size p (u32 (h_size h p + h_size h bp))) ;;; modify (set_ptr p (h_ptr h bp))
   else modify (set_ptr p bp)) ;;;
  modify (set_freep p).

Definition free (fuel : nat) (ap : Z) : H unit :=
  let bp := padd ap (-1) in
  let! h := get in
  let! p := free_find fuel bp (h_freep h) in
  free_link bp p.

(** What the program sees of [sys_sbrk]: the old size of the process, or -1.  [growproc]
    gives pages back when [n] is negative; the pages above are given at their first use. *)
Definition sbrk (n : Z) : H Z :=
  let! h := get in
  let addr := i32 (h_brk h) in
  if n <? 0 then
    let sz := if h_brk h <=? u32 (h_brk h + n) then h_brk h else u32 (h_brk h + n) in
    if sz =? 0 then ret (-1) else modify (set_brk sz) ;;; ret addr
  else if KERNBASE <=? u32 (addr + n) then ret (-1)
  else modify (set_brk (u32 (h_brk h + n))) ;;; ret addr.

Definition morecore (fuel : nat) (nu : Z) : H Z :=
  let nu := if nu <? 4096 then 4096 else nu in
  let! p := sbrk (i32 (nu * 8)) in
  if p =? -1 then ret 0
  else
    modify (set_size p nu) ;;;
    free fuel (padd p 1) ;;;
    let! h := get in ret (h_freep h).

(** Taking [nunits] of the block [p], which has them. *)
Definition take_block (nunits prevp p : Z) : H Z :=
  let! h := get in
  if h_size h p =? nunits then
    modify (set_ptr prevp (h_ptr h p)) ;;; modify (set_freep prevp) ;;; ret (padd p 1)
  else
    let s := h_size h p - nunits in
    modify (set_size p s) ;;;
    let q := padd p s in
    modify (set_size q nunits) ;;; modify (set_freep prevp) ;;; ret (padd q 1).

(** The [for] of [malloc]. *)
Fixpoint malloc_loop (fuel : nat) (nunits prevp p : Z) : H Z :=
  match fuel with
  | O => spin
  | S fuel' =>
      let! h := get in
      if nunits <=? h_size h p then take_block nunits prevp p
      else if p =? h_freep h then
        let! p := morecore fuel nunits in
        if p =? 0 then ret 0
        else let! h := get in malloc_loop fuel' nunits p (h_ptr h p)
      else malloc_loop fuel' nunits p (h_ptr h p)
  end.

Definition units (nbytes : Z) : Z := u32 (nbytes + 8 - 1) / 8 + 1.

Definition malloc (fuel : nat) (nbytes : Z) : H Z :=
  let! h := get in
  (if h_freep h =? 0 then
     modify (set_ptr base base) ;;; modify (set_freep base) ;;; modify (set_size base 0)
   else ret tt) ;;;
  let! h := get in
  malloc_loop fuel (units nbytes) (h_freep h) (h_ptr h (h_freep h)).

(** ** The free list *)

Notation block := (Z * Z)%type.

(** The headers of [N] hold their sizes and point to the next, the last to [e]. *)
Fixpoint chain (h : heap) (N : list block) (e : Z) : Prop :=
  match N with
  | [] => True
  | (a, s) :: N' => h_size h a = s /\ h_ptr h a = match N' with (b, _) :: _ => b | [] => e end /\ chain h N' e
  end.

(** One block ends before the other begins; [base] has no units but its header. *)
Definition before (x y : block) : Prop := x.1 + 8 * Z.max 1 x.2 <= y.1.

(** No two neighbours touch. *)
Fixpoint gaps (N : list block) : Prop :=
  match N with
  | x :: N' => match N' with y :: _ => x.1 + 8 * x.2 < y.1 | [] => True end /\ gaps N'
  | [] => True
  end.

Definition apart (x y : block) : Prop := x.1 + 8 * x.2 <= y.1 \/ y.1 + 8 * y.2 <= x.1.

Fixpoint all_apart (X : list block) : Prop :=
  match X with
  | [] => True
  | x :: X' => Forall (apart x) X' /\ all_apart X'
  end.

Section Blocks.
Context (top : Z).

(** A block after [base] and within the process, whose size is [top]. *)
Definition placed (x : block) : Prop := x.1 mod 8 = 0 /\ base + 8 <= x.1 /\ 1 <= x.2 /\ x.1 + 8 * x.2 <= top.

Definition head_addr (N : list block) (e : Z) : Z := match N with (b, _) :: _ => b | [] => e end.

(** The free blocks [L], in order, and the blocks [A] of the program, all apart. *)
Record blocks_ok (L A : list block) : Prop := {
  bo_order : StronglySorted before ((base, 0) :: L);
  bo_placed : Forall placed (L ++ A);
  bo_apart : all_apart (L ++ A) }.

Record heap_ok (h : heap) (L A : list block) : Prop := {
  ho_base : 0 < base /\ base + 8 <= top < 2 ^ 31;
  ho_brk : h_brk h = top /\ top mod 8 = 0;
  ho_blocks : blocks_ok L A;
  ho_gaps : gaps ((base, 0) :: L);
  ho_chain : chain h ((base, 0) :: L) base;
  ho_sizes : Forall (fun x => h_size h x.1 = x.2) A;
  ho_freep : h_freep h ∈ base :: L.*1 }.

Definition total (L : list block) : Z := foldr (fun x n => x.2 + n) 0 L.

(** ** Lemmas *)

Lemma chain_app h N1 N2 e : chain h (N1 ++ N2) e <-> chain h N1 (head_addr N2 e) /\ chain h N2 e.
Proof.
  induction N1 as [|[a s] N1 IH]; cbn [chain app]; [tauto|]. rewrite IH.
  assert (E : head_addr (N1 ++ N2) e = head_addr N1 (head_addr N2 e)) by (by destruct N1 as [|[] ?]).
  unfold head_addr in E at 1 2. fold (head_addr (N1 ++ N2) e). destruct N1 as [|[b t] N1]; cbn in *; tauto.
Qed.

Lemma chain_frame h h' N e : (forall a, a ∈ N.*1 -> h_ptr h' a = h_ptr h a /\ h_size h' a = h_size h a) -> chain h N e -> chain h' N e.
Proof.
  induction N as [|[a s] N IH]; [done|]. cbn [chain fmap list_fmap fst]. intros H (A & B & C).
  destruct (H a) as [-> ->]; [by left|]. split; [done|]. split; [done|]. apply IH; [|done]. intros b Hb. apply H. by right.
Qed.

Lemma hset_eq f a v : hset f a v a = v.
Proof. unfold hset. by rewrite Z.eqb_refl. Qed.
Lemma hset_ne f a v x : x <> a -> hset f a v x = f x.
Proof. unfold hset. intros H. by rewrite (proj2 (Z.eqb_neq _ _) H). Qed.

#[export] Instance apart_sym : Symmetric apart.
Proof. intros x y [H|H]; [by right|by left]. Qed.

#[export] Instance all_apart_perm : Proper (Permutation ==> iff) all_apart.
Proof.
  intros X Y. induction 1 as [|x X Y HP IH|x y X|X Y W H1 IH1 H2 IH2]; cbn [all_apart]; [done| | |by rewrite IH1].
  - by rewrite IH, HP.
  - rewrite !Forall_cons. assert (apart x y <-> apart y x) by (split; by intros ?%symmetry). tauto.
Qed.

(** A block in two parts. *)
Lemma apart_split a s t X : 1 <= s -> 1 <= t -> Forall placed X ->
  all_apart ((a, s) :: (a + 8 * s, t) :: X) <-> all_apart ((a, s + t) :: X).
Proof.
  intros Hs Ht HX. cbn [all_apart]. rewrite Forall_cons.
  assert (E : forall x, placed x -> apart (a, s) x /\ apart (a + 8 * s, t) x <-> apart (a, s + t) x).
  { intros [b u] (_ & _ & Hu & _). unfold apart. cbn in *. lia. }
  split.
  - intros [[_ H1] [H2 H3]]. split; [|done]. rewrite !Forall_forall in *. intros x Hx. apply E; [by apply HX|]. split; auto.
  - intros [H1 H2]. split; [split|split; [|done]].
    + unfold apart. cbn. lia.
    + rewrite !Forall_forall in *. intros x Hx. by apply E; auto.
    + rewrite !Forall_forall in *. intros x Hx. by apply E; auto.
Qed.

Lemma total_app L1 L2 : total (L1 ++ L2) = total L1 + total L2.
Proof. unfold total. induction L1 as [|x L1 IH]; cbn; lia. Qed.

Lemma total_cons a s L : total ((a, s) :: L) = s + total L.
Proof. done. Qed.

Lemma gaps_app N1 x N2 : gaps (N1 ++ x :: N2) <-> gaps (N1 ++ [x]) /\ gaps (x :: N2).
Proof. induction N1 as [|y N1 IH]; [cbn; tauto|]. cbn [app gaps] in *. destruct N1; cbn [app] in *; tauto. Qed.

Lemma gaps_resize N a s s' : gaps (N ++ [(a, s)]) -> gaps (N ++ [(a, s')]).
Proof. induction N as [|y N IH]; [done|]. cbn [app gaps]. intros [H1 H2]. split; [|by apply IH]. by destruct N. Qed.

Lemma before_addr x y : before x y -> x.1 < y.1.
Proof. unfold before. lia. Qed.

Lemma sorted_nodup N : StronglySorted before N -> NoDup N.*1.
Proof.
  induction 1 as [|x N HN IH Hx]; cbn; constructor; [|done]. intros ([b t] & E & Hy)%list_elem_of_fmap.
  rewrite Forall_forall in Hx. specialize (Hx _ Hy). apply before_addr in Hx. lia.
Qed.

(** *** Operations on blocks *)

(** A block of the program becomes a free block in its place. *)
Lemma blocks_insert L1 L2 x A :
  blocks_ok (L1 ++ L2) (x :: A) -> Forall (fun y => before y x) L1 -> Forall (before x) L2 -> blocks_ok (L1 ++ x :: L2) A.
Proof.
  intros [O P D] H1 H2. assert (E : (L1 ++ x :: L2) ++ A ≡ₚ (L1 ++ L2) ++ x :: A) by solve_Permutation.
  split; [|by rewrite E|by rewrite E].
  change ((base, 0) :: L1 ++ L2) with (((base, 0) :: L1) ++ L2) in O. change ((base, 0) :: L1 ++ x :: L2) with (((base, 0) :: L1) ++ x :: L2).
  apply StronglySorted_app in O as (O1 & O2 & O3). apply StronglySorted_app. split; [|split; [done|by apply StronglySorted_cons]].
  intros y z Hy Hz. apply elem_of_cons in Hz as [->|Hz]; [|by apply O1]. apply elem_of_cons in Hy as [->|Hy].
  - apply Forall_app in P as [_ P]. apply Forall_cons in P as [(_ & P & _) _]. unfold before. cbn. lia.
  - rewrite Forall_forall in H1. by apply H1.
Qed.

(** Two free blocks that touch become one. *)
Lemma blocks_merge L1 a s t L2 A :
  blocks_ok (L1 ++ (a, s) :: (a + 8 * s, t) :: L2) A -> blocks_ok (L1 ++ (a, s + t) :: L2) A.
Proof.
  intros [O P D].
  assert (Es : (L1 ++ (a, s) :: (a + 8 * s, t) :: L2) ++ A ≡ₚ (a, s) :: (a + 8 * s, t) :: L1 ++ L2 ++ A) by solve_Permutation.
  assert (Em : (L1 ++ (a, s + t) :: L2) ++ A ≡ₚ (a, s + t) :: L1 ++ L2 ++ A) by solve_Permutation.
  rewrite Es in P, D. apply Forall_cons in P as [(P1 & P2 & P3 & P4) P]. apply Forall_cons in P as [(Q1 & Q2 & Q3 & Q4) P]. cbn in *.
  split; [|rewrite Em; constructor; [|done]; repeat split; cbn; lia|rewrite Em; by apply apart_split].
  change ((base, 0) :: L1 ++ (a, s) :: (a + 8 * s, t) :: L2) with (((base, 0) :: L1) ++ (a, s) :: (a + 8 * s, t) :: L2) in O.
  change ((base, 0) :: L1 ++ (a, s + t) :: L2) with (((base, 0) :: L1) ++ (a, s + t) :: L2).
  apply StronglySorted_app in O as (O1 & O2 & O3). apply StronglySorted_cons in O3 as [O3 O4]. apply StronglySorted_cons in O4 as [O4 O5].
  apply StronglySorted_app. split; [|split; [done|apply StronglySorted_cons; split; [|done]]].
  - intros y z Hy Hz. apply elem_of_cons in Hz as [->|Hz]; [|apply O1; [done|by do 2 right]]. apply (O1 y (a, s) Hy). by left.
  - rewrite Forall_forall in *. intros y Hy. specialize (O4 y Hy). unfold before in *. cbn in *. lia.
Qed.

(** The end of a free block goes to the program. *)
Lemma blocks_split L1 a s t L2 A :
  blocks_ok (L1 ++ (a, s + t) :: L2) A -> 1 <= s -> 1 <= t -> blocks_ok (L1 ++ (a, s) :: L2) ((a + 8 * s, t) :: A).
Proof.
  intros [O P D] Hs Ht.
  assert (Es : (L1 ++ (a, s) :: L2) ++ (a + 8 * s, t) :: A ≡ₚ (a, s) :: (a + 8 * s, t) :: L1 ++ L2 ++ A) by solve_Permutation.
  assert (Em : (L1 ++ (a, s + t) :: L2) ++ A ≡ₚ (a, s + t) :: L1 ++ L2 ++ A) by solve_Permutation.
  rewrite Em in P, D. apply Forall_cons in P as [(P1 & P2 & P3 & P4) P]. cbn in *.
  split; [|rewrite Es; constructor; [|constructor; [|done]]; repeat split; cbn; try lia|rewrite Es; by apply apart_split].
  - change ((base, 0) :: L1 ++ (a, s + t) :: L2) with (((base, 0) :: L1) ++ (a, s + t) :: L2) in O.
    change ((base, 0) :: L1 ++ (a, s) :: L2) with (((base, 0) :: L1) ++ (a, s) :: L2).
    apply StronglySorted_app in O as (O1 & O2 & O3). apply StronglySorted_cons in O3 as [O3 O4].
    apply StronglySorted_app. split; [|split; [done|apply StronglySorted_cons; split; [|done]]].
    + intros y z Hy Hz. apply elem_of_cons in Hz as [->|Hz]; [|apply O1; [done|by right]]. apply (O1 y (a, s + t) Hy). by left.
    + rewrite Forall_forall in *. intros y Hy. specialize (O3 y Hy). unfold before in *. cbn in *. lia.
  - by rewrite Z.mul_comm, Z_mod_plus_full.
Qed.

(** A whole free block goes to the program. *)
Lemma blocks_take L1 x L2 A : blocks_ok (L1 ++ x :: L2) A -> blocks_ok (L1 ++ L2) (x :: A).
Proof.
  intros [O P D]. assert (E : (L1 ++ x :: L2) ++ A ≡ₚ (L1 ++ L2) ++ x :: A) by solve_Permutation.
  rewrite E in P, D. split; [|done|done].
  change ((base, 0) :: L1 ++ x :: L2) with (((base, 0) :: L1) ++ x :: L2) in O. change ((base, 0) :: L1 ++ L2) with (((base, 0) :: L1) ++ L2).
  apply StronglySorted_app in O as (O1 & O2 & O3). apply StronglySorted_cons in O3 as [_ O3]. apply StronglySorted_app.
  split; [|done]. intros y z Hy Hz. apply O1; [done|by right].
Qed.

Lemma apart_nodup X : Forall placed X -> all_apart X -> NoDup X.*1.
Proof.
  induction X as [|x X IH]; cbn; [constructor|]. rewrite Forall_cons. intros [Px PX] [H1 H2]. constructor; [|by apply IH].
  intros (y & E & Hy)%list_elem_of_fmap. rewrite Forall_forall in H1, PX. specialize (H1 y Hy). destruct (PX y Hy) as (_ & _ & ? & _), Px as (_ & _ & ? & _).
  unfold apart in H1. lia.
Qed.

(** The blocks below and above a block of the program. *)
Lemma blocks_place L x A : blocks_ok L (x :: A) ->
  exists L1 L2, L = L1 ++ L2 /\ Forall (fun y => before y x) L1 /\ Forall (before x) L2.
Proof.
  intros [O P D]. apply StronglySorted_cons in O as [_ O].
  assert (E : L ++ x :: A ≡ₚ x :: L ++ A) by solve_Permutation. rewrite E in P, D. cbn in D. destruct D as [D _].
  apply Forall_cons in P as [Px P]. apply Forall_app in P as [P _]. apply Forall_app in D as [D _]. clear E A.
  induction O as [|y L HL IH Hy]; [by exists [], []|].
  apply Forall_cons in P as [Py P], D as [Dy D]. destruct Px as (? & ? & ? & ?), Py as (? & ? & ? & ?).
  destruct Dy as [Dy|Dy].
  - exists [], (y :: L). split; [done|]. split; [done|].
    assert (Hxy : before x y) by (unfold before; lia). constructor; [done|]. rewrite Forall_forall in *. intros z Hz. specialize (Hy z Hz). unfold before in *. lia.
  - destruct IH as (L1 & L2 & -> & Ha & Hb); [done..|]. exists (y :: L1), L2. split; [done|]. split; [|done]. constructor; [|done]. unfold before. lia.
Qed.

(** *** The search of [free] *)

(** Below [a], up to the last block below it. *)
Lemma find_below h a p sp L2 C fuel :
  chain h (C ++ (p, sp) :: L2) base -> StronglySorted before (C ++ (p, sp) :: L2) -> Forall (fun y => y.1 < a) (C ++ [(p, sp)]) ->
  Forall (fun y => a < y.1) L2 -> base <= p -> (length C < fuel)%nat -> free_find fuel a (head_addr C p) h = Ok p h.
Proof.
  revert fuel. induction C as [|[q sq] C IH]; intros [|fuel] HC HO H1 H2 Hp HF; try (cbn in HF; lia).
  - cbn [free_find head_addr]. mget. cbn in HC. destruct HC as (_ & -> & _). apply Forall_cons in H1 as [H1 _]. cbn in H1.
    destruct L2 as [|[b t] L2]; [|apply Forall_cons in H2 as [H2 _]; cbn in H2]; repeat (case_bool; zify_bool; try lia); done.
  - cbn [free_find head_addr]. mget. cbn [app chain] in HC. destruct HC as (_ & E & HC).
    replace (h_ptr h q) with (head_addr C p) by (rewrite E; by destruct C as [|[] ?]).
    apply StronglySorted_cons in HO as [HO HO']. apply Forall_cons in H1 as [H1 H1'].
    assert (Hn : q < head_addr C p /\ head_addr C p < a).
    { destruct C as [|[r sr] C]; apply Forall_cons in HO as [HO _], H1' as [H1' _]; apply before_addr in HO; cbn in *; lia. }
    cbn in H1. repeat (case_bool; zify_bool; try lia). apply IH; try done. cbn in HF. lia.
Qed.

(** Above [a], to the end of the list and round to [base]. *)
Lemma find_above h a C fuel :
  chain h C base -> StronglySorted before C -> Forall (fun y => a < y.1) C -> base < a ->
  free_find (length C + fuel) a (head_addr C base) h = free_find fuel a base h.
Proof.
  induction C as [|[q sq] C IH]; intros HC HO H1 Hb; [done|]. cbn [length Nat.add free_find head_addr]. mget.
  cbn [chain] in HC. destruct HC as (_ & -> & HC). apply StronglySorted_cons in HO as [HO HO']. apply Forall_cons in H1 as [H1 H1']. cbn in H1.
  rewrite <- IH by done. destruct C as [|[r sr] C]; [|apply Forall_cons in HO as [HO _]; apply before_addr in HO; cbn in HO];
    cbn [head_addr]; repeat (case_bool; zify_bool; try lia); done.
Qed.

(** [p] is the last block below [x], and [L2] the blocks above. *)
Definition around (L N0 : list block) (p sp : Z) (L2 : list block) (x : block) : Prop :=
  (base, 0) :: L = N0 ++ (p, sp) :: L2 /\ Forall (fun y => before y x) (N0 ++ [(p, sp)]) /\ Forall (before x) L2.

Lemma around_exists L x A : blocks_ok L (x :: A) -> exists N0 p sp L2, around L N0 p sp L2 x.
Proof.
  intros HB. destruct (blocks_place _ _ _ HB) as (L1 & L2 & -> & H1 & H2).
  assert (Hx : placed x). { destruct HB as [_ P _]. apply Forall_app in P as [_ P]. by apply Forall_cons in P as [P _]. }
  destruct (exists_last (l := (base, 0) :: L1)) as (N0 & [p sp] & E); [done|].
  exists N0, p, sp, L2. split; [|split; [|done]].
  - change ((base, 0) :: L1 ++ L2) with (((base, 0) :: L1) ++ L2). by rewrite E, <- app_assoc.
  - rewrite <- E. constructor; [|done]. destruct Hx as (_ & ? & _). unfold before. cbn. lia.
Qed.

Lemma find_ok h L A N0 p sp L2 x fuel :
  heap_ok h L (x :: A) -> around L N0 p sp L2 x -> (length L + length L + 2 <= fuel)%nat -> free_find fuel x.1 (h_freep h) h = Ok p h.
Proof.
  intros [Hb _ HB _ HC _ Hf] (E & H1 & H2) HF. destruct HB as [O P _]. rewrite E in HC, O.
  assert (Hx : base < x.1). { apply Forall_app in P as [_ P]. apply Forall_cons in P as [(_ & ? & _) _]. lia. }
  assert (HL : length L = (length N0 + length L2)%nat). { apply (f_equal length) in E. rewrite length_app in E. cbn in E. lia. }
  assert (Hp : base <= p).
  { destruct N0 as [|n N0]; cbn in E; simplify_eq; [done|]. cbn in O. apply StronglySorted_cons in O as [O _].
    apply Forall_app in O as [_ O]. apply Forall_cons in O as [O _]. apply before_addr in O. cbn in O. lia. }
  assert (G1 : Forall (fun y => y.1 < x.1) (N0 ++ [(p, sp)])) by (eapply Forall_impl; [exact H1|intros y; apply before_addr]).
  assert (G2 : Forall (fun y => x.1 < y.1) L2) by (eapply Forall_impl; [exact H2|intros y; apply before_addr]).
  assert (Below : forall C1 C2 f, N0 ++ [(p, sp)] = C1 ++ C2 -> C2 <> [] -> (length N0 < f)%nat -> free_find f x.1 (head_addr C2 base) h = Ok p h).
  { intros C1 C2 f EC NE Hf'. destruct (exists_last NE) as (C & y & ->). rewrite app_assoc in EC. apply app_inj_tail in EC as [-> <-].
    replace (head_addr (C ++ [(p, sp)]) base) with (head_addr C p) by (by destruct C as [|[] ?]).
    rewrite <- app_assoc in HC, O. apply chain_app in HC as [_ HC]. apply StronglySorted_app in O as (_ & _ & O). rewrite <- app_assoc in G1. apply Forall_app in G1 as [_ G1].
    rewrite length_app in Hf'. eapply find_below; try done. lia. }
  change (base :: L.*1) with (((base, 0) :: L).*1) in Hf. apply list_elem_of_fmap in Hf as ([q sq] & Eq & Hq). cbn in Eq. rewrite Eq. rewrite E in Hq.
  assert (Base : forall f, (length N0 < f)%nat -> free_find f x.1 base h = Ok p h).
  { intros f Hf. destruct N0 as [|n N0]; cbn in E; injection E as En.
    - rewrite En at 1. by apply (Below [] [(p, sp)]).
    - subst n. by apply (Below [] (((base, 0) :: N0) ++ [(p, sp)])). }
  replace (N0 ++ (p, sp) :: L2) with ((N0 ++ [(p, sp)]) ++ L2) in Hq by (by rewrite <- app_assoc).
  apply elem_of_app in Hq as [Hq|Hq]; apply list_elem_of_split in Hq as (B & C & EB).
  - apply (Below B ((q, sq) :: C)); [done..|lia].
  - replace fuel with (length ((q, sq) :: C) + (fuel - length ((q, sq) :: C)))%nat by (rewrite EB in HL; rewrite length_app in HL; cbn in *; lia).
    replace (N0 ++ (p, sp) :: L2) with ((N0 ++ (p, sp) :: B) ++ (q, sq) :: C) in HC, O by (by rewrite <- app_assoc, EB).
    apply chain_app in HC as [_ HC]. apply StronglySorted_app in O as (_ & _ & O). rewrite EB in G2. apply Forall_app in G2 as [_ G2].
    change q with (head_addr ((q, sq) :: C) base) at 2. rewrite find_above by done. apply Base. rewrite EB in HL. rewrite length_app in HL. cbn in *. lia.
Qed.

(** *** Linking *)

(** The nodes of the list, [base] first. *)
Definition nodes_ok (N A : list block) : Prop := exists L, N = (base, 0) :: L /\ blocks_ok L A.

Lemma nodes_insert N1 N2 x A :
  nodes_ok (N1 ++ N2) (x :: A) -> N1 <> [] -> Forall (fun y => before y x) N1 -> Forall (before x) N2 -> nodes_ok (N1 ++ x :: N2) A.
Proof.
  intros (L & E & HB) NE H1 H2. destruct N1 as [|n N1]; [done|]. cbn in E. simplify_eq. apply Forall_cons in H1 as [_ H1].
  exists (N1 ++ x :: N2). split; [done|]. by apply blocks_insert.
Qed.

Lemma nodes_merge N1 a s t N2 A : base < a -> nodes_ok (N1 ++ (a, s) :: (a + 8 * s, t) :: N2) A -> nodes_ok (N1 ++ (a, s + t) :: N2) A.
Proof.
  intros Ha (L & E & HB). destruct N1 as [|n N1]; cbn in E; [injection E; lia|]. injection E as -> <-.
  exists (N1 ++ (a, s + t) :: N2). split; [done|]. by apply blocks_merge.
Qed.

Lemma nodes_nodup N A : 0 < base /\ base + 8 <= top < 2 ^ 31 -> nodes_ok N A -> NoDup (N.*1 ++ A.*1).
Proof.
  intros Hb (L & -> & [O P D]). cbn [fmap list_fmap fst app]. rewrite <- fmap_app. constructor; [|by apply apart_nodup].
  intros (y & E & Hy)%list_elem_of_fmap. rewrite Forall_forall in P. destruct (P y Hy) as (_ & ? & _). lia.
Qed.

Lemma nodes_node N A a s : nodes_ok N A -> (a, s) ∈ N -> a = base /\ s = 0 \/ placed (a, s).
Proof.
  intros (L & -> & [_ P _]) Hy. apply elem_of_cons in Hy as [Hy|Hy]; [left; by injection Hy as -> ->|]. right.
  apply Forall_app in P as [P _]. rewrite Forall_forall in P. by apply P.
Qed.

(** The state between the two halves: [p] may not point to the block after it yet. *)
Record linking (h : heap) (N0 : list block) (p sp : Z) (U A : list block) : Prop := {
  li_brk : h_brk h = top /\ top mod 8 = 0;
  li_nodes : nodes_ok (N0 ++ (p, sp) :: U) A;
  li_gaps : gaps (N0 ++ [(p, sp)]) /\ gaps U;
  li_below : chain h N0 p;
  li_size : h_size h p = sp;
  li_above : chain h U base;
  li_sizes : Forall (fun x => h_size h x.1 = x.2) A }.

Lemma chain_set_ptr h N e p v : p ∉ N.*1 -> chain h N e -> chain (set_ptr p v h) N e.
Proof. intros Hp. apply chain_frame. intros a Ha. split; [|done]. apply hset_ne. congruence. Qed.

Lemma chain_set_size h N e p v : p ∉ N.*1 -> chain h N e -> chain (set_size p v h) N e.
Proof. intros Hp. apply chain_frame. intros a Ha. split; [done|]. apply hset_ne. congruence. Qed.

Lemma chain_set_freep h N e v : chain h N e -> chain (set_freep v h) N e.
Proof. by apply chain_frame. Qed.

Lemma sizes_set_size h A p v : p ∉ A.*1 -> Forall (fun x => h_size h x.1 = x.2) A -> Forall (fun x => h_size (set_size p v h) x.1 = x.2) A.
Proof.
  intros Hp. rewrite !Forall_forall. intros H x Hx. cbn. rewrite hset_ne; [by apply H|]. intros <-. apply Hp, list_elem_of_fmap. eauto.
Qed.

Lemma node_off (N1 : list block) a s N2 (A : list block) :
  NoDup ((N1 ++ (a, s) :: N2).*1 ++ A.*1) -> a ∉ N1.*1 /\ a ∉ N2.*1 /\ a ∉ A.*1.
Proof.
  rewrite fmap_app, fmap_cons, <- app_assoc. cbn [app fst]. intros (_ & H1 & [H2 _]%NoDup_cons)%NoDup_app. split; [|set_solver].
  intros H. apply (H1 a H). by left.
Qed.

(** An element of the second part of a list. *)
Ltac here := rewrite ?fmap_app; apply elem_of_app; right; repeat (first [by left|right]).

Lemma padd_placed x : 0 < base /\ base + 8 <= top < 2 ^ 31 -> placed x -> padd x.1 x.2 = x.1 + 8 * x.2.
Proof. intros ? (? & ? & ? & ?). apply u32_small. lia. Qed.

Definition link_up (bp next : Z) (h : heap) : H unit :=
  if padd bp (h_size h bp) =? next then
    modify (set_size bp (u32 (h_size h bp + h_size h next))) ;;; modify (set_ptr bp (h_ptr h next))
  else modify (set_ptr bp next).

Lemma link_up_ok h L A N0 p sp L2 a s :
  heap_ok h L ((a, s) :: A) -> around L N0 p sp L2 (a, s) ->
  wp (link_up a (h_ptr h p) h) (fun _ h' => exists s' L2', linking h' N0 p sp ((a, s') :: L2') A /\
    s' + total L2' = total L2 + s /\ s <= s' /\ (length L2' <= length L2)%nat) h.
Proof.
  intros [Hb Hbr HB HG HC HS _] (E & H1 & H2). assert (HN : nodes_ok (N0 ++ (p, sp) :: (a, s) :: L2) A).
  { replace (N0 ++ (p, sp) :: (a, s) :: L2) with ((N0 ++ [(p, sp)]) ++ (a, s) :: L2) by (by rewrite <- app_assoc).
    apply nodes_insert; try done; [|by destruct N0]. rewrite <- app_assoc. cbn [app]. rewrite <- E. by exists L. }
  pose proof (nodes_nodup _ _ Hb HN) as ND.
  destruct (node_off _ _ _ _ _ ND) as (Op1 & Op2 & Op3).
  replace (N0 ++ (p, sp) :: (a, s) :: L2) with ((N0 ++ [(p, sp)]) ++ (a, s) :: L2) in ND by (by rewrite <- app_assoc).
  destruct (node_off _ _ _ _ _ ND) as (Oa1 & Oa2 & Oa3). clear ND.
  rewrite fmap_app, not_elem_of_app in Oa1. destruct Oa1 as [Oa1 Na%not_elem_of_cons]. destruct Na as [Na _]. apply not_elem_of_cons in Op2 as [_ Op2]. apply Forall_cons in HS as [Ha HS]. cbn in Ha. rewrite E in HC, HG. apply gaps_app in HG as [G1 G2].
  apply chain_app in HC as [C1 C2]. cbn [chain head_addr] in C1, C2. destruct C2 as (Cs & Cp & C2).
  assert (Pa : placed (a, s)). { destruct HB as [_ P _]. apply Forall_app in P as [_ P]. by apply Forall_cons in P as [P _]. }
  pose proof (padd_placed _ Hb Pa) as Ea. cbn in Ea. unfold link_up. rewrite Ha, Ea, Cp. fold (head_addr L2 base). clear Cp.
  destruct (Z.eqb_spec (a + 8 * s) (head_addr L2 base)) as [Eu|Nu].
  - destruct L2 as [|[b t] L2]; [destruct Pa as (? & ? & ? & ?); cbn in *; lia|]. cbn [head_addr] in Eu. subst b. cbn [chain] in C2. destruct C2 as (Ct & Cn & C2).
    assert (Pt : 1 <= t < 2 ^ 31 /\ 0 <= s < 2 ^ 31).
    { destruct (nodes_node _ _ (a + 8 * s) t HN) as [[? _]|(? & ? & ? & ?)]; [here| |]; destruct Pa as (? & ? & ? & ?); cbn in *; lia. }
    unfold wp. mred. exists (s + t), L2. split; [|rewrite total_cons; cbn [length]; lia].
    cbn [head_addr]. rewrite Ct, u32_small by lia. split; [done|..].
    + replace (N0 ++ (p, sp) :: (a, s + t) :: L2) with ((N0 ++ [(p, sp)]) ++ (a, s + t) :: L2) by (by rewrite <- app_assoc).
      apply nodes_merge; [destruct Pa as (? & ? & ? & ?); cbn in *; lia|]. by rewrite <- app_assoc.
    + split; [done|]. destruct G2 as (_ & G2 & G3). split; [|done]. destruct L2; cbn in *; lia.
    + apply chain_set_ptr, chain_set_size; [done..].
    + cbn [h_size set_ptr set_size]. rewrite hset_ne by (cbn in Na; congruence). exact Cs.
    + cbn [chain]. split; [cbn; by rewrite hset_eq|]. split; [cbn; rewrite hset_eq; exact Cn|].
      apply not_elem_of_cons in Oa2 as [_ Oa2]. by apply chain_set_ptr, chain_set_size.
    + apply (sizes_set_size h); [done|exact HS].
  - unfold wp. mred. exists s, L2. split; [|lia]. split; [done|done| | | | |done].
    + split; [done|]. destruct G2 as (_ & G2). split; [|done]. destruct L2 as [|y L2]; [done|]. apply Forall_cons in H2 as [H2 _].
      destruct y as [b t], Pa as (_ & _ & ? & _). unfold before in H2. cbn in *. lia.
    + by apply chain_set_ptr.
    + done.
    + cbn [chain]. split; [done|]. split; [cbn; by rewrite hset_eq|]. by apply chain_set_ptr.
Qed.

Definition link_down (bp p : Z) (h : heap) : H unit :=
  if padd p (h_size h p) =? bp then
    modify (set_size p (u32 (h_size h p + h_size h bp))) ;;; modify (set_ptr p (h_ptr h bp))
  else modify (set_ptr p bp).

Lemma link_down_ok h N0 p sp a s L2 A :
  0 < base /\ base + 8 <= top < 2 ^ 31 -> linking h N0 p sp ((a, s) :: L2) A ->
  wp (link_down a p h ;;; modify (set_freep p))
    (fun _ h' => exists L', heap_ok h' L' A /\ total L' = total (N0 ++ (p, sp) :: (a, s) :: L2) /\
      (S (length L') <= length (N0 ++ (p, sp) :: (a, s) :: L2))%nat /\ exists y, y ∈ L' /\ s <= y.2) h.
Proof.
  intros Hb [Hbr HN [G1 G2] C1 Cp C2 HS]. pose proof (nodes_nodup _ _ Hb HN) as ND.
  destruct (node_off _ _ _ _ _ ND) as (Op1 & Op2 & Op3).
  replace (N0 ++ (p, sp) :: (a, s) :: L2) with ((N0 ++ [(p, sp)]) ++ (a, s) :: L2) in ND by (by rewrite <- app_assoc).
  destruct (node_off _ _ _ _ _ ND) as (Oa1 & Oa2 & Oa3). clear ND.
  rewrite fmap_app, not_elem_of_app in Oa1. destruct Oa1 as [Oa1 Na%not_elem_of_cons]. destruct Na as [Na _]. apply not_elem_of_cons in Op2 as [_ Op2]. cbn [chain] in C2. destruct C2 as (Ca & Cn & C2).
  fold (head_addr L2 base) in Cn.
  apply not_eq_sym in Na.
  assert (Hp : p = base /\ sp = 0 \/ placed (p, sp)) by (apply (nodes_node _ _ _ _ HN); here).
  assert (Ha : a = base /\ s = 0 \/ placed (a, s)) by (apply (nodes_node _ _ _ _ HN); here).
  assert (Ep : padd p sp = p + 8 * sp). { destruct Hp as [[-> ->]|Hp]; [|exact (padd_placed _ Hb Hp)]. apply u32_small. lia. }
  unfold link_down. rewrite Cp, Ep. destruct (Z.eqb_spec (p + 8 * sp) a) as [E|NE]; unfold wp; mred.
  - destruct Hp as [[-> ->]|Hp]; [destruct Ha as [[-> _]|(_ & ? & _)]; cbn in *; lia|].
    assert (Pa : placed (a, s)). { destruct Ha as [[-> _]|Ha]; [|done]. destruct Hp as (_ & ? & ? & _). cbn in *. lia. }
    rewrite Ca, u32_small by (destruct Hp as (? & ? & ? & ?), Pa as (? & ? & ? & ?); cbn in *; lia).
    subst a. apply nodes_merge in HN; [|destruct Hp as (? & ? & ? & ?); cbn in *; lia]. pose proof HN as (L & EL & HB).
    exists L. split; [|split; [|split]].
    2: change (total L) with (total ((base, 0) :: L)); rewrite <- EL, !total_app, !total_cons; lia.
    2: change (S (length L)) with (length ((base, 0) :: L)); rewrite <- EL, !length_app; cbn; lia.
    2: assert (HI : (p, sp + s) ∈ (base, 0) :: L) by (rewrite <- EL; here).
    2: destruct Hp as (_ & ? & ? & _); apply elem_of_cons in HI as [HI|HI]; [injection HI; cbn in *; lia|]; exists (p, sp + s); cbn in *; split; [done|lia].
    split; [done|done|done| | | |].
    + rewrite <- EL. apply gaps_app. split; [by eapply gaps_resize|]. destruct G2 as [G2 G3]. split; [|done]. destruct L2; cbn in *; lia.
    + rewrite <- EL. apply chain_app. cbn [chain head_addr]. split; [apply chain_set_freep, chain_set_ptr, chain_set_size; [done..]|].
      cbn [h_size h_ptr set_freep set_ptr set_size]. rewrite !hset_eq. split; [done|]. split; [exact Cn|].
      apply chain_set_freep, chain_set_ptr, chain_set_size; [done..].
    + apply (sizes_set_size h); [done|exact HS].
    + cbn [h_freep set_freep]. change (base :: L.*1) with (((base, 0) :: L).*1). rewrite <- EL. here.
  - destruct HN as (L & EL & HB). exists L. split; [|rewrite EL; split; [done|split; [done|]]].
    2: exists (a, s); split; [|cbn; lia]; destruct N0; cbn in EL; injection EL; intros <-; intros; [by left|here].
    split; [done|done|done| | |done|].
    + rewrite <- EL. apply gaps_app. split; [done|]. split; [|done]. destruct HB as [O _ _]. rewrite <- EL in O. apply StronglySorted_app in O as (_ & _ & O).
      apply StronglySorted_cons in O as [O _]. apply Forall_cons in O as [O _]. destruct Hp as [[-> ->]|(_ & _ & ? & _)]; unfold before in O; cbn in *; lia.
    + rewrite <- EL. apply chain_app. cbn [chain head_addr]. split; [by apply chain_set_freep, chain_set_ptr|].
      cbn [h_size h_ptr set_freep set_ptr set_size]. rewrite hset_eq, hset_ne by done.
      do 4 (split; [done|]). by apply chain_set_freep, chain_set_ptr.
    + cbn [h_freep set_freep]. change (base :: L.*1) with (((base, 0) :: L).*1). rewrite <- EL. here.
Qed.

(** The free blocks [L] and one more of [s] units. *)
Definition freed (L : list block) (s : Z) (L' : list block) : Prop :=
  total L' = total L + s /\ (length L' <= S (length L))%nat /\ exists y, y ∈ L' /\ s <= y.2.

Lemma free_link_ok h L A N0 p sp L2 a s :
  heap_ok h L ((a, s) :: A) -> around L N0 p sp L2 (a, s) ->
  wp (free_link a p) (fun _ h' => exists L', heap_ok h' L' A /\ freed L s L') h.
Proof.
  intros HH HA. unfold free_link. apply wp_bind. unfold get, wp at 1. fold (link_up a (h_ptr h p) h). apply wp_bind.
  eapply wp_mono; [exact (link_up_ok _ _ _ _ _ _ _ _ _ HH HA)|]. intros [] h1 (s' & L2' & HL & HT & Hs & HLe).
  apply wp_bind. unfold get, wp at 1. fold (link_down a p h1).
  eapply wp_mono; [exact (link_down_ok _ _ _ _ _ _ _ _ (ho_base _ _ _ HH) HL)|]. intros [] h2 (L' & HL' & HT' & HLe' & y & Hy & Hys).
  exists L'. split; [done|]. destruct HA as (E & _). split; [|split; [|exists y; split; [done|lia]]].
  - apply (f_equal total) in E. revert HT' E. rewrite !total_app, !total_cons. lia.
  - apply (f_equal length) in E. revert HLe' E. rewrite !length_app. cbn [length]. lia.
Qed.

(** A call of [free] for a block that the program has. *)
Lemma free_wp h L A a s fuel :
  heap_ok h L ((a, s) :: A) -> (2 * length L + 2 <= fuel)%nat ->
  wp (free fuel (a + 8)) (fun _ h' => exists L', heap_ok h' L' A /\ freed L s L') h.
Proof.
  intros HH HF. destruct (around_exists _ _ _ (ho_blocks _ _ _ HH)) as (N0 & p & sp & L2 & HA).
  assert (Ea : padd (a + 8) (-1) = a).
  { destruct (ho_blocks _ _ _ HH) as [_ P _], (ho_base _ _ _ HH). apply Forall_app in P as [_ P]. apply Forall_cons in P as [(? & ? & ? & ?) _]. cbn in *.
    unfold padd. rewrite u32_small; lia. }
  unfold free. rewrite Ea. apply wp_bind. unfold get, wp at 1. apply wp_bind.
  eapply wp_intro; [eapply (find_ok _ _ _ _ _ _ _ (a, s)); [done..|lia]|]. by eapply free_link_ok.
Qed.

(** *** Taking a block *)

(** A node that fits comes right after the one before it on the way round. *)
Lemma next_fits h L A pv n : heap_ok h L A -> pv ∈ base :: L.*1 -> 1 <= n <= h_size h (h_ptr h pv) ->
  exists N0 sv p s N2, (base, 0) :: L = N0 ++ (pv, sv) :: (p, s) :: N2 /\ h_ptr h pv = p /\ h_size h p = s /\ placed (p, s).
Proof.
  intros [Hb _ HB _ HC _ _] Hpv Hn. change (base :: L.*1) with (((base, 0) :: L).*1) in Hpv.
  apply list_elem_of_fmap in Hpv as ([q sv] & Eq & Hq). cbn in Eq. subst q. apply list_elem_of_split in Hq as (N0 & C & E).
  pose proof HC as HC'. rewrite E in HC. apply chain_app in HC as [_ HC]. cbn [chain] in HC. destruct HC as (_ & HP & HC).
  destruct C as [|[p s] N2]; [rewrite HP in Hn; destruct HC' as [HC' _]; lia|]. cbn [chain] in HC. destruct HC as (Hs & _).
  exists N0, sv, p, s, N2. split; [done|]. split; [done|]. split; [done|].
  assert (HI : (p, s) ∈ L) by (destruct N0; cbn in E; injection E; intros ->; intros; [by left|here]).
  destruct HB as [_ P _]. apply Forall_app in P as [P _]. rewrite Forall_forall in P. by apply P.
Qed.

Lemma take_ok h L A pv n : heap_ok h L A -> pv ∈ base :: L.*1 -> 1 <= n <= h_size h (h_ptr h pv) ->
  wp (take_block n pv (h_ptr h pv))
    (fun r h' => exists L', heap_ok h' L' ((r - 8, n) :: A) /\ total L' + n = total L /\ (length L' <= length L)%nat) h.
Proof.
  intros HH Hpv Hn. destruct (next_fits _ _ _ _ _ HH Hpv Hn) as (N0 & sv & p & s & N2 & E & Ep & Es & Pp). destruct HH as [Hb Hbr HB HG HC HS _].
  rewrite Ep, Es in *. pose proof (nodes_nodup _ _ Hb (ex_intro _ L (conj eq_refl HB))) as ND. rewrite E in ND, HC, HG.
  apply gaps_app in HG as [G1 G2]. cbn [gaps] in G2. destruct G2 as (G2 & G3 & G4).
  destruct (node_off _ _ _ _ _ ND) as (Ov1 & Ov2 & Ov3).
  replace (N0 ++ (pv, sv) :: (p, s) :: N2) with ((N0 ++ [(pv, sv)]) ++ (p, s) :: N2) in ND, E by (by rewrite <- app_assoc).
  destruct (node_off _ _ _ _ _ ND) as (Op1 & Op2 & Op3).
  rewrite fmap_app, not_elem_of_app in Op1. destruct Op1 as [Op1 [Nv _]%not_elem_of_cons].
  destruct (N0 ++ [(pv, sv)]) as [|n0 L1] eqn:EN; [by destruct N0|]. cbn [app] in E. injection E as <- ->. rewrite <- EN in G1.
  rewrite total_app, total_cons. unfold take_block, wp. mget. rewrite Es.
  apply chain_app in HC as [C1 C2]. cbn [chain head_addr] in C1, C2. destruct C2 as (Cv & _ & Cs & Cn & C2). fold (head_addr N2 base) in Cn.
  destruct Pp as (? & ? & ? & ?). cbn in *. destruct (Z.eqb_spec s n) as [->|NE]; mred.
  - exists (L1 ++ N2). unfold padd. rewrite u32_small by lia. replace (p + 8 * 1 - 8) with p by lia. rewrite total_app, !length_app. cbn [length].
    split; [|lia]. split; [done|done|by apply blocks_take| | | |].
    + change ((base, 0) :: L1 ++ N2) with (((base, 0) :: L1) ++ N2). rewrite <- EN, <- app_assoc. apply gaps_app. split; [done|]. split; [|done].
      destruct N2; cbn in *; lia.
    + change ((base, 0) :: L1 ++ N2) with (((base, 0) :: L1) ++ N2). rewrite <- EN, <- app_assoc. apply chain_app.
      split; [by apply chain_set_freep, chain_set_ptr|]. cbn [app chain h_size h_ptr set_freep set_ptr]. rewrite hset_eq.
      split; [done|]. split; [done|]. apply not_elem_of_cons in Ov2 as [_ Ov2]. by apply chain_set_freep, chain_set_ptr.
    + constructor; [done|done].
    + cbn [h_freep set_freep]. change (base :: (L1 ++ N2).*1) with ((((base, 0) :: L1) ++ N2).*1). rewrite <- EN, <- app_assoc. here.
  - rewrite !length_app. cbn [length]. exists (L1 ++ (p, s - n) :: N2). unfold padd. rewrite (u32_small (p + _)) by lia. rewrite u32_small by lia.
    replace (p + 8 * (s - n) + 8 * 1 - 8) with (p + 8 * (s - n)) by lia. rewrite total_app, total_cons, !length_app. cbn [length]. split; [|lia].
    assert (HB' : blocks_ok (L1 ++ (p, s - n) :: N2) ((p + 8 * (s - n), n) :: A)).
    { apply blocks_split; [|lia..]. by replace (s - n + n) with s by lia. }
    pose proof (nodes_nodup _ _ Hb (ex_intro _ _ (conj eq_refl HB'))) as ND'.
    replace (((base, 0) :: L1 ++ (p, s - n) :: N2).*1 ++ ((p + 8 * (s - n), n) :: A).*1)
      with ((((base, 0) :: L1 ++ (p, s - n) :: N2) ++ (p + 8 * (s - n), n) :: []).*1 ++ A.*1) in ND' by (by rewrite fmap_app, <- app_assoc).
    destruct (node_off _ _ _ _ _ ND') as (Oq1 & _ & Oq3).
    change ((base, 0) :: L1 ++ (p, s - n) :: N2) with (((base, 0) :: L1) ++ (p, s - n) :: N2) in Oq1. rewrite <- EN, <- app_assoc in Oq1.
    split; [done|done|done| | | |].
    + change ((base, 0) :: L1 ++ (p, s - n) :: N2) with (((base, 0) :: L1) ++ (p, s - n) :: N2). rewrite <- EN, <- app_assoc.
      apply gaps_app. split; [done|]. split; [done|]. split; [|done]. destruct N2; cbn in *; lia.
    + change ((base, 0) :: L1 ++ (p, s - n) :: N2) with (((base, 0) :: L1) ++ (p, s - n) :: N2).
      rewrite <- EN, <- app_assoc. apply chain_set_freep, chain_set_size; [done|].
      apply chain_app. split; [by apply chain_set_size|]. cbn [app chain h_size h_ptr set_size]. rewrite hset_eq, hset_ne by (cbn in Nv; congruence).
      do 4 (split; [done|]). by apply chain_set_size.
    + cbn [h_size set_freep set_size]. constructor; [cbn; by rewrite hset_eq|]. by apply (sizes_set_size (set_size p (s - n) h)), (sizes_set_size h).
    + cbn [h_freep set_freep]. change (base :: (L1 ++ (p, s - n) :: N2).*1) with ((((base, 0) :: L1) ++ (p, s - n) :: N2).*1).
      rewrite <- EN, <- app_assoc. here.
Qed.

(** *** The search of [malloc] *)

(** The nodes that follow [pv]. *)
Fixpoint path (h : heap) (pv : Z) (R : list block) : Prop :=
  match R with
  | [] => True
  | (p, s) :: R' => h_ptr h pv = p /\ h_size h p = s /\ path h p R'
  end.

Lemma chain_path h C e R u :
  h_ptr h u = head_addr C e -> chain h C e -> (forall v, h_ptr h v = e -> path h v R) -> path h u (C ++ R).
Proof.
  revert u. induction C as [|[p s] C IH]; intros u E HC HR; [by apply HR|]. cbn [chain] in HC. destruct HC as (Es & En & HC).
  cbn [app path]. split; [done|]. split; [done|]. by apply IH.
Qed.

(** The list once round from [freep]. *)
Lemma round_path h L A : heap_ok h L A ->
  exists R x, path h (h_freep h) (R ++ [x]) /\ x.1 = h_freep h /\ Forall (fun y => y.1 <> h_freep h) R /\
    (base, 0) :: L ≡ₚ R ++ [x].
Proof.
  intros [Hb Hbr HB _ HC _ Hf]. change (base :: L.*1) with (((base, 0) :: L).*1) in Hf.
  apply list_elem_of_fmap in Hf as ([q sq] & Eq & Hq). cbn in Eq. apply list_elem_of_split in Hq as (N1 & N2 & E).
  pose proof (nodes_nodup _ _ Hb (ex_intro _ L (conj eq_refl HB))) as ND. rewrite E in ND, HC. destruct (node_off _ _ _ _ _ ND) as (O1 & O2 & _).
  exists (N2 ++ N1), (q, sq). rewrite Eq. split; [|split; [done|split]].
  - rewrite <- app_assoc. apply chain_app in HC as [C1 C2]. cbn [chain] in C2. destruct C2 as (Cs & Cn & C2).
    apply chain_path with (e := base); [exact Cn|done|]. intros v Hv. rewrite <- (app_nil_r (N1 ++ _)).
    apply chain_path with (e := head_addr N2 base).
    + rewrite Hv. destruct N1 as [|[b t] N1]; cbn in E; by injection E.
    + apply chain_app. by cbn [chain head_addr].
    + done.
  - apply Forall_app. split; apply Forall_forall; intros y Hy <-; [apply O2|apply O1]; apply list_elem_of_fmap; eauto.
  - rewrite E. solve_Permutation.
Qed.

(** What follows a round without a block that fits. *)
Definition grow (fuel : nat) (n : Z) : H Z :=
  let! p := morecore (S fuel) n in
  if p =? 0 then ret 0 else let! h := get in malloc_loop fuel n p (h_ptr h p).

Lemma malloc_loop_eq f n pv p h : malloc_loop (S f) n pv p h =
  if n <=? h_size h p then take_block n pv p h else if p =? h_freep h then grow f n h else malloc_loop f n p (h_ptr h p) h.
Proof. cbn [malloc_loop]. mget. case_bool; [done|]. by case_bool. Qed.

Lemma scan_ok h (N : list Z) n x f R pv :
  pv ∈ N -> Forall (fun y => y.1 ∈ N) R -> path h pv (R ++ [x]) -> x.1 = h_freep h -> Forall (fun y => y.1 <> h_freep h) R ->
  (exists u, u ∈ N /\ n <= h_size h (h_ptr h u) /\ malloc_loop (length R + S f) n pv (h_ptr h pv) h = take_block n u (h_ptr h u) h) \/
  Forall (fun y => y.2 < n) (R ++ [x]) /\ malloc_loop (length R + S f) n pv (h_ptr h pv) h = grow f n h.
Proof.
  revert pv. induction R as [|[p s] R IH]; intros pv Hpv HN HP Hx HR.
  - destruct x as [p s]. cbn in HP, Hx. destruct HP as (Ep & Es & _). cbn [length Nat.add]. rewrite malloc_loop_eq.
    destruct (Z.leb_spec n (h_size h (h_ptr h pv))); [left; eauto|right].
    rewrite Ep, Hx, Z.eqb_refl. split; [|done]. repeat constructor. cbn. rewrite Ep in *. lia.
  - cbn [app path] in HP. destruct HP as (Ep & Es & HP). apply Forall_cons in HN as [Hp HN], HR as [Hne HR]. cbn in Hp, Hne.
    cbn [length Nat.add]. rewrite malloc_loop_eq.
    destruct (Z.leb_spec n (h_size h (h_ptr h pv))); [left; eauto|]. rewrite Ep, (proj2 (Z.eqb_neq _ _) Hne).
    destruct (IH p Hp HN HP Hx HR) as [HL|[HF HL]]; [by left|right]. split; [|done]. constructor; [cbn; rewrite Ep in *; lia|done].
Qed.

(** [malloc] from a list: a block of it, or more memory. *)
Lemma search_ok h L A n f : heap_ok h L A -> 1 <= n ->
  let m := malloc_loop (S (length L) + f) n (h_freep h) (h_ptr h (h_freep h)) in
  wp m (fun r h' => exists L', heap_ok h' L' ((r - 8, n) :: A) /\ total L' + n = total L /\ (length L' <= length L)%nat) h \/
  Forall (fun y => y.2 < n) L /\ m h = grow f n h.
Proof.
  intros HH Hn. destruct (round_path _ _ _ HH) as (R & x & HP & Hx & HR & HE).
  assert (HL : length L = length R). { apply Permutation_length in HE. rewrite length_app in HE. cbn in HE. lia. }
  destruct (scan_ok h (base :: L.*1) n x f R (h_freep h)) as [(u & Hu & Hfit & E)|[HF E]]; try done.
  - apply (ho_freep _ _ _ HH).
  - apply Forall_forall. intros y Hy. change (base :: L.*1) with (((base, 0) :: L).*1). rewrite HE. apply list_elem_of_fmap. exists y. set_solver.
  - left. replace (S (length L) + f)%nat with (length R + S f)%nat by lia. unfold wp. rewrite E. by apply take_ok.
  - right. replace (S (length L) + f)%nat with (length R + S f)%nat by lia. split; [|done]. rewrite <- HE in HF. by apply Forall_cons in HF as [_ HF].
Qed.

End Blocks.

(** *** More memory *)

Lemma blocks_mono top top' L A : top <= top' -> blocks_ok top L A -> blocks_ok top' L A.
Proof. intros HT [O P D]. split; [done| |done]. eapply Forall_impl; [exact P|]. intros x (? & ? & ? & ?). repeat split; lia. Qed.

Lemma sbrk_eq h b : 0 <= h_brk h < 2 ^ 31 -> 0 <= b < 2 ^ 31 ->
  sbrk b h = if KERNBASE <=? h_brk h + b then Ok (-1) h else Ok (h_brk h) (set_brk (h_brk h + b) h).
Proof.
  intros H1 H2. unfold sbrk. mget. rewrite i32_small, !u32_small by lia. destruct (Z.ltb_spec b 0); [lia|]. by case_bool.
Qed.

(** A new block from the end of the process. *)
Lemma grow_heap top h L A s : heap_ok top h L A -> 1 <= s -> top + 8 * s < 2 ^ 31 ->
  heap_ok (top + 8 * s) (set_size top s (set_brk (top + 8 * s) h)) L ((top, s) :: A).
Proof.
  intros [Hb [Hbr Hm] HB HG HC HS Hf] Hs Ht.
  assert (HB' : blocks_ok (top + 8 * s) L ((top, s) :: A)).
  { pose proof (blocks_mono top (top + 8 * s) _ _ ltac:(lia) HB) as [O P _]. assert (E : L ++ (top, s) :: A ≡ₚ (top, s) :: L ++ A) by solve_Permutation.
    split; [done| |]; rewrite E.
    - constructor; [|done]. repeat split; cbn; lia.
    - destruct HB as [_ P' D]. cbn. split; [|done]. eapply Forall_impl; [exact P'|]. intros y (? & ? & ? & ?). right. done. }
  pose proof (nodes_nodup (top + 8 * s) _ _ ltac:(lia) (ex_intro _ _ (conj eq_refl HB'))) as ND.
  replace (((base, 0) :: L).*1 ++ ((top, s) :: A).*1) with ((((base, 0) :: L) ++ (top, s) :: []).*1 ++ A.*1) in ND by (by rewrite fmap_app, <- app_assoc).
  destruct (node_off _ _ _ _ _ ND) as (O1 & _ & O3).
  split; [lia|split; [done|]|done|done| | |done].
  - by rewrite Z.mul_comm, Z_mod_plus_full.
  - apply chain_set_size; [done|]. by apply (chain_frame h).
  - constructor; [cbn; by rewrite hset_eq|]. by apply (sizes_set_size (set_brk (top + 8 * s) h)).
Qed.

Lemma freep_pos top h L A : heap_ok top h L A -> 0 < h_freep h.
Proof.
  intros [Hb _ [_ P _] _ _ _ Hf]. apply Forall_app in P as [P _]. apply elem_of_cons in Hf as [->|([b t] & -> & Hb2)%list_elem_of_fmap]; [lia|].
  rewrite Forall_forall in P. destruct (P _ Hb2) as (_ & ? & _). cbn in *. lia.
Qed.

(** The units that [morecore] asks for. *)
Definition nu_of (n : Z) : Z := Z.max 4096 n.

Lemma morecore_wp h L A n fuel : heap_ok (h_brk h) h L A -> 1 <= n < 2 ^ 28 -> (2 * length L + 2 <= fuel)%nat ->
  if KERNBASE <=? h_brk h + 8 * nu_of n then morecore fuel n h = Ok 0 h
  else wp (morecore fuel n) (fun r h' => r = h_freep h' /\ r <> 0 /\
    exists L', heap_ok (h_brk h + 8 * nu_of n) h' L' A /\ freed L (nu_of n) L') h.
Proof.
  intros HH Hn HF. pose proof (ho_base _ _ _ _ HH) as Hb.
  assert (E : morecore fuel n h = bind (sbrk (8 * nu_of n)) (fun p =>
     if p =? -1 then ret 0 else modify (set_size p (nu_of n)) ;;; free fuel (padd p 1) ;;; let! h := get in ret (h_freep h)) h).
  { unfold morecore, nu_of. destruct (Z.ltb_spec n 4096); [rewrite Z.max_l by lia|rewrite Z.max_r by lia]; [done|]. rewrite Z.mul_comm, i32_small by lia. done. }
  pose proof (sbrk_eq h (8 * nu_of n) ltac:(lia) ltac:(unfold nu_of; lia)) as ES. unfold wp. rewrite E. clear E.
  destruct (Z.leb_spec KERNBASE (h_brk h + 8 * nu_of n)); unfold bind at 1; rewrite ES; [done|]. cbn beta iota. rewrite (proj2 (Z.eqb_neq _ _)) by lia.
  change (KERNBASE) with (2 ^ 31) in *. unfold padd. rewrite u32_small by (unfold nu_of in *; lia).
  pose proof (grow_heap (h_brk h) _ _ _ (nu_of n) HH ltac:(unfold nu_of; lia) ltac:(lia)) as HG.
  pose proof (free_wp _ _ _ _ _ _ _ HG HF) as HW. unfold bind, modify. unfold wp in HW. rewrite Z.mul_1_r. destruct (free _ _ _) as [[] h2| | | |]; try done.
  destruct HW as (L' & HH' & HFr). split; [done|]. split; [|by exists L'].
  pose proof (freep_pos _ _ _ _ HH'). cbn. lia.
Qed.

(** ** Programs *)

(** The heap of a program, before and after its first call of [malloc]. *)
Definition heap_inv (h : heap) (L A : list block) : Prop :=
  heap_ok (h_brk h) h L A \/
  L = [] /\ A = [] /\ h_freep h = 0 /\ 0 < base /\ base + 8 <= h_brk h < 2 ^ 31 /\ h_brk h mod 8 = 0.

(** A block of [n] units for the program; memory comes from the end of the process only. *)
Definition given (h : heap) (L A : list block) (n r : Z) (h' : heap) (L' : list block) : Prop :=
  heap_ok (h_brk h') h' L' ((r - 8, n) :: A) /\ 8 * (total L' + n) - h_brk h' = 8 * total L - h_brk h /\ (length L' <= S (length L))%nat.

(** No memory: no free block fits and the process would reach the kernel. *)
Definition refused (h : heap) (L : list block) (n : Z) : Prop :=
  Forall (fun y => y.2 < n) L /\ KERNBASE <= h_brk h + 8 * nu_of n.

Lemma malloc_loop_wp h L A n fuel : heap_ok (h_brk h) h L A -> 1 <= n < 2 ^ 28 -> (4 * length L + 8 <= fuel)%nat ->
  wp (malloc_loop fuel n (h_freep h) (h_ptr h (h_freep h)))
    (fun r h' => r = 0 /\ h' = h /\ refused h L n \/ exists L', given h L A n r h' L') h.
Proof.
  intros HH Hn HF. replace fuel with (S (length L) + (fuel - S (length L)))%nat by lia.
  destruct (search_ok _ _ _ _ n (fuel - S (length L)) HH ltac:(lia)) as [HW|[HL E]].
  - eapply wp_mono; [exact HW|]. intros r h' (L' & HH' & HT & HLe). right. exists L'.
    destruct (ho_brk _ _ _ _ HH') as [Hbr _]. unfold given. rewrite Hbr. split; [done|]. lia.
  - unfold wp. rewrite E. unfold grow. pose proof (morecore_wp _ _ _ n (S (fuel - S (length L))) HH Hn ltac:(lia)) as HM. unfold bind at 1.
    destruct (Z.leb_spec KERNBASE (h_brk h + 8 * nu_of n)) as [HK|HK]; [rewrite HM; by left|].
    apply wp_elim in HM as (r & h' & -> & Hr & Hnz & L' & HH' & HT & HLe & y & Hy & Hys). cbn beta iota. rewrite (proj2 (Z.eqb_neq _ _) Hnz), Hr.
    mget. replace (fuel - S (length L))%nat with (S (length L') + (fuel - S (length L) - S (length L')))%nat by lia.
    destruct (ho_brk _ _ _ _ HH') as [Hbr _].
    destruct (search_ok _ _ _ _ n (fuel - S (length L) - S (length L')) HH' ltac:(lia)) as [HW|[HL' _]].
    + apply wp_elim in HW as (r' & h'' & -> & L'' & HH'' & HT' & HLe'). right. exists L''. destruct (ho_brk _ _ _ _ HH'') as [Hbr' _].
      unfold given. rewrite Hbr'. split; [done|]. lia.
    + rewrite Forall_forall in HL'. specialize (HL' y Hy). unfold nu_of in *. lia.
Qed.

Lemma init_ok h : h_freep h = 0 -> 0 < base -> base + 8 <= h_brk h < 2 ^ 31 -> h_brk h mod 8 = 0 ->
  heap_ok (h_brk h) (set_size base 0 (set_freep base (set_ptr base base h))) [] [].
Proof.
  intros. split; [done|done| |done| |done|by left].
  - split; [|done|done]. constructor; constructor.
  - cbn. by rewrite !hset_eq.
Qed.

Lemma units_spec nbytes : 0 <= nbytes <= 2 ^ 31 - 16 -> 1 <= units nbytes < 2 ^ 28 /\ nbytes <= 8 * (units nbytes - 1).
Proof. intros H. unfold units. rewrite u32_small by lia. pose proof (Z.div_mod (nbytes + 8 - 1) 8). pose proof (Z.mod_pos_bound (nbytes + 8 - 1) 8). lia. Qed.

Lemma malloc_wp h L A nbytes fuel : heap_inv h L A -> 0 <= nbytes <= 2 ^ 31 - 16 -> (4 * length L + 8 <= fuel)%nat ->
  wp (malloc fuel nbytes)
    (fun r h' => r = 0 /\ heap_inv h' L A /\ refused h L (units nbytes) \/ exists L', given h L A (units nbytes) r h' L') h.
Proof.
  intros HI Hn HF. destruct (units_spec _ Hn) as [Hu _]. unfold malloc, wp. mget. destruct HI as [HH|(-> & -> & Hf & Hb & Ht & Hm)].
  - pose proof (malloc_loop_wp _ _ _ _ _ HH Hu HF) as HW. pose proof (freep_pos _ _ _ _ HH) as Hz.
    rewrite (proj2 (Z.eqb_neq (h_freep h) 0)) by lia. unfold bind, ret, get. cbn beta iota. apply wp_elim in HW as (r & h' & -> & [(-> & -> & HR)|HG]); [left|by right].
    split; [done|]. split; [by left|done].
  - rewrite Hf. cbn [Z.eqb]. set (h1 := set_size base 0 (set_freep base (set_ptr base base h))).
    pose proof (malloc_loop_wp h1 [] [] _ _ (init_ok h Hf Hb Ht Hm) Hu HF) as HW. unfold bind, modify, get. cbn beta iota. fold h1.
    apply wp_elim in HW as (r & h' & -> & [(-> & -> & HR)|HG]); [left|by right].
    split; [done|]. split; [|done]. left. exact (init_ok h Hf Hb Ht Hm).
Qed.

(** *** A program's calls *)

Inductive call : Type := Malloc (nbytes : Z) | Free (i : nat).

(** The calls of a program that holds the blocks [own], with the bytes it asked for. *)
Fixpoint run_calls (fuel : nat) (cs : list call) (own : list (Z * Z)) : H (list (Z * Z)) :=
  match cs with
  | [] => ret own
  | Malloc n :: cs' =>
      let! r := malloc fuel n in
      run_calls fuel cs' (if r =? 0 then own else (r, n) :: own)
  | Free i :: cs' =>
      match own !! i with
      | Some (r, _) => free fuel r ;;; run_calls fuel cs' (delete i own)
      | None => run_calls fuel cs' own
      end
  end.

Definition call_ok (c : call) : Prop := match c with Malloc n => 0 <= n <= 2 ^ 31 - 16 | Free _ => True end.

(** The block of units behind a pointer. *)
Definition owned (x : Z * Z) : block := (x.1 - 8, units x.2).

Lemma heap_perm top h L A A' : A ≡ₚ A' -> heap_ok top h L A -> heap_ok top h L A'.
Proof.
  intros E [Hb Hbr [O P D] HG HC HS Hf]. split; [done|done| |done|done|by rewrite <- E|done]. split; [done|by rewrite <- E|by rewrite <- E].
Qed.

Lemma given_pos h L A n r h' L' : given h L A n r h' L' -> 0 < r.
Proof.
  intros ([Hb _ [_ P _] _ _ _ _] & _). apply Forall_app in P as [_ P]. apply Forall_cons in P as [(_ & ? & _) _]. cbn in *. lia.
Qed.

Definition sizes_ok (own : list (Z * Z)) : Prop := Forall (fun x => 0 <= x.2 <= 2 ^ 31 - 16) own.

Lemma run_calls_wp fuel cs : forall h own L, Forall call_ok cs -> heap_inv h L (owned <$> own) -> sizes_ok own -> (4 * (length cs + length L) + 8 <= fuel)%nat ->
  wp (run_calls fuel cs own) (fun own' h' => exists L', heap_inv h' L' (owned <$> own') /\ sizes_ok own') h.
Proof.
  induction cs as [|[n|i] cs IH]; intros h own L HC HI HS HF; [by exists L| |]; apply Forall_cons in HC as [Hc HC]; cbn [run_calls length] in *.
  - apply wp_bind. eapply wp_mono; [eapply (malloc_wp _ _ _ n fuel HI Hc); lia|]. intros r h' [(-> & HI' & _)|(L' & HG)].
    + apply IH with (L := L); [done..|lia].
    + pose proof (given_pos _ _ _ _ _ _ _ HG). rewrite (proj2 (Z.eqb_neq _ _)) by lia. destruct HG as (HH & _ & HL).
      apply IH with (L := L'); [done|by left|by constructor|lia].
  - destruct (own !! i) as [[r n]|] eqn:Ei; [|apply IH with (L := L); [done..|lia]].
    destruct HI as [HH|(_ & HA & _)]; [|by apply fmap_nil_inv in HA as ->].
    pose proof (delete_Permutation _ _ _ Ei) as HP. apply wp_bind.
    assert (HH1 : heap_ok (h_brk h) h L (owned (r, n) :: (owned <$> delete i own))) by (eapply heap_perm; [|exact HH]; by rewrite HP at 1).
    replace r with (r - 8 + 8) by lia. eapply wp_mono; [eapply free_wp; [exact HH1|lia]|].
    intros [] h' (L' & HH' & _ & HL & _). apply IH with (L := L'); [done| | |lia].
    + left. by destruct (ho_brk _ _ _ _ HH') as [-> _].
    + unfold sizes_ok in *. rewrite HP in HS. by apply Forall_cons in HS as [_ HS].
Qed.

(** The bytes of two blocks and their headers do not meet. *)
Definition bytes_apart (x y : Z * Z) : Prop := x.1 + x.2 <= y.1 - 8 \/ y.1 + y.2 <= x.1 - 8.

Definition bytes_inside (h : heap) (x : Z * Z) : Prop := base + 16 <= x.1 /\ x.1 + x.2 <= h_brk h /\ x.1 mod 8 = 0.

Lemma all_apart_lookup X i j x y : all_apart X -> i <> j -> X !! i = Some x -> X !! j = Some y -> apart x y.
Proof.
  revert i j. induction X as [|z X IH]; [done|]. intros [|i] [|j] [H1 H2] Hij Hx Hy; [done| | |by apply (IH i j); [|congruence|..]]; cbn in *; rewrite Forall_forall in H1; simplify_eq.
  - apply H1. by eapply list_elem_of_lookup_2.
  - symmetry. apply H1. by eapply list_elem_of_lookup_2.
Qed.

Lemma heap_inv_owned h L own : heap_inv h L (owned <$> own) -> sizes_ok own ->
  Forall (bytes_inside h) own /\ forall i j x y, i <> j -> own !! i = Some x -> own !! j = Some y -> bytes_apart x y.
Proof.
  intros [HH|(_ & HA & _)] HS; [|by apply fmap_nil_inv in HA as ->]. destruct HH as [Hb _ [_ P D] _ _ _ _].
  apply Forall_app in P as [_ P]. rewrite Forall_fmap in P. unfold sizes_ok in HS. rewrite Forall_forall in P, HS. split.
  - apply Forall_forall. intros [r n] Hx. destruct (P _ Hx) as (P1 & P2 & P3 & P4). destruct (units_spec n) as [_ Hu]; [by apply (HS (r, n))|]. cbn in *.
    split; [cbn; lia|]. split; [cbn; lia|]. cbn. replace r with (r - 8 + 1 * 8) by lia. by rewrite Z_mod_plus_full.
  - intros i j [r n] [r' n'] Hij Hx Hy. assert (HD : all_apart (owned <$> own)).
    { clear - D. induction L as [|z L IH]; [done|]. apply IH. by destruct D. }
    pose proof (all_apart_lookup _ i j (owned (r, n)) (owned (r', n')) HD Hij) as HA. rewrite !list_lookup_fmap, Hx, Hy in HA. specialize (HA eq_refl eq_refl).
    destruct (units_spec n) as [_ Hu]; [apply (HS (r, n)); by eapply list_elem_of_lookup_2|].
    destruct (units_spec n') as [_ Hu']; [apply (HS (r', n')); by eapply list_elem_of_lookup_2|]. unfold apart, bytes_apart in *. cbn in *. lia.
Qed.

(** ** Properties *)

(** C33: [malloc] returns: either 0, with the heap as it was, and then no free block was
    large enough and the process would have reached the kernel; or a block that the
    program did not have, apart from all its others and from the free ones, 8-aligned,
    that holds the bytes asked for, its units being taken from the free blocks and the end of the process. *)
Theorem malloc_gives h L A nbytes fuel : heap_inv h L A -> 0 <= nbytes <= 2 ^ 31 - 16 -> (4 * length L + 8 <= fuel)%nat ->
  exists r h', malloc fuel nbytes h = Ok r h' /\
    (r = 0 /\ heap_inv h' L A /\ refused h L (units nbytes) \/
     r mod 8 = 0 /\ nbytes <= 8 * (units nbytes - 1) /\ exists L', given h L A (units nbytes) r h' L').
Proof.
  intros HI Hn HF. destruct (wp_elim _ _ _ (malloc_wp h L A nbytes fuel HI Hn HF)) as (r & h' & E & HQ). exists r, h'. split; [done|].
  destruct HQ as [HQ|(L' & HG)]; [by left|right]. split; [|split; [by apply units_spec|by exists L']].
  destruct HG as ([_ _ [_ P _] _ _ _ _] & _). apply Forall_app in P as [_ P]. apply Forall_cons in P as [(P & _) _]. cbn in P.
  replace r with (r - 8 + 1 * 8) by lia. by rewrite Z_mod_plus_full.
Qed.

(** [free] of a block that the program has returns, and gives exactly its units back to
    the free list, which stays in order, with the block joined to the free blocks it touches. *)
Theorem free_gives_back h L A a s fuel : heap_ok (h_brk h) h L ((a, s) :: A) -> (2 * length L + 2 <= fuel)%nat ->
  exists h' L', free fuel (a + 8) h = Ok tt h' /\ heap_ok (h_brk h) h' L' A /\ freed L s L'.
Proof.
  intros HH HF. destruct (wp_elim _ _ _ (free_wp _ h L A a s fuel HH HF)) as ([] & h' & E & L' & HQ). by exists h', L'.
Qed.

(** C34: any sequence of calls of [malloc] and [free] by a program that frees only what it
    has runs to its end, and the blocks it then has lie inside the process, with
    room for the bytes asked for, none meeting another nor its header. *)
Theorem program_blocks_apart h cs fuel : h_freep h = 0 -> 0 < base -> base + 8 <= h_brk h < 2 ^ 31 -> h_brk h mod 8 = 0 ->
  Forall call_ok cs -> (4 * length cs + 8 <= fuel)%nat ->
  exists own h', run_calls fuel cs [] h = Ok own h' /\ Forall (bytes_inside h') own /\
    forall i j x y, i <> j -> own !! i = Some x -> own !! j = Some y -> bytes_apart x y.
Proof.
  intros Hf Hb Ht Hm HC HF. destruct (wp_elim _ _ _ (run_calls_wp fuel cs h [] [] HC ltac:(by right) ltac:(constructor) ltac:(cbn; lia))) as (own & h' & E & L' & HI & HS).
  exists own, h'. split; [done|]. by apply (heap_inv_owned _ L').
Qed.

(** C35: a request of the last 7 sizes below 2^32 wraps: [malloc] answers it as it answers a
    request of no bytes, with a block of one header. *)
Theorem malloc_wraps nbytes fuel : 2 ^ 32 - 7 <= nbytes < 2 ^ 32 -> malloc fuel nbytes = malloc fuel 0 /\ units nbytes = 1.
Proof.
  intros H. assert (E : units nbytes = 1).
  { unfold units. replace (nbytes + 8 - 1) with (nbytes - (2 ^ 32 - 7) + 1 * 2 ^ 32) by lia. unfold u32.
    rewrite Z_mod_plus_full, Z.mod_small by lia. rewrite Z.div_small by lia. done. }
  split; [|done]. unfold malloc. by rewrite E.
Qed.

(** [sbrk] is what [sys_sbrk] does to the size of the process that calls it. *)
Lemma sys_sbrk_is_sbrk n (k : kernel) c p h :
  argint 0 k = Ok (Some n) k -> myproc k = Some c -> k_ptable k !! c = Some p -> h_brk h = p_sz p -> 0 <= n ->
  exists r h' k', sys_sbrk k = Ok r k' /\ sbrk n h = Ok r h' /\ k_ptable k' !! c = Some (set_p_sz (h_brk h') p).
Proof.
  intros Ha Hc Hp Hb Hn. unfold sys_sbrk, sbrk, curproc, get_proc, upd_proc, bind, get, modify, ret. rewrite Ha, Hc, Hp. cbn beta iota. rewrite Hb.
  destruct (Z.ltb_spec n 0); [lia|]. case_bool.
  - exists (-1), h, k. split; [done|]. split; [done|]. rewrite Hp, Hb. by destruct p.
  - eexists _, _, _. split; [done|]. split; [done|]. cbn. by rewrite list_lookup_alter_eq, Hp.
Qed.

End Umalloc.

(** ** Witnesses *)

(** A program before its first call, of 8192 bytes, with the static header at 1000. *)
Definition heap0 : heap := mk_heap (fun _ => 0) (fun _ => 0) 0 8192.

Example malloc_first : exists h', malloc 1000 8 100 heap0 = Ok (8192 + 8 * (4096 - 14) + 8) h' /\ h_brk h' = 8192 + 32768.
Proof. eexists. by split; vm_compute. Qed.

Lemma malloc_gives_witness : exists r h', malloc 1000 8 100 heap0 = Ok r h' /\
    (r = 0 /\ heap_inv 1000 h' [] [] /\ refused heap0 [] (units 100) \/
     r mod 8 = 0 /\ 100 <= 8 * (units 100 - 1) /\ exists L', given 1000 heap0 [] [] (units 100) r h' L').
Proof. apply malloc_gives; [by right|lia|cbn; lia]. Defined.

(** The same program with a block of 3 units. *)
Definition heap1 : heap := mk_heap (fun _ => 1000) (fun a => if a =? 2000 then 3 else 0) 1000 8192.

Lemma free_gives_back_witness : exists h' L', free 2 (2000 + 8) heap1 = Ok tt h' /\ heap_ok 1000 8192 h' L' [] /\ freed [] 3 L'.
Proof.
  apply (free_gives_back 1000 heap1 [] [] 2000 3); [|cbn; lia]. split; [cbn; lia|done| |done|done|by repeat constructor|by left].
  split; [by repeat constructor| |]; [|by repeat constructor]. constructor; [|done]. by repeat split.
Defined.

Lemma program_blocks_apart_witness : exists own h',
  run_calls 1000 32 [Malloc 100; Malloc 5000; Free 1; Malloc 40] [] heap0 = Ok own h' /\ Forall (bytes_inside 1000 h') own /\
    forall i j x y, i <> j -> own !! i = Some x -> own !! j = Some y -> bytes_apart x y.
Proof.
  apply program_blocks_apart; [done|lia|cbn; lia|done| |cbn; lia]. repeat constructor; cbn; lia.
Defined.

Lemma malloc_wraps_witness : malloc 1000 8 4294967290 = malloc 1000 8 0 /\ units 4294967290 = 1.
Proof. apply malloc_wraps. lia. Defined.
