(* ===== verification/Trap.v ===== *)
(** * Trap: the system call table and the trap handler (syscall.c, trap.c)

    [trap] is given the processor it runs on, the address in %cr2, and what the
    devices that can interrupt have to say: the scan codes waiting in the keyboard
    and the characters waiting in the serial port.  [lapiceoi] only talks to the
    interrupt controller. *)

From S2P Require Import Prelude Bytes Kernel Sync Kalloc Str Console Kbd Vm Pipe File Proc Syscall Exec Sysfile Sysproc.

Section Trap.
(** The kernel image and the clock. *)
Context (forkret_addr : Z) (cmos : nat -> Z -> Z) (clock_fuel clock_now : nat).

(** [syscalls[]]; [None] for a number with no entry. *)
Definition syscalls (num : Z) : option (KM Z) :=
  match num with
  | 1 => Some (sys_fork forkret_addr)
  | 2 => Some sys_exit
  | 3 => Some sys_wait
  | 4 => Some sys_pipe
  | 5 => Some sys_read
  | 6 => Some sys_kill
  | 7 => Some sys_exec
  | 8 => Some sys_fstat
  | 9 => Some sys_chdir
  | 10 => Some sys_dup
  | 11 => Some sys_getpid
  | 12 => Some sys_sbrk
  | 13 => Some sys_sleep
  | 14 => Some sys_uptime
  | 15 => Some sys_open
  | 16 => Some sys_write
  | 17 => Some sys_mknod
  | 18 => Some sys_unlink
  | 19 => Some sys_link
  | 20 => Some sys_mkdir
  | 21 => Some sys_close
  | 22 => Some (sys_date cmos clock_fuel clock_now)
  | 23 => Some sys_dup2
  | _ => None
  end.

Definition syscall : KM unit :=
  let! c := curproc in
  let! p := get_proc c in
  let num := i32 (tf_eax (p_tf p)) in
  let set_eax v := upd_proc c (fun p => set_p_tf (set_tf_eax (u32 v) (p_tf p)) p) in
  match syscalls num with
  | Some f =>
      let! v := f in
      set_eax v
  | None =>
      cprintln "%d %s: unknown sys call %d"
        [A_int (p_pid p); A_str (Some (upto_nul (p_name p))); A_int num] ;;;
      set_eax (-1)
  end.

Definition T_PGFLT : Z := 14.
Definition T_SYSCALL : Z := 64.
Definition T_IRQ0 : Z := 32.
Definition IRQ_TIMER : Z := 0.
Definition IRQ_KBD : Z := 1.
Definition IRQ_COM1 : Z := 4.
Definition IRQ_IDE : Z := 14.
Definition IRQ_SPURIOUS : Z := 31.

Definition timer_tick (cpu : Z) : KM unit :=
  if cpu =? 0 then
    acquire L_ticks ;;;
    modify (fun k => set_k_ticks (u32 (k_ticks k + 1)) k) ;;;
    wakeup C_ticks ;;;
    release L_ticks
  else ret tt.

(** What the devices have to say: the keyboard's shift state and scan codes, whether
    there is a serial port and its characters. *)
Record devices : Type := mk_devices {
  kbd_shift : Z; kbd_codes : list Z; uart_present : bool; uart_input : list Z
}.

(** The default case: a trap nobody expects. *)
Definition other_trap (tf : trapframe) (cpu cr2 : Z) : KM unit :=
  let! k := get in
  if (match myproc k with None => true | Some _ => false end) || (Z.land (tf_cs tf) 3 =? 0) then
    cprintln "unexpected trap %d from cpu %d eip %x (cr2=0x%x)"
      (A_int <$> [tf_trapno tf; cpu; tf_eip tf; cr2]) ;;;
    panic "trap"
  else
    let! c := curproc in
    let! p := get_proc c in
    cprintln "pid %d %s: trap %d err %d on cpu %d eip 0x%x addr 0x%x--kill proc"
      [A_int (p_pid p); A_str (Some (upto_nul (p_name p))); A_int (tf_trapno tf); A_int (tf_err tf);
       A_int cpu; A_int (tf_eip tf); A_int cr2] ;;;
    upd_proc c (set_p_killed true).

(** The [switch] on the trap number. *)
Definition handle_trap (tf : trapframe) (cpu cr2 : Z) (dev : devices) : KM unit :=
  let n := tf_trapno tf in
  if n =? T_IRQ0 + IRQ_TIMER then timer_tick cpu
  else if n =? T_IRQ0 + IRQ_IDE then ret tt
  else if n =? T_IRQ0 + IRQ_IDE + 1 then ret tt
  else if n =? T_IRQ0 + IRQ_KBD then
    let! r := kbdintr (kbd_shift dev) (kbd_codes dev) in
    when (snd r) procdump
  else if n =? T_IRQ0 + IRQ_COM1 then
    let! dump := uartintr (uart_present dev) (uart_input dev) in
    when dump procdump
  else if (n =? T_IRQ0 + 7) || (n =? T_IRQ0 + IRQ_SPURIOUS) then
    cprintln "cpu%d: spurious interrupt at %x:%x" (A_int <$> [cpu; tf_cs tf; tf_eip tf])
  else if n =? T_PGFLT then page_fault cpu (tf_cs tf) (tf_eip tf) cr2
  else other_trap tf cpu cr2.

(** [if(myproc() && myproc()->killed && (tf->cs&3) == DPL_USER) exit();] *)
Definition exit_if_killed (tf : trapframe) : KM unit :=
  let! k := get in
  match myproc k with
  | None => ret tt
  | Some c =>
      let! p := get_proc c in
      when (p_killed p && (Z.land (tf_cs tf) 3 =? DPL_USER)) exit
  end.

Definition yield_if_ticked (tf : trapframe) : KM unit :=
  let! k := get in
  match myproc k with
  | None => ret tt
  | Some c =>
      let! p := get_proc c in
      when (bool_decide (p_state p = RUNNING) && (tf_trapno tf =? T_IRQ0 + IRQ_TIMER)) yield
  end.

Definition trap (tf : trapframe) (cpu cr2 : Z) (dev : devices) : KM unit :=
  if tf_trapno tf =? T_SYSCALL then
    let! killed := cur_killed in
    when killed exit ;;;
    let! c := curproc in
    upd_proc c (set_p_tf tf) ;;;
    syscall ;;;
    let! killed := cur_killed in
    when killed exit
  else
    handle_trap tf cpu cr2 dev ;;;
    exit_if_killed tf ;;;
    yield_if_ticked tf ;;;
    exit_if_killed tf.

End Trap.
