(* ===== verification/Gates.v ===== *)
(** * Gates: the descriptor tables of the processor (mmu.h, trap.c, vm.c, x86.h)

    [tvinit] fills the interrupt table and [seginit] the segments of a processor.  The entries
    are C bit fields; [gate_bits] and [seg_bits] lay them out in the 8 bytes the
    processor reads, from which the functions on bits take the parts as its manual says. *)

From S2P Require Import Prelude Bytes Kernel Trap.

Definition STA_X : Z := 0x8.
Definition STA_W : Z := 0x2.
Definition STA_R : Z := 0x2.
Definition STS_IG32 : Z := 0xE.
Definition STS_TG32 : Z := 0xF.

Record gatedesc : Type := mk_gate {
  off_15_0 : Z; g_cs : Z; g_args : Z; g_rsv1 : Z; g_type : Z; g_s : Z; g_dpl : Z; g_p : Z; off_31_16 : Z }.

(** The fields keep the low bits of what is stored in them. *)
Definition SETGATE (istrap : bool) (sel off d : Z) : gatedesc :=
  mk_gate (Z.land (u32 off) 0xffff) (u16 sel) 0 0 (if istrap then STS_TG32 else STS_IG32) 0 (d mod 4) 1 (Z.shiftr (u32 off) 16).

Record segdesc : Type := mk_seg {
  lim_15_0 : Z; base_15_0 : Z; base_23_16 : Z; s_type : Z; s_s : Z; s_dpl : Z; s_p : Z; lim_19_16 : Z; avl : Z; s_rsv1 : Z; db : Z; s_g : Z; base_31_24 : Z }.

Definition SEG (type base lim dpl : Z) : segdesc :=
  mk_seg (Z.land (Z.shiftr lim 12) 0xffff) (Z.land (u32 base) 0xffff) (Z.land (Z.shiftr (u32 base) 16) 0xff) (type mod 16) 1 (dpl mod 4) 1
    (Z.shiftr (u32 lim) 28) 0 0 1 1 (Z.shiftr (u32 base) 24).

(** [struct gatedesc idt[256]], the global descriptor table of the processor, the operands of
    [lidt] and [lgdt], three 16-bit words each, and the name of the lock of the ticks. *)
Record tables : Type := mk_tables { idt : list gatedesc; gdt : list segdesc; idtr : list Z; gdtr : list Z; tickslock : option string }.

Notation D := (M tables).

Definition set_gate (i : nat) (g : gatedesc) : D unit := modify (fun t => mk_tables (<[i := g]> (idt t)) (gdt t) (idtr t) (gdtr t) (tickslock t)).
Definition set_seg (i : Z) (g : segdesc) : D unit := modify (fun t => mk_tables (idt t) (<[Z.to_nat i := g]> (gdt t)) (idtr t) (gdtr t) (tickslock t)).

Definition pseudo (p size : Z) : list Z := [u16 (size - 1); u16 p; u16 (Z.shiftr p 16)].
Definition lidt (p size : Z) : D unit := modify (fun t => mk_tables (idt t) (gdt t) (pseudo p size) (gdtr t) (tickslock t)).
Definition lgdt (p size : Z) : D unit := modify (fun t => mk_tables (idt t) (gdt t) (idtr t) (pseudo p size) (tickslock t)).

Definition initlock_ticks (name : string) : D unit := modify (fun t => mk_tables (idt t) (gdt t) (idtr t) (gdtr t) (Some name)).

Section Init.
(** The entry points of vectors.S, and the addresses of [idt] and of the processor's [gdt]. *)
Context (vectors : nat -> Z) (idt_addr gdt_addr : Z).

(** [for(i = 0; i < 256; i++)] *)
Fixpoint gates_from (n i : nat) : D unit :=
  match n with
  | O => ret tt
  | S n' => set_gate i (SETGATE false (Z.shiftl SEG_KCODE 3) (vectors i) 0) ;;; gates_from n' (S i)
  end.

Definition tvinit : D unit :=
  gates_from 256 0 ;;;
  let i := Z.to_nat T_SYSCALL in
  set_gate i (SETGATE true (Z.shiftl SEG_KCODE 3) (vectors i) DPL_USER) ;;;
  initlock_ticks "time".

Definition idtinit : D unit := lidt idt_addr (8 * 256).

Definition seginit : D unit :=
  set_seg SEG_KCODE (SEG (Z.lor STA_X STA_R) 0 0xffffffff 0) ;;;
  set_seg SEG_KDATA (SEG STA_W 0 0xffffffff 0) ;;;
  set_seg SEG_UCODE (SEG (Z.lor STA_X STA_R) 0 0xffffffff DPL_USER) ;;;
  set_seg SEG_UDATA (SEG STA_W 0 0xffffffff DPL_USER) ;;;
  lgdt gdt_addr (8 * 6).

End Init.

(** ** What the processor reads *)

(** The bit fields from the lowest on, each with its width. *)
Fixpoint pack (fs : list (Z * Z)) : Z :=
  match fs with
  | [] => 0
  | (w, v) :: fs' => v + 2 ^ w * pack fs'
  end.

Definition gate_bits (g : gatedesc) : Z :=
  pack [(16, off_15_0 g); (16, g_cs g); (5, g_args g); (3, g_rsv1 g); (4, g_type g); (1, g_s g); (2, g_dpl g); (1, g_p g); (16, off_31_16 g)].
Definition seg_bits (g : segdesc) : Z :=
  pack [(16, lim_15_0 g); (16, base_15_0 g); (8, base_23_16 g); (4, s_type g); (1, s_s g); (2, s_dpl g); (1, s_p g); (4, lim_19_16 g); (1, avl g); (1, s_rsv1 g); (1, db g); (1, s_g g); (8, base_31_24 g)].

(** Bits [i] to [i + n - 1]. *)
Definition bits (x i n : Z) : Z := x / 2 ^ i mod 2 ^ n.

Definition gate_offset (x : Z) : Z := bits x 0 16 + 2 ^ 16 * bits x 48 16.
Definition gate_selector (x : Z) : Z := bits x 16 16.
(** An interrupt gate, 14, turns interrupts off and a trap gate, 15, leaves them. *)
Definition gate_kind (x : Z) : Z := bits x 40 4.
Definition gate_dpl (x : Z) : Z := bits x 45 2.
Definition gate_present (x : Z) : Z := bits x 47 1.

Definition seg_base (x : Z) : Z := bits x 16 24 + 2 ^ 24 * bits x 56 8.
(** The last offset of the segment: bit 55 counts the limit in pages. *)
Definition seg_last (x : Z) : Z :=
  let lim := bits x 0 16 + 2 ^ 16 * bits x 48 4 in
  if bits x 55 1 =? 1 then 4096 * lim + 4095 else lim.
Definition seg_dpl (x : Z) : Z := bits x 45 2.
Definition seg_code (x : Z) : Z := bits x 43 1.

Definition operand_base (pd : list Z) : Z := default 0 (pd !! 1%nat) + 2 ^ 16 * default 0 (pd !! 2%nat).
Definition operand_size (pd : list Z) : Z := default 0 (pd !! 0%nat) + 1.

(** ** The tables *)

(** A processor at privilege [cpl] may run [int i] when the privilege of the gate allows it. *)
Definition int_allowed (t : tables) (i : nat) (cpl : Z) : Prop := exists g, idt t !! i = Some g /\ cpl <= gate_dpl (gate_bits g).

Lemma pack_field w v fs : 0 <= w -> 0 <= v < 2 ^ w -> pack ((w, v) :: fs) mod 2 ^ w = v /\ pack ((w, v) :: fs) / 2 ^ w = pack fs.
Proof.
  intros Hw Hv. cbn [pack]. split.
  - rewrite Z.mul_comm, Z_mod_plus_full. by apply Z.mod_small.
  - rewrite Z.mul_comm, Z.div_add by lia. rewrite Z.div_small by lia. lia.
Qed.

(** The field after the fields [fs1] is at the sum of their widths. *)
Lemma bits_pack fs1 : forall w v fs2, Forall (fun f => 0 <= f.1 /\ 0 <= f.2 < 2 ^ f.1) (fs1 ++ [(w, v)]) ->
  bits (pack (fs1 ++ (w, v) :: fs2)) (foldr (fun f n => f.1 + n) 0 fs1) w = v.
Proof.
  induction fs1 as [|[w1 v1] fs1 IH]; intros w v fs2 HF; inversion_clear HF as [|? ? [H1 H2] HF']; cbn [fst snd app foldr] in *.
  - unfold bits. change (2 ^ 0) with 1. rewrite Z.div_1_r. by apply pack_field.
  - specialize (IH w v fs2 HF'). unfold bits in *. assert (0 <= foldr (fun f n => f.1 + n) 0 fs1).
    { clear -HF'. induction fs1 as [|f fs1 IH]; cbn [foldr]; [lia|]. inversion_clear HF' as [|? ? [H1 _] HF]. specialize (IH HF). lia. }
    rewrite Z.pow_add_r, <- Z.div_div by lia. by rewrite (proj2 (pack_field w1 v1 _ H1 H2)).
Qed.

(** A gate leads to its handler in the kernel's code segment, with the privilege it was given. *)
Lemma setgate_reads istrap off d : 0 <= off < 2 ^ 32 -> 0 <= d < 4 -> let x := gate_bits (SETGATE istrap (Z.shiftl SEG_KCODE 3) off d) in
  gate_offset x = off /\ gate_selector x = 8 /\ gate_kind x = (if istrap then 15 else 14) /\ gate_dpl x = d /\ gate_present x = 1.
Proof.
  intros Ho Hd x. unfold x, gate_bits, SETGATE. cbn [off_15_0 g_cs g_args g_rsv1 g_type g_s g_dpl g_p off_31_16]. rewrite (u32_small off), (Z.mod_small d) by lia.
  assert (E1 : Z.land off 0xffff = off mod 2 ^ 16) by (rewrite <- Z.land_ones by lia; done). rewrite E1, Z.shiftr_div_pow2 by lia. change (u16 (Z.shiftl SEG_KCODE 3)) with 8.
  pose proof (Z.mod_pos_bound off (2 ^ 16) ltac:(lia)) as B1. assert (B2 : 0 <= off / 2 ^ 16 < 2 ^ 16) by (split; [apply Z.div_pos; lia|apply Z.div_lt_upper_bound; lia]).
  set (lo := off mod 2 ^ 16) in *. set (hi := off / 2 ^ 16) in *. set (ty := if istrap then STS_TG32 else STS_IG32).
  assert (B3 : 0 <= ty < 2 ^ 4) by (unfold ty; destruct istrap; done).
  set (fs := [(16, lo); (16, 8); (5, 0); (3, 0); (4, ty); (1, 0); (2, d); (1, 1); (16, hi)]).
  assert (HF : forall k, Forall (fun f : Z * Z => 0 <= f.1 /\ 0 <= f.2 < 2 ^ f.1) (take k fs)) by (intros k; apply Forall_take; unfold fs; repeat constructor; cbn [fst snd]; lia).
  unfold gate_offset, gate_selector, gate_kind, gate_dpl, gate_present. split_and!.
  - rewrite (bits_pack [] 16 lo (drop 1 fs) (HF 1%nat) : bits (pack fs) 0 16 = lo), (bits_pack (take 8 fs) 16 hi [] (HF 9%nat) : bits (pack fs) 48 16 = hi). unfold lo, hi. rewrite Z.add_comm. symmetry. apply Z.div_mod. lia.
  - apply (bits_pack (take 1 fs) 16 8 (drop 2 fs) (HF 2%nat)).
  - rewrite (bits_pack (take 4 fs) 4 ty (drop 5 fs) (HF 5%nat) : bits (pack fs) 40 4 = ty). by unfold ty; destruct istrap.
  - apply (bits_pack (take 6 fs) 2 d (drop 7 fs) (HF 7%nat)).
  - apply (bits_pack (take 7 fs) 1 1 (drop 8 fs) (HF 8%nat)).
Qed.

Lemma gates_from_ok vectors n : forall i t, (i + n <= length (idt t))%nat -> exists l, gates_from vectors n i t = Ok tt (mk_tables l (gdt t) (idtr t) (gdtr t) (tickslock t)) /\ length l = length (idt t) /\
  forall j, l !! j = if (Nat.leb i j && Nat.ltb j (i + n))%bool then Some (SETGATE false (Z.shiftl SEG_KCODE 3) (vectors j) 0) else idt t !! j.
Proof.
  induction n as [|n IH]; intros i t Hl; cbn [gates_from].
  - exists (idt t). split; [by destruct t|]. split; [done|]. intros j. destruct (Nat.leb_spec i j), (Nat.ltb_spec j (i + 0)); done || lia.
  - unfold bind at 1, set_gate, modify. destruct (IH (S i) (mk_tables (<[i := SETGATE false (Z.shiftl SEG_KCODE 3) (vectors i) 0]> (idt t)) (gdt t) (idtr t) (gdtr t) (tickslock t))) as (l & E & HL & HJ); [cbn [idt]; rewrite length_insert; lia|].
    cbn [idt gdt idtr gdtr tickslock] in *. exists l. split; [done|]. split; [by rewrite HL, length_insert|]. intros j. rewrite HJ.
    destruct (Nat.leb_spec (S i) j), (Nat.ltb_spec j (S i + n)), (Nat.leb_spec i j), (Nat.ltb_spec j (i + S n)); cbn [andb]; try lia; try done; try (by rewrite list_lookup_insert_ne by lia).
    assert (j = i) as -> by lia. by rewrite list_lookup_insert_eq by lia.
Qed.

Lemma operand_reads p size : 0 <= p < 2 ^ 32 -> 0 < size < 2 ^ 16 -> operand_base (pseudo p size) = p /\ operand_size (pseudo p size) = size.
Proof.
  intros Hp Hs. unfold operand_base, operand_size, pseudo. cbn [lookup list_lookup default]. rewrite Z.shiftr_div_pow2 by lia.
  assert (0 <= p / 2 ^ 16 < 2 ^ 16) by (split; [apply Z.div_pos; lia|apply Z.div_lt_upper_bound; lia]). rewrite (u16_small (p / _)), (u16_small (size - 1)) by lia. unfold u16, id. pose proof (Z.div_mod p (2 ^ 16) ltac:(lia)). lia.
Qed.

(** C15: what the tables let a program do.  After [tvinit], [idtinit] and [seginit], for any 32-bit
    entry points: gate [i] is present and leads to [vectors[i]] in the kernel's code segment; it turns interrupts off, but for the gate
    of system calls; a user program can run [int i] for that gate only; every segment
    covers all addresses, and those of user programs have user privilege; and the
    processor has the addresses and the sizes of the tables. *)
Theorem gates_protect vectors idt_addr gdt_addr t : (forall i, 0 <= vectors i < 2 ^ 32) -> 0 <= idt_addr < 2 ^ 32 -> 0 <= gdt_addr < 2 ^ 32 -> length (idt t) = 256%nat -> length (gdt t) = 6%nat ->
  exists t', (tvinit vectors ;;; idtinit idt_addr ;;; seginit gdt_addr) t = Ok tt t' /\
    (forall i, (i < 256)%nat -> exists g, idt t' !! i = Some g /\ gate_offset (gate_bits g) = vectors i /\ gate_selector (gate_bits g) = Z.shiftl SEG_KCODE 3 /\
       gate_present (gate_bits g) = 1 /\ gate_kind (gate_bits g) = if Z.of_nat i =? T_SYSCALL then 15 else 14) /\
    (forall i, int_allowed t' i DPL_USER <-> Z.of_nat i = T_SYSCALL) /\
    (forall i, 1 <= i <= 4 -> exists g, gdt t' !! Z.to_nat i = Some g /\ seg_base (seg_bits g) = 0 /\ seg_last (seg_bits g) = 2 ^ 32 - 1 /\
       seg_dpl (seg_bits g) = (if SEG_UCODE <=? i then DPL_USER else 0) /\ seg_code (seg_bits g) = (if (i =? SEG_KCODE) || (i =? SEG_UCODE) then 1 else 0)) /\
    operand_base (idtr t') = idt_addr /\ operand_size (idtr t') = 2048 /\ operand_base (gdtr t') = gdt_addr /\ operand_size (gdtr t') = 48 /\ tickslock t' = Some "time"%string.
Proof.
  intros Hv Hi Hg L1 L2. unfold tvinit. destruct (gates_from_ok vectors 256 0 t ltac:(lia)) as (l & E & HL & HJ).
  unfold bind at 1, bind at 1. rewrite E. unfold initlock_ticks, set_gate, modify, idtinit, lidt, seginit, set_seg, lgdt, bind, modify. cbn [idt gdt idtr gdtr tickslock]. eexists. split; [reflexivity|]. cbn [idt gdt idtr gdtr tickslock].
  change (Z.to_nat T_SYSCALL) with 64%nat. set (l' := <[64%nat := _]> l).
  assert (HG : forall i, (i < 256)%nat -> l' !! i = Some (SETGATE (Nat.eqb i 64) (Z.shiftl SEG_KCODE 3) (vectors i) (if Nat.eqb i 64 then DPL_USER else 0))).
  { intros i Hi'. unfold l'. destruct (Nat.eqb_spec i 64) as [->|Hne]; [by rewrite list_lookup_insert_eq by lia|]. rewrite list_lookup_insert_ne by lia. rewrite HJ. cbn [Nat.leb andb]. by rewrite (proj2 (Nat.ltb_lt _ _)) by lia. }
  assert (HS : forall i, (Z.of_nat i =? T_SYSCALL) = Nat.eqb i 64) by (intros i; unfold T_SYSCALL; destruct (Z.eqb_spec (Z.of_nat i) 64), (Nat.eqb_spec i 64); done || lia).
  destruct (operand_reads idt_addr 2048 Hi ltac:(lia)) as [O1 O2]. destruct (operand_reads gdt_addr 48 Hg ltac:(lia)) as [O3 O4]. split_and!; try done.
  - intros i Hi'. eexists. split; [by apply HG|]. destruct (setgate_reads (Nat.eqb i 64) (vectors i) (if Nat.eqb i 64 then DPL_USER else 0)) as (-> & -> & -> & _ & ->); [apply Hv|unfold DPL_USER; destruct (Nat.eqb i 64); lia|]. by rewrite HS.
  - intros i. unfold int_allowed. cbn [idt]. rewrite <- Z.eqb_eq, HS. split.
    + intros (g & Hg' & Hd). destruct (decide (i < 256)%nat) as [Hi'|Hi']; [|apply lookup_lt_Some in Hg'; unfold l' in Hg'; rewrite length_insert in Hg'; lia]. rewrite HG in Hg' by done. injection Hg' as <-.
      destruct (setgate_reads (Nat.eqb i 64) (vectors i) (if Nat.eqb i 64 then DPL_USER else 0)) as (_ & _ & _ & ED & _); [apply Hv|unfold DPL_USER; destruct (Nat.eqb i 64); lia|]. rewrite ED in Hd. by destruct (Nat.eqb i 64).
    + intros H64. apply Nat.eqb_eq in H64 as ->. eexists. split; [apply HG; lia|]. destruct (setgate_reads true (vectors 64%nat) DPL_USER) as (_ & _ & _ & ED & _); [apply Hv|unfold DPL_USER; lia|]. cbn [Nat.eqb]. rewrite ED. lia.
  - intros i Hi'. destruct (gdt t) as [|? [|? [|? [|? [|? [|? [|? ?]]]]]]]; try done. assert (i = 1 \/ i = 2 \/ i = 3 \/ i = 4) as [->|[->|[->| ->]]] by lia; (eexists; split; [reflexivity|]; by vm_compute).
Qed.

Lemma gates_protect_witness : exists t', (tvinit (fun i => 0x80105000 + 10 * (Z.of_nat i mod 256)) ;;; idtinit 0x80114900 ;;; seginit 0x80112790)
    (mk_tables (replicate 256 (mk_gate 0 0 0 0 0 0 0 0 0)) (replicate 6 (mk_seg 0 0 0 0 0 0 0 0 0 0 0 0 0)) [] [] None) = Ok tt t' /\
  int_allowed t' 64 DPL_USER /\ ~ int_allowed t' 14 DPL_USER.
Proof.
  destruct (gates_protect (fun i => 0x80105000 + 10 * (Z.of_nat i mod 256)) 0x80114900 0x80112790
    (mk_tables (replicate 256 (mk_gate 0 0 0 0 0 0 0 0 0)) (replicate 6 (mk_seg 0 0 0 0 0 0 0 0 0 0 0 0 0)) [] [] None)) as (t' & E & _ & H & _).
  - intros i. pose proof (Z.mod_pos_bound (Z.of_nat i) 256). lia.
  - lia.
  - lia.
  - done.
  - done.
  - exists t'. split; [exact E|]. rewrite !H. unfold T_SYSCALL. lia.
Defined.
