(* ===== verification/Apic.v ===== *)
(** * Apic: the interrupt controllers (ioapic.c, lapic.c, picirq.c)

    The controllers are parameters, [Ioapic] and [Lapic], with the laws of their manuals that
    the code relies on: the I/O APIC has a register that selects which one the data
    register reads and writes, and its redirection table keeps what is written; the local
    APIC keeps its configuration registers, and a command is delivered after some polls. *)

From S2P Require Import Prelude Kernel Trap.

(** ** The I/O APIC *)

Definition REG_ID : Z := 0x00.
Definition REG_VER : Z := 0x01.
Definition REG_TABLE : Z := 0x10.
Definition INT_DISABLED : Z := 0x00010000.

(** Writes to [ioapic->reg] and [ioapic->data], and reads of the latter. *)
Class Ioapic (D : Type) : Type := { io_select : Z -> D -> D; io_read : D -> Z; io_write : Z -> D -> D }.

Class IoapicLaws (D : Type) `{Ioapic D} : Type := {
  io_reg : D -> Z -> Z;
  io_selected d r : io_read (io_select r d) = io_reg d r;
  io_select_keeps d r r' : io_reg (io_select r d) r' = io_reg d r';
  (** The table starts at [REG_TABLE]; the registers under it are not written. *)
  io_written d r v r' : REG_TABLE <= r -> io_reg (io_write v (io_select r d)) r' = if r' =? r then u32 v else io_reg d r' }.

Section Ioapic_code.
Context {D : Type} `{Ioapic D}.

(** The device, and whether the message about its id was printed. *)
Record iostate : Type := mk_iostate { io_dev : D; io_warned : bool }.
Notation I := (M iostate).

Definition ioapicread (reg : Z) : I Z := fun s =>
  let d := io_select reg (io_dev s) in Ok (io_read d) (mk_iostate d (io_warned s)).
Definition ioapicwrite (reg data : Z) : I unit :=
  modify (fun s => mk_iostate (io_write data (io_select reg (io_dev s))) (io_warned s)).

(** [for(i = 0; i <= maxintr; i++)] with [n] iterations left. *)
Fixpoint disable_from (n : nat) (i : Z) : I unit :=
  match n with
  | O => ret tt
  | S n' =>
      ioapicwrite (REG_TABLE + 2 * i) (Z.lor INT_DISABLED (T_IRQ0 + i)) ;;;
      ioapicwrite (REG_TABLE + 2 * i + 1) 0 ;;;
      disable_from n' (i + 1)
  end.

Definition ioapicinit (ioapicid : Z) : I unit :=
  let! v := ioapicread REG_VER in
  let maxintr := Z.land (Z.shiftr v 16) 0xFF in
  let! v := ioapicread REG_ID in
  let id := Z.shiftr v 24 in
  when (negb (id =? ioapicid)) (modify (fun s => mk_iostate (io_dev s) true)) ;;;
  disable_from (Z.to_nat (maxintr + 1)) 0.

Definition ioapicenable (irq cpunum : Z) : I unit :=
  ioapicwrite (REG_TABLE + 2 * irq) (T_IRQ0 + irq) ;;;
  ioapicwrite (REG_TABLE + 2 * irq + 1) (Z.shiftl cpunum 24).

(** The drivers enable their interrupts one after the other. *)
Fixpoint enable_all (es : list (Z * Z)) : I unit :=
  match es with
  | [] => ret tt
  | (irq, cpunum) :: es' => ioapicenable irq cpunum ;;; enable_all es'
  end.

End Ioapic_code.
Arguments iostate D : clear implicits.

Section Routes.
Context {D : Type} `{HI : Ioapic D} `{HL : !IoapicLaws D}.

(** Entry [i] of the redirection table: its low and high words. *)
Definition entry (d : D) (i : Z) : Z * Z := (io_reg d (REG_TABLE + 2 * i), io_reg d (REG_TABLE + 2 * i + 1)).

Definition maxintr (d : D) : Z := Z.land (Z.shiftr (io_reg d REG_VER) 16) 0xFF.

(** Where interrupt [i] goes after the interrupts [es] were enabled: the last one of [i] counts. *)
Fixpoint route (es : list (Z * Z)) (i : Z) : option Z :=
  match es with
  | [] => None
  | (irq, cpunum) :: es' => match route es' i with Some c => Some c | None => if irq =? i then Some cpunum else None end
  end.

Definition write_entry (i lo hi : Z) (d : D) : D := io_write hi (io_select (REG_TABLE + 2 * i + 1) (io_write lo (io_select (REG_TABLE + 2 * i) d))).

Lemma write_entry_table i lo hi d j : 0 <= i -> 0 <= j -> entry (write_entry i lo hi d) j = if j =? i then (u32 lo, u32 hi) else entry d j.
Proof.
  intros Hi Hj. unfold entry, write_entry. rewrite !io_written by (unfold REG_TABLE; lia). unfold REG_TABLE. destruct (Z.eqb_spec j i) as [->|Hne].
  - rewrite !Z.eqb_refl. rewrite (proj2 (Z.eqb_neq (0x10 + 2 * i) _)) by lia. done.
  - by rewrite !(proj2 (Z.eqb_neq _ _)) by lia.
Qed.

Lemma write_entry_low i lo hi d r : 0 <= i -> r < REG_TABLE -> io_reg (write_entry i lo hi d) r = io_reg d r.
Proof. intros Hi Hr. unfold write_entry. rewrite !io_written by (unfold REG_TABLE; lia). by rewrite !(proj2 (Z.eqb_neq _ _)) by (unfold REG_TABLE in *; lia). Qed.

Lemma disable_from_ok n : forall i s, 0 <= i -> exists d, disable_from n i s = Ok tt (mk_iostate d (io_warned s)) /\
  (forall r, r < REG_TABLE -> io_reg d r = io_reg (io_dev s) r) /\
  forall j, 0 <= j -> entry d j = if (i <=? j) && (j <? i + Z.of_nat n) then (u32 (Z.lor INT_DISABLED (T_IRQ0 + j)), 0) else entry (io_dev s) j.
Proof.
  induction n as [|n IH]; intros i s Hi; cbn [disable_from].
  - exists (io_dev s). split; [by destruct s|]. split; [done|]. intros j Hj. destruct (Z.leb_spec i j), (Z.ltb_spec j (i + Z.of_nat 0)); done || lia.
  - unfold ioapicwrite, modify. unfold bind at 1 2. cbn [io_dev io_warned].
    destruct (IH (i + 1) (mk_iostate (write_entry i (Z.lor INT_DISABLED (T_IRQ0 + i)) 0 (io_dev s)) (io_warned s)) ltac:(lia)) as (d & E & HR & HT). cbn [io_dev io_warned] in *.
    exists d. split; [exact E|]. split; [intros r Hr; rewrite HR by done; apply write_entry_low; done|]. intros j Hj. rewrite HT, write_entry_table by done.
    destruct (Z.leb_spec (i + 1) j), (Z.ltb_spec j (i + 1 + Z.of_nat n)), (Z.leb_spec i j), (Z.ltb_spec j (i + Z.of_nat (S n))), (Z.eqb_spec j i); cbn [andb]; try lia; try done; by subst.
Qed.

Lemma enable_all_ok es : forall s, Forall (fun e => 0 <= e.1) es -> exists d, enable_all es s = Ok tt (mk_iostate d (io_warned s)) /\
  forall j, 0 <= j -> entry d j = match route es j with Some c => (u32 (T_IRQ0 + j), u32 (Z.shiftl c 24)) | None => entry (io_dev s) j end.
Proof.
  induction es as [|[irq c] es IH]; intros s HF; cbn [enable_all route].
  - exists (io_dev s). split; [by destruct s|done].
  - inversion_clear HF as [|? ? H1 H2]. cbn [fst] in H1. unfold ioapicenable, ioapicwrite, modify. unfold bind at 1 2. cbn [io_dev io_warned].
    destruct (IH (mk_iostate (write_entry irq (T_IRQ0 + irq) (Z.shiftl c 24) (io_dev s)) (io_warned s)) H2) as (d & E & HT). cbn [io_dev io_warned] in *.
    exists d. split; [exact E|]. intros j Hj. rewrite HT by done. destruct (route es j); [done|]. rewrite write_entry_table by done. rewrite (Z.eqb_sym j irq). by destruct (Z.eqb_spec irq j) as [->|].
Qed.

(** The I/O APIC routes what was enabled.  For any controller that keeps the laws: after
    [ioapicinit] and any sequence of [ioapicenable], an interrupt of the controller goes, edge-triggered and active high,
    to the vector of its number on the processor of the last call for it, and
    an interrupt that nobody enabled is disabled, with no processor; a warning is printed
    exactly when the controller's id is not that of the BIOS table. *)
Theorem ioapic_routes ioapicid es s : Forall (fun e => 0 <= e.1) es ->
  exists s', (ioapicinit ioapicid ;;; enable_all es) s = Ok tt s' /\
    (forall i, 0 <= i <= maxintr (io_dev s) -> entry (io_dev s') i =
      match route es i with
      | Some c => (T_IRQ0 + i, u32 (Z.shiftl c 24))
      | None => (Z.lor INT_DISABLED (T_IRQ0 + i), 0)
      end) /\
    io_warned s' = negb (Z.shiftr (io_reg (io_dev s) REG_ID) 24 =? ioapicid) || io_warned s.
Proof.
  intros HF. unfold ioapicinit, ioapicread. unfold bind at 1 2 3. cbn [io_dev io_warned]. rewrite !io_selected, io_select_keeps. fold (maxintr (io_dev s)).
  set (d0 := io_select REG_ID (io_select REG_VER (io_dev s))). set (b := negb (_ =? ioapicid)).
  assert (EW : when b (modify (fun s => mk_iostate (io_dev s) true)) (mk_iostate d0 (io_warned s)) = Ok tt (mk_iostate d0 (b || io_warned s))) by (by destruct b).
  unfold bind at 1. rewrite EW. destruct (disable_from_ok (Z.to_nat (maxintr (io_dev s) + 1)) 0 (mk_iostate d0 (b || io_warned s)) ltac:(lia)) as (d1 & E1 & _ & T1). rewrite E1. cbn [io_dev io_warned] in *.
  destruct (enable_all_ok es (mk_iostate d1 (b || io_warned s)) HF) as (d2 & E2 & T2). cbn [io_dev io_warned] in *. rewrite E2. eexists. split; [done|]. cbn [io_dev io_warned]. split; [|done].
  intros i Hi. assert (HM : 0 <= maxintr (io_dev s) < 256) by (unfold maxintr; change 0xFF with (Z.ones 8); rewrite Z.land_ones by lia; apply Z.mod_pos_bound; lia).
  rewrite T2 by lia. unfold T_IRQ0 in *. rewrite u32_small by lia. destruct (route es i); [done|]. rewrite T1 by lia. rewrite (proj2 (Z.leb_le _ _)), (proj2 (Z.ltb_lt _ _)) by lia. cbn [andb]. rewrite u32_small; [done|].
  unfold INT_DISABLED. split; [apply Z.lor_nonneg; lia|]. assert (Z.lor 65536 (32 + i) <= 65536 + (32 + i)) by (pose proof (Z.add_lor_land 65536 (32 + i)); pose proof (Z.land_nonneg 65536 (32 + i)); lia). lia.
Qed.
End Routes.

(** ** The local APIC *)

(** Its registers, as indices of words. *)
Definition ID : Z := 0x0020 / 4.
Definition VER : Z := 0x0030 / 4.
Definition TPR : Z := 0x0080 / 4.
Definition EOI : Z := 0x00B0 / 4.
Definition SVR : Z := 0x00F0 / 4.
Definition ENABLE : Z := 0x00000100.
Definition ESR : Z := 0x0280 / 4.
Definition ICRLO : Z := 0x0300 / 4.
Definition INIT : Z := 0x00000500.
Definition STARTUP : Z := 0x00000600.
Definition DELIVS : Z := 0x00001000.
Definition ASSERT : Z := 0x00004000.
Definition LEVEL : Z := 0x00008000.
Definition BCAST : Z := 0x00080000.
Definition ICRHI : Z := 0x0310 / 4.
Definition TIMER : Z := 0x0320 / 4.
Definition X1 : Z := 0x0000000B.
Definition PERIODIC : Z := 0x00020000.
Definition PCINT : Z := 0x0340 / 4.
Definition LINT0 : Z := 0x0350 / 4.
Definition LINT1 : Z := 0x0360 / 4.
Definition ERROR : Z := 0x0370 / 4.
Definition MASKED : Z := 0x00010000.
Definition TICR : Z := 0x0380 / 4.
Definition TDCR : Z := 0x03E0 / 4.
Definition IRQ_ERROR : Z := 19.

(** Reads may change the device, as when a status is polled. *)
Class Lapic (D : Type) : Type := { l_read : Z -> D -> Z * D; l_write : Z -> Z -> D -> D }.

(** The registers that keep what is written to them. *)
Definition config (i : Z) : bool := bool_decide (i ∈ [TPR; SVR; TIMER; PCINT; LINT0; LINT1; ERROR; TICR; TDCR]).

(** [l_busy]: how many reads of the command register are left until the command is delivered. *)
Class LapicLaws (D : Type) `{Lapic D} (polls : nat) : Type := {
  l_reg : D -> Z -> Z;
  l_busy : D -> nat;
  l_bound d : (l_busy d < polls)%nat;
  l_read_reg d i : i <> ICRLO -> (l_read i d).1 = l_reg d i;
  l_read_keeps d i : l_reg (l_read i d).2 = l_reg d;
  l_poll d : Z.land (l_read ICRLO d).1 DELIVS = 0 <-> l_busy d = 0%nat;
  l_polled d : l_busy (l_read ICRLO d).2 = pred (l_busy d);
  l_write_config d i v j : config i = true -> l_reg (l_write i v d) j = if j =? i then u32 v else l_reg d j;
  l_write_command d i v j : config i = false -> config j = true \/ j = VER \/ j = ID -> l_reg (l_write i v d) j = l_reg d j }.

Section Lapic_code.
Context {D : Type} `{Lapic D} (polls : nat).

(** [lapic] is the address that mpinit found, 0 before; [l_ports] the writes to ports and
    [l_warm] to the warm reset vector. *)
Record lstate : Type := mk_lstate { lapic : Z; l_dev : D; l_ports : list (Z * Z); l_warm : list Z }.
Notation L := (M lstate).

Definition lread (index : Z) : L Z := fun s =>
  let '(v, d) := l_read index (l_dev s) in Ok v (mk_lstate (lapic s) d (l_ports s) (l_warm s)).
Definition lwrite (index value : Z) : L unit :=
  modify (fun s => mk_lstate (lapic s) (l_write index value (l_dev s)) (l_ports s) (l_warm s)).
Definition outb (port v : Z) : L unit := modify (fun s => mk_lstate (lapic s) (l_dev s) (l_ports s ++ [(port, v)]) (l_warm s)).

Definition lapicw (index value : Z) : L unit :=
  lwrite index value ;;;
  let! _ := lread ID in
  ret tt.

(** [while(lapic[ICRLO] & DELIVS)] *)
Fixpoint delivered (n : nat) : L unit :=
  match n with
  | O => spin
  | S n' =>
      let! v := lread ICRLO in
      if negb (Z.land v DELIVS =? 0) then delivered n' else ret tt
  end.

Definition lapicinit : L unit :=
  let! s := get in
  if lapic s =? 0 then ret tt else
  lapicw SVR (Z.lor ENABLE (T_IRQ0 + IRQ_SPURIOUS)) ;;;
  lapicw TDCR X1 ;;;
  lapicw TIMER (Z.lor PERIODIC (T_IRQ0 + IRQ_TIMER)) ;;;
  lapicw TICR 10000000 ;;;
  lapicw LINT0 MASKED ;;;
  lapicw LINT1 MASKED ;;;
  let! v := lread VER in
  when (4 <=? Z.land (Z.shiftr v 16) 0xFF) (lapicw PCINT MASKED) ;;;
  lapicw ERROR (T_IRQ0 + IRQ_ERROR) ;;;
  lapicw ESR 0 ;;;
  lapicw ESR 0 ;;;
  lapicw EOI 0 ;;;
  lapicw ICRHI 0 ;;;
  lapicw ICRLO (Z.lor (Z.lor BCAST INIT) LEVEL) ;;;
  delivered polls ;;;
  lapicw TPR 0.

Definition lapicid : L Z :=
  let! s := get in
  if lapic s =? 0 then ret 0 else
  let! v := lread ID in
  ret (Z.shiftr v 24).

Definition lapiceoi : L unit :=
  let! s := get in
  if negb (lapic s =? 0) then lapicw EOI 0 else ret tt.

Definition CMOS_PORT : Z := 0x70.

(** [microdelay] does nothing. *)
Definition startup_ipi (apicid addr : Z) : L unit :=
  lapicw ICRHI (Z.shiftl apicid 24) ;;;
  lapicw ICRLO (Z.lor STARTUP (Z.shiftr addr 12)).

Definition lapicstartap (apicid addr : Z) : L unit :=
  outb CMOS_PORT 0xF ;;;
  outb (CMOS_PORT + 1) 0x0A ;;;
  modify (fun s => mk_lstate (lapic s) (l_dev s) (l_ports s) [0; u16 (Z.shiftr addr 4)]) ;;;
  lapicw ICRHI (Z.shiftl apicid 24) ;;;
  lapicw ICRLO (Z.lor (Z.lor INIT LEVEL) ASSERT) ;;;
  lapicw ICRLO (Z.lor INIT LEVEL) ;;;
  startup_ipi apicid addr ;;;
  startup_ipi apicid addr.

(** ** The 8259A (picirq.c) *)

Definition IO_PIC1 : Z := 0x20.
Definition IO_PIC2 : Z := 0xA0.
Definition picinit : L unit := outb (IO_PIC1 + 1) 0xFF ;;; outb (IO_PIC2 + 1) 0xFF.

End Lapic_code.
Arguments lstate D : clear implicits.

Section Configured.
Context {D : Type} `{HI : Lapic D} (polls : nat) `{HL : !LapicLaws D polls}.

(** [s'] is [s] with another device, whose registers that matter are given by [f]. *)
Definition lset (s s' : lstate D) (f : Z -> Z) : Prop :=
  lapic s' = lapic s /\ l_ports s' = l_ports s /\ l_warm s' = l_warm s /\
  forall j, config j = true \/ j = VER \/ j = ID -> l_reg (l_dev s') j = f j.

Lemma lapicw_config i v s0 s f : config i = true -> lset s0 s f -> exists s', lapicw i v s = Ok tt s' /\ lset s0 s' (fun j => if j =? i then u32 v else f j).
Proof.
  intros Hi (H1 & H2 & H3 & H4). unfold lapicw, lwrite, lread, modify, bind. cbn [l_dev lapic l_ports l_warm]. pose proof (l_read_keeps (l_write i v (l_dev s)) ID) as HK. destruct (l_read ID _) as [x d]. cbn [snd] in HK.
  eexists. split; [done|]. split_and!; try done. cbn [l_dev]. intros j Hj. rewrite HK, l_write_config by done. destruct (j =? i); [done|by apply H4].
Qed.

Lemma lapicw_command i v s0 s f : config i = false -> lset s0 s f -> exists s', lapicw i v s = Ok tt s' /\ lset s0 s' f.
Proof.
  intros Hi (H1 & H2 & H3 & H4). unfold lapicw, lwrite, lread, modify, bind. cbn [l_dev lapic l_ports l_warm]. pose proof (l_read_keeps (l_write i v (l_dev s)) ID) as HK. destruct (l_read ID _) as [x d]. cbn [snd] in HK.
  eexists. split; [done|]. split_and!; try done. cbn [l_dev]. intros j Hj. rewrite HK, l_write_command by done. by apply H4.
Qed.

Lemma delivered_ok n : forall s0 s f, (l_busy (l_dev s) < n)%nat -> lset s0 s f -> exists s', delivered n s = Ok tt s' /\ lset s0 s' f.
Proof.
  induction n as [|n IH]; intros s0 s f Hn (H1 & H2 & H3 & H4); [lia|]. cbn [delivered]. unfold bind at 1, lread.
  pose proof (l_read_keeps (l_dev s) ICRLO) as HK. pose proof (l_poll (l_dev s)) as HP. pose proof (l_polled (l_dev s)) as HB. destruct (l_read ICRLO (l_dev s)) as [v d]. cbn [fst snd] in *.
  assert (HS : lset s0 (mk_lstate (lapic s) d (l_ports s) (l_warm s)) f) by (split_and!; try done; cbn [l_dev]; rewrite HK; done).
  destruct (Z.eqb_spec (Z.land v DELIVS) 0) as [E|E]; cbn [negb]; [by eexists|]. apply IH; [|done]. cbn [l_dev]. rewrite HB. assert (l_busy (l_dev s) <> 0%nat) by (by rewrite <- HP). lia.
Qed.

(** The registers after [lapicinit], for those before. *)
Definition configured (f : Z -> Z) (j : Z) : Z :=
  if j =? SVR then 0x13F else if j =? TDCR then 11 else if j =? TIMER then 0x20020 else if j =? TICR then 10000000
  else if (j =? LINT0) || (j =? LINT1) then MASKED else if j =? ERROR then 51 else if j =? TPR then 0
  else if j =? PCINT then (if 4 <=? Z.land (Z.shiftr (f VER) 16) 0xFF then MASKED else f PCINT)
  else f j.

Lemma lread_ok j s0 s f : j <> ICRLO -> config j = true \/ j = VER \/ j = ID -> lset s0 s f -> exists s', lread j s = Ok (f j) s' /\ lset s0 s' f.
Proof.
  intros Hne Hj (H1 & H2 & H3 & H4). unfold lread. pose proof (l_read_reg (l_dev s) j Hne) as HR. pose proof (l_read_keeps (l_dev s) j) as HK. destruct (l_read j (l_dev s)) as [v d]. cbn [fst snd] in *.
  rewrite HR, (H4 j Hj). eexists. split; [reflexivity|]. split_and!; try done. cbn [l_dev]. by rewrite HK.
Qed.

Lemma lapicw_when b i v s0 s f : config i = true -> lset s0 s f -> exists s', when b (lapicw i v) s = Ok tt s' /\ lset s0 s' (fun j => if b && (j =? i) then u32 v else f j).
Proof. intros Hi HS. destruct b; [by apply lapicw_config|by exists s]. Qed.

(** One write of [lapicinit], by one of the lemmas above. *)
Ltac write_with lem :=
  match goal with
  | HS : lset ?s0 ?s1 _ |- context [bind (lapicw ?i ?v) _ ?s1] =>
      let s2 := fresh "s" in let E := fresh "E" in let HS2 := fresh "HS" in
      destruct (lem i v s0 s1 _ eq_refl HS) as (s2 & E & HS2); mstep E; clear HS E
  end.

(** [lapicinit] ends, with the unit enabled, the timer periodic on the vector of the timer interrupt, the
    lines masked and every priority accepted. *)
Lemma lapicinit_configures s : lapic s <> 0 -> exists s', lapicinit polls s = Ok tt s' /\ lset s s' (configured (l_reg (l_dev s))).
Proof.
  intros Hz. unfold lapicinit. mget. rewrite (proj2 (Z.eqb_neq _ _) Hz). set (f0 := l_reg (l_dev s)). assert (HS : lset s s f0) by done.
  do 6 (write_with lapicw_config).
  match goal with HS : lset _ _ _ |- _ => destruct (lread_ok VER _ _ _ ltac:(done) (or_intror (or_introl eq_refl)) HS) as (s7 & E & S7); mstep E; clear E HS end.
  set (b := 4 <=? _). unfold bind at 1. destruct (lapicw_when b PCINT MASKED _ _ _ eq_refl S7) as (s8 & E & S8). rewrite E. clear E S7.
  write_with lapicw_config. do 5 (write_with lapicw_command).
  match goal with HS : lset _ ?s1 _ |- _ => destruct (delivered_ok polls _ _ _ (l_bound (l_dev s1)) HS) as (s15 & E & S15); mstep E; clear E HS end.
  destruct (lapicw_config TPR 0 _ _ _ eq_refl S15) as (s16 & E & H1 & H2 & H3 & H4). exists s16. split; [done|]. split_and!; try done.
  assert (EB : b = (4 <=? Z.land (Z.shiftr (f0 VER) 16) 0xFF)) by reflexivity. clearbody b f0.
  intros j Hj. rewrite H4 by done. clear -Hj EB. unfold configured. rewrite <- EB. clear EB.
  destruct Hj as [Hj|[->| ->]]; [|by destruct b|by destruct b]. apply bool_decide_eq_true in Hj.
  repeat (apply elem_of_cons in Hj as [->|Hj]; [by destruct b|]). by apply not_elem_of_nil in Hj.
Qed.
End Configured.

(** ** Witnesses *)

(** A controller with the registers as a function. *)
Record chip : Type := mk_chip { sel : Z; chip_regs : Z -> Z }.
#[local] Instance chip_ioapic : Ioapic chip := {
  io_select r d := mk_chip r (chip_regs d);
  io_read d := chip_regs d (sel d);
  io_write v d := mk_chip (sel d) (fun r => if r =? sel d then u32 v else chip_regs d r) }.
#[local, refine] Instance chip_laws : IoapicLaws chip := { io_reg := chip_regs; io_selected := _; io_select_keeps := _; io_written := _ }.
Proof. all: done. Defined.

(** 24 interrupts and the id 2, as on a common machine; the disk's interrupt goes to processor 1. *)
Lemma ioapic_routes_witness : exists s', (ioapicinit 2 ;;; enable_all [(1, 0); (14, 0); (14, 1)]) (mk_iostate (mk_chip 0 (fun r => if r =? 1 then 0x170011 else 0x2000000)) false) = Ok tt s' /\
  entry (io_dev s') 14 = (46, 0x1000000) /\ entry (io_dev s') 4 = (0x10024, 0) /\ io_warned s' = false.
Proof.
  destruct (ioapic_routes 2 [(1, 0); (14, 0); (14, 1)] (mk_iostate (mk_chip 0 (fun r => if r =? 1 then 0x170011 else 0x2000000)) false)) as (s' & E & HR & HW).
  - repeat constructor; cbn; lia.
  - exists s'. split; [exact E|]. split; [|split].
    + rewrite HR by (by vm_compute). by vm_compute.
    + rewrite HR by (by vm_compute). by vm_compute.
    + rewrite HW. by vm_compute.
Defined.
