(* ===== verification/Uart.v ===== *)
(** * Uart: the serial port (uart.c)

    [uartinit] and [uartputc]; [uartgetc] is in Kbd.  What a read of a port gives is a
    parameter, by the number of reads before it: the theorems hold whatever the device answers. *)

From S2P Require Import Prelude Kernel Trap.

Definition COM1 : Z := 0x3f8.

(** The reads so far, [uart], the writes to ports and the interrupts enabled. *)
Record serial : Type := mk_serial { s_reads : nat; uart : bool; s_out : list (Z * Z); s_irqs : list (Z * Z) }.
Notation S_ := (M serial).

Section Uart.
Context (port : nat -> Z -> Z).

Definition inb (p : Z) : S_ Z := fun s => Ok (u8 (port (s_reads s) p)) (mk_serial (S (s_reads s)) (uart s) (s_out s) (s_irqs s)).
Definition outb (p v : Z) : S_ unit := modify (fun s => mk_serial (s_reads s) (uart s) (s_out s ++ [(p, u8 v)]) (s_irqs s)).
Definition ioapicenable (irq cpu : Z) : S_ unit := modify (fun s => mk_serial (s_reads s) (uart s) (s_out s) (s_irqs s ++ [(irq, cpu)])).

(** [for(i = 0; i < 128 && !(inb(COM1+5) & 0x20); i++)] *)
Fixpoint tx_wait (n : nat) : S_ unit :=
  match n with
  | O => ret tt
  | S n' =>
      let! v := inb (COM1 + 5) in
      if Z.land v 0x20 =? 0 then tx_wait n' else ret tt
  end.

Definition uartputc (c : Z) : S_ unit :=
  let! s := get in
  if negb (uart s) then ret tt else
  tx_wait 128 ;;;
  outb (COM1 + 0) c.

Fixpoint uartputs (cs : list Z) : S_ unit :=
  match cs with
  | [] => ret tt
  | c :: cs' => uartputc c ;;; uartputs cs'
  end.

Definition uartinit : S_ unit :=
  outb (COM1 + 2) 0 ;;;
  outb (COM1 + 3) 0x80 ;;;
  outb (COM1 + 0) (115200 / 9600) ;;;
  outb (COM1 + 1) 0 ;;;
  outb (COM1 + 3) 0x03 ;;;
  outb (COM1 + 4) 0 ;;;
  outb (COM1 + 1) 0x01 ;;;
  let! v := inb (COM1 + 5) in
  if v =? 0xFF then ret tt else
  modify (fun s => mk_serial (s_reads s) true (s_out s) (s_irqs s)) ;;;
  let! _ := inb (COM1 + 2) in
  let! _ := inb (COM1 + 0) in
  ioapicenable IRQ_COM1 0 ;;;
  uartputs (chars "xv6..." ++ [10]).

(** ** A character is always sent *)

Lemma tx_wait_ends n : forall s, exists k, (k <= n)%nat /\ tx_wait n s = Ok tt (mk_serial (s_reads s + k) (uart s) (s_out s) (s_irqs s)).
Proof.
  induction n as [|n IH]; intros s; cbn [tx_wait].
  - exists 0%nat. split; [done|]. rewrite Nat.add_0_r. by destruct s.
  - unfold bind at 1, inb. destruct (Z.land _ 0x20 =? 0).
    + destruct (IH (mk_serial (S (s_reads s)) (uart s) (s_out s) (s_irqs s))) as (k & Hk & E). exists (S k). split; [lia|]. rewrite E. cbn [s_reads uart s_out s_irqs]. by rewrite Nat.add_succ_r.
    + exists 1%nat. split; [lia|]. by rewrite Nat.add_1_r.
Qed.

(** With a port, [uartputc] sends its byte after at most 128 polls, whether the transmitter was
    ready or not; without one it does nothing. *)
Lemma uartputc_sends c s : exists k, (k <= 128)%nat /\
  uartputc c s = Ok tt (if uart s then mk_serial (s_reads s + k) true (s_out s ++ [(COM1, u8 c)]) (s_irqs s) else s).
Proof.
  unfold uartputc. mget. destruct (uart s) eqn:EU; cbn [negb]; [|by exists 0%nat; split; [lia|]].
  destruct (tx_wait_ends 128 s) as (k & Hk & E). exists k. split; [done|]. mstep E. unfold outb, modify. cbn [s_reads uart s_out s_irqs]. by rewrite EU.
Qed.

Lemma uartputs_sends cs : forall s, uart s = true -> exists k, (k <= 128 * length cs)%nat /\
  uartputs cs s = Ok tt (mk_serial (s_reads s + k) true (s_out s ++ ((fun c => (COM1, u8 c)) <$> cs)) (s_irqs s)).
Proof.
  induction cs as [|c cs IH]; intros s HU; cbn [uartputs].
  - exists 0%nat. split; [lia|]. rewrite Nat.add_0_r. cbn. rewrite app_nil_r, <- HU. by destruct s.
  - destruct (uartputc_sends c s) as (k & Hk & E). rewrite HU in E. mstep E. destruct (IH (mk_serial (s_reads s + k) true (s_out s ++ [(COM1, u8 c)]) (s_irqs s)) eq_refl) as (k' & Hk' & E').
    exists (k + k')%nat. cbn [length]. split; [lia|]. rewrite E'. cbn [s_reads s_out s_irqs fmap list_fmap]. by rewrite Nat.add_assoc, <- app_assoc.
Qed.

(** The port is set to 9600 baud, 8 bits and no parity.  When its status is [0xFF] there is none, and
    nothing else is written; otherwise its interrupt goes to processor 0 and the
    greeting is sent. *)
Definition set_up : list (Z * Z) := [(COM1 + 2, 0); (COM1 + 3, 0x80); (COM1, 12); (COM1 + 1, 0); (COM1 + 3, 3); (COM1 + 4, 0); (COM1 + 1, 1)].

Theorem uartinit_greets s : uart s = false ->
  let present := negb (u8 (port (s_reads s) (COM1 + 5)) =? 0xFF) in
  exists k, uartinit s = Ok tt (mk_serial (s_reads s + k) present
    (s_out s ++ set_up ++ (if present then (fun c => (COM1, u8 c)) <$> (chars "xv6..." ++ [10]) else []))
    (s_irqs s ++ (if present then [(IRQ_COM1, 0)] else []))).
Proof.
  intros HU present. unfold uartinit, outb, modify. do 7 (unfold bind at 1). cbn [s_reads uart s_out s_irqs]. rewrite <- !app_assoc. cbn [app].
  unfold bind at 1, inb at 1. cbn [s_reads uart s_out s_irqs]. fold set_up. unfold present. destruct (Z.eqb_spec (u8 (port (s_reads s) (COM1 + 5))) 0xFF) as [E|E]; cbn [negb].
  - exists 1%nat. unfold ret. rewrite !app_nil_r, Nat.add_1_r, HU. done.
  - unfold bind at 1. cbn [s_reads uart s_out s_irqs]. unfold inb, ioapicenable, modify. unfold bind at 1 2 3. cbn [s_reads uart s_out s_irqs].
    edestruct (uartputs_sends (chars "xv6..." ++ [10])) as (k & _ & E'); [|rewrite E'; cbn [s_reads uart s_out s_irqs]].
    + done.
    + exists (3 + k)%nat. rewrite <- app_assoc. f_equal. f_equal. lia.
Qed.
End Uart.

Lemma uartinit_greets_witness : exists s, uartinit (fun _ _ => 0x60) (mk_serial 0 false [] []) = Ok tt s /\ uart s = true /\ length (s_out s) = 14%nat.
Proof.
  destruct (uartinit_greets (fun _ _ => 0x60) (mk_serial 0 false [] []) eq_refl) as (k & E). eexists. split; [exact E|]. done.
Defined.
