(* ===== verification/Simplesh.v ===== *)
(** * Simplesh: the command line of the shell (simplesh.c)

    A line is the characters before its NUL, and a pointer into it is an index; the
    character at the end is the NUL.  The parser's state is the pointer
    [*start_of_str] and the messages given to [error], which prints and goes on.  An
    [assert] that fails is a [Fault], [panic] is [Panic].  The commands keep the
    indices where an argument starts and ends, as the C structures keep pointers;
    [null_terminate] writes the NULs that make them C strings. *)

From S2P Require Import Prelude.

(** ** Characters *)

Definition WHITESPACE : list Z := [32; 9; 13; 10; 11].
Definition SYMBOLS : list Z := [60; 124; 62; 38; 59; 40; 41].

(** [strchr(s, c)] is not null: the terminator of [s] counts. *)
Definition strchr (s : list Z) (c : Z) : bool := (c =? 0) || bool_decide (c ∈ s).

Definition MAX_ARGS : nat := 16.

(** Flags and modes of [open] (fcntl.h, sys/stat.h). *)
Definition O_RDONLY : Z := 0.
Definition O_RDWR : Z := 2.
Definition O_CREAT : Z := 0x40.
Definition O_TRUNC : Z := 0x200.
Definition O_APPEND : Z := 0x400.
Definition S_IRWXU : Z := 0x1C0.

(** ** Commands *)

(** Where an argument starts and ends ([argv[i]] and [eargv[i]]). *)
Definition span : Type := nat * nat.

Inductive cmd : Type :=
| EXEC (argv : list span)
| REDR (c : cmd) (file : span) (flags mode fd : Z)
| PIPE (left right : cmd)
| LIST (left right : cmd)
| BACK (c : cmd)
| SUBS (c : cmd).

(** A redirection that is not around its command yet. *)
Record redr : Type := mk_redr { r_file : span; r_flags : Z; r_mode : Z; r_fd : Z }.

(** [redrcmd] around [c] for each redirection, the first innermost.  [parse_exec] fills
    the arguments of the innermost command while redirections are already around it. *)
Definition redrcmd (c : cmd) (r : redr) : cmd := REDR c (r_file r) (r_flags r) (r_mode r) (r_fd r).
Definition redrcmds (c : cmd) (rs : list redr) : cmd := foldl redrcmd c rs.

(** ** The parser *)

Record sh : Type := mk_sh { sh_pos : nat; sh_errors : list string }.

Section Parser.
Context (line : list Z).

Notation P := (M sh).

(** [*s] *)
Definition ch (s : nat) : Z := default 0 (line !! s).

(** [while (s < end_of_str && p( *s)) s++] *)
Fixpoint skip_while (p : Z -> bool) (n s : nat) : nat :=
  match n with
  | O => s
  | S n' => if p (ch s) then skip_while p n' (S s) else s
  end.
Definition skip (p : Z -> bool) (s : nat) : nat := skip_while p (length line - s) s.

Definition is_space (c : Z) : bool := strchr WHITESPACE c.
Definition is_word (c : Z) : bool := negb (strchr WHITESPACE c) && negb (strchr SYMBOLS c).

Definition set_pos (s : nat) : P unit := modify (fun x => mk_sh s (sh_errors x)).
Definition error (msg : string) : P unit := modify (fun x => mk_sh (sh_pos x) (sh_errors x ++ [msg])).
Definition assert (b : bool) : P unit := if b then ret tt else fault "assert".

(** The kind of the token at [s] and where it ends. *)
Definition token_at (s : nat) : Z * nat :=
  let c := ch s in
  if c =? 0 then (0, s)
  else if bool_decide (c ∈ [124; 40; 41; 59; 38; 60]) then (c, S s)
  else if c =? 62 then (if ch (S s) =? 62 then (43, S (S s)) else (62, S s))
  else (97, skip is_word s).

Definition get_token : P (Z * span) :=
  let! st := get in
  let s := skip is_space (sh_pos st) in
  let '(kind, e) := token_at s in
  set_pos (skip is_space e) ;;;
  ret (kind, (s, e)).

Definition peek (delimiter : list Z) : P bool :=
  let! st := get in
  let s := skip is_space (sh_pos st) in
  set_pos s ;;;
  ret (negb (ch s =? 0) && strchr delimiter (ch s)).

(** [parse_redr]: the redirections from here on, after [rs]. *)
Fixpoint parse_redr (fuel : nat) (rs : list redr) : P (list redr) :=
  match fuel with
  | O => spin
  | S fuel' =>
      let! b := peek [60; 62] in
      if b : bool then
        let! '(delimiter, _) := get_token in
        assert ((delimiter =? 60) || (delimiter =? 62) || (delimiter =? 43)) ;;;
        let! '(kind, file) := get_token in
        (if negb (97 =? kind) then error "parse_redr: se esperaba un fichero" else ret tt) ;;;
        parse_redr fuel' (rs ++ [
          if delimiter =? 60 then mk_redr file O_RDONLY 0 0
          else if delimiter =? 62 then mk_redr file (Z.lor O_RDWR (Z.lor O_CREAT O_TRUNC)) S_IRWXU 1
          else mk_redr file (Z.lor O_RDWR (Z.lor O_CREAT O_APPEND)) S_IRWXU 1 ])
      else ret rs
  end.

(** Each turn of a loop of the parser consumes a character. *)
Definition turns : nat := S (length line).

(** The loop of [parse_exec], with the arguments and the redirections so far. *)
Fixpoint exec_loop (fuel : nat) (args : list span) (rs : list redr) : P cmd :=
  match fuel with
  | O => spin
  | S fuel' =>
      let! b := peek [124; 41; 38; 59] in
      if b : bool then ret (redrcmds (EXEC args) rs) else
      let! '(token, arg) := get_token in
      if token =? 0 then ret (redrcmds (EXEC args) rs) else
      (if negb (token =? 97) then error "parse_exec: se esperaba un argumento" else ret tt) ;;;
      if (MAX_ARGS <=? length (args ++ [arg]))%nat then panic "parse_exec: demasiados argumentos" else
      let! rs := parse_redr turns rs in
      exec_loop fuel' (args ++ [arg]) rs
  end.

(** The [while] of [parse_line]: [backcmd] for each [&]. *)
Fixpoint back_loop (fuel : nat) (c : cmd) : P cmd :=
  match fuel with
  | O => spin
  | S fuel' =>
      let! b := peek [38] in
      if b : bool then
        let! '(delimiter, _) := get_token in
        assert (delimiter =? 38) ;;;
        back_loop fuel' (BACK c)
      else ret c
  end.

Definition no_command (c : cmd) : bool := match c with EXEC [] => true | _ => false end.

Fixpoint parse_line (fuel : nat) : P cmd :=
  match fuel with
  | O => spin
  | S fuel' =>
      let! c := parse_pipe fuel' in
      let! c := back_loop turns c in
      let! b := peek [59] in
      if b : bool then
        (if no_command c then error "parse_line: no se encontro comando" else ret tt) ;;;
        let! '(delimiter, _) := get_token in
        assert (delimiter =? 59) ;;;
        let! r := parse_line fuel' in
        ret (LIST c r)
      else ret c
  end
with parse_pipe (fuel : nat) : P cmd :=
  match fuel with
  | O => spin
  | S fuel' =>
      let! c := parse_exec fuel' in
      let! b := peek [124] in
      if b : bool then
        (if no_command c then error "parse_pipe: no se encontro comando" else ret tt) ;;;
        let! '(delimiter, _) := get_token in
        assert (delimiter =? 124) ;;;
        let! r := parse_pipe fuel' in
        ret (PIPE c r)
      else ret c
  end
with parse_exec (fuel : nat) : P cmd :=
  match fuel with
  | O => spin
  | S fuel' =>
      let! b := peek [40] in
      if b : bool then parse_subs fuel' else
      let! rs := parse_redr turns [] in
      exec_loop turns [] rs
  end
with parse_subs (fuel : nat) : P cmd :=
  match fuel with
  | O => spin
  | S fuel' =>
      let! b := peek [40] in
      (if negb b then error "parse_subs: se esperaba '('" else ret tt) ;;;
      let! '(delimiter, _) := get_token in
      assert (delimiter =? 40) ;;;
      let! scmd := parse_line fuel' in
      let! b := peek [41] in
      (if negb b then error "parse_subs: se esperaba ')'" else ret tt) ;;;
      let! '(delimiter, _) := get_token in
      assert (delimiter =? 41) ;;;
      let! rs := parse_redr turns [] in
      ret (redrcmds (SUBS scmd) rs)
  end.

(** A command nests at most once per character, four calls each time. *)
Definition parse_fuel : nat := 4 * length line + 4.

(** [parse_cmd]; its message for what is left of the line names one argument of two of
    its format, and the one that is missing is read. *)
Definition parse_cmd : P cmd :=
  let! c := parse_line parse_fuel in
  let! _ := peek [] in
  let! st := get in
  (if negb (Nat.eqb (sh_pos st) (length line)) then fault "error: missing argument" else ret tt) ;;;
  ret c.

Definition parse : outcome sh cmd := parse_cmd (mk_sh 0 []).

End Parser.

(** ** What becomes of a command *)

(** The spans [null_terminate] ends, in its order. *)
Fixpoint spans (c : cmd) : list span :=
  match c with
  | EXEC argv => argv
  | REDR c file _ _ _ => spans c ++ [file]
  | PIPE l r | LIST l r => spans l ++ spans r
  | BACK c | SUBS c => spans c
  end.

(** [null_terminate] on the buffer of the line: a NUL where each span ends. *)
Definition end_span (buf : list Z) (sp : span) : list Z := <[snd sp := 0]> buf.
Fixpoint null_terminate (c : cmd) (buf : list Z) : list Z :=
  match c with
  | EXEC argv => foldl end_span buf argv
  | REDR c file _ _ _ => end_span (null_terminate c buf) file
  | PIPE l r | LIST l r => null_terminate r (null_terminate l buf)
  | BACK c | SUBS c => null_terminate c buf
  end.

(** The C string at [s]: the characters before the first NUL. *)
Fixpoint upto_nul (l : list Z) : list Z :=
  match l with
  | [] => []
  | c :: l' => if c =? 0 then [] else c :: upto_nul l'
  end.
Definition cstring (buf : list Z) (s : nat) : list Z := upto_nul (drop s buf).

(** The structures [free_cmd] passes to [free], in its order. *)
Fixpoint free_cmd (c : cmd) : list cmd :=
  match c with
  | EXEC _ => [c]
  | REDR c' _ _ _ _ | BACK c' | SUBS c' => free_cmd c' ++ [c]
  | PIPE l r | LIST l r => free_cmd l ++ free_cmd r ++ [c]
  end.

(** [print_cmd] on the ended buffer; a null [argv[0]] prints nothing in an [EXEC] by
    itself, and as "(null)" inside the others. *)
Definition arg0 (buf : list Z) (argv : list span) : list Z :=
  match argv with
  | sp :: _ => cstring buf (fst sp)
  | [] => chars "(null)"
  end.
Fixpoint print_cmd (buf : list Z) (c : cmd) : list Z :=
  let inner (c' : cmd) (rest : list Z) : list Z :=
    match c' with
    | EXEC argv => chars "exec ( " ++ arg0 buf argv ++ chars " )"
    | _ => rest
    end in
  match c with
  | EXEC [] => []
  | EXEC argv => chars "fork( exec( " ++ arg0 buf argv ++ chars " ) )"
  | REDR c _ _ _ _ => chars "fork( " ++ inner c (print_cmd buf c) ++ chars " )"
  | LIST l r => print_cmd buf l ++ chars " ; " ++ print_cmd buf r
  | PIPE l r =>
      chars "fork( " ++ inner l (print_cmd buf l) ++ chars " ) => fork( " ++ inner r (print_cmd buf r) ++ chars " )"
  | BACK c => chars "fork( " ++ inner c (print_cmd buf c) ++ chars " )"
  | SUBS c => chars "fork( " ++ print_cmd buf c ++ chars " )"
  end.

(** ** The internal commands and the background jobs *)

(** [strcmp(a, b) == 0] of C strings. *)
Definition str_eq (a b : list Z) : bool := bool_decide (a = b).

Definition is_interno (comando : option (list Z)) : bool :=
  match comando with
  | None => false
  | Some c =>
      str_eq c (chars "cwd") || str_eq c (chars "exit") || str_eq c (chars "cd") ||
      str_eq c (chars "hd") || str_eq c (chars "src") || str_eq c (chars "bjobs")
  end.

Definition MAX_PROC_BACK : nat := 8.

Record procesos_background : Type := mk_back { procesos : list Z; posicion : nat }.

(** [add_proceso_background]: [None] when the loop has not ended after [fuel] turns. *)
Fixpoint add_proceso_background (fuel : nat) (b : procesos_background) (pid : Z) : option procesos_background :=
  if default 0 (procesos b !! posicion b) =? 0 then Some (mk_back (<[posicion b := pid]> (procesos b)) (posicion b))
  else
    match fuel with
    | O => None
    | S fuel' => add_proceso_background fuel' (mk_back (procesos b) ((posicion b + 1) mod MAX_PROC_BACK)) pid
    end.

Definition delete_proceso_background (b : procesos_background) (pid : Z) : procesos_background :=
  mk_back ((fun p => if pid =? p then 0 else p) <$> procesos b) (posicion b).

(** ** C strings *)

Lemma upto_nul_app l l' : Forall (fun c => c <> 0) l -> upto_nul (l ++ 0 :: l') = l.
Proof. induction 1 as [|c l Hc Hl IH]; [done|]. cbn. by rewrite (proj2 (Z.eqb_neq _ _) Hc), IH. Qed.

Lemma upto_nul_all l : Forall (fun c => c <> 0) l -> upto_nul l = l.
Proof. induction 1 as [|c l Hc Hl IH]; [done|]. cbn. by rewrite (proj2 (Z.eqb_neq _ _) Hc), IH. Qed.
