(* ===== verification/Shparse.v ===== *)
(** * Shparse: what the parser of simplesh does (theorems about simplesh.c)

    The parser ends on every line, within a fuel of four for each character; it gives
    back every command that is written out with spaces between its words; and the NULs
    of [null_terminate] make every argument of a line without errors the C string of
    its characters. *)

From S2P Require Import Prelude Simplesh.

(** ** Ending *)

(** [m] ends from [s], and when it returns the result and the state satisfy [Q]. *)
Definition ends {S A} (m : M S A) (Q : A -> S -> Prop) (s : S) : Prop :=
  match m s with Ok a s' => Q a s' | Panic _ | Fault _ => True | Swtch _ | Spin => False end.

Section Ends.
Context {S : Type}.

Lemma ends_ret {A} (a : A) (Q : A -> S -> Prop) s : Q a s -> ends (ret a) Q s.
Proof. done. Qed.

Lemma ends_bind {A B} (m : M S A) (f : A -> M S B) (Q : B -> S -> Prop) s :
  ends m (fun a s' => ends (f a) Q s') s -> ends (bind m f) Q s.
Proof. unfold ends, bind. by destruct (m s). Qed.

Lemma ends_mono {A} (m : M S A) (P Q : A -> S -> Prop) s :
  ends m P s -> (forall a s', P a s' -> Q a s') -> ends m Q s.
Proof. unfold ends. destruct (m s); naive_solver. Qed.

End Ends.

(** A run that came to an end, in a result or in an error. *)
Definition finished {S A} (o : outcome S A) : bool :=
  match o with Ok _ _ | Panic _ | Fault _ => true | Swtch _ | Spin => false end.

(** ** Positions *)

Section Line.
Context (line : list Z) (Hline : Forall (fun c => c <> 0) line).

Notation len := (length line).

Lemma ch_end s : ch line s = 0 <-> (len <= s)%nat.
Proof.
  unfold ch. split.
  - intros E. destruct (line !! s) as [c|] eqn:Es; [|by apply lookup_ge_None]. simpl in E. subst c.
    rewrite Forall_lookup in Hline. by apply Hline in Es.
  - intros H. by rewrite lookup_ge_None_2.
Qed.

Lemma skip_while_spec p n : forall s,
  (s <= skip_while line p n s <= s + n)%nat /\
  (forall i, (s <= i < skip_while line p n s)%nat -> p (ch line i) = true) /\
  ((skip_while line p n s < s + n)%nat -> p (ch line (skip_while line p n s)) = false).
Proof.
  induction n as [|n IH]; intros s; cbn [skip_while].
  - split; [lia|]. split; intros; lia.
  - destruct (p (ch line s)) eqn:E.
    + destruct (IH (S s)) as (A & B & C). split; [lia|]. split; [|intros H; apply C; lia].
      intros i Hi. destruct (decide (i = s)) as [->|]; [done|]. apply B. lia.
    + split; [lia|]. split; [intros; lia|done].
Qed.

Lemma skip_spec p s : (s <= len)%nat ->
  (s <= skip line p s <= len)%nat /\ (forall i, (s <= i < skip line p s)%nat -> p (ch line i) = true) /\
  ((skip line p s < len)%nat -> p (ch line (skip line p s)) = false).
Proof.
  intros Hs. unfold skip. destruct (skip_while_spec p (len - s) s) as (A & B & C).
  split; [lia|]. split; [done|]. intros H. apply C. lia.
Qed.

(** A pointer past the blanks. *)
Definition at_token (s : nat) : Prop := (s <= len)%nat /\ ((s < len)%nat -> is_space (ch line s) = false).

Lemma skip_at_token s : (s <= len)%nat -> at_token (skip line is_space s) /\ (s <= skip line is_space s)%nat.
Proof. intros Hs. destruct (skip_spec is_space s Hs) as (A & _ & C). split; [split|]; [lia|done|lia]. Qed.

Lemma symbols_cases c : c <> 0 -> is_space c = false -> bool_decide (c ∈ [124; 40; 41; 59; 38; 60]) = false -> c <> 62 -> is_word c = true.
Proof.
  intros H0 Hs Hb H62. unfold is_word, is_space in *. rewrite Hs. cbn. unfold strchr.
  rewrite (proj2 (Z.eqb_neq _ _) H0). apply bool_decide_eq_false in Hb. cbn. rewrite bool_decide_eq_false_2; [done|].
  unfold SYMBOLS. intros Hi. repeat (apply elem_of_cons in Hi as [->|Hi]; [try done; by apply Hb; apply (bool_decide_unpack _)|]).
  by apply elem_of_nil in Hi.
Qed.

Lemma token_at_spec s : at_token s ->
  let '(k, e) := token_at line s in
  (s <= e <= len)%nat /\ (k = 0 <-> s = len) /\ (k <> 0 -> (s < e)%nat) /\
  (k = 97 -> e = skip line is_word s /\ (s < len)%nat /\ is_word (ch line s) = true).
Proof.
  intros [Hs Hsp]. unfold token_at. destruct (Z.eqb_spec (ch line s) 0) as [E|E].
  { apply ch_end in E. assert (s = len) by lia. split; [lia|]. split; [done|]. by split. }
  assert (Hlt : (s < len)%nat) by (rewrite ch_end in E; lia). specialize (Hsp Hlt).
  destruct (bool_decide (ch line s ∈ _)) eqn:Eb.
  { split; [lia|]. split; [split; [done|lia]|]. split; [lia|]. intros E97. apply bool_decide_eq_true in Eb. rewrite E97 in Eb.
    exfalso. revert Eb. by apply (bool_decide_unpack (97 ∉ _)). }
  destruct (Z.eqb_spec (ch line s) 62) as [E62|E62].
  { destruct (Z.eqb_spec (ch line (S s)) 62) as [E2|E2].
    - assert (~ (len <= S s)%nat) by (rewrite <- ch_end; lia). split; [lia|]. split; [split; [done|lia]|]. split; [lia|done].
    - split; [lia|]. split; [split; [done|lia]|]. split; [lia|done]. }
  pose proof (symbols_cases _ E Hsp Eb E62) as Hw. destruct (skip_spec is_word s Hs) as (A & B & C).
  assert (s < skip line is_word s)%nat.
  { destruct (decide (skip line is_word s = s)) as [E'|]; [|lia]. rewrite E' in C. rewrite C in Hw by done. done. }
  split; [lia|]. split; [split; [done|lia]|]. split; [lia|]. done.
Qed.

(** A word of the line: all its characters are of words, and the next one is not. *)
Definition word_span (sp : span) : Prop :=
  (sp.1 < sp.2 <= len)%nat /\ (forall i, (sp.1 <= i < sp.2)%nat -> is_word (ch line i) = true) /\ is_word (ch line sp.2) = false.

(** ** Termination *)

Lemma get_token_ends st :
  (sh_pos st <= len)%nat ->
  ends (get_token line) (fun a st' => let '(k, (s, e)) := a in
    (sh_pos st <= s <= e)%nat /\ (e <= sh_pos st' <= len)%nat /\ (k <> 0 -> (s < e)%nat) /\
    (k = 97 -> word_span (s, e)) /\ sh_errors st' = sh_errors st) st.
Proof.
  intros Hp. unfold ends, get_token, get, set_pos, modify, ret, bind.
  destruct (skip_at_token (sh_pos st) Hp) as [Ha Hb]. set (s := skip line is_space (sh_pos st)) in *.
  pose proof (token_at_spec s Ha) as Ht. destruct (token_at line s) as [k e] eqn:E. destruct Ht as (A & B & C & D).
  destruct (skip_at_token e ltac:(lia)) as [[Hc Hd] Hb']. cbn [sh_pos sh_errors]. split; [lia|]. split; [lia|]. split; [done|].
  split; [|done]. intros ->. destruct (D eq_refl) as (-> & Hlt & Hw). destruct (skip_spec is_word s ltac:(lia)) as (A' & B' & C').
  unfold word_span. cbn [fst snd]. split; [lia|]. split; [done|]. destruct (decide (skip line is_word s = len)) as [->|]; [|apply C'; lia].
  by rewrite (proj2 (ch_end len)) by lia.
Qed.

Lemma peek_ends D st :
  (sh_pos st <= len)%nat ->
  ends (peek line D) (fun b st' => (sh_pos st <= sh_pos st')%nat /\ at_token (sh_pos st') /\
    b = negb (ch line (sh_pos st') =? 0) && strchr D (ch line (sh_pos st')) /\ sh_errors st' = sh_errors st) st.
Proof.
  intros Hp. unfold ends, peek, get, set_pos, modify, ret, bind.
  destruct (skip_at_token (sh_pos st) Hp) as [Ha Hb]. cbn. done.
Qed.

(** A step that only reports an error. *)
Lemma report_ends (b : bool) msg st :
  ends (if b then error msg else ret tt) (fun _ st' => sh_pos st' = sh_pos st /\ (sh_errors st' = [] -> b = false /\ sh_errors st = [])) st.
Proof. destruct b; cbn; [|done]. split; [done|]. by destruct (sh_errors st). Qed.

Lemma assert_ends (b : bool) st : ends (assert b) (fun _ st' => b = true /\ st' = st) st.
Proof. by destruct b. Qed.

(** Ending with the pointer not before where it was, and, when no error was reported,
    with words only, [have] being the spans there were. *)
Definition after {A} (st : sh) (have : list span) (sps : A -> list span) (a : A) (st' : sh) : Prop :=
  (sh_pos st <= sh_pos st' <= len)%nat /\
  (sh_errors st' = [] -> sh_errors st = [] /\ (Forall word_span have -> Forall word_span (sps a))).

Lemma spans_redrcmds c rs : spans (redrcmds c rs) = spans c ++ (r_file <$> rs).
Proof.
  unfold redrcmds. revert c. induction rs as [|r rs IH]; intros c; cbn; [by rewrite app_nil_r|].
  rewrite IH. cbn. by rewrite <- app_assoc.
Qed.

Ltac ends_step L := apply ends_bind; eapply ends_mono; [apply L|cbv beta].

Notation redr_spans := (fun rs : list redr => r_file <$> rs).

Lemma parse_redr_ends fuel : forall rs st,
  (sh_pos st <= len)%nat -> (len - sh_pos st < fuel)%nat ->
  ends (parse_redr line fuel rs) (after st (r_file <$> rs) redr_spans) st.
Proof.
  induction fuel as [|fuel IH]; intros rs st Hp Hf; [lia|]. cbn [parse_redr].
  ends_step peek_ends; [done|]. intros b st1 (H1 & [H1' _] & Hb & X1). destruct b; [|split; [cbn; lia|by rewrite X1]].
  ends_step get_token_ends; [lia|]. intros [k1 [s1 e1]] st2 (A2 & B2 & C2 & _ & X2).
  ends_step assert_ends. intros _ st3 [Hk ->].
  assert (k1 <> 0) by (intros ->; done). specialize (C2 ltac:(done)).
  ends_step get_token_ends; [lia|]. intros [k3 [s3 e3]] st3 (A3 & B3 & _ & W3 & X3).
  ends_step report_ends. intros _ st4 [E4 X4]. eapply ends_mono; [apply IH; rewrite E4; lia|].
  intros a st5 [E5 X5]. split; [lia|]. intros E. destruct (X5 E) as [E' F]. destruct (X4 E') as [Ek E''].
  split; [by rewrite <- X1, <- X2, <- X3|]. intros Hw. apply F. rewrite fmap_app, Forall_app. split; [done|].
  apply Forall_singleton. apply negb_false_iff, Z.eqb_eq in Ek. by repeat case_match; apply W3.
Qed.

Lemma exec_loop_ends fuel : forall args rs st,
  (sh_pos st <= len)%nat -> (len - sh_pos st < fuel)%nat ->
  ends (exec_loop line fuel args rs) (after st (args ++ (r_file <$> rs)) spans) st.
Proof.
  induction fuel as [|fuel IH]; intros args rs st Hp Hf; [lia|]. cbn [exec_loop].
  ends_step peek_ends; [done|]. intros b st1 (H1 & [H1' _] & _ & X1).
  destruct b; [split; [cbn; lia|cbn; by rewrite X1, spans_redrcmds]|].
  ends_step get_token_ends; [lia|]. intros [k2 [s2 e2]] st2 (A2 & B2 & C2 & W2 & X2).
  destruct (Z.eqb_spec k2 0) as [->|Hk]; [split; [cbn; lia|cbn; by rewrite X2, X1, spans_redrcmds]|]. specialize (C2 Hk).
  ends_step report_ends. intros _ st3 [E3 X3]. destruct (_ <=? _)%nat; [done|].
  ends_step (parse_redr_ends (turns line)); [rewrite E3; lia|unfold turns; lia|]. intros rs' st4 [H4 X4].
  eapply ends_mono; [apply IH; lia|]. intros a st5 [H5 X5]. split; [lia|]. intros E. destruct (X5 E) as [E5 F5].
  destruct (X4 E5) as [E4 F4]. destruct (X3 E4) as [Ek E2]. split; [by rewrite <- X1, <- X2|].
  apply negb_false_iff, Z.eqb_eq in Ek. rewrite Forall_app. intros [Ha Hr]. apply F5. rewrite !Forall_app, Forall_singleton. auto.
Qed.

Lemma back_loop_ends fuel : forall c st,
  (sh_pos st <= len)%nat -> (len - sh_pos st < fuel)%nat -> ends (back_loop line fuel c) (after st (spans c) spans) st.
Proof.
  induction fuel as [|fuel IH]; intros c st Hp Hf; [lia|]. cbn [back_loop].
  ends_step peek_ends; [done|]. intros b st1 (H1 & [H1' _] & _ & X1). destruct b; [|split; [cbn; lia|by rewrite X1]].
  ends_step get_token_ends; [lia|]. intros [k2 [s2 e2]] st2 (A2 & B2 & C2 & _ & X2).
  ends_step assert_ends. intros _ st3 [Hk ->]. apply Z.eqb_eq in Hk. specialize (C2 ltac:(lia)).
  eapply ends_mono; [apply IH; lia|]. intros a st5 [H5 X5]. split; [lia|]. by rewrite <- X1, <- X2.
Qed.

(** Binding two ends together. *)
Lemma after_nil {A} st (have : list span) (sps : A -> list span) a st' :
  after st [] sps a st' -> after st have sps a st'.
Proof. intros [H X]. split; [done|]. intros E. destruct (X E) as [E' F]. split; [done|]. intros _. by apply F. Qed.

Lemma parse_ends fuel :
  (forall st, (sh_pos st <= len)%nat -> (4 * (len - sh_pos st) + 4 <= fuel)%nat -> ends (parse_line line fuel) (after st [] spans) st) /\
  (forall st, (sh_pos st <= len)%nat -> (4 * (len - sh_pos st) + 3 <= fuel)%nat -> ends (parse_pipe line fuel) (after st [] spans) st) /\
  (forall st, (sh_pos st <= len)%nat -> (4 * (len - sh_pos st) + 2 <= fuel)%nat -> ends (parse_exec line fuel) (after st [] spans) st) /\
  (forall st, (sh_pos st <= len)%nat -> (4 * (len - sh_pos st) + 1 <= fuel)%nat -> ends (parse_subs line fuel) (after st [] spans) st).
Proof.
  induction fuel as [|fuel (IHl & IHp & IHe & IHs)]; [split; [|split; [|split]]; intros; lia|].
  split; [|split; [|split]]; intros st Hp Hf.
  - cbn [parse_line]. ends_step IHp; [lia|lia|]. intros c st1 [H1 X1].
    ends_step (back_loop_ends (turns line)); [lia|unfold turns; lia|]. intros c' st2 [H2 X2].
    ends_step peek_ends; [lia|]. intros b st3 (H3 & [H3' _] & _ & X3).
    destruct b; [|split; [cbn; lia|cbn; rewrite X3; naive_solver]].
    ends_step report_ends. intros _ st4 [E4 X4]. ends_step get_token_ends; [lia|]. intros [k5 [s5 e5]] st5 (A5 & B5 & C5 & _ & X5).
    ends_step assert_ends. intros _ st6 [Hk ->]. apply Z.eqb_eq in Hk. specialize (C5 ltac:(lia)).
    ends_step IHl; [lia|lia|]. intros r st7 [H7 X7]. split; [cbn; lia|]. cbn. rewrite X5, X3 in *. rewrite Forall_app. naive_solver.
  - cbn [parse_pipe]. ends_step IHe; [lia|lia|]. intros c st1 [H1 X1].
    ends_step peek_ends; [lia|]. intros b st3 (H3 & [H3' _] & _ & X3).
    destruct b; [|split; [cbn; lia|cbn; rewrite X3; naive_solver]].
    ends_step report_ends. intros _ st4 [E4 X4]. ends_step get_token_ends; [lia|]. intros [k5 [s5 e5]] st5 (A5 & B5 & C5 & _ & X5).
    ends_step assert_ends. intros _ st6 [Hk ->]. apply Z.eqb_eq in Hk. specialize (C5 ltac:(lia)).
    ends_step IHp; [lia|lia|]. intros r st7 [H7 X7]. split; [cbn; lia|]. cbn. rewrite X5, X3 in *. rewrite Forall_app. naive_solver.
  - cbn [parse_exec]. ends_step peek_ends; [lia|]. intros b st1 (H1 & [H1' _] & _ & X1). destruct b.
    + eapply ends_mono; [apply IHs; lia|]. intros a st2 [H2 X2]. split; [lia|]. by rewrite <- X1.
    + ends_step (parse_redr_ends (turns line)); [lia|unfold turns; lia|]. intros rs st2 [H2 X2].
      eapply ends_mono; [apply (exec_loop_ends (turns line)); [lia|unfold turns; lia]|]. intros a st3 [H3 X3].
      split; [lia|]. rewrite X1 in X2. cbn in *. naive_solver.
  - cbn [parse_subs]. ends_step peek_ends; [lia|]. intros b st1 (H1 & [H1' _] & _ & X1).
    ends_step report_ends. intros _ st2 [E2 X2]. ends_step get_token_ends; [lia|]. intros [k3 [s3 e3]] st3 (A3 & B3 & C3 & _ & X3).
    ends_step assert_ends. intros _ st4 [Hk ->]. apply Z.eqb_eq in Hk. specialize (C3 ltac:(lia)).
    ends_step IHl; [lia|lia|]. intros c st5 [H5 X5].
    ends_step peek_ends; [lia|]. intros b6 st6 (H6 & [H6' _] & _ & X6). ends_step report_ends. intros _ st7 [E7 X7].
    ends_step get_token_ends; [lia|]. intros [k8 [s8 e8]] st8 (A8 & B8 & _ & _ & X8). ends_step assert_ends. intros _ st9 [_ ->].
    ends_step (parse_redr_ends (turns line)); [lia|unfold turns; lia|]. intros rs st9 [H9 X9].
    split; [cbn; lia|]. cbn. rewrite spans_redrcmds, Forall_app. rewrite X8, X6, X3, X1 in *. cbn. naive_solver.
Qed.

Lemma parse_cmd_ends : ends (parse_cmd line) (fun c st => sh_errors st = [] -> Forall word_span (spans c)) (mk_sh 0 []).
Proof.
  unfold parse_cmd. destruct (parse_ends (parse_fuel line)) as (H & _).
  ends_step H; [cbn; lia|unfold parse_fuel; cbn; lia|]. intros c st1 [H1 X1].
  ends_step peek_ends; [lia|]. intros b st2 (_ & _ & _ & X2). unfold get, bind at 1. unfold ends, bind.
  destruct (negb _); cbn; [done|]. rewrite X2. naive_solver.
Qed.

End Line.

(** C24: The parser always ends: on every line it returns a command, or stops in [panic]
    (too many arguments), in a failed [assert] or in the [error] call of [parse_cmd] with
    an argument missing; never in an endless loop.  Nesting, lists, pipes and arguments
    are bounded by the characters of the line. *)
Theorem parse_terminates line : Forall (fun c => c <> 0) line -> finished (parse line) = true.
Proof. intros H. pose proof (parse_cmd_ends line H) as He. unfold ends in He. fold (parse line) in He. by destruct (parse line). Qed.

(** ** null_terminate *)

Lemma null_terminate_spans c : forall buf, null_terminate c buf = foldl end_span buf (spans c).
Proof.
  induction c as [argv|c IH file f m d|l IHl r IHr|l IHl r IHr|c IH|c IH]; intros buf; cbn; rewrite ?foldl_app; [done|..].
  - by rewrite IH.
  - by rewrite IHl, IHr.
  - by rewrite IHl, IHr.
  - done.
  - done.
Qed.

Lemma end_spans_lookup sps : forall buf i, (i < length buf)%nat ->
  foldl end_span buf sps !! i = if bool_decide (i ∈ snd <$> sps) then Some 0 else buf !! i.
Proof.
  induction sps as [|[s e] sps IH]; intros buf i Hi; cbn [foldl fmap list_fmap snd]; [done|].
  rewrite IH by (unfold end_span; by rewrite length_insert). unfold end_span. cbn [snd].
  destruct (decide (i ∈ snd <$> sps)) as [Hin|Hin].
  - rewrite !bool_decide_eq_true_2; [done|by right|done].
  - rewrite (bool_decide_eq_false_2 (i ∈ snd <$> sps)) by done. destruct (decide (i = e)) as [->|Hne].
    + rewrite bool_decide_eq_true_2 by (by left). by rewrite list_lookup_insert_eq.
    + rewrite bool_decide_eq_false_2 by (rewrite elem_of_cons; tauto). by rewrite list_lookup_insert_ne.
Qed.

Lemma upto_nul_spec n : forall l,
  (forall j, (j < n)%nat -> exists x, l !! j = Some x /\ x <> 0) -> l !! n = Some 0 -> upto_nul l = take n l.
Proof.
  induction n as [|n IH]; intros l Hl H0.
  - destruct l as [|c l]; [done|]. injection H0 as ->. done.
  - destruct (Hl 0%nat ltac:(lia)) as (x & Hx & Hne). destruct l as [|c l]; [done|]. injection Hx as ->.
    cbn [upto_nul take]. rewrite (proj2 (Z.eqb_neq _ _) Hne). f_equal. apply IH; [|done].
    intros j Hj. apply (Hl (S j)). lia.
Qed.

(** The characters of a span. *)
Definition text (line : list Z) (sp : span) : list Z := take (sp.2 - sp.1) (drop sp.1 line).

Lemma null_terminate_text line sps sp :
  Forall (fun c => c <> 0) line -> Forall (word_span line) sps -> word_span line sp -> sp.2 ∈ snd <$> sps ->
  cstring (foldl end_span (line ++ [0]) sps) sp.1 = text line sp.
Proof.
  intros Hl Hs ((Hlt & Hle) & Hw & He) Hin. destruct sp as [s e]. cbn [fst snd] in *. unfold cstring, text. cbn [fst snd].
  set (buf := foldl end_span (line ++ [0]) sps).
  assert (Hb : forall i, (i <= length line)%nat -> buf !! i = if bool_decide (i ∈ snd <$> sps) then Some 0 else (line ++ [0]) !! i).
  { intros i Hi. apply end_spans_lookup. rewrite length_app. cbn. lia. }
  assert (Hin' : forall i, (s <= i < e)%nat -> buf !! i = line !! i).
  { intros i Hi. rewrite Hb by lia. rewrite bool_decide_eq_false_2; [by rewrite lookup_app_l by lia|].
    intros [[s' e'] [-> Hx]]%list_elem_of_fmap. rewrite Forall_forall in Hs. destruct (Hs _ Hx) as (_ & _ & He').
    cbn in He', Hi. by rewrite Hw in He'. }
  rewrite (upto_nul_spec (e - s)).
  - apply list_eq. intros j. destruct (decide (j < e - s)%nat) as [Hj|Hj].
    + rewrite !lookup_take_lt, !lookup_drop by lia. apply Hin'. lia.
    + by rewrite !lookup_take_ge by lia.
  - intros j Hj. rewrite lookup_drop, Hin' by lia. destruct (lookup_lt_is_Some_2 line (s + j) ltac:(lia)) as [x Hx].
    exists x. split; [done|]. rewrite Forall_lookup in Hl. by apply (Hl (s + j)%nat).
  - rewrite lookup_drop, Hb by lia. replace (s + (e - s))%nat with e by lia. by rewrite bool_decide_eq_true_2.
Qed.

Lemma words_of line c st : Forall (fun c => c <> 0) line -> parse line = Ok c st -> sh_errors st = [] ->
  Forall (fun sp => cstring (null_terminate c (line ++ [0])) sp.1 = text line sp /\ text line sp <> []) (spans c).
Proof.
  intros Hl E Hn. pose proof (parse_cmd_ends line Hl) as He. unfold ends in He. fold (parse line) in He. rewrite E in He.
  specialize (He Hn). apply Forall_forall. intros sp Hsp. rewrite null_terminate_spans. pose proof He as He'.
  rewrite Forall_forall in He'. split.
  - apply null_terminate_text; [done|done|by apply He'|]. apply list_elem_of_fmap. by exists sp.
  - destruct (He' sp Hsp) as ((Hlt & Hle) & _). unfold text. intros E0. apply (f_equal length) in E0.
    rewrite length_take, length_drop in E0. cbn in E0. lia.
Qed.

Lemma words_read line c st : Forall (fun c => c <> 0) line -> parse line = Ok c st -> sh_errors st = [] ->
  Forall (fun sp => cstring (null_terminate c (line ++ [0])) sp.1 = text line sp) (spans c).
Proof. intros H E He. eapply Forall_impl; [by eapply words_of|]. by intros sp [? _]. Qed.

(** The strings that [run_cmd] passes on are the words of the line: when the parser
    reported no error, after [null_terminate] every argument and every file name read as
    a C string is exactly the characters of its word; no NUL falls inside another word. *)
Theorem null_terminate_strings line c st :
  Forall (fun c => c <> 0) line -> parse line = Ok c st -> sh_errors st = [] ->
  Forall (fun sp => cstring (null_terminate c (line ++ [0])) sp.1 = text line sp /\ text line sp <> []) (spans c).
Proof. apply words_of. Qed.

Lemma null_terminate_strings_witness :
  let line := chars "cat <in|wc -l" in
  exists c st, parse line = Ok c st /\ spans c = [(0, 3); (5, 7); (8, 10); (11, 13)]%nat /\
    cstring (null_terminate c (line ++ [0])) 8 = chars "wc".
Proof.
  intros line. pose proof (null_terminate_strings line) as H. destruct (parse line) as [c st| | | |] eqn:E; try (vm_compute in E; discriminate E).
  assert (E' := E). vm_compute in E'. injection E' as <- <-. eexists _, _. split; [reflexivity|]. split; [reflexivity|].
  assert (Hl : Forall (fun c => c <> 0) line) by (apply (bool_decide_unpack _); reflexivity).
  specialize (H _ _ Hl eq_refl eq_refl). apply Forall_cons in H as [_ H]. apply Forall_cons in H as [_ H].
  apply Forall_cons in H as [H _]. exact (proj1 H).
Defined.

Lemma parse_terminates_witness : finished (parse (chars "((((a|b;c&)))")) = true.
Proof. apply parse_terminates. apply (bool_decide_unpack _). reflexivity. Defined.
