(* ===== verification/Shround.v ===== *)
(** * Shround: writing a command out and parsing it back (simplesh.c)

    [scmd] is the syntax of a command with its words; [show] writes it out with a space
    between words and symbols.  The theorem says that [parse] reads [show c] back as [c],
    for every command the grammar of simplesh has, with the flags, mode and descriptor of
    each redirection those of its symbol. *)

From S2P Require Import Prelude Simplesh Shparse.

(** ** Syntax *)

Inductive rkind : Type := R_in | R_out | R_append.

Inductive scmd : Type :=
| S_exec (args : list (list Z))
| S_redr (c : scmd) (k : rkind) (file : list Z)
| S_pipe (l r : scmd)
| S_list (l r : scmd)
| S_back (c : scmd)
| S_subs (c : scmd).

Definition rtok (k : rkind) : list Z := match k with R_in => [60] | R_out => [62] | R_append => [62; 62] end.

Fixpoint toks (c : scmd) : list (list Z) :=
  match c with
  | S_exec args => args
  | S_redr c k file => toks c ++ [rtok k; file]
  | S_pipe l r => toks l ++ [124] :: toks r
  | S_list l r => toks l ++ [59] :: toks r
  | S_back c => toks c ++ [[38]]
  | S_subs c => [40] :: toks c ++ [[41]]
  end.

Fixpoint join (ts : list (list Z)) : list Z :=
  match ts with
  | [] => []
  | t :: ts' => match ts' with [] => t | _ :: _ => t ++ 32 :: join ts' end
  end.

Definition show (c : scmd) : list Z := join (toks c).

(** The grammar: what [parse_exec], [parse_pipe] and [parse_line] accept, and a pipeline
    with [&]s after it. *)
Inductive level : Type := Lexec | Lpipe | Lback | Lline.

Definition word (t : list Z) : Prop := t <> [] /\ Forall (fun c => is_word c = true) t.

Fixpoint grammar (lv : level) (c : scmd) : Prop :=
  match c with
  | S_exec args => Forall word args /\ (length args < MAX_ARGS)%nat
  | S_redr c _ file => grammar Lexec c /\ word file
  | S_subs c => grammar Lline c
  | S_pipe l r => lv <> Lexec /\ grammar Lexec l /\ grammar Lpipe r /\ l <> S_exec []
  | S_back c => (lv = Lback \/ lv = Lline) /\ grammar Lback c
  | S_list l r => lv = Lline /\ grammar Lback l /\ grammar Lline r /\ l <> S_exec []
  end.

(** The command that a parsed one is, with its words from the line. *)
Definition kind_of (flags : Z) : rkind :=
  if flags =? O_RDONLY then R_in else if flags =? Z.lor O_RDWR (Z.lor O_CREAT O_TRUNC) then R_out else R_append.

Fixpoint denote (line : list Z) (c : cmd) : scmd :=
  match c with
  | EXEC argv => S_exec (text line <$> argv)
  | REDR c file flags _ _ => S_redr (denote line c) (kind_of flags) (text line file)
  | PIPE l r => S_pipe (denote line l) (denote line r)
  | LIST l r => S_list (denote line l) (denote line r)
  | BACK c => S_back (denote line c)
  | SUBS c => S_subs (denote line c)
  end.

(** ** Tokens *)

Definition symbols : list (list Z) := [[124]; [40]; [41]; [59]; [38]; [60]; [62]; [62; 62]].
Definition valid (t : list Z) : Prop := t ∈ symbols \/ word t.

Definition tkind (t : list Z) : Z :=
  if bool_decide (t = [62; 62]) then 43 else if bool_decide (t ∈ symbols) then default 0 (t !! 0%nat) else 97.

Section Tokens.
Context (line : list Z) (Hline : Forall (fun c => c <> 0) line).

Notation len := (length line).

Lemma skip_eq p s e :
  (s <= e <= len)%nat -> (forall i, (s <= i < e)%nat -> p (ch line i) = true) -> ((e < len)%nat -> p (ch line e) = false) ->
  skip line p s = e.
Proof.
  intros Hse Hin Hout. destruct (skip_spec line p s ltac:(lia)) as (A & B & C).
  destruct (lt_eq_lt_dec (skip line p s) e) as [[H|H]|H]; [|done|].
  - rewrite Hin in C by lia. discriminate C. lia.
  - rewrite B in Hout by lia. discriminate Hout. lia.
Qed.

(** The line after the pointer is the tokens [ts]. *)
Definition rest (st : sh) (ts : list (list Z)) : Prop :=
  (sh_pos st <= len)%nat /\ drop (skip line is_space (sh_pos st)) line = join ts.

Lemma skip_idem s : at_token line s -> skip line is_space s = s.
Proof. intros [Hs Hsp]. apply skip_eq; [lia|intros; lia|done]. Qed.

Lemma ch_drop s l i : drop s line = l -> ch line (s + i) = default 0 (l !! i).
Proof. intros <-. unfold ch. by rewrite lookup_drop. Qed.

Lemma valid_first t c l : valid t -> t = c :: l -> is_space c = false /\ c <> 0.
Proof.
  intros [Ht|[_ Ht]] E.
  - unfold symbols in Ht. repeat (apply elem_of_cons in Ht as [->|Ht]; [injection E as <- <-; done|]). by apply elem_of_nil in Ht.
  - rewrite E in Ht. apply Forall_cons in Ht as [Hc _]. unfold is_word, is_space in *. apply andb_true_iff in Hc as [Hc _].
    apply negb_true_iff in Hc. split; [done|]. intros ->. done.
Qed.

Lemma valid_cons t : valid t -> exists c l, t = c :: l.
Proof.
  intros [Ht|[Ht _]]; [|by destruct t; [|eexists _, _]].
  unfold symbols in Ht. repeat (apply elem_of_cons in Ht as [->|Ht]; [by eexists _, _|]). by apply elem_of_nil in Ht.
Qed.

Lemma join_cons t ts : join (t :: ts) = t ++ match ts with [] => [] | _ :: _ => 32 :: join ts end.
Proof. destruct ts; cbn; [by rewrite app_nil_r|done]. Qed.

Lemma peek_rest D st ts :
  Forall valid ts -> rest st ts ->
  exists st', peek line D st = Ok (match ts with t :: _ => bool_decide (default 0 (t !! 0%nat) ∈ D) | [] => false end) st' /\
    rest st' ts /\ sh_errors st' = sh_errors st.
Proof.
  intros Hv [Hp Hr]. unfold peek, get, set_pos, modify, ret, bind. set (s := skip line is_space (sh_pos st)) in *.
  destruct (skip_at_token line (sh_pos st) Hp) as [Ha _]. fold s in Ha.
  exists (mk_sh s (sh_errors st)). split; [|split; [split; [apply Ha|cbn; by rewrite skip_idem]|done]]. f_equal.
  pose proof (ch_drop s _ 0 Hr) as E. rewrite Nat.add_0_r in E. rewrite E. destruct ts as [|t ts]; [done|].
  apply Forall_cons in Hv as [Hv _]. destruct (valid_cons t Hv) as (c & l & ->). rewrite join_cons. cbn.
  destruct (valid_first _ c l Hv eq_refl) as [_ Hc]. unfold strchr. by rewrite (proj2 (Z.eqb_neq _ _) Hc).
Qed.

Lemma word_not_symbol t : word t -> t ∉ symbols.
Proof.
  intros [Hne Hw] Ht. unfold symbols in Ht.
  repeat (apply elem_of_cons in Ht as [->|Ht]; [apply Forall_cons in Hw as [Hw _]; discriminate Hw|]). by apply elem_of_nil in Ht.
Qed.

(** The token at a place where the line goes on with [t] and then a space or its end. *)
Lemma token_at_rest s t l :
  valid t -> drop s line = t ++ l -> (l = [] \/ exists l', l = 32 :: l') -> (s <= len)%nat ->
  token_at line s = (tkind t, (s + length t)%nat).
Proof.
  intros Hv Hd Hl Hs. pose proof (ch_drop s _ 0 Hd) as E0. pose proof (ch_drop s _ 1 Hd) as E1.
  rewrite Nat.add_0_r in E0. replace (s + 1)%nat with (S s) in E1 by lia. unfold token_at. destruct Hv as [Hv|Hw].
  - rewrite E0. unfold symbols in Hv.
    repeat (apply elem_of_cons in Hv as [->|Hv]; [cbn -[Nat.add bool_decide] in *; try (f_equal; lia)|]); [..|by apply elem_of_nil in Hv].
    + rewrite E1. destruct Hl as [->|[l' ->]]; cbn; f_equal; lia.
    + rewrite E1. cbn. f_equal. lia.
  - pose proof Hw as [Hne Hall]. destruct t as [|c t]; [done|]. cbn in E0. rewrite E0.
    destruct (valid_first (c :: t) c t (or_intror Hw) eq_refl) as [Hsp Hz]. rewrite (proj2 (Z.eqb_neq _ _) Hz).
    pose proof Hall as Hall'. apply Forall_cons in Hall' as [Hc _].
    assert (Hsym : c ∉ SYMBOLS).
    { unfold is_word, strchr in Hc. apply andb_true_iff in Hc as [_ Hc]. apply negb_true_iff, orb_false_iff in Hc as [_ Hc].
      by apply bool_decide_eq_false in Hc. }
    unfold SYMBOLS in Hsym. rewrite !not_elem_of_cons in Hsym.
    rewrite bool_decide_eq_false_2 by (rewrite !elem_of_cons, elem_of_nil; tauto).
    rewrite (proj2 (Z.eqb_neq c 62)) by tauto. unfold tkind. rewrite bool_decide_eq_false_2.
    2: { intros E. apply (word_not_symbol _ Hw). rewrite E. by_decide. }
    rewrite bool_decide_eq_false_2 by (by apply word_not_symbol). f_equal.
    assert (Hlen : length (drop s line) = length ((c :: t) ++ l)) by (by rewrite Hd).
    rewrite length_drop, length_app in Hlen. apply skip_eq; [lia| |].
    + intros i Hi. replace i with (s + (i - s))%nat by lia. rewrite (ch_drop s _ (i - s) Hd), lookup_app_l by lia.
      destruct (lookup_lt_is_Some_2 (c :: t) (i - s) ltac:(lia)) as [x Hx]. rewrite Hx. rewrite Forall_lookup in Hall. by apply (Hall (i - s)%nat).
    + intros Hlt. rewrite (ch_drop s _ _ Hd), lookup_app_r, Nat.sub_diag by lia. by destruct Hl as [->|[l' ->]].
Qed.

Lemma get_token_rest st t ts :
  Forall valid (t :: ts) -> rest st (t :: ts) ->
  exists sp st', get_token line st = Ok (tkind t, sp) st' /\ rest st' ts /\ sh_errors st' = sh_errors st /\ text line sp = t.
Proof.
  intros Hv [Hp Hr]. apply Forall_cons in Hv as [Hv Hvs]. unfold get_token, get, set_pos, modify, ret, bind.
  set (s := skip line is_space (sh_pos st)) in *. destruct (skip_at_token line (sh_pos st) Hp) as [[Hs _] _]. fold s in Hs.
  rewrite join_cons in Hr. set (l := match ts with [] => [] | _ :: _ => 32 :: join ts end) in *.
  assert (Hl : l = [] \/ exists l', l = 32 :: l') by (unfold l; destruct ts; [by left|right; by eexists]).
  rewrite (token_at_rest s t l Hv Hr Hl Hs).
  assert (Hlen : (len - s = length t + length l)%nat) by (rewrite <- length_app, <- Hr, length_drop; done).
  assert (Hde : drop (s + length t) line = l) by (rewrite <- drop_drop, Hr; by rewrite drop_app_length).
  eexists _, _. split; [reflexivity|]. cbn [sh_pos sh_errors]. split; [|split; [done|]].
  - assert (E : drop (skip line is_space (s + length t)) line = join ts /\ at_token line (skip line is_space (s + length t))).
    { destruct (skip_at_token line (s + length t) ltac:(lia)) as [Ha _]. split; [|done]. unfold l in *. destruct ts as [|t' ts].
      - cbn in Hlen. rewrite (skip_eq is_space _ len); [by rewrite drop_all|lia|intros; lia|lia].
      - cbn in Hlen. apply Forall_cons in Hvs as [Hv' _]. destruct (valid_cons t' Hv') as (c & l' & ->).
        destruct (valid_first _ c l' Hv' eq_refl) as [Hsp _].
        pose proof (ch_drop _ _ 0 Hde) as E0. pose proof (ch_drop _ _ 1 Hde) as E1.
        rewrite (skip_eq is_space _ (s + length t + 1)); [by rewrite <- drop_drop, Hde|lia| |].
        + intros i Hi. replace i with (s + length t + 0)%nat by lia. by rewrite E0.
        + intros _. rewrite E1. rewrite join_cons. done. }
    destruct E as [E Ha]. split; cbn; [apply Ha|]. by rewrite skip_idem.
  - unfold text. cbn [fst snd]. replace (s + length t - s)%nat with (length t) by lia. rewrite Hr. by rewrite take_app_length.
Qed.

Lemma get_token_none st :
  rest st [] -> exists sp st', get_token line st = Ok (0, sp) st' /\ rest st' [] /\ sh_errors st' = sh_errors st.
Proof.
  intros [Hp Hr]. unfold get_token, get, set_pos, modify, ret, bind. destruct (skip_at_token line (sh_pos st) Hp) as [[Hs _] _].
  set (s := skip line is_space (sh_pos st)) in *. pose proof (ch_drop s _ 0 Hr) as E. rewrite Nat.add_0_r in E.
  unfold token_at. rewrite E. cbn. eexists _, _. split; [reflexivity|]. assert (s = len).
  { apply (f_equal length) in Hr. rewrite length_drop in Hr. cbn in Hr. lia. }
  split; [|done]. split; cbn; rewrite !(skip_eq is_space s len) by (lia || intros; lia); [lia|].
  rewrite (skip_eq is_space len len) by (lia || intros; lia). by rewrite drop_all.
Qed.

(** ** The parser on tokens *)

(** [m] returns with the line at [ts], no error reported, and a result of [Q]. *)
Definition gives {A} (m : M sh A) (st : sh) (ts : list (list Z)) (Q : A -> Prop) : Prop :=
  exists a st', m st = Ok a st' /\ rest st' ts /\ sh_errors st' = sh_errors st /\ Q a.

Lemma gives_ret {A} (a : A) st ts (Q : A -> Prop) : rest st ts -> Q a -> gives (ret a) st ts Q.
Proof. intros. by exists a, st. Qed.

Lemma gives_bind {A B} (m : M sh A) (f : A -> M sh B) st ts ts' (R : A -> Prop) (Q : B -> Prop) :
  gives m st ts R -> (forall a st', rest st' ts -> R a -> gives (f a) st' ts' Q) -> gives (bind m f) st ts' Q.
Proof.
  intros (a & st1 & E & Hr & He & Ha) Hf. destruct (Hf a st1 Hr Ha) as (b & st2 & E2 & Hr2 & He2 & Hb).
  exists b, st2. rewrite (bind_ok _ _ _ _ _ E). split; [done|]. split; [done|]. split; [by rewrite He2|done].
Qed.

Lemma gives_mono {A} (m : M sh A) st ts (P Q : A -> Prop) : gives m st ts P -> (forall a, P a -> Q a) -> gives m st ts Q.
Proof. intros (a & st' & E & Hr & He & Ha) H. exists a, st'. auto. Qed.

(** The first character of what is left. *)
Definition first (ts : list (list Z)) : Z := match ts with t :: _ => default 0 (t !! 0%nat) | [] => 0 end.

Lemma gives_peek D st ts : Forall valid ts -> rest st ts -> 0 ∉ D -> gives (peek line D) st ts (fun b => b = bool_decide (first ts ∈ D)).
Proof.
  intros Hv Hr HD. destruct (peek_rest D st ts Hv Hr) as (st' & E & Hr' & He). eexists _, st'. split; [exact E|].
  split; [done|]. split; [done|]. destruct ts; [|done]. by rewrite bool_decide_eq_false_2.
Qed.

Lemma gives_token st t ts :
  Forall valid (t :: ts) -> rest st (t :: ts) -> gives (get_token line) st ts (fun a => a.1 = tkind t /\ text line a.2 = t).
Proof. intros Hv Hr. destruct (get_token_rest st t ts Hv Hr) as (sp & st' & E & A & B & C). by exists (tkind t, sp), st'. Qed.

Definition rtoks (rks : list (rkind * list Z)) : list (list Z) := rks ≫= (fun x => [rtok x.1; x.2]).

Definition redr_is (r : redr) : rkind * list Z := (kind_of (r_flags r), text line (r_file r)).

Lemma rtok_valid k : valid (rtok k).
Proof. left. destruct k; by_decide. Qed.

Lemma rtoks_valid rks : Forall (fun x => word x.2) rks -> Forall valid (rtoks rks).
Proof.
  induction 1 as [|x l Hx Hl IHl]; [constructor|]. change (rtoks (x :: l)) with (rtok x.1 :: x.2 :: rtoks l).
  constructor; [apply rtok_valid|]. constructor; [by right|done].
Qed.

Lemma rtoks_count rks : (length rks <= length (rtoks rks))%nat.
Proof. induction rks as [|x l IH]; [done|]. change (rtoks (x :: l)) with (rtok x.1 :: x.2 :: rtoks l). cbn [length]. lia. Qed.

Lemma tkind_word t : word t -> tkind t = 97.
Proof.
  intros Hw. unfold tkind. rewrite bool_decide_eq_false_2.
  - by rewrite bool_decide_eq_false_2 by (by apply word_not_symbol).
  - intros ->. apply (word_not_symbol _ Hw). by_decide.
Qed.

Lemma tkind_rtok k : tkind (rtok k) = match k with R_in => 60 | R_out => 62 | R_append => 43 end.
Proof. by destruct k. Qed.

Lemma parse_redr_gives fuel : forall rks rs st ts,
  (length rks < fuel)%nat -> Forall (fun x => word x.2) rks -> Forall valid ts -> rest st (rtoks rks ++ ts) ->
  first ts ∉ [60; 62] ->
  gives (parse_redr line fuel rs) st ts (fun rs1 => exists rs', rs1 = rs ++ rs' /\ redr_is <$> rs' = rks).
Proof.
  induction fuel as [|fuel IH]; intros rks rs st ts Hf Hw Hv Hr Hts; [lia|]. cbn [parse_redr]. destruct rks as [|[k f] rks].
  - eapply gives_bind; [apply gives_peek; [exact Hv|exact Hr|by_decide]|]. cbv beta. intros b st1 Hr1 ->.
    rewrite bool_decide_eq_false_2 by done. apply gives_ret; [done|]. exists []. by rewrite app_nil_r.
  - apply Forall_cons in Hw as [Hwf Hw]. cbn in Hwf.
    assert (Hvt : Forall valid (rtoks rks ++ ts)) by (apply Forall_app; split; [by apply rtoks_valid|done]).
    change (rtoks ((k, f) :: rks) ++ ts) with (rtok k :: f :: (rtoks rks ++ ts)) in Hr.
    assert (Hva : Forall valid (rtok k :: f :: (rtoks rks ++ ts))) by (constructor; [apply rtok_valid|constructor; [by right|done]]).
    eapply gives_bind; [apply gives_peek; [exact Hva|exact Hr|by_decide]|]. cbv beta. intros b st1 Hr1 ->.
    rewrite bool_decide_eq_true_2 by (destruct k; by_decide).
    eapply gives_bind; [apply gives_token; [exact Hva|exact Hr1]|]. intros [d sp] st2 Hr2 [Hd _]. cbn in Hd.
    apply Forall_cons in Hva as [_ Hva].
    eapply gives_bind with (R := fun _ => True) (ts := f :: (rtoks rks ++ ts)).
    { exists tt, st2. split; [|done]. unfold assert. subst d. by destruct k. }
    intros _ st3 Hr3 _. eapply gives_bind; [apply gives_token; [exact Hva|exact Hr3]|]. intros [kf spf] st4 Hr4 [Hkf Htf]. cbn in Hkf, Htf.
    rewrite tkind_word in Hkf by done. subst kf. change (negb (97 =? 97)) with false. cbv iota.
    match goal with |- gives (bind _ (fun _ => parse_redr _ _ (rs ++ [?r]))) _ _ _ => set (r0 := r) in * end.
    destruct (IH rks (rs ++ [r0]) st4 ts ltac:(cbn in Hf; lia) Hw Hv Hr4 Hts) as (a & st5 & E5 & Hr5 & He5 & rs' & -> & Hrs').
    exists ((rs ++ [r0]) ++ rs'), st5. split; [exact E5|]. split; [done|]. split; [done|]. exists (r0 :: rs').
    split; [by rewrite <- app_assoc|]. cbn [fmap list_fmap]. rewrite Hrs'. f_equal. unfold redr_is, r0. subst d.
    rewrite tkind_rtok. destruct k; cbn -[text]; by rewrite Htf.
Qed.

(** What may follow a command. *)
Definition follow (D : list Z) (ts : list (list Z)) : Prop := ts = [] \/ exists c ts', ts = [c] :: ts' /\ c ∈ D.

Lemma follow_redr D ts : follow D ts -> D ⊆ [124; 41; 38; 59] -> first ts ∉ [60; 62].
Proof.
  intros [->|(c & ts' & -> & Hc)] HD; [by_decide|]. cbn. apply HD in Hc.
  rewrite !elem_of_cons, elem_of_nil in *. lia.
Qed.

Lemma follow_weaken D D' ts : follow D ts -> D ⊆ D' -> follow D' ts.
Proof. intros [->|(c & ts' & -> & Hc)] HD; [by left|]. right. exists c, ts'. split; [done|by apply HD]. Qed.

Lemma word_first t ts : word t -> first (t :: ts) ∉ [124; 41; 38; 59] /\ first (t :: ts) ∉ [60; 62] /\ first (t :: ts) <> 40.
Proof.
  intros [Hne Hw]. destruct t as [|c t]; [done|]. apply Forall_cons in Hw as [Hw _]. cbn.
  assert (Hs : c ∉ SYMBOLS).
  { unfold is_word, strchr in Hw. apply andb_true_iff in Hw as [_ Hw]. apply negb_true_iff, orb_false_iff in Hw as [_ Hw].
    by apply bool_decide_eq_false in Hw. }
  unfold SYMBOLS in Hs. rewrite !not_elem_of_cons in Hs. rewrite !elem_of_cons, elem_of_nil. naive_solver.
Qed.

Lemma valid_words ws : Forall word ws -> Forall valid ws.
Proof. intros H. eapply Forall_impl; [exact H|]. intros t Ht. by right. Qed.

Lemma exec_loop_gives fuel : forall ws rks args rs st ts,
  (length ws < fuel)%nat -> (length rks < turns line)%nat -> (length args + length ws < MAX_ARGS)%nat ->
  Forall word ws -> Forall (fun x => word x.2) rks -> Forall valid ts -> (ws = [] -> rks = []) ->
  follow [124; 41; 38; 59] ts -> rest st (ws ++ rtoks rks ++ ts) ->
  gives (exec_loop line fuel args rs) st ts (fun c => exists sps rs', c = redrcmds (EXEC (args ++ sps)) (rs ++ rs') /\
    text line <$> sps = ws /\ redr_is <$> rs' = rks).
Proof.
  induction fuel as [|fuel IH]; intros ws rks args rs st ts Hf Hk Hn Hw Hwk Hv Hnil Hts Hr; [lia|]. cbn [exec_loop].
  destruct ws as [|w ws].
  - rewrite (Hnil eq_refl) in *. cbn [rtoks app mbind list_bind] in Hr.
    eapply gives_bind; [apply gives_peek; [exact Hv|exact Hr|by_decide]|]. cbv beta. intros b st1 Hr1 ->.
    assert (Hres : exists sps rs', redrcmds (EXEC args) rs = redrcmds (EXEC (args ++ sps)) (rs ++ rs') /\
      text line <$> sps = [] /\ redr_is <$> rs' = []) by (exists [], []; by rewrite !app_nil_r).
    destruct Hts as [->|(c & ts' & -> & Hc)].
    + rewrite bool_decide_eq_false_2 by (by_decide).
      destruct (get_token_none st1 Hr1) as (sp & st2 & E2 & Hr2 & He2). exists (redrcmds (EXEC args) rs), st2.
      by rewrite (bind_ok _ _ _ _ _ E2).
    + rewrite bool_decide_eq_true_2 by done. by apply gives_ret.
  - apply Forall_cons in Hw as [Hww Hw]. destruct (word_first w (ws ++ rtoks rks ++ ts) Hww) as (F1 & _ & _).
    assert (Hva : Forall valid (ws ++ rtoks rks ++ ts)).
    { rewrite !Forall_app. split; [by apply valid_words|]. split; [by apply rtoks_valid|done]. }
    assert (Hva' : Forall valid ((w :: ws) ++ rtoks rks ++ ts)) by (constructor; [by right|done]).
    eapply gives_bind; [apply gives_peek; [exact Hva'|exact Hr|by_decide]|]. cbv beta. intros b st1 Hr1 ->.
    rewrite bool_decide_eq_false_2 by exact F1.
    eapply gives_bind; [apply gives_token; [exact Hva'|exact Hr1]|]. intros [k sp] st2 Hr2 [Hk2 Htx]. cbn [fst snd] in Hk2, Htx.
    rewrite tkind_word in Hk2 by done. subst k. change (97 =? 0) with false. change (negb (97 =? 97)) with false. cbv iota.
    assert (El : (MAX_ARGS <=? length (args ++ [sp]))%nat = false) by (apply Nat.leb_gt; rewrite length_app; cbn in *; lia).
    eapply gives_bind with (R := fun _ => True); [apply gives_ret; [exact Hr2|done]|]. intros _ st3 Hr3 _. rewrite El.
    destruct ws as [|w' ws'].
    + cbn [app] in Hr3. eapply gives_bind; [apply (parse_redr_gives (turns line)); [exact Hk|exact Hwk|exact Hv|exact Hr3|]|].
      { by apply (follow_redr [124; 41; 38; 59]). }
      cbv beta. intros rs1 st4 Hr4 (rs' & -> & Hrs').
      destruct (IH [] [] (args ++ [sp]) (rs ++ rs') st4 ts) as (c & st5 & E5 & Hr5 & He5 & sps & rs2 & -> & Hs & Hr2'); try done.
      { cbn in Hf. cbn. lia. } { cbn. lia. } { rewrite length_app. cbn in *. lia. }
      destruct sps; [|done]. destruct rs2; [|done]. eexists _, st5. split; [exact E5|]. split; [done|]. split; [done|].
      exists [sp], rs'. rewrite !app_nil_r. split; [done|]. split; [cbn; by rewrite Htx|done].
    + destruct (word_first w' (ws' ++ rtoks rks ++ ts)) as (_ & F2 & _); [by apply Forall_cons in Hw as [? _]|].
      eapply gives_bind; [apply (parse_redr_gives (turns line) []); [cbn; lia|constructor|exact Hva|exact Hr3|exact F2]|].
      cbv beta. intros rs1 st4 Hr4 (rs' & -> & Hrs'). destruct rs'; [|done]. rewrite app_nil_r.
      destruct (IH (w' :: ws') rks (args ++ [sp]) rs st4 ts) as (c & st5 & E5 & Hr5 & He5 & sps & rs2 & -> & Hs & Hr2'); try done.
      { cbn in Hf |- *. lia. } { rewrite length_app. cbn in *. lia. }
      eexists _, st5. split; [exact E5|]. split; [done|]. split; [done|].
      exists (sp :: sps), rs2. rewrite <- app_assoc. split; [done|]. split; [cbn [fmap list_fmap]; by rewrite Htx, <- Hs|done].
Qed.

Fixpoint backs (n : nat) (c : cmd) : cmd := match n with O => c | S n' => backs n' (BACK c) end.

Lemma back_loop_gives fuel : forall n c st ts,
  (n < fuel)%nat -> Forall valid ts -> follow [41; 59] ts -> rest st (replicate n [38] ++ ts) ->
  gives (back_loop line fuel c) st ts (fun c' => c' = backs n c).
Proof.
  induction fuel as [|fuel IH]; intros n c st ts Hf Hv Hts Hr; [lia|]. cbn [back_loop]. destruct n as [|n]; cbn [replicate app] in Hr.
  - eapply gives_bind; [apply gives_peek; [exact Hv|exact Hr|by_decide]|]. cbv beta. intros b st1 Hr1 ->.
    rewrite bool_decide_eq_false_2; [by apply gives_ret|]. destruct Hts as [->|(x & ts' & -> & Hx)]; cbn;
      rewrite ?elem_of_cons, ?elem_of_nil in *; lia.
  - assert (Hva : Forall valid ([38] :: replicate n [38] ++ ts)).
    { constructor; [left; by_decide|]. apply Forall_app. split; [|done]. apply Forall_replicate. left. by_decide. }
    eapply gives_bind; [apply gives_peek; [exact Hva|exact Hr|by_decide]|]. cbv beta. intros b st1 Hr1 ->.
    rewrite bool_decide_eq_true_2 by (by_decide).
    eapply gives_bind; [apply gives_token; [exact Hva|exact Hr1]|]. intros [k sp] st2 Hr2 [Hk _]. cbn [fst] in Hk.
    change (tkind [38]) with 38 in Hk. subst k. change (38 =? 38) with true. cbv [assert].
    eapply gives_bind with (R := fun _ => True); [apply gives_ret; [exact Hr2|done]|]. intros _ st3 Hr3 _.
    apply (IH n (BACK c)); [lia|done|done|done].
Qed.

(** ** Commands *)

Definition sredrs (c : scmd) (rks : list (rkind * list Z)) : scmd := foldl (fun c x => S_redr c x.1 x.2) c rks.

Lemma denote_redrcmds rs : forall c, denote line (redrcmds c rs) = sredrs (denote line c) (redr_is <$> rs).
Proof. unfold redrcmds, sredrs. induction rs as [|r rs IH]; intros c; cbn; [done|]. apply IH. Qed.

Fixpoint sbacks (n : nat) (c : scmd) : scmd := match n with O => c | S n' => sbacks n' (S_back c) end.

Lemma sbacks_succ n : forall c, sbacks (S n) c = S_back (sbacks n c).
Proof. induction n as [|n IH]; intros c; [done|]. cbn [sbacks] in *. by rewrite <- IH. Qed.

Lemma denote_backs n : forall c, denote line (backs n c) = sbacks n (denote line c).
Proof. induction n as [|n IH]; intros c; [done|]. cbn [backs sbacks]. by rewrite IH. Qed.

Fixpoint ssize (c : scmd) : nat :=
  match c with
  | S_exec _ => 1
  | S_redr c _ _ | S_back c | S_subs c => S (ssize c)
  | S_pipe l r | S_list l r => S (ssize l + ssize r)
  end.

Lemma toks_valid c : forall lv, grammar lv c -> Forall valid (toks c).
Proof.
  induction c as [args|c IH k f|l IHl r IHr|l IHl r IHr|c IH|c IH]; intros lv; cbn.
  - intros [H _]. by apply valid_words.
  - intros [H Hf]. apply Forall_app. split; [by eapply IH|]. constructor; [apply rtok_valid|]. constructor; [by right|constructor].
  - intros (_ & Hl & Hr & _). apply Forall_app. split; [by eapply IHl|]. constructor; [left; by_decide|by eapply IHr].
  - intros (_ & Hl & Hr & _). apply Forall_app. split; [by eapply IHl|]. constructor; [left; by_decide|by eapply IHr].
  - intros (_ & H). apply Forall_app. split; [by eapply IH|]. constructor; [left; by_decide|constructor].
  - intros H. constructor; [left; by_decide|]. apply Forall_app. split; [by eapply IH|].
    constructor; [left; by_decide|constructor].
Qed.

Lemma rtoks_app a b : rtoks (a ++ b) = rtoks a ++ rtoks b.
Proof. unfold rtoks. by rewrite bind_app. Qed.

(** A simple command is redirections around arguments or around parentheses. *)
Lemma unredr c : grammar Lexec c -> exists base rks, c = sredrs base rks /\ toks c = toks base ++ rtoks rks /\
  Forall (fun x => word x.2) rks /\
  ((exists args, base = S_exec args /\ Forall word args /\ (length args < MAX_ARGS)%nat) \/
   (exists c', base = S_subs c' /\ grammar Lline c' /\ (ssize c' < ssize c)%nat)).
Proof.
  induction c as [args|c IH k f|l _ r _|l _ r _|c _|c _]; cbn [grammar].
  - intros [Hw Hn]. exists (S_exec args), []. cbn. rewrite app_nil_r. split; [done|]. split; [done|]. split; [constructor|]. left. by exists args.
  - intros [Hc Hf]. destruct (IH Hc) as (base & rks & Ec & Et & Hw & Hb). exists base, (rks ++ [(k, f)]).
    split; [unfold sredrs in *; rewrite foldl_app; by rewrite <- Ec|]. split; [cbn; by rewrite Et, rtoks_app, <- app_assoc|].
    split; [apply Forall_app; split; [done|by constructor]|]. destruct Hb as [Hb|(c' & E & Hg & Hs)]; [by left|right].
    exists c'. split; [done|]. split; [done|]. cbn. lia.
  - naive_solver.
  - naive_solver.
  - naive_solver.
  - intros Hc. exists (S_subs c), []. rewrite app_nil_r. split; [done|]. split; [done|]. split; [constructor|]. right. exists c.
    split; [done|]. split; [done|]. cbn. lia.
Qed.

(** A background command is [&]s after a pipeline. *)
Lemma unback c : grammar Lback c -> exists p n, c = sbacks n p /\ toks c = toks p ++ replicate n [38] /\ grammar Lpipe p /\
  (ssize p <= ssize c)%nat /\ (c = S_exec [] <-> p = S_exec [] /\ n = 0%nat).
Proof.
  induction c as [args|c IH k f|l _ r _|l _ r _|c IH|c _]; cbn [grammar].
  1,2,3,6: intros H; eexists _, 0%nat; cbn [replicate sbacks]; rewrite app_nil_r; split; [reflexivity|]; split; [done|];
    split; [cbn; naive_solver|]; split; [lia|naive_solver].
  - naive_solver.
  - intros [_ Hc]. destruct (IH Hc) as (p & n & Ec & Et & Hg & Hs & _). exists p, (S n). rewrite sbacks_succ, <- Ec. split; [done|].
    split; [cbn [toks]; rewrite Et, <- app_assoc; f_equal; by rewrite <- replicate_cons_app|]. split; [done|]. split; [cbn; lia|naive_solver].
Qed.

Lemma rest_count st ts : Forall valid ts -> rest st ts -> (length ts <= len)%nat.
Proof.
  intros Hv [_ Hr]. transitivity (length (join ts)); [|rewrite <- Hr, length_drop; lia]. clear Hr.
  induction Hv as [|t ts Ht Hv IH]; [done|]. rewrite join_cons, length_app. destruct (valid_cons t Ht) as (c & l & ->).
  destruct ts; cbn in *; lia.
Qed.

(** A symbol that is peeked at, checked and read. *)
Lemma gives_symbol {B} x (k : M sh B) st ts ts' (Q : B -> Prop) :
  [x] ∈ symbols -> Forall valid ts -> rest st ([x] :: ts) ->
  (forall st', rest st' ts -> gives k st' ts' Q) ->
  gives (let! '(delimiter, _) := get_token line in assert (delimiter =? x) ;;; k) st ts' Q.
Proof.
  intros Hx Hv Hr Hk. eapply gives_bind; [apply gives_token; [constructor; [by left|exact Hv]|exact Hr]|].
  intros [d sp] st1 Hr1 [Hd _]. cbn [fst] in Hd. assert (d = x) as ->.
  { rewrite Hd. unfold symbols in Hx. repeat (apply elem_of_cons in Hx as [Hx|Hx]; [by simplify_eq|]). by apply elem_of_nil in Hx. }
  rewrite Z.eqb_refl. eapply gives_bind with (R := fun _ => True); [by apply gives_ret|]. intros _ st2 Hr2 _. by apply Hk.
Qed.

Lemma gives_skip {B} (b : bool) msg (k : M sh B) st ts ts' (Q : B -> Prop) :
  b = false -> rest st ts -> (forall st', rest st' ts -> gives k st' ts' Q) ->
  gives (bind (if b then error msg else ret tt) (fun _ => k)) st ts' Q.
Proof. intros -> Hr Hk. eapply gives_bind with (R := fun _ => True); [by apply gives_ret|]. intros _ st2 Hr2 _. by apply Hk. Qed.

Lemma gives_peek_bind {B} D (f : bool -> M sh B) st ts ts' (Q : B -> Prop) :
  Forall valid ts -> rest st ts -> 0 ∉ D ->
  (forall st', rest st' ts -> gives (f (bool_decide (first ts ∈ D))) st' ts' Q) -> gives (bind (peek line D) f) st ts' Q.
Proof. intros Hv Hr HD Hf. eapply gives_bind; [by apply gives_peek|]. cbv beta. intros b st1 Hr1 ->. by apply Hf. Qed.

(** [p] reads the command [c] back, with enough fuel and a token of [D] after it. *)
Definition reads (p : nat -> M sh cmd) (k : nat) (D : list Z) (c : scmd) : Prop :=
  forall fuel st ts, (4 * length (toks c) + k <= fuel)%nat -> Forall valid ts -> follow D ts -> rest st (toks c ++ ts) ->
    gives (p fuel) st ts (fun c' => denote line c' = c).

Notation reads_exec := (reads (parse_exec line) 2 [124; 41; 38; 59]).
Notation reads_pipe := (reads (parse_pipe line) 3 [41; 38; 59]).
Notation reads_line := (reads (parse_line line) 4 [41]).

Lemma follow_first D ts x : follow D ts -> x ∉ D -> x <> 0 -> first ts <> x.
Proof. intros [->|(c & ts' & -> & Hc)] Hx H0; cbn; [done|]. by intros ->. Qed.

Lemma not_in_single (x y : Z) : x <> y -> bool_decide (x ∈ [y]) = false.
Proof. intros. apply bool_decide_eq_false_2. by rewrite list_elem_of_singleton. Qed.

Lemma redr_first rks ts x : x ∉ [60; 62; 0] -> first ts <> x -> first (rtoks rks ++ ts) <> x.
Proof.
  intros Hx Ht. destruct rks as [|[[] f] rks]; [done|..]; cbn; intros E; apply Hx; rewrite <- E; by_decide.
Qed.

Lemma args_read args rks :
  Forall word args -> (length args < MAX_ARGS)%nat -> Forall (fun x => word x.2) rks ->
  forall fuel st ts, (0 < fuel)%nat -> Forall valid ts -> follow [124; 41; 38; 59] ts -> rest st (args ++ rtoks rks ++ ts) ->
    gives (parse_exec line fuel) st ts (fun c' => denote line c' = sredrs (S_exec args) rks).
Proof.
  intros Hw Hn Hk fuel st ts Hf Hv Hts Hr. destruct fuel as [|fuel]; [lia|]. cbn [parse_exec].
  assert (Hvr : Forall valid (rtoks rks ++ ts)) by (apply Forall_app; split; [by apply rtoks_valid|done]).
  assert (Hva : Forall valid (args ++ rtoks rks ++ ts)) by (apply Forall_app; split; [by apply valid_words|done]).
  pose proof (rest_count _ _ Hva Hr) as Hc. rewrite !length_app in Hc.
  assert (Hrl : (length rks <= length (rtoks rks))%nat) by (apply rtoks_count).
  eapply gives_peek_bind; [exact Hva|exact Hr|by_decide|]. intros st1 Hr1.
  rewrite not_in_single.
  2: { destruct args as [|w args]; cbn [app]; [|apply Forall_cons in Hw as [Hw _]; by apply word_first].
       apply redr_first; [by_decide|]. eapply follow_first; [exact Hts|by_decide|done]. }
  destruct args as [|w args].
  - eapply gives_bind; [apply (parse_redr_gives (turns line) rks); [unfold turns; lia|done|exact Hv|exact Hr1|]|].
    { eapply follow_redr; [exact Hts|done]. }
    cbv beta. intros rs st2 Hr2 (rs' & -> & Hrs). eapply gives_mono; [apply (exec_loop_gives (turns line) [] []); try done; unfold turns; cbn; lia|].
    cbv beta. intros c (sps & rs2 & -> & Hs & Hr2'). destruct sps; [|done]. destruct rs2; [|done].
    rewrite denote_redrcmds. cbn. by rewrite app_nil_r, Hrs.
  - eapply gives_bind; [apply (parse_redr_gives (turns line) []); [unfold turns; cbn; lia|constructor|exact Hva|exact Hr1|]|].
    { apply Forall_cons in Hw as [Hw _]. by apply word_first. }
    cbv beta. intros rs st2 Hr2 (rs' & -> & Hrs). destruct rs'; [|done].
    eapply gives_mono; [apply (exec_loop_gives (turns line) (w :: args) rks); try done; unfold turns; cbn in *; lia|].
    cbv beta. intros c (sps & rs2 & -> & Hs & Hr2'). rewrite denote_redrcmds. cbn [denote app]. by rewrite Hs, Hr2'.
Qed.

Lemma subs_read c rks :
  reads_line c -> grammar Lline c -> Forall (fun x => word x.2) rks ->
  forall fuel st ts, (4 * length (toks c) + 8 <= fuel)%nat -> Forall valid ts -> follow [124; 41; 38; 59] ts ->
    rest st (toks (S_subs c) ++ rtoks rks ++ ts) ->
    gives (parse_exec line fuel) st ts (fun c' => denote line c' = sredrs (S_subs c) rks).
Proof.
  intros Hc Hg Hk fuel st ts Hf Hv Hts Hr. destruct fuel as [|[|fuel]]; [lia|lia|]. cbn [toks app] in Hr. rewrite <- app_assoc in Hr.
  assert (Hvr : Forall valid (rtoks rks ++ ts)) by (apply Forall_app; split; [by apply rtoks_valid|done]).
  assert (Hv1 : Forall valid ([41] :: rtoks rks ++ ts)) by (constructor; [left; by_decide|done]).
  assert (Hv2 : Forall valid (toks c ++ [41] :: rtoks rks ++ ts)) by (apply Forall_app; split; [by eapply toks_valid|done]).
  assert (Hva : Forall valid ([40] :: toks c ++ [41] :: rtoks rks ++ ts)) by (constructor; [left; by_decide|done]).
  pose proof (rest_count _ _ Hva Hr) as Hn. cbn [length] in Hn. rewrite length_app in Hn. cbn [length] in Hn. rewrite length_app in Hn.
  pose proof (rtoks_count rks). change (parse_exec line (S (S fuel))) with
    (let! b := peek line [40] in if b : bool then parse_subs line (S fuel) else let! rs := parse_redr line (turns line) [] in exec_loop line (turns line) [] rs).
  eapply gives_peek_bind; [exact Hva|exact Hr|by_decide|]. intros st1 Hr1. cbn [first default lookup list_lookup].
  change (bool_decide (40 ∈ [40])) with true. cbv iota. cbn [parse_subs].
  eapply gives_peek_bind; [exact Hva|exact Hr1|by_decide|]. intros st2 Hr2.
  eapply gives_skip; [done|exact Hr2|]. intros st3 Hr3.
  eapply (gives_symbol 40); [by_decide|exact Hv2|exact Hr3|]. intros st4 Hr4.
  eapply gives_bind; [apply (Hc fuel st4 ([41] :: rtoks rks ++ ts)); [lia|exact Hv1| |exact Hr4]|].
  { right. exists 41, (rtoks rks ++ ts). split; [done|by_decide]. }
  cbv beta. intros c' st5 Hr5 <-.
  eapply gives_peek_bind; [exact Hv1|exact Hr5|by_decide|]. intros st6 Hr6.
  eapply gives_skip; [done|exact Hr6|]. intros st7 Hr7.
  eapply (gives_symbol 41); [by_decide|exact Hvr|exact Hr7|]. intros st8 Hr8.
  eapply gives_bind; [apply (parse_redr_gives (turns line) rks); [unfold turns; lia|done|exact Hv|exact Hr8|]|].
  { eapply follow_redr; [exact Hts|done]. }
  cbv beta. intros rs st9 Hr9 (rs' & -> & Hrs). apply gives_ret; [done|]. rewrite denote_redrcmds. cbn. by rewrite Hrs.
Qed.

Lemma no_command_denote c : denote line c <> S_exec [] -> no_command c = false.
Proof. destruct c as [[]|?????|? ?|? ?|?|?]; done. Qed.

Lemma pipe_read l r : reads_exec l -> reads_pipe r -> grammar Lpipe r -> l <> S_exec [] -> reads_pipe (S_pipe l r).
Proof.
  intros Hl Hr Hg Hne fuel st ts Hf Hv Hts Hrest. destruct fuel as [|fuel]; [lia|]. cbn [toks] in *.
  rewrite length_app in Hf. cbn [length] in Hf. rewrite <- app_assoc in Hrest. cbn [app] in Hrest. cbn [parse_pipe].
  assert (Hv1 : Forall valid (toks r ++ ts)) by (apply Forall_app; split; [by eapply toks_valid|done]).
  assert (Hv2 : Forall valid ([124] :: toks r ++ ts)) by (constructor; [left; by_decide|done]).
  eapply gives_bind; [apply (Hl fuel st ([124] :: toks r ++ ts)); [lia|exact Hv2| |exact Hrest]|].
  { right. exists 124, (toks r ++ ts). split; [done|by_decide]. }
  cbv beta. intros c' st1 Hr1 Hc'.
  eapply gives_peek_bind; [exact Hv2|exact Hr1|by_decide|]. intros st2 Hr2. cbn [first default lookup list_lookup].
  change (bool_decide (124 ∈ [124])) with true. cbv iota.
  eapply gives_skip; [apply no_command_denote; congruence|exact Hr2|]. intros st3 Hr3.
  eapply (gives_symbol 124); [by_decide|exact Hv1|exact Hr3|]. intros st4 Hr4.
  eapply gives_bind; [apply (Hr fuel st4 ts); [lia|exact Hv|exact Hts|exact Hr4]|].
  cbv beta. intros r' st5 Hr5 <-. apply gives_ret; [done|]. cbn. by rewrite Hc'.
Qed.

(** A pipeline that is only a simple command. *)
Lemma pipe_one c : reads_exec c -> reads_pipe c.
Proof.
  intros Hc fuel st ts Hf Hv Hts Hrest. destruct fuel as [|fuel]; [lia|]. cbn [parse_pipe].
  eapply gives_bind; [apply (Hc fuel st ts); [lia|exact Hv| |exact Hrest]|].
  { eapply follow_weaken; [exact Hts|]. intros x Hx. by right. }
  cbv beta. intros c' st1 Hr1 <-. eapply gives_peek_bind; [exact Hv|exact Hr1|by_decide|]. intros st2 Hr2.
  rewrite not_in_single; [by apply gives_ret|]. eapply follow_first; [exact Hts|by_decide|done].
Qed.

(** A pipeline with [&]s, up to a [;], a [)] or the end of the line. *)
Lemma backs_read p n c fuel st ts :
  reads_pipe p -> c = sbacks n p -> toks c = toks p ++ replicate n [38] ->
  (4 * length (toks c) + 3 <= fuel)%nat -> Forall valid (toks c ++ ts) -> follow [41; 59] ts -> rest st (toks c ++ ts) ->
  gives (let! c := parse_pipe line fuel in back_loop line (turns line) c) st ts (fun c' => denote line c' = c).
Proof.
  intros Hp Hc Ht Hf Hv Hts Hr. pose proof (rest_count _ _ Hv Hr) as Hn. rewrite Ht in *. rewrite <- app_assoc in Hr, Hv.
  apply Forall_app in Hv as [_ Hv]. rewrite !length_app, length_replicate in *.
  eapply gives_bind; [apply (Hp fuel st (replicate n [38] ++ ts)); [lia|exact Hv| |exact Hr]|].
  { destruct n as [|n]; cbn; [|right; exists 38, (replicate n [38] ++ ts); split; [done|by_decide]].
    eapply follow_weaken; [exact Hts|]. intros x Hx. rewrite !elem_of_cons in *. naive_solver. }
  cbv beta. intros c' st1 Hr1 Hc'. apply Forall_app in Hv as [_ Hv].
  eapply gives_mono; [apply (back_loop_gives (turns line) n c'); [unfold turns; lia|exact Hv|exact Hts|exact Hr1]|].
  cbv beta. intros a ->. by rewrite denote_backs, Hc', Hc.
Qed.

Lemma bind_assoc_gives {A B C} (m : M sh A) (f : A -> M sh B) (g : B -> M sh C) st ts (Q : C -> Prop) :
  gives (let! b := (let! a := m in f a) in g b) st ts Q -> gives (let! a := m in let! b := f a in g b) st ts Q.
Proof. intros (c & st' & E & H). exists c, st'. split; [|exact H]. rewrite <- E. unfold bind. by destruct (m st). Qed.

(** A line that is one command in the background or not. *)
Lemma line_one c : grammar Lback c -> (forall p, grammar Lpipe p -> (ssize p <= ssize c)%nat -> reads_pipe p) -> reads_line c.
Proof.
  intros Hg Hp fuel st ts Hf Hv Hts Hr. destruct fuel as [|fuel]; [lia|]. cbn [parse_line]. apply bind_assoc_gives.
  destruct (unback c Hg) as (p & n & Ec & Et & Hgp & Hs & _).
  eapply gives_bind; [apply (backs_read p n c fuel st ts); [by apply Hp|done|done|lia| | |exact Hr]|].
  { apply Forall_app. split; [by eapply toks_valid|done]. }
  { eapply follow_weaken; [exact Hts|]. intros x Hx. rewrite !elem_of_cons in *. naive_solver. }
  cbv beta. intros c' st1 Hr1 <-. eapply gives_peek_bind; [exact Hv|exact Hr1|by_decide|]. intros st2 Hr2.
  rewrite not_in_single; [by apply gives_ret|]. eapply follow_first; [exact Hts|by_decide|done].
Qed.

Lemma list_read l r :
  grammar Lback l -> (forall p, grammar Lpipe p -> (ssize p <= ssize l)%nat -> reads_pipe p) -> l <> S_exec [] ->
  reads_line r -> grammar Lline r -> reads_line (S_list l r).
Proof.
  intros Hg Hp Hne Hrd Hgr fuel st ts Hf Hv Hts Hr. destruct fuel as [|fuel]; [lia|]. cbn [parse_line]. apply bind_assoc_gives.
  cbn [toks] in *. rewrite length_app in Hf. cbn [length] in Hf. rewrite <- app_assoc in Hr. cbn [app] in Hr.
  assert (Hv1 : Forall valid (toks r ++ ts)) by (apply Forall_app; split; [by eapply toks_valid|done]).
  assert (Hv2 : Forall valid ([59] :: toks r ++ ts)) by (constructor; [left; by_decide|done]).
  destruct (unback l Hg) as (p & n & Ec & Et & Hgp & Hs & _).
  eapply gives_bind; [apply (backs_read p n l fuel st ([59] :: toks r ++ ts)); [by apply Hp|done|done|lia| | |exact Hr]|].
  { apply Forall_app. split; [by eapply toks_valid|done]. }
  { right. exists 59, (toks r ++ ts). split; [done|by_decide]. }
  cbv beta. intros c' st1 Hr1 Hc'. eapply gives_peek_bind; [exact Hv2|exact Hr1|by_decide|]. intros st2 Hr2.
  cbn [first default lookup list_lookup]. change (bool_decide (59 ∈ [59])) with true. cbv iota.
  eapply gives_skip; [apply no_command_denote; congruence|exact Hr2|]. intros st3 Hr3.
  eapply (gives_symbol 59); [by_decide|exact Hv1|exact Hr3|]. intros st4 Hr4.
  eapply gives_bind; [apply (Hrd fuel st4 ts); [lia|exact Hv|exact Hts|exact Hr4]|].
  cbv beta. intros r' st5 Hr5 <-. apply gives_ret; [done|]. cbn. by rewrite Hc'.
Qed.

Lemma simple_read c : grammar Lexec c -> (forall c', grammar Lline c' -> (ssize c' < ssize c)%nat -> reads_line c') -> reads_exec c.
Proof.
  intros Hg IH fuel st ts Hf Hv Hts Hr. destruct (unredr c Hg) as (base & rks & -> & Et & Hw & Hb). rewrite Et in *.
  rewrite <- app_assoc in Hr. destruct Hb as [(args & -> & Ha & Hn)|(c' & -> & Hgc & Hs)].
  - apply args_read; [done|done|done|lia|done|done|done].
  - apply subs_read; [by apply IH|done|done| |done|done|done]. cbn [toks] in Hf. rewrite !length_app in Hf. cbn [length] in Hf.
    rewrite length_app in Hf. cbn in Hf. lia.
Qed.

Lemma commands_read n : forall c, (ssize c <= n)%nat ->
  (grammar Lexec c -> reads_exec c) /\ (grammar Lpipe c -> reads_pipe c) /\ (grammar Lline c -> reads_line c).
Proof.
  induction n as [|n IH]; intros c Hc; [destruct c; cbn in Hc; lia|].
  assert (He : forall c, (ssize c <= S n)%nat -> grammar Lexec c -> reads_exec c).
  { intros c0 Hc0 Hg. apply simple_read; [done|]. intros c' Hg' Hs. apply IH; [lia|done]. }
  assert (Hp : forall c, (ssize c <= S n)%nat -> grammar Lpipe c -> reads_pipe c).
  { intros c0 Hc0 Hg. destruct c0; try (apply pipe_one, He; done); cbn in Hg, Hc0; [|naive_solver..].
    destruct Hg as (_ & Hl & Hr & Hne). apply pipe_read; [apply He; [lia|done]|apply IH; [lia|done]|done|done]. }
  split; [by apply He|]. split; [by apply Hp|]. intros Hg.
  destruct c as [args|c k f|l r|l r|c|c].
  1,2,3,5,6: apply line_one; [cbn in Hg |- *; naive_solver|intros p Hgp Hs; apply Hp; [lia|done]].
  cbn in Hg, Hc. destruct Hg as (_ & Hgl & Hgr & Hne).
  apply list_read; [done|intros p Hgp Hs; apply Hp; [lia|done]|done|apply IH; [lia|done]|done].
Qed.

(** At the end of the line [parse_cmd] finds nothing left. *)
Lemma parse_cmd_reads c :
  grammar Lline c -> rest (mk_sh 0 []) (toks c) ->
  exists c' st, parse_cmd line (mk_sh 0 []) = Ok c' st /\ sh_errors st = [] /\ denote line c' = c.
Proof.
  intros Hg Hr. pose proof (rest_count _ _ (toks_valid c _ Hg) Hr) as Hn. unfold parse_cmd.
  destruct (commands_read _ c (Nat.le_refl _)) as (_ & _ & Hread).
  destruct (Hread Hg (parse_fuel line) (mk_sh 0 []) []) as (c' & st1 & E1 & [Hp1 Hr1] & He1 & Hc').
  { unfold parse_fuel. lia. } { constructor. } { by left. } { by rewrite app_nil_r. }
  rewrite (bind_ok _ _ _ _ _ E1). exists c', (mk_sh (skip line is_space (sh_pos st1)) (sh_errors st1)). split; [|done].
  unfold peek, get, set_pos, modify, ret, bind. cbn [sh_pos]. apply (f_equal length) in Hr1. rewrite length_drop in Hr1. cbn in Hr1.
  destruct (skip_at_token line (sh_pos st1) Hp1) as [[Hs _] _]. by rewrite (proj2 (Nat.eqb_eq _ _)) by lia.
Qed.

End Tokens.

(** ** The redirections that the parser makes *)

Definition flags_of (k : rkind) : Z :=
  match k with R_in => O_RDONLY | R_out => Z.lor O_RDWR (Z.lor O_CREAT O_TRUNC) | R_append => Z.lor O_RDWR (Z.lor O_CREAT O_APPEND) end.
Definition mode_of (k : rkind) : Z := match k with R_in => 0 | _ => S_IRWXU end.
Definition fd_of (k : rkind) : nat := match k with R_in => 0 | _ => 1 end.

Lemma kind_of_flags k : kind_of (flags_of k) = k.
Proof. by destruct k. Qed.

Definition shaped_redr (r : redr) : Prop := exists k, r = mk_redr (r_file r) (flags_of k) (mode_of k) (Z.of_nat (fd_of k)).

(** Every redirection has the flags, the mode and the descriptor of its kind. *)
Fixpoint shaped (c : cmd) : Prop :=
  match c with
  | EXEC _ => True
  | REDR c file flags mode fd => shaped c /\ exists k, flags = flags_of k /\ mode = mode_of k /\ fd = Z.of_nat (fd_of k)
  | PIPE l r | LIST l r => shaped l /\ shaped r
  | BACK c | SUBS c => shaped c
  end.

Lemma shaped_redrcmds c rs : shaped c -> Forall shaped_redr rs -> shaped (redrcmds c rs).
Proof.
  unfold redrcmds. revert c. induction rs as [|r rs IH]; intros c Hc Hr; [done|]. apply Forall_cons in Hr as [[k Hk] Hr]. apply IH; [|done].
  rewrite Hk. cbn. split; [done|]. by exists k.
Qed.

(** What [m] returns is in [Q]. *)
Definition yields {S A} (m : M S A) (Q : A -> Prop) : Prop := forall st a st', m st = Ok a st' -> Q a.

Lemma yields_ret {S A} (a : A) (Q : A -> Prop) : Q a -> yields (S := S) (ret a) Q.
Proof. by intros H st a' st' [= <- <-]. Qed.

Lemma yields_bind {S A B} (m : M S A) (f : A -> M S B) (P : A -> Prop) (Q : B -> Prop) : yields m P -> (forall a, P a -> yields (f a) Q) -> yields (bind m f) Q.
Proof. intros Hm Hf st b st' (a & st1 & E1 & E2)%bind_ok_inv. eapply Hf; [|done]. by eapply Hm. Qed.

Lemma yields_skip {S A B} (m : M S A) (f : A -> M S B) (Q : B -> Prop) : (forall a, yields (f a) Q) -> yields (bind m f) Q.
Proof. intros Hf. apply (yields_bind m f (fun _ => True)); [done|]. auto. Qed.

Lemma yields_spin {S A} (Q : A -> Prop) : yields (S := S) spin Q.
Proof. by intros st a st' [=]. Qed.

Section Shapes.
Context (line : list Z).

Lemma parse_redr_shaped fuel : forall rs, Forall shaped_redr rs -> yields (parse_redr line fuel rs) (Forall shaped_redr).
Proof.
  induction fuel as [|fuel IH]; intros rs Hr; [apply yields_spin|]. cbn [parse_redr]. apply yields_skip. intros []; [|by apply yields_ret].
  apply yields_skip. intros [d sp]. apply yields_skip. intros _. apply yields_skip. intros [k file]. apply yields_skip. intros _. apply IH. apply Forall_app. split; [done|].
  apply Forall_singleton. destruct (d =? 60); [by exists R_in|]. destruct (d =? 62); [by exists R_out|by exists R_append].
Qed.

Lemma exec_loop_shaped fuel : forall args rs, Forall shaped_redr rs -> yields (exec_loop line fuel args rs) shaped.
Proof.
  induction fuel as [|fuel IH]; intros args rs Hr; [apply yields_spin|]. cbn [exec_loop]. apply yields_skip. intros []; [by apply yields_ret, shaped_redrcmds|].
  apply yields_skip. intros [tok arg]. destruct (tok =? 0); [by apply yields_ret, shaped_redrcmds|]. apply yields_skip. intros _. destruct (_ <=? _)%nat; [by intros st a st' [=]|].
  eapply yields_bind; [by apply parse_redr_shaped|]. intros rs' Hr'. by apply IH.
Qed.

Lemma back_loop_shaped fuel : forall c, shaped c -> yields (back_loop line fuel c) shaped.
Proof.
  induction fuel as [|fuel IH]; intros c Hc; [apply yields_spin|]. cbn [back_loop]. apply yields_skip. intros []; [|by apply yields_ret].
  apply yields_skip. intros [d sp]. apply yields_skip. intros _. by apply IH.
Qed.

Lemma parse_shaped fuel : yields (parse_line line fuel) shaped /\ yields (parse_pipe line fuel) shaped /\ yields (parse_exec line fuel) shaped /\ yields (parse_subs line fuel) shaped.
Proof.
  induction fuel as [|fuel (IHl & IHp & IHe & IHs)]; [by split; [|split; [|split]]; apply yields_spin|]. split; [|split; [|split]].
  - cbn [parse_line]. eapply yields_bind; [done|]. intros c Hc. eapply yields_bind; [by apply back_loop_shaped|]. intros c' Hc'. apply yields_skip. intros []; [|by apply yields_ret].
    apply yields_skip. intros _. apply yields_skip. intros [d sp]. apply yields_skip. intros _. eapply yields_bind; [done|]. intros r Hr. by apply yields_ret.
  - cbn [parse_pipe]. eapply yields_bind; [done|]. intros c Hc. apply yields_skip. intros []; [|by apply yields_ret].
    apply yields_skip. intros _. apply yields_skip. intros [d sp]. apply yields_skip. intros _. eapply yields_bind; [done|]. intros r Hr. by apply yields_ret.
  - cbn [parse_exec]. apply yields_skip. intros []; [done|]. eapply yields_bind; [by apply parse_redr_shaped|]. intros rs Hr. by apply exec_loop_shaped.
  - cbn [parse_subs]. apply yields_skip. intros b. apply yields_skip. intros _. apply yields_skip. intros [d sp]. apply yields_skip. intros _. eapply yields_bind; [done|]. intros c Hc.
    apply yields_skip. intros b'. apply yields_skip. intros _. apply yields_skip. intros [d' sp']. apply yields_skip. intros _.
    eapply yields_bind; [by apply parse_redr_shaped|]. intros rs Hr. by apply yields_ret, shaped_redrcmds.
Qed.

Lemma parsed_shaped c st : parse line = Ok c st -> shaped c.
Proof.
  intros E. unfold parse in E. revert E. assert (HY : yields (parse_cmd line) shaped); [|intros E; by eapply HY]. unfold parse_cmd.
  eapply yields_bind; [apply (parse_shaped (parse_fuel line))|]. intros c' Hc. do 3 (apply yields_skip; intros ?). by apply yields_ret.
Qed.

End Shapes.

(** ** Every command is read back *)

Lemma join_nonzero ts : Forall valid ts -> Forall (fun c => c <> 0) (join ts).
Proof.
  induction 1 as [|t ts Ht Hv IH]; [constructor|]. rewrite join_cons. apply Forall_app. split.
  - destruct Ht as [Ht|[_ Ht]].
    + unfold symbols in Ht. repeat (apply elem_of_cons in Ht as [->|Ht]; [by_decide|]). by apply elem_of_nil in Ht.
    + eapply Forall_impl; [exact Ht|]. intros c Hc ->. done.
  - destruct ts; [constructor|]. by constructor.
Qed.

Lemma parse_reads c :
  grammar Lline c ->
  exists c' st, parse (show c) = Ok c' st /\ sh_errors st = [] /\ denote (show c) c' = c.
Proof.
  intros Hg. pose proof (toks_valid c _ Hg) as Hv. pose proof (join_nonzero _ Hv) as Hz. fold (show c) in Hz.
  unfold parse. apply parse_cmd_reads; [done|]. split; [cbn; lia|]. cbn [sh_pos].
  rewrite skip_idem; [done|]. split; [lia|]. intros Hlt. unfold show in *. destruct (toks c) as [|t ts] eqn:E; [cbn in Hlt; lia|].
  apply Forall_cons in Hv as [Hv _]. destruct (valid_cons t Hv) as (x & l & ->). rewrite join_cons. cbn.
  by apply (valid_first _ x l Hv).
Qed.

(** C5: The parser reads back every command of the language: a command written out with a
    space between its words and symbols parses without an error, and what is parsed,
    with the characters of the line its arguments point at, is that command: the same
    arguments, redirections in the same order, the same nesting of pipes, lists,
    background and parentheses; and every redirection is made with the flags, the mode
    and the descriptor of its kind. *)
Theorem parse_show c :
  grammar Lline c ->
  exists c' st, parse (show c) = Ok c' st /\ sh_errors st = [] /\ denote (show c) c' = c /\ shaped c'.
Proof. intros Hg. destruct (parse_reads c Hg) as (c' & st & E & He & HD). exists c', st. pose proof (parsed_shaped _ _ _ E). done. Qed.

Lemma parse_show_witness :
  let c := S_list (S_back (S_pipe (S_redr (S_exec [chars "sort"; chars "-u"]) R_in (chars "in")) (S_exec [chars "wc"])))
                  (S_redr (S_subs (S_exec [chars "ls"])) R_append (chars "out")) in
  show c = chars "sort -u < in | wc & ; ( ls ) >> out" /\
  exists c' st, parse (show c) = Ok c' st /\ sh_errors st = [] /\ denote (show c) c' = c /\ shaped c'.
Proof.
  split; [reflexivity|]. apply parse_show.
  assert (Hw : forall s, bool_decide (s <> [] /\ Forall (fun c => is_word c = true) s) = true -> word s)
    by (intros s H; by apply bool_decide_eq_true in H).
  cbn -[chars]. repeat first [apply Hw; reflexivity|reflexivity|discriminate|by left|by right|progress cbn; lia|constructor].
Defined.
