(* ===== verification/Shrun.v ===== *)
(** * Shrun: running a command (run_cmd of simplesh.c)

    A process has its descriptors, whether SIGCHLD is blocked, the children it has not
    waited for, and its copy of the table of background jobs.  [fork] runs the child's
    branch to its end and then the parent's: what a process does to its own descriptors
    does not depend on the order in which the two run.  What is kept of the world is the
    commands that were executed, each with the descriptors it was executed with, and the
    numbers the next process and the next pipe get.

    The system is a parameter: which [fork]s, [pipe]s and [open]s succeed, and which
    children have ended by the time their parent's [fork] returns, so that their SIGCHLD
    arrives at once when it is not blocked.  Memory of the arguments is the buffer [buf]
    after [null_terminate]. *)

From S2P Require Import Prelude Simplesh.

(** ** Processes *)

(** What a descriptor refers to. *)
Inductive fobj : Type :=
| Std (n : nat)
| Opened (file : list Z) (flags mode : Z)
| Pipe_read (n : nat)
| Pipe_write (n : nat).

Record process : Type := mk_process {
  fds : gmap nat fobj; blocked : bool; children : list Z; jobs : procesos_background }.

Definition set_fds (v : gmap nat fobj) (p : process) := mk_process v (blocked p) (children p) (jobs p).
Definition set_blocked (v : bool) (p : process) := mk_process (fds p) v (children p) (jobs p).
Definition set_children (v : list Z) (p : process) := mk_process (fds p) (blocked p) v (jobs p).
Definition set_jobs (v : procesos_background) (p : process) := mk_process (fds p) (blocked p) (children p) v.

Inductive event : Type :=
| Execvp (argv : list (list Z)) (at_exec : gmap nat fobj)
| Interno (argv : list (list Z)) (at_call : gmap nat fobj)
| Escaped.

Record world : Type := mk_world { next_pid : Z; next_pipe : nat; events : list event }.

Definition emit (e : event) (w : world) : world := mk_world (next_pid w) (next_pipe w) (events w ++ [e]).

(** A process that goes on, one that ended, and one that loops for ever. *)
Inductive fate (A : Type) : Type := Goes (a : A) (p : process) | Ended | Loops.
Arguments Goes {A}.
Arguments Ended {A}.
Arguments Loops {A}.

Definition R (A : Type) : Type := process -> world -> fate A * world.

Definition rret {A} (a : A) : R A := fun p w => (Goes a p, w).
Definition rbind {A B} (m : R A) (f : A -> R B) : R B := fun p w =>
  match m p w with
  | (Goes a p', w') => f a p' w'
  | (Ended, w') => (Ended, w')
  | (Loops, w') => (Loops, w')
  end.
Definition exit_process {A} : R A := fun p w => (Ended, w).

Declare Scope shell_scope.
Notation "'do!' x ':=' m 'in' k" := (rbind m (fun x => k)) (at level 10, x name, m at level 100, k at level 200) : shell_scope.
Notation "m1 ;;! m2" := (rbind m1 (fun _ => m2)) (at level 199, right associativity) : shell_scope.
#[local] Open Scope shell_scope.

(** ** System calls *)

(** The lowest descriptor that is free, which [open], [dup] and [pipe] take. *)
Definition lowest_free (m : gmap nat fobj) : nat :=
  default (size m) (head (filter (fun i => m !! i = None) (seq 0 (S (size m))))).

Section System.
Context (fork_ok : Z -> bool) (pipe_ok : nat -> bool) (open_ok : list Z -> Z -> bool) (early : Z -> bool).

Definition install (o : fobj) : R nat := fun p w =>
  let fd := lowest_free (fds p) in (Goes fd (set_fds (<[fd := o]> (fds p)) p), w).

(** [TRY(close(fd))], [TRY(dup(fd))]: a failure ends the process. *)
Definition close (fd : nat) : R unit := fun p w =>
  match fds p !! fd with
  | Some _ => (Goes tt (set_fds (delete fd (fds p)) p), w)
  | None => (Ended, w)
  end.
Definition dup (fd : nat) : R nat := fun p w =>
  match fds p !! fd with
  | Some o => install o p w
  | None => (Ended, w)
  end.

(** [open] with the [perror] and [exit] of a failure. *)
Definition open_or_exit (file : list Z) (flags mode : Z) : R nat :=
  if open_ok file flags then install (Opened file flags mode) else exit_process.

(** [pipe(p)] with the [perror] and [exit] of a failure. *)
Definition pipe_or_exit : R (nat * nat) := fun p w =>
  let n := next_pipe w in
  let w' := mk_world (next_pid w) (S n) (events w) in
  if pipe_ok n
  then rbind (install (Pipe_read n)) (fun p0 => rbind (install (Pipe_write n)) (fun p1 => rret (p0, p1))) p w'
  else (Ended, w').

(** The handler of SIGCHLD: the children that have ended are waited for and leave the
    table of jobs. *)
Definition handle_sigchld (p : process) : process :=
  set_jobs (foldl delete_proceso_background (jobs p) (filter (fun pid => early pid = true) (children p)))
    (set_children (filter (fun pid => early pid = false) (children p)) p).

Definition sigprocmask (block : bool) : R unit := fun p w =>
  let p' := set_blocked block p in (Goes tt (if block then p' else handle_sigchld p'), w).

(** [fork_or_panic], with what both processes do after it.  A child that returns from
    what follows is a second shell. *)
Definition fork_or_panic {A} (k : Z -> R A) : R A := fun p w =>
  let pid := next_pid w in
  let w1 := mk_world (pid + 1) (next_pipe w) (events w) in
  if fork_ok pid then
    let parent w2 :=
      let p1 := set_children (pid :: children p) p in
      k pid (if negb (blocked p) && early pid then handle_sigchld p1 else p1) w2 in
    match k 0 (set_children [] p) w1 with
    | (Goes _ _, w2) => parent (emit Escaped w2)
    | (Ended, w2) => parent w2
    | (Loops, w2) => (Loops, w2)
    end
  else (Ended, w1).

(** [TRY(waitpid(pid, NULL, 0))] *)
Definition waitpid (pid : Z) : R unit := fun p w =>
  if bool_decide (pid ∈ children p)
  then (Goes tt (set_children (filter (fun x => x <> pid) (children p)) p), w)
  else (Ended, w).

(** ** run_cmd *)

Context (buf : list Z).

Definition strings (argv : list span) : list (list Z) := (fun sp => cstring buf sp.1) <$> argv.
Definition argv0 (argv : list span) : option (list Z) := head (strings argv).

(** [exec_cmd]: [execvp] does not return, or [panic] ends the process. *)
Definition exec_cmd (argv : list span) : R unit := fun p w =>
  match argv with
  | [] => (Ended, w)
  | _ :: _ => (Ended, emit (Execvp (strings argv) (fds p)) w)
  end.

(** [run_interno]: which internal command runs, and where; [exit] ends the process. *)
Definition run_interno (argv : list span) : R unit := fun p w =>
  let w' := emit (Interno (strings argv) (fds p)) w in
  if bool_decide (argv0 argv = Some (chars "exit")) then (Ended, w') else (Goes tt p, w').

(** [is_interno(((struct execcmd* ) cmd)->argv[0])].  In the other structures the place
    of [argv[0]] holds the pointer to a command, whose first byte is its type: a string
    of one character, which is no internal command. *)
Definition cmd_interno (c : cmd) : bool := match c with EXEC argv => is_interno (argv0 argv) | _ => false end.

Definition hd_or_src (argv : list span) : bool :=
  bool_decide (argv0 argv = Some (chars "hd")) || bool_decide (argv0 argv = Some (chars "src")).

(** The loop of [add_proceso_background] comes back to its first place after a round. *)
Definition add_job (pid : Z) : R unit := fun p w =>
  match add_proceso_background MAX_PROC_BACK (jobs p) pid with
  | Some b => (Goes tt (set_jobs b p), w)
  | None => (Loops, w)
  end.

(** What a child of a pipe or in the background does. *)
Definition exec_or_run (inner : cmd) (run : R unit) : R unit :=
  match inner with
  | EXEC argv => if is_interno (argv0 argv) then run_interno argv else exec_cmd argv
  | _ => run
  end.

Fixpoint run_cmd (c : cmd) : R unit :=
  match c with
  | EXEC argv =>
      sigprocmask true ;;!
      if is_interno (argv0 argv) then run_interno argv ;;! sigprocmask false
      else fork_or_panic (fun pid =>
        (if pid =? 0 then exec_cmd argv else rret tt) ;;! waitpid pid ;;! sigprocmask false)
  | REDR c' file flags mode fd =>
      let file := cstring buf file.1 in
      sigprocmask true ;;!
      match c', cmd_interno c' with
      | EXEC argv, true =>
          (if hd_or_src argv then close (Z.to_nat fd) else rret tt) ;;!
          open_or_exit file flags mode ;;! run_interno argv
      | _, _ =>
          fork_or_panic (fun pid =>
            (if pid =? 0 then
               close (Z.to_nat fd) ;;! open_or_exit file flags mode ;;!
               match c' with EXEC argv => exec_cmd argv | _ => run_cmd c' end ;;! exit_process
             else rret tt) ;;!
            waitpid pid ;;! sigprocmask false)
      end
  | LIST l r => run_cmd l ;;! run_cmd r
  | PIPE l r =>
      do! p := pipe_or_exit in
      sigprocmask true ;;!
      fork_or_panic (fun pid_I =>
        (if pid_I =? 0 then
           close 1 ;;! dup (snd p) ;;! close (fst p) ;;! close (snd p) ;;! exec_or_run l (run_cmd l) ;;! exit_process
         else rret tt) ;;!
        fork_or_panic (fun pid_D =>
          (if pid_D =? 0 then
             close 0 ;;! dup (fst p) ;;! close (fst p) ;;! close (snd p) ;;! exec_or_run r (run_cmd r) ;;! exit_process
           else rret tt) ;;!
          close (fst p) ;;! close (snd p) ;;! waitpid pid_I ;;! waitpid pid_D ;;! sigprocmask false))
  | BACK c' =>
      fork_or_panic (fun pid =>
        (if pid =? 0 then exec_or_run c' (run_cmd c') ;;! exit_process else rret tt) ;;! add_job pid)
  | SUBS c' =>
      fork_or_panic (fun pid => (if pid =? 0 then run_cmd c' ;;! exit_process else rret tt) ;;! waitpid pid)
  end.

End System.

(** ** The table of background jobs *)

Definition jobs_ok (b : procesos_background) : Prop := length (procesos b) = MAX_PROC_BACK /\ (posicion b < MAX_PROC_BACK)%nat.

Definition free_slots (b : procesos_background) : nat := length (filter (fun p => p = 0) (procesos b)).

Lemma add_job_at fuel : forall b pid d,
  jobs_ok b -> (d <= fuel)%nat -> procesos b !! ((posicion b + d) mod MAX_PROC_BACK)%nat = Some 0 ->
  exists b' i, add_proceso_background fuel b pid = Some b' /\ procesos b !! i = Some 0 /\
    procesos b' = <[i := pid]> (procesos b) /\ jobs_ok b'.
Proof.
  induction fuel as [|fuel IH]; intros b pid d [Hn Hp] Hd Hz; cbn [add_proceso_background].
  - assert (d = 0%nat) as -> by lia. rewrite Nat.add_0_r, Nat.mod_small in Hz by done. rewrite Hz. cbn.
    exists (mk_back (<[posicion b := pid]> (procesos b)) (posicion b)), (posicion b).
    split; [done|]. split; [done|]. split; [done|]. split; [cbn; by rewrite length_insert|done].
  - destruct (Z.eqb_spec (default 0 (procesos b !! posicion b)) 0) as [E|E].
    + exists (mk_back (<[posicion b := pid]> (procesos b)) (posicion b)), (posicion b). split; [done|].
      destruct (lookup_lt_is_Some_2 (procesos b) (posicion b) ltac:(lia)) as [x Hx]. rewrite Hx in *. cbn in E. subst x.
      split; [done|]. split; [done|]. split; [cbn; by rewrite length_insert|done].
    + destruct d as [|d]; [by rewrite Nat.add_0_r, Nat.mod_small, Hz in * by done|].
      apply (IH (mk_back (procesos b) ((posicion b + 1) mod MAX_PROC_BACK)) pid d); [|lia|].
      * split; [done|]. apply Nat.mod_upper_bound. done.
      * cbn [posicion procesos]. rewrite Nat.Div0.add_mod_idemp_l. by replace (posicion b + 1 + d)%nat with (posicion b + S d)%nat by lia.
Qed.

Lemma free_slot b : (0 < free_slots b)%nat -> exists i, procesos b !! i = Some 0.
Proof.
  unfold free_slots. intros H. destruct (filter (fun p => p = 0) (procesos b)) as [|x l] eqn:E; [cbn in H; lia|].
  assert (Hx : x ∈ filter (fun p => p = 0) (procesos b)) by (rewrite E; by left).
  apply list_elem_of_filter in Hx as [-> Hx]. by apply list_elem_of_lookup.
Qed.

Lemma filter_insert_count (l : list Z) : forall i pid, l !! i = Some 0 -> pid <> 0 ->
  length (filter (fun p => p = 0) l) = S (length (filter (fun p => p = 0) (<[i := pid]> l))).
Proof.
  induction l as [|x l IH]; intros i pid Hi Hne; [done|]. destruct i as [|i]; cbn in Hi.
  - change (<[0%nat := pid]> (x :: l)) with (pid :: l). injection Hi as ->. rewrite filter_cons_True, filter_cons_False by done. done.
  - change (<[S i := pid]> (x :: l)) with (x :: <[i := pid]> l). rewrite !filter_cons. case_decide; cbn [length]; by rewrite (IH i pid).
Qed.

(** With a free slot the loop of [add_proceso_background] finds one. *)
Lemma add_job_ok b pid :
  jobs_ok b -> (0 < free_slots b)%nat -> pid <> 0 ->
  exists b' i, add_proceso_background MAX_PROC_BACK b pid = Some b' /\ procesos b !! i = Some 0 /\
    procesos b' = <[i := pid]> (procesos b) /\ jobs_ok b' /\ free_slots b = S (free_slots b').
Proof.
  intros Hb Hf Hne. destruct (free_slot b Hf) as [i Hi]. pose proof (lookup_lt_Some _ _ _ Hi) as Hlt. destruct Hb as [Hn Hp].
  set (d := ((i + MAX_PROC_BACK - posicion b) mod MAX_PROC_BACK)%nat).
  assert (Hd : ((posicion b + d) mod MAX_PROC_BACK)%nat = i).
  { unfold d. rewrite Nat.Div0.add_mod_idemp_r. replace (posicion b + (i + MAX_PROC_BACK - posicion b))%nat with (i + 1 * MAX_PROC_BACK)%nat by lia.
    rewrite Nat.Div0.mod_add. apply Nat.mod_small. lia. }
  destruct (add_job_at MAX_PROC_BACK b pid d) as (b' & j & E & Hj & Eb & Hb'); [done| |by rewrite Hd|].
  { apply Nat.lt_le_incl, Nat.mod_upper_bound. done. }
  exists b', j. split; [done|]. split; [done|]. split; [done|]. split; [done|]. unfold free_slots. rewrite Eb. by apply filter_insert_count.
Qed.

Lemma add_job_full fuel : forall b pid, jobs_ok b -> free_slots b = 0%nat -> add_proceso_background fuel b pid = None.
Proof.
  induction fuel as [|fuel IH]; intros b pid [Hn Hp] Hf; cbn [add_proceso_background];
    (assert (E : default 0 (procesos b !! posicion b) =? 0 = false);
     [destruct (lookup_lt_is_Some_2 (procesos b) (posicion b) ltac:(lia)) as [x Hx]; rewrite Hx; cbn; apply Z.eqb_neq; intros ->;
      assert (Hi : 0 ∈ filter (fun p => p = 0) (procesos b)) by (apply list_elem_of_filter; split; [done|by eapply list_elem_of_lookup_2]);
      unfold free_slots in Hf; apply length_zero_iff_nil in Hf; rewrite Hf in Hi; by apply elem_of_nil in Hi|]); rewrite E; [done|].
  apply IH; [|done]. split; [done|]. apply Nat.mod_upper_bound. done.
Qed.

(** The table of background jobs holds the process ids of the jobs: while one of its
    eight slots is free, [add_proceso_background] ends within one round and puts the id
    in a free slot, touching no other; [delete_proceso_background] of that id gives the
    table from before back; and when no slot is free its loop never ends, for any
    number of turns. *)
Theorem background_table b pid :
  jobs_ok b -> pid <> 0 -> pid ∉ procesos b ->
  ((0 < free_slots b)%nat -> exists b', add_proceso_background MAX_PROC_BACK b pid = Some b' /\ jobs_ok b' /\
     pid ∈ procesos b' /\ procesos (delete_proceso_background b' pid) = procesos b) /\
  (free_slots b = 0%nat -> forall fuel, add_proceso_background fuel b pid = None).
Proof.
  intros Hb Hne Hin. split; [|intros Hf fuel; by apply add_job_full]. intros Hf.
  destruct (add_job_ok b pid Hb Hf Hne) as (b' & i & E & Hi & Eb & Hb' & _). exists b'. split; [done|]. split; [done|].
  pose proof (lookup_lt_Some _ _ _ Hi) as Hlt. rewrite Eb. split; [apply list_elem_of_lookup; exists i; by apply list_lookup_insert_eq|].
  cbn. rewrite Eb. rewrite list_fmap_insert, Z.eqb_refl. apply list_eq. intros j. destruct (decide (j = i)) as [->|Hj].
  - rewrite list_lookup_insert_eq by (by rewrite length_fmap). done.
  - rewrite list_lookup_insert_ne, list_lookup_fmap by done. destruct (procesos b !! j) as [x|] eqn:Ex; [|done]. cbn.
    destruct (Z.eqb_spec pid x) as [->|]; [|done]. destruct Hin. by eapply list_elem_of_lookup_2.
Qed.

Lemma background_table_witness :
  let b := mk_back [11; 12; 13; 14; 15; 16; 17; 0] 0 in
  exists b', add_proceso_background MAX_PROC_BACK b 20 = Some b' /\ jobs_ok b' /\ 20 ∈ procesos b' /\
    procesos (delete_proceso_background b' 20) = procesos b.
Proof. intros b. apply (background_table b 20); [split; [reflexivity|cbv; lia]|done|by_decide|cbv; lia]. Defined.

(** ** Descriptors *)

Lemma lowest_eq m i : m !! i = None -> (forall j, (j < i)%nat -> is_Some (m !! j)) -> lowest_free m = i.
Proof.
  intros Hi Hj. assert (Hle : (i <= size m)%nat).
  { rewrite <- (size_dom (D := gset nat)). rewrite <- (size_set_seq (C := gset nat) 0 i). apply subseteq_size. intros j Hin.
    apply elem_of_set_seq in Hin. apply elem_of_dom, Hj. lia. }
  unfold lowest_free. replace (S (size m)) with (i + S (size m - i))%nat by lia. rewrite seq_app, filter_app. cbn [seq Nat.add].
  assert (E : filter (fun i => m !! i = None) (seq 0 i) = []).
  { destruct (filter (fun i => m !! i = None) (seq 0 i)) as [|x l] eqn:E; [done|].
    assert (Hx : x ∈ filter (fun i => m !! i = None) (seq 0 i)) by (rewrite E; by left).
    apply list_elem_of_filter in Hx as [Hx Hs]. apply elem_of_seq in Hs. destruct (Hj x ltac:(lia)) as [y Hy]. congruence. }
  rewrite E. by rewrite filter_cons_True.
Qed.

Lemma lowest_free_spec m : m !! lowest_free m = None.
Proof.
  destruct (filter (fun i => m !! i = None) (seq 0 (S (size m)))) as [|x l] eqn:E; unfold lowest_free; rewrite E; cbn.
  - exfalso. assert (Hall : forall j, (j < S (size m))%nat -> is_Some (m !! j)).
    { intros j Hj. destruct (m !! j) eqn:Ej; [done|]. assert (Hx : j ∈ filter (fun i => m !! i = None) (seq 0 (S (size m)))).
      { apply list_elem_of_filter. split; [done|]. apply elem_of_seq. lia. } rewrite E in Hx. by apply elem_of_nil in Hx. }
    assert (Hsub : set_seq (C := gset nat) 0 (S (size m)) ⊆ dom m).
    { intros j Hin. apply elem_of_set_seq in Hin. apply elem_of_dom, Hall. lia. }
    apply subseteq_size in Hsub. rewrite size_set_seq, size_dom in Hsub. lia.
  - assert (Hx : x ∈ filter (fun i => m !! i = None) (seq 0 (S (size m)))) by (rewrite E; by left).
    by apply list_elem_of_filter in Hx as [Hx _].
Qed.

(** Standard input and output are open. *)
Definition std_open (m : gmap nat fobj) : Prop := is_Some (m !! 0%nat) /\ is_Some (m !! 1%nat).

Lemma lowest_not_std m : std_open m -> (2 <= lowest_free m)%nat.
Proof.
  intros [[x Hx] [y Hy]]. pose proof (lowest_free_spec m) as H. destruct (lowest_free m) as [|[|n]]; [congruence..|lia].
Qed.

(** Closing one of the two makes it the lowest that is free. *)
Lemma lowest_closed m k : std_open m -> (k < 2)%nat -> lowest_free (delete k m) = k.
Proof.
  intros [[x Hx] [y Hy]] Hk. apply lowest_eq; [apply lookup_delete_eq|]. intros j Hj. rewrite lookup_delete_ne by lia.
  assert (j = 0%nat) as -> by lia. by rewrite Hx.
Qed.

Lemma std_open_insert m k o : std_open m -> std_open (<[k := o]> m).
Proof. intros [H0 H1]. split; apply lookup_insert_is_Some'; by right. Qed.

(** The descriptors of a child of a pipeline: the end of the pipe in its place and the
    two of the pipe closed. *)
Lemma pipe_child_fds (m : gmap nat fobj) k p0 p1 a b o :
  (k < 2)%nat -> (2 <= p0)%nat -> (2 <= p1)%nat -> p0 <> p1 -> m !! p0 = None -> m !! p1 = None ->
  delete p1 (delete p0 (<[k := o]> (delete k (<[p1 := b]> (<[p0 := a]> m))))) = <[k := o]> m.
Proof.
  intros Hk H0 H1 Hne E0 E1. apply map_eq. intros i. destruct (decide (i = p1)) as [->|]; [rewrite lookup_delete_eq, lookup_insert_ne by lia; done|].
  rewrite lookup_delete_ne by done. destruct (decide (i = p0)) as [->|]; [rewrite lookup_delete_eq, lookup_insert_ne by lia; done|].
  rewrite lookup_delete_ne by done. destruct (decide (i = k)) as [->|]; [by rewrite !lookup_insert_eq|].
  rewrite !lookup_insert_ne by done. rewrite lookup_delete_ne by done. by rewrite !lookup_insert_ne by done.
Qed.

(** ** What a command means *)

Section Wires.
Context (fork_ok : Z -> bool) (pipe_ok : nat -> bool) (open_ok : list Z -> Z -> bool) (early : Z -> bool).
Context (buf : list Z).

(** The commands a line executes, each with its descriptors; [n] numbers the pipes. *)
Fixpoint wires (c : cmd) (m : gmap nat fobj) (n : nat) : list event * nat :=
  match c with
  | EXEC [] => ([], n)
  | EXEC argv => ([Execvp (strings buf argv) m], n)
  | REDR c' file flags mode fd =>
      let file := cstring buf file.1 in
      if open_ok file flags then wires c' (<[Z.to_nat fd := Opened file flags mode]> m) n else ([], n)
  | PIPE l r =>
      let '(el, n1) := wires l (<[1%nat := Pipe_write n]> m) (S n) in
      let '(er, n2) := wires r (<[0%nat := Pipe_read n]> m) n1 in
      (el ++ er, n2)
  | LIST l r =>
      let '(el, n1) := wires l m n in
      let '(er, n2) := wires r m n1 in
      (el ++ er, n2)
  | BACK c' | SUBS c' => wires c' m n
  end.

(** No internal command, and redirections of standard input and output only. *)
Fixpoint external (c : cmd) : bool :=
  match c with
  | EXEC argv => negb (is_interno (argv0 buf argv))
  | REDR c' _ _ _ fd => external c' && ((fd =? 0) || (fd =? 1))
  | PIPE l r | LIST l r => external l && external r
  | BACK c' | SUBS c' => external c'
  end.

Fixpoint nbacks (c : cmd) : nat :=
  match c with
  | EXEC _ => 0
  | REDR c' _ _ _ _ | SUBS c' => nbacks c'
  | PIPE l r | LIST l r => nbacks l + nbacks r
  | BACK c' => S (nbacks c')
  end.

Fixpoint no_subs (c : cmd) : bool :=
  match c with
  | EXEC _ => true
  | REDR c' _ _ _ _ | BACK c' => no_subs c'
  | PIPE l r | LIST l r => no_subs l && no_subs r
  | SUBS _ => false
  end.

(** A process with its standard descriptors open and room for [k] jobs. *)
Record able (p : process) (k : nat) : Prop := {
  ab_fds : std_open (fds p);
  ab_jobs : jobs_ok (jobs p);
  ab_room : (k <= free_slots (jobs p))%nat }.

Record world_moved (w w' : world) (x : list event * nat) : Prop := {
  wm_events : events w' = events w ++ x.1;
  wm_pipe : next_pipe w' = x.2;
  wm_pid : next_pid w <= next_pid w' }.

(** [k] is the number of jobs that may have been added. *)
Record process_kept (p p' : process) (k : nat) : Prop := {
  pk_fds : fds p' = fds p;
  pk_jobs : jobs_ok (jobs p');
  pk_room : (free_slots (jobs p) <= free_slots (jobs p') + k)%nat;
  pk_children : k = 0%nat -> children p' ⊆ children p }.

Notation run := (run_cmd fork_ok pipe_ok open_ok early buf).

Definition runs_as (c : cmd) : Prop := forall p w, able p (nbacks c) -> 0 < next_pid w ->
  exists p' w', run c p w = (Goes tt p', w') /\ process_kept p p' (nbacks c) /\ world_moved w w' (wires c (fds p) (next_pipe w)).

(** A process that ends, with what it did. *)
Definition ends_as (m : R unit) (p : process) (w : world) (x : list event * nat) : Prop :=
  exists w', m p w = (Ended, w') /\ world_moved w w' x.

Context (Hfork : forall pid, fork_ok pid = true) (Hpipe : forall n, pipe_ok n = true).

Lemma rbind_goes {A B} (m : R A) (f : A -> R B) p w a p' w' : m p w = (Goes a p', w') -> rbind m f p w = f a p' w'.
Proof. unfold rbind. by intros ->. Qed.

Lemma rbind_ended {A B} (m : R A) (f : A -> R B) p w w' : m p w = (Ended, w') -> rbind m f p w = (Ended, w').
Proof. unfold rbind. by intros ->. Qed.

Lemma deletes_ok l : forall b, jobs_ok b ->
  jobs_ok (foldl delete_proceso_background b l) /\ (free_slots b <= free_slots (foldl delete_proceso_background b l))%nat.
Proof.
  induction l as [|pid l IH]; intros b Hb; cbn [foldl]; [done|].
  assert (Hd : jobs_ok (delete_proceso_background b pid) /\ (free_slots b <= free_slots (delete_proceso_background b pid))%nat).
  { destruct Hb as [Hn Hp]. split; [split; [cbn; by rewrite length_fmap|done]|]. unfold free_slots. cbn. clear.
    induction (procesos b) as [|x ps IH]; [done|]. cbn [fmap list_fmap]. rewrite !filter_cons. repeat case_decide; cbn [length]; try lia.
    subst x. destruct (Z.eqb_spec pid 0); lia. }
  destruct Hd as [Hd1 Hd2]. destruct (IH _ Hd1) as [A B]. split; [done|lia].
Qed.

Lemma handle_sigchld_kept p k : jobs_ok (jobs p) -> process_kept p (handle_sigchld early p) k.
Proof.
  intros Hj. destruct (deletes_ok (filter (fun pid => early pid = true) (children p)) _ Hj) as [A B].
  split; [done|done|cbn; lia|]. intros _ x. cbn. by intros [_ ?]%list_elem_of_filter.
Qed.

(** The parent's part of a [fork], after its child ended. *)
Definition forked (p : process) (pid : Z) : process :=
  let p1 := set_children (pid :: children p) p in
  if negb (blocked p) && early pid then handle_sigchld early p1 else p1.

Lemma fork_run {A} (k : Z -> R A) p w w2 :
  k 0 (set_children [] p) (mk_world (next_pid w + 1) (next_pipe w) (events w)) = (Ended, w2) ->
  fork_or_panic fork_ok early k p w = k (next_pid w) (forked p (next_pid w)) w2.
Proof. intros E. unfold fork_or_panic. rewrite Hfork, E. done. Qed.

Lemma forked_fds p pid : fds (forked p pid) = fds p.
Proof. unfold forked. by destruct (negb _ && _). Qed.

Lemma forked_jobs p pid : jobs_ok (jobs p) -> jobs_ok (jobs (forked p pid)) /\ (free_slots (jobs p) <= free_slots (jobs (forked p pid)))%nat.
Proof. intros Hj. unfold forked. destruct (negb _ && _); [|done]. by apply (deletes_ok _ (jobs p)). Qed.

Lemma forked_blocked p pid : blocked p = true -> forked p pid = set_children (pid :: children p) p.
Proof. unfold forked. by intros ->. Qed.

Lemma world_moved_trans w w1 w2 x y z :
  world_moved w w1 x -> world_moved w1 w2 y -> z = (x.1 ++ y.1, y.2) -> world_moved w w2 z.
Proof. intros [A1 A2 A3] [B1 B2 B3] ->. split; cbn; [by rewrite B1, A1, app_assoc|done|lia]. Qed.

Lemma world_moved_fork w w2 x :
  world_moved (mk_world (next_pid w + 1) (next_pipe w) (events w)) w2 x -> world_moved w w2 x.
Proof. intros [A1 A2 A3]. split; [done|done|]. cbn in A3. lia. Qed.

Lemma exec_ends argv p w : ends_as (exec_cmd buf argv) p w (wires (EXEC argv) (fds p) (next_pipe w)).
Proof. unfold ends_as, exec_cmd. destruct argv as [|a argv]; (eexists; split; [done|]); split; cbn; rewrite ?app_nil_r; done || lia. Qed.

Lemma ended_bind (m : R unit) f p w x : ends_as m p w x -> ends_as (rbind m f) p w x.
Proof. intros (w' & E & H). exists w'. split; [by apply rbind_ended|done]. Qed.

(** A child that runs a command and exits. *)
Lemma run_ends c p w : runs_as c -> able p (nbacks c) -> 0 < next_pid w ->
  ends_as (run c ;;! exit_process) p w (wires c (fds p) (next_pipe w)).
Proof.
  intros Hc Hp Hw. destruct (Hc p w Hp Hw) as (p' & w' & E & _ & H). exists w'. split; [by rewrite (rbind_goes _ _ _ _ _ _ _ E)|done].
Qed.

Lemma exec_or_run_ends c p w : external c = true -> runs_as c -> able p (nbacks c) -> 0 < next_pid w ->
  ends_as (exec_or_run buf c (run c) ;;! exit_process) p w (wires c (fds p) (next_pipe w)).
Proof.
  intros He Hc Hp Hw. destruct c as [argv|c' fi fl mo fd|l r|l r|c'|c']; cbn [exec_or_run]; try by apply run_ends.
  cbn in He. apply negb_true_iff in He. rewrite He. apply ended_bind, exec_ends.
Qed.

Lemma redr_inner_ends c p w : runs_as c -> able p (nbacks c) -> 0 < next_pid w ->
  ends_as (match c with EXEC argv => exec_cmd buf argv | _ => run c end ;;! exit_process) p w (wires c (fds p) (next_pipe w)).
Proof.
  intros Hc Hp Hw. destruct c as [argv|c' fi fl mo fd|l r|l r|c'|c']; try by apply run_ends. apply ended_bind, exec_ends.
Qed.

Lemma able_child p k : able p k -> able (set_children [] p) k.
Proof. by intros [A B C]. Qed.

Lemma able_blocked p k b : able p k -> able (set_blocked b p) k.
Proof. by intros [A B C]. Qed.

(** After the child: the parent waits for it with SIGCHLD blocked, and unblocks it. *)
Lemma wait_one p pid w :
  blocked p = true -> jobs_ok (jobs p) ->
  exists p', (waitpid pid ;;! sigprocmask early false) (forked p pid) w = (Goes tt p', w) /\
    forall q k, fds p = fds q -> jobs p = jobs q -> children p = children q -> process_kept q p' k.
Proof.
  intros Hb Hj. rewrite forked_blocked by done. unfold waitpid. eexists. split.
  { unfold rbind at 1. cbn [children set_children]. rewrite bool_decide_eq_true_2 by (by left). unfold sigprocmask. reflexivity. }
  intros q k Hf Hjq Hcq. set (p1 := set_blocked false _).
  destruct (handle_sigchld_kept p1 k) as [A B C D]; [done|]. split; [by rewrite A|done|by rewrite <- Hjq|].
  intros Hk x Hx. apply (D Hk) in Hx. unfold p1 in Hx. cbn [children set_blocked set_children] in Hx. apply list_elem_of_filter in Hx as [Hne Hx]. rewrite <- Hcq.
  by apply elem_of_cons in Hx as [->|Hx].
Qed.

(** A child of the shell that is waited for with SIGCHLD blocked. *)
Lemma fork_wait (child : R unit) p w x n :
  able p n -> 0 < next_pid w -> blocked p = true ->
  (forall w1, next_pipe w1 = next_pipe w -> 0 < next_pid w1 -> ends_as child (set_children [] p) w1 x) ->
  exists p' w', fork_or_panic fork_ok early (fun pid => (if pid =? 0 then child else rret tt) ;;! waitpid pid ;;! sigprocmask early false) p w
      = (Goes tt p', w') /\
    (forall q k, fds p = fds q -> jobs p = jobs q -> children p = children q -> process_kept q p' k) /\ world_moved w w' x.
Proof.
  intros Hp Hw Hb Hc. destruct (Hc (mk_world (next_pid w + 1) (next_pipe w) (events w)) eq_refl ltac:(cbn; lia)) as (w2 & E2 & H2).
  erewrite fork_run; [|rewrite Z.eqb_refl; apply rbind_ended; exact E2].
  rewrite (proj2 (Z.eqb_neq _ _)) by lia. erewrite rbind_goes by reflexivity.
  destruct (wait_one p (next_pid w) w2 Hb (ab_jobs _ _ Hp)) as (p' & E' & Hk). rewrite E'.
  exists p', w2. split; [done|]. split; [done|]. by apply world_moved_fork.
Qed.

Lemma run_exec argv : external (EXEC argv) = true -> runs_as (EXEC argv).
Proof.
  intros He p w Hp Hw. cbn in He. apply negb_true_iff in He. cbn [run_cmd nbacks].
  rewrite (rbind_goes _ _ _ _ tt (set_blocked true p) w) by done. rewrite He.
  destruct (fork_wait (exec_cmd buf argv) (set_blocked true p) w (wires (EXEC argv) (fds p) (next_pipe w)) _ (able_blocked _ _ _ Hp) Hw eq_refl)
    as (p' & w' & E & Hk & Hm).
  { intros w1 <- Hp1. apply (exec_ends argv (set_children [] (set_blocked true p))). }
  exists p', w'. split; [done|]. split; [by apply Hk|done].
Qed.

(** Closing a standard descriptor and opening a file takes its place. *)
Lemma redirect p w fd file flags mode :
  std_open (fds p) -> fd = 0 \/ fd = 1 -> open_ok file flags = true ->
  (close (Z.to_nat fd) ;;! open_or_exit open_ok file flags mode) p w =
    (Goes (Z.to_nat fd) (set_fds (<[Z.to_nat fd := Opened file flags mode]> (fds p)) p), w).
Proof.
  intros Hs Hfd Ho. assert (Hlt : (Z.to_nat fd < 2)%nat) by lia. unfold rbind, close, open_or_exit. rewrite Ho.
  assert (Hi : is_Some (fds p !! Z.to_nat fd)) by (destruct Hs as [H0 H1], Hfd as [-> | ->]; done). destruct Hi as [o Hi]. rewrite Hi.
  unfold install. cbn [fds set_fds]. rewrite lowest_closed by done. by rewrite insert_delete_eq.
Qed.

Lemma redirect_fails p w fd file flags mode :
  std_open (fds p) -> fd = 0 \/ fd = 1 -> open_ok file flags = false ->
  (close (Z.to_nat fd) ;;! open_or_exit open_ok file flags mode) p w = (Ended, w).
Proof.
  intros Hs Hfd Ho. unfold rbind, close, open_or_exit. rewrite Ho.
  assert (Hi : is_Some (fds p !! Z.to_nat fd)) by (destruct Hs as [H0 H1], Hfd as [-> | ->]; done). by destruct Hi as [o ->].
Qed.

Lemma rbind_assoc {A B C} (m : R A) (f : A -> R B) (g : B -> R C) p w :
  rbind m (fun a => rbind (f a) g) p w = rbind (rbind m f) g p w.
Proof. unfold rbind. by destruct (m p w) as [[] ?]. Qed.

Lemma able_set_fds p k m : able p k -> std_open m -> able (set_fds m p) k.
Proof. by intros [A B C]. Qed.

Lemma redr_child_ends c file flags mode fd p w :
  runs_as c -> able p (nbacks c) -> 0 < next_pid w -> fd = 0 \/ fd = 1 ->
  ends_as (close (Z.to_nat fd) ;;! open_or_exit open_ok (cstring buf file.1) flags mode ;;!
    match c with EXEC argv => exec_cmd buf argv | _ => run c end ;;! exit_process) p w
    (wires (REDR c file flags mode fd) (fds p) (next_pipe w)).
Proof.
  intros Hc Hp Hw Hfd. pose proof (ab_fds _ _ Hp) as Hs. unfold ends_as. rewrite rbind_assoc. cbn [wires].
  destruct (open_ok (cstring buf file.1) flags) eqn:Ho.
  - rewrite (rbind_goes _ _ _ _ _ _ _ (redirect p w fd _ flags mode Hs Hfd Ho)).
    destruct (redr_inner_ends c (set_fds (<[Z.to_nat fd := Opened (cstring buf file.1) flags mode]> (fds p)) p) w Hc) as (w' & E & H).
    { apply able_set_fds; [done|by apply std_open_insert]. } { done. }
    exists w'. split; [exact E|exact H].
  - rewrite (rbind_ended _ _ _ _ _ (redirect_fails p w fd _ flags mode Hs Hfd Ho)). exists w. split; [done|].
    split; cbn; [by rewrite app_nil_r|done|lia].
Qed.

Lemma run_redr c file flags mode fd : external (REDR c file flags mode fd) = true -> runs_as c -> runs_as (REDR c file flags mode fd).
Proof.
  intros He Hc p w Hp Hw. cbn in He. apply andb_true_iff in He as [He Hfd]. apply orb_true_iff in Hfd. rewrite !Z.eqb_eq in Hfd.
  assert (Hi : cmd_interno buf c = false) by (destruct c; try done; cbn in He |- *; by apply negb_true_iff in He).
  cbn [run_cmd nbacks]. rewrite (rbind_goes _ _ _ _ tt (set_blocked true p) w) by done.
  destruct (fork_wait (close (Z.to_nat fd) ;;! open_or_exit open_ok (cstring buf file.1) flags mode ;;!
    match c with EXEC argv => exec_cmd buf argv | _ => run c end ;;! exit_process)
    (set_blocked true p) w (wires (REDR c file flags mode fd) (fds p) (next_pipe w)) _ (able_blocked _ _ _ Hp) Hw eq_refl) as (p' & w' & E & Hk & Hm).
  { intros w1 Hw1 Hp1. rewrite <- Hw1. apply (redr_child_ends c file flags mode fd (set_children [] (set_blocked true p))); [done| |done|done].
    by apply able_child, able_blocked. }
  exists p', w'. split; [|split; [by apply Hk|done]]. rewrite <- E. destruct c; [by rewrite Hi|done..].
Qed.

(** ** Pipes *)

(** The child of a pipe with the end [o] in the place [k]. *)
Lemma pipe_child_ends c p w k p0 p1 from n o :
  external c = true -> runs_as c -> (k < 2)%nat -> able p (nbacks c) -> 0 < next_pid w ->
  fds p !! p0 = None -> fds p !! p1 = None -> (2 <= p0)%nat -> (2 <= p1)%nat -> p0 <> p1 ->
  <[p1 := Pipe_write n]> (<[p0 := Pipe_read n]> (fds p)) !! from = Some o ->
  from = p0 \/ from = p1 ->
  ends_as (close k ;;! dup from ;;! close p0 ;;! close p1 ;;! exec_or_run buf c (run c) ;;! exit_process)
    (set_fds (<[p1 := Pipe_write n]> (<[p0 := Pipe_read n]> (fds p))) p) w (wires c (<[k := o]> (fds p)) (next_pipe w)).
Proof.
  intros He Hc Hk Hp Hw E0 E1 H0 H1 Hne Ho Hfrom. pose proof (ab_fds _ _ Hp) as Hs. set (m := <[p1 := _]> _) in *.
  assert (Hsm : std_open m) by (by do 2 apply std_open_insert). unfold ends_as.
  assert (Hki : is_Some (m !! k)) by (destruct Hsm; destruct k as [|[|]]; [done|done|lia]). destruct Hki as [x Hx].
  erewrite rbind_goes; [|unfold close; cbn [fds set_fds]; rewrite Hx; reflexivity].
  erewrite rbind_goes; [|unfold dup; cbn [fds set_fds]; rewrite lookup_delete_ne, Ho by lia; unfold install; cbn [fds set_fds];
    rewrite lowest_closed by done; reflexivity].
  erewrite rbind_goes; [|unfold close; cbn [fds set_fds]; rewrite lookup_insert_ne, lookup_delete_ne by lia; unfold m;
    rewrite lookup_insert_ne, lookup_insert_eq by done; reflexivity].
  erewrite rbind_goes; [|unfold close; cbn [fds set_fds]; rewrite lookup_delete_ne, lookup_insert_ne, lookup_delete_ne by lia; unfold m;
    rewrite lookup_insert_eq; reflexivity].
  cbn [set_fds fds blocked children jobs]. unfold m. rewrite pipe_child_fds by done.
  exact (exec_or_run_ends c (set_fds (<[k := o]> (fds p)) p) w He Hc (able_set_fds p _ _ Hp (std_open_insert _ k o Hs)) Hw).
Qed.

Lemma delete_pipe (m : gmap nat fobj) p0 p1 a b : m !! p0 = None -> m !! p1 = None -> p0 <> p1 -> delete p1 (delete p0 (<[p1 := b]> (<[p0 := a]> m))) = m.
Proof.
  intros E0 E1 Hne. by rewrite delete_insert_ne, (delete_insert_id m p0), (delete_insert_id m p1).
Qed.

(** The parent closes both ends and waits for both children. *)
Lemma pipe_parent p pid1 pid2 p0 p1 n w :
  blocked p = true -> jobs_ok (jobs p) -> fds p !! p0 = None -> fds p !! p1 = None -> p0 <> p1 -> pid1 <> pid2 ->
  let q := set_fds (<[p1 := Pipe_write n]> (<[p0 := Pipe_read n]> (fds p))) p in
  exists p', (close p0 ;;! close p1 ;;! waitpid pid1 ;;! waitpid pid2 ;;! sigprocmask early false) (forked (set_children (pid1 :: children q) q) pid2) w = (Goes tt p', w) /\
    forall r k, fds p = fds r -> jobs p = jobs r -> children p = children r -> process_kept r p' k.
Proof.
  intros Hb Hj E0 E1 Hne Hpid q. rewrite forked_blocked by done. unfold q.
  eexists. split.
  { erewrite rbind_goes; [|unfold close; cbn [fds set_fds set_children]; rewrite lookup_insert_ne, lookup_insert_eq by done; reflexivity].
    erewrite rbind_goes; [|unfold close; cbn [fds set_fds set_children]; rewrite lookup_delete_ne, lookup_insert_eq by done; reflexivity].
    erewrite rbind_goes; [|unfold waitpid; cbn [children set_fds set_children]; rewrite bool_decide_eq_true_2 by (rewrite !elem_of_cons; tauto); reflexivity].
    erewrite rbind_goes; [|unfold waitpid; cbn [children set_fds set_children]; rewrite bool_decide_eq_true_2;
      [reflexivity|apply list_elem_of_filter; split; [done|by left]]].
    unfold sigprocmask. reflexivity. }
  intros r k Hf Hjr Hcr. match goal with |- process_kept _ (handle_sigchld _ ?x) _ => set (z := x) end.
  destruct (handle_sigchld_kept z k) as [A B C D]; [done|].
  split; [rewrite A; unfold z; cbn; by rewrite delete_pipe|done|by rewrite <- Hjr|].
  intros Hk x Hx. apply (D Hk) in Hx. unfold z in Hx. cbn [children set_blocked set_children set_fds] in Hx.
  apply list_elem_of_filter in Hx as [Hn2 Hx]. apply list_elem_of_filter in Hx as [Hn1 Hx]. rewrite <- Hcr. rewrite !elem_of_cons in Hx.
  by destruct Hx as [->|[->|Hx]].
Qed.

Lemma pipe_made p w (Hs : std_open (fds p)) :
  exists p0 p1, fds p !! p0 = None /\ fds p !! p1 = None /\ (2 <= p0)%nat /\ (2 <= p1)%nat /\ p0 <> p1 /\
    pipe_or_exit pipe_ok p w = (Goes (p0, p1) (set_fds (<[p1 := Pipe_write (next_pipe w)]> (<[p0 := Pipe_read (next_pipe w)]> (fds p))) p),
      mk_world (next_pid w) (S (next_pipe w)) (events w)).
Proof.
  set (p0 := lowest_free (fds p)). set (m1 := <[p0 := Pipe_read (next_pipe w)]> (fds p)). set (p1 := lowest_free m1).
  assert (Hs1 : std_open m1) by (by apply std_open_insert). pose proof (lowest_free_spec m1) as F1. fold p1 in F1.
  apply lookup_insert_None in F1 as [F1 Hne]. exists p0, p1. split; [apply lowest_free_spec|]. split; [done|].
  split; [by apply lowest_not_std|]. split; [by apply lowest_not_std|]. split; [done|].
  unfold pipe_or_exit. rewrite Hpipe. reflexivity.
Qed.

Lemma able_weaken p k j : able p k -> (j <= k)%nat -> able p j.
Proof. intros [A B C] H. split; [done|done|lia]. Qed.

Lemma run_pipe l r : external (PIPE l r) = true -> runs_as l -> runs_as r -> runs_as (PIPE l r).
Proof.
  intros He Hl Hr p w Hp Hw. cbn in He. apply andb_true_iff in He as [Hel Her]. pose proof (ab_fds _ _ Hp) as Hs. cbn [run_cmd nbacks] in *.
  destruct (pipe_made p w Hs) as (p0 & p1 & E0 & E1 & H0 & H1 & Hne & Ep). rewrite (rbind_goes _ _ _ _ _ _ _ Ep). cbn [fst snd].
  set (m := <[p1 := _]> _). erewrite rbind_goes by reflexivity. set (n := next_pipe w) in *.
  set (q := set_blocked true p). set (w0 := mk_world (next_pid w) (S n) (events w)).
  change (set_blocked true (set_fds m p)) with (set_fds m q). assert (Hq : able q (nbacks l + nbacks r)) by (by apply able_blocked).
  (* the left child *)
  destruct (pipe_child_ends l (set_children [] q) (mk_world (next_pid w + 1) (S n) (events w)) 1 p0 p1 p1 n (Pipe_write n)) as (w2 & E2 & M2);
    try done; [lia|apply able_child; eapply able_weaken; [exact Hq|lia]|cbn; lia|by rewrite lookup_insert_eq|by right|].
  erewrite fork_run; [|rewrite Z.eqb_refl; apply rbind_ended; exact E2]. cbn [next_pid w0].
  rewrite (proj2 (Z.eqb_neq _ _)) by lia. erewrite rbind_goes by reflexivity. rewrite (forked_blocked (set_fds m q)) by done.
  (* the right child *)
  pose proof (wm_pid _ _ _ M2) as Hw2. cbn in Hw2.
  destruct (pipe_child_ends r (set_children [] q) (mk_world (next_pid w2 + 1) (next_pipe w2) (events w2)) 0 p0 p1 p0 n (Pipe_read n)) as (w3 & E3 & M3);
    try done; [lia|apply able_child; eapply able_weaken; [exact Hq|lia]|cbn; lia|by rewrite lookup_insert_ne, lookup_insert_eq by done|by left|].
  erewrite fork_run; [|rewrite Z.eqb_refl; apply rbind_ended; exact E3].
  rewrite (proj2 (Z.eqb_neq (next_pid w2) 0)) by lia. erewrite rbind_goes by reflexivity.
  destruct (pipe_parent q (next_pid w) (next_pid w2) p0 p1 n w3) as (p' & E' & Hk); try done; [apply (ab_jobs _ _ Hp)|lia|].
  exists p', w3. split; [exact E'|]. split; [by apply Hk|]. pose proof (wm_pipe _ _ _ M2) as Hn2. cbn [wires next_pipe fds set_children q set_blocked] in *.
  destruct (wires l _ (S n)) as [el n1] eqn:El. destruct (wires r _ n1) as [er n2] eqn:Er.
  assert (M2' : world_moved w w2 (el, n1)) by (destruct M2 as [A B C]; split; [exact A|exact B|cbn in C; lia]).
  apply world_moved_fork in M3. cbn [next_pipe] in Hn2. rewrite Hn2 in M3. cbn [snd] in M3. rewrite Er in M3.
  by apply (world_moved_trans w w2 w3 _ _ _ M2' M3).
Qed.

(** ** Lists, background jobs and parentheses *)

Lemma run_list l r : runs_as l -> runs_as r -> runs_as (LIST l r).
Proof.
  intros Hl Hr p w Hp Hw. cbn [run_cmd nbacks wires] in *. destruct (Hl p w) as (p1 & w1 & E1 & [F1 J1 R1 C1] & M1); [eapply able_weaken; [exact Hp|lia]|done|].
  rewrite (rbind_goes _ _ _ _ _ _ _ E1). pose proof (wm_pid _ _ _ M1) as Hw1. pose proof (wm_pipe _ _ _ M1) as Hn1.
  destruct (Hr p1 w1) as (p2 & w2 & E2 & [F2 J2 R2 C2] & M2).
  { destruct Hp as [A B C]. split; [by rewrite F1|done|lia]. } { lia. }
  exists p2, w2. split; [done|]. split; [split; [by rewrite F2|done|lia|intros Hk; etrans; [apply C2|apply C1]; lia]|].
  destruct (wires l (fds p) (next_pipe w)) as [el n1] eqn:El. rewrite F1, Hn1 in M2. cbn [snd] in M2.
  destruct (wires r (fds p) n1) as [er n2] eqn:Er. by apply (world_moved_trans _ _ _ _ _ _ M1 M2).
Qed.

Lemma run_back c : external c = true -> runs_as c -> runs_as (BACK c).
Proof.
  intros He Hc p w Hp Hw. cbn [run_cmd nbacks wires] in *.
  destruct (exec_or_run_ends c (set_children [] p) (mk_world (next_pid w + 1) (next_pipe w) (events w)) He Hc) as (w2 & E2 & M2).
  { apply able_child. eapply able_weaken; [done|lia]. } { cbn. lia. }
  erewrite fork_run; [|rewrite Z.eqb_refl; apply rbind_ended; exact E2]. rewrite (proj2 (Z.eqb_neq _ _)) by lia. erewrite rbind_goes by reflexivity.
  destruct (forked_jobs p (next_pid w) (ab_jobs _ _ Hp)) as [J1 R1]. pose proof (ab_room _ _ Hp) as Hroom.
  destruct (add_job_ok (jobs (forked p (next_pid w))) (next_pid w) J1 ltac:(lia) ltac:(lia)) as (b & i & Ea & _ & _ & Jb & Rb).
  unfold add_job. rewrite Ea. eexists _, w2. split; [done|]. split; [|by apply world_moved_fork].
  split; [by rewrite <- (forked_fds p (next_pid w))|done|cbn; lia|lia].
Qed.

Lemma run_subs c : (forall pid, early pid = false) -> runs_as c -> runs_as (SUBS c).
Proof.
  intros Hearly Hc p w Hp Hw. cbn [run_cmd nbacks wires] in *.
  destruct (run_ends c (set_children [] p) (mk_world (next_pid w + 1) (next_pipe w) (events w)) Hc) as (w2 & E2 & M2).
  { by apply able_child. } { cbn. lia. }
  erewrite fork_run; [|rewrite Z.eqb_refl; apply rbind_ended; exact E2]. rewrite (proj2 (Z.eqb_neq _ _)) by lia. erewrite rbind_goes by reflexivity.
  unfold forked. rewrite Hearly, andb_false_r. unfold waitpid. cbn [children set_children]. rewrite bool_decide_eq_true_2 by (by left).
  eexists _, w2. split; [done|]. split; [|by apply world_moved_fork]. destruct Hp as [A B C].
  split; [done|done|cbn; lia|]. intros _ x. cbn [children set_children]. intros [Hn Hx]%list_elem_of_filter.
  by apply elem_of_cons in Hx as [->|Hx].
Qed.

Lemma run_all c : external c = true -> (forall pid, early pid = false) \/ no_subs c = true -> runs_as c.
Proof.
  induction c as [argv|c IH fi fl mo fd|l IHl r IHr|l IHl r IHr|c IH|c IH]; intros He Hn; cbn [external no_subs] in He, Hn.
  - by apply run_exec.
  - apply run_redr; [done|]. apply andb_true_iff in He as [He _]. auto.
  - apply run_pipe; [done|..]; apply andb_true_iff in He as [Hl Hr]; rewrite andb_true_iff in Hn; naive_solver.
  - apply andb_true_iff in He as [Hl Hr]. rewrite andb_true_iff in Hn. apply run_list; naive_solver.
  - apply run_back; [done|auto].
  - destruct Hn as [Hn|]; [|done]. apply run_subs; [done|auto].
Qed.

End Wires.

(** C3: Running a command line gives every program of it the descriptors the line asks for.
    For a line of external commands, from a process with standard input and output open
    and room for its background jobs: [run_cmd] returns in that process, never in a
    child; the programs executed are those of the line, each with exactly the
    descriptors that its pipes and redirections give it, so that no end of a pipe is left
    open in any of them; and the process has the descriptors it had, with every child
    that is not a background job waited for. *)
Theorem run_cmd_wires fork_ok pipe_ok open_ok early buf c p w :
  (forall pid, fork_ok pid = true) -> (forall n, pipe_ok n = true) ->
  external buf c = true -> (forall pid, early pid = false) \/ no_subs c = true ->
  std_open (fds p) -> jobs_ok (jobs p) -> (nbacks c <= free_slots (jobs p))%nat -> 0 < next_pid w ->
  exists p' w', run_cmd fork_ok pipe_ok open_ok early buf c p w = (Goes tt p', w') /\
    events w' = events w ++ (wires open_ok buf c (fds p) (next_pipe w)).1 /\
    fds p' = fds p /\ (nbacks c = 0%nat -> children p' ⊆ children p).
Proof.
  intros Hfork Hpipe He Hn Hs Hj Hr Hw.
  destruct (run_all fork_ok pipe_ok open_ok early buf Hfork Hpipe c He Hn p w) as (p' & w' & E & [A B C D] & [M _ _]); [by split|done|].
  by exists p', w'.
Qed.

(** C40: A child that ends before its parent goes on, with SIGCHLD not blocked, is waited for
    by the handler.  After [( ... )], which does not block it, [waitpid] then fails and
    the shell itself exits; after [... &] the job that is already gone is put in the
    table of jobs, where nothing takes it out. *)
Theorem sigchld_races fork_ok pipe_ok open_ok early buf c p w :
  (forall pid, fork_ok pid = true) -> (forall n, pipe_ok n = true) -> external buf c = true -> no_subs c = true ->
  std_open (fds p) -> jobs_ok (jobs p) -> (S (nbacks c) <= free_slots (jobs p))%nat -> 0 < next_pid w ->
  blocked p = false -> early (next_pid w) = true ->
  (exists w', run_cmd fork_ok pipe_ok open_ok early buf (SUBS c) p w = (Ended, w')) /\
  (exists p' w', run_cmd fork_ok pipe_ok open_ok early buf (BACK c) p w = (Goes tt p', w') /\
     next_pid w ∈ procesos (jobs p') /\ next_pid w ∉ children p').
Proof.
  intros Hfork Hpipe He Hn Hs Hj Hr Hw Hb Hearly. set (w0 := mk_world (next_pid w + 1) (next_pipe w) (events w)).
  pose proof (run_all fork_ok pipe_ok open_ok early buf Hfork Hpipe c He (or_intror Hn)) as Hc.
  assert (Hab : able (set_children [] p) (nbacks c)) by (split; [done|done|cbn; lia]).
  assert (Hgone : next_pid w ∉ children (forked early p (next_pid w))).
  { unfold forked. rewrite Hb, Hearly. cbn [negb andb handle_sigchld children set_children set_jobs].
    intros [H _]%list_elem_of_filter. by rewrite Hearly in H. }
  split.
  - destruct (run_ends fork_ok pipe_ok open_ok early buf c (set_children [] p) w0 Hc Hab ltac:(cbn; lia)) as (w2 & E2 & _).
    cbn [run_cmd]. erewrite fork_run; [|done|rewrite Z.eqb_refl; apply rbind_ended; exact E2].
    rewrite (proj2 (Z.eqb_neq _ _)) by lia. erewrite rbind_goes by reflexivity. exists w2. unfold waitpid.
    by rewrite bool_decide_eq_false_2.
  - destruct (exec_or_run_ends fork_ok pipe_ok open_ok early buf c (set_children [] p) w0 He Hc Hab ltac:(cbn; lia)) as (w2 & E2 & _).
    cbn [run_cmd]. erewrite fork_run; [|done|rewrite Z.eqb_refl; apply rbind_ended; exact E2].
    rewrite (proj2 (Z.eqb_neq _ _)) by lia. erewrite rbind_goes by reflexivity.
    destruct (forked_jobs early p (next_pid w) Hj) as [J1 R1].
    destruct (add_job_ok (jobs (forked early p (next_pid w))) (next_pid w) J1 ltac:(lia) ltac:(lia)) as (b & i & Ea & Hi & Eb & _).
    unfold add_job. rewrite Ea. eexists _, w2. split; [done|]. split; [|done]. cbn [jobs set_jobs]. rewrite Eb.
    apply list_elem_of_lookup. exists i. apply list_lookup_insert_eq. by eapply lookup_lt_Some.
Qed.

(** An internal command with a redirection changes the shell itself: [hd] and [src] run
    in the process of the shell, whose standard descriptor stays the file after they
    return, and SIGCHLD stays blocked. *)
Theorem redr_interno_stays fork_ok pipe_ok open_ok early buf argv file flags mode fd p w :
  argv0 buf argv = Some (chars "hd") \/ argv0 buf argv = Some (chars "src") ->
  fd = 0 \/ fd = 1 -> std_open (fds p) -> open_ok (cstring buf file.1) flags = true ->
  exists p' w', run_cmd fork_ok pipe_ok open_ok early buf (REDR (EXEC argv) file flags mode fd) p w = (Goes tt p', w') /\
    fds p' = <[Z.to_nat fd := Opened (cstring buf file.1) flags mode]> (fds p) /\ blocked p' = true.
Proof.
  intros Ha Hfd Hs Ho. cbn [run_cmd]. rewrite (rbind_goes _ _ _ _ tt (set_blocked true p) w) by done.
  assert (Hi : cmd_interno buf (EXEC argv) = true) by (unfold cmd_interno; by destruct Ha as [-> | ->]).
  assert (Hh : hd_or_src buf argv = true) by (unfold hd_or_src; by destruct Ha as [-> | ->]).
  rewrite Hi, Hh, rbind_assoc.
  rewrite (rbind_goes _ _ _ _ _ _ _ (redirect open_ok (set_blocked true p) w fd (cstring buf file.1) flags mode Hs Hfd Ho)).
  unfold run_interno. rewrite bool_decide_eq_false_2 by (destruct Ha as [-> | ->]; discriminate). by eexists _, _.
Qed.

(** A line, its buffer and the shell at its start. *)
Definition line_buf (s : string) : list Z :=
  match parse (chars s) with Ok c _ => null_terminate c (chars s ++ [0]) | _ => [] end.
Definition line_cmd (s : string) : cmd := match parse (chars s) with Ok c _ => c | _ => EXEC [] end.
Definition shell : process :=
  mk_process (<[0%nat := Std 0]> (<[1%nat := Std 1]> (<[2%nat := Std 2]> ∅))) false [] (mk_back (replicate 8 0) 0).

Lemma run_cmd_wires_witness :
  let s := "cat <in | sort | wc >out &"%string in
  exists p' w', run_cmd (fun _ => true) (fun _ => true) (fun _ _ => true) (fun _ => true) (line_buf s) (line_cmd s) shell (mk_world 7 0 []) = (Goes tt p', w') /\
    events w' = [
      Execvp [chars "cat"] (<[0%nat := Opened (chars "in") 0 0]> (<[1%nat := Pipe_write 0]> (fds shell)));
      Execvp [chars "sort"] (<[1%nat := Pipe_write 1]> (<[0%nat := Pipe_read 0]> (fds shell)));
      Execvp [chars "wc"] (<[1%nat := Opened (chars "out") 0x242 0x1C0]> (<[0%nat := Pipe_read 1]> (fds shell)))] /\
    fds p' = fds shell.
Proof.
  intros s.
  destruct (run_cmd_wires (fun _ => true) (fun _ => true) (fun _ _ => true) (fun _ => true) (line_buf s) (line_cmd s) shell (mk_world 7 0 []))
    as (p' & w' & E & He & Hf & _); [done|done|by vm_compute|right; by vm_compute|split; by eexists|split; [done|cbv; lia]|vm_compute; lia|done|].
  exists p', w'. split; [exact E|]. split; [|exact Hf]. rewrite He. vm_compute. reflexivity.
Defined.

Lemma sigchld_races_witness :
  let s := "ls"%string in
  (exists w', run_cmd (fun _ => true) (fun _ => true) (fun _ _ => true) (fun _ => true) (line_buf s) (SUBS (line_cmd s)) shell (mk_world 7 0 []) = (Ended, w')) /\
  (exists p' w', run_cmd (fun _ => true) (fun _ => true) (fun _ _ => true) (fun _ => true) (line_buf s) (BACK (line_cmd s)) shell (mk_world 7 0 []) = (Goes tt p', w') /\
     7 ∈ procesos (jobs p') /\ 7 ∉ children p').
Proof.
  intros s. apply (sigchld_races (fun _ => true) (fun _ => true) (fun _ _ => true) (fun _ => true) (line_buf s) (line_cmd s) shell (mk_world 7 0 []));
    [done|done|by vm_compute|by vm_compute|split; by eexists|split; [done|cbv; lia]|vm_compute; lia|done|done|done].
Defined.

Lemma redr_interno_stays_witness :
  let buf := chars "hd" ++ 0 :: chars "out" ++ [0] in
  exists p' w', run_cmd (fun _ => true) (fun _ => true) (fun _ _ => true) (fun _ => false) buf (REDR (EXEC [(0, 2)%nat]) (3, 6)%nat 0x242 0x1C0 1) shell (mk_world 7 0 []) = (Goes tt p', w') /\
    fds p' = <[1%nat := Opened (chars "out") 0x242 0x1C0]> (fds shell) /\ blocked p' = true.
Proof.
  intros buf. apply (redr_interno_stays (fun _ => true) (fun _ => true) (fun _ _ => true) (fun _ => false) buf [(0, 2)%nat] (3, 6)%nat 0x242 0x1C0 1 shell (mk_world 7 0 []));
    [left; reflexivity|by right|split; by eexists|done].
Defined.
