(* ===== verification/Shmain.v ===== *)
(** * Shmain: the shell from the line typed to the programs run (main of simplesh.c)

    [main] reads a line with [get_cmd], parses it, ends its words with [null_terminate] and
    runs it.  The theorem puts the parser ([Shround]), [null_terminate] ([Shparse]) and [run_cmd]
    ([Shrun]) together: a session runs what the lines that are typed mean.  The lines are
    what [readline] returns; the prompt, the history, the options of the shell and the
    signals it ignores are left out. *)

From S2P Require Import Prelude Simplesh Shparse Shround Shrun.
#[local] Open Scope shell_scope.

(** [while ((buf = get_cmd()) != NULL)]; a [panic] of the parser ends the shell. *)
Section Main.
Context (fork_ok : Z -> bool) (pipe_ok : nat -> bool) (open_ok : list Z -> Z -> bool) (early : Z -> bool).


End Main.

(** ** What a command means *)

Section Meaning.
Context (open_ok : list Z -> Z -> bool).







Section Words.
Context (line buf : list Z).

Notation good sps := (Forall (fun sp => cstring buf sp.1 = text line sp) sps).






End Words.
End Meaning.

(** ** The session *)

Section Session.
Context (fork_ok : Z -> bool) (pipe_ok : nat -> bool) (open_ok : list Z -> Z -> bool) (early : Z -> bool).
Context (Hfork : forall pid, fork_ok pid = true) (Hpipe : forall n, pipe_ok n = true).









End Session.


(** ** Witness *)



