(* ===== verification/Shint.v ===== *)
(** * Shint: the internal commands cwd, cd and bjobs, and the prompt (simplesh.c)

    The environment is the directory and the variables that [cd] uses; where [chdir]
    leads is a parameter.  [bjobs] sends signals to the processes in the table of jobs.
    [getopt] is a library: its result is the list of options. *)

From S2P Require Import Prelude Simplesh.

(** ** Directories *)

Inductive message : Type :=
| Cwd (dir : list Z)
| No_oldpwd
| No_dir (path : option (list Z))
| Too_many.

Record env : Type := mk_env { cwd : list Z; oldpwd : option (list Z); homedir : option (list Z); said : list message }.

Definition say (m : message) (e : env) : env := mk_env (cwd e) (oldpwd e) (homedir e) (said e ++ [m]).

Section Dirs.

(** The directory that a path leads to from a directory, if there is one. *)
Context (chdir : list Z -> list Z -> option (list Z)).

Definition run_cwd : M env unit := modify (fun e => say (Cwd (cwd e)) e).

(** [setenv("OLDPWD", getcwd(...), 1)] and [chdir(path)]; [chdir(NULL)] fails. *)
Definition go (path : option (list Z)) : M env Z := fun e =>
  let e := mk_env (cwd e) (Some (cwd e)) (homedir e) (said e) in
  match path ≫= chdir (cwd e) with
  | Some dir => Ok 0 (mk_env dir (oldpwd e) (homedir e) (said e))
  | None => Ok 0 (say (No_dir path) e)
  end.

Definition run_cd (path : option (list Z)) : M env Z :=
  let! e := get in
  match path with
  | None => go (homedir e)
  | Some p =>
      if bool_decide (p = chars "-") then
        match oldpwd e with
        | None => modify (say No_oldpwd) ;;; ret 0
        | Some old => go (Some old)
        end
      else go (Some p)
  end.

(** The case [cd] of [run_interno], with the arguments after the name. *)
Definition cd_command (args : list (list Z)) : M env Z :=
  if (2 <? length args + 1)%nat then modify (say Too_many) ;;; ret 0 else run_cd (head args).

(** [n] times [cd -]. *)
Fixpoint dashes (n : nat) : M env Z :=
  match n with
  | O => ret 0
  | S n' => run_cd (Some (chars "-")) ;;; dashes n'
  end.

(** Between two directories that can be reached by their names, [cd -] goes back and forth. *)
Lemma dashes_alternate (a b : list Z) : (forall here, chdir here a = Some a) -> (forall here, chdir here b = Some b) ->
  forall n e, cwd e = b -> oldpwd e = Some a -> exists e', dashes n e = Ok 0 e' /\ cwd e' = (if Nat.even n then b else a) /\ oldpwd e' = Some (if Nat.even n then a else b) /\ said e' = said e.
Proof.
  intros Ha Hb n. revert a b Ha Hb. induction n as [|n IH]; intros a b Ha Hb e Hc Ho; [by exists e|]. cbn [dashes]. unfold run_cd. unfold bind at 1, get at 1.
  unfold bind at 1. rewrite bool_decide_eq_true_2, Ho by done. unfold go. cbn [cwd mbind option_bind]. rewrite Ha.
  destruct (IH b a Hb Ha (mk_env a (Some (cwd e)) (homedir e) (said e))) as (e' & E & A & B & C); [done|cbn; by rewrite Hc|].
  exists e'. split; [done|]. rewrite Nat.even_succ, <- Nat.negb_even. rewrite A, B, C. by destruct (Nat.even n).
Qed.

(** [cd] to a directory and any number of [cd -] after it: the shell is back where it was
    after an odd number and in the directory after an even one, and nothing is printed. *)
Theorem cd_and_back p dir n e : p <> chars "-" -> chdir (cwd e) p = Some dir ->
  (forall here, chdir here (cwd e) = Some (cwd e)) -> (forall here, chdir here dir = Some dir) ->
  exists e', (run_cd (Some p) ;;; dashes n) e = Ok 0 e' /\ cwd e' = (if Nat.even n then dir else cwd e) /\ said e' = said e.
Proof.
  intros Hp Hd Hc Hdir. unfold bind at 1, run_cd. unfold bind at 1, get at 1. rewrite bool_decide_eq_false_2 by done. unfold go. cbn [cwd mbind option_bind]. rewrite Hd.
  destruct (dashes_alternate (cwd e) dir Hc Hdir n (mk_env dir (Some (cwd e)) (homedir e) (said e))) as (e' & E & A & _ & C); [done|done|]. by exists e'.
Qed.

(** A [cd] that fails has changed [OLDPWD] all the same: the directory that [cd -] would have gone
    back to is lost. *)
Lemma cd_failure_forgets p e : p <> chars "-" -> chdir (cwd e) p = None ->
  exists e', run_cd (Some p) e = Ok 0 e' /\ cwd e' = cwd e /\ oldpwd e' = Some (cwd e).
Proof.
  intros Hp Hd. unfold run_cd. unfold bind, get. rewrite bool_decide_eq_false_2 by done. unfold go. cbn [cwd mbind option_bind]. rewrite Hd. eexists. by split.
Qed.

End Dirs.

(** ** bjobs *)

Inductive bj_option : Type := Bj_s | Bj_c | Bj_h | Bj_bad.

Inductive job_action : Type := Stop (pid : Z) | Continue (pid : Z) | Show (pid : Z) | Incompatible | Usage.

Fixpoint bj_options (flag : Z) (opts : list bj_option) : Z + job_action :=
  match opts with
  | [] => inl flag
  | Bj_s :: opts' => if flag =? 2 then inr Incompatible else bj_options 1 opts'
  | Bj_c :: opts' => if flag =? 1 then inr Incompatible else bj_options 2 opts'
  | Bj_h :: _ => inr Usage
  | Bj_bad :: opts' => bj_options flag opts'
  end.

(** The [for] over the slots of the table. *)
Fixpoint bj_slots (n i : nat) (flag : Z) (b : procesos_background) : list job_action :=
  match n with
  | O => []
  | S n' =>
      let pid := default 0 (procesos b !! i) in
      (if pid =? 0 then [] else [if flag =? 1 then Stop pid else if flag =? 2 then Continue pid else Show pid]) ++ bj_slots n' (S i) flag b
  end.

Definition run_bjobs (opts : list bj_option) (b : procesos_background) : list job_action :=
  match bj_options 0 opts with
  | inr a => [a]
  | inl flag => bj_slots MAX_PROC_BACK 0 flag b
  end.

Lemma bj_slots_all flag n : forall i b, (i + n = length (procesos b))%nat ->
  bj_slots n i flag b = (fun pid => if flag =? 1 then Stop pid else if flag =? 2 then Continue pid else Show pid) <$> filter (fun pid => pid <> 0) (drop i (procesos b)).
Proof.
  induction n as [|n IH]; intros i b Hi; cbn [bj_slots]; [by rewrite drop_ge by lia|]. rewrite IH by lia.
  destruct (lookup_lt_is_Some_2 (procesos b) i ltac:(lia)) as [pid Hp]. rewrite (drop_S _ _ _ Hp), Hp, filter_cons. change (default 0 (Some pid)) with pid.
  destruct (Z.eqb_spec pid 0) as [->|Hne]; case_decide; done.
Qed.

(** bjobs -s stops every job of the table and no other process, bjobs -c lets them go on, and without
    an option every job is shown; [-s] with [-c], in any order, does nothing. *)
Lemma bjobs_does b : length (procesos b) = MAX_PROC_BACK ->
  let js := filter (fun pid => pid <> 0) (procesos b) in
  run_bjobs [Bj_s] b = Stop <$> js /\ run_bjobs [Bj_c] b = Continue <$> js /\ run_bjobs [] b = Show <$> js /\
  run_bjobs [Bj_s; Bj_c] b = [Incompatible] /\ run_bjobs [Bj_c; Bj_s] b = [Incompatible].
Proof. intros Hl js. unfold run_bjobs. cbn [bj_options Z.eqb Pos.eqb]. by rewrite !bj_slots_all by lia. Qed.

(** ** The prompt *)

(** [sprintf(nombreRuta, "%s@%s> ", ...)] with its NUL, and [tama], the size of the array. *)
Definition prompt (user dir : list Z) : list Z := user ++ [64] ++ dir ++ [62; 32] ++ [0].
Definition prompt_size (user dir : list Z) : nat := length user + 1 + length dir + 2.

(** The NUL does not fit. *)
Lemma prompt_overflows user dir : length (prompt user dir) = S (prompt_size user dir).
Proof. unfold prompt, prompt_size. rewrite !length_app. cbn. lia. Qed.

(** ** Witness *)

Lemma cd_and_back_witness : exists e', (run_cd (fun _ p => Some p) (Some (chars "/tmp")) ;;; dashes (fun _ p => Some p) 3) (mk_env (chars "/root") None None []) = Ok 0 e' /\
  cwd e' = chars "/root" /\ said e' = [].
Proof. apply (cd_and_back (fun _ p => Some p) (chars "/tmp") (chars "/tmp") 3 (mk_env (chars "/root") None None [])); [discriminate|reflexivity|reflexivity|reflexivity]. Defined.
