(* ===== verification/Shsrc.v ===== *)
(** * Shsrc: the internal command src (run_src of simplesh.c)

    [src] runs the lines of a file that are not comments.  Its two arrays, [buf] and
    [comando], are lists of [MAX_LINEA] bytes; what [malloc] leaves in them is a
    parameter, and so is how many bytes a [read] gives.  A line that is run is recorded, after it
    has been parsed by the parser of [Simplesh]; [null_terminate] writes in the array the line
    is in.  Reading past an array is a [Fault]. *)

From S2P Require Import Prelude Bytes Simplesh Shparse.

Definition MAX_LINEA : nat := 4096.

(** The calls of [read] so far and what is left of the file; [buf], [comando] and
    [bytes_leidos]; the lines run. *)
Record src : Type := mk_src { s_calls : nat; s_rest : list Z; s_buf : list Z; s_com : list Z; s_bytes : Z; s_ran : list (list Z) }.

Section Src.
Context (rd : nat -> Z -> Z) (malloc : nat -> list Z) (delim : Z).

(** [bytes_leidos = read(fd, buf + i, MAX_LINEA - i)] *)
Definition read_at (i : nat) : M src unit := fun s =>
  let n := Z.min (Z.of_nat (MAX_LINEA - i)) (Z.of_nat (length (s_rest s))) in
  let chunk := if n =? 0 then [] else take (Z.to_nat (rd (s_calls s) n)) (s_rest s) in
  Ok tt (mk_src (S (s_calls s)) (drop (length chunk) (s_rest s)) (splice (s_buf s) i chunk) (s_com s) (Z.of_nat (length chunk)) (s_ran s)).

(** [cmd = parse_cmd(line); null_terminate(cmd); run_cmd(cmd); free_cmd(cmd)]: the array after it. *)
Definition run_line (array : list Z) : M src (list Z) := fun s =>
  if negb (bool_decide (0 ∈ array)) then Fault "string without end" else
  match parse (upto_nul array) with
  | Ok c _ => Ok (null_terminate c array) (mk_src (s_calls s) (s_rest s) (s_buf s) (s_com s) (s_bytes s) (s_ran s ++ [upto_nul array]))
  | Panic msg => Panic msg
  | Fault msg => Fault msg
  | _ => Spin
  end.

(** [strncpy(comando, buf, i)] *)
Definition strncpy (dst from : list Z) (n : nat) : list Z :=
  let w := upto_nul (take n from) in splice dst 0 (w ++ replicate (n - length w) 0).

(** [memmove(buf, buf + (i + 1), strlen(buf))] *)
Definition shift_buf (i : nat) : M src unit := fun s =>
  let n := length (upto_nul (s_buf s)) in
  if bool_decide (0 ∈ s_buf s /\ (i + 1 + n <= MAX_LINEA)%nat)
  then Ok tt (mk_src (s_calls s) (s_rest s) (splice (s_buf s) 0 (slice (s_buf s) (i + 1) n)) (s_com s) (s_bytes s) (s_ran s))
  else Fault "memmove".

(** The end of a line at [i]: run it, unless it is a comment, and move the rest to the front. *)
Definition end_of_line (i : nat) : M src unit :=
  let! s := get in
  (if negb (default 0 (s_buf s !! 0%nat) =? delim) then
     let com := strncpy (s_com s) (s_buf s) i in
     let! com := run_line com in
     modify (fun s => mk_src (s_calls s) (s_rest s) (s_buf s) (<[0%nat := 0]> com) (s_bytes s) (s_ran s))
   else ret tt) ;;;
  shift_buf i ;;;
  modify (fun s => mk_src (s_calls s) (s_rest s) (s_buf s) (s_com s) (s_bytes s - Z.of_nat i) (s_ran s)).

(** [while(i < bytes_leidos && i < MAX_LINEA && buf[i] != '\0')] *)
Fixpoint src_line (fuel : nat) (i : nat) : M src unit :=
  match fuel with
  | O => spin
  | S fuel' =>
      let! s := get in
      let c := default 0 (s_buf s !! i) in
      if (Z.of_nat i <? s_bytes s) && (i <? MAX_LINEA)%nat && negb (c =? 0) then
        let! i := (if c =? 10 then end_of_line i ;;; ret 0%nat else ret (S i)) in
        let! s := get in
        match s_buf s !! i with
        | None => fault "buf"
        | Some c =>
            (if c =? 0 then
               read_at i ;;;
               let! s := get in
               if s_bytes s =? 0 then
                 let! b := run_line (s_buf s) in
                 modify (fun s => mk_src (s_calls s) (s_rest s) b (s_com s) (s_bytes s) (s_ran s))
               else ret tt
             else ret tt) ;;;
            src_line fuel' i
        end
      else ret tt
  end.

(** [while(bytes_leidos != 0)]: new arrays, a [read], and its lines. *)
Fixpoint src_file (fuel : nat) : M src unit :=
  match fuel with
  | O => spin
  | S fuel' =>
      let! s := get in
      if s_bytes s =? 0 then ret tt else
      modify (fun s => mk_src (s_calls s) (s_rest s) (malloc (2 * s_calls s)%nat) (malloc (2 * s_calls s + 1)%nat) (s_bytes s) (s_ran s)) ;;;
      read_at 0 ;;;
      src_line fuel' 0 ;;;
      src_file fuel'
  end.

(** The [do] over the files: a file that cannot be opened ends the command. *)
Fixpoint src_files (fuel : nat) (files : list (option (list Z))) : M src unit :=
  match files with
  | [] => ret tt
  | None :: _ => ret tt
  | Some content :: files' =>
      modify (fun s => mk_src (s_calls s) content (s_buf s) (s_com s) 1 (s_ran s)) ;;;
      src_file fuel ;;;
      src_files fuel files'
  end.

End Src.

(** The options: [-d] and [-h]; a delimiter of more than one character ends the command, and
    the last one given is in force. *)
Inductive src_option : Type := Src_d (arg : list Z) | Src_h | Src_bad.

Fixpoint src_options (delim : Z) (opts : list src_option) : Z + string :=
  match opts with
  | [] => inl delim
  | Src_d arg :: opts' => if (1 <? length arg)%nat then inr "src: Opcion no valida"%string else src_options (default 0 (head arg)) opts'
  | Src_h :: _ => inr "Uso: src [-d DELIM] [FILE1] [FILE2 ]..."%string
  | Src_bad :: opts' => src_options delim opts'
  end.

(** [run_src] with the options, standard input and the files: what is printed, if anything. *)
Definition run_src (rd : nat -> Z -> Z) (malloc : nat -> list Z) (fuel : nat) (opts : list src_option) (stdin : list Z) (files : list (option (list Z))) : M src (option string) :=
  match src_options 37 opts with
  | inr msg => ret (Some msg)
  | inl delim =>
      src_files rd malloc delim fuel (match files with [] => [Some stdin] | _ :: _ => files end) ;;;
      ret None
  end.

Definition src0 : src := mk_src 0 [] [] [] 0 [].

(** ** What src runs *)


Notation nonzero := (Forall (fun c : Z => c <> 0)).




Section Lines.
Context (rd : nat -> Z -> Z) (malloc : nat -> list Z) (delim : Z).






























Context (Hrd : forall c n, 0 < n -> rd c n = n).





End Lines.

(** ** When the lines are run as they are written *)













(** ** Examples *)



(** A line shorter than the one before it keeps the end of it: of [pwd] and [ls] the second that is run is [lsd]. *)
Example src_stale_line :
  match run_src (fun _ n => n) (fun _ => replicate MAX_LINEA 0) 100 [] [] [Some (chars "pwd" ++ [10] ++ chars "ls" ++ [10])] src0 with
  | Ok _ s => s_ran s = [chars "pwd"; chars "lsd"; []]
  | _ => False
  end.
Proof. vm_compute. reflexivity. Qed.
