(* ===== verification/Xsh.v ===== *)
(** * Xsh: the parser of the xv6 shell (sh.c) and of its descendants

    As in [Simplesh] a pointer into the line is an index and the character at its end is
    the NUL; the state of the parser is the pointer [*ps].  [panic] prints and exits.
    The shell of an earlier course keeps this parser with other limits ([Oldsh]), so what
    they share is written once, for any [Dialect].  simplesh grew out of this shell too, and
    the parsers are compared: on the lines that simplesh reads without an error, and whose
    commands have few enough arguments, both find the same commands. *)

From S2P Require Import Prelude Simplesh Shparse Shround.

Module Sh.

Definition O_RDONLY : Z := 0x000.
Definition O_WRONLY : Z := 0x001.
Definition O_CREATE : Z := 0x200.

(** Where the shells with this parser differ: the size of [argv] and the modes of the files
    of [<], [>] and [>>]. *)
Class Dialect : Type := { MAXARGS : nat; open_mode : rkind -> Z }.

Definition xv6 : Dialect := {| MAXARGS := 10; open_mode k := match k with R_in => O_RDONLY | _ => Z.lor O_WRONLY O_CREATE end |}.

(** ** Commands *)

Inductive cmd : Type :=
| EXEC (argv : list span)
| REDIR (c : cmd) (file : span) (mode fd : Z)
| PIPE (left right : cmd)
| LIST (left right : cmd)
| BACK (c : cmd).

(** A redirection that is not around its command yet; [parseexec] fills the arguments of
    the innermost command while redirections are already around it. *)
Record redir : Type := mk_redir { r_file : span; r_mode : Z; r_fd : Z }.
Definition redircmd (c : cmd) (r : redir) : cmd := REDIR c (r_file r) (r_mode r) (r_fd r).
Definition redircmds (c : cmd) (rs : list redir) : cmd := foldl redircmd c rs.

(** ** Tokens *)

Section Parser.
Context {dia : Dialect} (line : list Z).

Notation P := (M nat).

(** [case 0], the symbols, [>] and [>>], and a word. *)
Definition scan (s : nat) : Z * nat :=
  let c := ch line s in
  if c =? 0 then (c, s)
  else if bool_decide (c ∈ [124; 40; 41; 59; 38; 60]) then (c, S s)
  else if c =? 62 then (if ch line (S s) =? 62 then (43, S (S s)) else (c, S s))
  else (97, skip line is_word s).

Definition gettoken : P (Z * span) :=
  let! ps := get in
  let q := skip line is_space ps in
  let '(ret_, eq) := scan q in
  modify (fun _ => skip line is_space eq) ;;;
  ret (ret_, (q, eq)).

Definition peek (toks : list Z) : P bool :=
  let! ps := get in
  let s := skip line is_space ps in
  modify (fun _ => s) ;;;
  ret (negb (ch line s =? 0) && strchr toks (ch line s)).

(** ** The grammar *)

Fixpoint parseredirs (fuel : nat) (rs : list redir) : P (list redir) :=
  match fuel with
  | O => spin
  | S fuel' =>
      let! b := peek [60; 62] in
      if b : bool then
        let! '(tok, _) := gettoken in
        let! '(a, file) := gettoken in
        if negb (a =? 97) then panic "missing file for redirection" else
        parseredirs fuel'
          (if tok =? 60 then rs ++ [mk_redir file (open_mode R_in) 0]
           else if tok =? 62 then rs ++ [mk_redir file (open_mode R_out) 1]
           else if tok =? 43 then rs ++ [mk_redir file (open_mode R_append) 1]
           else rs)
      else ret rs
  end.

(** The [while] of [parseexec], with the arguments and the redirections so far. *)
Fixpoint exec_args (fuel : nat) (args : list span) (rs : list redir) : P cmd :=
  match fuel with
  | O => spin
  | S fuel' =>
      let! b := peek [124; 41; 38; 59] in
      if b : bool then ret (redircmds (EXEC args) rs) else
      let! '(tok, arg) := gettoken in
      if tok =? 0 then ret (redircmds (EXEC args) rs) else
      if negb (tok =? 97) then panic "syntax" else
      if (MAXARGS <=? length (args ++ [arg]))%nat then panic "too many args" else
      let! rs := parseredirs (turns line) rs in
      exec_args fuel' (args ++ [arg]) rs
  end.

(** The [while] of [parseline]. *)
Fixpoint backs (fuel : nat) (c : cmd) : P cmd :=
  match fuel with
  | O => spin
  | S fuel' =>
      let! b := peek [38] in
      if b : bool then let! _ := gettoken in backs fuel' (BACK c) else ret c
  end.

End Parser.
End Sh.
Import Sh.

Section Grammar.
Context {dia : Dialect} (line : list Z).

Notation P := (M nat).

Fixpoint parseline (fuel : nat) : P cmd :=
  match fuel with
  | O => spin
  | S fuel' =>
      let! c := parsepipe fuel' in
      let! c := backs line (turns line) c in
      let! b := peek line [59] in
      if b : bool then let! _ := gettoken line in let! r := parseline fuel' in ret (LIST c r) else ret c
  end
with parsepipe (fuel : nat) : P cmd :=
  match fuel with
  | O => spin
  | S fuel' =>
      let! c := parseexec fuel' in
      let! b := peek line [124] in
      if b : bool then let! _ := gettoken line in let! r := parsepipe fuel' in ret (PIPE c r) else ret c
  end
with parseexec (fuel : nat) : P cmd :=
  match fuel with
  | O => spin
  | S fuel' =>
      let! b := peek line [40] in
      if b : bool then parseblock fuel' else
      let! rs := parseredirs line (turns line) [] in
      exec_args line (turns line) [] rs
  end
with parseblock (fuel : nat) : P cmd :=
  match fuel with
  | O => spin
  | S fuel' =>
      let! b := peek line [40] in
      if negb b then panic "parseblock" else
      let! _ := gettoken line in
      let! c := parseline fuel' in
      let! b := peek line [41] in
      if negb b then panic "syntax - missing )" else
      let! _ := gettoken line in
      let! rs := parseredirs line (turns line) [] in
      ret (redircmds c rs)
  end.

(** [parsecmd] up to [nulterminate]; what is left of the line is printed before [panic]. *)
Definition parsecmd : P cmd :=
  let! c := parseline (parse_fuel line) in
  let! _ := peek line [] in
  let! s := get in
  if negb (Nat.eqb s (length line)) then panic "syntax" else ret c.

Definition parse_all : outcome nat cmd := parsecmd 0%nat.

End Grammar.

Definition parse_xv6 : list Z -> outcome nat cmd := parse_all (dia := xv6).

(** ** nulterminate *)

Fixpoint nulterminate (c : cmd) (buf : list Z) : list Z :=
  match c with
  | EXEC argv => foldl end_span buf argv
  | REDIR c file _ _ => end_span (nulterminate c buf) file
  | PIPE l r | LIST l r => nulterminate r (nulterminate l buf)
  | BACK c => nulterminate c buf
  end.

(** ** The two parsers *)

Section Any.
Context {dia : Dialect}.

Definition xmode (flags : Z) : Z := open_mode (kind_of flags).

(** The command for one of simplesh: there are no structures for parentheses. *)
Fixpoint erase (c : Simplesh.cmd) : cmd :=
  match c with
  | Simplesh.EXEC argv => EXEC argv
  | Simplesh.REDR c file flags _ fd => REDIR (erase c) file (xmode flags) fd
  | Simplesh.PIPE l r => PIPE (erase l) (erase r)
  | Simplesh.LIST l r => LIST (erase l) (erase r)
  | Simplesh.BACK c => BACK (erase c)
  | Simplesh.SUBS c => erase c
  end.

Definition xredir (r : redr) : redir := mk_redir (Simplesh.r_file r) (xmode (r_flags r)) (Simplesh.r_fd r).

(** Fewer than [MAXARGS] arguments. *)
Fixpoint few (c : Simplesh.cmd) : bool :=
  match c with
  | Simplesh.EXEC argv => (length argv <? MAXARGS)%nat
  | Simplesh.REDR c _ _ _ _ | Simplesh.BACK c | Simplesh.SUBS c => few c
  | Simplesh.PIPE l r | Simplesh.LIST l r => few l && few r
  end.

Section Agree.
Context (line : list Z).

(** [m] takes no error message back. *)
Definition keeps {A} (m : M sh A) : Prop := forall st a st', m st = Ok a st' -> sh_errors st' = [] -> sh_errors st = [].

(** [m'] does what [m] does when [m] reports no error. *)
Definition agrees {A B} (m : M sh A) (m' : M nat B) (f : A -> B) (side : A -> Prop) : Prop :=
  keeps m /\ forall st a st', m st = Ok a st' -> sh_errors st' = [] -> side a -> m' (sh_pos st) = Ok (f a) (sh_pos st').

Definition any {A} (a : A) : Prop := True.

Lemma agrees_ret {A B} (a : A) (f : A -> B) side : agrees (ret a) (ret (f a)) f side.
Proof. split; intros st b st' [= <- <-]; done. Qed.

Lemma agrees_bind {A B C D} (m : M sh A) (m' : M nat B) (k : A -> M sh C) (k' : B -> M nat D) f g (s1 : A -> Prop) (s2 : C -> Prop) :
  agrees m m' f s1 -> (forall a, agrees (k a) (k' (f a)) g s2) ->
  (forall a st b st', k a st = Ok b st' -> s2 b -> s1 a) -> agrees (bind m k) (bind m' k') g s2.
Proof.
  intros [K1 H1] H2 HS. split; intros st c st' (a & st1 & E1 & E2)%bind_ok_inv He.
  - eapply K1; [done|]. eapply (proj1 (H2 a)); done.
  - intros Hs. destruct (H2 a) as [K2 G2]. pose proof (K2 _ _ _ E2 He) as He1.
    rewrite (bind_ok _ _ (f a) _ (sh_pos st1)); [by eapply G2|]. eapply H1; [done..|]. by eapply HS.
Qed.

Lemma agrees_bind_any {A B C D} (m : M sh A) (m' : M nat B) (k : A -> M sh C) (k' : B -> M nat D) f g (s2 : C -> Prop) :
  agrees m m' f any -> (forall a, agrees (k a) (k' (f a)) g s2) -> agrees (bind m k) (bind m' k') g s2.
Proof. intros H1 H2. eapply agrees_bind; [done..|]. done. Qed.

Lemma agrees_assert {A B} (b : bool) (k : M sh A) (k' : M nat B) f side :
  (b = true -> agrees k k' f side) -> agrees (assert b ;;; k) k' f side.
Proof. intros H. destruct b; [by apply H|]. split; intros st a st' [=]. Qed.

(** An error that is reported on the way, where sh.c says nothing or panics. *)
Lemma agrees_report {A B} (b : bool) msg (k : M sh A) (k' : M nat B) f side :
  agrees k k' f side -> agrees ((if b then error msg else ret tt) ;;; k) k' f side.
Proof.
  intros [K H]. destruct b; [|done]. split; intros st a st' E He.
  - specialize (K _ _ _ E He). cbn in K. by destruct (sh_errors st).
  - exfalso. specialize (K _ _ _ E He). cbn in K. by destruct (sh_errors st).
Qed.

Lemma agrees_panic {A B} (b : bool) msg msg' (k : M sh A) (k' : M nat B) f side :
  agrees k k' f side -> agrees ((if b then error msg else ret tt) ;;; k) (if b then panic msg' else k') f side.
Proof.
  intros [K H]. destruct b; [|done]. split; intros st a st' E He.
  - specialize (K _ _ _ E He). cbn in K. by destruct (sh_errors st).
  - exfalso. specialize (K _ _ _ E He). cbn in K. by destruct (sh_errors st).
Qed.

Lemma scan_token_at s : scan line s = token_at line s.
Proof. unfold scan, token_at. destruct (Z.eqb_spec (ch line s) 0) as [->|]; [done|]. case_match; [done|]. by destruct (Z.eqb_spec (ch line s) 62) as [->|]. Qed.

Lemma agrees_token : agrees (get_token line) (gettoken line) (fun x => x) any.
Proof.
  split; intros st a st'; unfold get_token, gettoken, get, set_pos, modify, ret, bind; rewrite ?scan_token_at;
    destruct (token_at line _) as [k e]; by intros [= <- <-].
Qed.

Lemma agrees_peek D : agrees (Simplesh.peek line D) (peek line D) (fun x => x) any.
Proof. split; intros st a st' [= <- <-]; done. Qed.

Lemma agrees_redirs fuel : forall rs, agrees (parse_redr line fuel rs) (parseredirs line fuel (xredir <$> rs)) (fmap xredir) any.
Proof.
  induction fuel as [|fuel IH]; intros rs; [by split; intros ? ? ? [=]|]. cbn [parse_redr parseredirs].
  apply (agrees_bind_any _ _ _ _ _ _ _ (agrees_peek _)). intros [|]; [|apply agrees_ret].
  apply (agrees_bind_any _ _ _ _ _ _ _ agrees_token). intros [k sp]. apply agrees_assert. intros Hk.
  apply (agrees_bind_any _ _ _ _ _ _ _ agrees_token). intros [a file]. rewrite (Z.eqb_sym 97). apply agrees_panic.
  match goal with |- agrees _ (parseredirs _ _ ?l) _ _ => replace l with (xredir <$> rs ++ [
    if k =? 60 then mk_redr file Simplesh.O_RDONLY 0 0
    else if k =? 62 then mk_redr file (Z.lor O_RDWR (Z.lor O_CREAT O_TRUNC)) S_IRWXU 1
    else mk_redr file (Z.lor O_RDWR (Z.lor O_CREAT O_APPEND)) S_IRWXU 1 ]); [apply IH|] end.
  rewrite fmap_app. destruct (k =? 60); [done|]. destruct (k =? 62); [done|]. cbn in Hk. by rewrite Hk.
Qed.

Lemma erase_redrcmds c rs : erase (redrcmds c rs) = redircmds (erase c) (xredir <$> rs).
Proof. unfold redrcmds, redircmds. revert c. induction rs as [|r rs IH]; intros c; [done|]. cbn. by rewrite IH. Qed.

Lemma few_redrcmds c rs : few (redrcmds c rs) = few c.
Proof. unfold redrcmds. revert c. induction rs as [|r rs IH]; intros c; [done|]. cbn. by rewrite IH. Qed.

Lemma exec_loop_grows fuel : forall args rs st c st', exec_loop line fuel args rs st = Ok c st' -> few c = true -> (length args < MAXARGS)%nat.
Proof.
  induction fuel as [|fuel IH]; intros args rs st c st' E Hf; [done|]. cbn [exec_loop] in E.
  assert (D : few (redrcmds (Simplesh.EXEC args) rs) = true -> (length args < MAXARGS)%nat) by (rewrite few_redrcmds; apply Nat.ltb_lt).
  apply bind_ok_inv in E as ([] & st1 & _ & E); [injection E as <- <-; auto|].
  apply bind_ok_inv in E as ([tok arg] & st2 & _ & E). destruct (tok =? 0); [injection E as <- <-; auto|].
  apply bind_ok_inv in E as ([] & st3 & _ & E). destruct (MAX_ARGS <=? _)%nat; [done|].
  apply bind_ok_inv in E as (rs' & st4 & _ & E). apply IH in E; [|done]. rewrite length_app in E. cbn in E. lia.
Qed.

Notation small := (fun c => few c = true).

Lemma agrees_args fuel : forall args rs, agrees (exec_loop line fuel args rs) (exec_args line fuel args (xredir <$> rs)) erase small.
Proof.
  induction fuel as [|fuel IH]; intros args rs; [by split; intros ? ? ? [=]|]. cbn [exec_loop exec_args].
  assert (HR : agrees (ret (redrcmds (Simplesh.EXEC args) rs)) (ret (redircmds (EXEC args) (xredir <$> rs))) erase small).
  { change (EXEC args) with (erase (Simplesh.EXEC args)). rewrite <- erase_redrcmds. apply agrees_ret. }
  apply (agrees_bind_any _ _ _ _ _ _ _ (agrees_peek _)). intros [|]; [done|].
  apply (agrees_bind_any _ _ _ _ _ _ _ agrees_token). intros [tok arg]. destruct (tok =? 0); [done|]. apply agrees_panic.
  destruct (Nat.leb_spec MAX_ARGS (length (args ++ [arg]))); [by split; intros ? ? ? [=]|].
  assert (HB : agrees (let! rs := parse_redr line (turns line) rs in exec_loop line fuel (args ++ [arg]) rs)
    (let! rs := parseredirs line (turns line) (xredir <$> rs) in exec_args line fuel (args ++ [arg]) rs) erase small)
    by (apply (agrees_bind_any _ _ _ _ _ _ _ (agrees_redirs _ _)); intros rs'; apply IH).
  destruct (Nat.leb_spec MAXARGS (length (args ++ [arg]))) as [HM|HM]; [|done].
  split; [apply HB|]. intros st c st' (rs' & st1 & _ & E)%bind_ok_inv _ Hs. apply exec_loop_grows in E; [lia|done].
Qed.

Lemma agrees_backs fuel : forall c, agrees (back_loop line fuel c) (backs line fuel (erase c)) erase any.
Proof.
  induction fuel as [|fuel IH]; intros c; [by split; intros ? ? ? [=]|]. cbn [back_loop backs].
  apply (agrees_bind_any _ _ _ _ _ _ _ (agrees_peek _)). intros [|]; [|apply agrees_ret].
  apply (agrees_bind_any _ _ _ _ _ _ _ agrees_token). intros [k sp]. apply agrees_assert. intros _. apply (IH (Simplesh.BACK c)).
Qed.

Lemma back_loop_few fuel : forall c st c' st', back_loop line fuel c st = Ok c' st' -> few c' = few c.
Proof.
  induction fuel as [|fuel IH]; intros c st c' st' E; [done|]. cbn [back_loop] in E.
  apply bind_ok_inv in E as ([] & st1 & _ & E); [|by injection E as <- <-].
  apply bind_ok_inv in E as ([k sp] & st2 & _ & E). apply bind_ok_inv in E as ([] & st3 & _ & E). by apply IH in E.
Qed.

(** A [let!] of a part of the command: the whole has few arguments if the part has. *)
Lemma agrees_part {A} (m : M sh Simplesh.cmd) (m' : M nat cmd) (k : Simplesh.cmd -> M sh A) (k' : cmd -> M nat cmd) g (s2 : A -> Prop) :
  agrees m m' erase small -> (forall c, agrees (k c) (k' (erase c)) g s2) ->
  (forall c st b st', k c st = Ok b st' -> s2 b -> few c = true) -> agrees (bind m k) (bind m' k') g s2.
Proof. apply agrees_bind. Qed.

Lemma agrees_parse fuel :
  agrees (parse_line line fuel) (parseline line fuel) erase small /\ agrees (parse_pipe line fuel) (parsepipe line fuel) erase small /\
  agrees (parse_exec line fuel) (parseexec line fuel) erase small /\ agrees (parse_subs line fuel) (parseblock line fuel) erase small.
Proof.
  induction fuel as [|fuel (IHl & IHp & IHe & IHs)]; [by split; [|split; [|split]]; split; intros ? ? ? [=]|].
  split; [|split; [|split]].
  - cbn [parse_line parseline]. apply (agrees_part _ _ _ _ _ _ IHp).
    + intros c. apply (agrees_bind_any _ _ _ _ _ _ _ (agrees_backs _ _)). intros c'.
      apply (agrees_bind_any _ _ _ _ _ _ _ (agrees_peek _)). intros [|]; [|apply agrees_ret]. apply agrees_report.
      apply (agrees_bind_any _ _ _ _ _ _ _ agrees_token). intros [k sp]. apply agrees_assert. intros _.
      apply (agrees_part _ _ _ _ _ _ IHl); [intros r; apply (agrees_ret (Simplesh.LIST c' r) erase)|].
      intros r st b st' [= <- <-]. cbn. by intros [_ ?]%andb_true_iff.
    + intros c st b st' E Hb. apply bind_ok_inv in E as (c' & st1 & Ec & E). apply back_loop_few in Ec. rewrite <- Ec.
      apply bind_ok_inv in E as ([] & st2 & _ & E); [|by injection E as <- <-].
      apply bind_ok_inv in E as ([] & st3 & _ & E). apply bind_ok_inv in E as ([k sp] & st4 & _ & E). apply bind_ok_inv in E as ([] & st5 & _ & E).
      apply bind_ok_inv in E as (r & st6 & _ & E). injection E as <- <-. cbn in Hb. by apply andb_true_iff in Hb as [? _].
  - cbn [parse_pipe parsepipe]. apply (agrees_part _ _ _ _ _ _ IHe).
    + intros c. apply (agrees_bind_any _ _ _ _ _ _ _ (agrees_peek _)). intros [|]; [|apply agrees_ret]. apply agrees_report.
      apply (agrees_bind_any _ _ _ _ _ _ _ agrees_token). intros [k sp]. apply agrees_assert. intros _.
      apply (agrees_part _ _ _ _ _ _ IHp); [intros r; apply (agrees_ret (Simplesh.PIPE c r) erase)|].
      intros r st b st' [= <- <-]. cbn. by intros [_ ?]%andb_true_iff.
    + intros c st b st' E Hb. apply bind_ok_inv in E as ([] & st1 & _ & E); [|by injection E as <- <-].
      apply bind_ok_inv in E as ([] & st2 & _ & E). apply bind_ok_inv in E as ([k sp] & st3 & _ & E). apply bind_ok_inv in E as ([] & st4 & _ & E).
      apply bind_ok_inv in E as (r & st5 & _ & E). injection E as <- <-. cbn in Hb. by apply andb_true_iff in Hb as [? _].
  - cbn [parse_exec parseexec]. apply (agrees_bind_any _ _ _ _ _ _ _ (agrees_peek _)). intros [|]; [done|].
    apply (agrees_bind_any _ _ _ _ _ _ _ (agrees_redirs _ [])). intros rs. apply agrees_args.
  - cbn [parse_subs parseblock]. apply (agrees_bind_any _ _ _ _ _ _ _ (agrees_peek _)). intros b. apply agrees_panic.
    apply (agrees_bind_any _ _ _ _ _ _ _ agrees_token). intros [k sp]. apply agrees_assert. intros _. apply (agrees_part _ _ _ _ _ _ IHl).
    + intros c. apply (agrees_bind_any _ _ _ _ _ _ _ (agrees_peek _)). intros b'. apply agrees_panic.
      apply (agrees_bind_any _ _ _ _ _ _ _ agrees_token). intros [k' sp']. apply agrees_assert. intros _.
      apply (agrees_bind_any _ _ _ _ _ _ _ (agrees_redirs _ [])). intros rs. change (erase c) with (erase (Simplesh.SUBS c)). rewrite <- erase_redrcmds. apply (agrees_ret _ erase).
    + intros c st b' st' E Hb. apply bind_ok_inv in E as (b1 & st1 & _ & E).
      apply bind_ok_inv in E as ([] & st2 & _ & E). apply bind_ok_inv in E as ([k' sp'] & st3 & _ & E). apply bind_ok_inv in E as ([] & st4 & _ & E).
      apply bind_ok_inv in E as (r & st5 & _ & E). injection E as <- <-. by rewrite few_redrcmds in Hb.
Qed.

Lemma parsecmd_agrees c st : parse line = Ok c st -> sh_errors st = [] -> few c = true -> parse_all line = Ok (erase c) (sh_pos st).
Proof.
  intros E He Hf. assert (HA : agrees (parse_cmd line) (parsecmd line) erase small).
  { unfold parse_cmd, parsecmd. apply (agrees_part _ _ _ _ _ _ (proj1 (agrees_parse (parse_fuel line)))).
    - intros c'. apply (agrees_bind_any _ _ _ _ _ _ _ (agrees_peek _)). intros _. split.
      + intros st1 a st2. unfold get, bind. by destruct (negb _); intros [= <- <-].
      + intros st1 a st2. unfold get, bind. by destruct (negb _); intros [= <- <-].
    - intros c' st1 b st2 E1 Hb. apply bind_ok_inv in E1 as (x & st3 & _ & E1). apply bind_ok_inv in E1 as (y & st4 & _ & E1).
      apply bind_ok_inv in E1 as ([] & st5 & _ & E1). by injection E1 as <- <-. }
  exact (proj2 HA (mk_sh 0 []) c st E He Hf).
Qed.

End Agree.

(** ** Ending *)

(** Redirections of descriptors 0 and 1 only. *)
Fixpoint std_redirs (c : cmd) : bool :=
  match c with
  | EXEC _ => true
  | REDIR c _ _ fd => std_redirs c && ((fd =? 0) || (fd =? 1))
  | PIPE l r | LIST l r => std_redirs l && std_redirs r
  | BACK c => std_redirs c
  end.
Definition std_redir (r : redir) : Prop := r_fd r = 0 \/ r_fd r = 1.

Lemma std_redircmds c rs : std_redirs c = true -> Forall std_redir rs -> std_redirs (redircmds c rs) = true.
Proof.
  unfold redircmds. revert c. induction rs as [|r rs IH]; intros c Hc Hr; [done|]. apply Forall_cons in Hr as [[Hr|Hr] Hrs]; apply IH; [|done| |done]; cbn; by rewrite Hc, Hr.
Qed.

(** [m] returns a result of [Q], or panics. *)
Definition halts {A} (m : M nat A) (Q : A -> nat -> Prop) (s : nat) : Prop :=
  match m s with Ok a s' => Q a s' | Panic _ => True | _ => False end.

Lemma halts_ret {A} (a : A) (Q : A -> nat -> Prop) s : Q a s -> halts (ret a) Q s.
Proof. done. Qed.

Lemma halts_bind {A B} (m : M nat A) (f : A -> M nat B) (Q : B -> nat -> Prop) s : halts m (fun a s' => halts (f a) Q s') s -> halts (bind m f) Q s.
Proof. unfold halts, bind. by destruct (m s). Qed.

Lemma halts_mono {A} (m : M nat A) (P Q : A -> nat -> Prop) s : halts m P s -> (forall a s', P a s' -> Q a s') -> halts m Q s.
Proof. unfold halts. destruct (m s); naive_solver. Qed.

Section Ends.
Context (line : list Z) (Hline : Forall (fun c => c <> 0) line).

Notation len := (length line).

(** The pointer does not go back, nor past the end of the line. *)
Definition onward {A} (s : nat) (a : A) (s' : nat) : Prop := (s <= s' <= len)%nat.

(** And the redirections are of standard input and output. *)
Definition redirs (rs : list redir) (s : nat) (a : list redir) (s' : nat) : Prop := onward s a s' /\ (Forall std_redir rs -> Forall std_redir a).
Definition command (s : nat) (c : cmd) (s' : nat) : Prop := onward s c s' /\ std_redirs c = true.

Lemma gettoken_ends s : (s <= len)%nat ->
  halts (gettoken line) (fun a s' => onward s a s' /\ (a.1 <> 0 \/ (at_token line s /\ (s < len)%nat) -> (s < s')%nat)) s.
Proof.
  intros Hs. unfold halts, gettoken, get, modify, ret, bind. destruct (skip_at_token line s Hs) as [Ha Hb].
  pose proof (skip_idem line s) as Hi. set (q := skip line is_space s) in *. rewrite scan_token_at. pose proof (token_at_spec line Hline q Ha) as Ht.
  destruct (token_at line q) as [k e]. destruct Ht as (A & B & C & _). destruct (skip_at_token line e ltac:(lia)) as [[Hc _] Hb']. unfold onward. cbn [fst].
  split; [lia|]. intros [Hk|[Ht Hlt]]; [specialize (C Hk); lia|]. specialize (Hi Ht).
  destruct (decide (k = 0)) as [->|Hk]; [|specialize (C Hk); lia]. assert (q = len) by tauto. lia.
Qed.

Lemma peek_ends' D s : (s <= len)%nat ->
  halts (peek line D) (fun b s' => onward s b s' /\ (b = true -> at_token line s' /\ (s' < len)%nat)) s.
Proof.
  intros Hs. unfold halts, peek, get, modify, ret, bind. destruct (skip_at_token line s Hs) as [Ha Hb]. set (q := skip line is_space s) in *.
  split; [destruct Ha; unfold onward; lia|]. intros Hq. split; [done|]. apply andb_true_iff in Hq as [Hz _]. apply negb_true_iff, Z.eqb_neq in Hz.
  destruct (decide (q < len)%nat); [done|]. destruct Hz. apply (ch_end line Hline). lia.
Qed.

Ltac ends_step L := apply halts_bind; eapply halts_mono; [apply L|cbv beta].
Ltac onward_lia := unfold redirs, command, onward in *; try apply halts_ret; cbv beta; lia.

(** [peek] of something that is there, and the [gettoken] that takes it. *)
Lemma took_ends D s {A} (yes no : M nat A) Q : (s <= len)%nat ->
  (forall s', (s < s' <= len)%nat -> halts yes Q s') -> (forall s', (s <= s' <= len)%nat -> halts no Q s') ->
  halts (let! b := peek line D in if b : bool then let! _ := gettoken line in yes else no) Q s.
Proof.
  intros Hs Hy Hn. ends_step peek_ends'; [done|]. intros [] s1 [H1 H1']; [|apply Hn; onward_lia].
  destruct (H1' eq_refl) as [Ha Hlt]. ends_step gettoken_ends; [onward_lia|]. intros a s2 [H2 H2']. specialize (H2' (or_intror (conj Ha Hlt))). apply Hy. onward_lia.
Qed.

Lemma parseredirs_ends fuel : forall rs s, (s <= len)%nat -> (len - s < fuel)%nat -> halts (parseredirs line fuel rs) (redirs rs s) s.
Proof.
  induction fuel as [|fuel IH]; intros rs s Hs Hf; [lia|]. cbn [parseredirs].
  ends_step peek_ends'; [done|]. intros [] s1 [H1 H1']; [|by split]. destruct (H1' eq_refl) as [Ha Hlt].
  ends_step gettoken_ends; [onward_lia|]. intros [k sp] s2 [H2 H2']. specialize (H2' (or_intror (conj Ha Hlt))).
  ends_step gettoken_ends; [onward_lia|]. intros [k' sp'] s3 [H3 _]. destruct (negb _); [done|].
  eapply halts_mono; [apply IH; onward_lia|]. intros a s4 [H4 H4']. split; [onward_lia|]. intros Hr. apply H4'.
  destruct (k =? 60); [|destruct (k =? 62); [|destruct (k =? 43); [|done]]]; apply Forall_app; (split; [done|]); apply Forall_singleton; unfold std_redir; cbn; tauto.
Qed.

Lemma exec_args_ends fuel : forall args rs s, (s <= len)%nat -> (len - s < fuel)%nat -> Forall std_redir rs ->
  halts (exec_args line fuel args rs) (command s) s.
Proof.
  induction fuel as [|fuel IH]; intros args rs s Hs Hf Hr; [lia|]. cbn [exec_args].
  ends_step peek_ends'; [done|]. intros [] s1 [H1 _]; [split; [done|by apply std_redircmds]|].
  ends_step gettoken_ends; [onward_lia|]. intros [k sp] s2 [H2 H2'].
  destruct (Z.eqb_spec k 0) as [->|Hk]; [split; [onward_lia|by apply std_redircmds]|].
  specialize (H2' (or_introl Hk)). destruct (negb _); [done|]. destruct (_ <=? _)%nat; [done|].
  ends_step (parseredirs_ends (turns line)); [onward_lia|unfold turns; onward_lia|]. intros rs' s3 [H3 H3'].
  eapply halts_mono; [apply IH; [onward_lia|onward_lia|auto]|]. intros a s4 [H4 H4']. split; [onward_lia|done].
Qed.

Lemma backs_ends fuel : forall c s, (s <= len)%nat -> (len - s < fuel)%nat -> std_redirs c = true -> halts (backs line fuel c) (command s) s.
Proof.
  induction fuel as [|fuel IH]; intros c s Hs Hf Hc; [lia|]. cbn [backs]. apply took_ends; [done| |intros s' H'; by split; [onward_lia|]].
  intros s' H'. eapply halts_mono; [apply IH; [lia|lia|done]|]. intros a s4 [H4 H4']. split; [onward_lia|done].
Qed.

Lemma parse_all_ends fuel :
  (forall s, (s <= len)%nat -> (4 * (len - s) + 4 <= fuel)%nat -> halts (parseline line fuel) (command s) s) /\
  (forall s, (s <= len)%nat -> (4 * (len - s) + 3 <= fuel)%nat -> halts (parsepipe line fuel) (command s) s) /\
  (forall s, (s <= len)%nat -> (4 * (len - s) + 2 <= fuel)%nat -> halts (parseexec line fuel) (command s) s) /\
  (forall s, (s <= len)%nat -> (4 * (len - s) + 1 <= fuel)%nat -> halts (parseblock line fuel) (command s) s).
Proof.
  induction fuel as [|fuel (IHl & IHp & IHe & IHs)]; [split; [|split; [|split]]; intros; lia|].
  split; [|split; [|split]]; intros s Hs Hf.
  - cbn [parseline]. ends_step IHp; [lia|lia|]. intros c s1 [H1 X1]. ends_step (backs_ends (turns line)); [onward_lia|unfold turns; onward_lia|done|].
    intros c' s2 [H2 X2]. apply took_ends; [onward_lia| |intros s' H'; by split; [onward_lia|]]. intros s3 H3.
    ends_step IHl; [onward_lia|onward_lia|]. intros r s4 [H4 X4]. split; [onward_lia|]. cbn. by rewrite X2, X4.
  - cbn [parsepipe]. ends_step IHe; [lia|lia|]. intros c s1 [H1 X1].
    apply took_ends; [onward_lia| |intros s' H'; by split; [onward_lia|]]. intros s3 H3.
    ends_step IHp; [onward_lia|onward_lia|]. intros r s4 [H4 X4]. split; [onward_lia|]. cbn. by rewrite X1, X4.
  - cbn [parseexec]. ends_step peek_ends'; [lia|]. intros [] s1 [H1 _].
    + eapply halts_mono; [apply IHs; onward_lia|]. intros a s2 [H2 X2]. split; [onward_lia|done].
    + ends_step (parseredirs_ends (turns line)); [onward_lia|unfold turns; onward_lia|]. intros rs s2 [H2 X2].
      eapply halts_mono; [apply (exec_args_ends (turns line)); [onward_lia|unfold turns; onward_lia|by apply X2]|]. intros a s3 [H3 X3]. split; [onward_lia|done].
  - cbn [parseblock]. ends_step peek_ends'; [lia|]. intros [] s1 [H1 H1']; [|done]. destruct (H1' eq_refl) as [Ha Hlt]. cbn [negb].
    ends_step gettoken_ends; [onward_lia|]. intros k s2 [H2 H2']. specialize (H2' (or_intror (conj Ha Hlt))).
    ends_step IHl; [onward_lia|onward_lia|]. intros c s3 [H3 X3]. ends_step peek_ends'; [onward_lia|]. intros [] s4 [H4 _]; [|done]. cbn [negb].
    ends_step gettoken_ends; [onward_lia|]. intros k5 s5 [H5 _]. ends_step (parseredirs_ends (turns line)); [onward_lia|unfold turns; onward_lia|].
    intros rs s6 [H6 X6]. split; [onward_lia|]. apply std_redircmds; [done|by apply X6].
Qed.

End Ends.

Lemma parse_all_whole line : Forall (fun c => c <> 0) line ->
  match parse_all line with Ok c s => s = length line /\ std_redirs c = true | Panic _ => True | _ => False end.
Proof.
  intros Hl. unfold parse_all, parsecmd. change (halts (parsecmd line) (fun c s => s = length line /\ std_redirs c = true) 0%nat). unfold parsecmd.
  apply halts_bind. eapply halts_mono; [apply (parse_all_ends line Hl (parse_fuel line)); [lia|unfold parse_fuel; lia]|]. intros c s1 [H1 X1].
  apply halts_bind. eapply halts_mono; [apply (peek_ends' line Hl); apply H1|]. intros _ s2 _.
  unfold halts, bind, get. destruct (Nat.eqb_spec s2 (length line)); done.
Qed.

(** ** The same commands *)

Lemma nulterminate_erase c : forall buf, nulterminate (erase c) buf = null_terminate c buf.
Proof.
  induction c as [argv|c IH file f m d|l IHl r IHr|l IHl r IHr|c IH|c IH]; intros buf; cbn; [done|by rewrite IH|by rewrite IHl, IHr..|done|done].
Qed.

Definition xkind (mode : Z) : rkind := if mode =? open_mode R_in then R_in else if mode =? open_mode R_out then R_out else R_append.

(** The command with its words. *)
Fixpoint xdenote (line : list Z) (c : cmd) : scmd :=
  match c with
  | EXEC argv => S_exec (text line <$> argv)
  | REDIR c file mode _ => S_redr (xdenote line c) (xkind mode) (text line file)
  | PIPE l r => S_pipe (xdenote line l) (xdenote line r)
  | LIST l r => S_list (xdenote line l) (xdenote line r)
  | BACK c => S_back (xdenote line c)
  end.

(** What these shells make of a command: parentheses only group, and [>>] is [>] where the modes are the same. *)
Fixpoint plain (c : scmd) : scmd :=
  match c with
  | S_exec args => S_exec args
  | S_redr c k file => S_redr (plain c) (xkind (open_mode k)) file
  | S_pipe l r => S_pipe (plain l) (plain r)
  | S_list l r => S_list (plain l) (plain r)
  | S_back c => S_back (plain c)
  | S_subs c => plain c
  end.

Fixpoint sfew (c : scmd) : bool :=
  match c with
  | S_exec args => (length args <? MAXARGS)%nat
  | S_redr c _ _ | S_back c | S_subs c => sfew c
  | S_pipe l r | S_list l r => sfew l && sfew r
  end.

Lemma few_denote line c : few c = sfew (denote line c).
Proof. induction c; cbn; rewrite ?length_fmap; congruence. Qed.

Lemma xdenote_erase line c : xdenote line (erase c) = plain (denote line c).
Proof.
  induction c as [argv|c IH file f m d|l IHl r IHr|l IHl r IHr|c IH|c IH]; cbn; [done| |congruence..]. by rewrite IH.
Qed.

Lemma parse_all_show c : grammar Lline c -> sfew c = true ->
  exists c', parse_all (show c) = Ok c' (length (show c)) /\ xdenote (show c) c' = plain c.
Proof.
  intros Hg Hf. destruct (parse_reads c Hg) as (c1 & st & E & He & Hd).
  assert (Hc : few c1 = true) by (by rewrite (few_denote (show c)), Hd).
  pose proof (parsecmd_agrees _ _ _ E He Hc) as HX. exists (erase c1). split; [|by rewrite xdenote_erase, Hd].
  pose proof (parse_all_whole (show c) (join_nonzero _ (toks_valid c _ Hg))) as HW. rewrite HX in *. by rewrite (proj1 HW).
Qed.

End Any.

(** ** sh.c *)

#[local] Existing Instance xv6.

(** the parser of sh.c ends on every line: it returns a command, having read the whole
    line, or it panics; it never loops, whatever the nesting. *)
Theorem parsecmd_terminates line : Forall (fun c => c <> 0) line ->
  match parse_xv6 line with Ok _ s => s = length line | Panic _ => True | _ => False end.
Proof. intros Hl. pose proof (parse_all_whole line Hl). unfold parse_xv6. destruct (parse_all line); tauto. Qed.

(** C26: the two shells agree: where simplesh reads a line without reporting an error and no
    command has more than nine arguments, sh.c finds the same command, with the same words,
    but for the structures of parentheses and the modes of the files it opens, and ends
    the words in the same places. *)
Theorem shells_agree line c st buf : parse line = Ok c st -> sh_errors st = [] -> few c = true ->
  parse_xv6 line = Ok (erase c) (sh_pos st) /\ nulterminate (erase c) buf = null_terminate c buf.
Proof. intros E He Hf. split; [by apply parsecmd_agrees|apply nulterminate_erase]. Qed.

(** the parser of sh.c reads back every command of the language with at most nine
    arguments in each simple command, written out with spaces: the same words, redirections,
    pipes, lists and background commands, with parentheses only grouping and [>>] read as [>]. *)
Theorem parse_xv6_show c : grammar Lline c -> sfew c = true ->
  exists c', parse_xv6 (show c) = Ok c' (length (show c)) /\ xdenote (show c) c' = plain c.
Proof. apply parse_all_show. Qed.

(** ** Witnesses *)

Lemma parsecmd_terminates_witness :
  match parse_xv6 (chars "((a|b;c&) > x") with Ok _ s => s = 13%nat | Panic _ => True | _ => False end.
Proof. apply (parsecmd_terminates (chars "((a|b;c&) > x")). by_decide. Defined.

Example xv6_panics : parse_xv6 (chars "cat <") = Panic "missing file for redirection" /\ parse_xv6 (chars "(a") = Panic "syntax - missing )" /\
  parse_xv6 (chars "a)") = Panic "syntax" /\ parse_xv6 (chars "1 2 3 4 5 6 7 8 9 10") = Panic "too many args".
Proof. by repeat split. Qed.

Lemma shells_agree_witness : exists c st,
  parse (chars "(cat <in|wc -l) >> out &") = Ok c st /\ sh_errors st = [] /\ few c = true /\
  parse_xv6 (chars "(cat <in|wc -l) >> out &") = Ok (erase c) (sh_pos st).
Proof.
  eexists _, _. split; [vm_compute; reflexivity|]. split; [done|]. split; [done|].
  eapply (shells_agree (chars "(cat <in|wc -l) >> out &") _ _ []); [vm_compute; reflexivity|done|done].
Defined.

Lemma parse_xv6_show_witness :
  let c := S_list (S_back (S_pipe (S_redr (S_exec [chars "sort"]) R_in (chars "in")) (S_exec [chars "wc"]))) (S_redr (S_subs (S_exec [chars "ls"])) R_append (chars "out")) in
  exists c', parse_xv6 (show c) = Ok c' (length (show c)) /\ xdenote (show c) c' = plain c.
Proof.
  apply parse_xv6_show; [|done].
  assert (Hw : forall s, bool_decide (s <> [] /\ Forall (fun c => is_word c = true) s) = true -> word s)
    by (intros s H; by apply bool_decide_eq_true in H).
  cbn -[chars]. repeat first [apply Hw; reflexivity|reflexivity|discriminate|by left|by right|progress cbn; lia|constructor].
Defined.
