(* ===== verification/Xshrun.v ===== *)
(** * Xshrun: running commands in the xv6 shell (runcmd and main of sh.c)

    A process has its descriptors and the children it has not waited for.  As in [Shrun],
    [fork] runs the child's branch to its end and then the parent's.  What is kept of the
    world is the programs executed, each with its descriptors, the directories changed to,
    and how many children exiting processes left behind.  Which [fork]s, [pipe]s, [open]s,
    [exec]s and [chdir]s succeed is a parameter.  Messages to descriptor 2 are left out. *)

From S2P Require Import Prelude Simplesh Shparse Shrun Xsh.

Module Xv.

Record process : Type := mk_process { fds : gmap nat fobj; children : list Z }.

Definition set_fds (v : gmap nat fobj) (p : process) := mk_process v (children p).
Definition set_children (v : list Z) (p : process) := mk_process (fds p) v.

Inductive event : Type :=
| Exec (argv : list (list Z)) (at_exec : gmap nat fobj)
| Chdir (path : list Z)
| Kill (pid : Z).

Record world : Type := mk_world { next_pid : Z; next_pipe : nat; events : list event; orphans : nat }.

Definition emit (e : event) (w : world) : world := mk_world (next_pid w) (next_pipe w) (events w ++ [e]) (orphans w).

(** A process that goes on, one that ended, and a loop cut short. *)
Inductive fate (A : Type) : Type := Goes (a : A) (p : process) | Ended | Stuck.
Arguments Goes {A}.
Arguments Ended {A}.
Arguments Stuck {A}.

Definition X (A : Type) : Type := process -> world -> fate A * world.

Definition xret {A} (a : A) : X A := fun p w => (Goes a p, w).
Definition xbind {A B} (m : X A) (f : A -> X B) : X B := fun p w =>
  match m p w with
  | (Goes a p', w') => f a p' w'
  | (Ended, w') => (Ended, w')
  | (Stuck, w') => (Stuck, w')
  end.

End Xv.
Import Xv.

Declare Scope xv6_scope.
Notation "'do!' x ':=' m 'in' k" := (xbind m (fun x => k)) (at level 10, x name, m at level 100, k at level 200) : xv6_scope.
Notation "m1 ;;! m2" := (xbind m1 (fun _ => m2)) (at level 199, right associativity) : xv6_scope.
#[local] Open Scope xv6_scope.

(** ** System calls *)

Section System.
Context (fork_ok : Z -> bool) (pipe_ok : nat -> bool) (open_ok : list Z -> Z -> bool) (exec_ok : list (list Z) -> bool) (chdir_ok : list Z -> bool).

Definition exit {A} : X A := fun p w =>
  (Ended, mk_world (next_pid w) (next_pipe w) (events w) (orphans w + length (children p))).

Definition close (fd : nat) : X unit := fun p w => (Goes tt (set_fds (delete fd (fds p)) p), w).

Definition install (o : fobj) : X Z := fun p w =>
  let fd := lowest_free (fds p) in (Goes (Z.of_nat fd) (set_fds (<[fd := o]> (fds p)) p), w).

Definition open (file : list Z) (mode perm : Z) : X Z :=
  if open_ok file mode then install (Opened file mode perm) else xret (-1).

Definition dup (fd : nat) : X Z := fun p w =>
  match fds p !! fd with
  | Some o => install o p w
  | None => (Goes (-1) p, w)
  end.

(** [pipe(p)]: the two descriptors, or nothing. *)
Definition pipe : X (option (nat * nat)) := fun p w =>
  let n := next_pipe w in
  let w' := mk_world (next_pid w) (S n) (events w) (orphans w) in
  if pipe_ok n
  then (do! p0 := install (Pipe_read n) in do! p1 := install (Pipe_write n) in xret (Some (Z.to_nat p0, Z.to_nat p1))) p w'
  else (Goes None p, w').

(** [exec] does not return when it succeeds. *)
Definition exec (argv : list (list Z)) : X unit := fun p w =>
  if exec_ok argv then (Ended, emit (Exec argv (fds p)) w) else (Goes tt p, w).

Definition chdir (path : list Z) : X bool := fun p w =>
  if chdir_ok path then (Goes true p, emit (Chdir path) w) else (Goes false p, w).

(** [wait]: one of the children, or an error when there is none. *)
Definition wait : X Z := fun p w =>
  match children p with
  | [] => (Goes (-1) p, w)
  | pid :: cs => (Goes pid (set_children cs p), w)
  end.

(** ** sh.c *)

Definition panic : X unit := exit.

(** [fork1], with what both processes do after it.  A child that comes back from what
    follows would be a second shell: the model stops there. *)
Definition fork1 (k : Z -> X unit) : X unit := fun p w =>
  let pid := next_pid w in
  let w1 := mk_world (pid + 1) (next_pipe w) (events w) (orphans w) in
  if fork_ok pid then
    match k 0 (set_children [] p) w1 with
    | (Ended, w2) => k pid (set_children (pid :: children p) p) w2
    | (_, w2) => (Stuck, w2)
    end
  else panic p w1.

(** What [EXEC] does with its arguments is a parameter, here [exec], and so are the
    permissions of a file that [open] makes, which xv6 does not have. *)
Section Run.
Context (perm : Z) (execute : list (list Z) -> X unit) (buf : list Z).

Definition args (argv : list span) : list (list Z) := (fun sp => cstring buf sp.1) <$> argv.

Fixpoint runcmd (c : Sh.cmd) : X unit :=
  match c with
  | Sh.EXEC argv =>
      match argv with
      | [] => exit
      | _ :: _ => execute (args argv) ;;! exit
      end
  | Sh.REDIR c' file mode fd =>
      close (Z.to_nat fd) ;;!
      do! r := open (cstring buf file.1) mode perm in
      if r <? 0 then exit else runcmd c' ;;! exit
  | Sh.LIST l r =>
      fork1 (fun pid =>
        (if pid =? 0 then runcmd l else xret tt) ;;!
        wait ;;! runcmd r ;;! exit)
  | Sh.PIPE l r =>
      do! o := pipe in
      match o with
      | None => panic
      | Some p =>
          fork1 (fun pid =>
            (if pid =? 0 then
               close 1 ;;! dup (snd p) ;;! close (fst p) ;;! close (snd p) ;;! runcmd l
             else xret tt) ;;!
            fork1 (fun pid =>
              (if pid =? 0 then
                 close 0 ;;! dup (fst p) ;;! close (fst p) ;;! close (snd p) ;;! runcmd r
               else xret tt) ;;!
              close (fst p) ;;! close (snd p) ;;! wait ;;! wait ;;! exit))
      end
  | Sh.BACK c' => fork1 (fun pid => (if pid =? 0 then runcmd c' else xret tt) ;;! exit)
  end.

End Run.

(** [gets(buf, nbuf)] of [getcmd]: [n] more characters at most, up to an end of line. *)
Fixpoint gets_line (n : nat) (input : list Z) : list Z * list Z :=
  match n, input with
  | S n', c :: input' =>
      if (c =? 10) || (c =? 13) then ([c], input')
      else let '(l, rest) := gets_line n' input' in (c :: l, rest)
  | _, _ => ([], input)
  end.

Definition nbuf : nat := 100.

(** [getcmd]: the string in [buf], or [None] for the end of the input. *)
Definition getcmd (input : list Z) : option (list Z * list Z) :=
  let '(l, rest) := gets_line (nbuf - 1) input in
  match upto_nul l with
  | [] => None
  | line => Some (line, rest)
  end.

(** [buf[0] == 'c' && buf[1] == 'd' && buf[2] == ' '] *)
Definition is_cd (line : list Z) : bool := bool_decide (take 3 line = [99; 100; 32]).

(** [parsecmd(buf)] and [runcmd] in the child. *)
Definition run_line (line : list Z) : X unit :=
  match Xsh.parse_xv6 line with
  | Ok c _ => runcmd 0 exec (Xsh.nulterminate c (line ++ [0])) c
  | _ => panic
  end.

(** The [while] of [main]; each turn reads a character. *)
Fixpoint main_loop (fuel : nat) (input : list Z) : X unit :=
  match fuel with
  | O => fun p w => (Stuck, w)
  | S fuel' =>
      match getcmd input with
      | None => exit
      | Some (line, rest) =>
          if is_cd line then
            chdir (drop 3 (removelast line)) ;;! main_loop fuel' rest
          else
            fork1 (fun pid =>
              (if pid =? 0 then run_line line else xret tt) ;;!
              wait ;;! main_loop fuel' rest)
      end
  end.

(** Three descriptors are open before anything is read. *)
Fixpoint open_console (fuel : nat) : X unit :=
  match fuel with
  | O => fun p w => (Stuck, w)
  | S fuel' =>
      do! fd := open (chars "console") 2 0 in
      if 0 <=? fd then (if 3 <=? fd then close (Z.to_nat fd) else open_console fuel') else xret tt
  end.

Definition main (input : list Z) : X unit := open_console 4 ;;! main_loop (S (length input)) input.

End System.

(** ** What a line means *)

(** What was executed, the number of the next pipe, and the processes not waited for. *)
Definition deeds : Type := list event * nat * nat.

Section Spec.
Context (fork_ok : Z -> bool) (pipe_ok : nat -> bool) (open_ok : list Z -> Z -> bool) (exec_ok : list (list Z) -> bool) (chdir_ok : list Z -> bool).
Context (Hfork : forall pid, fork_ok pid = true) (Hpipe : forall n, pipe_ok n = true).

Definition both (x : deeds) (f : nat -> deeds) : deeds :=
  let '(e1, n1, o1) := x in let '(e2, n2, o2) := f n1 in (e1 ++ e2, n2, (o1 + o2)%nat).

Fixpoint xwires (perm : Z) (buf : list Z) (c : Sh.cmd) (m : gmap nat fobj) (n : nat) : deeds :=
  match c with
  | Sh.EXEC argv => (if bool_decide (argv <> []) && exec_ok (args buf argv) then [Exec (args buf argv) m] else [], n, 0%nat)
  | Sh.REDIR c' file mode fd =>
      let file := cstring buf file.1 in
      if open_ok file mode then xwires perm buf c' (<[Z.to_nat fd := Opened file mode perm]> m) n else ([], n, 0%nat)
  | Sh.PIPE l r => both (xwires perm buf l (<[1%nat := Pipe_write n]> m) (S n)) (xwires perm buf r (<[0%nat := Pipe_read n]> m))
  | Sh.LIST l r => both (xwires perm buf l m n) (xwires perm buf r m)
  | Sh.BACK c' => both (xwires perm buf c' m n) (fun n' => ([], n', 1%nat))
  end.

Record moved (w w' : world) (x : deeds) : Prop := {
  mv_events : events w' = events w ++ x.1.1;
  mv_pipe : next_pipe w' = x.1.2;
  mv_orphans : orphans w' = (orphans w + x.2)%nat;
  mv_pid : next_pid w <= next_pid w' }.

Lemma moved_both w w1 w2 x f : moved w w1 x -> moved w1 w2 (f (next_pipe w1)) -> moved w w2 (both x f).
Proof.
  intros [A1 A2 A3 A4] [B1 B2 B3 B4]. destruct x as [[e1 n1] o1]. cbn in A2. rewrite A2 in *. unfold both. destruct (f n1) as [[e2 n2] o2]. cbn in *.
  split; cbn; [by rewrite B1, A1, app_assoc|done|lia|lia].
Qed.

(** A world with one more process. *)
Definition forked (w : world) : world := mk_world (next_pid w + 1) (next_pipe w) (events w) (orphans w).

Lemma moved_fork w w' x : moved (forked w) w' x -> moved w w' x.
Proof. intros [A B C D]. split; [done|done|done|cbn in D; lia]. Qed.

Lemma xbind_goes {A B} (m : X A) (f : A -> X B) p w a p' w' : m p w = (Goes a p', w') -> xbind m f p w = f a p' w'.
Proof. unfold xbind. by intros ->. Qed.

Lemma xbind_ended {A B} (m : X A) (f : A -> X B) p w w' : m p w = (Ended, w') -> xbind m f p w = (Ended, w').
Proof. unfold xbind. by intros ->. Qed.

(** [fork1] whose child does [child] and ends. *)
Lemma fork1_run (child : X unit) (rest : Z -> X unit) p w w2 :
  0 < next_pid w -> child (set_children [] p) (forked w) = (Ended, w2) ->
  fork1 fork_ok (fun pid => (if pid =? 0 then child else xret tt) ;;! rest pid) p w
    = rest (next_pid w) (set_children (next_pid w :: children p) p) w2.
Proof.
  intros Hw E. unfold fork1. rewrite Hfork. fold (forked w). rewrite Z.eqb_refl, (xbind_ended _ _ _ _ _ E).
  by rewrite (proj2 (Z.eqb_neq _ _)) by lia.
Qed.

Section Buf.
Context (perm : Z) (execute : list (list Z) -> X unit) (buf : list Z).

Notation run buf := (runcmd fork_ok pipe_ok open_ok perm execute buf).

Definition runs_as (c : Sh.cmd) : Prop := forall p w, std_open (fds p) -> children p = [] -> 0 < next_pid w ->
  exists w', run buf c p w = (Ended, w') /\ moved w w' (xwires perm buf c (fds p) (next_pipe w)).

Lemma exit_childless {A} p w : children p = [] -> exists w', exit (A := A) p w = (Ended, w') /\ moved w w' ([], next_pipe w, 0%nat).
Proof. intros Hc. eexists. split; [done|]. rewrite Hc. split; cbn; [by rewrite app_nil_r|done|lia|lia]. Qed.

(** What a simple command does. *)
Definition executes : Prop := forall argv p w, children p = [] ->
  exists w', (execute argv ;;! exit (A := unit)) p w = (Ended, w') /\ moved w w' (if exec_ok argv then [Exec argv (fds p)] else [], next_pipe w, 0%nat).

Context (Hexec : executes).

Lemma xrun_exec argv : runs_as (Sh.EXEC argv).
Proof.
  intros p w Hs Hc Hw. cbn [runcmd xwires]. destruct argv as [|a argv]; [by apply exit_childless|].
  rewrite bool_decide_eq_true_2 by done. by apply Hexec.
Qed.

Lemma run_redir c file mode fd : fd = 0 \/ fd = 1 -> runs_as c -> runs_as (Sh.REDIR c file mode fd).
Proof.
  intros Hfd Hc p w Hs Hch Hw. cbn [runcmd xwires]. assert (Hlt : (Z.to_nat fd < 2)%nat) by lia.
  rewrite (xbind_goes _ _ _ _ tt _ w) by done. unfold open. destruct (open_ok _ _).
  - unfold xbind at 1, install. cbn [fds set_fds]. rewrite lowest_closed by done. rewrite insert_delete_eq.
    destruct (Z.ltb_spec (Z.of_nat (Z.to_nat fd)) 0); [lia|].
    destruct (Hc (set_fds (<[Z.to_nat fd := Opened (cstring buf file.1) mode perm]> (fds p)) p) w) as (w' & E & HM); [by apply std_open_insert|done|done|].
    exists w'. split; [by apply xbind_ended|done].
  - unfold xbind at 1, xret. by apply exit_childless.
Qed.

Lemma xrun_list l r : runs_as l -> runs_as r -> runs_as (Sh.LIST l r).
Proof.
  intros Hl Hr p w Hs Hc Hw. cbn [runcmd xwires]. destruct (Hl (set_children [] p) (forked w)) as (w1 & E1 & M1); [done|done|cbn; lia|].
  rewrite (fork1_run (run buf l) (fun _ => wait ;;! run buf r ;;! exit) p w w1 Hw E1).
  rewrite (xbind_goes _ _ _ _ (next_pid w) p w1) by (unfold wait; cbn; by destruct p).
  pose proof (mv_pid _ _ _ M1) as Hp1. cbn in Hp1. destruct (Hr p w1) as (w2 & E2 & M2); [done|done|lia|].
  exists w2. split; [by apply xbind_ended|]. apply moved_fork in M1. by apply (moved_both _ w1).
Qed.

Lemma xrun_back c : runs_as c -> runs_as (Sh.BACK c).
Proof.
  intros Hc p w Hs Hch Hw. cbn [runcmd xwires]. destruct (Hc (set_children [] p) (forked w)) as (w1 & E1 & M1); [done|done|cbn; lia|].
  rewrite (fork1_run (run buf c) (fun _ => exit) p w w1 Hw E1). eexists. split; [done|]. apply moved_fork in M1. apply (moved_both _ w1); [done|].
  rewrite Hch. split; cbn; [by rewrite app_nil_r|done|lia|lia].
Qed.

(** The descriptors of a pipe. *)
Lemma xpipe_made p w : std_open (fds p) ->
  exists p0 p1, fds p !! p0 = None /\ fds p !! p1 = None /\ (2 <= p0)%nat /\ (2 <= p1)%nat /\ p0 <> p1 /\
    pipe pipe_ok p w = (Goes (Some (p0, p1)) (set_fds (<[p1 := Pipe_write (next_pipe w)]> (<[p0 := Pipe_read (next_pipe w)]> (fds p))) p),
      mk_world (next_pid w) (S (next_pipe w)) (events w) (orphans w)).
Proof.
  intros Hs. set (p0 := lowest_free (fds p)). set (m1 := <[p0 := Pipe_read (next_pipe w)]> (fds p)). set (p1 := lowest_free m1).
  assert (Hs1 : std_open m1) by (by apply std_open_insert). pose proof (lowest_free_spec m1) as F1. fold p1 in F1.
  apply lookup_insert_None in F1 as [F1 Hne]. exists p0, p1. split; [apply lowest_free_spec|]. split; [done|].
  split; [by apply lowest_not_std|]. split; [by apply lowest_not_std|]. split; [done|].
  unfold pipe. rewrite Hpipe. unfold xbind, install, xret. by rewrite !Nat2Z.id.
Qed.

(** The child of a pipe with the end [o] in the place [k]. *)
Lemma pipe_child c p w k p0 p1 from n o : runs_as c -> (k < 2)%nat -> std_open (fds p) -> children p = [] -> 0 < next_pid w ->
  fds p !! p0 = None -> fds p !! p1 = None -> (2 <= p0)%nat -> (2 <= p1)%nat -> p0 <> p1 ->
  <[p1 := Pipe_write n]> (<[p0 := Pipe_read n]> (fds p)) !! from = Some o -> from = p0 \/ from = p1 ->
  exists w', (close k ;;! dup from ;;! close p0 ;;! close p1 ;;! run buf c) (set_fds (<[p1 := Pipe_write n]> (<[p0 := Pipe_read n]> (fds p))) p) w = (Ended, w') /\
    moved w w' (xwires perm buf c (<[k := o]> (fds p)) (next_pipe w)).
Proof.
  intros Hc Hk Hs Hch Hw E0 E1 H0 H1 Hne Ho Hfrom. set (m := <[p1 := _]> _) in *. assert (Hsm : std_open m) by (by do 2 apply std_open_insert).
  rewrite (xbind_goes _ _ _ _ tt (set_fds (delete k m) p) w) by done.
  erewrite xbind_goes; [|unfold dup; cbn [fds set_fds]; rewrite lookup_delete_ne, Ho by lia; unfold install; cbn [fds set_fds]; rewrite lowest_closed by done; reflexivity].
  erewrite xbind_goes by reflexivity. erewrite xbind_goes by reflexivity. cbn [set_fds fds children]. unfold m. rewrite pipe_child_fds by done.
  destruct (Hc (mk_process (<[k := o]> (fds p)) (children p)) w) as (w' & E' & M'); [by apply std_open_insert|done|done|]. exists w'. split; [exact E'|exact M'].
Qed.

Lemma xrun_pipe l r : runs_as l -> runs_as r -> runs_as (Sh.PIPE l r).
Proof.
  intros Hl Hr p w Hs Hc Hw. cbn [runcmd xwires]. destruct (xpipe_made p w Hs) as (p0 & p1 & E0 & E1 & H0 & H1 & Hne & Ep).
  rewrite (xbind_goes _ _ _ _ _ _ _ Ep). cbn [fst snd]. set (m := <[p1 := _]> _). set (n := next_pipe w) in *. set (w0 := mk_world _ (S n) _ _).
  destruct (pipe_child l (set_children [] p) (forked w0) 1 p0 p1 p1 n (Pipe_write n)) as (w1 & X1 & M1); try done; [lia|cbn; lia|by rewrite lookup_insert_eq|by right|].
  rewrite (fork1_run (close 1 ;;! dup p1 ;;! close p0 ;;! close p1 ;;! run buf l) _ (set_fds m p) w0 w1 Hw X1).
  pose proof (mv_pid _ _ _ M1) as Hp1. cbn in Hp1.
  destruct (pipe_child r (set_children [] p) (forked w1) 0 p0 p1 p0 n (Pipe_read n)) as (w2 & X2 & M2); try done; [lia|cbn; lia|by rewrite lookup_insert_ne, lookup_insert_eq by done|by left|].
  rewrite (fork1_run (close 0 ;;! dup p0 ;;! close p0 ;;! close p1 ;;! run buf r) _ (set_children (next_pid w0 :: children (set_fds m p)) (set_fds m p)) w1 w2 ltac:(lia) X2).
  do 4 (erewrite xbind_goes by reflexivity). eexists. split; [done|]. cbn [children set_children set_fds]. rewrite Hc. cbn [length].
  apply moved_fork in M1, M2. assert (M0 : moved w w1 (xwires perm buf l (<[1%nat := Pipe_write n]> (fds p)) (S n))) by (destruct M1 as [? ? ? ?]; by split).
  pose proof (moved_both _ _ _ _ (xwires perm buf r (<[0%nat := Pipe_read n]> (fds p))) M0 M2) as [A B C D]. split; cbn; [done|done|lia|done].
Qed.

Lemma xrun_all c : Xsh.std_redirs c = true -> runs_as c.
Proof.
  induction c as [argv|c IH file mode fd|l IHl r IHr|l IHl r IHr|c IH]; cbn; intros H.
  - apply xrun_exec.
  - apply andb_true_iff in H as [H Hfd]. apply run_redir; [|auto]. apply orb_true_iff in Hfd. by rewrite !Z.eqb_eq in Hfd.
  - apply andb_true_iff in H as [Hl Hr]. apply xrun_pipe; auto.
  - apply andb_true_iff in H as [Hl Hr]. apply xrun_list; auto.
  - apply xrun_back. auto.
Qed.

End Buf.

Lemma exec_executes : executes (exec exec_ok).
Proof.
  intros argv p w Hc. unfold exec. destruct (exec_ok argv).
  - eexists. split; [by apply xbind_ended|]. split; cbn; done || lia.
  - rewrite (xbind_goes _ _ _ _ tt p w) by done. by apply exit_childless.
Qed.

(** ** The session *)

(** What a line does in its child. *)
Definition line_deeds (line : list Z) (m : gmap nat fobj) (n : nat) : deeds :=
  match Xsh.parse_xv6 line with
  | Ok c _ => xwires 0 (Xsh.nulterminate c (line ++ [0])) c m n
  | _ => ([], n, 0%nat)
  end.

(** What the lines of the input do, one after the other. *)
Fixpoint session (fuel : nat) (input : list Z) (m : gmap nat fobj) (n : nat) : deeds :=
  match fuel, getcmd input with
  | S fuel', Some (line, rest) =>
      both (if is_cd line then (let path := drop 3 (removelast line) in (if chdir_ok path then [Chdir path] else [], n, 0%nat)) else line_deeds line m n)
        (session fuel' rest m)
  | _, _ => ([], n, 0%nat)
  end.

Lemma upto_nul_nonzero l : Forall (fun c => c <> 0) (upto_nul l).
Proof. induction l as [|c l IH]; [done|]. cbn. destruct (Z.eqb_spec c 0); [done|]. by constructor. Qed.

Lemma gets_line_shorter n input : (length (gets_line n input).2 + length (gets_line n input).1 = length input)%nat.
Proof.
  revert input. induction n as [|n IH]; intros [|c input]; [done..|]. cbn [gets_line]. destruct (_ || _); [cbn; lia|].
  specialize (IH input). destruct (gets_line n input). cbn in *. lia.
Qed.

Lemma getcmd_spec input line rest : getcmd input = Some (line, rest) -> Forall (fun c => c <> 0) line /\ (length rest < length input)%nat.
Proof.
  unfold getcmd. pose proof (gets_line_shorter (nbuf - 1) input) as Hn. destruct (gets_line _ input) as [l r]. cbn in Hn.
  pose proof (upto_nul_nonzero l) as Hz. destruct l as [|c l]; [done|]. destruct (upto_nul (c :: l)) as [|x y]; [done|]. intros [= <- <-]. split; [done|]. cbn in Hn. lia.
Qed.

Lemma run_line_ends line p w : Forall (fun c => c <> 0) line -> std_open (fds p) -> children p = [] -> 0 < next_pid w ->
  exists w', run_line fork_ok pipe_ok open_ok exec_ok line p w = (Ended, w') /\ moved w w' (line_deeds line (fds p) (next_pipe w)).
Proof.
  intros Hl Hs Hc Hw. unfold run_line, line_deeds. pose proof (parse_all_whole (dia := Sh.xv6) line Hl) as HP.
  change (Xsh.parse_all (dia := Sh.xv6) line) with (Xsh.parse_xv6 line) in HP. destruct (Xsh.parse_xv6 line) as [c s| | | |]; try done; [|by apply exit_childless]. destruct HP as [_ HP]. by apply (xrun_all _ _ _ exec_executes).
Qed.

Lemma main_loop_ends fuel : forall input p w, (length input < fuel)%nat -> std_open (fds p) -> children p = [] -> 0 < next_pid w ->
  exists w', main_loop fork_ok pipe_ok open_ok exec_ok chdir_ok fuel input p w = (Ended, w') /\ moved w w' (session fuel input (fds p) (next_pipe w)).
Proof.
  induction fuel as [|fuel IH]; intros input p w HF Hs Hc Hw; [lia|]. cbn [main_loop session].
  destruct (getcmd input) as [[line rest]|] eqn:EG; [|by apply exit_childless]. destruct (getcmd_spec _ _ _ EG) as [Hl Hlen].
  destruct (is_cd line).
  - set (path := drop 3 (removelast line)). set (w1 := if chdir_ok path then emit (Chdir path) w else w).
    assert (M1 : moved w w1 (if chdir_ok path then [Chdir path] else [], next_pipe w, 0%nat)).
    { unfold w1. destruct (chdir_ok path); split; cbn; rewrite ?app_nil_r; done || lia. }
    destruct (IH rest p w1) as (w2 & E2 & M2); [lia|done|done|destruct M1; lia|]. exists w2. split; [|by apply (moved_both _ w1)].
    rewrite <- E2. unfold chdir, xbind, w1. by destruct (chdir_ok path).
  - destruct (run_line_ends line (set_children [] p) (forked w) Hl) as (w1 & E1 & M1); [done|done|cbn; lia|].
    rewrite (fork1_run (run_line fork_ok pipe_ok open_ok exec_ok line) _ p w w1 Hw E1).
    rewrite (xbind_goes _ _ _ _ (next_pid w) p w1) by (unfold wait; cbn; by destruct p). apply moved_fork in M1. pose proof (mv_pid _ _ _ M1).
    destruct (IH rest p w1) as (w2 & E2 & M2); [lia|done|done|lia|]. exists w2. split; [done|]. by apply (moved_both _ w1).
Qed.

(** *** The descriptors of the shell *)

Lemma below_lowest (m : gmap nat fobj) j : (j < lowest_free m)%nat -> is_Some (m !! j).
Proof.
  induction j as [j IH] using lt_wf_ind. intros Hj. destruct (m !! j) eqn:E; [done|].
  rewrite (lowest_eq m j E) in Hj by (intros i Hi; apply IH; lia). lia.
Qed.

(** How many of the three are not open. *)
Definition missing (m : gmap nat fobj) : nat := length (filter (fun i => m !! i = None) [0; 1; 2]%nat).

Lemma missing_insert m i o : m !! i = None -> (i < 3)%nat -> missing m = S (missing (<[i := o]> m)).
Proof.
  intros Hi Hlt. unfold missing. destruct i as [|[|[|]]]; [..|lia]; cbn; repeat case_decide; simplify_map_eq; done.
Qed.

Lemma open_console_ok fuel : (forall file mode, file = chars "console" -> open_ok file mode = true) ->
  forall p w, (missing (fds p) < fuel)%nat ->
  exists p', open_console open_ok fuel p w = (Goes tt p', w) /\ children p' = children p /\ (forall i, (i < 3)%nat -> is_Some (fds p' !! i)) /\
    (forall i, is_Some (fds p !! i) \/ (3 <= i)%nat -> fds p' !! i = fds p !! i).
Proof.
  intros Ho. induction fuel as [|fuel IH]; intros p w HF; [lia|]. cbn [open_console]. unfold open. rewrite Ho by done. unfold xbind, install.
  set (fd := lowest_free (fds p)). pose proof (lowest_free_spec (fds p)) as Hfd. fold fd in Hfd. destruct (Z.leb_spec 0 (Z.of_nat fd)); [|lia].
  destruct (Z.leb_spec 3 (Z.of_nat fd)).
  - eexists. split; [done|]. rewrite Nat2Z.id. cbn [fds set_fds children]. rewrite delete_insert_id by done. split; [done|].
    split; [|done]. intros i Hi. apply below_lowest. fold fd. lia.
  - set (p1 := set_fds _ p). assert (HM : (missing (fds p1) < fuel)%nat) by (pose proof (missing_insert (fds p) fd (Opened (chars "console") 2 0) Hfd ltac:(lia)); unfold p1, set_fds; cbn [fds]; lia).
    destruct (IH p1 w HM) as (p' & E & Hc & H3 & Hk). exists p'. split; [done|]. split; [done|]. split; [done|]. intros i Hi. rewrite Hk.
    + cbn. rewrite lookup_insert_ne; [done|]. intros <-. destruct Hi as [[? Hi]|Hi]; [congruence|lia].
    + destruct Hi as [Hi|Hi]; [left|by right]. cbn. apply lookup_insert_is_Some'. by right.
Qed.

End Spec.

(** ** Properties *)

(** C25: A session of the xv6 shell.  From any descriptors the shell gets the three standard ones,
    and leaves the others alone; then it reads the whole input, line by line, and ends.  In order, each
    [cd] changes the directory of the shell itself and every other line runs in a child
    of its own: the programs of the line are executed, each with exactly the descriptors
    its pipes and redirections give it, and no process is left that was not waited for,
    but one for each [&]. *)
Theorem main_session fork_ok pipe_ok open_ok exec_ok chdir_ok input p w :
  (forall pid, fork_ok pid = true) -> (forall n, pipe_ok n = true) -> (forall file mode, file = chars "console" -> open_ok file mode = true) ->
  children p = [] -> 0 < next_pid w ->
  exists m w', main fork_ok pipe_ok open_ok exec_ok chdir_ok input p w = (Ended, w') /\
    (forall i, (i < 3)%nat -> is_Some (m !! i)) /\ (forall i, is_Some (fds p !! i) \/ (3 <= i)%nat -> m !! i = fds p !! i) /\
    let '(did, _, behind) := session open_ok exec_ok chdir_ok (S (length input)) input m (next_pipe w) in
    events w' = events w ++ did /\ orphans w' = (orphans w + behind)%nat.
Proof.
  intros Hf Hp Ho Hc Hw. destruct (open_console_ok open_ok 4 Ho p w) as (p1 & E1 & Hc1 & H3 & Hk).
  { unfold missing. pose proof (length_filter (fun i => fds p !! i = None) [0; 1; 2]%nat). cbn in *. lia. }
  destruct (main_loop_ends fork_ok pipe_ok open_ok exec_ok chdir_ok Hf Hp (S (length input)) input p1 w) as (w' & E' & [M1 _ M3 _]); [lia|split; apply H3; lia|congruence|done|].
  exists (fds p1), w'. unfold main. rewrite (xbind_goes _ _ _ _ _ _ _ E1). split; [done|]. split; [done|]. split; [done|].
  by destruct (session _ _ _ _ _ _ _) as [[e n] o].
Qed.

(** The first of two redirections of a descriptor wins: the second file is opened, and
    then the first one takes its place. *)
Lemma first_redirection_wins open_ok exec_ok perm buf c f1 m1 f2 m2 fd m n :
  xwires open_ok exec_ok perm buf (Sh.REDIR (Sh.REDIR c f1 m1 fd) f2 m2 fd) m n =
  if open_ok (cstring buf f2.1) m2 then xwires open_ok exec_ok perm buf (Sh.REDIR c f1 m1 fd) m n else ([], n, 0%nat).
Proof. cbn [xwires]. by rewrite insert_insert_eq. Qed.

(** ** Witness *)

Definition init_process : process := mk_process (<[1%nat := Std 1]> ∅) [].
Definition shell_input : list Z := chars "cd /tmp" ++ [10] ++ chars "cat <in|wc >out" ++ [10] ++ chars "(a;b)&" ++ [10].

Lemma main_session_witness :
  let m := <[0%nat := Opened (chars "console") 2 0]> (<[2%nat := Opened (chars "console") 2 0]> (fds init_process)) in
  exists w', main (fun _ => true) (fun _ => true) (fun _ _ => true) (fun _ => true) (fun _ => true) shell_input init_process (mk_world 3 0 [] 0) = (Ended, w') /\
    events w' = [
      Chdir (chars "/tmp");
      Exec [chars "cat"] (<[0%nat := Opened (chars "in") 0 0]> (<[1%nat := Pipe_write 0]> m));
      Exec [chars "wc"] (<[1%nat := Opened (chars "out") 0x201 0]> (<[0%nat := Pipe_read 0]> m));
      Exec [chars "a"] m; Exec [chars "b"] m ] /\ orphans w' = 1%nat.
Proof.
  intros m. destruct (main_session (fun _ => true) (fun _ => true) (fun _ _ => true) (fun _ => true) (fun _ => true) shell_input init_process (mk_world 3 0 [] 0))
    as (m' & w' & E & _); [done|done|done|done|done|]. exists w'. split; [exact E|]. vm_compute in E. injection E as <-. by split; vm_compute.
Defined.
