(* ===== verification/Oldsh.v ===== *)
(** * Oldsh: the shell of the earlier course (simplesh.c of ASO16-17)

    Its parser is the one of sh.c, line by line, with room for more arguments and the files
    of [>] and [>>] opened with the modes of the host: an instance of the [Dialect] of [Xsh].
    [run_cmd] is [runcmd] of sh.c but for the commands [pwd], [tee] and [du], which run inside the
    process (what [tee] and [du] do is in [Oldcmd]).  [main] parses in the shell itself,
    looks at the first word for [exit] and [cd], and gives every other line to a child, which
    it waits for five seconds and then kills.  As in [Xshrun] the child runs to its end
    before its parent goes on; the result of [sigtimedwait] is a parameter.  The lines are
    what [readline] returns. *)

From S2P Require Import Prelude Simplesh Shparse Shround Shrun Xsh Xshrun.
Import Xv.
#[local] Open Scope xv6_scope.

Module Old.

(** [MAXARGS], and the flags of [open] in [parse_redirs]. *)
Definition old : Sh.Dialect := {|
  Sh.MAXARGS := 15;
  Sh.open_mode k :=
    match k with
    | R_in => O_RDONLY
    | R_out => Z.lor O_RDWR (Z.lor O_CREAT O_TRUNC)
    | R_append => Z.lor O_RDWR (Z.lor O_CREAT O_APPEND)
    end |}.

(** ** The parser *)

#[local] Existing Instance old.

Definition cmd : Type := Sh.cmd.
Definition gettoken : list Z -> M nat (Z * span) := Sh.gettoken.
Definition peek : list Z -> list Z -> M nat bool := Sh.peek.
Definition parse_redirs : list Z -> nat -> list Sh.redir -> M nat (list Sh.redir) := Sh.parseredirs.
Definition parse_exec : list Z -> nat -> M nat cmd := Xsh.parseexec.
Definition parse_block : list Z -> nat -> M nat cmd := Xsh.parseblock.
Definition parse_pipe : list Z -> nat -> M nat cmd := Xsh.parsepipe.
Definition parse_line : list Z -> nat -> M nat cmd := Xsh.parseline.
Definition nulterminate : cmd -> list Z -> list Z := Xsh.nulterminate.

(** [parse_cmd]: the command, and the line with its words ended. *)
Definition parse_cmd (line : list Z) : outcome nat (cmd * list Z) :=
  (let! c := Xsh.parsecmd line in ret (c, nulterminate c (line ++ [0]))) 0%nat.

End Old.
Import Old.

(** ** Running *)

(** What [sigtimedwait] returns: the signal, [EAGAIN] or another error. *)
Inductive timed : Type := Signal | Again | Failed.

Section System.
Context (fork_ok : Z -> bool) (pipe_ok : nat -> bool) (open_ok : list Z -> Z -> bool) (exec_ok : list (list Z) -> bool) (chdir_ok : list Z -> bool).
Context (home : option (list Z)) (sigtimedwait : Z -> timed).

(** The first word is [pwd], [tee] or [du]. *)
Definition internal (argv : list (list Z)) : bool :=
  match argv with
  | name :: _ => bool_decide (name ∈ [chars "pwd"; chars "tee"; chars "du"])
  | [] => false
  end.

Definition run_internal (argv : list (list Z)) : X unit := fun p w => (Goes tt p, emit (Exec argv (fds p)) w).

(** The case [EXEC] of [run_cmd]. *)
Definition execute (argv : list (list Z)) : X unit :=
  if internal argv then run_internal argv else exec exec_ok argv ;;! exit.

Definition run_cmd (buf : list Z) (c : cmd) : X unit := runcmd fork_ok pipe_ok open_ok S_IRWXU execute buf c.

(** [chdir(NULL)] fails. *)
Definition run_cd (ruta : option (list Z)) : X bool :=
  match (match ruta with Some r => Some r | None => home end) with
  | Some r => chdir chdir_ok r
  | None => xret false
  end.

Definition kill (pid : Z) : X unit := fun p w => (Goes tt p, emit (Kill pid) w).

Definition waitpid (pid : Z) : X Z := fun p w =>
  if bool_decide (pid ∈ children p) then (Goes pid (set_children (filter (fun c => c <> pid) (children p)) p), w) else (Goes (-1) p, w).

(** The parent of [main] after [fork1]; [return EXIT_FAILURE] ends the shell. *)
Definition wait_child (pid : Z) : X unit :=
  (match sigtimedwait pid with
   | Signal => xret tt
   | Again => kill pid
   | Failed => exit
   end) ;;!
  do! r := waitpid pid in
  if r <? 0 then exit else xret tt.

(** [ecmd->argv[0]] with [comando] taken for an [execcmd] whatever it is: in the other structures the
    pointer in its place is that of a command, which begins with its type. *)
Definition cmd_type (c : cmd) : Z :=
  match c with Sh.EXEC _ => 1 | Sh.REDIR _ _ _ _ => 2 | Sh.PIPE _ _ => 3 | Sh.LIST _ _ => 4 | Sh.BACK _ => 5 end.

Definition first_word (buf : list Z) (c : cmd) : option (list Z) :=
  match c with
  | Sh.EXEC [] => None
  | Sh.EXEC (sp :: _) => Some (cstring buf sp.1)
  | Sh.REDIR c _ _ _ | Sh.PIPE c _ | Sh.LIST c _ | Sh.BACK c => Some [cmd_type c]
  end.

(** [ecmd->argv[1]], where [argv[0]] is a word. *)
Definition second_word (buf : list Z) (c : cmd) : option (list Z) :=
  match c with
  | Sh.EXEC (_ :: sp :: _) => Some (cstring buf sp.1)
  | _ => None
  end.

Fixpoint main (lines : list (list Z)) : X unit :=
  match lines with
  | [] => exit
  | line :: rest =>
      match parse_cmd line with
      | Ok (c, buf) _ =>
          match first_word buf c with
          | None => exit
          | Some word =>
              if bool_decide (word = chars "exit") then exit
              else if bool_decide (word = chars "cd") then
                do! r := run_cd (second_word buf c) in
                if r : bool then main rest else exit
              else
                fork1 fork_ok (fun pid =>
                  (if pid =? 0 then run_cmd buf c else xret tt) ;;!
                  wait_child pid ;;! main rest)
          end
      | _ => panic
      end
  end.

End System.

(** ** What a session does *)

Section Spec.
Context (fork_ok : Z -> bool) (pipe_ok : nat -> bool) (open_ok : list Z -> Z -> bool) (exec_ok : list (list Z) -> bool) (chdir_ok : list Z -> bool).
Context (home : option (list Z)) (sigtimedwait : Z -> timed).
Context (Hfork : forall pid, fork_ok pid = true) (Hpipe : forall n, pipe_ok n = true).

(** The programs that run: those that [execvp] finds and the internal ones. *)
Definition runs (argv : list (list Z)) : bool := internal argv || exec_ok argv.

Lemma execute_executes : executes runs (execute exec_ok).
Proof.
  intros argv p w Hc. unfold execute, runs. destruct (internal argv); cbn [orb].
  - rewrite (xbind_goes _ _ _ _ tt p (emit (Exec argv (fds p)) w)) by done. destruct (exit_childless (A := unit) p (emit (Exec argv (fds p)) w) Hc) as (w' & E & [A B C D]).
    exists w'. split; [done|]. cbn in *. split; cbn; [by rewrite A, app_nil_r|done|done|done].
  - destruct (exec_executes exec_ok argv p w Hc) as (w' & E & M). exists w'. split; [|done]. by rewrite (xbind_ended _ _ _ _ _ E).
Qed.

(** The shell reads line after line until [exit], an empty command, a line it cannot parse or a
    directory it cannot change to. *)
Fixpoint old_session (lines : list (list Z)) (m : gmap nat fobj) (n : nat) : deeds :=
  match lines with
  | [] => ([], n, 0%nat)
  | line :: rest =>
      match parse_cmd line with
      | Ok (c, buf) _ =>
          match first_word buf c with
          | None => ([], n, 0%nat)
          | Some word =>
              if bool_decide (word = chars "exit") then ([], n, 0%nat)
              else if bool_decide (word = chars "cd") then
                match (match second_word buf c with Some r => Some r | None => home end) with
                | Some r => if chdir_ok r then both ([Chdir r], n, 0%nat) (old_session rest m) else ([], n, 0%nat)
                | None => ([], n, 0%nat)
                end
              else both (xwires open_ok runs S_IRWXU buf c m n) (old_session rest m)
          end
      | _ => ([], n, 0%nat)
      end
  end.

Lemma parse_cmd_std line c buf s : Forall (fun c => c <> 0) line -> parse_cmd line = Ok (c, buf) s -> Xsh.std_redirs c = true.
Proof.
  intros Hl E. apply bind_ok_inv in E as (c' & s' & E & [= <- <- <-]). pose proof (parse_all_whole (dia := old) line Hl) as H.
  unfold Xsh.parse_all in H. rewrite E in H. apply H.
Qed.

Lemma wait_child_ok pid p w : 0 < pid -> children p = [] -> sigtimedwait pid = Signal -> wait_child sigtimedwait pid (set_children [pid] p) w = (Goes tt p, w).
Proof.
  intros Hp Hc Hs. unfold wait_child. rewrite Hs. unfold xbind, xret, waitpid. cbn [children set_children]. rewrite bool_decide_eq_true_2 by set_solver.
  destruct (Z.ltb_spec pid 0); [lia|]. destruct p as [f cs]. cbn in Hc. subst cs. unfold set_children. cbn. rewrite decide_False by tauto. done.
Qed.

Lemma main_ends lines : forall p w, Forall (Forall (fun c => c <> 0)) lines -> (forall pid, sigtimedwait pid = Signal) -> std_open (fds p) -> children p = [] -> 0 < next_pid w ->
  exists w', main fork_ok pipe_ok open_ok exec_ok chdir_ok home sigtimedwait lines p w = (Ended, w') /\ moved w w' (old_session lines (fds p) (next_pipe w)).
Proof.
  induction lines as [|line rest IH]; intros p w Hl Ht Hs Hc Hw; cbn [main old_session]; [by apply exit_childless|]. apply Forall_cons in Hl as [Hl Hr].
  destruct (parse_cmd line) as [[c buf] s| | | |] eqn:EP; try by apply exit_childless. destruct (first_word buf c) as [word|]; [|by apply exit_childless].
  case_bool_decide; [by apply exit_childless|]. case_bool_decide.
  - unfold run_cd. destruct (match second_word buf c with Some r => Some r | None => home end) as [r|]; [|rewrite (xbind_goes _ _ _ _ false p w) by done; by apply exit_childless].
    unfold chdir at 1. unfold xbind at 1. destruct (chdir_ok r); [|by apply exit_childless]. destruct (IH p (emit (Chdir r) w)) as (w' & E & HM); [done..|].
    exists w'. split; [done|]. apply (moved_both _ (emit (Chdir r) w)); [by split; cbn|done].
  - pose proof (xrun_all fork_ok pipe_ok open_ok runs Hfork Hpipe S_IRWXU _ buf execute_executes c (parse_cmd_std _ _ _ _ Hl EP)) as HR.
    destruct (HR (set_children [] p) (forked w)) as (w1 & E1 & M1); [done|done|cbn; lia|].
    rewrite (fork1_run fork_ok Hfork (run_cmd fork_ok pipe_ok open_ok exec_ok buf c) _ p w w1 Hw E1). rewrite Hc.
    rewrite (xbind_goes _ _ _ _ tt p w1) by (by apply wait_child_ok). apply moved_fork in M1. pose proof (mv_pid _ _ _ M1).
    destruct (IH p w1) as (w2 & E2 & M2); [done|done|done|done|lia|]. exists w2. split; [done|]. by apply (moved_both _ w1).
Qed.

End Spec.

(** ** Properties *)

(** The parser of the earlier shell reads back every command with fewer than fifteen
    arguments in each simple command, written out with spaces; only the parentheses are lost. *)
Fixpoint ungroup (c : scmd) : scmd :=
  match c with
  | S_exec args => S_exec args
  | S_redr c k file => S_redr (ungroup c) k file
  | S_pipe l r => S_pipe (ungroup l) (ungroup r)
  | S_list l r => S_list (ungroup l) (ungroup r)
  | S_back c => S_back (ungroup c)
  | S_subs c => ungroup c
  end.

Lemma plain_old c : plain (dia := old) c = ungroup c.
Proof. induction c as [|c IH k file| | | |]; cbn [plain ungroup]; try congruence. rewrite IH. by destruct k. Qed.

Theorem old_parse_show c : grammar Lline c -> sfew (dia := old) c = true ->
  exists c' buf, parse_cmd (show c) = Ok (c', buf) (length (show c)) /\ xdenote (dia := old) (show c) c' = ungroup c.
Proof.
  intros Hg Hf. destruct (parse_all_show (dia := old) c Hg Hf) as (c' & E & HD). exists c', (nulterminate c' (show c ++ [0])). rewrite <- plain_old.
  split; [|done]. unfold parse_cmd. by rewrite (bind_ok _ _ _ _ _ E).
Qed.

(** C27: A session of the earlier shell, when no child takes longer than the time it waits: the
    lines are run in order, each in a child that is waited for, with [cd] in the shell
    itself; the programs of a line, the internal ones too, run with exactly the descriptors that its
    pipes and redirections give them, and no process is left that was not waited for, but one
    for each [&].  The session ends at [exit], at an empty command, at a line that does not parse
    or at a directory that cannot be changed to. *)
Theorem old_main_session fork_ok pipe_ok open_ok exec_ok chdir_ok home sigtimedwait lines p w :
  (forall pid, fork_ok pid = true) -> (forall n, pipe_ok n = true) -> (forall pid, sigtimedwait pid = Signal) ->
  Forall (Forall (fun c => c <> 0)) lines -> std_open (fds p) -> children p = [] -> 0 < next_pid w ->
  exists w', main fork_ok pipe_ok open_ok exec_ok chdir_ok home sigtimedwait lines p w = (Ended, w') /\
    let '(did, _, behind) := old_session open_ok exec_ok chdir_ok home lines (fds p) (next_pipe w) in
    events w' = events w ++ did /\ orphans w' = (orphans w + behind)%nat.
Proof.
  intros Hf Hp Ht Hl Hs Hc Hw. destruct (main_ends fork_ok pipe_ok open_ok exec_ok chdir_ok home sigtimedwait Hf Hp lines p w Hl Ht Hs Hc Hw) as (w' & E & [A _ C _]).
  exists w'. split; [done|]. by destruct (old_session _ _ _ _ _ _ _) as [[e n] o].
Qed.

(** An empty line ends the shell. *)
Lemma empty_line_ends fork_ok pipe_ok open_ok exec_ok chdir_ok home sigtimedwait rest p w : children p = [] ->
  exists w', main fork_ok pipe_ok open_ok exec_ok chdir_ok home sigtimedwait ([] :: rest) p w = (Ended, w') /\ events w' = events w.
Proof. intros Hc. cbn. eexists. by split. Qed.

(** ** Witnesses *)

Definition old_process : process := mk_process (<[0%nat := Std 0]> (<[1%nat := Std 1]> (<[2%nat := Std 2]> ∅))) [].
Definition old_lines : list (list Z) := [chars "cd"; chars "du -b | tee out"; chars "(cat >> log; ls)&"; chars "exit"; chars "ls"].

Lemma old_main_session_witness :
  exists w', main (fun _ => true) (fun _ => true) (fun _ _ => true) (fun _ => true) (fun _ => true) (Some (chars "/root")) (fun _ => Signal) old_lines old_process (mk_world 3 0 [] 0) = (Ended, w') /\
    events w' = [
      Chdir (chars "/root");
      Exec [chars "du"; chars "-b"] (<[1%nat := Pipe_write 0]> (fds old_process));
      Exec [chars "tee"; chars "out"] (<[0%nat := Pipe_read 0]> (fds old_process));
      Exec [chars "cat"] (<[1%nat := Opened (chars "log") 0x442 S_IRWXU]> (fds old_process));
      Exec [chars "ls"] (fds old_process) ] /\ orphans w' = 1%nat.
Proof.
  destruct (old_main_session (fun _ => true) (fun _ => true) (fun _ _ => true) (fun _ => true) (fun _ => true) (Some (chars "/root")) (fun _ => Signal) old_lines old_process (mk_world 3 0 [] 0))
    as (w' & E & _); [done|done|done|by_decide|split; by eexists|done|done|]. exists w'. split; [exact E|]. vm_compute in E. injection E as <-. by split; vm_compute.
Defined.

Lemma old_parse_show_witness :
  let c := S_redr (S_subs (S_exec [chars "ls"; chars "-l"])) R_append (chars "out") in
  exists c' buf, parse_cmd (show c) = Ok (c', buf) (length (show c)) /\ xdenote (dia := old) (show c) c' = ungroup c.
Proof.
  apply old_parse_show; [|done].
  assert (Hw : forall s, bool_decide (s <> [] /\ Forall (fun c => is_word c = true) s) = true -> word s)
    by (intros s H; by apply bool_decide_eq_true in H).
  cbn -[chars]. repeat first [apply Hw; reflexivity|reflexivity|discriminate|by left|by right|progress cbn; lia|constructor].
Defined.
