(* ===== verification/Oldcmd.v ===== *)
(** * Oldcmd: the internal commands tee and du of the earlier shell (simplesh.c of ASO16-17)

    [getopt] is a library: its result is the options and the arguments left, and so are
    [nftw], the entries that it visits with their [stat], and [strftime].  [read] may give fewer bytes
    than asked for and [open] may fail, as parameters say; a [write] to a file or to
    standard output is complete.  The commands run in a child of the shell, so their static
    variables start at 0. *)

From S2P Require Import Prelude Kernel Console Simplesh.

Definition TAM_BUFF : Z := 256.

(** ** tee *)

Inductive tee_option : Type := Tee_a | Tee_h | Tee_bad.
#[export] Instance tee_option_eq_dec : EqDecision tee_option.
Proof. solve_decision. Defined.

(** The calls of [read] so far, standard input and output, the files, [arg] from [optind] on,
    [leidos] and [numficheros]. *)
Record tee : Type := mk_tee {
  t_calls : nat; t_in : list Z; t_out : list Z; t_files : gmap (list Z) (list Z); t_args : list (list Z);
  leidos : Z; numficheros : Z }.

Section Tee.
Context (rd : nat -> Z -> Z) (open_ok : list Z -> bool).

Definition read_stdin (n : Z) : M tee (list Z) := fun s =>
  let k := Z.to_nat (rd (t_calls s) (Z.min n (Z.of_nat (length (t_in s))))) in
  let chunk := match t_in s with [] => [] | _ :: _ => take k (t_in s) end in
  Ok chunk (mk_tee (S (t_calls s)) (drop (length chunk) (t_in s)) (t_out s) (t_files s) (t_args s) (leidos s) (numficheros s)).

Definition write_stdout (buf : list Z) : M tee unit :=
  modify (fun s => mk_tee (t_calls s) (t_in s) (t_out s ++ buf) (t_files s) (t_args s) (leidos s) (numficheros s)).

(** The bytes of a file after [open], [write] and [close]: without [O_TRUNC] what was
    there after them stays. *)
Definition put_bytes (aflag : bool) (old buf : list Z) : list Z :=
  if aflag then old ++ buf else buf ++ drop (length buf) old.

Definition write_file (aflag : bool) (name buf : list Z) : M tee unit :=
  modify (fun s =>
    if open_ok name then
      mk_tee (t_calls s) (t_in s) (t_out s) (<[name := put_bytes aflag (default [] (t_files s !! name)) buf]> (t_files s)) (t_args s) (leidos s) (numficheros s)
    else s).

(** [while(optind < argc)] *)
Fixpoint tee_files (aflag : bool) (args : list (list Z)) (buf : list Z) : M tee unit :=
  match args with
  | [] => modify (fun s => mk_tee (t_calls s) (t_in s) (t_out s) (t_files s) [] (leidos s) (numficheros s))
  | name :: args' =>
      write_file aflag name buf ;;;
      modify (fun s => mk_tee (t_calls s) (t_in s) (t_out s) (t_files s) args' (leidos s) (numficheros s + 1)) ;;;
      tee_files aflag args' buf
  end.

(** [while((nr = read(STDIN_FILENO, buffer, TAM_BUFF)) > 0)] *)
Fixpoint tee_loop (fuel : nat) (aflag : bool) : M tee unit :=
  match fuel with
  | O => spin
  | S fuel' =>
      let! buf := read_stdin TAM_BUFF in
      match buf with
      | [] => ret tt
      | _ :: _ =>
          write_stdout buf ;;;
          modify (fun s => mk_tee (t_calls s) (t_in s) (t_out s) (t_files s) (t_args s) (i32 (leidos s + Z.of_nat (length buf))) (numficheros s)) ;;;
          let! s := get in
          tee_files aflag (t_args s) buf ;;;
          tee_loop fuel' aflag
      end
  end.

(** The line of the log, after the date in [buf]. *)
Definition log_line (date : list Z) (pid euid : Z) (s : tee) : list Z :=
  let num x := int_chars digits_lower x 10 true in
  date ++ chars " PID: " ++ num pid ++ chars " EUID: " ++ num euid ++ chars " " ++ num (leidos s) ++ chars " leidos " ++ num (numficheros s) ++ chars " ficheros" ++ [10].

(** [write(log, buf, 64)]: 64 bytes of the array, whose rest was never set. *)
Definition write_log (home date junk : list Z) (pid euid : Z) : M tee Z := fun s =>
  let ruta := home ++ chars "/.tee.log" in
  if open_ok ruta then
    Ok 0 (mk_tee (t_calls s) (t_in s) (t_out s)
      (<[ruta := put_bytes true (default [] (t_files s !! ruta)) (take 64 (log_line date pid euid s ++ [0] ++ junk))]> (t_files s)) (t_args s) (leidos s) (numficheros s))
  else Ok 1 s.

(** [run_tee]: 1 is [EXIT_FAILURE]; the help is written to standard output. *)
Definition run_tee (help home date junk : list Z) (pid euid : Z) (opts : list tee_option) : M tee Z :=
  let aflag := bool_decide (Tee_a ∈ opts) in
  let hflag := bool_decide (Tee_h ∈ opts) in
  if hflag then write_stdout help ;;; ret 0 else
  let! s := get in
  tee_loop (length (t_in s) + 1) aflag ;;;
  write_log home date junk pid euid.

End Tee.

(** ** du *)

(** [struct stat]: a regular file, a directory or something else, its bytes and its blocks. *)
Inductive file_kind : Type := REG | DIR | OTHER.
Record stat : Type := mk_stat { st_kind : file_kind; st_size : Z; st_blocks : Z }.

(** The [typeflag] of [nftw]. *)
Inductive ftw_type : Type := FTW_F | FTW_D | FTW_OTHER.
#[export] Instance ftw_type_eq_dec : EqDecision ftw_type.
Proof. solve_decision. Defined.

Inductive du_option : Type := Du_h | Du_b | Du_t (n : Z) | Du_v | Du_bad.

(** What is printed. *)
Inductive printed : Type := Help | Entered (path : list Z) | Size (path : list Z) (n : Z) | File_total (path : list Z) (n : Z) | Dir_total (path : list Z) (n : Z).

Record du : Type := mk_du { suma : Z; tvalor : Z; tbandera : bool; vflag : bool; bflag : bool; d_out : list printed }.

Definition set_suma (v : Z) (s : du) := mk_du v (tvalor s) (tbandera s) (vflag s) (bflag s) (d_out s).
Definition set_tvalor (v : Z) (s : du) := mk_du (suma s) v (tbandera s) (vflag s) (bflag s) (d_out s).
Definition set_tbandera (v : bool) (s : du) := mk_du (suma s) (tvalor s) v (vflag s) (bflag s) (d_out s).
Definition set_vflag (v : bool) (s : du) := mk_du (suma s) (tvalor s) (tbandera s) v (bflag s) (d_out s).
Definition set_bflag (v : bool) (s : du) := mk_du (suma s) (tvalor s) (tbandera s) (vflag s) v (d_out s).
Definition say (p : printed) (s : du) := mk_du (suma s) (tvalor s) (tbandera s) (vflag s) (bflag s) (d_out s ++ [p]).

(** [if(vflag) printf(...)] and [suma += n] *)
Definition add_size (path : list Z) (shown n : Z) (s : du) : du :=
  let s := if vflag s then say (Size path shown) s else s in
  set_suma (i32 (suma s + n)) s.

Definition recorrer_directorio (fpath : list Z) (sb : stat) (tflag : ftw_type) (s : du) : du :=
  match tflag with
  | FTW_D => if vflag s then say (Entered fpath) s else s
  | FTW_OTHER => s
  | FTW_F =>
      if tbandera s then
        if tvalor s <? 0 then
          let s := set_tvalor (tvalor s - tvalor s * 2) s in
          if st_size sb <? tvalor s then
            if bflag s then add_size fpath (st_blocks sb * 8) (st_blocks sb * 8) s
            else add_size fpath (st_size sb) (st_size sb) s
          else s
        else if tvalor s <? st_size sb then
          if bflag s then add_size fpath (st_blocks sb * 8) (st_blocks sb * 8) s
          else add_size fpath (st_size sb) (st_size sb) s
        else s
      else if bflag s then add_size fpath (st_blocks sb * 8) (st_blocks sb * 8) s
      else add_size fpath (st_blocks sb * 8) (st_size sb) s
  end.

Section Du.
Context (stat_of : list Z -> option stat) (nftw : list Z -> list (list Z * stat * ftw_type)).

Definition walk (path : list Z) (s : du) : du := foldl (fun s e => recorrer_directorio e.1.1 e.1.2 e.2 s) s (nftw path).

(** The [while] over the options. *)
Fixpoint du_options (hflag : bool) (opts : list du_option) (s : du) : bool * du :=
  match opts with
  | [] => (hflag, s)
  | Du_h :: opts' => du_options true opts' s
  | Du_b :: opts' => du_options hflag opts' (set_bflag true s)
  | Du_t n :: opts' => du_options hflag opts' (set_tvalor n (set_tbandera true s))
  | Du_v :: opts' => du_options hflag opts' (set_vflag true s)
  | Du_bad :: opts' => du_options hflag opts' s
  end.

(** No directory was given: the test of the code on [argc] and the flags. *)
Definition no_path (argc : Z) (s : du) : bool :=
  (argc =? 1) || ((argc =? 2) && (bflag s || vflag s)) || ((argc =? 3) && tbandera s) || ((argc =? 4) && tbandera s && bflag s && vflag s).

(** One turn of the [do]; [argv[argc]] is [NULL] and [stat] of it fails.  [false]: [EXIT_FAILURE]. *)
Definition du_path (argc : Z) (arg : option (list Z)) : M du bool := fun s =>
  let path := if no_path argc s then Some (chars ".") else arg in
  match path with
  | None => Ok false s
  | Some path =>
      match stat_of path with
      | None => Ok false s
      | Some e =>
          let s := match st_kind e with REG => say (File_total path (if bflag s then st_blocks e else st_size e)) s | _ => s end in
          let s := match st_kind e with DIR => let s := walk path s in set_suma 0 (say (Dir_total path (suma s)) s) | _ => s end in
          Ok true s
      end
  end.

(** [do ... while(optind < argc)] with the arguments left. *)
Fixpoint du_paths (argc : Z) (args : list (list Z)) : M du bool :=
  match args with
  | [] => du_path argc None
  | [arg] => du_path argc (Some arg)
  | arg :: args' => let! ok := du_path argc (Some arg) in if ok : bool then du_paths argc args' else ret false
  end.

(** [run_du] with [argc], the options and the arguments after them. *)
Definition run_du (argc : Z) (opts : list du_option) (args : list (list Z)) : M du Z := fun s0 =>
  let '(hflag, s) := du_options false opts s0 in
  if hflag then Ok 0 (say Help s) else
  (let! ok := du_paths argc args in
   if ok : bool then modify (set_tbandera false) ;;; ret 0 else ret 1) s.

End Du.

(** ** What tee does *)

Section Tee_spec.
Context (rd : nat -> Z -> Z) (open_ok : list Z -> bool).
Context (Hrd : forall c n, 0 < n -> 0 < rd c n <= n).

Definition given (aflag : bool) (args : list (list Z)) (buf : list Z) (files : gmap (list Z) (list Z)) : gmap (list Z) (list Z) :=
  foldl (fun m name => if open_ok name then <[name := put_bytes aflag (default [] (m !! name)) buf]> m else m) files args.

Lemma tee_files_ok aflag buf args : forall s, tee_files open_ok aflag args buf s =
  Ok tt (mk_tee (t_calls s) (t_in s) (t_out s) (given aflag args buf (t_files s)) [] (leidos s) (numficheros s + Z.of_nat (length args))).
Proof.
  induction args as [|name args IH]; intros s; cbn [tee_files length].
  - unfold modify, given. cbn. do 2 f_equal. lia.
  - unfold write_file. unfold bind at 1, modify at 1. unfold bind at 1, modify at 1. rewrite IH. unfold given. cbn [foldl].
    destruct (open_ok name); cbn [t_calls t_in t_out t_files leidos numficheros]; do 2 f_equal; lia.
Qed.

(** The first read: what the files get. *)
Definition first_read (s : tee) : list Z := take (Z.to_nat (rd (t_calls s) (Z.min TAM_BUFF (Z.of_nat (length (t_in s)))))) (t_in s).

Lemma read_stdin_ok s : t_in s <> [] -> first_read s <> [] /\
  read_stdin rd TAM_BUFF s = Ok (first_read s) (mk_tee (S (t_calls s)) (drop (length (first_read s)) (t_in s)) (t_out s) (t_files s) (t_args s) (leidos s) (numficheros s)).
Proof.
  intros Hne. unfold read_stdin, first_read. destruct (t_in s) as [|b l] eqn:E; [done|]. split; [|done].
  pose proof (Hrd (t_calls s) (Z.min TAM_BUFF (Z.of_nat (length (b :: l))))) as H. cbn [length] in H |- *. unfold TAM_BUFF in *. specialize (H ltac:(lia)).
  destruct (Z.to_nat _) eqn:En; [lia|done].
Qed.

Lemma first_read_split s : first_read s ++ drop (length (first_read s)) (t_in s) = t_in s.
Proof.
  unfold first_read. set (k := Z.to_nat _). rewrite length_take. rewrite <- (take_drop k (t_in s)) at 4. f_equal.
  destruct (decide (k <= length (t_in s))%nat); [f_equal; lia|rewrite !drop_ge by lia; done].
Qed.

(** One turn of the loop. *)
Lemma tee_step aflag fuel s : t_in s <> [] -> tee_loop rd open_ok (S fuel) aflag s =
  let c := first_read s in
  tee_loop rd open_ok fuel aflag (mk_tee (S (t_calls s)) (drop (length c) (t_in s)) (t_out s ++ c) (given aflag (t_args s) c (t_files s)) []
    (i32 (leidos s + Z.of_nat (length c))) (numficheros s + Z.of_nat (length (t_args s)))).
Proof.
  intros E. cbn [tee_loop]. destruct (read_stdin_ok s E) as [Hne ER]. rewrite (bind_ok _ _ _ _ _ ER). destruct (first_read s) as [|b c'] eqn:Ec; [done|]. rewrite <- Ec.
  unfold bind at 1, write_stdout at 1, modify at 1. unfold bind at 1, modify at 1. mget. cbn [t_args t_calls t_in t_out t_files leidos numficheros]. unfold bind at 1. by rewrite tee_files_ok.
Qed.

(** The reads once [tee_files] has used up the arguments. *)
Lemma tee_loop_rest aflag fuel : forall s, t_args s = [] -> (length (t_in s) < fuel)%nat -> exists s', tee_loop rd open_ok fuel aflag s = Ok tt s' /\
  t_out s' = t_out s ++ t_in s /\ t_files s' = t_files s /\ numficheros s' = numficheros s.
Proof.
  induction fuel as [|fuel IH]; intros s Ha Hf; [lia|]. destruct (decide (t_in s = [])) as [E|E].
  - cbn [tee_loop]. unfold bind at 1, read_stdin. rewrite E. eexists. split; [done|]. cbn. by rewrite app_nil_r.
  - rewrite tee_step by done. cbn zeta. set (c := first_read s). destruct (read_stdin_ok s E) as [Hne _]. fold c in Hne.
    assert (0 < length c)%nat by (by destruct c; [|cbn; lia]). assert (0 < length (t_in s))%nat by (by destruct (t_in s); [|cbn; lia]).
    match goal with |- context [tee_loop _ _ _ _ ?s1] => destruct (IH s1) as (s' & E' & O' & F' & N') end; [done|cbn [t_in]; rewrite length_drop; lia|].
    exists s'. split; [done|]. rewrite O', F', N'. cbn [t_out t_in t_files numficheros]. rewrite Ha, <- app_assoc. unfold c. rewrite first_read_split. split; [done|]. split; [done|]. cbn. lia.
Qed.

(** [tee] copies all of standard input to standard output, but a file gets only what the first [read] gave. *)
Lemma tee_loop_ok aflag s : exists s', tee_loop rd open_ok (length (t_in s) + 1) aflag s = Ok tt s' /\
  t_out s' = t_out s ++ t_in s /\ t_files s' = (if bool_decide (t_in s = []) then t_files s else given aflag (t_args s) (first_read s) (t_files s)) /\
  numficheros s' = numficheros s + (if bool_decide (t_in s = []) then 0 else Z.of_nat (length (t_args s))).
Proof.
  rewrite Nat.add_1_r. case_bool_decide as E.
  - cbn [tee_loop]. unfold bind at 1, read_stdin. rewrite E. eexists. split; [done|]. cbn. rewrite app_nil_r. split; [done|]. split; [done|lia].
  - rewrite tee_step by done. cbn zeta. set (c := first_read s). destruct (read_stdin_ok s E) as [Hne _]. fold c in Hne.
    assert (0 < length c)%nat by (by destruct c; [|cbn; lia]). assert (0 < length (t_in s))%nat by (by destruct (t_in s); [|cbn; lia]).
    match goal with |- context [tee_loop _ _ _ _ ?s1] => destruct (tee_loop_rest aflag (length (t_in s)) s1) as (s' & E' & O' & F' & N') end; [done|cbn [t_in]; rewrite length_drop; lia|].
    exists s'. split; [done|]. rewrite O', F', N'. cbn [t_out t_in t_files numficheros]. rewrite <- app_assoc. unfold c. by rewrite first_read_split.
Qed.

Lemma given_other aflag buf args : forall files name, name ∉ args -> given aflag args buf files !! name = files !! name.
Proof.
  unfold given. induction args as [|a args IH]; intros files name Hn; [done|]. cbn [foldl]. apply not_elem_of_cons in Hn as [Hne Hn]. rewrite IH by done.
  destruct (open_ok a); [by rewrite lookup_insert_ne|done].
Qed.

Lemma given_file aflag buf args : forall files name, NoDup args -> name ∈ args -> open_ok name = true ->
  given aflag args buf files !! name = Some (put_bytes aflag (default [] (files !! name)) buf).
Proof.
  induction args as [|a args IH]; intros files name Hnd Hin Ho; [by apply elem_of_nil in Hin|]. apply NoDup_cons in Hnd as [Ha Hnd].
  change (given aflag (a :: args) buf files) with (given aflag args buf (if open_ok a then <[a := put_bytes aflag (default [] (files !! a)) buf]> files else files)).
  apply elem_of_cons in Hin as [->|Hin].
  - rewrite given_other by done. by rewrite Ho, lookup_insert_eq.
  - rewrite IH by done. destruct (open_ok a); [|done]. rewrite lookup_insert_ne by congruence. done.
Qed.

End Tee_spec.

(** C28: tee writes all of its standard input to standard output.  To each of its files it gives
    the bytes of the first [read] and no more: over the start of the file, whose rest
    stays, or after its end with [-a].  Without input it does not touch the files. *)
Theorem tee_copies rd open_ok help home date junk pid euid opts s : (forall c n, 0 < n -> 0 < rd c n <= n) -> NoDup (t_args s) -> Tee_h ∉ opts ->
  home ++ chars "/.tee.log" ∉ t_args s ->
  exists r s', run_tee rd open_ok help home date junk pid euid opts s = Ok r s' /\ t_out s' = t_out s ++ t_in s /\
    (forall name, name ∈ t_args s -> open_ok name = true -> t_in s <> [] ->
       t_files s' !! name = Some (put_bytes (bool_decide (Tee_a ∈ opts)) (default [] (t_files s !! name)) (first_read rd s))) /\
    (forall name, name <> home ++ chars "/.tee.log" -> name ∉ t_args s \/ t_in s = [] -> t_files s' !! name = t_files s !! name).
Proof.
  intros Hrd Hnd Hh Hlog. unfold run_tee. rewrite (bool_decide_eq_false_2 (Tee_h ∈ opts)) by done. set (aflag := bool_decide _).
  mget. destruct (tee_loop_ok rd open_ok Hrd aflag s) as (s1 & E1 & O1 & F1 & _). mstep E1. unfold write_log. set (ruta := home ++ chars "/.tee.log") in *.
  assert (HF : forall name, name <> ruta -> t_files s1 !! name = (if bool_decide (t_in s = []) then t_files s else given open_ok aflag (t_args s) (first_read rd s) (t_files s)) !! name) by (intros; by rewrite F1).
  assert (HK : exists r s', (if open_ok ruta then Ok 0 (mk_tee (t_calls s1) (t_in s1) (t_out s1) (<[ruta := put_bytes true (default [] (t_files s1 !! ruta)) (take 64 (log_line date pid euid s1 ++ [0] ++ junk))]> (t_files s1)) (t_args s1) (leidos s1) (numficheros s1))
      else Ok 1 s1) = Ok r s' /\ t_out s' = t_out s1 /\ forall name, name <> ruta -> t_files s' !! name = t_files s1 !! name).
  { destruct (open_ok ruta); eexists _, _; (split; [done|]); (split; [done|]); intros name Hn; cbn [t_files]; [by rewrite lookup_insert_ne|done]. }
  destruct HK as (r & s' & E' & O' & K'). exists r, s'. split; [exact E'|]. split; [by rewrite O'|]. split.
  - intros name Hin Ho Hne. rewrite K', HF by congruence. rewrite bool_decide_eq_false_2 by done. by apply given_file.
  - intros name Hn Hor. rewrite K', HF by done. case_bool_decide; [done|]. destruct Hor; [|done]. by apply given_other.
Qed.

(** ** What du does *)

Lemma i32_add_l x y : i32 (i32 x + y) = i32 (x + y).
Proof.
  assert (E : u32 (i32 x + y) = u32 (x + y)).
  { rewrite <- (u32_add_l x). unfold i32. destruct (u32 x <? 2 ^ 31); [done|]. unfold u32. rewrite <- (Z_mod_plus_full (x mod 2 ^ 32 - 2 ^ 32 + y) 1). f_equal. lia. }
  unfold i32 at 1 3. by rewrite E.
Qed.

(** The files among what [nftw] visits. *)
Definition files_in (es : list (list Z * stat * ftw_type)) : list stat :=
  omap (fun e => match e.2 with FTW_F => Some e.1.2 | _ => None end) es.

(** What a file counts, with and without [-b]. *)
Definition measured (b : bool) (f : stat) : Z := if b then st_blocks f * 8 else st_size f.

(** The files larger than [t], or all of them. *)
Fixpoint larger (t : option Z) (b : bool) (fs : list stat) : Z :=
  match fs with
  | [] => 0
  | f :: fs' => (if default true ((fun n => n <? st_size f) <$> t) then measured b f else 0) + larger t b fs'
  end.

(** What is counted: with a negative size the first file counts if it is smaller, and then
    the code has made the size positive. *)
Definition counted (t : option Z) (b : bool) (fs : list stat) : Z :=
  match t, fs with
  | Some n, f :: fs' => if n <? 0 then (if st_size f <? - n then measured b f else 0) + larger (Some (- n)) b fs' else larger t b fs
  | _, _ => larger t b fs
  end.

Definition threshold (s : du) : option Z := if tbandera s then Some (tvalor s) else None.

Lemma add_size_suma path shown n s : suma (add_size path shown n s) = i32 (suma s + n) /\ threshold (add_size path shown n s) = threshold s /\ bflag (add_size path shown n s) = bflag s.
Proof. unfold add_size. by destruct (vflag s). Qed.

Definition visit (e : list Z * stat * ftw_type) (s : du) : du := recorrer_directorio e.1.1 e.1.2 e.2 s.

(** An entry that is not a file changes nothing that counts. *)
Lemma visit_other e s : e.2 <> FTW_F -> suma (visit e s) = suma s /\ threshold (visit e s) = threshold s /\ bflag (visit e s) = bflag s.
Proof. intros H. unfold visit, recorrer_directorio. destruct e.2; [done| |done]. by destruct (vflag s). Qed.

Lemma visit_file p f s : i32 (suma s) = suma s ->
  suma (visit (p, f, FTW_F) s) = i32 (suma s + counted (threshold s) (bflag s) [f]) /\
  threshold (visit (p, f, FTW_F) s) = Z.abs <$> threshold s /\ bflag (visit (p, f, FTW_F) s) = bflag s.
Proof.
  intros Hs. destruct s as [su t [] v b out]; unfold visit, recorrer_directorio, threshold, counted, add_size, measured; cbn in *.
  - destruct (Z.ltb_spec t 0) as [Ht|Ht]; cbn.
    + replace (t - t * 2) with (- t) by lia. rewrite Z.abs_neq by lia. destruct (st_size f <? - t), b, v; cbn; rewrite ?Z.add_0_r; done.
    + rewrite Z.abs_eq by lia. destruct (t <? st_size f), b, v; cbn; rewrite ?Z.add_0_r; done.
  - destruct b, v; cbn; rewrite ?Z.add_0_r; done.
Qed.

Lemma larger_app t b fs fs' : larger t b (fs ++ fs') = larger t b fs + larger t b fs'.
Proof. induction fs as [|f fs IH]; cbn [larger app]; [done|]. rewrite IH. lia. Qed.

Notation visits s0 es := (foldl (fun s e => recorrer_directorio e.1.1 e.1.2 e.2 s) s0 es).

(** From a size that is not negative, or none. *)
Lemma visits_larger es : forall s, i32 (suma s) = suma s -> Z.abs <$> threshold s = threshold s ->
  suma (visits s es) = i32 (suma s + larger (threshold s) (bflag s) (files_in es)).
Proof.
  induction es as [|[[p f] ty] es IH]; intros s Hs Ht; cbn [foldl]; [cbn; by rewrite Z.add_0_r|]. fold (visit (p, f, ty) s).
  assert (HR : i32 (suma (visit (p, f, ty) s)) = suma (visit (p, f, ty) s) -> threshold (visit (p, f, ty) s) = threshold s -> bflag (visit (p, f, ty) s) = bflag s ->
    suma (visits (visit (p, f, ty) s) es) = i32 (suma (visit (p, f, ty) s) + larger (threshold s) (bflag s) (files_in es))).
  { intros H1 H2 H3. rewrite IH; [by rewrite H2, H3|done|by rewrite H2]. }
  destruct (decide (ty = FTW_F)) as [->|Hne].
  - destruct (visit_file p f s Hs) as (V1 & V2 & V3). rewrite HR; [|rewrite V1; apply i32_small; apply i32_range|congruence|done]. rewrite V1, i32_add_l. f_equal.
    cbn [files_in omap list_omap snd fst]. fold (files_in es). change (f :: files_in es) with ([f] ++ files_in es). rewrite larger_app.
    assert (EC : counted (threshold s) (bflag s) [f] = larger (threshold s) (bflag s) [f]); [|lia].
    unfold counted. destruct (threshold s) as [n|]; [|done]. cbn in Ht. injection Ht as Ht. by rewrite (proj2 (Z.ltb_ge n 0)) by lia.
  - destruct (visit_other (p, f, ty) s Hne) as (V1 & V2 & V3). rewrite HR by congruence. rewrite V1. by destruct ty.
Qed.

Lemma visits_counted es : forall s, i32 (suma s) = suma s -> suma (visits s es) = i32 (suma s + counted (threshold s) (bflag s) (files_in es)).
Proof.
  induction es as [|[[p f] ty] es IH]; intros s Hs; cbn [foldl]; [cbn; destruct (threshold s); cbn; by rewrite Z.add_0_r|]. fold (visit (p, f, ty) s).
  destruct (decide (ty = FTW_F)) as [->|Hne].
  - destruct (visit_file p f s Hs) as (V1 & V2 & V3). rewrite visits_larger; [|rewrite V1; apply i32_small; apply i32_range|rewrite V2; destruct (threshold s); cbn; f_equal; lia].
    rewrite V1, V2, V3, i32_add_l. f_equal. cbn [files_in omap list_omap snd fst]. fold (files_in es). unfold counted. destruct (threshold s) as [n|]; cbn [fmap option_fmap option_map].
    + destruct (Z.ltb_spec n 0); [rewrite Z.abs_neq by lia; cbn [larger]; lia|rewrite Z.abs_eq by lia; cbn [larger]; lia].
    + cbn [larger]. lia.
  - destruct (visit_other (p, f, ty) s Hne) as (V1 & V2 & V3). rewrite IH by congruence. rewrite V1, V2, V3. by destruct ty.
Qed.

Definition du0 : du := mk_du 0 0 false false false [].

(** The total that is printed for a directory: of the files larger than the size of [-t] when it
    is not negative, or of all of them without [-t].  When it is negative only the first
    file that is found is compared the way the help says, by being smaller; the others
    count when they are larger. *)
Theorem du_total stat_of nftw argc opts path e s : stat_of path = Some e -> st_kind e = DIR -> du_options false opts du0 = (false, s) -> no_path argc s = false ->
  exists s', run_du stat_of nftw argc opts [path] du0 = Ok 0 s' /\
    last (d_out s') = Some (Dir_total path (i32 (counted (threshold s) (bflag s) (files_in (nftw path))))).
Proof.
  intros He Hd Ho Hn. assert (H0 : suma s = 0).
  { assert (HK : forall opts h s0, suma (du_options h opts s0).2 = suma s0) by (clear; induction opts as [|[] opts IH]; intros h s0; cbn [du_options]; rewrite ?IH; done).
    pose proof (HK opts false du0) as H. by rewrite Ho in H. }
  unfold run_du. rewrite Ho. cbn [du_paths]. unfold bind at 1, du_path. rewrite Hn, He, Hd. eexists. split; [done|]. unfold walk.
  cbn [d_out set_tbandera set_suma say]. rewrite last_snoc. do 2 f_equal. pose proof (visits_counted (nftw path) s) as HV. rewrite H0 in HV. rewrite HV by done. by rewrite Z.add_0_l.
Qed.

(** ** Witnesses *)

Lemma tee_copies_witness : exists r s', let s := mk_tee 0 (replicate 300 65) [] (<[chars "f" := replicate 400 66]> ∅) [chars "f"] 0 0 in
  run_tee (fun _ n => n) (fun _ => true) [] (chars "/root") (chars "2016-10-26 10:00:00") [] 7 1000 [] s = Ok r s' /\ t_out s' = replicate 300 65 /\
  t_files s' !! chars "f" = Some (replicate 256 65 ++ replicate 144 66).
Proof.
  pose (s := mk_tee 0 (replicate 300 65) [] (<[chars "f" := replicate 400 66]> ∅) [chars "f"] 0 0).
  destruct (tee_copies (fun _ n => n) (fun _ => true) [] (chars "/root") (chars "2016-10-26 10:00:00") [] 7 1000 [] s) as (r & s' & E & O & F & _).
  - intros. lia.
  - by_decide.
  - by_decide.
  - by_decide.
  - exists r, s'. split; [exact E|]. split; [exact O|]. specialize (F (chars "f") ltac:(by_decide) eq_refl ltac:(discriminate)). rewrite F. by vm_compute.
Defined.

Definition some_files : list (list Z * stat * ftw_type) :=
  [(chars "d", mk_stat DIR 4096 8, FTW_D); (chars "d/a", mk_stat REG 10 8, FTW_F); (chars "d/b", mk_stat REG 20 8, FTW_F); (chars "d/c", mk_stat REG 500 8, FTW_F)].

(** [du -t -100 d]: the files of at most 100 bytes have 30 bytes, and it prints 510. *)
Lemma du_total_witness : exists s', run_du (fun _ => Some (mk_stat DIR 4096 8)) (fun _ => some_files) 4 [Du_t (-100)] [chars "d"] du0 = Ok 0 s' /\
  last (d_out s') = Some (Dir_total (chars "d") 510).
Proof.
  destruct (du_total (fun _ => Some (mk_stat DIR 4096 8)) (fun _ => some_files) 4 [Du_t (-100)] (chars "d") (mk_stat DIR 4096 8) (mk_du 0 (-100) true false false []))
    as (s' & E & L); [reflexivity|reflexivity|reflexivity|reflexivity|]. exists s'. split; [exact E|]. exact L.
Defined.
