(* ===== verification/Shhd.v ===== *)
(** * Shhd: the internal command hd (run_hd and write_all of simplesh.c)

    [getopt] is a library: its result is the list of options with their numbers.  A file
    is its bytes, or nothing when it cannot be opened; [read] and [write] may move fewer
    bytes than they are asked for, as the parameters [rd] and [wr] say for each call.
    A block is what [read] put in it and, after that, what the memory of [malloc] held.
    The counters stay far below 2^31: a block has at most [MAX_T] bytes, and the lines of
    a file are counted one by one. *)

From S2P Require Import Prelude Simplesh.

Definition MIN_T : Z := 1.
Definition MAX_T : Z := 1048576.

(** The calls made so far, what is left of the file, what was written. *)
Record io : Type := mk_io { io_calls : nat; io_in : list Z; io_out : list Z }.

Section Io.
Context (rd wr : nat -> Z -> Z).

(** [read(fd, buf, bloque)]: the bytes read. *)
Definition read (bloque : Z) : M io (list Z) := fun s =>
  match io_in s with
  | [] => Ok [] (mk_io (S (io_calls s)) [] (io_out s))
  | _ :: _ =>
      let n := Z.to_nat (rd (io_calls s) (Z.min bloque (Z.of_nat (length (io_in s))))) in
      Ok (take n (io_in s)) (mk_io (S (io_calls s)) (drop n (io_in s)) (io_out s))
  end.

(** [write(fd, buf, n)] from the start of [buf]: the bytes written, or -1. *)
Definition write (buf : list Z) (n : Z) : M io Z := fun s =>
  let r := wr (io_calls s) n in
  Ok r (mk_io (S (io_calls s)) (io_in s) (io_out s ++ take (Z.to_nat r) buf)).

(** The loop of [write_all]; before the start of the buffer there is no byte to read. *)
Fixpoint write_loop (fuel : nat) (buf : list Z) (num total : Z) : M io Z :=
  if total =? num then ret total
  else if total <? 0 then fault "write_all: buf - 1"
  else
    match fuel with
    | O => spin
    | S fuel' =>
        let! r := write (drop (Z.to_nat total) buf) (num - total) in
        write_loop fuel' buf num (total + r)
    end.
Definition write_all (buf : list Z) (num : Z) : M io Z := write_loop (Z.to_nat num) buf num 0.

(** ** Options *)

Inductive hd_option : Type := Opt_l (n : Z) | Opt_b (n : Z) | Opt_t (n : Z) | Opt_h.

Record hd_opts : Type := mk_hd { flag : Z; num_lineas : Z; bytes : Z; bloque : Z }.
Definition hd_default : hd_opts := mk_hd 0 3 1 1024.

(** The [while] over the options: what is printed instead when it returns. *)
Fixpoint hd_options (o : hd_opts) (opts : list hd_option) : hd_opts + string :=
  match opts with
  | [] => inl o
  | Opt_l n :: opts' =>
      if flag o =? 2 then inr "hd: Opciones incompatibles"%string
      else hd_options (mk_hd 1 n (bytes o) (bloque o)) opts'
  | Opt_b n :: opts' =>
      if flag o =? 1 then inr "hd: Opciones incompatibles"%string
      else hd_options (mk_hd 2 (num_lineas o) n (bloque o)) opts'
  | Opt_t n :: opts' =>
      if (n <? MIN_T) || (MAX_T <? n) then inr "hd: Opcion no valida"%string
      else hd_options (mk_hd (flag o) (num_lineas o) (bytes o) n) opts'
  | Opt_h :: _ => inr "Uso: hd [-l NLINES] [-b NBYTES] [-t BSIZE] [FILE1] [FILE2 ]..."%string
  end.

(** ** Files *)

Context (o : hd_opts) (garbage : list Z).

(** The inner [while]: how far it comes in the block, and the lines counted. *)
Fixpoint scan (l : list Z) (i lineas : Z) : Z * Z :=
  match l with
  | [] => (i, lineas)
  | c :: l' => if lineas =? num_lineas o then (i, lineas) else scan l' (i + 1) (if c =? 10 then lineas + 1 else lineas)
  end.

(** [while (bytes_leidos != 0)] *)
Fixpoint hd_loop (fuel : nat) (lineas_leidas bytes_restantes : Z) : M io unit :=
  match fuel with
  | O => spin
  | S fuel' =>
      let! chunk := read (bloque o) in
      let bytes_leidos := Z.of_nat (length chunk) in
      let buf := chunk ++ drop (length chunk) garbage in
      let bytes_a_escribir := if bytes_leidos <? bloque o then bytes_leidos else bloque o in
      if flag o =? 2 then
        if bloque o <? bytes_restantes then
          let! n := write_all buf bytes_a_escribir in
          if bytes_leidos =? 0 then ret tt else hd_loop fuel' lineas_leidas (bytes_restantes - n)
        else
          write_all buf bytes_restantes ;;;
          ret tt
      else
        let '(i, lineas_leidas) := scan chunk 0 lineas_leidas in
        (if negb (bytes_leidos =? 0) then
           if i <? bloque o then write_all buf i ;;; ret tt else write_all buf bytes_a_escribir ;;; ret tt
         else ret tt) ;;;
        if (lineas_leidas =? num_lineas o) || (bytes_leidos =? 0) then ret tt
        else hd_loop fuel' lineas_leidas bytes_restantes
  end.

(** One file; [false] when it cannot be read, which ends [run_hd]. *)
Definition hd_file (content : option (list Z)) : M io bool :=
  match content with
  | None => ret false
  | Some l =>
      modify (fun s => mk_io (io_calls s) l (io_out s)) ;;;
      hd_loop (length l + 2) 0 (bytes o) ;;;
      ret true
  end.

(** The [do ... while] over the files. *)
Fixpoint hd_files (files : list (option (list Z))) : M io unit :=
  match files with
  | [] => ret tt
  | f :: files' =>
      let! go := hd_file f in
      if go : bool then hd_files files' else ret tt
  end.

End Io.

(** [run_hd] with the options, standard input and the files. *)
Definition run_hd (rd wr : nat -> Z -> Z) (garbage : list Z) (opts : list hd_option) (stdin : list Z)
  (files : list (option (list Z))) : M io (option string) :=
  match hd_options hd_default opts with
  | inr msg => ret (Some msg)
  | inl o =>
      hd_files rd wr o garbage (match files with [] => [Some stdin] | _ :: _ => files end) ;;;
      ret None
  end.

(** ** write_all *)

(** The first [n] lines, or all of them when there are fewer or [n] is negative. *)
Fixpoint head_lines (l : list Z) (n : Z) : list Z :=
  match l with
  | [] => []
  | c :: l' => if n =? 0 then [] else c :: head_lines l' (if c =? 10 then n - 1 else n)
  end.

Section Proofs.
Context (rd wr : nat -> Z -> Z).
Context (Hrd : forall k n, 1 <= n -> 1 <= rd k n <= n) (Hwr : forall k n, 1 <= n -> 1 <= wr k n <= n).

Lemma write_all_loop buf num fuel : forall total s,
  0 <= total <= num -> num <= Z.of_nat (length buf) -> (Z.to_nat (num - total) <= fuel)%nat ->
  exists k, write_loop wr fuel buf num total s =
    Ok num (mk_io k (io_in s) (io_out s ++ take (Z.to_nat (num - total)) (drop (Z.to_nat total) buf))).
Proof.
  induction fuel as [|fuel IH]; intros total s Ht Hn Hf; cbn [write_loop];
    (destruct (Z.eqb_spec total num) as [->|Hne];
     [rewrite Z.sub_diag; cbn; rewrite app_nil_r; destruct s; by eexists|]); [lia|].
  rewrite (proj2 (Z.ltb_ge total 0)) by lia. unfold bind, write. pose proof (Hwr (io_calls s) (num - total) ltac:(lia)) as Hr.
  set (r := wr (io_calls s) (num - total)) in *.
  destruct (IH (total + r) (mk_io (S (io_calls s)) (io_in s) (io_out s ++ take (Z.to_nat r) (drop (Z.to_nat total) buf)))) as [k E]; [lia|lia|lia|].
  exists k. rewrite E. cbn [io_in io_out]. rewrite <- app_assoc. do 3 f_equal.
  replace (Z.to_nat (total + r)) with (Z.to_nat total + Z.to_nat r)%nat by lia. rewrite <- drop_drop.
  replace (Z.to_nat (num - total)) with (Z.to_nat r + Z.to_nat (num - (total + r)))%nat by lia. by rewrite take_take_drop.
Qed.

Lemma write_all_ok buf num s :
  0 <= num <= Z.of_nat (length buf) ->
  exists k, write_all wr buf num s = Ok num (mk_io k (io_in s) (io_out s ++ take (Z.to_nat num) buf)).
Proof.
  intros Hn. destruct (write_all_loop buf num (Z.to_nat num) 0 s) as [k E]; [lia|lia|lia|]. exists k. unfold write_all. rewrite E.
  by rewrite Z.sub_0_r, drop_0.
Qed.

(** What [read] gives is the start of what is left, and it is not empty before the end. *)
Lemma read_spec b s : 1 <= b ->
  exists chunk rest, read rd b s = Ok chunk (mk_io (S (io_calls s)) rest (io_out s)) /\ io_in s = chunk ++ rest /\
    Z.of_nat (length chunk) <= b /\ (chunk = [] -> rest = []).
Proof.
  intros Hb. unfold read. destruct (io_in s) as [|c l] eqn:E; [by exists [], []; repeat split; cbn; lia|].
  set (n := Z.min b (Z.of_nat (length (c :: l)))). assert (Hn : 1 <= n) by (unfold n; cbn; lia).
  pose proof (Hrd (io_calls s) n Hn) as Hr. set (r := rd (io_calls s) n) in *.
  exists (take (Z.to_nat r) (c :: l)), (drop (Z.to_nat r) (c :: l)). split; [done|]. split; [by rewrite take_drop|].
  split; [rewrite length_take; lia|]. intros H. apply (f_equal length) in H. rewrite length_take in H. cbn in H. lia.
Qed.

(** ** Lines *)

Context (o : hd_opts) (garbage : list Z).

(** The scan of a block and the lines of what comes after it. *)
Lemma scan_spec l : forall i lineas,
  let '(j, lineas') := scan o l i lineas in
  i <= j <= i + Z.of_nat (length l) /\
  forall rest, head_lines (l ++ rest) (num_lineas o - lineas) =
    take (Z.to_nat (j - i)) l ++ (if lineas' =? num_lineas o then [] else head_lines rest (num_lineas o - lineas')) /\
  (lineas' <> num_lineas o -> j = i + Z.of_nat (length l)).
Proof.
  induction l as [|c l IH]; intros i lineas; cbn [scan].
  - split; [cbn; lia|]. intros rest. rewrite Z.sub_diag. split; [|cbn; lia]. cbn [app take Z.to_nat].
    destruct (Z.eqb_spec lineas (num_lineas o)) as [->|]; [|done]. rewrite Z.sub_diag. by destruct rest.
  - destruct (Z.eqb_spec lineas (num_lineas o)) as [->|Hne].
    + split; [lia|]. intros rest. rewrite !Z.sub_diag, Z.eqb_refl. done.
    + specialize (IH (i + 1) (if c =? 10 then lineas + 1 else lineas)). destruct (scan o l _ _) as [j lineas'] eqn:E.
      destruct IH as [Hj IH]. cbn [length]. split; [lia|]. intros rest. destruct (IH rest) as [A B]. split; [|lia].
      cbn [app head_lines]. rewrite (proj2 (Z.eqb_neq (num_lineas o - lineas) 0)) by lia.
      replace (if c =? 10 then num_lineas o - lineas - 1 else num_lineas o - lineas)
        with (num_lineas o - (if c =? 10 then lineas + 1 else lineas)) by (destruct (c =? 10); lia).
      rewrite A. replace (Z.to_nat (j - i)) with (S (Z.to_nat (j - (i + 1)))) by lia. done.
Qed.

Lemma hd_loop_lines fuel : forall lineas rest s,
  flag o <> 2 -> 1 <= bloque o -> (length (io_in s) + 2 <= fuel)%nat ->
  exists k rem, hd_loop rd wr o garbage fuel lineas rest s =
    Ok tt (mk_io k rem (io_out s ++ head_lines (io_in s) (num_lineas o - lineas))).
Proof.
  induction fuel as [|fuel IH]; intros lineas rest s Hfl Hb Hf; [lia|]. cbn [hd_loop].
  destruct (read_spec (bloque o) s Hb) as (chunk & rem & Er & Es & Hc & He). rewrite (bind_ok _ _ _ _ _ Er).
  rewrite (proj2 (Z.eqb_neq (flag o) 2)) by done. pose proof (scan_spec chunk 0 lineas) as Hsc.
  destruct (scan o chunk 0 lineas) as [i lineas'] eqn:Esc. destruct Hsc as [Hi Hh]. rewrite Es. rewrite (proj1 (Hh rem)), Z.sub_0_r.
  set (buf := chunk ++ drop (length chunk) garbage). set (s1 := mk_io _ rem _).
  assert (Hbuf : Z.of_nat (length chunk) <= Z.of_nat (length buf)) by (unfold buf; rewrite length_app; lia).
  assert (Ht : take (Z.to_nat i) buf = take (Z.to_nat i) chunk) by (unfold buf; rewrite take_app_le; [done|lia]).
  assert (Ew : exists k, (if negb (Z.of_nat (length chunk) =? 0) then
      if i <? bloque o then write_all wr buf i ;;; ret tt
      else write_all wr buf (if Z.of_nat (length chunk) <? bloque o then Z.of_nat (length chunk) else bloque o) ;;; ret tt
    else ret tt) s1 = Ok tt (mk_io k rem (io_out s ++ take (Z.to_nat i) chunk))).
  { destruct (Z.eqb_spec (Z.of_nat (length chunk)) 0) as [E0|E0]; cbn [negb].
    - assert (i = 0) as -> by lia. eexists. unfold s1. cbn. by rewrite app_nil_r.
    - destruct (Z.ltb_spec i (bloque o)) as [Hlt|Hge].
      + destruct (write_all_ok buf i s1 ltac:(lia)) as [k Ek]. exists k. rewrite (bind_ok _ _ _ _ _ Ek). cbn. by rewrite Ht.
      + assert (i = bloque o) as -> by lia. assert (Hlc : Z.of_nat (length chunk) = bloque o) by lia. rewrite Hlc, Z.ltb_irrefl.
        destruct (write_all_ok buf (bloque o) s1 ltac:(lia)) as [k Ek]. exists k. rewrite (bind_ok _ _ _ _ _ Ek). cbn. by rewrite Ht. }
  destruct Ew as [k Ek]. rewrite (bind_ok _ _ _ _ _ Ek).
  destruct (Z.eqb_spec lineas' (num_lineas o)) as [El|El]; cbn [orb].
  - exists k, rem. cbn. by rewrite app_nil_r.
  - assert (i = Z.of_nat (length chunk)) as -> by (apply (Hh []) in El; lia).
    destruct (Z.eqb_spec (Z.of_nat (length chunk)) 0) as [E0|E0].
    + assert (chunk = []) as -> by (destruct chunk; [done|cbn in E0; lia]). rewrite (He eq_refl). exists k, []. done.
    + destruct (IH lineas' rest (mk_io k rem (io_out s ++ take (Z.to_nat (Z.of_nat (length chunk))) chunk))) as (k2 & rem2 & E2); [done|done| |].
      { cbn. rewrite Es, length_app in Hf. lia. }
      exists k2, rem2. rewrite E2. cbn [io_in io_out]. by rewrite <- app_assoc.
Qed.

Lemma hd_files_lines files : forall s,
  flag o <> 2 -> 1 <= bloque o ->
  exists k rem, hd_files rd wr o garbage (Some <$> files) s =
    Ok tt (mk_io k rem (io_out s ++ concat ((fun l => head_lines l (num_lineas o)) <$> files))).
Proof.
  induction files as [|l files IH]; intros s Hfl Hb; [destruct s; eexists _, _; cbn; by rewrite app_nil_r|].
  destruct (hd_loop_lines (length l + 2) 0 (bytes o) (mk_io (io_calls s) l (io_out s)) Hfl Hb ltac:(cbn; lia)) as (k & rem & E).
  change (hd_files rd wr o garbage (Some <$> (l :: files)) s) with
    ((let! go := hd_file rd wr o garbage (Some l) in if go : bool then hd_files rd wr o garbage (Some <$> files) else ret tt) s).
  assert (Ef : hd_file rd wr o garbage (Some l) s = Ok true (mk_io k rem (io_out s ++ head_lines l (num_lineas o)))).
  { unfold hd_file, modify, bind, ret. cbn [io_in io_out] in E. rewrite Z.sub_0_r in E. by rewrite E. }
  rewrite (bind_ok _ _ _ _ _ Ef). destruct (IH (mk_io k rem (io_out s ++ head_lines l (num_lineas o))) Hfl Hb) as (k2 & rem2 & E2).
  exists k2, rem2. rewrite E2. cbn [io_out fmap list_fmap concat]. by rewrite <- app_assoc.
Qed.

(** ** Bytes *)

Lemma hd_loop_bytes fuel : forall rest lineas s,
  (forall k n, rd k n = n) -> flag o = 2 -> 1 <= bloque o -> (length (io_in s) + 2 <= fuel)%nat -> 0 <= rest <= Z.of_nat (length (io_in s)) ->
  exists k rem, hd_loop rd wr o garbage fuel lineas rest s = Ok tt (mk_io k rem (io_out s ++ take (Z.to_nat rest) (io_in s))).
Proof.
  induction fuel as [|fuel IH]; intros rest lineas s Hfull Hfl Hb Hf Hr; [lia|]. cbn [hd_loop].
  assert (Er : read rd (bloque o) s = Ok (take (Z.to_nat (bloque o)) (io_in s)) (mk_io (S (io_calls s)) (drop (Z.to_nat (bloque o)) (io_in s)) (io_out s))).
  { unfold read. rewrite Hfull. destruct (io_in s) as [|c l]; [by rewrite take_nil, drop_nil|].
    destruct (Z.le_ge_cases (bloque o) (Z.of_nat (length (c :: l)))).
    - by rewrite Z.min_l by done.
    - rewrite Z.min_r, Nat2Z.id by done. by rewrite !take_ge, !drop_ge by lia. }
  rewrite (bind_ok _ _ _ _ _ Er), Hfl. change (2 =? 2) with true. cbv iota. rewrite length_take.
  set (chunk := take _ _). set (buf := chunk ++ _). destruct (Z.ltb_spec (bloque o) rest) as [Hlt|Hge].
  - assert (Hm : (Z.to_nat (bloque o) `min` length (io_in s))%nat = Z.to_nat (bloque o)) by lia. rewrite Hm, Z2Nat.id by lia.
    rewrite Z.ltb_irrefl. assert (Hbl : (Z.to_nat (bloque o) <= length buf)%nat) by (unfold buf, chunk; rewrite length_app, length_take; lia).
    edestruct (write_all_ok buf (bloque o)) as [k Ek]; [lia|]. rewrite (bind_ok _ _ _ _ _ Ek).
    rewrite (proj2 (Z.eqb_neq _ _)) by lia. cbn [io_in io_out].
    destruct (IH (rest - bloque o) lineas (mk_io k (drop (Z.to_nat (bloque o)) (io_in s)) (io_out s ++ take (Z.to_nat (bloque o)) buf)))
      as (k2 & rem2 & E2); try done; [cbn [io_in]; rewrite length_drop; lia..|].
    exists k2, rem2. rewrite E2. cbn [io_in io_out]. rewrite <- app_assoc. do 3 f_equal.
    replace (take (Z.to_nat (bloque o)) buf) with chunk by (unfold buf, chunk; rewrite take_app_le, take_take by (rewrite length_take; lia); f_equal; lia).
    unfold chunk. rewrite take_take_drop. f_equal. lia.
  - assert (Hbl : (Z.to_nat rest <= length chunk)%nat) by (unfold chunk; rewrite length_take; lia).
    edestruct (write_all_ok buf rest) as [k Ek]; [unfold buf; rewrite length_app; lia|]. rewrite (bind_ok _ _ _ _ _ Ek).
    eexists _, _. unfold ret. cbn [io_in io_out]. do 3 f_equal. unfold buf. rewrite take_app_le by lia. unfold chunk. rewrite take_take. f_equal. lia.
Qed.

End Proofs.

Lemma hd_options_bloque opts : forall o o', hd_options o opts = inl o' -> 1 <= bloque o <= MAX_T -> 1 <= bloque o' <= MAX_T.
Proof.
  induction opts as [|[n|n|n|] opts IH]; intros o o'; cbn [hd_options].
  - by intros [= ->].
  - destruct (_ =? _); [done|]. intros H Hb. apply (IH _ _ H). exact Hb.
  - destruct (_ =? _); [done|]. intros H Hb. apply (IH _ _ H). exact Hb.
  - destruct (_ || _) eqn:E; [done|]. apply orb_false_iff in E as [E1%Z.ltb_ge E2%Z.ltb_ge]. intros H _. apply (IH _ _ H). unfold MIN_T in *. cbn. lia.
  - done.
Qed.

(** C32: [hd -l n] writes the first [n] lines of each of its files, in their order, whatever
    the size of the blocks ([-t]) and however many bytes each [read] and [write] moves;
    all of the file when it has fewer lines. *)
Theorem hd_writes_lines rd wr garbage opts o stdin files s :
  (forall k n, 1 <= n -> 1 <= rd k n <= n) -> (forall k n, 1 <= n -> 1 <= wr k n <= n) ->
  hd_options hd_default opts = inl o -> flag o <> 2 ->
  exists s', run_hd rd wr garbage opts stdin (Some <$> files) s = Ok None s' /\
    io_out s' = io_out s ++ concat ((fun l => head_lines l (num_lineas o)) <$> match files with [] => [stdin] | _ :: _ => files end).
Proof.
  intros Hrd Hwr Ho Hfl. pose proof (hd_options_bloque opts _ _ Ho ltac:(cbn; unfold MAX_T; lia)) as [Hb _].
  destruct (hd_files_lines rd wr Hrd Hwr o garbage (match files with [] => [stdin] | _ :: _ => files end) s Hfl Hb) as (k & rem & E).
  eexists (mk_io k rem _). split; [|reflexivity]. unfold run_hd. rewrite Ho. erewrite bind_ok; [reflexivity|]. rewrite <- E. by destruct files.
Qed.

(** [hd -b n] writes the first [n] bytes of a file that has them, in blocks of any size;
    of a shorter file it writes the file and then the rest of its block of memory, so
    that [n] bytes are written anyway. *)
Theorem hd_writes_bytes wr garbage opts o l s :
  (forall k n, 1 <= n -> 1 <= wr k n <= n) -> hd_options hd_default opts = inl o -> flag o = 2 -> 0 <= bytes o ->
  (bytes o <= Z.of_nat (length l) ->
   exists s', run_hd (fun _ n => n) wr garbage opts [] [Some l] s = Ok None s' /\ io_out s' = io_out s ++ take (Z.to_nat (bytes o)) l) /\
  (Z.of_nat (length l) < bytes o <= bloque o -> Z.of_nat (length garbage) = bloque o ->
   exists s', run_hd (fun _ n => n) wr garbage opts [] [Some l] s = Ok None s' /\
     io_out s' = io_out s ++ l ++ take (Z.to_nat (bytes o) - length l) (drop (length l) garbage)).
Proof.
  intros Hwr Ho Hfl Hby. pose proof (hd_options_bloque opts _ _ Ho ltac:(cbn; unfold MAX_T; lia)) as [Hb _].
  split.
  - intros Hl. destruct (hd_loop_bytes (fun _ n => n) wr Hwr o garbage (length l + 2) (bytes o) 0 (mk_io (io_calls s) l (io_out s)))
      as (k & rem & E); [done|done|done|cbn; lia|cbn; lia|].
    exists (mk_io k rem (io_out s ++ take (Z.to_nat (bytes o)) l)). split; [|done].
    unfold run_hd, hd_files, hd_file, modify, bind, ret. rewrite Ho, E. reflexivity.
  - intros [Hl1 Hl2] Hg. set (s0 := mk_io (io_calls s) l (io_out s)).
    assert (Er : read (fun _ n => n) (bloque o) s0 = Ok l (mk_io (S (io_calls s)) [] (io_out s))).
    { unfold read, s0. cbn [io_in io_calls io_out]. destruct l as [|c l']; [done|]. rewrite Z.min_r by lia. rewrite Nat2Z.id.
      by rewrite take_ge, drop_ge by lia. }
    destruct (write_all_ok wr Hwr (l ++ drop (length l) garbage) (bytes o) (mk_io (S (io_calls s)) [] (io_out s))) as [k Ek].
    { rewrite length_app, length_drop. lia. }
    assert (El : hd_loop (fun _ n => n) wr o garbage (length l + 2) 0 (bytes o) s0 =
      Ok tt (mk_io k [] (io_out s ++ take (Z.to_nat (bytes o)) (l ++ drop (length l) garbage)))).
    { replace (length l + 2)%nat with (S (length l + 1)) by lia. cbn [hd_loop]. rewrite (bind_ok _ _ _ _ _ Er), Hfl. change (2 =? 2) with true. cbv iota.
      rewrite (proj2 (Z.ltb_ge _ _)) by lia. by rewrite (bind_ok _ _ _ _ _ Ek). }
    eexists. split; [unfold run_hd, hd_files, hd_file, modify, bind, ret; rewrite Ho; fold s0; rewrite El; reflexivity|].
    cbn [io_out]. f_equal. rewrite take_app. f_equal. by rewrite take_ge by lia.
Qed.

Lemma hd_writes_lines_witness :
  let l := [chars "ab"; [10]; chars "cde"; [10]; chars "f"] in
  exists s', run_hd (fun _ _ => 1) (fun _ _ => 1) (replicate 4 0) [Opt_t 4; Opt_l 2] [] [Some (concat l)] (mk_io 0 [] []) = Ok None s' /\
    io_out s' = concat (take 4 l).
Proof.
  intros l. destruct (hd_writes_lines (fun _ _ => 1) (fun _ _ => 1) (replicate 4 0) [Opt_t 4; Opt_l 2] (mk_hd 1 2 1 4) [] [concat l] (mk_io 0 [] []))
    as (s' & E & Hs); [intros; lia|intros; lia|reflexivity|done|]. exists s'. split; [exact E|]. rewrite Hs. reflexivity.
Defined.

Lemma hd_writes_bytes_witness :
  exists s', run_hd (fun _ n => n) (fun _ n => n) (replicate 4 88) [Opt_t 4; Opt_b 4] [] [Some (chars "abc")] (mk_io 0 [] []) = Ok None s' /\
    io_out s' = chars "abcX".
Proof.
  destruct (hd_writes_bytes (fun _ n => n) (replicate 4 88) [Opt_t 4; Opt_b 4] (mk_hd 2 3 4 4) (chars "abc") (mk_io 0 [] [])) as [_ H];
    [intros; lia|reflexivity|done|cbn; lia|]. destruct H as (s' & E & Hs); [cbn; lia|reflexivity|]. exists s'. split; [exact E|]. rewrite Hs. reflexivity.
Defined.
