(* ===== verification/Grep.v ===== *)
(** * Grep: the user program grep (grep.c)

    Strings are the characters before their NUL.  [grep] reads a file in pieces: the
    parameter [rd] says how many of the bytes it asks for each [read] gives.  The theorems
    compare [match] with the language of the pattern, and [grep] with the lines of the
    file. *)

From S2P Require Import Prelude.

(** ** The matcher *)

(** [matchstar], with [matchhere(re, .)] as a function of the text. *)
Fixpoint matchstar (here : list Z -> bool) (c : Z) (text : list Z) : bool :=
  if here text then true
  else
    match text with
    | [] => false
    | t :: text' => if (t =? c) || (c =? 46) then matchstar here c text' else false
    end.

Fixpoint matchhere (re text : list Z) : bool :=
  match re with
  | [] => true
  | c :: re1 =>
      let rest :=
        if (c =? 36) && bool_decide (re1 = []) then bool_decide (text = [])
        else
          match text with
          | t :: text' => if (c =? 46) || (c =? t) then matchhere re1 text' else false
          | [] => false
          end in
      match re1 with
      | d :: re2 => if d =? 42 then matchstar (matchhere re2) c text else rest
      | [] => rest
      end
  end.

(** The [do ... while] of [match]. *)
Fixpoint match_any (re text : list Z) : bool :=
  if matchhere re text then true
  else match text with [] => false | _ :: text' => match_any re text' end.

Definition match_re (re text : list Z) : bool :=
  match re with
  | c :: re1 => if c =? 94 then matchhere re1 text else match_any re text
  | [] => match_any re text
  end.

(** ** grep *)

Definition BUFSIZE : nat := 1024.

(** [strchr(p, '\n') - p] of the string at [p]. *)
Fixpoint newline (p : list Z) : option nat :=
  match p with
  | [] => None
  | c :: p' => if c =? 0 then None else if c =? 10 then Some 0%nat else S <$> newline p'
  end.

(** The inner [while]: what is written, and what is left at [p]. *)
Fixpoint grep_buf (fuel : nat) (pattern p : list Z) : list Z * list Z :=
  match fuel, newline p with
  | S fuel', Some q =>
      let line := take q p in
      let '(out, rest) := grep_buf fuel' pattern (drop (S q) p) in
      ((if match_re pattern line then line ++ [10] else []) ++ out, rest)
  | _, _ => ([], p)
  end.

Section Grep.
Context (rd : nat -> Z -> Z) (pattern : list Z).

(** The outer [while], with the [m] bytes kept in the buffer; [k] counts the reads. *)
Fixpoint grep_loop (fuel k : nat) (kept content : list Z) : option (list Z) :=
  match fuel with
  | O => None
  | S fuel' =>
      let want := Z.of_nat (BUFSIZE - length kept - 1) in
      let n := Z.to_nat (rd k (Z.min want (Z.of_nat (length content)))) in
      if bool_decide (n = 0%nat) then Some []
      else
        let buf := kept ++ take n content in
        let '(out, p) := grep_buf (length buf) pattern buf in
        let kept' := if bool_decide (length p = length buf) then [] else p in
        (fun more => out ++ more) <$> grep_loop fuel' (S k) kept' (drop n content)
  end.

Definition grep (content : list Z) : option (list Z) := grep_loop (S (length content)) 0 [] content.

End Grep.

(** ** The language of a pattern *)

Inductive item : Type := One (c : Z) | Many (c : Z).

(** The pieces of a pattern after its [^], and whether it ends in [$]. *)
Fixpoint items (re : list Z) : list item * bool :=
  match re with
  | [] => ([], false)
  | c :: re1 =>
      match re1 with
      | d :: re2 =>
          if d =? 42 then (let '(l, e) := items re2 in (Many c :: l, e))
          else (let '(l, e) := items re1 in (One c :: l, e))
      | [] => if c =? 36 then ([], true) else ([One c], false)
      end
  end.

(** [.] stands for any character. *)
Definition stands (c t : Z) : Prop := c = 46 \/ c = t.

Inductive lang : list item -> list Z -> Prop :=
| lang_nil : lang [] []
| lang_one c t l s : stands c t -> lang l s -> lang (One c :: l) (t :: s)
| lang_none c l s : lang l s -> lang (Many c :: l) s
| lang_more c t l s : stands c t -> lang (Many c :: l) s -> lang (Many c :: l) (t :: s).

(** The text has a word of the language at its start, up to its end if the pattern has
    a [$]. *)
Definition starts (p : list item * bool) (text : list Z) : Prop :=
  exists a b, text = a ++ b /\ lang p.1 a /\ (p.2 = true -> b = []).

Lemma starts_nil e text : starts ([], e) text <-> (e = true -> text = []).
Proof.
  split.
  - intros (a & b & -> & Hl & He). cbn in *. inversion Hl. exact He.
  - intros He. exists [], text. split; [done|]. split; [constructor|done].
Qed.

Lemma starts_one c l e text : starts (One c :: l, e) text <-> exists t text', text = t :: text' /\ stands c t /\ starts (l, e) text'.
Proof.
  split.
  - intros (a & b & -> & Hl & He). cbn in *. inversion Hl; subst. eexists _, _. split; [done|]. split; [done|]. by eexists _, _.
  - intros (t & text' & -> & Hs & a & b & -> & Hl & He). exists (t :: a), b. split; [done|]. split; [by constructor|done].
Qed.

Lemma starts_many c l e text : starts (Many c :: l, e) text <->
  starts (l, e) text \/ exists t text', text = t :: text' /\ stands c t /\ starts (Many c :: l, e) text'.
Proof.
  split.
  - intros (a & b & -> & Hl & He). cbn in *. inversion Hl; subst; [left; by exists a, b|right]. eexists _, _. split; [done|]. split; [done|]. by eexists _, _.
  - intros [(a & b & -> & Hl & He)|(t & text' & -> & Hs & a & b & -> & Hl & He)].
    + exists a, b. split; [done|]. split; [by apply lang_none|done].
    + exists (t :: a), b. split; [done|]. split; [by apply lang_more|done].
Qed.

Lemma stands_eqb c t : (t =? c) || (c =? 46) = true <-> stands c t.
Proof. unfold stands. rewrite orb_true_iff, !Z.eqb_eq. naive_solver. Qed.

Lemma matchstar_spec here l e c : (forall text, here text = true <-> starts (l, e) text) ->
  forall text, matchstar here c text = true <-> starts (Many c :: l, e) text.
Proof.
  intros Hh. induction text as [|t text IH]; cbn [matchstar]; rewrite starts_many; destruct (here _) eqn:E.
  - naive_solver.
  - split; [done|]. intros [H%Hh|(? & ? & ? & _)]; congruence.
  - naive_solver.
  - destruct ((t =? c) || (c =? 46)) eqn:Et.
    + apply stands_eqb in Et. rewrite IH. split; [intros H; right; by exists t, text|].
      intros [H%Hh|(t' & text' & [= <- <-] & _ & H)]; [congruence|done].
    + split; [done|]. intros [H%Hh|(t' & text' & [= <- <-] & Hs%stands_eqb & _)]; congruence.
Qed.

Lemma matchhere_spec re : forall text, matchhere re text = true <-> starts (items re) text.
Proof.
  induction re as [re IH] using (induction_ltof1 _ (@length Z)); unfold ltof in IH. intros text.
  destruct re as [|c re1]; [cbn; rewrite starts_nil; naive_solver|]. cbn [matchhere items].
  assert (Hone : forall l e, (forall text, matchhere re1 text = true <-> starts (l, e) text) ->
    (match text with t :: text' => if (c =? 46) || (c =? t) then matchhere re1 text' else false | [] => false end = true <->
     starts (One c :: l, e) text)).
  { intros l e Hl. rewrite starts_one. destruct text as [|t text]; [split; [done|naive_solver]|].
    replace ((c =? 46) || (c =? t)) with ((t =? c) || (c =? 46)) by (rewrite orb_comm; f_equal; apply Z.eqb_sym).
    destruct ((t =? c) || (c =? 46)) eqn:Et; [apply stands_eqb in Et; rewrite Hl; naive_solver|].
    split; [done|]. intros (? & ? & [= <- <-] & Hs%stands_eqb & _). congruence. }
  destruct re1 as [|d re2].
  - rewrite bool_decide_eq_true_2, andb_true_r by done. destruct (c =? 36).
    + rewrite bool_decide_eq_true, starts_nil. naive_solver.
    + apply Hone. intros text'. rewrite (IH []) by (cbn; lia). done.
  - rewrite (bool_decide_eq_false_2 (d :: re2 = [])), andb_false_r by done. destruct (d =? 42).
    + destruct (items re2) as [l e] eqn:E. apply matchstar_spec. intros text'. rewrite (IH re2) by (cbn; lia). by rewrite E.
    + destruct (items (d :: re2)) as [l e] eqn:E. apply Hone. intros text'. rewrite (IH (d :: re2)) by (cbn; lia). by rewrite E.
Qed.

Lemma match_any_spec re text : match_any re text = true <-> exists a b, text = a ++ b /\ starts (items re) b.
Proof.
  induction text as [|t text IH]; cbn [match_any]; destruct (matchhere re _) eqn:E.
  - split; [intros _; exists [], []; split; [done|by apply matchhere_spec]|done].
  - split; [done|]. intros (a & b & H & Hs). symmetry in H. apply app_eq_nil in H as [-> ->]. apply matchhere_spec in Hs. congruence.
  - split; [intros _; exists [], (t :: text); split; [done|by apply matchhere_spec]|done].
  - rewrite IH. split.
    + intros (a & b & -> & Hs). by exists (t :: a), b.
    + intros ([|x a] & b & H & Hs); [cbn in H; subst b; apply matchhere_spec in Hs; congruence|]. injection H as -> ->. by exists a, b.
Qed.

(** The pattern without its [^], and whether it has one. *)
Definition caret (re : list Z) : bool := match re with c :: _ => c =? 94 | [] => false end.
Definition body (re : list Z) : list Z := if caret re then tail re else re.

(** C22: [match] decides the language of its pattern: it is true exactly when some part of
    the text is a word of the pattern, where a character stands for itself, a dot for any
    character, and either of them with a star for any number of them; a caret ties the
    part to the start of the text and a dollar to its end. *)
Theorem match_decides_language re text :
  match_re re text = true <->
  exists a b c, text = a ++ b ++ c /\ lang (items (body re)).1 b /\
    (caret re = true -> a = []) /\ ((items (body re)).2 = true -> c = []).
Proof.
  assert (H : match_re re text = true <-> exists a s, text = a ++ s /\ starts (items (body re)) s /\ (caret re = true -> a = [])).
  { unfold match_re, body, caret. destruct re as [|c re1]; [rewrite match_any_spec; naive_solver|]. destruct (c =? 94).
    - rewrite matchhere_spec. cbn [tail]. split; [intros Hs; by exists [], text|]. intros (a & s & -> & Hs & Ha). by rewrite Ha.
    - rewrite match_any_spec. naive_solver. }
  rewrite H. unfold starts. split.
  - intros (a & s & -> & (b & c & -> & Hl & Hc) & Ha). by exists a, b, c.
  - intros (a & b & c & -> & Hl & Ha & Hc). exists a, (b ++ c). split; [done|]. split; [by exists b, c|done].
Qed.

(** ** Lines *)

Definition plain (l : list Z) : Prop := Forall (fun c => c <> 10 /\ c <> 0) l.

Lemma newline_line l r : plain l -> newline (l ++ 10 :: r) = Some (length l).
Proof.
  induction 1 as [|c l [H10 H0] _ IH]; [done|]. cbn [newline app length].
  by rewrite (proj2 (Z.eqb_neq c 0)), (proj2 (Z.eqb_neq c 10)), IH by done.
Qed.

Lemma newline_none l : Forall (fun c => c <> 10) l -> newline l = None.
Proof. induction 1 as [|c l H _ IH]; [done|]. cbn [newline]. rewrite (proj2 (Z.eqb_neq c 10)), IH by done. by destruct (c =? 0). Qed.

Definition file (ls : list (list Z)) : list Z := concat ((fun l => l ++ [10]) <$> ls).
Definition matching (pattern : list Z) (ls : list (list Z)) : list Z := file (filter (fun l => match_re pattern l = true) ls).

Lemma file_app a b : file (a ++ b) = file a ++ file b.
Proof. unfold file. by rewrite fmap_app, concat_app. Qed.

Lemma matching_cons pattern l ls :
  matching pattern (l :: ls) = (if match_re pattern l then l ++ [10] else []) ++ matching pattern ls.
Proof. unfold matching, file. rewrite filter_cons. destruct (match_re pattern l); [by rewrite decide_True|by rewrite decide_False]. Qed.

Lemma matching_app pattern a b : matching pattern (a ++ b) = matching pattern a ++ matching pattern b.
Proof. unfold matching. by rewrite filter_app, file_app. Qed.

(** The inner loop on whole lines and part of one. *)
Lemma grep_buf_lines pattern ls : forall fuel r,
  Forall plain ls -> Forall (fun c => c <> 10) r -> (length ls <= fuel)%nat ->
  grep_buf fuel pattern (file ls ++ r) = (matching pattern ls, r).
Proof.
  induction ls as [|l ls IH]; intros fuel r Hl Hr Hf.
  - change (file [] ++ r) with r. destruct fuel; cbn [grep_buf]; [|rewrite newline_none by done]; done.
  - apply Forall_cons in Hl as [Hp Hl]. destruct fuel as [|fuel]; [cbn in Hf; lia|]. cbn [grep_buf].
    assert (E : file (l :: ls) ++ r = l ++ 10 :: file ls ++ r) by (unfold file; cbn; by rewrite <- !app_assoc).
    rewrite E, newline_line by done. rewrite take_app_length.
    replace (drop (S (length l)) (l ++ 10 :: file ls ++ r)) with (file ls ++ r).
    2: { replace (S (length l)) with (length l + 1)%nat by lia. by rewrite <- drop_drop, drop_app_length. }
    rewrite IH by (done || cbn in Hf; lia). by rewrite matching_cons.
Qed.

(** A prefix of a file of lines: some of its lines and the start of the next. *)
Lemma file_prefix ls : forall n, (n <= length (file ls))%nat -> Forall plain ls ->
  exists a b r, ls = a ++ b /\ take n (file ls) = file a ++ r /\ Forall (fun c => c <> 10) r /\
    (forall l b', b = l :: b' -> r ++ drop n (file ls) = file b /\ (length r <= length l)%nat) /\ (b = [] -> r = []).
Proof.
  induction ls as [|l ls IH]; intros n Hn Hl.
  - exists [], [], []. cbn in Hn. assert (n = 0%nat) as -> by lia. by repeat split.
  - apply Forall_cons in Hl as [Hp Hl]. change (file (l :: ls)) with ((l ++ [10]) ++ file ls) in *. rewrite !length_app in Hn. cbn in Hn.
    destruct (decide (n <= length l)%nat) as [Hle|Hgt].
    + exists [], (l :: ls), (take n l). split; [done|]. rewrite <- app_assoc, take_app_le by done. split; [done|]. split.
      { apply Forall_take. eapply Forall_impl; [exact Hp|]. by intros c [? _]. }
      split; [|done]. intros l0 b' [= <- <-]. rewrite drop_app_le by done. rewrite length_take. split; [|lia].
      rewrite app_assoc, take_drop. unfold file. cbn. by rewrite <- app_assoc.
    + destruct (IH (n - (length l + 1))%nat ltac:(lia) Hl) as (a & b & r & -> & Ht & Hr & Hb & Hbn).
      exists (l :: a), b, r. split; [done|]. assert (Hlen : length (l ++ [10]) = (length l + 1)%nat) by (rewrite length_app; done).
      rewrite take_app_ge, drop_app_ge, Hlen by lia. rewrite Ht. split; [by rewrite app_assoc|]. split; [done|]. split; [|done].
      intros l0 b' ->. by apply (Hb l0 b').
Qed.

Lemma file_length ls : (length ls <= length (file ls))%nat.
Proof. induction ls as [|l ls IH]; [done|]. change (file (l :: ls)) with ((l ++ [10]) ++ file ls). rewrite !length_app. cbn. lia. Qed.

Section Regular.
Context (pattern : list Z).

(** With full reads and lines that fit, the bytes kept are the start of the next line. *)
Lemma grep_loop_lines fuel : forall k ls kept content,
  Forall plain ls -> Forall (fun l => (length l + 1 < BUFSIZE)%nat) ls -> kept ++ content = file ls ->
  (forall l ls', ls = l :: ls' -> (length kept <= length l)%nat) -> (length content < fuel)%nat ->
  grep_loop (fun _ n => n) pattern fuel k kept content = Some (matching pattern ls).
Proof.
  induction fuel as [|fuel IH]; intros k ls kept content Hp Hfit E Hk Hf; [lia|]. cbn [grep_loop].
  set (n := Z.to_nat (Z.min _ _)). assert (Hn : n = Nat.min (BUFSIZE - length kept - 1) (length content)) by (unfold n; lia).
  destruct ls as [|l ls].
  { destruct kept, content; try discriminate E. rewrite bool_decide_eq_true_2; [done|]. rewrite Hn. cbn. lia. }
  specialize (Hk l ls eq_refl). pose proof Hfit as Hfit'. apply Forall_cons in Hfit' as [Hl1 _].
  assert (Hlen : (length kept + length content = length (file (l :: ls)))%nat) by (rewrite <- length_app, E; done).
  assert (Hfl : (length l + 1 <= length (file (l :: ls)))%nat) by (change (file (l :: ls)) with ((l ++ [10]) ++ file ls); rewrite !length_app; cbn; lia).
  rewrite bool_decide_eq_false_2 by lia.
  assert (Hbuf : kept ++ take n content = take (length kept + n) (file (l :: ls))).
  { rewrite <- E, take_app_ge by lia. f_equal. f_equal. lia. }
  assert (Hrest : drop n content = drop (length kept + n) (file (l :: ls))) by (rewrite <- E, drop_app_ge by lia; f_equal; lia).
  destruct (file_prefix (l :: ls) (length kept + n) ltac:(lia) Hp) as (a & b & r & Eab & Ht & Hr & Hb & Hbn).
  rewrite Hbuf, Hrest, Ht. rewrite Eab in Hp, Hfit. apply Forall_app in Hp as [Hpa Hpb]. apply Forall_app in Hfit as [Hfa Hfb].
  rewrite grep_buf_lines by (done || (rewrite length_app; pose proof (file_length a); lia)).
  assert (Ha : a <> []).
  { intros ->. cbn in Eab. subst b. destruct (Hb l ls eq_refl) as [_ Hrl]. change (file [] ++ r) with r in Ht.
    apply (f_equal length) in Ht. rewrite length_take in Ht. unfold BUFSIZE in *. lia. }
  assert (Hal : (0 < length (file a))%nat) by (pose proof (file_length a); destruct a; cbn in *; [done|lia]).
  rewrite bool_decide_eq_false_2 by (rewrite length_app; lia).
  rewrite (IH (S k) b r); [by rewrite Eab, matching_app|done|done| | |].
  - destruct b as [|l0 b']; [|by apply (Hb l0 b')]. rewrite (Hbn eq_refl). rewrite <- Hrest. cbn.
    apply (f_equal length) in Ht. rewrite length_take, length_app, (Hbn eq_refl) in Ht. rewrite app_nil_r in Eab. rewrite Eab in Ht, Hlen. cbn in Ht.
    apply nil_length_inv. rewrite length_drop. lia.
  - intros l0 b' ->. by apply (Hb l0 b').
  - rewrite <- Hrest, length_drop. lia.
Qed.

End Regular.

(** C23: On a file of lines that fit its buffer, read in full pieces, [grep] ends and writes
    exactly the lines that match, in their order. *)
Theorem grep_prints_matches pattern ls :
  Forall plain ls -> Forall (fun l => (length l + 1 < BUFSIZE)%nat) ls ->
  grep (fun _ n => n) pattern (file ls) = Some (matching pattern ls).
Proof. intros Hp Hf. apply grep_loop_lines; [done|done|done|cbn; lia|lia]. Qed.

(** A piece of a line that [read] gives without its newline is thrown away: [grep] goes
    on as if the file began after it. *)
Theorem grep_drops_short_read rd pattern l content :
  plain l -> rd 0%nat (Z.min 1023 (Z.of_nat (length (l ++ content)))) = Z.of_nat (length l) -> l <> [] ->
  exists fuel, grep rd pattern (l ++ content) = grep_loop rd pattern fuel 1 [] content /\ (length content < fuel)%nat.
Proof.
  intros Hp Hr Hne. exists (length (l ++ content)). split.
  - unfold grep. cbn [grep_loop length]. change (Z.of_nat (BUFSIZE - 0 - 1)) with 1023. rewrite Hr, Nat2Z.id.
    rewrite bool_decide_eq_false_2 by (destruct l; done). cbn [app]. rewrite take_app_length, drop_app_length.
    assert (Hnn : newline l = None) by (apply newline_none; eapply Forall_impl; [exact Hp|]; by intros c [? _]).
    assert (Eb : grep_buf (length l) pattern l = ([], l)) by (destruct l as [|c l]; [done|]; cbn [grep_buf length]; by rewrite Hnn).
    rewrite Eb, bool_decide_eq_true_2 by done. by destruct (grep_loop _ _ _ _ _ _).
  - rewrite length_app. destruct l; [done|]. cbn. lia.
Qed.

Lemma grep_prints_matches_witness :
  grep (fun _ n => n) (chars "^a.*c$") (file [chars "abc"; chars "xac"; chars "ac"]) = Some (file [chars "abc"; chars "ac"]).
Proof.
  rewrite (grep_prints_matches (chars "^a.*c$") [chars "abc"; chars "xac"; chars "ac"]).
  - reflexivity.
  - repeat constructor; cbn; lia.
  - repeat constructor; cbv; lia.
Defined.

Lemma grep_drops_short_read_witness :
  exists fuel, grep (fun _ n => Z.min n 1) (chars "a") (chars "a" ++ [10]) = grep_loop (fun _ n => Z.min n 1) (chars "a") fuel 1 [] [10] /\ (1 < fuel)%nat.
Proof. apply (grep_drops_short_read (fun _ n => Z.min n 1) (chars "a") (chars "a") [10]); [repeat constructor; cbn; lia|reflexivity|discriminate]. Defined.
