(* ===== verification/Users.v ===== *)
(** * Users: the small user programs of xv6 (wc.c, cat.c, ls.c, echo.c, kill.c, ln.c, mkdir.c, rm.c, date.c, init.c, grep.c)

    A program changes what it wrote to its descriptors 1 and 2 and the list of the calls it
    made.  The rest of the system is a parameter: the files, how many of the bytes it asks for
    each [read] and [write] moves, and which calls fail.  [exit] ends [main], so a function
    that may exit returns whether the program goes on. *)

From S2P Require Import Prelude Bytes Kernel Console Simplesh Grep.

(** A file as [open], [read] and [fstat] show it. *)
Record ufile : Type := mk_ufile { f_type : Z; f_ino : Z; f_size : Z; f_bytes : list Z }.

Inductive ucall : Type :=
| Kill (pid : Z) | Link (old new : list Z) | Mkdir (path : list Z) | Unlink (path : list Z)
| Open (path : list Z) (mode : Z) | Mknod (path : list Z) (major minor : Z) | Dup (fd : Z) | Fork | Exec (path : list Z) | Wait.

(** [u_k] counts the reads and writes, which the parameters are indexed by. *)
Record user : Type := mk_user { u_k : nat; u_out : list Z; u_err : list Z; u_calls : list ucall }.
Notation U := (M user).

Definition put1 (s : list Z) : U unit := modify (fun u => mk_user (u_k u) (u_out u ++ s) (u_err u) (u_calls u)).
Definition put2 (s : list Z) : U unit := modify (fun u => mk_user (u_k u) (u_out u) (u_err u ++ s) (u_calls u)).
Definition call (c : ucall) : U unit := modify (fun u => mk_user (u_k u) (u_out u) (u_err u) (u_calls u ++ [c])).
Definition tick : U nat := fun u => Ok (u_k u) (mk_user (S (u_k u)) (u_out u) (u_err u) (u_calls u)).

(** [%d], [%s] is the string itself, and lines of a message. *)
Definition num (x : Z) : list Z := user_printint x 10 true.
Definition ln (s : list Z) : list Z := s ++ [10].

Section Programs.
Context (files : list Z -> option ufile) (rd wr : nat -> Z -> Z) (call_ok : ucall -> bool).

(** [read(fd, buf, n)] of a file with the bytes [content] left: the bytes read and those left,
    [None] for an error. *)
Definition read_fd (n : Z) (content : list Z) : U (option (list Z * list Z)) :=
  let! k := tick in
  let r := rd k (Z.min n (Z.of_nat (length content))) in
  if r <? 0 then ret None else ret (Some (take (Z.to_nat r) content, drop (Z.to_nat r) content)).

(** [write(1, buf, n)]: how many bytes were written. *)
Definition write1 (bs : list Z) : U Z :=
  let! k := tick in
  let n := wr k (Z.of_nat (length bs)) in
  put1 (take (Z.to_nat n) bs) ;;;
  ret n.

(** [for(i = ...; i < argc; i++)] over the names of files, the same in wc, cat and grep. *)
Fixpoint on_files (cannot : string) (prog : list Z -> list Z -> U bool) (args : list (list Z)) : U unit :=
  match args with
  | [] => ret tt
  | a :: args' =>
      match files a with
      | None => put1 (ln (chars cannot ++ a))
      | Some f =>
          let! go := prog (f_bytes f) a in
          if go : bool then on_files cannot prog args' else ret tt
      end
  end.

(** ** wc *)

Record counts : Type := mk_counts { cl : Z; cw : Z; cc : Z; inword : bool }.

(** [strchr(" \r\t\n\v", c)]; the [strchr] of xv6 does not find the NUL. *)
Definition wc_space (c : Z) : bool := bool_decide (c ∈ [32; 13; 9; 10; 11]).

Definition wc_char (s : counts) (c : Z) : counts :=
  let n := i32 (cc s + 1) in
  let l := if c =? 10 then i32 (cl s + 1) else cl s in
  if wc_space c then mk_counts l (cw s) n false
  else if negb (inword s) then mk_counts l (i32 (cw s + 1)) n true
  else mk_counts l (cw s) n (inword s).

(** The outer [while]: [None] for a read error. *)
Fixpoint wc_loop (fuel : nat) (content : list Z) (s : counts) : U (option counts) :=
  match fuel with
  | O => spin
  | S fuel' =>
      let! r := read_fd 512 content in
      match r with
      | None => ret None
      | Some ([], _) => ret (Some s)
      | Some (buf, rest) => wc_loop fuel' rest (foldl wc_char s buf)
      end
  end.

Definition wc (content name : list Z) : U bool :=
  let! r := wc_loop (S (length content)) content (mk_counts 0 0 0 false) in
  match r with
  | None => put1 (ln (chars "wc: read error")) ;;; ret false
  | Some s => put1 (ln (num (cl s) ++ 32 :: num (cw s) ++ 32 :: num (cc s) ++ 32 :: name)) ;;; ret true
  end.

(** [stdin] is what descriptor 0 gives. *)
Definition wc_main (stdin : list Z) (args : list (list Z)) : U unit :=
  match args with
  | [] => let! _ := wc stdin [] in ret tt
  | _ => on_files "wc: cannot open " wc args
  end.

(** ** cat *)

Fixpoint cat_loop (fuel : nat) (content : list Z) : U bool :=
  match fuel with
  | O => spin
  | S fuel' =>
      let! r := read_fd 512 content in
      match r with
      | None => put1 (ln (chars "cat: read error")) ;;; ret false
      | Some ([], _) => ret true
      | Some (buf, rest) =>
          let! n := write1 buf in
          if negb (n =? Z.of_nat (length buf)) then put1 (ln (chars "cat: write error")) ;;; ret false
          else cat_loop fuel' rest
      end
  end.
Definition cat (content : list Z) : U bool := cat_loop (S (length content)) content.

Definition cat_main (stdin : list Z) (args : list (list Z)) : U unit :=
  match args with
  | [] => let! _ := cat stdin in ret tt
  | _ => on_files "cat: cannot open " (fun content _ => cat content) args
  end.

(** ** grep *)

(** [Grep.grep] counts its own reads from where the program is; there are at most one more than
    the bytes of the file. *)
Definition grep_fd (pattern content _name : list Z) : U bool := fun u =>
  match grep (fun k => rd (u_k u + k)) pattern content with
  | None => Spin
  | Some out => (put1 out ;;; ret true) (mk_user (u_k u + S (length content)) (u_out u) (u_err u) (u_calls u))
  end.

Definition grep_main (stdin : list Z) (args : list (list Z)) : U unit :=
  match args with
  | [] => put2 (ln (chars "usage: grep pattern [file ...]"))
  | [pattern] => let! _ := grep_fd pattern stdin [] in ret tt
  | pattern :: args => on_files "grep: cannot open " (grep_fd pattern) args
  end.

(** ** echo, kill, ln, mkdir, rm, date *)

Fixpoint echo_loop (args : list (list Z)) : U unit :=
  match args with
  | [] => ret tt
  | a :: args' => put1 (a ++ (match args' with [] => [10] | _ => [32] end)) ;;; echo_loop args'
  end.
Definition echo_main : list (list Z) -> U unit := echo_loop.

(** [atoi] of ulib.c on the characters of a string. *)
Fixpoint atoi (s : list Z) (n : Z) : Z :=
  match s with
  | c :: s' => if (48 <=? c) && (c <=? 57) then atoi s' (i32 (n * 10 + c - 48)) else n
  | [] => n
  end.

Fixpoint kill_loop (args : list (list Z)) : U unit :=
  match args with
  | [] => ret tt
  | a :: args' => call (Kill (atoi a 0)) ;;; kill_loop args'
  end.
Definition kill_main (args : list (list Z)) : U unit :=
  match args with
  | [] => put2 (ln (chars "usage: kill pid..."))
  | _ => kill_loop args
  end.

Definition ln_main (args : list (list Z)) : U unit :=
  match args with
  | [old; new] =>
      call (Link old new) ;;;
      if negb (call_ok (Link old new)) then put2 (ln (chars "link " ++ old ++ chars " " ++ new ++ chars ": failed")) else ret tt
  | _ => put2 (ln (chars "Usage: ln old new"))
  end.

(** The loops of mkdir and rm: a [break] at the first call that fails. *)
Fixpoint until_fails (c : list Z -> ucall) (what failed : string) (args : list (list Z)) : U unit :=
  match args with
  | [] => ret tt
  | a :: args' =>
      call (c a) ;;;
      if negb (call_ok (c a)) then put2 (ln (chars what ++ a ++ chars failed)) else until_fails c what failed args'
  end.
Definition mkdir_main (args : list (list Z)) : U unit :=
  match args with
  | [] => put2 (ln (chars "Usage: mkdir files..."))
  | _ => until_fails Mkdir "mkdir: " " failed to create" args
  end.
Definition rm_main (args : list (list Z)) : U unit :=
  match args with
  | [] => put2 (ln (chars "Usage: rm files..."))
  | _ => until_fails Unlink "rm: " " failed to delete" args
  end.

(** [date] gives the hour, the minute and the second, or fails. *)
Definition date_main (r : option (Z * Z * Z)) : U unit :=
  match r with
  | None => put2 (ln (chars "date failed"))
  | Some (hour, minute, second) => put2 (ln (chars "date: " ++ num hour ++ 58 :: num minute ++ 58 :: num second))
  end.

(** ** ls *)

Definition T_DIR : Z := 1.
Definition T_FILE : Z := 2.

(** Backwards from the end of the path to the last slash: where the name starts. *)
Fixpoint last_slash (path : list Z) (p : nat) : nat :=
  match p with
  | O => if default 0 (path !! O) =? 47 then 1%nat else O
  | S p' => if default 0 (path !! p) =? 47 then S p else last_slash path p'
  end.

Definition fmtname (path : list Z) : list Z :=
  let p := last_slash path (length path) in
  let name := drop p path in
  if (DIRSIZ <=? length name)%nat then name else name ++ replicate (DIRSIZ - length name) 32.

Definition ls_line (path : list Z) (st : ufile) : list Z :=
  ln (fmtname path ++ 32 :: num (f_type st) ++ 32 :: num (f_ino st) ++ 32 :: num (f_size st)).

(** [stat] of ulib.c, for files whose [fstat] does not fail. *)
Definition stat (path : list Z) : option ufile := files path.

(** [while(read(fd, &de, sizeof(de)) == sizeof(de))], over the bytes of the directory. *)
Fixpoint ls_loop (fuel : nat) (prefix content : list Z) : U unit :=
  match fuel with
  | O => spin
  | S fuel' =>
      let! r := read_fd sizeof_dirent content in
      match r with
      | None => ret tt
      | Some (de, rest) =>
          if negb (Z.of_nat (length de) =? sizeof_dirent) then ret tt else
          (if get16 de 0 =? 0 then ret tt else
           let buf := prefix ++ upto_nul (slice de 2 DIRSIZ) in
           match stat buf with
           | None => put1 (ln (chars "ls: cannot stat " ++ buf))
           | Some st => put1 (ls_line buf st)
           end) ;;;
          ls_loop fuel' prefix rest
      end
  end.

(** [fstat] does not fail on a descriptor that [open] gave. *)
Definition ls (path : list Z) : U unit :=
  match files path with
  | None => put2 (ln (chars "ls: cannot open " ++ path))
  | Some st =>
      if f_type st =? T_FILE then put1 (ls_line path st)
      else if f_type st =? T_DIR then
        if (512 <? length path + 1 + DIRSIZ + 1)%nat then put1 (ln (chars "ls: path too long"))
        else ls_loop (S (length (f_bytes st))) (path ++ [47]) (f_bytes st)
      else ret tt
  end.

Fixpoint ls_all (args : list (list Z)) : U unit :=
  match args with [] => ret tt | a :: args' => ls a ;;; ls_all args' end.
Definition ls_main (args : list (list Z)) : U unit :=
  match args with [] => ls (chars ".") | _ => ls_all args end.

(** ** init *)

(** [while((wpid=wait()) >= 0 && wpid != pid)]: the results of [wait] left, [None] when they run
    out and init waits. *)
Fixpoint wait_loop (pid : Z) (waits : list Z) : U (option (list Z)) :=
  match waits with
  | [] => call Wait ;;; ret None
  | wpid :: waits' =>
      call Wait ;;;
      if (0 <=? wpid) && negb (wpid =? pid) then put1 (ln (chars "zombie!")) ;;; wait_loop pid waits' else ret (Some waits')
  end.

(** [for(;;)]: [forks] are the results of [fork]; 0 is the child, which runs sh. *)
Fixpoint init_loop (forks waits : list Z) : U unit :=
  match forks with
  | [] => put1 (ln (chars "init: starting sh")) ;;; call Fork
  | pid :: forks' =>
      put1 (ln (chars "init: starting sh")) ;;;
      call Fork ;;;
      if pid <? 0 then put1 (ln (chars "init: fork failed")) else
      if pid =? 0 then
        call (Exec (chars "sh")) ;;;
        (if call_ok (Exec (chars "sh")) then ret tt else put1 (ln (chars "init: exec sh failed")))
      else
        let! r := wait_loop pid waits in
        match r with None => ret tt | Some waits' => init_loop forks' waits' end
  end.

Definition init_main (forks waits : list Z) : U unit :=
  call (Open (chars "console") 2) ;;;
  (if call_ok (Open (chars "console") 2) then ret tt else
   call (Mknod (chars "console") 1 1) ;;; call (Open (chars "console") 2)) ;;;
  call (Dup 0) ;;;
  call (Dup 0) ;;;
  init_loop forks waits.

End Programs.

(** ** What they print *)

(** Each read gives some of the bytes that are left, and each write takes all. *)
Definition reads_some (rd : nat -> Z -> Z) : Prop := forall k n, 0 < n -> 0 < rd k n <= n.
Definition reads_end (rd : nat -> Z -> Z) : Prop := forall k, rd k 0 = 0.

(** [u] after it wrote [s] to descriptor 1, and any reads. *)
Definition wrote (s : list Z) (u u' : user) : Prop := u_out u' = u_out u ++ s /\ u_err u' = u_err u /\ u_calls u' = u_calls u.

Lemma wrote_app s1 s2 u1 u2 u3 : wrote s1 u1 u2 -> wrote s2 u2 u3 -> wrote (s1 ++ s2) u1 u3.
Proof. intros (H1 & H2 & H3) (H4 & H5 & H6). unfold wrote. rewrite H4, H1, H5, H6, app_assoc. done. Qed.
Lemma wrote_nil u k : wrote [] u (mk_user k (u_out u) (u_err u) (u_calls u)).
Proof. split; [by rewrite app_nil_r|done]. Qed.
Lemma wrote_put1 s u : put1 s u = Ok tt (mk_user (u_k u) (u_out u ++ s) (u_err u) (u_calls u)) /\ wrote s u (mk_user (u_k u) (u_out u ++ s) (u_err u) (u_calls u)).
Proof. done. Qed.

Section Reads.
Context (rd wr : nat -> Z -> Z) (Hrd : reads_some rd) (Hend : reads_end rd).

(** A read of a file: the end when nothing is left, or some bytes. *)
Lemma read_fd_cases n content u : 0 < n -> exists j, read_fd rd n content u = Ok (Some (take j content, drop j content)) (mk_user (S (u_k u)) (u_out u) (u_err u) (u_calls u)) /\
  (Z.of_nat j <= n) /\ (j <= length content)%nat /\ (content <> [] -> j <> 0%nat).
Proof.
  intros Hn. unfold read_fd, tick, bind at 1. set (r := rd (u_k u) (Z.min n (Z.of_nat (length content)))). exists (Z.to_nat r).
  destruct content as [|c l].
  - assert (r = 0) as -> by (unfold r; cbn [length Z.of_nat]; rewrite Z.min_r by lia; apply Hend). cbn. split; [done|]. split; [lia|]. split; [lia|done].
  - assert (0 < r <= Z.min n (Z.of_nat (length (c :: l)))) by (apply Hrd; cbn [length]; lia). rewrite (proj2 (Z.ltb_ge _ _)) by lia. split; [done|]. lia.
Qed.

(** ** wc *)

Lemma wc_loop_folds fuel : forall content s u, (length content < fuel)%nat ->
  exists u', wc_loop rd fuel content s u = Ok (Some (foldl wc_char s content)) u' /\ wrote [] u u'.
Proof.
  induction fuel as [|fuel IH]; intros content s u Hf; [lia|]. cbn [wc_loop]. destruct (read_fd_cases 512 content u ltac:(lia)) as (j & E & _ & Hj & Hz). mstep E.
  destruct (take j content) as [|c buf] eqn:ET.
  - assert (content = []) as ->. { destruct content; [done|]. destruct j; [by destruct Hz|done]. }
    eexists. split; [done|]. apply wrote_nil.
  - assert (HL : (length (drop j content) < length content)%nat).
    { rewrite length_drop. destruct j; [done|]. destruct content; [done|]. cbn [length]. lia. }
    destruct (IH (drop j content) (foldl wc_char s (c :: buf)) (mk_user (S (u_k u)) (u_out u) (u_err u) (u_calls u)) ltac:(lia)) as (u' & E' & W').
    exists u'. rewrite E', <- ET, <- foldl_app, take_drop. split; [done|]. apply (wrote_app [] [] _ _ _ (wrote_nil u (S (u_k u))) W').
Qed.

(** The reference: the text between separators. *)
Fixpoint pieces (l : list Z) : list (list Z) :=
  match l with
  | [] => [[]]
  | c :: l' => if wc_space c then [] :: pieces l' else match pieces l' with p :: ps => (c :: p) :: ps | [] => [[c]] end
  end.
Definition words (l : list Z) : list (list Z) := filter (fun p => p <> []) (pieces l).
Definition newlines (l : list Z) : list Z := filter (fun c => c = 10) l.

(** Whether the text goes on with the word before it. *)
Definition continues (l : list Z) : bool := match l with c :: _ => negb (wc_space c) | [] => false end.

Lemma words_cons c l : length (words (c :: l)) = if wc_space c then length (words l) else if continues l then length (words l) else S (length (words l)).
Proof.
  unfold words. cbn [pieces]. destruct (wc_space c); [by rewrite filter_cons_False by (intros H; by apply H)|].
  assert (HP : match pieces l with p :: _ => bool_decide (p <> []) = continues l | [] => False end).
  { destruct l as [|d l]; [done|]. cbn [pieces continues]. destruct (wc_space d); [done|]. by destruct (pieces l). }
  destruct (pieces l) as [|p ps]; [done|]. rewrite <- HP. rewrite filter_cons_True by done. destruct p as [|x p].
  - rewrite filter_cons_False by (intros H; by apply H). done.
  - rewrite filter_cons_True by done. done.
Qed.

Lemma newlines_cons c l : length (newlines (c :: l)) = if c =? 10 then S (length (newlines l)) else length (newlines l).
Proof. unfold newlines. destruct (Z.eqb_spec c 10); [by rewrite filter_cons_True|by rewrite filter_cons_False]. Qed.

Lemma wc_fold content : forall s, 0 <= cl s -> 0 <= cw s -> 0 <= cc s -> Z.of_nat (length content) + Z.max (cl s) (Z.max (cw s) (cc s)) < 2 ^ 31 ->
  let s' := foldl wc_char s content in
  cl s' = cl s + Z.of_nat (length (newlines content)) /\ cc s' = cc s + Z.of_nat (length content) /\
  cw s' = cw s + Z.of_nat (length (words content)) - (if inword s && continues content then 1 else 0).
Proof.
  induction content as [|c l IH]; intros s H1 H2 H3 HB; cbn [foldl].
  - change (words []) with (@nil (list Z)). change (newlines []) with (@nil Z). cbn [length continues]. rewrite andb_false_r. lia.
  - cbn [length] in HB. rewrite newlines_cons, words_cons. cbn [length continues].
    assert (HW : continues l = true -> (length (words l) <> 0)%nat).
    { destruct l as [|d l']; [done|]. cbn [continues]. rewrite words_cons. destruct (wc_space d) eqn:Ed; [done|]. intros _. destruct (continues l') eqn:Ec; [|lia].
      clear -Ec. revert Ec. induction l' as [|e l' IH]; [done|]. cbn [continues]. rewrite words_cons. destruct (wc_space e); [done|]. intros _. destruct (continues l'); [by apply IH|lia]. }
    destruct (IH (wc_char s c)) as (E1 & E2 & E3); unfold wc_char; destruct (wc_space c) eqn:Es, (inword s) eqn:Ei; cbn [negb cl cw cc inword]; destruct (c =? 10) eqn:E10; rewrite ?i32_small by lia; try lia.
    all: cbn [andb negb] in *; rewrite ?Ei in *; unfold wc_char in E1, E2, E3; rewrite ?Es, ?Ei, ?E10 in *; cbn [negb cl cw cc inword andb] in *; rewrite ?i32_small in * by lia; destruct (continues l); cbn in *; lia.
Qed.

Lemma wc_prints content name u : Z.of_nat (length content) < 2 ^ 31 ->
  exists u', wc rd content name u = Ok true u' /\
    wrote (ln (num (Z.of_nat (length (newlines content))) ++ 32 :: num (Z.of_nat (length (words content))) ++ 32 :: num (Z.of_nat (length content)) ++ 32 :: name)) u u'.
Proof.
  intros HB. unfold wc. destruct (wc_loop_folds (S (length content)) content (mk_counts 0 0 0 false) u ltac:(lia)) as (u1 & E1 & W1). mstep E1.
  destruct (wc_fold content (mk_counts 0 0 0 false)) as (-> & -> & ->); [cbn [cl cw cc]; lia..|]. cbn [cl cw cc inword andb]. rewrite !Z.sub_0_r.
  eexists. split; [reflexivity|]. apply (wrote_app [] _ _ _ _ W1). split; done.
Qed.

(** ** cat *)

Lemma cat_copies content u : (forall k n, wr k n = n) -> exists u', cat rd wr content u = Ok true u' /\ wrote content u u'.
Proof.
  intros Hw. unfold cat. assert (HG : forall fuel l v, (length l < fuel)%nat -> exists u', cat_loop rd wr fuel l v = Ok true u' /\ wrote l v u'); [|by apply HG; lia].
  induction fuel as [|fuel IH]; intros l v Hf; [lia|]. cbn [cat_loop]. destruct (read_fd_cases 512 l v ltac:(lia)) as (j & E & _ & Hj & Hz). mstep E.
  destruct (take j l) as [|c buf] eqn:ET.
  - assert (l = []) as ->. { destruct l; [done|]. destruct j; [by destruct Hz|done]. } eexists. split; [done|]. apply wrote_nil.
  - assert (HL : (length (drop j l) < length l)%nat).
    { rewrite length_drop. destruct j; [done|]. destruct l; [done|]. cbn [length]. lia. }
    unfold write1, tick. unfold bind at 1, bind at 1. cbn [u_k u_out u_err u_calls]. rewrite Hw, Nat2Z.id, firstn_all.
    unfold put1, modify, bind at 1. cbn [u_k u_out u_err u_calls]. unfold ret at 1. rewrite Z.eqb_refl. cbn [negb].
    destruct (IH (drop j l) (mk_user (S (S (u_k v))) (u_out v ++ c :: buf) (u_err v) (u_calls v)) ltac:(lia)) as (u' & E' & W').
    exists u'. split; [done|]. replace l with ((c :: buf) ++ drop j l) by (rewrite <- ET; apply take_drop).
    eapply wrote_app; [|exact W']. done.
Qed.

(** ** Many files *)

Context (files : list Z -> option ufile).

(** What a program that prints [text] for a file prints for its arguments: up to the first that cannot be opened. *)
Fixpoint files_text (cannot : string) (text : list Z -> list Z -> list Z) (args : list (list Z)) : list Z :=
  match args with
  | [] => []
  | a :: args' =>
      match files a with
      | None => ln (chars cannot ++ a)
      | Some f => text (f_bytes f) a ++ files_text cannot text args'
      end
  end.

Lemma on_files_prints cannot prog text args u :
  (forall a f v, a ∈ args -> files a = Some f -> exists v', prog (f_bytes f) a v = Ok true v' /\ wrote (text (f_bytes f) a) v v') ->
  exists u', on_files files cannot prog args u = Ok tt u' /\ wrote (files_text cannot text args) u u'.
Proof.
  revert u. induction args as [|a args IH]; intros u HP; cbn [on_files files_text].
  - exists u. split; [done|]. destruct u. apply wrote_nil.
  - destruct (files a) as [f|] eqn:Ef; [|eexists; split; [reflexivity|]; done].
    destruct (HP a f u ltac:(left) Ef) as (u1 & E1 & W1). mstep E1. destruct (IH u1) as (u2 & E2 & W2); [intros; apply HP; [by right|done]|].
    exists u2. split; [done|]. by apply (wrote_app _ _ _ _ _ W1).
Qed.

(** C29: wc counts.  However [read] cuts the files into pieces, wc prints for each file the number
    of its newlines, of its words (the non-empty pieces between blanks) and of its characters,
    up to the first file that cannot be opened, for files under 2 GB. *)
Theorem wc_counts stdin args u : args <> [] -> (forall a f, a ∈ args -> files a = Some f -> Z.of_nat (length (f_bytes f)) < 2 ^ 31) ->
  exists u', wc_main files rd stdin args u = Ok tt u' /\
    wrote (files_text "wc: cannot open " (fun content name =>
      ln (num (Z.of_nat (length (newlines content))) ++ 32 :: num (Z.of_nat (length (words content))) ++ 32 :: num (Z.of_nat (length content)) ++ 32 :: name)) args) u u'.
Proof.
  intros Hn HB. unfold wc_main. destruct args as [|a args]; [done|]. apply on_files_prints. intros b f v Hb Hf. by apply wc_prints, (HB b).
Qed.

(** cat writes the files one after the other, up to the first that cannot be opened. *)
Lemma cat_main_copies stdin args u : (forall k n, wr k n = n) -> args <> [] ->
  exists u', cat_main files rd wr stdin args u = Ok tt u' /\ wrote (files_text "cat: cannot open " (fun content _ => content) args) u u'.
Proof. intros Hw Hn. unfold cat_main. destruct args as [|a args]; [done|]. apply on_files_prints. intros b f v _ _. by apply cat_copies. Qed.

End Reads.

(** ** ls *)

(** [fmtname] gives the name after the last slash, at least [DIRSIZ] characters wide. *)
Lemma fmtname_name dir name : 47 ∉ name -> fmtname (dir ++ 47 :: name) = name ++ replicate (DIRSIZ - length name) 32.
Proof.
  intros Hn. unfold fmtname.
  assert (HG : forall p, (length dir <= p <= length (dir ++ 47%Z :: name))%nat -> last_slash (dir ++ 47 :: name) p = S (length dir)).
  { assert (H47 : (dir ++ 47 :: name) !! length dir = Some 47) by (rewrite lookup_app_r, Nat.sub_diag by lia; done).
    induction p as [|p IH]; intros Hp.
    - assert (length dir = 0%nat) as E by lia. rewrite E in *. cbn [last_slash]. by rewrite H47.
    - cbn [last_slash]. destruct (decide (S p = length dir)) as [Ep|Ep]; [by rewrite Ep, H47|].
      assert (HC : (default 0 ((dir ++ 47 :: name) !! S p) =? 47) = false).
      { apply Z.eqb_neq. intros HC. rewrite lookup_app_r in HC by lia. replace (S p - length dir)%nat with (S (p - length dir)) in HC by lia. cbn in HC.
        destruct (name !! (p - length dir)%nat) as [x|] eqn:Ex; [|done]. cbn in HC. subst x. by apply Hn, (list_elem_of_lookup_2 _ _ _ Ex). }
      rewrite HC. apply IH. lia. }
  rewrite HG by (rewrite length_app; cbn [length]; lia). rewrite drop_app_ge by lia. replace (S (length dir) - length dir)%nat with 1%nat by lia. change (drop 1 (47 :: name)) with name.
  destruct (Nat.leb_spec DIRSIZ (length name)); [|done]. replace (DIRSIZ - length name)%nat with 0%nat by lia. by rewrite app_nil_r.
Qed.

(** The entries of the bytes of a directory, each of [sizeof_dirent] bytes. *)
Fixpoint entries (n : nat) (content : list Z) : list (list Z) :=
  match n with
  | O => []
  | S n' => take 16 content :: entries n' (drop 16 content)
  end.

Definition entry_text (files : list Z -> option ufile) (prefix de : list Z) : list Z :=
  if get16 de 0 =? 0 then [] else
  let buf := prefix ++ upto_nul (slice de 2 DIRSIZ) in
  match files buf with None => ln (chars "ls: cannot stat " ++ buf) | Some st => ls_line buf st end.

Lemma ls_loop_lists files n : forall fuel prefix content u, length content = (16 * n)%nat -> (n < fuel)%nat ->
  exists u', ls_loop files (fun _ k => k) fuel prefix content u = Ok tt u' /\ wrote (concat (entry_text files prefix <$> entries n content)) u u'.
Proof.
  induction n as [|n IH]; intros fuel prefix content u Hl Hf; (destruct fuel as [|fuel]; [lia|]); cbn [ls_loop entries].
  - destruct content; [|done]. eexists. split; [reflexivity|]. apply wrote_nil.
  - unfold read_fd, tick. unfold bind at 1, bind at 1. unfold sizeof_dirent. rewrite Hl, Z.min_l by lia. cbn [Z.ltb Z.compare]. unfold ret at 1. change (Z.to_nat 16) with 16%nat.
    assert (HT : length (take 16 content) = 16%nat) by (rewrite length_take; lia). rewrite HT. cbn [Z.of_nat Z.eqb Pos.eqb negb]. rewrite Z.eqb_refl. cbn [negb].
    set (u1 := mk_user (S (u_k u)) (u_out u) (u_err u) (u_calls u)).
    assert (HS : exists u2, (if get16 (take 16 content) 0 =? 0 then ret tt else
      match stat files (prefix ++ upto_nul (slice (take 16 content) 2 DIRSIZ)) with
      | None => put1 (ln (chars "ls: cannot stat " ++ prefix ++ upto_nul (slice (take 16 content) 2 DIRSIZ)))
      | Some st => put1 (ls_line (prefix ++ upto_nul (slice (take 16 content) 2 DIRSIZ)) st) end) u1 = Ok tt u2 /\ wrote (entry_text files prefix (take 16 content)) u u2).
    { unfold entry_text, stat. destruct (get16 _ 0 =? 0); [|destruct (files _)]; (eexists; split; [reflexivity|]); [apply wrote_nil|done|done]. }
    destruct HS as (u2 & E2 & W2). cbv zeta. mstep E2. destruct (IH fuel prefix (drop 16 content) u2) as (u3 & E3 & W3); [rewrite length_drop; lia|lia|].
    exists u3. split; [done|]. cbn [fmap list_fmap concat]. by apply (wrote_app _ _ _ _ _ W2).
Qed.

(** ls of a directory whose name fits: a line for each entry in use, in the order of the directory. *)
Lemma ls_directory files path st n u : files path = Some st -> f_type st = T_DIR -> (length path + 16 <= 512)%nat -> length (f_bytes st) = (16 * n)%nat ->
  exists u', ls files (fun _ k => k) path u = Ok tt u' /\ wrote (concat (entry_text files (path ++ [47]) <$> entries n (f_bytes st))) u u'.
Proof.
  intros Hf Ht Hp Hl. unfold ls. rewrite Hf, Ht. cbn [Z.eqb Pos.eqb T_DIR T_FILE]. rewrite (proj2 (Nat.ltb_ge _ _)) by (unfold DIRSIZ; lia). apply ls_loop_lists; lia.
Qed.

(** ** mkdir, rm and echo *)

(** A run in which the calls for [l1] succeed and that for [a] fails does nothing after it. *)
Lemma until_fails_stops call_ok c what failed l1 a l2 u : Forall (fun x => call_ok (c x) = true) l1 -> call_ok (c a) = false ->
  until_fails call_ok c what failed (l1 ++ a :: l2) u =
  Ok tt (mk_user (u_k u) (u_out u) (u_err u ++ ln (chars what ++ a ++ chars failed)) (u_calls u ++ (c <$> (l1 ++ [a])))).
Proof.
  intros H1 Ha. revert u. induction H1 as [|x l1 Hx H1 IH]; intros u; cbn [app until_fails]; unfold bind at 1, call, modify; rewrite ?Ha, ?Hx; cbn [negb].
  - done.
  - rewrite IH. cbn [u_k u_out u_err u_calls fmap list_fmap]. by rewrite <- app_assoc.
Qed.

(** With every call a success: rm and mkdir make them all. *)
Lemma until_fails_all call_ok c what failed l u : Forall (fun x => call_ok (c x) = true) l ->
  until_fails call_ok c what failed l u = Ok tt (mk_user (u_k u) (u_out u) (u_err u) (u_calls u ++ (c <$> l))).
Proof.
  intros H. revert u. induction H as [|x l Hx H IH]; intros u; cbn [until_fails].
  - destruct u. cbn. by rewrite app_nil_r.
  - unfold bind at 1, call, modify. rewrite Hx. cbn [negb]. rewrite IH. cbn [u_k u_out u_err u_calls fmap list_fmap]. by rewrite <- app_assoc.
Qed.

(** echo joins its arguments with blanks and ends the line. *)
Fixpoint joined (args : list (list Z)) : list Z :=
  match args with
  | [] => []
  | [a] => ln a
  | a :: args' => a ++ 32 :: joined args'
  end.

Lemma echo_joins args u : exists u', echo_main args u = Ok tt u' /\ wrote (joined args) u u'.
Proof.
  unfold echo_main. revert u. induction args as [|a args IH]; intros u; cbn [echo_loop].
  - exists u. split; [done|]. destruct u. apply wrote_nil.
  - unfold bind at 1, put1, modify. destruct (IH (mk_user (u_k u) (u_out u ++ a ++ (match args with [] => [10] | _ => [32] end)) (u_err u) (u_calls u))) as (u' & E & W).
    exists u'. split; [done|]. destruct W as (W1 & W2 & W3). cbn [u_out u_err u_calls] in *. split; [|done]. rewrite W1, <- app_assoc. f_equal.
    destruct args as [|b args]; [cbn; by rewrite <- app_assoc|]. cbn [joined]. rewrite <- app_assoc. done.
Qed.

(** ** init *)

(** init starts a new shell only after the one it waits for has ended, whatever orphans end before. *)
Lemma wait_loop_waits pid orphans rest u : 0 <= pid -> Forall (fun p => 0 <= p /\ p <> pid) orphans ->
  wait_loop pid (orphans ++ pid :: rest) u =
  Ok (Some rest) (mk_user (u_k u) (u_out u ++ concat (replicate (length orphans) (ln (chars "zombie!")))) (u_err u) (u_calls u ++ replicate (S (length orphans)) Wait)).
Proof.
  intros Hp HO. revert u. induction HO as [|p l [H1 H2] HO IH]; intros u; cbn [app wait_loop]; unfold bind at 1, call, modify.
  - rewrite Z.eqb_refl, andb_false_r. cbn. unfold ret. by rewrite app_nil_r.
  - rewrite (proj2 (Z.leb_le _ _) H1), (proj2 (Z.eqb_neq _ _) H2). cbn [negb andb]. unfold bind at 1, put1, modify. rewrite IH. cbn [u_k u_out u_err u_calls length replicate concat].
    by rewrite <- !app_assoc.
Qed.

(** ** Witnesses *)

Definition one_file (path : list Z) : option ufile :=
  if bool_decide (path = chars "f") then Some (mk_ufile 2 7 9 (chars "ab  c" ++ [10; 9; 100; 10])) else None.

Lemma wc_counts_witness : exists u', wc_main one_file (fun _ n => Z.min n 2) [] [chars "f"] (mk_user 0 [] [] []) = Ok tt u' /\ u_out u' = ln (chars "2 3 9 f").
Proof.
  destruct (wc_counts (fun _ n => Z.min n 2)) with (files := one_file) (stdin := @nil Z) (args := [chars "f"]) (u := mk_user 0 [] [] []) as (u' & E & W & _).
  - intros k n Hn. lia.
  - done.
  - done.
  - intros a f Ha Hf. apply list_elem_of_singleton in Ha as ->. injection Hf as <-. by vm_compute.
  - exists u'. split; [exact E|]. rewrite W. vm_compute. reflexivity.
Defined.
