(* ===== verification/Web.v ===== *)
(** * Web: the web server of the networks course (src/SSTT/web_sstt.c)

    The buffers of a request are what [malloc] gave, a parameter: the code never sets them.
    [read] gives the bytes of the request; writes to the socket and to the log are
    complete.  A use of a null pointer, or of memory outside a buffer, is a [Fault].  [exit]
    ends a handler with its status, so that [debug], which may exit, takes the rest of the
    function as an argument. *)

From S2P Require Import Prelude Kernel Console Simplesh.

Definition BUFSIZE : Z := 8096.
Definition EXTENSIONES : nat := 10.

Inductive log_type : Type := ERROR | LOG | PROHIBIDO | NOENCONTRADO.

Definition extensions : list (list Z * list Z) :=
  [(chars "gif", chars "image/gif"); (chars "jpg", chars "image/jpg"); (chars "jpeg", chars "image/jpeg");
   (chars "png", chars "image/png"); (chars "ico", chars "image/ico"); (chars "zip", chars "image/zip");
   (chars "gz", chars "image/gz"); (chars "tar", chars "image/tar"); (chars "htm", chars "text/html");
   (chars "html", chars "text/html")].

(** The lines of webserver.log and the bytes sent to the client. *)
Record web : Type := mk_web { w_log : list (list Z); w_sent : list Z }.
Notation W := (M web).

Definition LF : Z := 10.
Definition CR : Z := 13.

Section Server.
(** [errno], the process id, and whether the log can be opened. *)
Context (errno pid : Z) (log_opens : bool).

Definition dec (x : Z) : list Z := int_chars digits_lower x 10 true.

(** [ex] is the result of a function that exits with a status. *)
Definition debug_exit {A} (ex : Z -> A) (ty : log_type) (message additional_info : list Z) (socket_fd : Z) (k : W A) : W A :=
  let logbuffer :=
    match ty with
    | ERROR => chars "ERROR: " ++ message ++ chars ":" ++ additional_info ++ chars " Errno=" ++ dec errno ++ chars " exiting pid=" ++ dec pid
    | PROHIBIDO => chars "FORBIDDEN: " ++ message ++ chars ":" ++ additional_info
    | NOENCONTRADO => chars "NOT FOUND: " ++ message ++ chars ":" ++ additional_info
    | LOG => chars " INFO: " ++ message ++ chars ":" ++ additional_info ++ chars ":" ++ dec socket_fd
    end in
  if BUFSIZE * 2 <=? Z.of_nat (length logbuffer) then fault "logbuffer" else
  when log_opens (modify (fun s => mk_web (w_log s ++ [logbuffer]) (w_sent s))) ;;;
  match ty with LOG => k | _ => ret (ex 3) end.
Definition debug := debug_exit (fun status : Z => status).

Definition write_socket (bs : list Z) : W unit := modify (fun s => mk_web (w_log s) (w_sent s ++ bs)).

(** ** Strings in buffers *)

(** The C string of a buffer, which must end inside it. *)
Definition c_string (b : list Z) : W (list Z) :=
  let s := upto_nul b in
  if Z.of_nat (length b) <=? Z.of_nat (length s) then fault "string without end" else ret s.

(** The buffer with the string [s] at its start. *)
Definition set_string (b s : list Z) : W (list Z) :=
  if Z.of_nat (length b) <=? Z.of_nat (length s) then fault "buffer overflow" else ret (s ++ 0 :: drop (S (length s)) b).

Definition strcat (b s : list Z) : W (list Z) :=
  let! d := c_string b in
  set_string b (d ++ s).

(** [isspace] *)
Definition space (c : Z) : bool := (c =? 32) || ((9 <=? c) && (c <=? 13)).

Fixpoint skip_spaces (s : list Z) : list Z :=
  match s with
  | c :: s' => if space c then skip_spaces s' else s
  | [] => []
  end.
Fixpoint break (p : Z -> bool) (s : list Z) : list Z * list Z :=
  match s with
  | c :: s' => if p c then ([], s) else let '(w, r) := break p s' in (c :: w, r)
  | [] => ([], [])
  end.

(** One [%s] of [sscanf]: the word goes to the buffer, and nothing when there is none. *)
Definition scan_word (s b : list Z) : W (list Z * list Z) :=
  match break space (skip_spaces s) with
  | ([], r) => ret (b, r)
  | (w, r) => let! b := set_string b w in ret (b, r)
  end.

(** [sscanf(s, "%s %s %s", a, b, c)] *)
Definition sscanf3 (s a b c : list Z) : W (list Z * list Z * list Z) :=
  let! '(a, s) := scan_word s a in
  let! '(b, s) := scan_word s b in
  let! '(c, s) := scan_word s c in
  ret (a, b, c).

Fixpoint skip_delim (d : Z) (s : list Z) : nat :=
  match s with
  | c :: s' => if c =? d then S (skip_delim d s') else O
  | [] => O
  end.

(** [strtok] on the buffer [b] from [i] with one delimiter: where the token starts, the
    buffer with the token ended, and where the next call goes on. *)
Definition strtok (b : list Z) (i : nat) (d : Z) : option nat * list Z * nat :=
  let s := upto_nul (drop i b) in
  let k := skip_delim d s in
  match break (fun c => c =? d) (drop k s) with
  | ([], _) => (None, b, (i + length s)%nat)
  | (w, []) => (Some (i + k)%nat, b, (i + length s)%nat)
  | (w, _ :: _) => let e := (i + k + length w)%nat in (Some (i + k)%nat, <[e := 0]> b, S e)
  end.

(** ** A request *)

Definition bad_request : list Z :=
  chars "HTTP/1.0 501 Method Not Implemented" ++ LF :: chars "Content-type: text/html" ++ LF :: LF ::
  chars "<html>" ++ LF :: chars " <body>" ++ LF :: chars "  <h1>Method Not Implemented</h1>" ++ LF ::
  chars "  <p>The method %s is not implemented by this server.</p>" ++ LF :: chars " </body>" ++ LF :: chars "</html>" ++ [LF].

(** [for(int i=0;i<EXTENSIONES;i++)] *)
Fixpoint add_types (exts : list (list Z * list Z)) (token ok : list Z) : W (list Z) :=
  match exts with
  | [] => ret ok
  | (ext, filetype) :: exts' =>
      let! ok :=
        (if str_eq ext token then
           let! ok := strcat ok (chars "HTTP/1.1 200 OK" ++ CR :: LF :: chars "Content-type: ") in
           let! ok := strcat ok filetype in
           strcat ok [CR; LF; CR; LF]
         else ret ok) in
      add_types exts' token ok
  end.

(** What [malloc] gives for [buffer], [metodo], [url], [version] and [ok_response_http]. *)
Record buffers : Type := mk_buffers { m_buffer : list Z; m_metodo : list Z; m_url : list Z; m_version : list Z; m_ok : list Z }.

(** From the preparation of the answer on. *)
Definition respond (mb : buffers) (descriptorFichero : Z) (url : list Z) : W Z :=
  let! r := c_string (m_ok mb) in
  debug LOG r (chars "Preparando la respuesta") descriptorFichero (
  let '(_, url, save) := strtok url 0 46 in
  let '(token, url, _) := strtok url save 46 in
  match token with
  | None => fault "strcmp of a null pointer"
  | Some t =>
      let! ok := add_types extensions (upto_nul (drop t url)) (m_ok mb) in
      let! r := c_string ok in
      debug LOG r (chars "Respuesta preparada") descriptorFichero (
      let '(fichero_token, url, _) := strtok url 0 47 in
      match fichero_token with
      | None => fault "printf of a null pointer"
      | Some f =>
          debug LOG (chars "Preparando el fichero") (upto_nul (drop f url)) descriptorFichero (
          write_socket (take (Z.to_nat BUFSIZE) ok) ;;;
          ret 1)
      end)
  end).

(** [request] is what [read] puts in the buffer, [None] when it fails. *)
Definition process_web_request (mb : buffers) (request : option (list Z)) (descriptorFichero : Z) : W Z :=
  debug LOG (chars "request") (chars "Ha llegado una peticion") descriptorFichero (
  match request with
  | None => ret 1
  | Some data =>
      let buffer := data ++ drop (length data) (m_buffer mb) in
      let buffer := <[Z.to_nat BUFSIZE := 0]> buffer in
      let! s := c_string buffer in
      let! '(metodo, url, version) := sscanf3 s (m_metodo mb) (m_url mb) (m_version mb) in
      let! method := c_string metodo in
      if negb (str_eq (chars "GET") method) then
        write_socket bad_request ;;;
        debug ERROR (chars "Solo se permite metodo GET") method descriptorFichero (ret 1)
      else
      let! u := c_string url in
      debug LOG u (chars "Comprobamos la url") descriptorFichero (
      if str_eq (chars "/") u then
        let! url := strcat url (chars "index.html") in
        let! u := c_string url in
        debug LOG u (chars "Nueva URL") descriptorFichero (respond mb descriptorFichero url)
      else respond mb descriptorFichero url)
  end).

(** ** The server *)

(** [atoi] *)
Fixpoint atoi_digits (s : list Z) (n : Z) : Z :=
  match s with
  | c :: s' => if (48 <=? c) && (c <=? 57) then atoi_digits s' (i32 (10 * n + (c - 48))) else n
  | [] => n
  end.
Definition atoi (s : list Z) : Z :=
  match skip_spaces s with
  | 45 :: s' => - atoi_digits s' 0
  | 43 :: s' => atoi_digits s' 0
  | s' => atoi_digits s' 0
  end.

(** The results of the system calls: [chdir], the first [fork], [socket], [bind], [listen], and
    those of [accept] with the [fork] after it. *)
Record calls : Type := mk_calls {
  c_chdir : Z; c_fork : Z; c_socket : Z; c_bind : Z; c_listen : Z; c_accepts : list (Z * Z) }.

(** The sockets that children were started for, and the status when the server ends. *)
Definition served : Type := list Z * option Z.
Definition quit (status : Z) : served := ([], Some status).

(** [while(1)]; without more connections the server waits in [accept]. *)
Fixpoint accept_loop (accepts : list (Z * Z)) : W served :=
  match accepts with
  | [] => ret ([], None)
  | (socketfd, child) :: accepts' =>
      let go : W served := let! '(fds, x) := accept_loop accepts' in ret (socketfd :: fds, x) in
      if socketfd <? 0 then debug_exit quit ERROR (chars "system call") (chars "accept") 0 go
      else if child <? 0 then debug_exit quit ERROR (chars "system call") (chars "fork") 0 go
      else go
  end.

(** [if(bad) debug(ERROR, ...)], and then the rest. *)
Definition check (bad : bool) (message info : list Z) (k : W served) : W served :=
  if bad then debug_exit quit ERROR message info 0 k else k.

Definition main (c : calls) (port_arg : list Z) : W served :=
  if c_chdir c =? -1 then ret (quit 4) else
  if negb (c_fork c =? 0) then ret (quit 0) else
  debug_exit quit LOG (chars "web server starting...") port_arg pid (
  check (c_socket c <? 0) (chars "system call") (chars "socket") (
  let port := atoi port_arg in
  check ((port <? 0) || (60000 <? port)) (chars "Puerto invalido, prueba un puerto de 1 a 60000") port_arg (
  check (c_bind c <? 0) (chars "system call") (chars "bind") (
  check (c_listen c <? 0) (chars "system call") (chars "listen") (
  accept_loop (c_accepts c)))))).

End Server.

(** ** Lemmas *)

(** The size of each buffer. *)
Definition MSIZE : nat := Z.to_nat (8 * BUFSIZE).

(** The memory [b] with the string [c] written at its start. *)
Definition padded (b c : list Z) : list Z := c ++ 0 :: drop (S (length c)) b.

Notation nonzero := (Forall (fun c : Z => c <> 0)).
Notation avoids p := (Forall (fun c : Z => p c = false)).

Lemma upto_nul_prefix l l' : nonzero l -> upto_nul (l ++ l') = l ++ upto_nul l'.
Proof. induction 1 as [|c l Hc Hl IH]; [done|]. cbn [upto_nul app]. by rewrite (proj2 (Z.eqb_neq _ _) Hc), IH. Qed.

Lemma upto_nul_before l i : l !! i = Some 0 -> (length (upto_nul l) <= i)%nat.
Proof.
  revert i. induction l as [|c l IH]; intros i Hi; [cbn; lia|]. cbn [upto_nul]. destruct (Z.eqb_spec c 0) as [->|Hc]; [cbn; lia|].
  destruct i as [|i]; [by injection Hi as ->|]. cbn [length]. specialize (IH i Hi). lia.
Qed.

Lemma break_app p w r : avoids p w -> match r with c :: _ => p c = true | [] => True end -> break p (w ++ r) = (w, r).
Proof.
  induction 1 as [|c w Hc Hw IH]; intros Hr; cbn [break app].
  - destruct r as [|c r]; [done|]. cbn [break]. by rewrite Hr.
  - by rewrite Hc, IH.
Qed.

Lemma break_length p s w r : break p s = (w, r) -> (length w <= length s)%nat /\ (length r <= length s)%nat.
Proof.
  revert w r. induction s as [|c s IH]; intros w r; cbn [break]; [intros [= <- <-]; done|]. destruct (p c); [intros [= <- <-]; cbn; lia|].
  destruct (break p s) as [w' r']. intros [= <- <-]. specialize (IH _ _ eq_refl). cbn [length]. lia.
Qed.

Lemma skip_spaces_length s : (length (skip_spaces s) <= length s)%nat.
Proof. induction s as [|c s IH]; [done|]. cbn [skip_spaces]. destruct (space c); cbn [length]; lia. Qed.

Lemma set_string_ok b s st : (length s < length b)%nat -> set_string b s st = Ok (s ++ 0 :: drop (S (length s)) b) st.
Proof. intros H. unfold set_string. by rewrite (proj2 (Z.leb_gt _ _)) by lia. Qed.

Lemma c_string_ok s r st : nonzero s -> c_string (s ++ 0 :: r) st = Ok s st.
Proof. intros H. unfold c_string. rewrite upto_nul_app by done. rewrite length_app. cbn [length]. by rewrite (proj2 (Z.leb_gt _ _)) by lia. Qed.

Lemma scan_word_ok s b w r st : avoids space w -> match r with c :: _ => space c = true | [] => True end -> w <> [] -> (length w < length b)%nat ->
  skip_spaces s = w ++ r -> scan_word s b st = Ok (w ++ 0 :: drop (S (length w)) b, r) st.
Proof.
  intros Hw Hr Hn Hl Hs. unfold scan_word. rewrite Hs, break_app by done. destruct w as [|c w]; [done|]. unfold bind. by rewrite set_string_ok.
Qed.

Lemma scan_word_some s b st : (length s < length b)%nat -> exists b' r, scan_word s b st = Ok (b', r) st.
Proof.
  intros H. unfold scan_word. pose proof (skip_spaces_length s). destruct (break space (skip_spaces s)) as [w r] eqn:E. apply break_length in E.
  destruct w as [|c w]; [by eexists _, _|]. eexists _, _. unfold bind. by rewrite set_string_ok by lia.
Qed.

Lemma dec_length x : (length (dec x) <= 33)%nat.
Proof.
  assert (HD : forall f d y b, (length (digit_loop f d y b) <= f)%nat).
  { induction f as [|f IH]; intros d y b; cbn [digit_loop length]; [lia|]. specialize (IH d (y / b) b). destruct (y / b =? 0); cbn [length]; lia. }
  unfold dec, int_chars. rewrite length_reverse. destruct (true && _); rewrite ?length_app; cbn [length]; specialize (HD 32%nat digits_lower).
  - specialize (HD (u32 (- i32 x)) 10). lia.
  - specialize (HD (u32 x) 10). lia.
Qed.

Lemma debug_log errno pid opens m i fd s : Z.of_nat (length m + length i) <= 16000 ->
  exists log, forall k, debug errno pid opens LOG m i fd k s = k (mk_web log (w_sent s)).
Proof.
  intros H. unfold debug, debug_exit. pose proof (dec_length fd) as HD. rewrite (proj2 (Z.leb_gt _ _)).
  - destruct opens, s; by eexists.
  - rewrite !length_app. change (length (chars " INFO: ")) with 7%nat. change (length (chars ":")) with 1%nat. unfold BUFSIZE. lia.
Qed.

Lemma debug_error errno pid opens m i fd k s : Z.of_nat (length m + length i) <= 16000 ->
  exists log, debug errno pid opens ERROR m i fd k s = Ok 3 (mk_web log (w_sent s)).
Proof.
  intros H. unfold debug, debug_exit. pose proof (dec_length errno). pose proof (dec_length pid). rewrite (proj2 (Z.leb_gt _ _)).
  - destruct opens, s; by eexists.
  - rewrite !length_app. change (length (chars "ERROR: ")) with 7%nat. change (length (chars ":")) with 1%nat. change (length (chars " Errno=")) with 7%nat.
    change (length (chars " exiting pid=")) with 13%nat. unfold BUFSIZE. lia.
Qed.

(** ** strtok on a url *)

Lemma skip_delim_avoids d s : avoids (fun c => c =? d) s -> skip_delim d s = 0%nat.
Proof. destruct 1 as [|c s Hc]; [done|]. cbn [skip_delim]. by rewrite Hc. Qed.

(** A token that is ended by the delimiter. *)
Lemma strtok_more d pre w s r : avoids (fun c => c =? d) w -> w <> [] -> nonzero w -> d <> 0 -> nonzero s ->
  strtok (pre ++ w ++ d :: s ++ 0 :: r) (length pre) d = (Some (length pre), pre ++ w ++ 0 :: s ++ 0 :: r, S (length pre + length w)).
Proof.
  intros Hw Hn Hz Hd Hs. unfold strtok. rewrite drop_app_length.
  assert (E : upto_nul (w ++ d :: s ++ 0 :: r) = w ++ d :: s).
  { rewrite upto_nul_prefix by done. cbn [upto_nul]. rewrite (proj2 (Z.eqb_neq _ _) Hd). by rewrite upto_nul_app. }
  rewrite E. replace (skip_delim d (w ++ d :: s)) with 0%nat.
  2:{ destruct w as [|c w]; [done|]. inversion_clear Hw. cbn [skip_delim app]. by rewrite H. }
  rewrite drop_0, break_app; [|done|by apply Z.eqb_refl]. destruct w as [|c w]; [done|]. rewrite Nat.add_0_r.
  rewrite insert_app_r. replace (length (c :: w)) with (length (c :: w) + 0)%nat by lia. rewrite insert_app_r, Nat.add_0_r. done.
Qed.

(** The last token. *)
Lemma strtok_last d pre w r : avoids (fun c => c =? d) w -> w <> [] -> nonzero w ->
  strtok (pre ++ w ++ 0 :: r) (length pre) d = (Some (length pre), pre ++ w ++ 0 :: r, (length pre + length w)%nat).
Proof.
  intros Hw Hn Hz. unfold strtok. rewrite drop_app_length, upto_nul_app by done. rewrite skip_delim_avoids, drop_0 by done.
  rewrite <- (app_nil_r w) at 1. rewrite break_app by done. destruct w; [done|]. by rewrite Nat.add_0_r.
Qed.

(** ** The response *)

Definition ok_header (filetype : list Z) : list Z :=
  (chars "HTTP/1.1 200 OK" ++ CR :: LF :: chars "Content-type: ") ++ filetype ++ [CR; LF; CR; LF].

Fixpoint types_of (exts : list (list Z * list Z)) (token : list Z) : list Z :=
  match exts with
  | [] => []
  | (ext, t) :: exts' => (if str_eq ext token then ok_header t else []) ++ types_of exts' token
  end.

Lemma padded_length b c : (length c < length b)%nat -> length (padded b c) = length b.
Proof. intros H. unfold padded. rewrite length_app. cbn [length]. rewrite length_drop. lia. Qed.

Lemma padded_string b c st : nonzero c -> c_string (padded b c) st = Ok c st.
Proof. apply c_string_ok. Qed.

Lemma strcat_padded b c s st : nonzero c -> (length c + length s < length b)%nat -> strcat (padded b c) s st = Ok (padded b (c ++ s)) st.
Proof.
  intros Hc Hl. unfold strcat. mstep (padded_string b c st Hc). rewrite set_string_ok by (rewrite padded_length, length_app; lia).
  f_equal. unfold padded at 2. f_equal. f_equal. unfold padded. rewrite length_app, drop_app_ge by lia.
  replace (S (length c + length s) - length c)%nat with (S (length s)) by lia. cbn [drop]. rewrite drop_drop. f_equal; lia.
Qed.

(** What memory holds as a string, when it has a NUL. *)
Lemma left_over_nonzero b : nonzero (upto_nul b).
Proof. induction b as [|c b IH]; cbn [upto_nul]; [constructor|]. destruct (Z.eqb_spec c 0); by constructor. Qed.

Lemma padded_own b : (length (upto_nul b) < length b)%nat -> b = padded b (upto_nul b).
Proof.
  unfold padded. induction b as [|c b IH]; cbn [upto_nul length]; [lia|]. destruct (Z.eqb_spec c 0) as [->|Hc]; [done|].
  cbn [length app drop]. intros H. f_equal. apply IH. lia.
Qed.

Lemma msize : Z.of_nat MSIZE = 8 * BUFSIZE.
Proof. unfold MSIZE, BUFSIZE. lia. Qed.
#[local] Opaque MSIZE.

Lemma strcat3_padded b c h t e st : nonzero c -> nonzero h -> nonzero t -> (length c + (length h + (length t + length e)) < length b)%nat ->
  (let! ok := strcat (padded b c) h in let! ok := strcat ok t in strcat ok e) st = Ok (padded b (c ++ h ++ t ++ e)) st.
Proof.
  intros Hc Hh Ht Hl. assert (H1 : nonzero (c ++ h)) by (by apply Forall_app). assert (H2 : nonzero ((c ++ h) ++ t)) by (by apply Forall_app).
  mstep (strcat_padded b c h st Hc ltac:(lia)). mstep (strcat_padded b (c ++ h) t st H1 ltac:(rewrite length_app; lia)).
  rewrite (strcat_padded b _ e st H2) by (rewrite !length_app; lia). by rewrite <- !app_assoc.
Qed.

Lemma add_types_ok b exts token c st : length b = MSIZE -> nonzero c -> Forall (fun e => nonzero e.2) exts -> Z.of_nat (length c + sum_list_with (fun e => length (ok_header e.2)) exts) < 8 * BUFSIZE ->
  add_types exts token (padded b c) st = Ok (padded b (c ++ types_of exts token)) st.
Proof.
  intros Hb. revert c. induction exts as [|[ext t] exts IH]; intros c Hc He Hl; cbn [add_types types_of].
  - by rewrite app_nil_r.
  - inversion_clear He as [|? ? He1 He2]. cbn [snd] in He1. rewrite app_assoc. cbn [sum_list_with snd] in Hl. rewrite <- msize in *.
    destruct (str_eq ext token); [|rewrite app_nil_r; unfold bind at 1; apply IH; [exact Hc|exact He2|lia]].
    assert (HH : nonzero (chars "HTTP/1.1 200 OK" ++ CR :: LF :: chars "Content-type: ")) by (by apply (bool_decide_unpack _)).
    assert (HE : nonzero [CR; LF; CR; LF]) by (by apply (bool_decide_unpack _)).
    unfold ok_header at 1 in Hl. unfold ok_header at 1. revert HH HE Hl. generalize (chars "HTTP/1.1 200 OK" ++ CR :: LF :: chars "Content-type: "), [CR; LF; CR; LF]. intros h e HH HE Hl.
    rewrite !length_app in Hl. mstep (strcat3_padded b c h t e st Hc HH He1 ltac:(lia)).
    apply IH; [repeat (apply Forall_app; split); assumption|exact He2|rewrite !length_app; lia].
Qed.

(** The [Content-type] of an extension. *)
Definition content_type (ext : list Z) : option (list Z) :=
  snd <$> head (filter (fun e : list Z * list Z => e.1 = ext) extensions).

Definition response (ext : list Z) : list Z := match content_type ext with Some t => ok_header t | None => [] end.

Lemma types_of_extensions token : types_of extensions token = response token.
Proof.
  unfold response, content_type, extensions, types_of, str_eq. rewrite !filter_cons. cbn [fst].
  repeat (match goal with |- context [bool_decide (?a = token)] => destruct (decide (a = token)) as [<-|]; [by vm_compute|rewrite (bool_decide_eq_false_2 (a = token)) by done] end).
  done.
Qed.

(** ** The requests *)

(** The buffers have the size [malloc] was asked for; their contents are arbitrary. *)
Record buffers_ok (mb : buffers) : Prop := {
  bo_buffer : length (m_buffer mb) = MSIZE;
  bo_metodo : length (m_metodo mb) = MSIZE;
  bo_url : length (m_url mb) = MSIZE;
  bo_version : length (m_version mb) = MSIZE;
  bo_ok : length (m_ok mb) = MSIZE }.

(** What [malloc] left in the memory of the response, as a string. *)
Definition left_over (mb : buffers) : list Z := upto_nul (m_ok mb).

(** The answer: the header after what was left, and the rest of the memory up to [BUFSIZE] bytes. *)
Definition answer (mb : buffers) (ext : list Z) : list Z :=
  take (Z.to_nat BUFSIZE) (padded (m_ok mb) (left_over mb ++ response ext)).

(** The request is read as a string of at most [BUFSIZE] characters that starts with its words. *)
Lemma request_string mb pre more st : buffers_ok mb -> nonzero pre -> Z.of_nat (length (pre ++ more)) < BUFSIZE ->
  exists tl, c_string (<[Z.to_nat BUFSIZE := 0]> ((pre ++ more) ++ drop (length (pre ++ more)) (m_buffer mb))) st = Ok (pre ++ tl) st /\ Z.of_nat (length (pre ++ tl)) <= BUFSIZE.
Proof.
  intros [HB _ _ _ _] Hp Hl. pose proof msize as HM. set (d := drop (length (pre ++ more)) (m_buffer mb)).
  assert (HD : length d = (MSIZE - length (pre ++ more))%nat) by (unfold d; rewrite length_drop; lia). clearbody d.
  assert (EB : <[Z.to_nat BUFSIZE := 0]> ((pre ++ more) ++ d) = pre ++ (<[(Z.to_nat BUFSIZE - length pre)%nat := 0]> (more ++ d))).
  { rewrite <- app_assoc. rewrite length_app in Hl. replace (Z.to_nat BUFSIZE) with (length pre + (Z.to_nat BUFSIZE - length pre))%nat at 1 by (unfold BUFSIZE in *; lia). by rewrite insert_app_r. }
  rewrite EB. set (r := <[_ := 0]> (more ++ d)). exists (upto_nul r). rewrite length_app in *.
  assert (HL : (length (upto_nul r) <= Z.to_nat BUFSIZE - length pre)%nat).
  { apply upto_nul_before. unfold r. apply list_lookup_insert_eq. rewrite length_app. unfold BUFSIZE in *. lia. }
  assert (HR : length r = (length more + length d)%nat) by (unfold r; rewrite length_insert, length_app; done).
  unfold c_string. rewrite upto_nul_prefix by done. rewrite !length_app, (proj2 (Z.leb_gt _ _)) by (unfold BUFSIZE in *; lia). split; [done|]. unfold BUFSIZE in *. lia.
Qed.

(** The three [%s]: the first two words and some third. *)
Lemma scan_request mb w u tl st : buffers_ok mb -> avoids space w -> w <> [] -> avoids space u -> u <> [] -> Z.of_nat (length (w ++ 32 :: u ++ 32 :: tl)) <= BUFSIZE ->
  exists b, sscanf3 (w ++ 32 :: u ++ 32 :: tl) (m_metodo mb) (m_url mb) (m_version mb) st =
  Ok (w ++ 0 :: drop (S (length w)) (m_metodo mb), u ++ 0 :: drop (S (length u)) (m_url mb), b) st.
Proof.
  intros HB Hw Hwn Hu Hun Hl. unfold sscanf3. pose proof msize as HM. rewrite !length_app in Hl. cbn [length] in Hl. rewrite length_app in Hl. cbn [length] in Hl. unfold BUFSIZE in *.
  assert (SP : forall v y, avoids space v -> v <> [] -> skip_spaces (v ++ y) = v ++ y).
  { intros [|c v] y Hv Hn; [by destruct (Hn eq_refl)|]. inversion_clear Hv as [|? ? Hc]. cbn [skip_spaces app]. by rewrite Hc. }
  mstep (scan_word_ok (w ++ 32 :: u ++ 32 :: tl) (m_metodo mb) w (32 :: u ++ 32 :: tl) st Hw eq_refl Hwn ltac:(rewrite (bo_metodo _ HB); lia) (SP _ _ Hw Hwn)).
  assert (SU : skip_spaces (32 :: u ++ 32 :: tl) = u ++ 32 :: tl) by (cbn [skip_spaces]; by apply SP).
  mstep (scan_word_ok (32 :: u ++ 32 :: tl) (m_url mb) u (32 :: tl) st Hu eq_refl Hun ltac:(rewrite (bo_url _ HB); lia) SU).
  destruct (scan_word_some (32 :: tl) (m_version mb) st) as (b & r & E); [rewrite (bo_version _ HB); cbn [length]; lia|]. mstep E. by exists b.
Qed.

(** A name in a url, and the extension after its dot. *)
Definition name_ok (name : list Z) : Prop := name <> [] /\ Forall (fun c => c <> 0 /\ space c = false /\ c <> 46 /\ c <> 47) name.
Definition ext_ok (ext : list Z) : Prop := ext <> [] /\ Forall (fun c => c <> 0 /\ space c = false /\ c <> 46) ext.

Definition url_of (name ext : list Z) : list Z := 47 :: name ++ 46 :: ext.

(** The calls of [strtok]: the extension, then the name without its slash. *)
Lemma strtok_url name ext r : name_ok name -> ext_ok ext ->
  let url := url_of name ext ++ 0 :: r in
  let url' := (47 :: name) ++ 0 :: ext ++ 0 :: r in
  let i := S (S (length name)) in
  strtok url 0 46 = (Some 0%nat, url', i) /\ (strtok url' i 46).1 = (Some i, url') /\ upto_nul (drop i url') = ext /\
  exists t, (strtok url' 0 47).1 = (Some 1%nat, t) /\ upto_nul (drop 1 t) = name.
Proof.
  intros [Nn Hn] [Ne He] url url' i.
  assert (N0 : nonzero (47 :: name)) by (constructor; [done|]; eapply Forall_impl; [exact Hn|]; naive_solver).
  assert (E0 : nonzero ext) by (eapply Forall_impl; [exact He|]; naive_solver).
  assert (ED : avoids (fun c => c =? 46) ext) by (eapply Forall_impl; [exact He|]; intros c Hc; apply Z.eqb_neq; naive_solver).
  assert (ND : avoids (fun c => c =? 46) (47 :: name)) by (constructor; [done|]; eapply Forall_impl; [exact Hn|]; intros c Hc; apply Z.eqb_neq; naive_solver).
  assert (NS : avoids (fun c => c =? 47) name) by (eapply Forall_impl; [exact Hn|]; intros c Hc; apply Z.eqb_neq; naive_solver).
  split_and!.
  - unfold url, url_of, url', i. change (47 :: name ++ 46 :: ext) with ((47 :: name) ++ 46 :: ext). rewrite <- app_assoc. cbn [app].
    apply (strtok_more 46 [] (47 :: name) ext r); done.
  - replace url' with ((((47 :: name) ++ [0])) ++ ext ++ 0 :: r) by (unfold url'; by rewrite <- app_assoc).
    replace i with (length ((47 :: name) ++ [0])) by (unfold i; rewrite length_app; cbn [length]; lia). by rewrite strtok_last.
  - replace url' with ((((47 :: name) ++ [0])) ++ ext ++ 0 :: r) by (unfold url'; by rewrite <- app_assoc).
    replace i with (length ((47 :: name) ++ [0])) by (unfold i; rewrite length_app; cbn [length]; lia). rewrite drop_app_length. by apply upto_nul_app.
  - unfold strtok, url'. rewrite drop_0, upto_nul_app by done. cbn [skip_delim]. rewrite Z.eqb_refl, skip_delim_avoids by done. cbn [drop]. rewrite drop_0.
    assert (EB : break (fun c => c =? 47) name = (name, [])) by (rewrite <- (app_nil_r name) at 1; by apply break_app). rewrite EB. destruct name as [|c name]; [done|]. eexists. split; [done|]. apply (upto_nul_app (c :: name)). by inversion N0.
Qed.

Lemma url_of_chars name ext : name_ok name -> ext_ok ext ->
  nonzero (url_of name ext) /\ avoids space (url_of name ext) /\ url_of name ext <> [] /\ chars "/" <> url_of name ext.
Proof.
  intros [Nn Hn] [Ne He]. unfold url_of. split_and!; [| |done|destruct name; [done|discriminate]].
  - constructor; [done|]. apply Forall_app. split; [|constructor; [done|]]; (eapply Forall_impl; [eassumption|]); naive_solver.
  - constructor; [done|]. apply Forall_app. split; [|constructor; [done|]]; (eapply Forall_impl; [eassumption|]); naive_solver.
Qed.

Lemma response_ok ext : nonzero (response ext) /\ Z.of_nat (length (response ext)) <= 100.
Proof.
  unfold response, content_type. destruct (head _) as [e|] eqn:E; cbn; [|split; [constructor|lia]]. apply head_Some_elem_of, list_elem_of_filter in E as [_ E].
  assert (HA : Forall (fun e => nonzero (ok_header e.2) /\ Z.of_nat (length (ok_header e.2)) <= 100) extensions) by (by_decide). rewrite Forall_forall in HA. by apply HA.
Qed.

(** The answer to a url with an extension. *)
Lemma respond_ok errno pid opens mb name ext r fd s : buffers_ok mb -> Z.of_nat (length (left_over mb)) <= 15800 -> name_ok name -> ext_ok ext -> Z.of_nat (length (url_of name ext)) <= BUFSIZE ->
  exists log, respond errno pid opens mb fd (url_of name ext ++ 0 :: r) s = Ok 1 (mk_web log (w_sent s ++ answer mb ext)).
Proof.
  intros HB HG HN HE LL. unfold respond, answer. pose proof msize as HM. pose proof (bo_ok _ HB) as HO. destruct s as [l2 sent]. cbn [w_sent]. unfold left_over in *.
  pose proof (left_over_nonzero (m_ok mb)) as G0. pose proof (padded_own (m_ok mb) ltac:(unfold BUFSIZE in *; lia)) as EO.
  set (b := m_ok mb) in *. set (g := upto_nul b) in *. clearbody g.
  assert (C0 : c_string b (mk_web l2 sent) = Ok g (mk_web l2 sent)) by (rewrite EO; by apply padded_string). mstep C0. clear C0.
  destruct (debug_log errno pid opens g (chars "Preparando la respuesta") fd (mk_web l2 sent)) as [l3 E5]; [change (length (chars "Preparando la respuesta")) with 23%nat; lia|]. rewrite E5. clear E5. cbn [w_sent].
  destruct (strtok_url name ext r HN HE) as (T1 & T2 & T3 & t & T4 & T5).
  rewrite T1. clear T1. set (url' := (47 :: name) ++ 0 :: ext ++ 0 :: r) in *. clearbody url'. destruct (strtok url' (S (S (length name))) 46) as [[tok url2] sv]. cbn [fst] in T2. injection T2 as -> ->. rewrite T3.
  assert (HS : (sum_list_with (fun e : list Z * list Z => length (ok_header e.2)) extensions <= 1000)%nat) by (apply Nat.leb_le; by vm_compute).
  pose proof (add_types_ok b extensions ext g (mk_web l3 sent) HO G0 ltac:(by_decide) ltac:(unfold BUFSIZE; lia)) as EA.
  rewrite <- EO, types_of_extensions in EA. mstep EA. clear EA.
  destruct (response_ok ext) as [R0 RL]. assert (GR : nonzero (g ++ response ext)) by (apply Forall_app; split; assumption).
  mstep (padded_string b (g ++ response ext) (mk_web l3 sent) GR).
  destruct (debug_log errno pid opens (g ++ response ext) (chars "Respuesta preparada") fd (mk_web l3 sent)) as [l4 E6]; [change (length (chars "Respuesta preparada")) with 19%nat; rewrite length_app; lia|]. rewrite E6. clear E6. cbn [w_sent].
  destruct (strtok url' 0 47) as [[tok url3] sv']. cbn [fst] in T4. injection T4 as -> ->. rewrite T5.
  destruct (debug_log errno pid opens (chars "Preparando el fichero") name fd (mk_web l4 sent)) as [l5 E7]; [change (length (chars "Preparando el fichero")) with 21%nat; unfold url_of in LL; cbn [length] in LL; rewrite length_app in LL; unfold BUFSIZE in *; lia|].
  rewrite E7. exists l5. done.
Qed.

(** With more than the log takes in the memory of the response, the handler writes past [logbuffer]. *)
Lemma respond_overflows errno pid opens mb fd url s : 2 * BUFSIZE <= Z.of_nat (length (left_over mb)) ->
  exists what, respond errno pid opens mb fd url s = Fault what.
Proof.
  intros HG. unfold respond, c_string, left_over in *. set (g := upto_nul (m_ok mb)) in *. destruct (_ <=? _); [by eexists|].
  unfold bind at 1, ret at 1. unfold debug, debug_exit. rewrite (proj2 (Z.leb_le _ _)); [by eexists|]. rewrite !length_app. lia.
Qed.

(** What a request comes to, up to the answer. *)
Lemma request_reaches errno pid opens mb w name ext more fd s : buffers_ok mb -> name_ok name -> ext_ok ext ->
  w <> [] -> Forall (fun c => c <> 0 /\ space c = false) w ->
  Z.of_nat (length (w ++ 32 :: url_of name ext ++ 32 :: more)) < BUFSIZE ->
  exists log r, process_web_request errno pid opens mb (Some (w ++ 32 :: url_of name ext ++ 32 :: more)) fd s =
    if bool_decide (w = chars "GET") then respond errno pid opens mb fd (url_of name ext ++ 0 :: r) (mk_web log (w_sent s))
    else Ok 3 (mk_web log (w_sent s ++ bad_request)).
Proof.
  intros HB HN HE Hwn Hw Hl. unfold process_web_request. pose proof msize as HM.
  assert (W0 : nonzero w) by (eapply Forall_impl; [exact Hw|]; naive_solver). assert (WS : avoids space w) by (eapply Forall_impl; [exact Hw|]; naive_solver).
  destruct (url_of_chars name ext HN HE) as (U0 & US & UN & UL). set (u := url_of name ext) in *.
  destruct (debug_log errno pid opens (chars "request") (chars "Ha llegado una peticion") fd s ltac:(by vm_compute)) as [l1 E1]. rewrite E1. clear E1.
  replace (w ++ 32 :: u ++ 32 :: more) with ((w ++ 32 :: u ++ [32]) ++ more) in * by (rewrite <- app_assoc; cbn [app]; rewrite <- app_assoc; done).
  assert (P0 : nonzero (w ++ 32 :: u ++ [32])) by (apply Forall_app; split; [done|]; constructor; [done|]; apply Forall_app; split; [done|]; by repeat constructor).
  destruct (request_string mb _ more (mk_web l1 (w_sent s)) HB P0 Hl) as (tl & E2 & L2). mstep E2.
  replace ((w ++ 32 :: u ++ [32]) ++ tl) with (w ++ 32 :: u ++ 32 :: tl) in * by (rewrite <- app_assoc; cbn [app]; rewrite <- app_assoc; done).
  destruct (scan_request mb w u tl (mk_web l1 (w_sent s)) HB WS Hwn US UN L2) as (v & E3). mstep E3.
  mstep (c_string_ok w (drop (S (length w)) (m_metodo mb)) (mk_web l1 (w_sent s)) W0).
  assert (LL : Z.of_nat (length w + length u) <= BUFSIZE) by (rewrite !length_app in L2; cbn [length] in L2; rewrite !length_app in L2; lia).
  unfold str_eq at 1. destruct (decide (w = chars "GET")) as [->|Hne].
  2:{ rewrite !bool_decide_eq_false_2 by congruence. cbn [negb]. unfold bind at 1, write_socket, modify. cbn [w_log w_sent].
    destruct (debug_error errno pid opens (chars "Solo se permite metodo GET") w fd (ret 1) (mk_web l1 (w_sent s ++ bad_request))) as [l2 E4]; [|by exists l2, []].
    change (length (chars "Solo se permite metodo GET")) with 26%nat. unfold BUFSIZE in *. lia. }
  rewrite !bool_decide_eq_true_2 by done. cbn [negb].
  mstep (c_string_ok u (drop (S (length u)) (m_url mb)) (mk_web l1 (w_sent s)) U0).
  destruct (debug_log errno pid opens u (chars "Comprobamos la url") fd (mk_web l1 (w_sent s))) as [l2 E4]; [change (length (chars "Comprobamos la url")) with 18%nat; unfold BUFSIZE in *; lia|]. rewrite E4. clear E4. cbn [w_sent].
  unfold str_eq. rewrite bool_decide_eq_false_2 by exact UL. by eexists _, _.
Qed.

(** C30: a request for a file, whatever [malloc] left in the buffers.  For the request
    [GET /name.ext ...], the handler sends [BUFSIZE] bytes of the memory of the response, to
    which it appended the header with the content type of the extension (nothing when
    the extension has no type): what [malloc] left there as a string comes before the
    header, and what it left after it is sent too, so that the answer is right only when
    the memory happens to start with a NUL.  It exits with status 1 and never opens the file.
    When what was left is longer than the buffer of the log, it writes past that buffer.  A
    request whose first word is another is answered with the text of [bad_request], its [%s]
    included, and status 3. *)
Theorem web_request errno pid opens mb w name ext more fd s : buffers_ok mb -> name_ok name -> ext_ok ext ->
  w <> [] -> Forall (fun c => c <> 0 /\ space c = false) w ->
  Z.of_nat (length (w ++ 32 :: url_of name ext ++ 32 :: more)) < BUFSIZE ->
  let served := process_web_request errno pid opens mb (Some (w ++ 32 :: url_of name ext ++ 32 :: more)) fd s in
  if bool_decide (w = chars "GET") then
    (Z.of_nat (length (left_over mb)) <= 15800 -> exists log, served = Ok 1 (mk_web log (w_sent s ++ answer mb ext))) /\
    (2 * BUFSIZE <= Z.of_nat (length (left_over mb)) -> exists what, served = Fault what)
  else exists log, served = Ok 3 (mk_web log (w_sent s ++ bad_request)).
Proof.
  intros HB HN HE Hwn Hw Hl. destruct (request_reaches errno pid opens mb w name ext more fd s HB HN HE Hwn Hw Hl) as (log & r & E). cbv zeta. rewrite E.
  case_bool_decide as HG; [|by exists log]. split; [|apply respond_overflows]. intros HL.
  destruct (respond_ok errno pid opens mb name ext r fd (mk_web log (w_sent s)) HB HL HN HE) as [l5 E5]; [|by exists l5].
  rewrite length_app in Hl. cbn [length] in Hl. rewrite length_app in Hl. lia.
Qed.

(** ** The server *)

Lemma accept_loop_serves errno pid opens l s : Forall (fun a => 0 <= a.1 /\ 0 < a.2) l -> accept_loop errno pid opens l s = Ok (l.*1, None) s.
Proof.
  induction 1 as [|[fd ch] l [H1 H2] Hl IH]; [done|]. cbn [accept_loop fst snd] in *. rewrite !(proj2 (Z.ltb_ge _ _)) by lia. by mstep IH.
Qed.

(** With calls that succeed the server starts a child for every connection; a port over 60000
    ends it. *)
Lemma web_main_serves errno pid opens c port_arg s : c_chdir c = 0 -> c_fork c = 0 -> 0 <= c_socket c -> c_bind c = 0 -> c_listen c = 0 ->
  Forall (fun a => 0 <= a.1 /\ 0 < a.2) (c_accepts c) -> Z.of_nat (length port_arg) <= 1000 ->
  exists log, main errno pid opens c port_arg s =
    if (0 <=? atoi port_arg) && (atoi port_arg <=? 60000) then Ok ((c_accepts c).*1, None) (mk_web log (w_sent s)) else Ok (quit 3) (mk_web log (w_sent s)).
Proof.
  intros H1 H2 H3 H4 H5 HA HL. unfold main. rewrite H1, H2, H4, H5. cbn [Z.eqb negb Z.ltb Z.compare check]. unfold check at 1. rewrite (proj2 (Z.ltb_ge _ _)) by lia.
  unfold debug_exit at 1. pose proof (dec_length pid). pose proof (dec_length errno). rewrite (proj2 (Z.leb_gt _ _)).
  2:{ rewrite !length_app. change (length (chars " INFO: ")) with 7%nat. change (length (chars ":")) with 1%nat. change (length (chars "web server starting...")) with 22%nat. unfold BUFSIZE. lia. }
  assert (HO : forall (A : Type) line (k : M web A), exists log, (when opens (modify (fun s => mk_web (w_log s ++ [line]) (w_sent s))) ;;; k) s = k (mk_web log (w_sent s))) by (intros; destruct opens, s; by eexists).
  edestruct HO as [l1 E1]. rewrite E1. clear E1 HO. set (s1 := mk_web l1 (w_sent s)).
  unfold check at 1. replace ((atoi port_arg <? 0) || (60000 <? atoi port_arg)) with (negb ((0 <=? atoi port_arg) && (atoi port_arg <=? 60000))) by (rewrite negb_andb, <- !Z.ltb_antisym; done).
  destruct ((0 <=? atoi port_arg) && (atoi port_arg <=? 60000)); cbn [negb].
  - exists l1. by apply accept_loop_serves.
  - unfold debug_exit. rewrite (proj2 (Z.leb_gt _ _)); [destruct opens; by eexists|]. rewrite !length_app.
    change (length (chars "ERROR: ")) with 7%nat. change (length (chars ":")) with 1%nat. change (length (chars " Errno=")) with 7%nat. change (length (chars " exiting pid=")) with 13%nat.
    change (length (chars "Puerto invalido, prueba un puerto de 1 a 60000")) with 46%nat. unfold BUFSIZE. lia.
Qed.

(** ** Examples *)

(** Memory of [b], and zeros after it. *)
Definition memory (b : list Z) : list Z := b ++ replicate (MSIZE - length b) 0.
Definition used_buffers (old : list Z) : buffers := mk_buffers (memory []) (memory []) (memory []) (memory []) (memory old).

Lemma used_buffers_ok old : (length old < MSIZE)%nat -> buffers_ok (used_buffers old).
Proof.
  intros H. assert (HM : forall b, (length b < MSIZE)%nat -> length (memory b) = MSIZE) by (intros b Hb; unfold memory; rewrite length_app, length_replicate; lia).
  split; cbn [used_buffers m_buffer m_metodo m_url m_version m_ok]; apply HM; cbn [length]; lia.
Qed.

(** The memory of the response still holds a string: the client gets it before the header. *)
Lemma web_request_witness : exists log sent, process_web_request 0 7 true (used_buffers (chars "old")) (Some (chars "GET /logo.png HTTP/1.0")) 4 (mk_web [] []) =
  Ok 1 (mk_web log sent) /\ take 40 sent = chars "oldHTTP/1.1 200 OK" ++ CR :: LF :: chars "Content-type: image/".
Proof.
  destruct (web_request 0 7 true (used_buffers (chars "old")) (chars "GET") (chars "logo") (chars "png") (chars "HTTP/1.0") 4 (mk_web [] [])) as [W _].
  - apply used_buffers_ok. apply Nat2Z.inj_lt. rewrite msize. by vm_compute.
  - split; [done|by_decide].
  - split; [done|by_decide].
  - done.
  - by_decide.
  - by vm_compute.
  - destruct W as [log E]; [by vm_compute|]. exists log, (answer (used_buffers (chars "old")) (chars "png")). split; [exact E|].
    unfold answer. rewrite take_take. by vm_compute.
Defined.

(** A url without a dot has no second token: the comparison reads a null pointer. *)
Example no_extension_faults :
  process_web_request 0 7 true (mk_buffers (replicate 9000 0) (replicate 99 0) (replicate 99 0) (replicate 99 0) (replicate 99 0))
    (Some (chars "GET /logo HTTP/1.0")) 4 (mk_web [] []) = Fault "strcmp of a null pointer".
Proof. vm_compute. reflexivity. Qed.
