(* ===== verification/Arch.v ===== *)
(** * Arch: the exercises on processor architecture (src/AEC)

    Pairs of programs that compute the same in different ways, to measure their cycles and
    their cache misses.  [float] and its operations are a parameter: the loops are compared without
    a law of arithmetic, but where one is stated. *)

From S2P Require Import Prelude Kernel.

(** ** Multiplication by additions (programa_con_multiplicacion.c, programa_sin_multiplicacion.c) *)

(** [for (t=0; t<b; t++)] with [n] iterations left. *)
Fixpoint mult_loop (n : nat) (a resultado : Z) : Z :=
  match n with
  | O => resultado
  | S n' => mult_loop n' a (i32 (resultado + a))
  end.
Definition multiplica_ent (a b : Z) : Z := mult_loop (Z.to_nat b) a 0.

(** [for(i=0; i<32768; i+=32)] with [n] iterations left: the array and [t]. *)
Fixpoint con_loop (n : nat) (i : Z) (a : Z -> Z) (t : Z) : (Z -> Z) * Z :=
  match n with
  | O => (a, t)
  | S n' =>
      let a := fun k => if k =? i then 10 else a k in
      con_loop n' (i + 32) a (i32 (t + i32 (t * a i)))
  end.
Fixpoint sin_loop (n : nat) (i : Z) (a : Z -> Z) (t : Z) : (Z -> Z) * Z :=
  match n with
  | O => (a, t)
  | S n' =>
      let a := fun k => if k =? i then 10 else a k in
      sin_loop n' (i + 32) a (i32 (t + multiplica_ent t (a i)))
  end.

Definition con_main : (Z -> Z) * Z := con_loop 1024 0 (fun _ => 0) 0.
Definition sin_main : (Z -> Z) * Z := sin_loop 1024 0 (fun _ => 0) 0.

Lemma i32_u32 x y : u32 x = u32 y -> i32 x = i32 y.
Proof. unfold i32. by intros ->. Qed.

Lemma u32_i32 x : u32 (i32 x) = u32 x.
Proof.
  unfold i32. destruct (Z.ltb_spec (u32 x) (2 ^ 31)); unfold u32.
  - apply Z.mod_mod. lia.
  - replace (x mod 2 ^ 32 - 2 ^ 32) with (x mod 2 ^ 32 + -1 * 2 ^ 32) by lia. rewrite Z_mod_plus_full. apply Z.mod_mod. lia.
Qed.

(** The additions give the product, with the same overflow, for a second factor that is not negative. *)
Lemma multiplica_ent_multiplies a b : 0 <= b -> multiplica_ent a b = i32 (a * b).
Proof.
  intros Hb. unfold multiplica_ent. assert (HG : forall n r, mult_loop n a (i32 r) = i32 (r + a * Z.of_nat n)).
  { induction n as [|n IH]; intros r; cbn [mult_loop]; [f_equal; lia|].
    assert (E : i32 (i32 r + a) = i32 (r + a)) by (apply i32_u32; unfold u32; rewrite <- (Zplus_mod_idemp_l (i32 r)), <- (Zplus_mod_idemp_l r); fold (u32 (i32 r)) (u32 r); by rewrite u32_i32).
    rewrite E, IH. f_equal. lia. }
  rewrite (HG (Z.to_nat b) 0 : mult_loop (Z.to_nat b) a 0 = _), Z2Nat.id by done. done.
Qed.

(** From any value of [t] the two loops compute the same. *)
Lemma loops_agree n : forall i a t, sin_loop n i a t = con_loop n i a t.
Proof. induction n as [|n IH]; intros i a t; cbn [sin_loop con_loop]; [done|]. rewrite Z.eqb_refl, multiplica_ent_multiplies by lia. apply IH. Qed.

(** The programs agree; as [t] starts at 0 its value never changes. *)
Theorem mult_programs_agree : sin_main = con_main /\ snd con_main = 0.
Proof.
  split; [apply loops_agree|]. unfold con_main. assert (HG : forall n i a, snd (con_loop n i a 0) = 0); [|apply HG].
  induction n as [|n IH]; intros i a; cbn [con_loop]; [done|]. change (i32 (0 + i32 (0 * _))) with 0. apply IH.
Qed.

Section Floats.
Context {F : Type} (fzero : F) (fadd fmul fdiv : F -> F -> F) (of_int : Z -> F).

(** ** Loops together and apart (p1.c, p2.c, p3.c) *)

Definition SIZE : nat := 64.

(** [for(i=0; i<SIZE; ++i) x = x * a[i] + b[i];] with [n] iterations left. *)
Fixpoint horner (n i : nat) (a b : nat -> F) (x : F) : F :=
  match n with
  | O => x
  | S n' => horner n' (S i) a b (fadd (fmul x (a i)) (b i))
  end.

(** [valx] and [valy] of p1 and p2, which differ in the place of the arrays only. *)
Definition p1_main (a b c : nat -> F) : F * F :=
  let x := horner SIZE 0 a b fzero in
  let y := horner SIZE 0 a c fzero in
  (x, y).
Definition p2_main : (nat -> F) -> (nat -> F) -> (nat -> F) -> F * F := p1_main.

Fixpoint fused (n i : nat) (a b c : nat -> F) (x y : F) : F * F :=
  match n with
  | O => (x, y)
  | S n' => fused n' (S i) a b c (fadd (fmul x (a i)) (b i)) (fadd (fmul y (a i)) (c i))
  end.
Definition p3_main (a b c : nat -> F) : F * F := fused SIZE 0 a b c fzero fzero.

(** The fusion of the loops changes no operation and no order of them, so not the result, whatever
    the rounding. *)
Theorem fusion_agrees a b c : p3_main a b c = p1_main a b c.
Proof.
  unfold p3_main, p1_main. assert (HG : forall n i x y, fused n i a b c x y = (horner n i a b x, horner n i a c y)); [|apply HG].
  induction n as [|n IH]; intros i x y; [done|]. cbn [fused horner]. apply IH.
Qed.

(** [x] and [y] are global in p6, and start at 0. *)
Definition p6_main (a b : nat -> F) : F * F := (horner SIZE 0 a b fzero, horner SIZE 0 a b fzero).

Lemma p6_same a b : p6_main a b = p1_main a b b.
Proof. done. Qed.

(** ** Sums by columns and by rows (p4.c, p5.c) *)

(** The inner loops over [i] and over [j]. *)
Fixpoint sum_col (n i j : nat) (a : nat -> nat -> F) (x : F) : F :=
  match n with O => x | S n' => sum_col n' (S i) j a (fadd x (a i j)) end.
Fixpoint sum_row (n i j : nat) (a : nat -> nat -> F) (x : F) : F :=
  match n with O => x | S n' => sum_row n' i (S j) a (fadd x (a i j)) end.
Fixpoint by_cols (n j : nat) (a : nat -> nat -> F) (x : F) : F :=
  match n with O => x | S n' => by_cols n' (S j) a (sum_col SIZE 0 j a x) end.
Fixpoint by_rows (n i : nat) (a : nat -> nat -> F) (x : F) : F :=
  match n with O => x | S n' => by_rows n' (S i) a (sum_row SIZE i 0 a x) end.
Definition p4_main (a : nat -> nat -> F) : F := by_cols SIZE 0 a fzero.
Definition p5_main (a : nat -> nat -> F) : F := by_rows SIZE 0 a fzero.

Lemma sum_col_foldl n : forall i j a x, sum_col n i j a x = foldl fadd x ((fun i => a i j) <$> seq i n).
Proof. induction n as [|n IH]; intros i j a x; [done|]. cbn [sum_col seq fmap list_fmap foldl]. apply IH. Qed.
Lemma sum_row_foldl n : forall i j a x, sum_row n i j a x = foldl fadd x ((fun j => a i j) <$> seq j n).
Proof. induction n as [|n IH]; intros i j a x; [done|]. cbn [sum_row seq fmap list_fmap foldl]. apply IH. Qed.

Lemma by_cols_foldl n : forall j a x, by_cols n j a x = foldl fadd x (concat ((fun j => (fun i => a i j) <$> seq 0 SIZE) <$> seq j n)).
Proof. induction n as [|n IH]; intros j a x; [done|]. cbn [by_cols seq fmap list_fmap concat]. by rewrite foldl_app, IH, sum_col_foldl. Qed.
Lemma by_rows_foldl n : forall i a x, by_rows n i a x = foldl fadd x (concat ((fun i => (fun j => a i j) <$> seq 0 SIZE) <$> seq i n)).
Proof. induction n as [|n IH]; intros i a x; [done|]. cbn [by_rows seq fmap list_fmap concat]. by rewrite foldl_app, IH, sum_row_foldl. Qed.

(** A column put before the rows. *)
Lemma concat_cons_perm {A} (l : list nat) (f : nat -> A) (g : nat -> list A) : concat ((fun i => f i :: g i) <$> l) ≡ₚ (f <$> l) ++ concat (g <$> l).
Proof. induction l as [|i l IH]; [done|]. cbn [fmap list_fmap concat app]. rewrite IH, !app_assoc. constructor. apply Permutation_app_tail. apply Permutation_app_comm. Qed.

Lemma cols_rows_perm n : forall m k (a : nat -> nat -> F), concat ((fun j => (fun i => a i j) <$> seq 0 n) <$> seq k m) ≡ₚ concat ((fun i => (fun j => a i j) <$> seq k m) <$> seq 0 n).
Proof.
  induction m as [|m IH]; intros k a.
  - cbn [seq fmap list_fmap concat]. induction (seq 0 n) as [|i l IHl]; [done|]. by cbn.
  - cbn [seq]. change ((fun i => (fun j => a i j) <$> k :: seq (S k) m) <$> seq 0 n) with ((fun i => a i k :: ((fun j => a i j) <$> seq (S k) m)) <$> seq 0 n).
    rewrite (concat_cons_perm (seq 0 n) (fun i => a i k) (fun i => (fun j => a i j) <$> seq (S k) m)). cbn [fmap list_fmap concat]. by rewrite <- IH.
Qed.

Lemma foldl_perm `{!Assoc (=) fadd, !Comm (=) fadd} l1 l2 x : l1 ≡ₚ l2 -> foldl fadd x l1 = foldl fadd x l2.
Proof.
  intros HP. revert x. induction HP as [|c l1 l2 HP IH|c d l|l1 l2 l3 H1 IH1 H2 IH2]; intros x; cbn [foldl]; [done|apply IH| |by rewrite IH1].
  f_equal. by rewrite <- !(assoc_L fadd), (comm_L fadd c d).
Qed.

(** The interchange of the loops keeps the sum when addition is associative and commutative, which
    that of floats is not. *)
Theorem interchange_agrees `{!Assoc (=) fadd, !Comm (=) fadd} a : p4_main a = p5_main a.
Proof. unfold p4_main, p5_main. rewrite by_cols_foldl, by_rows_foldl. apply foldl_perm, cols_rows_perm. Qed.

(** ** The product of two matrices by elements (prod_elem.c) *)

Definition N : Z := 512.

(** The three matrices, with a fault for a store outside. *)
Record mats : Type := mk_mats { mA : Z -> Z -> F; mB : Z -> Z -> F; mC : Z -> Z -> F }.
Definition inside (i j : Z) : bool := (0 <=? i) && (i <? N) && (0 <=? j) && (j <? N).
Definition upd2 (a : Z -> Z -> F) (i j : Z) (v : F) : Z -> Z -> F := fun k l => if (k =? i) && (l =? j) then v else a k l.
Definition storeA (i j : Z) (v : F) : M mats unit := fun s => if inside i j then Ok tt (mk_mats (upd2 (mA s) i j v) (mB s) (mC s)) else Fault "out of bounds".
Definition storeB (i j : Z) (v : F) : M mats unit := fun s => if inside i j then Ok tt (mk_mats (mA s) (upd2 (mB s) i j v) (mC s)) else Fault "out of bounds".
Definition storeC (i j : Z) (v : F) : M mats unit := fun s => if inside i j then Ok tt (mk_mats (mA s) (mB s) (upd2 (mC s) i j v)) else Fault "out of bounds".

(** [for(j=0;j<N;++j) body], with [n] iterations left, gives the last [j]. *)
Fixpoint for_j (n : nat) (j : Z) (body : Z -> M mats unit) : M mats Z :=
  match n with O => ret j | S n' => body j ;;; for_j n' (j + 1) body end.
(** The loop over [i] around it, gives the last [i] and [j]. *)
Fixpoint for_ij (n : nat) (i j : Z) (body : Z -> Z -> M mats unit) : M mats (Z * Z) :=
  match n with O => ret (i, j) | S n' => let! j := for_j (Z.to_nat N) 0 (body i) in for_ij n' (i + 1) j body end.

(** The body of the first loops is the first statement: there are no braces. *)
Definition prod_main : M mats unit :=
  let! '(i, j) := for_ij (Z.to_nat N) 0 0 (fun i j => storeA i j (fdiv (of_int i) (of_int j))) in
  storeB i j (fdiv (of_int j) (of_int i)) ;;;
  storeC i j (of_int (i + j)) ;;;
  let! _ := for_ij (Z.to_nat N) 0 0 (fun i j => let! s := get in storeC i j (fmul (mA s i j) (mB s i j))) in
  ret tt.

Lemma for_j_ends n : forall i j s, 0 <= i < N -> 0 <= j -> j + Z.of_nat n <= N -> exists s', for_j n j (fun j => storeA i j (fdiv (of_int i) (of_int j))) s = Ok (j + Z.of_nat n) s'.
Proof.
  induction n as [|n IH]; intros i j s Hi Hj Hn; cbn [for_j].
  - exists s. unfold ret. f_equal. lia.
  - unfold bind, storeA at 1. unfold inside. rewrite !(proj2 (Z.leb_le _ _)), !(proj2 (Z.ltb_lt _ _)) by lia. cbn [andb].
    destruct (IH i (j + 1) (mk_mats (upd2 (mA s) i j (fdiv (of_int i) (of_int j))) (mB s) (mC s)) Hi ltac:(lia) ltac:(lia)) as (s' & E). exists s'. rewrite E. f_equal. lia.
Qed.

Lemma for_ij_ends n : forall i j s, 0 <= i -> i + Z.of_nat n <= N -> exists s', for_ij n i j (fun i j => storeA i j (fdiv (of_int i) (of_int j))) s = Ok (i + Z.of_nat n, if Nat.eqb n 0 then j else N) s'.
Proof.
  induction n as [|n IH]; intros i j s Hi Hn; cbn [for_ij].
  - exists s. unfold ret. rewrite Z.add_0_r. done.
  - destruct (for_j_ends (Z.to_nat N) i 0 s ltac:(lia) ltac:(lia) ltac:(unfold N; lia)) as (s1 & E1). mstep E1.
    destruct (IH (i + 1) (0 + Z.of_nat (Z.to_nat N)) s1 ltac:(lia) ltac:(lia)) as (s2 & E2). exists s2. rewrite E2. f_equal. f_equal; [lia|]. destruct n; cbn [Nat.eqb]; [unfold N; lia|done].
Qed.

(** The stores to [B] and [C] run once, after the loops, outside of the matrices. *)
Theorem prod_elem_out_of_bounds s : prod_main s = Fault "out of bounds".
Proof.
  unfold prod_main. destruct (for_ij_ends (Z.to_nat N) 0 0 s ltac:(lia) ltac:(unfold N; lia)) as (s1 & E1). mstep E1. done.
Qed.

End Floats.
